(* ===== verification/_CoqProject ===== *)
-Q . S2P
Prelude.v
JsString.v
JsNumber.v
NumberOrder.v
JsValue.v
Json.v
JsSame.v
JsOps.v
StatusCodeRules.v
StatusCodeRisk.v
UpstreamUpdates.v
ParamOverride.v
ParamOverrideLaws.v
ParamOverrideTypes.v
ParamOverrideForms.v
ParamOverrideEditor.v
ParamOverrideInvariants.v
ModelPricing.v
ModelPricingLaws.v
ModelPricingHook.v
ElectronConnect.v
ElectronMain.v
ElectronLaws.v
ChannelList.v
ChannelListLaws.v
ChannelEdit.v
ChannelTest.v
ChannelTestLaws.v
Session.v
ModelPriceFile.v
ModelPriceLaws.v
ApiClient.v
OAuth.v
ChannelForm.v
ChannelFormLaws.v
ChannelModal.v
ChannelModalLaws.v
ParamRules.v
JsonEditor.v
Deployments.v
NewDeployment.v
NewDeploymentLaws.v
Verification.v
Tokens.v
OptionForms.v
OperationSettings.v
OperationLaws.v
PerformanceSettings.v
PaymentSettings.v
ClawdSettings.v
ClawdStream.v
ClawdChat.v
ClawdMascot.v
Users.v
TextRender.v
Dates.v
LogTable.v
Amounts.v
MultiKeys.v
UserEditor.v
TokenEditor.v
TagEditor.v
Permissions.v
AlipayQR.v
AlipayQRLaws.v
Topup.v
TopupHistory.v
AuthForms.v
LoginForm.v
RegisterForm.v
PasswordReset.v
Setup.v
Bill.v
UsageRows.v
UsageLogs.v
TaskLogs.v
PricingPage.v
