(* ===== verification/Prelude.v ===== *)
(** * DazeAPI web console: verification library (root)

    A model of the parts of the DazeAPI console (the React front end under
    [src/web/src] and its Electron shell under [src/electron]) that hold logic of
    their own, with the theorems that state what they promise.

    ** Layers

    - [Prelude]: lists, stable sorting, sets in insertion order, and the automation
      the other files use ([js] and [js_rw] hints, [bool_simp], [split_matches]).
    - [JsString], [JsNumber], [JsValue], [Json]: the JavaScript the sources are
      written in.  A string is a list of UTF-16 units; [u] turns a literal into one.
      A number is a binary64 of [SpecFloat]; printing, [toFixed], [parseFloat] and
      [Number] are written out.  A value is a JSON value or [undefined]; the
      properties of an object are in JavaScript's enumeration order.  [Json] has
      [JSON.parse] and [JSON.stringify] and proves, as instances of the interface
      [Codec], that the values [json_ok] accepts survive printing and parsing, with
      or without indentation; the files above use that interface.
    - [NumberOrder]: sums of numbers, and their order.
    - [JsSame]: values up to the order of keys, and their equality decided.
    - [JsOps]: the conversions of [+], [===], [Object.entries], [replace],
      [encodeURIComponent] and [parseInt] that the hooks and helpers need.
    - one or more files per component, listed below.

    A conversion of JavaScript that throws is [None] of an option, and a handler
    that throws is an effect [Uncaught] or a message; no error is silently dropped.
    The fuel of the parser is computed from the text ([json_fuel]), and
    [json_fuel_enough] shows that more changes nothing; the other recursions are
    structural or count what is left.

    ** Components

    - [StatusCodeRules] ([helpers/statusCodeRules.js]): lists of HTTP status codes and
      ranges.  Accepted texts, the ranges returned, and the normal form.
    - [StatusCodeRisk] ([statusCodeRiskGuard.js]): which redirects of status codes
      need a confirmation.
    - [UpstreamUpdates] ([useChannelUpstreamUpdates.jsx], [upstreamUpdateUtils.js]):
      the hook that detects and applies upstream model changes, as a step function
      over clicks and answers of the server in any order: one call of each kind in
      flight, flags released at the end, what a request holds.
    - [ParamOverride], [ParamOverrideLaws], [ParamOverrideForms]
      ([ParamOverrideEditorModal.jsx] up to line 1294 and
      [channel-affinity-template.constants.js]): the rules that rewrite requests,
      their JSON text, validation, the drafts of the forms, the templates.  Saving
      and loading, the forms' round trips and where they fail.
    - [ParamOverrideTypes]: a language of JSON types and the schema of each mode,
      written by hand; every text that is saved has them.
    - [ParamOverrideEditor], [ParamOverrideInvariants] (the component of the same
      file): its state, effects after a render and handlers, with the invariant of
      every reachable state, the two editing modes and saving.
    - [ModelPricing], [ModelPricingLaws], [ModelPricingHook]
      ([useModelPricingEditorState.js]): prices as texts, the object that is sent,
      its reload, the hook's invariant and its edits.
    - [ElectronConnect], [ElectronMain], [ElectronLaws] ([electron/main.js]): waiting
      for the server, the process's life, its error log and dialogs, and quitting.
    - [ChannelList], [ChannelListLaws] ([useChannelSearch.js] and the handlers of
      [ChannelsTabs.jsx], [ChannelsActions.jsx] and [ChannelsFilters.jsx]): the rows of
      the channel table, alone or grouped by tag, and its requests.  Grouping refines
      building each tag's row alone; only the last load is shown; searches lose their
      page.
    - [ChannelEdit] ([useChannelCRUD.js]): every action on channels
      and tags with the reload of its click, composed with [ChannelList]; an action that
      ends after a page change loads the old page.
    - [ChannelTest], [ChannelTestLaws] ([useChannelTest.js], [ModelTestModal.jsx]):
      tests of one model and batches of five, composed with the list: the state holds
      the list, and a test that ends writes to the table of the render that started it.
      At most five tests are awaited, a batch ends, and where stopping fails.
    - [Session] ([data.js], [auth.jsx], [boolean.js], [log.js], [useUserPermissions.js] and
      the storage helpers of [utils.jsx]): what is stored of the user and the site,
      and the roles, routes and permissions read from it.
    - [ModelPriceFile], [ModelPriceLaws] ([ModelSettingsFileEditor.jsx]): the prices as a
      file, cleaned, sorted and appended to with choices where models differ; which
      differences are shown.
    - [ApiClient] ([api.js] up to line 113, [showError] of [utils.jsx]): requests in
      flight and the callers that share them.  The maps of the instances refine a
      specification, [Spec], that keeps groups of callers.
    - [OAuth] (the rest of [api.js], [token.js], [secureApiCall.js]): logins of the
      providers over the session, token keys and verification errors.
    - [ChannelForm], [ChannelFormLaws], [ChannelModal], [ChannelModalLaws]
      ([EditChannelModal.jsx]): the form of a channel as text and as settings, and the
      dialog over it with its questions: what is written has been checked and confirmed.
    - [ParamRules] ([ParamOverrideEditor.jsx]) and [JsonEditor] ([JSONEditor.jsx]): the two editors inside that dialog.  Rules and
      rows come back from the texts that they tell the dialog, as they are read there; what
      they do not show is lost.
    - [Deployments] ([useDeploymentsData.jsx]): the table of rented
      machines and the channel made from one, which [ChannelForm] knows again.
    - [NewDeployment], [NewDeploymentLaws] ([CreateDeploymentModal.jsx]): the dialog in
      which one is rented, as eleven effects with their dependencies.  [render] runs those
      whose dependencies changed, [settle] renders until none has; six renders are enough
      from any state ([effects_settle], which is why [rounds] is 6).
    - [MultiKeys] ([MultiKeyManageModal.jsx]): the keys of a channel;
      every flag has a call in flight that releases it.
    - [Verification] ([secureVerification.js], [useSecureVerification.jsx]): the dialog
      before sensitive calls, which no factor can pass any more.
    - [Tokens] ([useTokensData.jsx]) and [Users] ([useUsersData.jsx]): pages,
      searches and actions; requests for the key of a token are shared by their callers,
      and buttons, pages and batches that ask for one hear once.
    - [Dates], [LogTable], [UsageRows], [UsageLogs], [TaskLogs]
      ([useUsageLogsData.jsx], [useTaskLogsData.js] and the dates of [utils.jsx]): the
      tables of logs, their columns in the storage and the rows with their bills; only the
      latest load of the usage logs is shown.
    - [TextRender], [Amounts], [Bill] ([render.jsx], [quota.js], the prices of
      [utils.jsx]): categories and colours of names, texts cut to a width, amounts in
      the display currency over the session's storage, the lines of a bill and the
      price of a model.
    - [PricingPage] ([useModelPricingData.jsx], [usePricingFilterCounts.js]): the page of
      model prices; its two implementations of the filters agree.

    - [OptionForms]: what the forms of settings share: the options of the
      server, the comparison of a form with what was loaded, the requests of a save.
      Over them [OperationSettings], [OperationLaws] ([OperationSetting.jsx] with five
      forms), [PerformanceSettings] ([SettingsPerformance.jsx]),
      [PaymentSettings] (both payment gateways) and [ClawdSettings]
      ([SettingsClawd.jsx]): only changes are sent; what a save and a refresh do to the
      other forms; which refusals are told.
    - [ClawdStream], [ClawdChat] ([ClawdChatPanel.jsx]) and [ClawdMascot]
      ([ClawdMascot.jsx]): the chat with the agent.  The stream is read in chunks; a turn
      records what the lines say that each of them completes, which is what the whole
      stream says where nothing follows its end, and the dot of the crab tells an answer
      that nobody has seen.
    - [UserEditor] ([EditUserModal.jsx]), [TokenEditor]
      ([EditTokenModal.jsx], [QuotaAmountField.jsx]) and [TagEditor]
      ([EditTagModal.jsx]): the dialogs of a user, a token and a tag: what comes back, what
      is checked before it is sent, and where an answer reaches the wrong form.
    - [Permissions] ([pages/Permission/index.jsx]): what root lets an
      administrator do, which [Session] reads, and the loop that reads all pages of a list.
    - [AlipayQR], [AlipayQRLaws], [Topup], [TopupHistory] ([components/topup]):
      the dialog with a code to pay, composed with its page: the effects of a render with
      their dependencies and cleanups, among them the language, the intervals, one order for
      each opening and each change of the language, its five minutes, and the bills.
    - [AuthForms], [LoginForm], [RegisterForm], [PasswordReset] ([components/auth]): the forms
      of an account.  [AuthForms] has the addresses that may register, the terms and the
      interface [Pausing] of a page whose button rests, which two of the pages implement.
    - [Setup] ([components/setup], [SetupCheck.js]): the wizard that sets the system up.

    ** State and time

    A React component is a record of its [useState] values; a handler is a function
    on it, a render and its effects are [settle] or [render], and a step is an event
    followed by them.  Requests are effects of a log (last first), and their answers
    are later events, so that every interleaving is a list of events.  Reachability
    is an inductive predicate or a run from the initial state.  A handler that is
    suspended at an [await] keeps the render it was made in beside the state of now,
    so that what it reads later is what the closure holds; objects that several
    renders share are kept in a store of tables ([ChannelList.tables]).

    The hooks send their requests through [ApiClient], which lets identical requests
    in flight share an answer; the models of the hooks let each be answered by
    itself, so that their theorems hold for more interleavings than there are.
    The loops with fuel are [TextRender.search], whose fuel [2 + log2 n] is shown to be
    enough, [ChannelList.indexed], bounded by the properties of its object,
    [JsonEditor.fresh_from], which looks at one name more than there are,
    [NewDeployment.settle] and the parser.  The loop over the pages of a list and the
    timers of the chat are steps of their own; [Permissions.all_pages_read] runs the
    loop with the 200 pages that it allows.

    ** Parameters

    The translation function, the engine's clock (in identifiers), its locale order
    and case mapping, its error messages, the [URL] class, the widths of texts, Node's
    [path.join] and the answers of the server and of Electron are arguments of the
    definitions; so are [Math.log], the clock of dayjs, the readers of markdown and of bytes
    in the chat, and what the form of the library holds after [setValues].  The assumptions
    on them are hypotheses of the theorems that need
    them: a translation of a message is not empty, only the empty text has the empty
    text as its lower case, a longer beginning of a text is not narrower.

    ** Not modelled

    Markup, styles, console output, animations, third-party libraries, and the components
    that the manifest lists as such, among them pages and dialogs that nothing mounts
    ([SystemSetting.jsx], the panels of [DashboardSetting.jsx]); the Go server is the environment.  Object keys
    such as [__proto__] that reach inherited properties are outside the value model;
    so are lone effects of timing (the clock only names identifiers). *)

From stdpp Require Import base numbers option sets list.

(** ** The js hint database and the shared tactics *)

Create HintDb js.
Create Rewrite HintDb js_rw.

(** Split every boolean conjunction, disjunction and test found in the context. *)
Ltac bool_simp :=
  repeat match goal with
  | H : (_ && _) = true |- _ => apply andb_true_iff in H as [? ?]
  | H : (_ || _) = false |- _ => apply orb_false_iff in H as [? ?]
  | H : negb _ = true |- _ => apply negb_true_iff in H
  | H : negb _ = false |- _ => apply negb_false_iff in H
  | H : bool_decide _ = true |- _ => apply bool_decide_eq_true_1 in H
  | H : bool_decide _ = false |- _ => apply bool_decide_eq_false_1 in H
  | H : Is_true _ |- _ => apply Is_true_true in H
  end.

(** Case analysis on every [match] or [if] of the goal, keeping the equations. *)
Ltac split_matches := repeat (case_match; simplify_eq/=).

(** Close a goal that holds because a hypothesis contradicts a computed test. *)
Ltac contra := exfalso; bool_simp; simplify_eq/=; try congruence; try lia; try done.

(** ** Generic list functions and their lemmas *)

(** The longest suffix that starts with an element outside [p]. *)
Fixpoint drop_while {A} (p : A → bool) (l : list A) : list A :=
  match l with
  | [] => []
  | x :: l' => if p x then drop_while p l' else l
  end.

(** The longest prefix of elements in [p], with the rest of the list. *)
Fixpoint span {A} (p : A → bool) (l : list A) : list A * list A :=
  match l with
  | [] => ([], [])
  | x :: l' => if p x then let '(a, b) := span p l' in (x :: a, b) else ([], l)
  end.

(** [l] starts with an element outside [p], or is empty. *)
Definition head_out {A} (p : A → bool) (l : list A) : Prop :=
  match l with [] => True | x :: _ => p x = false end.

Section list_lemmas.
Context {A : Type}.
Implicit Types (p : A → bool) (l : list A).

Lemma drop_while_head p l : head_out p (drop_while p l).
Proof. induction l as [|x l IH]; simpl; [done|]. by destruct (p x) eqn:E; simpl. Qed.

Lemma drop_while_id p l : head_out p l → drop_while p l = l.
Proof. destruct l as [|x l]; simpl; [done|]. by intros ->. Qed.

Lemma drop_while_idemp p l : drop_while p (drop_while p l) = drop_while p l.
Proof. apply drop_while_id, drop_while_head. Qed.

Lemma drop_while_app_all p l1 l2 :
  Forall (λ x, p x = true) l1 → drop_while p (l1 ++ l2) = drop_while p l2.
Proof. induction 1 as [|x l1 Hx _ IH]; simpl; [done|]. by rewrite Hx. Qed.

Lemma drop_while_nil p l : drop_while p l = [] ↔ Forall (λ x, p x = true) l.
Proof.
  induction l as [|x l IH]; simpl; [done|]. rewrite Forall_cons.
  destruct (p x) eqn:E; naive_solver.
Qed.

(** Dropping only removes a prefix of elements in [p]. *)
Lemma drop_while_split p l :
  ∃ l1, l = l1 ++ drop_while p l ∧ Forall (λ x, p x = true) l1.
Proof.
  induction l as [|x l (l1 & IH & Hl1)]; simpl; [by exists []|].
  destruct (p x) eqn:E; [|by exists []].
  exists (x :: l1). split; [simpl; by f_equal | by constructor].
Qed.

Lemma span_app p l1 l2 :
  Forall (λ x, p x = true) l1 → head_out p l2 → span p (l1 ++ l2) = (l1, l2).
Proof.
  intros Hl1 Hl2. induction Hl1 as [|x l1 Hx _ IH]; simpl.
  - destruct l2 as [|y l2]; simpl in *; [done|]. by rewrite Hl2.
  - by rewrite Hx, IH.
Qed.

Lemma span_spec p l :
  l = (span p l).1 ++ (span p l).2 ∧ Forall (λ x, p x = true) (span p l).1 ∧
  head_out p (span p l).2.
Proof.
  induction l as [|x l IH]; simpl; [done|]. destruct (p x) eqn:E; simpl; [|done].
  destruct (span p l) as [a b]; simpl in *. destruct IH as (-> & ? & ?). auto.
Qed.

Lemma span_length p l : length (span p l).2 ≤ length l.
Proof.
  induction l as [|x l IH]; simpl; [done|].
  destruct (p x); [|done]. destruct (span p l); simpl in *. lia.
Qed.

Lemma head_out_app p l1 l2 : l1 ≠ [] → head_out p l1 → head_out p (l1 ++ l2).
Proof. by destruct l1. Qed.
End list_lemmas.

Lemma filter_all {A} (P : A → Prop) `{∀ x, Decision (P x)} (l : list A) :
  (∀ x, x ∈ l → P x) → filter P l = l.
Proof.
  induction l as [|x l IH]; intros Hp; [done|]. rewrite filter_cons_True by (apply Hp; by left).
  f_equal. apply IH. intros y Hy. apply Hp. by right.
Qed.

(** Removing duplicates the way [Array.from(new Set(xs))] does: the first
    occurrence of each element stays, in its place. *)
Section set_order.
Context {A : Type} `{EqDecision A}.

Fixpoint set_order_from (seen : list A) (l : list A) : list A :=
  match l with
  | [] => []
  | x :: l' =>
      if decide (x ∈ seen) then set_order_from seen l'
      else x :: set_order_from (x :: seen) l'
  end.

Definition set_order (l : list A) : list A := set_order_from [] l.

Lemma elem_of_set_order_from x seen l :
  x ∈ set_order_from seen l ↔ x ∈ l ∧ x ∉ seen.
Proof.
  revert seen. induction l as [|y l IH]; intros seen; simpl.
  - split; [by intros ?%elem_of_nil | by intros [?%elem_of_nil _]].
  - case_decide as Hy; rewrite ?elem_of_cons, IH, ?elem_of_cons; [naive_solver|].
    destruct (decide (x = y)); naive_solver.
Qed.

Lemma NoDup_set_order_from seen l : NoDup (set_order_from seen l).
Proof.
  revert seen. induction l as [|y l IH]; intros seen; simpl; [constructor|].
  case_decide; [done|]. constructor; [|done].
  rewrite elem_of_set_order_from, elem_of_cons. naive_solver.
Qed.

Lemma set_order_from_id seen l :
  NoDup l → (∀ x, x ∈ l → x ∉ seen) → set_order_from seen l = l.
Proof.
  intros Hl. revert seen. induction Hl as [|y l Hy _ IH]; intros seen Hs; simpl; [done|].
  rewrite decide_False by (apply Hs; by left). f_equal. apply IH.
  intros x Hx. rewrite elem_of_cons. intros [->|Hx']; [done|].
  by apply (Hs x); [right|].
Qed.

Lemma elem_of_set_order x l : x ∈ set_order l ↔ x ∈ l.
Proof. unfold set_order. rewrite elem_of_set_order_from. set_solver. Qed.

Lemma NoDup_set_order l : NoDup (set_order l).
Proof. apply NoDup_set_order_from. Qed.

Lemma set_order_id l : NoDup l → set_order l = l.
Proof. intros. apply set_order_from_id; [done|]. set_solver. Qed.

Lemma set_order_idemp l : set_order (set_order l) = set_order l.
Proof. apply set_order_id, NoDup_set_order. Qed.
End set_order.

(** Stable sorting, as [Array.prototype.sort] specifies it: [leb a b] is
    "the comparator does not place [b] before [a]". *)
Section sort.
Context {A : Type} (leb : A → A → bool).

Fixpoint insert_sorted (x : A) (l : list A) : list A :=
  match l with
  | [] => [x]
  | y :: l' => if leb x y then x :: l else y :: insert_sorted x l'
  end.

Definition sort (l : list A) : list A := foldr insert_sorted [] l.

Lemma insert_sorted_perm x l : insert_sorted x l ≡ₚ x :: l.
Proof.
  induction l as [|y l IH]; simpl; [done|]. destruct (leb x y); [done|].
  rewrite IH. apply Permutation_swap.
Qed.

Lemma sort_perm l : sort l ≡ₚ l.
Proof. induction l as [|x l IH]; simpl; [done|]. by rewrite insert_sorted_perm, IH. Qed.

Lemma elem_of_sort x l : x ∈ sort l ↔ x ∈ l.
Proof. by rewrite sort_perm. Qed.

(** [l] is in order: every element may stand before all that follow it. *)
Fixpoint in_order (l : list A) : Prop :=
  match l with
  | [] => True
  | x :: l' => Forall (λ y, leb x y = true) l' ∧ in_order l'
  end.

Hypothesis leb_total : ∀ a b, leb a b = true ∨ leb b a = true.
Hypothesis leb_trans : ∀ a b c, leb a b = true → leb b c = true → leb a c = true.

Lemma sort_in_order l : in_order (sort l).
Proof.
  assert (∀ x l, in_order l → in_order (insert_sorted x l)) as Hi.
  { intros x l'. induction l' as [|y l' IH]; simpl; [done|]. intros [Hy Hl].
    destruct (leb x y) eqn:E; simpl.
    - split; [|done]. constructor; [done|]. eapply Forall_impl; [done|]. simpl. eauto.
    - split; [|by apply IH]. rewrite insert_sorted_perm. constructor; [|done].
      destruct (leb_total x y); congruence. }
  induction l as [|x l IH]; simpl; auto.
Qed.

Lemma sort_id l : in_order l → sort l = l.
Proof.
  induction l as [|x l IH]; simpl; [done|]. intros [Hx Hl]. rewrite IH by done.
  destruct l as [|y l]; simpl; [done|]. apply Forall_cons in Hx as [-> _]. done.
Qed.

(** With an order that is antisymmetric on its elements, sorting forgets the order of
    its input. *)
Lemma in_order_unique l1 l2 :
  (∀ a b, a ∈ l1 → b ∈ l1 → leb a b = true → leb b a = true → a = b) →
  in_order l1 → in_order l2 → l1 ≡ₚ l2 → l1 = l2.
Proof.
  revert l2. induction l1 as [|x l1 IH]; intros [|y l2] Hanti H1 H2 Hp.
  - done.
  - by apply Permutation_nil_cons in Hp.
  - by symmetry in Hp; apply Permutation_nil_cons in Hp.
  - simpl in *. destruct H1 as [Hx H1], H2 as [Hy H2]. rewrite Forall_forall in Hx, Hy.
    assert (x = y) as ->.
    { assert (x ∈ y :: l2) as Hx2 by (rewrite <- Hp; by left).
      assert (y ∈ x :: l1) as Hy1 by (rewrite Hp; by left).
      apply elem_of_cons in Hx2 as [->|Hx2]; [done|].
      apply elem_of_cons in Hy1 as [->|Hy1]; [done|]. apply Hanti; [by left | by right | auto..]. }
    f_equal. apply IH; [|done..|by apply Permutation_cons_inv in Hp].
    intros a b Ha Hb. apply Hanti; by right.
Qed.
End sort.

(** ** How often an element occurs *)

Section occurrences.
Context {A : Type} `{EqDecision A}.

Definition occurs (x : A) (l : list A) : nat := length (List.filter (λ y, bool_decide (y = x)) l).
Definition one (b : bool) : nat := if b then 1 else 0.

Lemma occurs_app x l l' : occurs x (l ++ l') = occurs x l + occurs x l'.
Proof. unfold occurs. by rewrite List.filter_app, length_app. Qed.

Lemma occurs_one x y : occurs x [y] = one (bool_decide (y = x)).
Proof. unfold occurs. simpl. by destruct (bool_decide (y = x)). Qed.

Lemma occurs_delete x i l y : l !! i = Some y → occurs x l = occurs x (delete i l) + one (bool_decide (y = x)).
Proof.
  intros H. rewrite <- (take_drop_middle l i y H) at 1. rewrite delete_take_drop, !occurs_app.
  change (y :: drop (S i) l) with ([y] ++ drop (S i) l). rewrite occurs_app, occurs_one. lia.
Qed.

Lemma occurs_none x l : occurs x l = 0 ↔ x ∉ l.
Proof.
  induction l as [|y l IH]; [by split; [intros _; apply not_elem_of_nil|]|].
  change (y :: l) with ([y] ++ l). rewrite occurs_app, occurs_one, not_elem_of_app, list_elem_of_singleton.
  destruct (bool_decide (y = x)) eqn:E; cbn [one].
  - apply bool_decide_eq_true in E as ->. split; [lia|]. by intros [[] _].
  - apply bool_decide_eq_false in E. rewrite IH. split; [by split; [congruence|]|by intros [_ H0]].
Qed.
End occurrences.

#[export] Hint Resolve NoDup_set_order : js.
#[export] Hint Rewrite @elem_of_set_order : js_rw.
