(* ===== verification/JsString.v ===== *)
(** * JavaScript strings
    A string is the list of its UTF-16 code units.  This file defines the
    methods of [String.prototype] that the console uses and their lemmas. *)

From stdpp Require Import base numbers option strings sets list.
From S2P Require Import Prelude.
Local Open Scope N_scope.

Abbreviation jsstr := (list N).

(** ** Literals: [u "text"] is the code units of a UTF-8 literal *)

Fixpoint utf8_units (l : list N) : list N :=
  match l with
  | [] => []
  | a :: l1 =>
      if a <? 128 then a :: utf8_units l1
      else match l1 with
      | [] => []
      | b :: l2 =>
          if a <? 224 then ((a - 192) * 64 + (b - 128)) :: utf8_units l2
          else match l2 with
          | [] => []
          | c :: l3 =>
              if a <? 240 then
                ((a - 224) * 4096 + (b - 128) * 64 + (c - 128)) :: utf8_units l3
              else match l3 with
              | [] => []
              | d :: l4 =>
                  let cp := (a - 240) * 262144 + (b - 128) * 4096 + (c - 128) * 64 + (d - 128) in
                  (55296 + (cp - 65536) / 1024) :: (56320 + (cp - 65536) mod 1024) :: utf8_units l4
              end
          end
      end
  end.

Fixpoint string_bytes (s : string) : list N :=
  match s with
  | EmptyString => []
  | String a s' => Ascii.N_of_ascii a :: string_bytes s'
  end.

Definition u (s : string) : jsstr := utf8_units (string_bytes s).
Arguments u _%_string_scope : simpl never.

Example u_ascii : u "a,b" = [97; 44; 98].
Proof. reflexivity. Qed.
Example u_bmp : u "，" = [65292].
Proof. reflexivity. Qed.

(** ** White space and [trim] *)

(** WhiteSpace and LineTerminator code units of ECMAScript. *)
Definition is_ws (c : N) : bool :=
  existsb (N.eqb c)
    [9; 10; 11; 12; 13; 32; 160; 5760; 8192; 8193; 8194; 8195; 8196; 8197; 8198;
     8199; 8200; 8201; 8202; 8232; 8233; 8239; 8287; 12288; 65279].

Definition trim_start (s : jsstr) : jsstr := drop_while is_ws s.
Definition trim (s : jsstr) : jsstr := rev (trim_start (rev (trim_start s))).

(** [s] is its own trim. *)
Definition trimmed (s : jsstr) : Prop := trim s = s.

Lemma trim_start_head s : head_out is_ws (trim_start s).
Proof. apply drop_while_head. Qed.

Lemma head_out_trim s : head_out is_ws (trim s).
Proof.
  unfold trim. pose proof (trim_start_head s) as Hh.
  set (t := trim_start s) in *.
  destruct (drop_while_split is_ws (rev t)) as (l1 & Ht & Hl1).
  fold (trim_start (rev t)) in Ht.
  assert (t = rev (trim_start (rev t)) ++ rev l1) as Ht'.
  { rewrite <- rev_app_distr, <- Ht. symmetry. apply rev_involutive. }
  destruct (rev (trim_start (rev t))) as [|x r]; [done|].
  rewrite Ht' in Hh. done.
Qed.

Lemma trim_id s :
  head_out is_ws s → head_out is_ws (rev s) → trim s = s.
Proof.
  intros H1 H2. unfold trim, trim_start.
  rewrite (drop_while_id _ s) by done. rewrite drop_while_id by done.
  apply rev_involutive.
Qed.

Lemma trim_idemp s : trim (trim s) = trim s.
Proof.
  apply trim_id; [apply head_out_trim|].
  unfold trim. rewrite rev_involutive. apply trim_start_head.
Qed.

Lemma trimmed_trim s : trimmed (trim s).
Proof. apply trim_idemp. Qed.

Lemma trimmed_nil : trimmed [].
Proof. done. Qed.

Lemma trim_all_ws s : trim s = [] ↔ Forall (λ c, is_ws c = true) s.
Proof.
  unfold trim. split.
  - intros H. apply (f_equal (@rev _)) in H. rewrite rev_involutive in H. simpl in H.
    unfold trim_start in H. apply drop_while_nil in H.
    apply drop_while_nil. destruct (drop_while is_ws s) as [|x l] eqn:E; [done|].
    pose proof (drop_while_head is_ws s) as Hh. rewrite E in Hh. simpl in Hh.
    rewrite Forall_forall in H. specialize (H x). simpl in H.
    rewrite H in Hh; [done|]. apply list_elem_of_In, in_or_app. right. by left.
  - intros H. unfold trim_start. apply drop_while_nil in H. by rewrite H.
Qed.

Lemma trim_cons_nonws c s : is_ws c = false → trim (c :: s) ≠ [].
Proof. intros Hc H%trim_all_ws. apply Forall_cons in H as [H _]. congruence. Qed.

#[export] Hint Resolve trimmed_trim trimmed_nil : js.
#[export] Hint Rewrite trim_idemp : js_rw.

(** ** Truthiness of a string: only the empty string is falsy *)

Definition str_truthy (s : jsstr) : bool := match s with [] => false | _ => true end.

(** [a || b] on strings. *)
Definition str_or (a b : jsstr) : jsstr := match a with [] => b | _ => a end.

Lemma str_truthy_true s : str_truthy s = true ↔ s ≠ [].
Proof. by destruct s. Qed.
Lemma str_truthy_false s : str_truthy s = false ↔ s = [].
Proof. by destruct s. Qed.
#[export] Hint Rewrite str_truthy_true str_truthy_false : js_rw.

(** ** Searching: [startsWith], [endsWith], [includes], [indexOf] *)

Fixpoint starts_with (s p : jsstr) : bool :=
  match p, s with
  | [], _ => true
  | _, [] => false
  | a :: p', b :: s' => N.eqb a b && starts_with s' p'
  end.

Definition ends_with (s p : jsstr) : bool := starts_with (rev s) (rev p).

Fixpoint includes (s p : jsstr) : bool :=
  starts_with s p || match s with [] => false | _ :: s' => includes s' p end.

(** [s.indexOf(c)] for a one-unit needle; [None] is -1. *)
Fixpoint index_of (c : N) (s : jsstr) : option nat :=
  match s with
  | [] => None
  | x :: s' => if x =? c then Some 0%nat else S <$> index_of c s'
  end.

(** [s] without its first unit, when that unit is [c]. *)
Definition strip (c : N) (s : jsstr) : option jsstr :=
  match s with x :: r => if x =? c then Some r else None | [] => None end.

Lemma strip_Some c s r : strip c s = Some r ↔ s = c :: r.
Proof.
  destruct s as [|x s]; simpl; [done|].
  destruct (N.eqb_spec x c); naive_solver.
Qed.

Arguments starts_with : simpl nomatch.
Arguments includes : simpl nomatch.

Lemma starts_with_spec s p : starts_with s p = true ↔ ∃ r, s = p ++ r.
Proof.
  revert s. induction p as [|a p IH]; intros s; simpl.
  - destruct s; split; eauto.
  - destruct s as [|b s]; [split; [done | intros [r Hr]; discriminate Hr]|].
    simpl. rewrite andb_true_iff, N.eqb_eq, IH. naive_solver.
Qed.

Lemma includes_spec s p : includes s p = true ↔ ∃ l r, s = l ++ p ++ r.
Proof.
  induction s as [|x s IH]; unfold includes; fold includes.
  - rewrite orb_false_r, starts_with_spec. split.
    + intros [r Hr]. by exists [], r.
    + intros (l & r & H). destruct l; simplify_eq/=. by exists r.
  - rewrite orb_true_iff, starts_with_spec, IH. split.
    + intros [[r Hr]|(l & r & ->)]; [by exists [], r | by exists (x :: l), r].
    + intros (l & r & H). destruct l as [|y l]; simplify_eq/=.
      * left. by exists r.
      * right. by exists l, r.
Qed.

Lemma index_of_None c s : index_of c s = None ↔ c ∉ s.
Proof.
  induction s as [|x s IH]; simpl; [set_solver|].
  destruct (x =? c) eqn:E; rewrite ?N.eqb_eq, ?N.eqb_neq in E.
  - subst. split; [done|]. intros H. exfalso. apply H. by left.
  - rewrite fmap_None, IH, not_elem_of_cons. naive_solver.
Qed.

(** Cutting at the first occurrence: everything before it is free of [c]. *)
Lemma index_of_app c a b : c ∉ a → index_of c (a ++ c :: b) = Some (length a).
Proof.
  induction a as [|x a IH]; intros H; simpl; [by rewrite N.eqb_refl|].
  apply not_elem_of_cons in H as [Hx Ha].
  rewrite (proj2 (N.eqb_neq x c)) by done. by rewrite IH.
Qed.

(** ** [split] on one code unit, and [join] *)

Fixpoint split_on (c : N) (s : jsstr) : list jsstr :=
  match s with
  | [] => [[]]
  | x :: s' =>
      if x =? c then [] :: split_on c s'
      else match split_on c s' with
           | [] => [[x]]
           | w :: ws => (x :: w) :: ws
           end
  end.

Fixpoint join (sep : jsstr) (l : list jsstr) : jsstr :=
  match l with
  | [] => []
  | [w] => w
  | w :: l' => w ++ sep ++ join sep l'
  end.

Lemma split_on_nonnil c s : split_on c s ≠ [].
Proof. destruct s as [|x s]; simpl; [done|]. by destruct (x =? c), (split_on c s). Qed.

Lemma split_on_no_sep c w : c ∉ w → split_on c w = [w].
Proof.
  induction w as [|x w IH]; intros H; simpl; [done|].
  apply not_elem_of_cons in H as [Hx Hw].
  rewrite (proj2 (N.eqb_neq x c)) by done. by rewrite IH.
Qed.

Lemma split_on_cons c w s : c ∉ w → split_on c (w ++ c :: s) = w :: split_on c s.
Proof.
  induction w as [|x w IH]; intros H; simpl; [by rewrite N.eqb_refl|].
  apply not_elem_of_cons in H as [Hx Hw].
  rewrite (proj2 (N.eqb_neq x c)) by done. by rewrite IH.
Qed.

(** [split] undoes [join] when no piece holds the separator. *)
Lemma split_on_join c l :
  l ≠ [] → Forall (λ w, c ∉ w) l → split_on c (join [c] l) = l.
Proof.
  intros Hne Hl. induction Hl as [|w l Hw Hl IH]; [done|].
  destruct l as [|w' l]; [by apply split_on_no_sep|].
  change (join [c] (w :: w' :: l)) with (w ++ c :: join [c] (w' :: l)).
  rewrite split_on_cons by done. by rewrite IH.
Qed.

(** No piece of a split holds the separator. *)
Lemma split_on_pieces c s : Forall (λ w, c ∉ w) (split_on c s).
Proof.
  induction s as [|x s IH]; simpl; [by repeat constructor; apply not_elem_of_nil|].
  destruct (x =? c) eqn:E; [by constructor; [apply not_elem_of_nil|]|].
  apply N.eqb_neq in E. destruct (split_on c s) as [|w ws].
  - repeat constructor. set_solver.
  - apply Forall_cons in IH as [Hw Hws]. constructor; [|done].
    apply not_elem_of_cons. by split.
Qed.

Lemma elem_of_join c sep l : c ∈ join sep l → c ∈ sep ∨ ∃ w, w ∈ l ∧ c ∈ w.
Proof.
  induction l as [|w [|w' l] IH]; intros Hc.
  - by apply elem_of_nil in Hc.
  - right. exists w. by split; [left|].
  - change (join sep (w :: w' :: l)) with (w ++ sep ++ join sep (w' :: l)) in Hc.
    rewrite !elem_of_app in Hc. destruct Hc as [Hc|[Hc|Hc]]; [|by left|].
    + right. exists w. by split; [left|].
    + apply IH in Hc as [?|(x & ? & ?)]; [by left|]. right. exists x. by split; [right|].
Qed.

(** [join] undoes [split]. *)
Lemma join_split_on c s : join [c] (split_on c s) = s.
Proof.
  induction s as [|x s IH]; simpl; [done|].
  pose proof (split_on_nonnil c s) as Hne.
  destruct (x =? c) eqn:E.
  - apply N.eqb_eq in E as ->. destruct (split_on c s); [done|]. simpl. by rewrite <- IH.
  - destruct (split_on c s) as [|w ws]; [done|].
    rewrite <- IH. by destruct ws.
Qed.

(** [s.replaceAll(a, b)] for one-unit needles and replacements. *)
Definition replace_unit (a b : N) (s : jsstr) : jsstr :=
  map (λ c, if c =? a then b else c) s.

(** [s.replaceAll(a, '')] for a one-unit needle. *)
Definition remove_unit (a : N) (s : jsstr) : jsstr := filter (λ c, c ≠ a) s.

Lemma remove_unit_id a s : a ∉ s → remove_unit a s = s.
Proof.
  unfold remove_unit. induction s as [|x s IH]; intros H; [done|].
  apply not_elem_of_cons in H as [Hx Hs]. rewrite filter_cons_True by done. by rewrite IH.
Qed.
Lemma replace_unit_id a b s : a ∉ s → replace_unit a b s = s.
Proof.
  unfold replace_unit. induction s as [|x s IH]; intros H; simpl; [done|].
  apply not_elem_of_cons in H as [Hx Hs].
  rewrite (proj2 (N.eqb_neq x a)) by done. by rewrite IH.
Qed.

(** ** Order of strings: [<] on UTF-16 code units, as [Array.prototype.sort] uses *)

Fixpoint str_leb (a b : jsstr) : bool :=
  match a, b with
  | [], _ => true
  | _, [] => false
  | x :: a', y :: b' => if x <? y then true else if x =? y then str_leb a' b' else false
  end.

Lemma str_leb_total a b : str_leb a b = true ∨ str_leb b a = true.
Proof.
  revert b. induction a as [|x a IH]; intros [|y b]; simpl; auto.
  destruct (N.ltb_spec x y), (N.ltb_spec y x); auto.
  assert (x = y) as -> by lia. rewrite N.eqb_refl. apply IH.
Qed.

Lemma str_leb_trans a b c : str_leb a b = true → str_leb b c = true → str_leb a c = true.
Proof.
  revert b c. induction a as [|x a IH]; intros [|y b] [|z c]; simpl; try done.
  destruct (N.ltb_spec x y), (N.ltb_spec y z), (N.ltb_spec x z); try done; try lia;
  destruct (N.eqb_spec x y), (N.eqb_spec y z), (N.eqb_spec x z); try done; try lia.
  apply IH.
Qed.

Lemma str_leb_antisym a b : str_leb a b = true → str_leb b a = true → a = b.
Proof.
  revert b. induction a as [|x a IH]; intros [|y b]; simpl; try done.
  destruct (N.ltb_spec x y), (N.ltb_spec y x); try done; try lia;
  destruct (N.eqb_spec x y), (N.eqb_spec y x); try done; try lia.
  intros ??. subst. f_equal. by apply IH.
Qed.
