(* ===== verification/JsNumber.v ===== *)
(** * JavaScript numbers
    A Number is an IEEE-754 binary64 value ([spec_float] at precision 53 and
    exponent bound 1024).  This file defines its decimal input and output:
    [Number(text)], [parseInt], [parseFloat], [String(x)], [toFixed] and the
    number token of JSON. *)

From Stdlib Require Import SpecFloat.
From stdpp Require Import base numbers option strings sets list.
From S2P Require Import Prelude JsString.
Local Open Scope Z_scope.

Abbreviation num := spec_float.

#[export] Instance num_eq_dec : EqDecision num.
Proof. solve_decision. Defined.

(** ** Arithmetic and comparison *)

Definition nadd : num → num → num := SFadd 53 1024.
Definition nsub : num → num → num := SFsub 53 1024.
Definition nmul : num → num → num := SFmul 53 1024.
Definition ndiv : num → num → num := SFdiv 53 1024.
Definition num_of_Z (z : Z) : num := binary_normalize 53 1024 z 0 false.

(** [===], [<] and [<=] on Numbers. *)
Definition neqb : num → num → bool := SFeqb.
Definition nltb : num → num → bool := SFltb.
Definition nleb : num → num → bool := SFleb.

Lemma nltb_irrefl x : nltb x x = false.
Proof.
  unfold nltb, SFltb, SFcompare. destruct x as [[]|[]| |[] m e]; try done; rewrite Z.compare_refl, Pos.compare_cont_refl; done.
Qed.

Definition NaN : num := S754_nan.

Definition is_finite (x : num) : bool :=
  match x with S754_zero _ | S754_finite _ _ _ => true | _ => false end.
Definition is_nan (x : num) : bool := match x with S754_nan => true | _ => false end.

(** The exact rational [p / q] of a finite positive value [m * 2^e]. *)
Definition ratio (m : positive) (e : Z) : Z * Z :=
  if 0 <=? e then (Zpos m * 2 ^ e, 1) else (Zpos m, 2 ^ (- e)).

(** The integer a Number holds, if it holds one ([Number.isInteger]). *)
Definition num_to_Z (x : num) : option Z :=
  match x with
  | S754_zero _ => Some 0
  | S754_finite s m e =>
      let '(p, q) := ratio m e in
      if p mod q =? 0 then Some (if s then - (p / q) else p / q) else None
  | _ => None
  end.

Definition is_integer (x : num) : bool := bool_decide (is_Some (num_to_Z x)).

(** [Math.trunc] *)
Definition num_trunc (x : num) : num :=
  match x with
  | S754_finite s m e =>
      let '(p, q) := ratio m e in
      if p / q =? 0 then S754_zero s else num_of_Z (if s then - (p / q) else p / q)
  | _ => x
  end.

(** Falsy Numbers: +0, -0 and NaN. *)
Definition num_truthy (x : num) : bool :=
  match x with S754_zero _ | S754_nan => false | _ => true end.

(** ** Decimal digits *)

Definition is_digit (c : N) : bool := (48 <=? c)%N && (c <=? 57)%N.

Definition digits_val (s : jsstr) : N :=
  fold_left (λ a c, (10 * a + (c - 48))%N) s 0%N.

Fixpoint dec_fuel (fuel : nat) (x : N) : jsstr :=
  match fuel with
  | O => []
  | S f => if (x <? 10)%N then [(48 + x)%N] else dec_fuel f (x / 10) ++ [(48 + x mod 10)%N]
  end.

(** The decimal digits of [x], most significant first; [N.size_nat x] halvings
    bound the divisions by ten. *)
Definition dec_N (x : N) : jsstr := dec_fuel (S (N.size_nat x)) x.

Definition dec_Z (z : Z) : jsstr :=
  if z <? 0 then 45%N :: dec_N (Z.to_N (- z)) else dec_N (Z.to_N z).

Lemma digits_val_app a b c :
  digits_val (a ++ [c]) = (10 * digits_val a + (c - 48))%N ∧
  digits_val (b ++ a) = fold_left (λ a c, (10 * a + (c - 48))%N) a (digits_val b).
Proof. unfold digits_val. by rewrite !fold_left_app. Qed.

Lemma dec_fuel_spec f x :
  (x < 2 ^ N.of_nat f)%N → f ≠ O →
  digits_val (dec_fuel f x) = x ∧ Forall (λ c, is_digit c = true) (dec_fuel f x).
Proof.
  revert x. induction f as [|f IH]; intros x Hx Hf; [done|]. simpl.
  destruct (N.ltb_spec x 10).
  - split; [unfold digits_val; simpl; lia|].
    repeat constructor. unfold is_digit. rewrite andb_true_iff, !N.leb_le. lia.
  - assert (x / 10 < 2 ^ N.of_nat f)%N as Hd.
    { apply N.Div0.div_lt_upper_bound. rewrite Nat2N.inj_succ, N.pow_succ_r' in Hx. lia. }
    assert (f ≠ O) as Hf'. { intros ->. simpl in Hx. lia. }
    destruct (IH _ Hd Hf') as [IHv IHd]. split.
    + rewrite (proj1 (digits_val_app _ [] _)), IHv.
      pose proof (N.div_mod x 10 ltac:(lia)) as Hx10.
      generalize dependent (x mod 10)%N. generalize (x / 10)%N. lia.
    + apply Forall_app. split; [done|]. repeat constructor.
      pose proof (N.mod_lt x 10 ltac:(lia)) as Hm. generalize dependent (x mod 10)%N.
      intros r Hr. unfold is_digit. rewrite andb_true_iff, !N.leb_le. lia.
Qed.

Lemma dec_N_size x : (x < 2 ^ N.of_nat (S (N.size_nat x)))%N.
Proof.
  assert (N.of_nat (N.size_nat x) = N.size x) as E.
  { destruct x as [|p]; [done|]. simpl. induction p; simpl; lia. }
  rewrite Nat2N.inj_succ, E, N.pow_succ_r'.
  pose proof (N.size_gt x). lia.
Qed.

Lemma digits_val_dec_N x : digits_val (dec_N x) = x.
Proof. apply dec_fuel_spec; [apply dec_N_size | done]. Qed.

Lemma dec_N_digits x : Forall (λ c, is_digit c = true) (dec_N x).
Proof. apply dec_fuel_spec; [apply dec_N_size | done]. Qed.

Lemma dec_N_nonnil x : dec_N x ≠ [].
Proof.
  unfold dec_N. simpl. destruct (x <? 10)%N; [done|].
  intros [_ H]%app_eq_nil. discriminate H.
Qed.

Lemma dec_N_inj x y : dec_N x = dec_N y → x = y.
Proof. intros H. by rewrite <- (digits_val_dec_N x), H, digits_val_dec_N. Qed.

(** A canonical numeral has no leading zero. *)
Lemma dec_fuel_lead f x :
  (x < 2 ^ N.of_nat f)%N → f ≠ O → x ≠ 0%N → ∃ c r, dec_fuel f x = c :: r ∧ c ≠ 48%N.
Proof.
  revert x. induction f as [|f IH]; intros x Hx Hf H0; [done|]. simpl.
  destruct (N.ltb_spec x 10).
  - exists (48 + x)%N, []. split; [done|lia].
  - destruct (IH (x / 10)%N) as (c & r & -> & Hc).
    + apply N.Div0.div_lt_upper_bound. rewrite Nat2N.inj_succ, N.pow_succ_r' in Hx. lia.
    + intros ->. simpl in Hx. lia.
    + intros E. apply N.div_small_iff in E; lia.
    + by exists c, (r ++ [(48 + x mod 10)%N]).
Qed.

Lemma dec_N_lead x : x ≠ 0%N → ∃ c r, dec_N x = c :: r ∧ c ≠ 48%N.
Proof. intros. apply dec_fuel_lead; [apply dec_N_size | done | done]. Qed.

#[export] Hint Resolve dec_N_digits dec_N_nonnil : js.
#[export] Hint Rewrite digits_val_dec_N : js_rw.

(** ** Decimal to binary64, correctly rounded *)

(** [(-1)^neg * d * 10^e]: the bounds on [e] return Infinity and zero where the
    value is past the finite range, so that no huge power is computed. *)
Definition num_of_dec (neg : bool) (d : N) (e : Z) : num :=
  match d with
  | 0%N => S754_zero neg
  | Npos p =>
      if 310 <? e then S754_infinity neg
      else if Z.of_nat (length (dec_N d)) + e <? -330 then S754_zero neg
      else if 0 <=? e then
        match Zpos p * 10 ^ e with
        | Zpos m => binary_round 53 1024 neg m 0
        | _ => S754_nan
        end
      else
        let '(mz, ez, lz) := SFdiv_core_binary 53 1024 (Zpos p) 0 (10 ^ (- e)) 0 in
        binary_round_aux 53 1024 neg mz ez lz
  end.

(** ** Number to text: the shortest decimal that reads back as the same value *)

(** [n] with [10^(n-1) <= m * 2^e < 10^n], from the binary logarithm. *)
Fixpoint decimal_point_from (fuel : nat) (p q n : Z) : Z :=
  match fuel with
  | O => n
  | S f =>
      let below := if 0 <=? n then p <? q * 10 ^ n else p * 10 ^ (- n) <? q in
      if below then n else decimal_point_from f p q (n + 1)
  end.

Definition decimal_point (m : positive) (e : Z) : Z :=
  let b := Zpos (digits2_pos m) + e - 1 in
  let est := if 0 <=? b then b * 30102 / 100000 else b * 30103 / 100000 in
  let '(p, q) := ratio m e in decimal_point_from 8 p q est.

(** A [k]-digit decimal [s * 10^(n-k)] that rounds to [m * 2^e], the closest one. *)
Definition digits_k (m : positive) (e n k : Z) : option N :=
  let '(p, q) := ratio m e in
  let '(a, b) := if n <=? k then (p * 10 ^ (k - n), q) else (p, q * 10 ^ (n - k)) in
  let lo := a / b in
  let ok s := (10 ^ (k - 1) <=? s) && (s <? 10 ^ k) &&
    bool_decide (num_of_dec false (Z.to_N s) (n - k) = S754_finite false m e) in
  let lo_first := (2 * (a mod b) <? b) || ((2 * (a mod b) =? b) && Z.even lo) in
  let first := if lo_first then lo else lo + 1 in
  let second := if lo_first then lo + 1 else lo in
  if ok first then Some (Z.to_N first) else if ok second then Some (Z.to_N second) else None.

(** The least [k] with such a decimal; 17 digits are always enough for binary64. *)
Fixpoint shortest (fuel : nat) (m : positive) (e n k : Z) : Z * N :=
  match fuel with
  | O => (17, 0%N)
  | S f => match digits_k m e n k with
           | Some s => (k, s)
           | None => shortest f m e n (k + 1)
           end
  end.

Definition zeros (k : Z) : jsstr := repeat 48%N (Z.to_nat k).

Definition layout (n k : Z) (s : N) : jsstr :=
  let ds := dec_N s in
  if (k <=? n) && (n <=? 21) then ds ++ zeros (n - k)
  else if (0 <? n) && (n <=? 21) then take (Z.to_nat n) ds ++ u "." ++ drop (Z.to_nat n) ds
  else if (-6 <? n) && (n <=? 0) then u "0." ++ zeros (- n) ++ ds
  else
    let ex := u "e" ++ (if n - 1 <? 0 then u "-" else u "+") ++ dec_N (Z.to_N (Z.abs (n - 1))) in
    if k =? 1 then ds ++ ex else take 1 ds ++ u "." ++ drop 1 ds ++ ex.

(** [Number::toString] in base ten. *)
Definition num_to_string (x : num) : jsstr :=
  match x with
  | S754_nan => u "NaN"
  | S754_zero _ => u "0"
  | S754_infinity s => if s then u "-Infinity" else u "Infinity"
  | S754_finite s m e =>
      let n := decimal_point m e in
      let '(k, d) := shortest 17 m e n 1 in
      if s then u "-" ++ layout n k d else layout n k d
  end.

(** [x.toFixed(f)] for [0 <= f <= 100]. *)
Definition to_fixed (x : num) (f : Z) : jsstr :=
  match x with
  | S754_zero _ => if f =? 0 then u "0" else u "0." ++ zeros f
  | S754_finite s m e =>
      let '(p, q) := ratio m e in
      if q * 10 ^ 21 <=? p then num_to_string x
      else
        let n := (2 * p * 10 ^ f + q) / (2 * q) in
        let ds := dec_N (Z.to_N n) in
        let ds := zeros (f + 1 - Z.of_nat (length ds)) ++ ds in
        let cut := Z.to_nat (Z.of_nat (length ds) - f) in
        let body := if f =? 0 then ds else take cut ds ++ u "." ++ drop cut ds in
        if s then u "-" ++ body else body
  | _ => num_to_string x
  end.

(** ** Reading numbers *)

Definition exp_digits (sg : Z) (s : jsstr) : option (Z * jsstr) :=
  match span is_digit s with
  | ([], _) => None
  | (ds, r) => Some (sg * Z.of_N (digits_val ds), r)
  end.

(** An optional exponent part [[eE][+-]?digits]: its value and the rest. *)
Definition exp_part (s : jsstr) : option (Z * jsstr) :=
  match s with
  | c :: s1 =>
      if (c =? 101)%N || (c =? 69)%N then
        match strip 45 s1, strip 43 s1 with
        | Some r, _ => exp_digits (-1) r
        | None, Some r => exp_digits 1 r
        | None, None => exp_digits 1 s1
        end
      else Some (0, s)
  | [] => Some (0, [])
  end.

(** An optional fraction part [.digits]: its digits and the rest. *)
Definition frac_part (s : jsstr) : option (jsstr * jsstr) :=
  match strip 46 s with
  | Some r => match span is_digit r with
              | ([], _) => None
              | (fs, s3) => Some (fs, s3)
              end
  | None => Some ([], s)
  end.

(** The number token of the JSON grammar at the head of [s], with the rest. *)
Definition json_number (s : jsstr) : option (num * jsstr) :=
  let '(neg, s1) := match strip 45 s with Some r => (true, r) | None => (false, s) end in
  let '(ds, s2) := span is_digit s1 in
  match ds with
  | [] => None
  | d0 :: dr =>
      if (d0 =? 48)%N && negb (bool_decide (dr = [])) then None
      else
        match frac_part s2 with
        | None => None
        | Some (fs, s3) =>
            match exp_part s3 with
            | None => None
            | Some (ex, s4) =>
                Some (num_of_dec neg (digits_val (ds ++ fs)) (ex - Z.of_nat (length fs)), s4)
            end
        end
  end.

(** The longest StrDecimalLiteral prefix of [s] (no leading white space). *)
Definition decimal_prefix (s : jsstr) : option (num * jsstr) :=
  let '(neg, s1) := match strip 45 s, strip 43 s with
    | Some r, _ => (true, r) | _, Some r => (false, r) | _, _ => (false, s) end in
  if starts_with s1 (u "Infinity") then Some (S754_infinity neg, drop 8 s1)
  else
    let '(ds, s2) := span is_digit s1 in
    let '(fs, s3) := match strip 46 s2 with
      | Some r => match ds, (span is_digit r).1 with
                  | [], [] => ([], s2)
                  | _, _ => span is_digit r
                  end
      | None => ([], s2)
      end in
    match ds, fs with
    | [], [] => None
    | _, _ =>
        let '(ex, s4) := match exp_part s3 with Some p => p | None => (0, s3) end in
        Some (num_of_dec neg (digits_val (ds ++ fs)) (ex - Z.of_nat (length fs)), s4)
    end.

(** [parseFloat] *)
Definition parse_float (s : jsstr) : num :=
  match decimal_prefix (trim_start s) with Some (x, _) => x | None => NaN end.

(** The value of a digit in base [b], either case. *)
Definition radix_digit (b : N) (c : N) : option N :=
  let v := if is_digit c then Some (c - 48)%N
           else if ((97 <=? c) && (c <=? 102))%N then Some (c - 87)%N
           else if ((65 <=? c) && (c <=? 70))%N then Some (c - 55)%N
           else None in
  match v with Some d => if (d <? b)%N then Some d else None | None => None end.

Fixpoint radix_val (b : N) (acc : N) (s : jsstr) : option N :=
  match s with
  | [] => Some acc
  | c :: s' => match radix_digit b c with
               | Some d => radix_val b (b * acc + d)%N s'
               | None => None
               end
  end.

Definition radix_literal (b : N) (s : jsstr) : num :=
  match s with
  | [] => NaN
  | _ => match radix_val b 0 s with Some v => num_of_Z (Z.of_N v) | None => NaN end
  end.

(** [Number(text)]: StringToNumber. *)
Definition str_to_num (s : jsstr) : num :=
  match trim s with
  | [] => S754_zero false
  | z :: c :: r =>
      if negb (z =? 48)%N then
        match decimal_prefix (trim s) with Some (x, []) => x | _ => NaN end
      else if ((c =? 120) || (c =? 88))%N then radix_literal 16 r
      else if ((c =? 111) || (c =? 79))%N then radix_literal 8 r
      else if ((c =? 98) || (c =? 66))%N then radix_literal 2 r
      else match decimal_prefix (trim s) with Some (x, []) => x | _ => NaN end
  | t => match decimal_prefix t with Some (x, []) => x | _ => NaN end
  end.

(** ** Checks on concrete values *)

Example n_seven_tenths : option_map fst (json_number (u "0.7")) = Some (S754_finite false 6305039478318694 (-53)).
Proof. vm_compute. reflexivity. Qed.
Example n_print1 : num_to_string (S754_finite false 6305039478318694 (-53)) = u "0.7".
Proof. vm_compute. reflexivity. Qed.
Example n_print2 : num_to_string (str_to_num (u "5e-324")) = u "5e-324".
Proof. vm_compute. reflexivity. Qed.
Example n_print3 : num_to_string (str_to_num (u " 1.7976931348623157e308 ")) = u "1.7976931348623157e+308".
Proof. vm_compute. reflexivity. Qed.
Example n_print4 : num_to_string (str_to_num (u "0x1F4")) = u "500".
Proof. vm_compute. reflexivity. Qed.
Example n_print5 : num_to_string (nadd (str_to_num (u "0.1")) (str_to_num (u "0.2"))) = u "0.30000000000000004".
Proof. vm_compute. reflexivity. Qed.
Example n_print6 : num_to_string (str_to_num (u "123456789012345680000")) = u "123456789012345680000".
Proof. vm_compute. reflexivity. Qed.
Example n_print7 : num_to_string (str_to_num (u "1e21")) = u "1e+21".
Proof. vm_compute. reflexivity. Qed.
Example n_print8 : num_to_string (str_to_num (u "-0.000001234")) = u "-0.000001234".
Proof. vm_compute. reflexivity. Qed.
Example n_fixed1 : to_fixed (str_to_num (u "1.005")) 2 = u "1.00".
Proof. vm_compute. reflexivity. Qed.
Example n_fixed2 : to_fixed (str_to_num (u "2.5")) 0 = u "3".
Proof. vm_compute. reflexivity. Qed.
Example n_fixed3 : to_fixed (str_to_num (u "0.000001234")) 6 = u "0.000001".
Proof. vm_compute. reflexivity. Qed.
Example n_bad : is_nan (str_to_num (u "12x")) = true.
Proof. vm_compute. reflexivity. Qed.

(** ** The JSON number token is local: text after a delimiter does not change it *)

(** Units that may continue a number token. *)
Definition num_cont (c : N) : bool :=
  is_digit c || existsb (N.eqb c) [46; 101; 69; 43; 45]%N.

Lemma span_digit_app s rest a :
  span is_digit s = (a, []) → head_out num_cont rest →
  span is_digit (s ++ rest) = (a, rest).
Proof.
  intros H Hr. destruct (span_spec is_digit s) as (Hs & Ha & _).
  rewrite H in Hs, Ha. simpl in *. rewrite app_nil_r in Hs. subst.
  apply span_app; [done|]. destruct rest; [done|]. simpl in *.
  unfold num_cont in Hr. bool_simp. done.
Qed.

Lemma span_digit_app_cons s rest a c r :
  span is_digit s = (a, c :: r) → span is_digit (s ++ rest) = (a, c :: r ++ rest).
Proof.
  intros H. destruct (span_spec is_digit s) as (Hs & Ha & Hh).
  rewrite H in Hs, Ha, Hh. simpl in *. rewrite Hs, <- app_assoc.
  by apply span_app.
Qed.

Lemma strip_app c s rest :
  s ≠ [] → strip c (s ++ rest) = option_map (λ r, r ++ rest) (strip c s).
Proof. destruct s as [|x s]; [done|]. intros _. simpl. by destruct (x =? c)%N. Qed.

Lemma exp_digits_app sg s rest z :
  exp_digits sg s = Some (z, []) → head_out num_cont rest →
  exp_digits sg (s ++ rest) = Some (z, rest).
Proof.
  unfold exp_digits. intros H Hr. destruct (span is_digit s) as [[|d ds] r] eqn:E; [done|].
  simplify_eq. by rewrite (span_digit_app s rest (d :: ds)).
Qed.

Ltac no_cont :=
  unfold head_out, num_cont in *; simpl existsb in *; bool_simp;
  repeat match goal with H : (?d =? _)%N = false |- context [(?d =? _)%N] => rewrite H end.

Lemma exp_part_app s rest z :
  exp_part s = Some (z, []) → head_out num_cont rest →
  exp_part (s ++ rest) = Some (z, rest).
Proof.
  intros H Hr. destruct s as [|c s].
  - simpl in H. simplify_eq. destruct rest as [|d rest]; [done|]. simpl. by no_cont.
  - simpl in *. destruct ((c =? 101)%N || (c =? 69)%N); [|simplify_eq].
    destruct s as [|d s]; [done|]. rewrite !strip_app by done.
    destruct (strip 45 (d :: s)), (strip 43 (d :: s)); simpl option_map;
      by apply exp_digits_app.
Qed.

Lemma frac_part_app s rest fs r :
  frac_part s = Some (fs, r) → s ≠ [] → r ≠ [] ∨ head_out num_cont rest →
  frac_part (s ++ rest) = Some (fs, r ++ rest).
Proof.
  unfold frac_part. intros H Hs Hr. rewrite strip_app by done.
  destruct (strip 46 s) as [t|]; simpl; [|by simplify_eq].
  destruct (span is_digit t) as [[|d ds] r'] eqn:E; simplify_eq.
  destruct r as [|c r]; [|by rewrite (span_digit_app_cons t rest (d :: ds) c r)].
  destruct Hr as [?|Hr]; [done|]. by rewrite (span_digit_app t rest (d :: ds)).
Qed.

Lemma frac_part_nil rest :
  head_out num_cont rest → frac_part rest = Some ([], rest).
Proof.
  destruct rest as [|d rest]; [done|]. intros H. unfold frac_part. simpl. by no_cont.
Qed.

(** A complete number token is read the same way in front of a delimiter. *)
Lemma json_number_app s rest x :
  json_number s = Some (x, []) → head_out num_cont rest →
  json_number (s ++ rest) = Some (x, rest).
Proof.
  unfold json_number. intros H Hr.
  assert (s ≠ []) as Hs by (intros ->; done).
  rewrite strip_app by done.
  assert (∃ neg t, (match strip 45 s with Some r => (true, r) | None => (false, s) end) = (neg, t)
    ∧ (match option_map (λ r, r ++ rest) (strip 45 s) with
       | Some r => (true, r) | None => (false, s ++ rest) end) = (neg, t ++ rest)) as (neg & t & E1 & E2).
  { destruct (strip 45 s) as [r|]; simpl; eauto. }
  rewrite E1 in H. rewrite E2. clear E1 E2.
  destruct (span is_digit t) as [[|d0 dr] s2] eqn:E; [done|].
  destruct ((d0 =? 48)%N && _) eqn:Elead in H; [done|].
  destruct (frac_part s2) as [[fs s3]|] eqn:Ef; [|done].
  destruct (exp_part s3) as [[ex s4]|] eqn:Ee; [|done]. simplify_eq.
  destruct s2 as [|c s2].
  - unfold frac_part in Ef. simplify_eq/=. simplify_eq.
    rewrite (span_digit_app t rest (d0 :: dr)) by done.
    rewrite Elead, frac_part_nil by done. simpl.
    change rest with ([] ++ rest) at 1. by erewrite exp_part_app.
  - rewrite (span_digit_app_cons t rest (d0 :: dr) c s2) by done. rewrite Elead.
    rewrite app_comm_cons. erewrite frac_part_app; [|done..|by right].
    by erewrite exp_part_app.
Qed.

Lemma json_number_head s x r :
  json_number s = Some (x, r) → ∃ c t, s = c :: t ∧ (is_digit c = true ∨ c = 45%N).
Proof.
  unfold json_number. destruct s as [|c s]; [done|]. intros H. exists c, s. split; [done|].
  simpl in H. destruct (N.eqb_spec c 45); [by right | left].
  destruct (is_digit c) eqn:E; [done|].
  simpl in H. by rewrite E in H.
Qed.

(** A Number whose text reads back as itself: every Number that is neither NaN,
    an infinity nor -0; the test computes, so a witness evaluates it. *)
Definition num_ok (x : num) : bool :=
  bool_decide (json_number (num_to_string x) = Some (x, [])).

Example n_ok1 : forallb (λ z, num_ok (num_of_Z (Z.of_nat z))) (seq 0 600) = true.
Proof. vm_compute. reflexivity. Qed.
Example n_ok2 : num_ok (str_to_num (u "-12.75e-9")) = true.
Proof. vm_compute. reflexivity. Qed.
Example n_ok3 : num_ok (S754_zero true) = false.
Proof. vm_compute. reflexivity. Qed.
