(* ===== verification/NumberOrder.v ===== *)
(** * Sums and the order of numbers
    Sums and differences of finite numbers are numbers; the order of binary64 numbers is
    that of their sign, exponent and mantissa, and of the naturals below 2^53 that of the naturals. *)

From Stdlib Require Import SpecFloat.
From stdpp Require Import base numbers option sets list.
From S2P Require Import Prelude JsString JsNumber.

(** ** Sums are numbers *)

Lemma shr_1_nonneg r : (0 ≤ shr_m r)%Z → (0 ≤ shr_m (shr_1 r))%Z.
Proof. destruct r as [[|[]|] ? ?]; simpl; lia. Qed.

Lemma iter_pos_shr_nonneg p (r : shr_record) : (0 ≤ shr_m r)%Z → (0 ≤ shr_m (SpecFloat.iter_pos shr_1 p r))%Z.
Proof. revert r. induction p as [p IH|p IH|]; intros r H; simpl; auto using shr_1_nonneg. Qed.

Lemma shr_fexp_nonneg m e l : (0 ≤ m)%Z → (0 ≤ shr_m (shr_fexp 53 1024 m e l).1)%Z.
Proof.
  intros H. unfold shr_fexp, shr. assert (0 ≤ shr_m (shr_record_of_loc m l))%Z as Hr by by destruct l as [|[]].
  case_match; cbn [fst]; try done. by apply iter_pos_shr_nonneg.
Qed.

Lemma round_nonneg m l : (0 ≤ m)%Z → (0 ≤ round_nearest_even m l)%Z.
Proof. intros H. destruct l as [|[]]; simpl; [lia| |lia..]. destruct (Z.even m); lia. Qed.

Lemma binary_normalize_number m e s : is_nan (binary_normalize 53 1024 m e s) = false.
Proof.
  assert (∀ sx p e l, is_nan (binary_round_aux 53 1024 sx (Zpos p) e l) = false) as Haux.
  { intros sx p e' l. unfold binary_round_aux.
    pose proof (shr_fexp_nonneg (Zpos p) e' l ltac:(lia)) as H1.
    destruct (shr_fexp 53 1024 (Zpos p) e' l) as [r1 e1]. cbn [fst] in H1.
    pose proof (shr_fexp_nonneg (round_nearest_even (shr_m r1) (loc_of_shr_record r1)) e1 loc_Exact
      (round_nonneg _ _ H1)) as H2.
    destruct (shr_fexp 53 1024 (round_nearest_even (shr_m r1) (loc_of_shr_record r1)) e1 loc_Exact) as [r2 e2].
    cbn [fst] in H2. destruct (shr_m r2) as [| |q]; [done| |lia]. by case_match. }
  unfold binary_normalize, binary_round. destruct m; [done|..]; case_match; apply Haux.
Qed.

Lemma num_of_Z_number z : is_nan (num_of_Z z) = false.
Proof. apply binary_normalize_number. Qed.

(** A finite number and a number have a sum and a difference. *)
Lemma nadd_number x y : is_finite x = true → is_nan y = false → is_nan (nadd x y) = false.
Proof.
  unfold nadd, SFadd. destruct x as [sx|sx| |sx mx ex], y as [sy|sy| |sy my ey]; try done; intros _ _;
    first [apply binary_normalize_number | by destruct sx, sy].
Qed.

Lemma nsub_number x y : is_finite x = true → is_finite y = true → is_nan (nsub x y) = false.
Proof.
  unfold nsub, SFsub. destruct x as [sx|sx| |sx mx ex], y as [sy|sy| |sy my ey]; try done; intros _ _;
    first [apply binary_normalize_number | by destruct sx, sy].
Qed.

(** ** The order of numbers *)

(** Numbers in the order of a sign class, an exponent and a mantissa. *)
Definition order_key (x : num) : Z * Z * Z :=
  match x with
  | S754_infinity s => ((if s then -2 else 2), 0, 0)
  | S754_finite s m e => if s then (-1, -e, -Zpos m) else (1, e, Zpos m)
  | _ => (0, 0, 0)
  end%Z.

Definition key_lt (a b : Z * Z * Z) : Prop :=
  let '(a1, a2, a3) := a in let '(b1, b2, b3) := b in
  (a1 < b1 ∨ a1 = b1 ∧ (a2 < b2 ∨ a2 = b2 ∧ a3 < b3))%Z.

Lemma nltb_key x y : nltb x y = true ↔ is_nan x = false ∧ is_nan y = false ∧ key_lt (order_key x) (order_key y).
Proof.
  unfold nltb, SFltb, SFcompare, key_lt.
  assert (∀ P : Prop, P → true = true ↔ false = false ∧ false = false ∧ P) as Hyes by tauto.
  assert (∀ P : Prop, ¬ P → false = true ↔ false = false ∧ false = false ∧ P) as Hno.
  { intros P HP. split; [done | tauto]. }
  destruct x as [sx|sx| |sx mx ex], y as [sy|sy| |sy my ey]; try (destruct sx); try (destruct sy);
    cbn [order_key is_nan];
    try (split; [intros H; discriminate H | intros (H1 & H2 & _); discriminate]);
    first [apply Hyes; lia | apply Hno; lia | idtac].
  - destruct (Z.compare_spec ex ey); [|apply Hno; lia|apply Hyes; lia].
    subst. fold (Pos.compare mx my). destruct (Pos.compare_spec mx my); [apply Hno|apply Hno|apply Hyes]; lia.
  - destruct (Z.compare_spec ex ey); [|apply Hyes; lia|apply Hno; lia].
    subst. fold (Pos.compare mx my). destruct (Pos.compare_spec mx my); [apply Hno|apply Hyes|apply Hno]; lia.
Qed.

Lemma nltb_trans x y z : nltb x y = true → nltb y z = true → nltb x z = true.
Proof.
  rewrite !nltb_key. intros (Hx & Hy & H1) (_ & Hz & H2). split; [done|]. split; [done|]. revert H1 H2. unfold key_lt.
  destruct (order_key x) as [[? ?] ?], (order_key y) as [[? ?] ?], (order_key z) as [[? ?] ?]. lia.
Qed.

Lemma nltb_nleb x y : nltb x y = true → nleb x y = true.
Proof. unfold nltb, nleb, SFltb, SFleb. by destruct (SFcompare x y) as [[]|]. Qed.

(** ** Small integers *)

Lemma nltb_not_nleb x y : nltb x y = true → nleb y x = false.
Proof.
  intros H. destruct (nleb y x) eqn:E; [|done]. exfalso.
  assert (nltb x x = true) as Hx; [|by rewrite nltb_irrefl in Hx].
  unfold nleb, SFleb in E. destruct (SFcompare y x) as [[]|] eqn:C; try done.
  - unfold nltb, SFltb in H. destruct (SFcompare x y) as [[]|] eqn:D; try done. exfalso. revert C D.
    unfold SFcompare. destruct x as [sx|sx| |sx mx ex], y as [sy|sy| |sy my ey]; try destruct sx; try destruct sy; try done;
      destruct (Z.compare_spec ex ey), (Z.compare_spec ey ex); try done; try lia;
      fold (Pos.compare mx my); fold (Pos.compare my mx); destruct (Pos.compare_spec mx my), (Pos.compare_spec my mx); try done; lia.
  - eapply nltb_trans; [exact H|]. unfold nltb, SFltb. by rewrite C.
Qed.

Lemma nleb_refl x : is_nan x = false → nleb x x = true.
Proof.
  intros H. unfold nleb, SFleb, SFcompare. destruct x as [[]|[]| |[] m e]; try done; rewrite Z.compare_refl;
    change (PosDef.Pos.compare_cont Eq m m) with (Pos.compare m m); by rewrite Pos.compare_refl.
Qed.

(** The binary digits of a positive number. *)
Lemma digits_bounds p : (2 ^ (Zpos (digits2_pos p) - 1) ≤ Zpos p < 2 ^ Zpos (digits2_pos p))%Z.
Proof.
  induction p as [p IH|p IH|]; cbn [digits2_pos]; [..|done]; rewrite Pos2Z.inj_succ, Z.pow_succ_r by lia;
    replace (Z.succ (Zpos (digits2_pos p)) - 1)%Z with (Z.succ (Zpos (digits2_pos p) - 1)) by lia;
    rewrite Z.pow_succ_r by lia; lia.
Qed.

Lemma digits_shifted k p : digits2_pos (Pos.iter xO p k) = (digits2_pos p + k)%positive.
Proof.
  induction k as [|k IH] using Pos.peano_ind; [cbn; lia|]. rewrite Pos.iter_succ. cbn [digits2_pos]. rewrite IH. lia.
Qed.

Lemma shifted_value k p : Zpos (Pos.iter xO p k) = (Zpos p * 2 ^ Zpos k)%Z.
Proof.
  induction k as [|k IH] using Pos.peano_ind; [cbn; lia|]. rewrite Pos.iter_succ, Pos2Z.inj_succ, Z.pow_succ_r by lia.
  rewrite Pos2Z.inj_xO, IH. lia.
Qed.

(** A mantissa of 53 digits is not rounded. *)
Lemma exact_53 m e :
  digits2_pos m = 53%positive → (-1074 ≤ e ≤ 971)%Z → binary_round_aux 53 1024 false (Zpos m) e loc_Exact = S754_finite false m e.
Proof.
  intros Hd He.
  assert (shr_fexp 53 1024 (Zpos m) e loc_Exact = (Build_shr_record (Zpos m) false false, e)) as Hs.
  { unfold shr_fexp. cbn [Zdigits2 shr_record_of_loc]. rewrite Hd. unfold fexp, SpecFloat.emin.
    replace (Z.max _ _ - e)%Z with 0%Z by lia. done. }
  unfold binary_round_aux. rewrite Hs. cbn [shr_m loc_of_shr_record round_nearest_even]. rewrite Hs. cbn [shr_m].
  by replace (e <=? 1024 - 53)%Z with true by lia.
Qed.

(** Integers below 2^53 are numbers: the mantissa is the integer shifted to 53 digits. *)
Lemma safe_integer p :
  (Zpos p < 2 ^ 53)%Z →
  ∃ m, num_of_Z (Zpos p) = S754_finite false m (Zpos (digits2_pos p) - 53) ∧
       Zpos m = (Zpos p * 2 ^ (53 - Zpos (digits2_pos p)))%Z.
Proof.
  intros Hp. destruct (digits_bounds p) as [H1 H2].
  assert (Zpos (digits2_pos p) ≤ 53)%Z as Hd.
  { destruct (Z.le_gt_cases (Zpos (digits2_pos p)) 53) as [|H]; [done|].
    pose proof (Z.pow_le_mono_r 2 53 (Zpos (digits2_pos p) - 1)) as H3. lia. }
  unfold num_of_Z, binary_normalize, binary_round, shl_align, fexp, SpecFloat.emin.
  replace (Z.max _ _ - 0)%Z with (Zpos (digits2_pos p) - 53)%Z by lia.
  replace (Z.max _ _) with (Zpos (digits2_pos p) - 53)%Z by lia.
  destruct (Zpos (digits2_pos p) - 53)%Z as [|k|k] eqn:E; [|lia|].
  - exists p. rewrite exact_53 by lia. replace (53 - Zpos (digits2_pos p))%Z with 0%Z by lia. split; [done|lia].
  - exists (Pos.iter xO p k). rewrite exact_53 by (rewrite ?digits_shifted; lia). split; [done|].
    rewrite shifted_value. by replace (53 - Zpos (digits2_pos p))%Z with (Zpos k) by lia.
Qed.

(** A length that a number can hold. *)
Definition small (n : nat) : Prop := (Z.of_nat n < 2 ^ 53)%Z.

Lemma small_lt n m : n < m → small m → nltb (num_of_Z (Z.of_nat n)) (num_of_Z (Z.of_nat m)) = true.
Proof.
  unfold small. intros H Hm. destruct m as [|m]; [lia|]. change (Z.of_nat (S m)) with (Zpos (Pos.of_succ_nat m)) in *.
  set (q := Pos.of_succ_nat m) in *. destruct (safe_integer q Hm) as (mq & Eq & Vq). rewrite Eq.
  destruct n as [|n]; [done|]. change (Z.of_nat (S n)) with (Zpos (Pos.of_succ_nat n)) in *.
  assert (Zpos (Pos.of_succ_nat n) < Zpos q)%Z as Hpq by (unfold q; lia). set (p := Pos.of_succ_nat n) in *.
  destruct (safe_integer p ltac:(lia)) as (mp & Ep & Vp). rewrite Ep, nltb_key. split; [done|]. split; [done|].
  unfold key_lt, order_key. right. split; [done|].
  destruct (Z.lt_trichotomy (Zpos (digits2_pos p)) (Zpos (digits2_pos q))) as [Hd|[Hd|Hd]]; [lia|right|exfalso].
  - split; [lia|]. rewrite Vp, Vq, Hd. apply Z.mul_lt_mono_pos_r; [|done].
    destruct (digits_bounds q) as [Hq _]. apply Z.pow_pos_nonneg; [lia|].
    destruct (Z.le_gt_cases (Zpos (digits2_pos q)) 53) as [|Hg]; [lia|].
    pose proof (Z.pow_le_mono_r 2 53 (Zpos (digits2_pos q) - 1)). lia.
  - destruct (digits_bounds p) as [Hp _], (digits_bounds q) as [_ Hq].
    pose proof (Z.pow_le_mono_r 2 (Zpos (digits2_pos q)) (Zpos (digits2_pos p) - 1)). lia.
Qed.

Lemma small_le n m : small m → small n → nleb (num_of_Z (Z.of_nat n)) (num_of_Z (Z.of_nat m)) = (n <=? m).
Proof.
  intros Hm Hn. destruct (Nat.leb_spec n m) as [H|H].
  - destruct (decide (n = m)) as [->|Hne]; [apply nleb_refl, num_of_Z_number|]. apply nltb_nleb, small_lt; [lia|done].
  - apply nltb_not_nleb, small_lt; [lia|done].
Qed.
