(* ===== verification/JsValue.v ===== *)
(** * JavaScript values
    The values that [JSON.parse] returns, plus [undefined]: primitives, arrays,
    and objects as their list of own properties in enumeration order. *)

From Stdlib Require Import SpecFloat.
From stdpp Require Import base numbers option strings sets list.
From S2P Require Import Prelude JsString JsNumber.

Inductive value :=
  | VUndef
  | VNull
  | VBool (b : bool)
  | VNum (x : num)
  | VStr (s : jsstr)
  | VArr (l : list value)
  | VObj (o : list (jsstr * value)).

Abbreviation props := (list (jsstr * value)).

(** Induction that reaches the elements of arrays and objects. *)
Section value_ind.
Variable P : value → Prop.
Hypothesis Hundef : P VUndef.
Hypothesis Hnull : P VNull.
Hypothesis Hbool : ∀ b, P (VBool b).
Hypothesis Hnum : ∀ x, P (VNum x).
Hypothesis Hstr : ∀ s, P (VStr s).
Hypothesis Harr : ∀ l, Forall P l → P (VArr l).
Hypothesis Hobj : ∀ o, Forall (λ kv, P kv.2) o → P (VObj o).

Fixpoint value_ind' (v : value) : P v :=
  match v with
  | VUndef => Hundef
  | VNull => Hnull
  | VBool b => Hbool b
  | VNum x => Hnum x
  | VStr s => Hstr s
  | VArr l => Harr l ((fix go l : Forall P l :=
      match l with [] => Forall_nil_2 P | x :: l => Forall_cons_2 P x l (value_ind' x) (go l) end) l)
  | VObj o => Hobj o ((fix go o : Forall (λ kv, P kv.2) o :=
      match o with
      | [] => Forall_nil_2 _
      | kv :: o => Forall_cons_2 (λ kv, P kv.2) kv o (value_ind' kv.2) (go o)
      end) o)
  end.
End value_ind.

(** ** Property order: array indices ascending, then the others as inserted *)

Definition canonical_index (k : jsstr) : option N :=
  match k with
  | [] => None
  | _ => if forallb is_digit k then
           let n := digits_val k in
           if bool_decide (dec_N n = k) && (n <? 4294967295)%N then Some n else None
         else None
  end.

(** Whether a fresh key [k] is enumerated before the existing key [k']. *)
Definition key_before (k k' : jsstr) : bool :=
  match canonical_index k, canonical_index k' with
  | Some i, Some j => (i <? j)%N
  | Some _, None => true
  | None, _ => false
  end.

Section props.
Context {V : Type}.
Implicit Types (o : list (jsstr * V)) (k : jsstr) (v : V).

Definition keys o : list jsstr := map fst o.

Fixpoint get k o : option V :=
  match o with
  | [] => None
  | (k', v) :: o' => if decide (k' = k) then Some v else get k o'
  end.

(** Overwrite an existing property in its place. *)
Fixpoint set_existing k v o : list (jsstr * V) :=
  match o with
  | [] => []
  | (k', v') :: o' => if decide (k' = k) then (k', v) :: o' else (k', v') :: set_existing k v o'
  end.

Fixpoint insert_fresh k v o : list (jsstr * V) :=
  match o with
  | [] => [(k, v)]
  | (k', v') :: o' => if key_before k k' then (k, v) :: o else (k', v') :: insert_fresh k v o'
  end.

(** [o[k] = v] *)
Definition set k v o : list (jsstr * V) :=
  match get k o with Some _ => set_existing k v o | None => insert_fresh k v o end.

(** [delete o[k]] *)
Definition del k o : list (jsstr * V) := filter (λ kv, kv.1 ≠ k) o.

(** [{...a, ...b}] *)
Definition spread a b : list (jsstr * V) := fold_left (λ o kv, set kv.1 kv.2 o) b a.

(** The objects that assignments build: distinct keys, in enumeration order. *)
Fixpoint props_sorted o : Prop :=
  match o with
  | [] => True
  | (k, _) :: o' =>
      Forall (λ k', k' ≠ k ∧ key_before k' k = false) (keys o') ∧ props_sorted o'
  end.

#[export] Instance props_sorted_dec o : Decision (props_sorted o).
Proof. induction o as [|[k v] o IH]; simpl; apply _. Defined.

Lemma get_None k o : get k o = None ↔ k ∉ keys o.
Proof.
  induction o as [|[k' v] o IH]; simpl; [set_solver|].
  case_decide; [set_solver|]. rewrite IH. set_solver.
Qed.

Lemma keys_set_existing k v o : keys (set_existing k v o) = keys o.
Proof. induction o as [|[k' v'] o IH]; simpl; [done|]. case_decide; simpl; by f_equal. Qed.

Lemma get_set_existing k k' v o :
  get k' (set_existing k v o) =
  if decide (k = k') then (match get k o with Some _ => Some v | None => None end) else get k' o.
Proof.
  induction o as [|[k0 v0] o IH]; simpl; [by case_decide|].
  repeat (case_decide; simplify_eq/=); try done; rewrite ?IH; by repeat case_decide.
Qed.

Lemma get_insert_fresh k k' v o :
  get k o = None → get k' (insert_fresh k v o) = if decide (k = k') then Some v else get k' o.
Proof.
  induction o as [|[k0 v0] o IH]; simpl; intros H; [by case_decide|].
  case_decide; [done|].
  destruct (key_before k k0); simpl; [by repeat (case_decide; simplify_eq/=)|].
  rewrite IH by done. by repeat (case_decide; simplify_eq/=).
Qed.

(** Reading after an assignment. *)
Lemma get_set k k' v o :
  get k' (set k v o) = if decide (k = k') then Some v else get k' o.
Proof.
  unfold set. destruct (get k o) eqn:E; [|by apply get_insert_fresh].
  rewrite get_set_existing, E. done.
Qed.

Lemma get_set_eq k v o : get k (set k v o) = Some v.
Proof. rewrite get_set. by rewrite decide_True. Qed.

Lemma get_set_ne k k' v o : k ≠ k' → get k' (set k v o) = get k' o.
Proof. intros. rewrite get_set. by rewrite decide_False. Qed.

Lemma keys_insert_fresh k v o x : x ∈ keys (insert_fresh k v o) ↔ x = k ∨ x ∈ keys o.
Proof.
  induction o as [|[k0 v0] o IH]; simpl; [set_solver|].
  destruct (key_before k k0); simpl; rewrite !elem_of_cons; [done|]. rewrite IH. naive_solver.
Qed.

Lemma keys_set k v o x : x ∈ keys (set k v o) ↔ x = k ∨ x ∈ keys o.
Proof.
  unfold set. destruct (get k o) eqn:E; [|apply keys_insert_fresh].
  rewrite keys_set_existing. split; [by right|]. intros [->|?]; [|done].
  destruct (decide (k ∈ keys o)) as [|Hn]; [done|]. apply get_None in Hn. congruence.
Qed.

Lemma key_before_trans k1 k2 k3 :
  key_before k1 k2 = false → key_before k2 k3 = false → key_before k1 k3 = false.
Proof.
  unfold key_before. destruct (canonical_index k1), (canonical_index k2), (canonical_index k3);
    rewrite ?N.ltb_ge; try done; lia.
Qed.

Lemma key_before_asym k1 k2 : key_before k1 k2 = true → key_before k2 k1 = false.
Proof.
  unfold key_before. destruct (canonical_index k1), (canonical_index k2);
    rewrite ?N.ltb_ge, ?N.ltb_lt; try done; lia.
Qed.

Lemma props_sorted_insert_fresh k v o :
  k ∉ keys o → props_sorted o → props_sorted (insert_fresh k v o).
Proof.
  induction o as [|[k0 v0] o IH]; simpl.
  - intros _ _. by repeat constructor.
  - intros Hk [H1 H2]. apply not_elem_of_cons in Hk as [Hk0 Hk].
    destruct (key_before k k0) eqn:E; simpl.
    + split; [|done]. constructor; [split; [done | by apply key_before_asym]|].
      rewrite Forall_forall in H1 |- *. intros k' Hk'. destruct (H1 k' Hk') as [? Hb].
      split; [set_solver|].
      destruct (key_before k' k) eqn:E'; [|done]. exfalso.
      revert Hb E E'. unfold key_before.
      destruct (canonical_index k), (canonical_index k0), (canonical_index k');
        rewrite ?N.ltb_ge, ?N.ltb_lt; try done; lia.
    + split; [|by apply IH]. rewrite Forall_forall in H1 |- *.
      intros k' [->|Hk']%keys_insert_fresh; [done | by apply H1].
Qed.

Lemma props_sorted_set_existing k v o : props_sorted o → props_sorted (set_existing k v o).
Proof.
  induction o as [|[k0 v0] o IH]; simpl; [done|]. intros [H1 H2].
  case_decide; simpl; [done|]. by rewrite keys_set_existing; auto.
Qed.

(** Assignment keeps objects in enumeration order with distinct keys. *)
Lemma props_sorted_set k v o : props_sorted o → props_sorted (set k v o).
Proof.
  intros H. unfold set. destruct (get k o) eqn:E.
  - by apply props_sorted_set_existing.
  - apply props_sorted_insert_fresh; [by apply get_None | done].
Qed.

Lemma props_sorted_spread a b : props_sorted a → props_sorted (spread a b).
Proof.
  revert a. induction b as [|[k v] b IH]; intros a H; simpl; [done|].
  by apply IH, props_sorted_set.
Qed.

(** A key that comes after all the others is appended. *)
Lemma set_append k v o :
  k ∉ keys o → Forall (λ k', key_before k k' = false) (keys o) → set k v o = o ++ [(k, v)].
Proof.
  intros Hk Ho. unfold set. rewrite (proj2 (get_None k o)) by done.
  clear Hk. induction o as [|[k0 v0] o IH]; simpl in *; [done|].
  apply Forall_cons in Ho as [-> Ho]. by rewrite IH.
Qed.

Lemma props_sorted_app_inv o1 k v o2 :
  props_sorted (o1 ++ (k, v) :: o2) →
  k ∉ keys o1 ∧ Forall (λ k', key_before k k' = false) (keys o1).
Proof.
  induction o1 as [|[k0 v0] o1 IH]; simpl; [set_solver|]. intros [H1 H2].
  destruct (IH H2) as [IH1 IH2]. unfold keys in H1. rewrite map_app in H1.
  apply Forall_app in H1 as [_ H1]. apply Forall_cons in H1 as [[Hne Hb] _].
  split; [apply not_elem_of_cons; auto|]. by constructor.
Qed.

(** Rebuilding an object property by property gives it back. *)
Lemma set_app_sorted o1 k v o2 :
  props_sorted (o1 ++ (k, v) :: o2) → set k v o1 = o1 ++ [(k, v)].
Proof. intros [? ?]%props_sorted_app_inv. by apply set_append. Qed.

Lemma spread_nil_sorted o1 o2 : props_sorted (o1 ++ o2) → spread o1 o2 = o1 ++ o2.
Proof.
  revert o1. induction o2 as [|[k v] o2 IH]; intros o1 H; simpl; [by rewrite app_nil_r|].
  rewrite (set_app_sorted o1 k v o2 H).
  replace (o1 ++ (k, v) :: o2) with ((o1 ++ [(k, v)]) ++ o2) in * by (by rewrite <- app_assoc).
  by apply IH.
Qed.
End props.

Lemma sorted_keys_NoDup {V} (o : list (jsstr * V)) : props_sorted o → NoDup (keys o).
Proof.
  unfold keys. induction o as [|[k v] o IH]; [by constructor|]. intros [Hk Ho]. simpl. apply NoDup_cons. split; [|by apply IH].
  intros Hin. rewrite Forall_forall in Hk. by destruct (Hk k Hin) as [? _].
Qed.

#[export] Hint Resolve props_sorted_set props_sorted_spread : js.
#[export] Hint Rewrite @get_set_eq : js_rw.

(** ** Conversions *)

(** [typeof v === 'object'] holds of null, arrays and objects. *)
Definition is_object_type (v : value) : bool :=
  match v with VNull | VArr _ | VObj _ => true | _ => false end.
Definition is_array (v : value) : bool := match v with VArr _ => true | _ => false end.

(** [Boolean(v)] *)
Definition truthy (v : value) : bool :=
  match v with
  | VUndef | VNull => false
  | VBool b => b
  | VNum x => num_truthy x
  | VStr s => str_truthy s
  | VArr _ | VObj _ => true
  end.

(** [a || b] *)
Definition value_or (a b : value) : value := if truthy a then a else b.

(** [v && typeof v === 'object' && !Array.isArray(v)]: the plain objects. *)
Definition as_object (v : value) : option props :=
  match v with VObj o => Some o | _ => None end.

(** [o.k] on an object from JSON: an own property or [undefined]. *)
Definition prop (k : jsstr) (o : props) : value :=
  match get k o with Some v => v | None => VUndef end.

Lemma Forall_set {V} (P : V → Prop) k v (o : list (jsstr * V)) :
  P v → Forall (λ kv, P kv.2) o → Forall (λ kv, P kv.2) (set k v o).
Proof.
  intros Hv Ho. unfold set. destruct (get k o); induction Ho as [|[k' v'] o Hx Ho IH]; simpl.
  - constructor.
  - case_decide; by constructor.
  - by repeat constructor.
  - destruct (key_before k k'); repeat constructor; done.
Qed.

Lemma prop_set k k' v o : prop k' (set k v o) = if decide (k = k') then v else prop k' o.
Proof. unfold prop. rewrite get_set. by case_decide. Qed.

Lemma prop_cons_eq k v o : prop k ((k, v) :: o) = v.
Proof. unfold prop. simpl. by rewrite decide_True. Qed.

Lemma prop_cons_ne k k' v o : k' ≠ k → prop k ((k', v) :: o) = prop k o.
Proof. intros. unfold prop. simpl. by rewrite decide_False. Qed.

Lemma prop_nil k : prop k [] = VUndef.
Proof. done. Qed.

(** Two literal keys differ. *)
Ltac keys_differ := let E := fresh in intros E; vm_compute in E; discriminate E.

(** Read the properties of an object built from literal keys. *)
Ltac read_props :=
  repeat first
    [ rewrite prop_cons_eq | rewrite prop_nil
    | rewrite prop_cons_ne by keys_differ ].

(** The same by evaluation, where the values are variables. *)
Ltac eval_props :=
  repeat match goal with
  | |- context [prop ?k ?o] =>
      let r := eval vm_compute in (prop k o) in
      replace (prop k o) with r by (vm_compute; reflexivity)
  end.

(** [v.k] where [v] is any value: reading a property of null or undefined throws
    a TypeError ([None]); the primitives and arrays have none of the properties
    that the console reads by name. *)
Definition read (k : jsstr) (v : value) : option value :=
  match v with
  | VUndef | VNull => None
  | VObj o => Some (prop k o)
  | _ => Some VUndef
  end.

(** [a?.k] *)
Definition opt_read (k : jsstr) (v : value) : value :=
  match read k v with Some x => x | None => VUndef end.

(** [String(v)].  An object from JSON whose own property [toString] hides the
    inherited method cannot be converted: the call throws ([None]). *)
Fixpoint to_string (v : value) : option jsstr :=
  match v with
  | VUndef => Some (u "undefined")
  | VNull => Some (u "null")
  | VBool b => Some (if b then u "true" else u "false")
  | VNum x => Some (num_to_string x)
  | VStr s => Some s
  | VObj o => match get (u "toString") o with
              | Some _ => None
              | None => Some (u "[object Object]")
              end
  | VArr l =>
      join (u ",") <$>
      (fix go l := match l with
        | [] => Some []
        | x :: l' =>
            let piece := match x with VUndef | VNull => Some [] | _ => to_string x end in
            match piece, go l' with Some s, Some r => Some (s :: r) | _, _ => None end
        end) l
  end.

(** [Number(v)] *)
Definition to_number (v : value) : option num :=
  match v with
  | VUndef => Some NaN
  | VNull => Some (S754_zero false)
  | VBool b => Some (num_of_Z (if b then 1 else 0))
  | VNum x => Some x
  | VStr s => Some (str_to_num s)
  | VArr _ | VObj _ => str_to_num <$> to_string v
  end.

(** [v === true], [v === false] *)
Definition is_true_value (v : value) : bool := match v with VBool b => b | _ => false end.
Definition is_false_value (v : value) : bool := match v with VBool b => negb b | _ => false end.
Definition is_undef (v : value) : bool := match v with VUndef => true | _ => false end.

(** [typeof v === 'string' ? v : ''] *)
Definition string_or_empty (v : value) : jsstr := match v with VStr s => s | _ => [] end.

Example to_string_nested :
  to_string (VArr [VNum (num_of_Z 1); VNull; VArr [VStr (u "a"); VBool true]]) = Some (u "1,,a,true").
Proof. vm_compute. reflexivity. Qed.
Example to_number_array : to_number (VArr [VNum (num_of_Z 400)]) = Some (num_of_Z 400).
Proof. vm_compute. reflexivity. Qed.
Example index_keys_first :
  set (u "10") VNull (set (u "a") VNull (set (u "9") VNull [])) =
  [(u "9", VNull); (u "10", VNull); (u "a", VNull)].
Proof. vm_compute. reflexivity. Qed.
