(* ===== verification/Json.v ===== *)
(** * JSON text
    [JSON.parse] and [JSON.stringify] on the values of [JsValue]: a recursive
    descent reader with fuel, the writer with the gaps the console uses (none,
    or two spaces), and their laws: the writer's text reads back as the value,
    the reader's fuel is always enough, and the text has no outer white space. *)

From Stdlib Require Import SpecFloat.
From stdpp Require Import base numbers option strings sets list.
From S2P Require Import Prelude JsString JsNumber JsValue.
Local Open Scope N_scope.

(** ** Interface: a printer whose output its parser reads back *)

Class Codec {A T : Type} (wf : A → Prop) (print : A → T) (read_back : T → option A) :=
  codec_roundtrip : ∀ a, wf a → read_back (print a) = Some a.

(** A codec prints distinct well-formed values differently. *)
Lemma codec_inj {A T} {wf : A → Prop} {print : A → T} {read_back} `{!Codec wf print read_back} a b :
  wf a → wf b → print a = print b → a = b.
Proof.
  intros Ha Hb E. apply codec_roundtrip in Ha, Hb. rewrite E in Ha. congruence.
Qed.

(** ** White space and string literals *)

Definition json_ws (c : N) : bool := existsb (N.eqb c) [9; 10; 13; 32].
Definition skip_ws (s : jsstr) : jsstr := drop_while json_ws s.

Definition hex_digit (d : N) : N := if d <? 10 then 48 + d else 87 + d.
Definition hex4 (c : N) : jsstr :=
  [hex_digit (c / 4096); hex_digit (c / 256 mod 16); hex_digit (c / 16 mod 16); hex_digit (c mod 16)].
Definition unhex4 (a b c d : N) : option N := radix_val 16 0 [a; b; c; d].

(** The escapes with a letter of their own. *)
Definition escapes : list (N * N) :=
  [(8, 98); (9, 116); (10, 110); (12, 102); (13, 114); (34, 34); (92, 92)].
Definition escape_letter (c : N) : option N :=
  snd <$> find (λ p, N.eqb p.1 c) escapes.
Definition unescape (e : N) : option N :=
  if e =? 47 then Some 47 else fst <$> find (λ p, N.eqb p.2 e) escapes.

(** The units of a string literal after its opening quote, and what follows the
    closing one. *)
Fixpoint p_string (s : jsstr) : option (jsstr * jsstr) :=
  match s with
  | [] => None
  | c :: r =>
      if c =? 34 then Some ([], r)
      else if c =? 92 then
        match r with
        | [] => None
        | e :: r1 =>
            if e =? 117 then
              match r1 with
              | a :: b :: c' :: d :: r2 =>
                  match unhex4 a b c' d, p_string r2 with
                  | Some x, Some (t, rest) => Some (x :: t, rest)
                  | _, _ => None
                  end
              | _ => None
              end
            else
              match unescape e, p_string r1 with
              | Some x, Some (t, rest) => Some (x :: t, rest)
              | _, _ => None
              end
        end
      else if c <? 32 then None
      else match p_string r with
           | Some (t, rest) => Some (c :: t, rest)
           | None => None
           end
  end.

Definition is_high (c : N) : bool := (55296 <=? c) && (c <=? 56319).
Definition is_low (c : N) : bool := (56320 <=? c) && (c <=? 57343).

Definition quote_unit (c : N) : jsstr :=
  match escape_letter c with
  | Some e => [92; e]
  | None => if (c <? 32) || is_high c || is_low c then 92 :: 117 :: hex4 c else [c]
  end.

(** [paired] says the unit before was the leading half of a surrogate pair. *)
Fixpoint quote_units (paired : bool) (s : jsstr) : jsstr :=
  match s with
  | [] => []
  | c :: r =>
      if is_low c && paired then c :: quote_units false r
      else if is_high c && match r with d :: _ => is_low d | [] => false end
        then c :: quote_units true r
      else quote_unit c ++ quote_units false r
  end.

Definition quote (s : jsstr) : jsstr := 34 :: quote_units false s ++ [34].

(** ** The reader *)

Definition p_scalar (s : jsstr) : option (value * jsstr) :=
  if starts_with s (u "null") then Some (VNull, drop 4 s)
  else if starts_with s (u "true") then Some (VBool true, drop 4 s)
  else if starts_with s (u "false") then Some (VBool false, drop 5 s)
  else match json_number s with Some (x, r) => Some (VNum x, r) | None => None end.

Fixpoint p_value (f : nat) (s : jsstr) : option (value * jsstr) :=
  match f with
  | O => None
  | S f =>
      match skip_ws s with
      | [] => None
      | c :: r =>
          if c =? 34 then
            match p_string r with Some (t, r') => Some (VStr t, r') | None => None end
          else if c =? 91 then
            match strip 93 (skip_ws r) with
            | Some r' => Some (VArr [], r')
            | None => match p_elems f r with Some (l, r') => Some (VArr l, r') | None => None end
            end
          else if c =? 123 then
            match strip 125 (skip_ws r) with
            | Some r' => Some (VObj [], r')
            | None => match p_members f [] r with Some (o, r') => Some (VObj o, r') | None => None end
            end
          else p_scalar (c :: r)
      end
  end
with p_elems (f : nat) (s : jsstr) : option (list value * jsstr) :=
  match f with
  | O => None
  | S f =>
      match p_value f s with
      | None => None
      | Some (v, r) =>
          match strip 44 (skip_ws r), strip 93 (skip_ws r) with
          | Some r', _ => match p_elems f r' with Some (l, r'') => Some (v :: l, r'') | None => None end
          | None, Some r' => Some ([v], r')
          | None, None => None
          end
      end
  end
with p_members (f : nat) (o : props) (s : jsstr) : option (props * jsstr) :=
  match f with
  | O => None
  | S f =>
      match strip 34 (skip_ws s) with
      | None => None
      | Some r =>
          match p_string r with
          | None => None
          | Some (k, r1) =>
              match strip 58 (skip_ws r1) with
              | None => None
              | Some r2 =>
                  match p_value f r2 with
                  | None => None
                  | Some (v, r3) =>
                      match strip 44 (skip_ws r3), strip 125 (skip_ws r3) with
                      | Some r', _ => p_members f (set k v o) r'
                      | None, Some r' => Some (set k v o, r')
                      | None, None => None
                      end
                  end
              end
          end
      end
  end.

(** Twice the length of the text bounds the depth of the calls. *)
Definition json_fuel (s : jsstr) : nat := S (2 * length s).

(** [JSON.parse(text)]; [None] is a SyntaxError. *)
Definition json_parse (s : jsstr) : option value :=
  match p_value (json_fuel s) s with
  | Some (v, r) => match skip_ws r with [] => Some v | _ => None end
  | None => None
  end.

(** ** The writer *)

Section writer.
Variable gap : jsstr.

Definition newline (ind : jsstr) : jsstr := match gap with [] => [] | _ => 10 :: ind end.
Definition colon : jsstr := match gap with [] => [58] | _ => [58; 32] end.

Definition brackets (l r : N) (ind : jsstr) (parts : list jsstr) : jsstr :=
  match parts with
  | [] => [l; r]
  | _ => l :: newline (ind ++ gap) ++ join (44 :: newline (ind ++ gap)) parts ++ newline ind ++ [r]
  end.

(** The text of a value; [undefined] stands for an array element here, the
    members of an object that hold it are left out. *)
Fixpoint ser (ind : jsstr) (v : value) : jsstr :=
  match v with
  | VUndef | VNull => u "null"
  | VBool b => if b then u "true" else u "false"
  | VNum x => if is_finite x then num_to_string x else u "null"
  | VStr s => quote s
  | VArr l => brackets 91 93 ind (map (ser (ind ++ gap)) l)
  | VObj o =>
      brackets 123 125 ind
        ((fix go o := match o with
          | [] => []
          | (k, x) :: o' =>
              match x with
              | VUndef => go o'
              | _ => (quote k ++ colon ++ ser (ind ++ gap) x) :: go o'
              end
          end) o)
  end.

(** [JSON.stringify(v, null, gap)]: [None] is [undefined]. *)
Definition json_stringify (v : value) : option jsstr :=
  match v with VUndef => None | _ => Some (ser [] v) end.
End writer.

Definition gap2 : jsstr := u "  ".

(** ** The values that JSON text can hold *)

Fixpoint json_ok (v : value) : bool :=
  match v with
  | VUndef => false
  | VNull | VBool _ | VStr _ => true
  | VNum x => is_finite x && num_ok x
  | VArr l => forallb json_ok l
  | VObj o => bool_decide (props_sorted o) &&
      (fix go o := match o with [] => true | (_, x) :: o' => json_ok x && go o' end) o
  end.

Definition members_ok (o : props) : bool := forallb (λ kv, json_ok kv.2) o.

Lemma json_ok_obj o : json_ok (VObj o) = bool_decide (props_sorted o) && members_ok o.
Proof.
  simpl. f_equal. unfold members_ok. induction o as [|[k x] o IH]; simpl; [done|]. by rewrite IH.
Qed.

Lemma members_ok_set k v o : json_ok v = true → members_ok o = true → members_ok (set k v o) = true.
Proof.
  unfold members_ok. intros Hv Ho. apply forallb_forall. rewrite forallb_forall in Ho.
  intros kv Hkv. apply list_elem_of_In in Hkv. revert kv Hkv. apply Forall_forall.
  apply (Forall_set (λ v, json_ok v = true)); [done|]. apply Forall_forall.
  intros kv Hkv. apply Ho. by apply list_elem_of_In.
Qed.

Lemma json_ok_set k v o : json_ok v = true → json_ok (VObj o) = true → json_ok (VObj (set k v o)) = true.
Proof.
  rewrite !json_ok_obj, !andb_true_iff, !bool_decide_eq_true. intros Hv [Hs Hm].
  split; [by apply props_sorted_set | by apply members_ok_set].
Qed.

Definition member_text (gap ind : jsstr) (kv : jsstr * value) : jsstr :=
  quote kv.1 ++ colon gap ++ ser gap (ind ++ gap) kv.2.

Lemma ser_obj gap ind o :
  ser gap ind (VObj o) =
  brackets gap 123 125 ind (map (member_text gap ind) (filter (λ kv, is_undef kv.2 = false) o)).
Proof.
  simpl. f_equal. induction o as [|[k x] o IH]; [done|].
  rewrite filter_cons. destruct x; simpl; rewrite IH; try done.
Qed.

(** The literals below write the quotation mark of JSON as a backquote. *)
Definition j (s : string) : jsstr := replace_unit 96 34 (u s).
Arguments j _%_string_scope.

Example json_ex1 :
  json_parse (j " { `a` : [1, 2.5e1, null], `b`: `x\u0041\n` } ") =
  Some (VObj [(u "a", VArr [VNum (num_of_Z 1); VNum (num_of_Z 25); VNull]);
              (u "b", VStr (u "xA" ++ [10]))]).
Proof. vm_compute. reflexivity. Qed.
Example json_ex2 :
  json_stringify gap2 (VObj [(u "a", VArr [VNum (num_of_Z 1); VObj []]); (u "b", VUndef)]) =
  Some (j "{
  `a`: [
    1,
    {}
  ]
}").
Proof. vm_compute. reflexivity. Qed.

(** ** String literals read back *)

Lemma unhex4_hex4_low : forallb (λ c, match hex4 c with
  | [a; b; d; e] => bool_decide (unhex4 a b d e = Some c) | _ => false end)
  (map N.of_nat (seq 0 32) ++ map (λ i, 55296 + N.of_nat i) (seq 0 2048)) = true.
Proof. vm_compute. reflexivity. Qed.

Lemma unhex4_hex4 c a b d e :
  c < 32 ∨ 55296 <= c <= 57343 → hex4 c = [a; b; d; e] → unhex4 a b d e = Some c.
Proof.
  intros Hc E. pose proof unhex4_hex4_low as H. rewrite forallb_forall in H.
  assert (In c (map N.of_nat (seq 0 32) ++ map (λ i, 55296 + N.of_nat i) (seq 0 2048))) as Hin.
  { apply in_or_app. rewrite !in_map_iff. destruct Hc; [left|right].
    - exists (N.to_nat c). rewrite in_seq. lia.
    - exists (N.to_nat (c - 55296)). rewrite in_seq. lia. }
  specialize (H _ Hin). rewrite E in H. by apply bool_decide_eq_true_1 in H.
Qed.

Lemma p_string_raw c t :
  32 <= c → c ≠ 34 → c ≠ 92 →
  p_string (c :: t) = match p_string t with Some (x, r) => Some (c :: x, r) | None => None end.
Proof.
  intros H1 H2 H3. simpl. by rewrite (proj2 (N.eqb_neq c 34)), (proj2 (N.eqb_neq c 92)),
    (proj2 (N.ltb_ge c 32)).
Qed.

Lemma escape_letter_spec c :
  match escape_letter c with
  | Some e => unescape e = Some c ∧ e ≠ 117
  | None => c ≠ 34 ∧ c ≠ 92
  end.
Proof.
  unfold escape_letter, escapes. cbn [find fst snd].
  repeat (lazymatch goal with |- context [(?a =? c)] => destruct (N.eqb_spec a c) end;
    [by subst|]). simpl. auto.
Qed.

Lemma p_string_quote_unit c t :
  p_string (quote_unit c ++ t) =
  match p_string t with Some (x, r) => Some (c :: x, r) | None => None end.
Proof.
  pose proof (escape_letter_spec c) as He. unfold quote_unit.
  destruct (escape_letter c) as [e|].
  - destruct He as [He Hu]. simpl. rewrite (proj2 (N.eqb_neq e 117)) by done. by rewrite He.
  - destruct ((c <? 32) || is_high c || is_low c) eqn:E.
    + unfold hex4 at 1. simpl. erewrite unhex4_hex4; [done| |done].
      unfold is_high, is_low in E.
      rewrite !orb_true_iff, !andb_true_iff, N.ltb_lt, !N.leb_le in E. lia.
    + bool_simp. apply p_string_raw; [by apply N.ltb_ge | tauto | tauto].
Qed.

Lemma p_string_quote_units b s r : p_string (quote_units b s ++ 34 :: r) = Some (s, r).
Proof.
  revert b. induction s as [|c s IH]; intros b; [done|]. simpl quote_units.
  assert (∀ b', is_low c || is_high c = true →
    p_string ((c :: quote_units b' s) ++ 34 :: r) = Some (c :: s, r)) as Hraw.
  { intros b' Hc. unfold is_low, is_high in Hc.
    rewrite orb_true_iff, !andb_true_iff, !N.leb_le in Hc.
    change ((c :: ?x) ++ ?y) with (c :: x ++ y). rewrite p_string_raw by lia. by rewrite IH. }
  destruct (is_low c && b) eqn:E1; [apply Hraw; bool_simp; by rewrite H|].
  destruct (is_high c && _) eqn:E2; [apply Hraw; bool_simp; rewrite H; by rewrite orb_true_r|].
  by rewrite <- app_assoc, p_string_quote_unit, IH.
Qed.

(** A string literal reads back as the string. *)
Lemma p_string_quote s r : p_string (quote_units false s ++ 34 :: r) = Some (s, r).
Proof. apply p_string_quote_units. Qed.

(** ** More fuel does not change an answer *)

Lemma p_fuel_S f :
  (∀ s x, p_value f s = Some x → p_value (S f) s = Some x) ∧
  (∀ s x, p_elems f s = Some x → p_elems (S f) s = Some x) ∧
  (∀ s o x, p_members f o s = Some x → p_members (S f) o s = Some x).
Proof.
  induction f as [|f (IHv & IHe & IHm)]; [done|]. split; [|split].
  - intros s x H. simpl in H. change (p_value (S (S f)) s = Some x). remember (S f) as f'.
    simpl. destruct (skip_ws s) as [|c r]; [done|].
    destruct (c =? 34); [done|]. destruct (c =? 91).
    + destruct (strip 93 _); [done|].
      destruct (p_elems f r) as [y|] eqn:E; [|done]. apply IHe in E. by rewrite E.
    + destruct (c =? 123); [|done]. destruct (strip 125 _); [done|].
      destruct (p_members f [] r) as [y|] eqn:E; [|done]. apply IHm in E. by rewrite E.
  - intros s x H. simpl in H. remember (S f) as f'. simpl.
    destruct (p_value f s) as [[v r]|] eqn:E; [|done]. apply IHv in E. rewrite E.
    destruct (strip 44 (skip_ws r)); [|done].
    destruct (p_elems f _) as [[vs r']|] eqn:E'; [|done]. apply IHe in E'. by rewrite E'.
  - intros s o x H. simpl in H. remember (S f) as f'. simpl.
    destruct (strip 34 _); [|done]. destruct (p_string _) as [[k r1]|]; [|done].
    destruct (strip 58 _); [|done].
    destruct (p_value f _) as [[v r]|] eqn:E; [|done]. apply IHv in E. rewrite E.
    destruct (strip 44 _); [|done]. by apply IHm.
Qed.

Lemma p_fuel_le f g :
  (f <= g)%nat →
  (∀ s x, p_value f s = Some x → p_value g s = Some x) ∧
  (∀ s x, p_elems f s = Some x → p_elems g s = Some x) ∧
  (∀ s o x, p_members f o s = Some x → p_members g o s = Some x).
Proof.
  induction 1 as [|g _ (H1 & H2 & H3)]; [done|].
  destruct (p_fuel_S g) as (H4 & H5 & H6). repeat split; auto.
Qed.

(** ** Fuel is always enough *)

Lemma p_string_shorter_n n s t r :
  (length s <= n)%nat → p_string s = Some (t, r) → (length r < length s)%nat.
Proof.
  revert s t r. induction n as [|n IH]; intros [|c s] t r Hn H; simpl in *; try done; try lia.
  destruct (c =? 34); [simplify_eq; lia|].
  destruct (c =? 92).
  - destruct s as [|e s]; [done|]. destruct (e =? 117).
    + destruct s as [|a [|b [|d [|e' s]]]]; try done.
      destruct (unhex4 a b d e'); [|done]. destruct (p_string s) as [[x y]|] eqn:E; [|done].
      simplify_eq. apply IH in E; simpl in *; lia.
    + destruct (unescape e); [|done]. destruct (p_string s) as [[x y]|] eqn:E; [|done].
      simplify_eq. apply IH in E; simpl in *; lia.
  - destruct (c <? 32); [done|]. destruct (p_string s) as [[x y]|] eqn:E; [|done].
    simplify_eq. apply IH in E; simpl in *; lia.
Qed.

Lemma p_string_shorter s t r : p_string s = Some (t, r) → (length r < length s)%nat.
Proof. by apply (p_string_shorter_n (length s)). Qed.

Lemma skip_ws_length s : (length (skip_ws s) <= length s)%nat.
Proof.
  destruct (drop_while_split json_ws s) as (l & E & _).
  unfold skip_ws. rewrite E at 2. rewrite length_app. lia.
Qed.

Lemma strip_length c s r : strip c s = Some r → (length s = S (length r))%nat.
Proof. intros H%strip_Some. by subst. Qed.

Lemma span_digit_length s : (length (span is_digit s).2 <= length s)%nat.
Proof. apply span_length. Qed.

Lemma exp_part_length s z r : exp_part s = Some (z, r) → (length r <= length s)%nat.
Proof.
  assert (∀ sg s z r, exp_digits sg s = Some (z, r) → (length r <= length s)%nat) as He.
  { intros sg t z' r'. unfold exp_digits. pose proof (span_digit_length t).
    destruct (span is_digit t) as [[|d ds] r0]; intros; simplify_eq/=. done. }
  destruct s as [|c s]; simpl; [intros; by simplify_eq|].
  destruct (_ || _); [|intros; simplify_eq/=; lia].
  destruct (strip 45 s) eqn:E1; [apply strip_length in E1|].
  { intros H%He. lia. }
  destruct (strip 43 s) eqn:E2; [apply strip_length in E2|]; intros H%He; lia.
Qed.

Lemma json_number_shorter s x r : json_number s = Some (x, r) → (length r < length s)%nat.
Proof.
  unfold json_number.
  assert (∃ neg t, (match strip 45 s with Some r => (true, r) | None => (false, s) end) = (neg, t)
    ∧ (length t <= length s)%nat) as (neg & t & -> & Ht).
  { destruct (strip 45 s) eqn:E; [apply strip_length in E|]; eexists _, _; split; try done. lia. }
  destruct (span_spec is_digit t) as (Et & _ & _).
  destruct (span is_digit t) as [[|d0 dr] s2]; [done|]. simpl in Et.
  apply (f_equal (@length _)) in Et. simpl in Et. rewrite length_app in Et.
  destruct (_ && _); [done|]. destruct (frac_part s2) as [[fs s3]|] eqn:Ef; [|done].
  destruct (exp_part s3) as [[ex s4]|] eqn:Ee; [|done]. intros; simplify_eq.
  apply exp_part_length in Ee. unfold frac_part in Ef.
  destruct (strip 46 s2) as [w|] eqn:E; [apply strip_length in E|simplify_eq; lia].
  pose proof (span_digit_length w) as Hl.
  destruct (span is_digit w) as [[|f1 fr] r']; simplify_eq/=. lia.
Qed.

Lemma p_scalar_shorter s v r : p_scalar s = Some (v, r) → (length r < length s)%nat.
Proof.
  unfold p_scalar. intros H.
  assert (∀ p, starts_with s p = true → p ≠ [] →
    (length (drop (length p) s) < length s)%nat) as Hd.
  { intros p [t ->]%starts_with_spec Hp. rewrite length_drop, length_app.
    destruct p; [done|]. simpl. lia. }
  destruct (starts_with s (u "null")) eqn:E1; [simplify_eq; by apply Hd in E1|].
  destruct (starts_with s (u "true")) eqn:E2; [simplify_eq; by apply Hd in E2|].
  destruct (starts_with s (u "false")) eqn:E3; [simplify_eq; by apply Hd in E3|].
  destruct (json_number s) as [[x r']|] eqn:E; [|done]. simplify_eq.
  by apply json_number_shorter in E.
Qed.

(** What is left of the text after a value, a list of elements or of members is
    strictly shorter. *)
Lemma p_shorter f :
  (∀ s v r, p_value f s = Some (v, r) → (length r < length s)%nat) ∧
  (∀ s l r, p_elems f s = Some (l, r) → (length r < length s)%nat) ∧
  (∀ s o o' r, p_members f o s = Some (o', r) → (length r < length s)%nat).
Proof.
  induction f as [|f (IHv & IHe & IHm)]; [done|]. split; [|split].
  - intros s v r H. simpl in H. pose proof (skip_ws_length s) as Hs.
    destruct (skip_ws s) as [|c t] eqn:Et; [done|]. pose proof (skip_ws_length t) as Ht. simpl in *.
    destruct (c =? 34).
    { destruct (p_string t) as [[x y]|] eqn:E; [|done]. simplify_eq.
      apply p_string_shorter in E. lia. }
    destruct (c =? 91).
    { destruct (strip 93 _) eqn:E; [apply strip_length in E; simplify_eq; lia|].
      destruct (p_elems f t) as [[x y]|] eqn:E'; [|done]. simplify_eq. apply IHe in E'. lia. }
    destruct (c =? 123).
    { destruct (strip 125 _) eqn:E; [apply strip_length in E; simplify_eq; lia|].
      destruct (p_members f [] t) as [[x y]|] eqn:E'; [|done]. simplify_eq. apply IHm in E'. lia. }
    apply p_scalar_shorter in H. simpl in H. lia.
  - intros s l r H. simpl in H. destruct (p_value f s) as [[v t]|] eqn:E; [|done].
    apply IHv in E. pose proof (skip_ws_length t) as Ht.
    destruct (strip 44 _) eqn:E1; [apply strip_length in E1|].
    + destruct (p_elems f _) as [[vs r']|] eqn:E'; [|done]. simplify_eq. apply IHe in E'. lia.
    + destruct (strip 93 _) eqn:E2; [apply strip_length in E2; simplify_eq; lia|done].
  - intros s o o' r H. simpl in H. pose proof (skip_ws_length s) as Hs.
    destruct (strip 34 _) as [t|] eqn:E0; [apply strip_length in E0|done].
    destruct (p_string t) as [[k r1]|] eqn:Ek; [apply p_string_shorter in Ek|done].
    pose proof (skip_ws_length r1) as H1.
    destruct (strip 58 _) as [r2|] eqn:E2; [apply strip_length in E2|done].
    destruct (p_value f r2) as [[v r3]|] eqn:E3; [apply IHv in E3|done].
    pose proof (skip_ws_length r3) as H3.
    destruct (strip 44 _) eqn:E4; [apply strip_length in E4; apply IHm in H; lia|].
    destruct (strip 125 _) eqn:E5; [apply strip_length in E5; simplify_eq; lia|done].
Qed.

Lemma p_fuel_enough_S f :
  (∀ s, (2 * length s < f)%nat → p_value (S f) s = p_value f s) ∧
  (∀ s, (2 * length s + 1 < f)%nat → p_elems (S f) s = p_elems f s) ∧
  (∀ s o, (2 * length s < f)%nat → p_members (S f) o s = p_members f o s).
Proof.
  induction f as [|f (IHv & IHe & IHm)]; [repeat split; intros; lia|]. split; [|split].
  - intros s Hf. change (p_value (S (S f)) s = p_value (S f) s). remember (S f) as f' eqn:Ef'.
    rewrite Ef' at 2. simpl. pose proof (skip_ws_length s) as Hs.
    destruct (skip_ws s) as [|c t] eqn:Et; [done|]. simpl in Hs. subst f'.
    rewrite IHe, IHm by lia. done.
  - intros s Hf. remember (S f) as f' eqn:Ef'. rewrite Ef' at 2. simpl. subst f'.
    rewrite IHv by lia. destruct (p_value f s) as [[v t]|] eqn:E; [|done].
    apply p_shorter in E. pose proof (skip_ws_length t) as Ht.
    destruct (strip 44 _) eqn:E1; [apply strip_length in E1|done]. by rewrite IHe by lia.
  - intros s o Hf. remember (S f) as f' eqn:Ef'. rewrite Ef' at 2. simpl. subst f'.
    pose proof (skip_ws_length s) as Hs.
    destruct (strip 34 _) as [t|] eqn:E0; [apply strip_length in E0|done].
    destruct (p_string t) as [[k r1]|] eqn:Ek; [apply p_string_shorter in Ek|done].
    pose proof (skip_ws_length r1) as H1.
    destruct (strip 58 _) as [r2|] eqn:E2; [apply strip_length in E2|done].
    rewrite IHv by lia.
    destruct (p_value f r2) as [[v r3]|] eqn:E3; [apply p_shorter in E3|done].
    pose proof (skip_ws_length r3) as H3.
    destruct (strip 44 _) eqn:E4; [apply strip_length in E4|done]. by rewrite IHm by lia.
Qed.

(** The fuel that [json_parse] passes decides the answer: more never changes it. *)
Lemma json_fuel_enough f s : (json_fuel s <= f)%nat → p_value f s = p_value (json_fuel s) s.
Proof.
  unfold json_fuel. induction 1 as [|f Hf IH]; [done|].
  rewrite <- IH. apply p_fuel_enough_S. lia.
Qed.

(** So any successful run, with whatever fuel, is the one [json_parse] does. *)
Lemma json_parse_run f s v r :
  p_value f s = Some (v, r) → skip_ws r = [] → json_parse s = Some v.
Proof.
  intros H Hr. unfold json_parse.
  rewrite <- (json_fuel_enough (f + json_fuel s)) by lia.
  apply (p_fuel_le f (f + json_fuel s)) in H; [|lia]. by rewrite H, Hr.
Qed.

(** ** The writer's text reads back *)

Definition all_ws (w : jsstr) : Prop := Forall (λ c, json_ws c = true) w.

Lemma json_ws_is_ws c : is_ws c = false → json_ws c = false.
Proof.
  unfold is_ws, json_ws. intros H. apply not_true_iff_false. intros (x & Hx & E)%existsb_exists.
  apply not_true_iff_false in H. apply H, existsb_exists. exists x. split; [|done].
  simpl in *. tauto.
Qed.

Lemma p_value_skip f w s : all_ws w → p_value f (w ++ s) = p_value f s.
Proof.
  intros Hw. destruct f as [|f]; [done|]. simpl. unfold skip_ws. by rewrite drop_while_app_all.
Qed.

Lemma skip_ws_app w s : all_ws w → head_out json_ws s → skip_ws (w ++ s) = s.
Proof. intros Hw Hs. unfold skip_ws. rewrite drop_while_app_all by done. by apply drop_while_id. Qed.

Lemma num_cont_ws w c s :
  all_ws w → num_cont c = false → head_out num_cont (w ++ c :: s).
Proof.
  intros Hw Hc. destruct Hw as [|d w Hd _]; [done|]. simpl.
  unfold json_ws in Hd. apply existsb_exists in Hd as (x & Hx & ->%N.eqb_eq).
  simpl in Hx. by destruct Hx as [<-|[<-|[<-|[<-|[]]]]].
Qed.

Lemma p_elems_S f s :
  p_elems (S f) s =
  match p_value f s with
  | None => None
  | Some (v, r) =>
      match strip 44 (skip_ws r), strip 93 (skip_ws r) with
      | Some r', _ => match p_elems f r' with Some (l, r'') => Some (v :: l, r'') | None => None end
      | None, Some r' => Some ([v], r')
      | None, None => None
      end
  end.
Proof. done. Qed.

Lemma starts_with_app p r : starts_with (p ++ r) p = true.
Proof. apply starts_with_spec. by exists r. Qed.

Lemma p_scalar_literals r :
  p_scalar (u "null" ++ r) = Some (VNull, r) ∧
  p_scalar (u "true" ++ r) = Some (VBool true, r) ∧
  p_scalar (u "false" ++ r) = Some (VBool false, r).
Proof. unfold p_scalar. rewrite !starts_with_app. done. Qed.

Lemma p_value_bracket f r :
  p_value (S f) (91 :: r) =
    match strip 93 (skip_ws r) with
    | Some r' => Some (VArr [], r')
    | None => match p_elems f r with Some (l, r') => Some (VArr l, r') | None => None end
    end ∧
  p_value (S f) (123 :: r) =
    match strip 125 (skip_ws r) with
    | Some r' => Some (VObj [], r')
    | None => match p_members f [] r with Some (o, r') => Some (VObj o, r') | None => None end
    end.
Proof. done. Qed.

Lemma brackets_app gap a b ind s ss rest :
  brackets gap a b ind (s :: ss) ++ rest =
  a :: newline gap (ind ++ gap) ++ join (44 :: newline gap (ind ++ gap)) (s :: ss) ++
    newline gap ind ++ b :: rest.
Proof. unfold brackets. by rewrite <- app_comm_cons, <- !app_assoc. Qed.

Lemma join_head sep s ss : ∃ t, join sep (s :: ss) = s ++ t.
Proof. destruct ss; [exists []; by rewrite app_nil_r | by eexists]. Qed.

Section roundtrip.
Variable gap : jsstr.
Hypothesis gap_ws : all_ws gap.

Lemma newline_ws ind : all_ws ind → all_ws (newline gap ind).
Proof. intros. unfold newline. destruct gap; [constructor | by constructor]. Qed.

Lemma ind_ws ind : all_ws ind → all_ws (ind ++ gap).
Proof. intros. by apply Forall_app. Qed.

(** The text of a value starts with a unit that ends no number, opens no
    closing bracket and is no white space. *)
Definition value_head (s : jsstr) : Prop :=
  ∃ c t, s = c :: t ∧ is_ws c = false ∧ c ≠ 93 ∧ c ≠ 125.

Lemma brackets_head l r ind parts : ∃ t, brackets gap l r ind parts = l :: t.
Proof. unfold brackets. destruct parts; eauto. Qed.

Lemma ser_head ind v : json_ok v = true → value_head (ser gap ind v).
Proof.
  unfold value_head. intros H. destruct v as [| |[]|x|s|l|o]; try done;
    try (eexists _, _; split; [reflexivity|]; done).
  - simpl in H. bool_simp. simpl. rewrite H. unfold num_ok in H0.
    apply bool_decide_eq_true_1 in H0. apply json_number_head in H0 as (c & t & -> & Hc).
    exists c, t. split; [done|]. destruct Hc as [Hc| ->]; [|done].
    unfold is_digit in Hc. rewrite andb_true_iff, !N.leb_le in Hc.
    split; [|lia]. unfold is_ws. simpl. rewrite !(proj2 (N.eqb_neq _ _)) by lia. done.
  - simpl. edestruct brackets_head as [t ->]. eexists _, _. split; [done|]. done.
  - rewrite ser_obj. edestruct brackets_head as [t ->]. eexists _, _. split; [done|]. done.
Qed.

Lemma skip_head w sep s ss rest c :
  all_ws w → value_head s → c = 93 ∨ c = 125 →
  strip c (skip_ws (w ++ join sep (s :: ss) ++ rest)) = None.
Proof.
  intros Hw (d & t & -> & Hd%json_ws_is_ws & ?) Hc. destruct (join_head sep (d :: t) ss) as [t' ->].
  rewrite skip_ws_app by done. simpl. rewrite (proj2 (N.eqb_neq d c)); [done|].
  destruct H, Hc; congruence.
Qed.

Definition reads_back (v : value) : Prop :=
  ∀ ind rest, all_ws ind → head_out num_cont rest →
    ∃ f, p_value f (ser gap ind v ++ rest) = Some (v, rest).

Lemma elems_read_back ind l w w' rest :
  all_ws ind → all_ws w → all_ws w' → l ≠ [] → Forall reads_back l →
  ∃ f, p_elems f (w ++ join (44 :: w) (map (ser gap ind) l) ++ w' ++ 93 :: rest) = Some (l, rest).
Proof.
  intros Hind Hw Hw' Hne Hl. induction Hl as [|v l Hv Hl IH]; [done|].
  destruct l as [|v' l].
  - destruct (Hv ind (w' ++ 93 :: rest)) as [f Hf]; [done | by apply num_cont_ws|].
    exists (S f). simpl. rewrite p_value_skip, Hf by done.
    rewrite skip_ws_app by done. done.
  - destruct IH as [f1 Hf1]; [done|].
    set (tail := join (44 :: w) (map (ser gap ind) (v' :: l)) ++ w' ++ 93 :: rest) in *.
    destruct (Hv ind (44 :: w ++ tail)) as [f2 Hf2]; [done..|].
    exists (S (f1 + f2)). rewrite p_elems_S.
    replace (w ++ join (44 :: w) (map (ser gap ind) (v :: v' :: l)) ++ w' ++ 93 :: rest)
      with (w ++ ser gap ind v ++ 44 :: w ++ tail).
    2: { unfold tail. simpl map. simpl join. by rewrite <- ?app_assoc, <- ?app_comm_cons, <- ?app_assoc. }
    rewrite p_value_skip by done.
    rewrite (proj1 (p_fuel_le f2 (f1 + f2) ltac:(lia)) _ _ Hf2). simpl.
    by rewrite (proj1 (proj2 (p_fuel_le f1 (f1 + f2) ltac:(lia))) _ _ Hf1).
Qed.

Lemma members_read_back ind o acc w w' rest :
  all_ws ind → all_ws w → all_ws w' → o ≠ [] → Forall (λ kv, reads_back kv.2) o →
  props_sorted (acc ++ o) →
  ∃ f, p_members f acc (w ++ join (44 :: w)
         (map (λ kv, quote kv.1 ++ colon gap ++ ser gap ind kv.2) o) ++ w' ++ 125 :: rest)
       = Some (acc ++ o, rest).
Proof.
  intros Hind Hw Hw' Hne Ho. revert acc. induction Ho as [|[k v] o Hv Ho IH]; [done|].
  intros acc Hs.
  assert (Hset : set k v acc = acc ++ [(k, v)]) by by apply (set_app_sorted acc k v o).
  assert (Hmem : ∀ f t r, p_value f t = Some (v, r) →
    p_members (S f) acc (w ++ quote k ++ colon gap ++ t) =
      match strip 44 (skip_ws r), strip 125 (skip_ws r) with
      | Some r', _ => p_members f (acc ++ [(k, v)]) r'
      | None, Some r' => Some (acc ++ [(k, v)], r')
      | None, None => None
      end).
  { intros f t r Ht. simpl. unfold quote.
    rewrite skip_ws_app by done. simpl. rewrite <- app_assoc. simpl.
    rewrite p_string_quote. unfold colon.
    assert (p_value f (match gap with [] => [] | _ => [32] end ++ t) = Some (v, r)) as Ht'.
    { rewrite p_value_skip; [done|]. destruct gap; by repeat constructor. }
    destruct gap; simpl in *; rewrite Ht', Hset; done. }
  destruct o as [|kv o].
  - destruct (Hv ind (w' ++ 125 :: rest)) as [f Hf]; [done | by apply num_cont_ws|].
    exists (S f). cbn [map join fst snd] in *. rewrite <- !app_assoc, (Hmem _ _ _ Hf).
    by rewrite skip_ws_app by done.
  - destruct (IH ltac:(done) (acc ++ [(k, v)])) as [f1 Hf1]; [by rewrite <- app_assoc|].
    set (tail := join (44 :: w) (map _ (kv :: o)) ++ w' ++ 125 :: rest) in *.
    destruct (Hv ind (44 :: w ++ tail)) as [f2 Hf2]; [done..|].
    exists (S (f1 + f2)).
    replace (w ++ join (44 :: w) _ ++ w' ++ 125 :: rest)
      with (w ++ quote k ++ colon gap ++ (ser gap ind v ++ 44 :: w ++ tail)).
    2: { unfold tail. cbn [map join fst snd].
         by rewrite <- ?app_assoc, <- ?app_comm_cons, <- ?app_assoc. }
    apply (proj1 (p_fuel_le f2 (f1 + f2) ltac:(lia))) in Hf2.
    cbn [fst snd] in Hf2. rewrite (Hmem _ _ _ Hf2). simpl.
    rewrite (proj2 (proj2 (p_fuel_le f1 (f1 + f2) ltac:(lia))) _ _ _ Hf1).
    by rewrite <- app_assoc.
Qed.

Lemma filter_ok o :
  (∀ kv : jsstr * value, In kv o → json_ok kv.2 = true) →
  filter (λ kv, is_undef kv.2 = false) o = o.
Proof.
  induction o as [|kv o IH]; intros H; [done|]. rewrite filter_cons_True.
  - f_equal. apply IH. intros. apply H. by right.
  - specialize (H kv (or_introl eq_refl)). by destruct kv.2.
Qed.

Lemma ser_reads_back v : json_ok v = true → reads_back v.
Proof.
  induction v as [| |b|x|s|l IH|o IH] using value_ind'; intros Hok ind rest Hind Hr; try done.
  - exists 1%nat. exact (proj1 (p_scalar_literals rest)).
  - exists 1%nat. destruct b; apply (proj2 (p_scalar_literals rest)).
  - simpl in Hok. bool_simp. unfold num_ok in H0. apply bool_decide_eq_true_1 in H0.
    exists 1%nat. simpl. rewrite H. destruct (json_number_head _ _ _ H0) as (c & t & Et & Hc).
    assert (31 < c /\ c < 58 /\ c ≠ 32 /\ c ≠ 34) as (Hc1 & Hc2 & Hc3 & Hc4).
    { unfold is_digit in Hc. rewrite andb_true_iff, !N.leb_le in Hc. lia. }
    pose proof (json_number_app _ rest _ H0 Hr) as Hn. rewrite Et in Hn |- *.
    change ((c :: t) ++ rest) with (c :: (t ++ rest)) in *.
    unfold skip_ws. rewrite drop_while_id.
    2: { simpl. unfold json_ws. simpl. by rewrite !(proj2 (N.eqb_neq c _)) by lia. }
    rewrite !(proj2 (N.eqb_neq c _)) by lia. unfold p_scalar.
    assert (∀ p d, (d =? c) = false → starts_with (c :: t ++ rest) (d :: p) = false) as Hsw.
    { intros p d Hd. simpl. by rewrite Hd. }
    change (u "null") with (110 :: [117; 108; 108]).
    change (u "true") with (116 :: [114; 117; 101]).
    change (u "false") with (102 :: [97; 108; 115; 101]).
    rewrite !Hsw by (apply N.eqb_neq; lia). by rewrite Hn.
  - exists 1%nat. unfold ser, quote. simpl. rewrite <- app_assoc. simpl.
    by rewrite p_string_quote.
  - simpl in Hok. rewrite forallb_forall in Hok.
    destruct (decide (l = [])) as [->|Hl]; [by exists 1%nat|].
    destruct (elems_read_back (ind ++ gap) l (newline gap (ind ++ gap)) (newline gap ind) rest)
      as [f Hf]; try by auto using ind_ws, newline_ws.
    { rewrite Forall_forall in IH |- *. intros y Hy. apply IH; [done|].
      apply Hok. by apply list_elem_of_In. }
    destruct l as [|v l]; [done|]. exists (S f).
    change (ser gap ind (VArr (v :: l))) with
      (brackets gap 91 93 ind (ser gap (ind ++ gap) v :: map (ser gap (ind ++ gap)) l)).
    rewrite brackets_app, (proj1 (p_value_bracket _ _)).
    rewrite skip_head; [by cbn [map] in Hf; rewrite Hf|by auto using ind_ws, newline_ws| |by left].
    apply ser_head, Hok. by left.
  - rewrite json_ok_obj in Hok. bool_simp. unfold members_ok in H0. rewrite forallb_forall in H0.
    rewrite ser_obj, filter_ok by done.
    destruct (decide (o = [])) as [->|Ho]; [by exists 1%nat|].
    destruct (members_read_back (ind ++ gap) o [] (newline gap (ind ++ gap)) (newline gap ind) rest)
      as [f Hf]; try by auto using ind_ws, newline_ws.
    { rewrite Forall_forall in IH |- *. intros y Hy. apply IH; [done|].
      apply H0. by apply list_elem_of_In. }
    destruct o as [|kv o]; [done|]. exists (S f).
    change (map (member_text gap ind) (kv :: o)) with
      (map (λ kv, quote kv.1 ++ colon gap ++ ser gap (ind ++ gap) kv.2) (kv :: o)) in *.
    cbn [map] in *. rewrite brackets_app, (proj2 (p_value_bracket _ _)).
    rewrite skip_head; [by rewrite Hf|by auto using ind_ws, newline_ws| |by right].
    by eexists _, _.
Qed.
End roundtrip.

(** [JSON.parse(JSON.stringify(v, null, gap))] is [v]. *)
Lemma json_parse_ser gap v : all_ws gap → json_ok v = true → json_parse (ser gap [] v) = Some v.
Proof.
  intros Hg Hv. destruct (ser_reads_back gap Hg v Hv [] []) as [f Hf]; [constructor|done|].
  rewrite app_nil_r in Hf. by eapply json_parse_run.
Qed.

Lemma gap2_ws : all_ws gap2.
Proof. by repeat constructor. Qed.

#[export] Instance json_codec2 : Codec (λ v, json_ok v = true) (ser gap2 []) json_parse.
Proof. intros v. apply json_parse_ser, gap2_ws. Qed.
#[export] Instance json_codec0 : Codec (λ v, json_ok v = true) (ser [] []) json_parse.
Proof. intros v. apply json_parse_ser. constructor. Qed.

(** The text of an array or an object is its own [trim] and is not blank. *)
Lemma brackets_trim gap a b ind parts :
  is_ws a = false → is_ws b = false →
  trim (brackets gap a b ind parts) = brackets gap a b ind parts.
Proof.
  intros Ha Hb. apply trim_id; unfold brackets; destruct parts; try done.
  rewrite app_comm_cons, !app_assoc, rev_unit. done.
Qed.

Lemma ser_object_trim gap ind v :
  is_array v = true ∨ (∃ o, v = VObj o) → trim (ser gap ind v) = ser gap ind v.
Proof.
  intros [H|[o ->]].
  - destruct v; try done. by apply brackets_trim.
  - rewrite ser_obj. by apply brackets_trim.
Qed.

Lemma ser_nonblank gap ind v : json_ok v = true → trim (ser gap ind v) ≠ [].
Proof.
  intros Hv. destruct (ser_head gap ind v Hv) as (c & t & -> & Hc & _). by apply trim_cons_nonws.
Qed.
