(* ===== verification/JsSame.v ===== *)
(** * Values up to the order of keys
    Two JSON values that hold the same data: objects have the same properties, in
    whatever order. *)

From Stdlib Require Import SpecFloat.
From stdpp Require Import base numbers option strings sets list.
From S2P Require Import Prelude JsString JsNumber JsValue Json.

Definition compound (v : value) : bool := match v with VArr _ | VObj _ => true | _ => false end.

Inductive same : value → value → Prop :=
  | same_scalar v : compound v = false → same v v
  | same_arr l l' : Forall2 same l l' → same (VArr l) (VArr l')
  | same_obj a b : (∀ k, option_Forall2 same (get k a) (get k b)) → same (VObj a) (VObj b).

Lemma same_obj_inv a b : same (VObj a) (VObj b) ↔ ∀ k, option_Forall2 same (get k a) (get k b).
Proof. split; [by inversion 1 | by constructor]. Qed.
Lemma same_arr_inv l l' : same (VArr l) (VArr l') ↔ Forall2 same l l'.
Proof. split; [by inversion 1 | by constructor]. Qed.
Lemma same_scalar_inv v w : compound v = false → same v w ↔ v = w.
Proof. intros Hv. split; [by inversion 1; subst | intros <-; by constructor]. Qed.

Lemma get_Forall {V} (P : V → Prop) k (o : list (jsstr * V)) v : Forall (λ kv, P kv.2) o → get k o = Some v → P v.
Proof. induction 1 as [|[k' x] o Hx Ho IH]; simpl; [done|]. case_decide; [by intros [= <-] | exact IH]. Qed.

#[export] Instance same_refl : Reflexive same.
Proof.
  intros v. induction v as [| | | | |l IH|o IH] using value_ind'; try by constructor.
  - apply same_arr. induction IH; by constructor.
  - apply same_obj. intros k. destruct (get k o) eqn:E; constructor. by eapply (get_Forall (λ v, same v v)).
Qed.

#[export] Instance same_sym : Symmetric same.
Proof.
  intros v. induction v as [| | | | |l IH|o IH] using value_ind'; intros w; inversion 1; subst; try by constructor.
  - apply same_arr. match goal with H : Forall2 _ _ _ |- _ => rename H into F end. clear H. revert l' F.
    induction IH as [|x l Hx Hl IH']; intros l' F; inversion F; subst; constructor; auto.
  - apply same_obj. intros k. match goal with H : ∀ k, option_Forall2 _ _ _ |- _ => specialize (H k); rename H into Hk end.
    destruct (get k o) eqn:E; inversion Hk; subst; constructor. by eapply (get_Forall (λ v, ∀ w, same v w → same w v)).
Qed.

#[export] Instance same_trans : Transitive same.
Proof.
  intros v. induction v as [| | | | |l IH|o IH] using value_ind'; intros w z H1 H2; inversion H1; subst; try done.
  - inversion H2; subst; [done|]. apply same_arr. clear H1 H2. match goal with F1 : Forall2 _ l ?m, F2 : Forall2 _ ?m ?n |- _ =>
      revert m n F1 F2 end.
    induction IH as [|x l Hx Hl IH']; intros m n F1 F2; inversion F1; subst; inversion F2; subst; constructor; eauto.
  - inversion H2; subst; [done|]. apply same_obj. intros k.
    match goal with A : ∀ k, option_Forall2 _ (get k o) (get k ?m), B : ∀ k, option_Forall2 _ (get k ?m) (get k ?n) |- _ =>
      pose proof (A k) as A1; pose proof (B k) as B1 end.
    destruct (get k o) eqn:E; inversion A1; subst.
    + match goal with H : Some ?y = get k _ |- _ => rewrite <- H in B1 end. inversion B1; subst. constructor.
      eapply (get_Forall (λ v, ∀ w z, same v w → same w z → same v z)); eauto.
    + match goal with H : None = get k _ |- _ => rewrite <- H in B1 end. inversion B1; subst. constructor.
Qed.

#[export] Instance same_equiv : Equivalence same.
Proof. split; apply _. Qed.

(** Reading a property respects the relation. *)
#[export] Instance prop_same k : Proper ((λ a b, same (VObj a) (VObj b)) ==> same) (prop k).
Proof.
  intros a b H. pose proof (proj1 (same_obj_inv _ _) H k) as Hk. unfold prop. destruct Hk; [done | by constructor].
Qed.
#[export] Instance truthy_same : Proper (same ==> eq) truthy.
Proof. intros v w H. by inversion H. Qed.
#[export] Instance opt_read_same k : Proper (same ==> same) (opt_read k).
Proof.
  intros v w H. inversion H; subst; try done. by apply (prop_same k a b).
Qed.

(** Objects whose entries are a permutation of each other. *)
Lemma get_perm {V} k (o o' : list (jsstr * V)) : NoDup (keys o) → o ≡ₚ o' → get k o = get k o'.
Proof.
  intros Hn Hp. induction Hp as [|[k1 v1] o o' Hp IH|[k1 v1] [k2 v2] o|o1 o2 o3 H1 IH1 H2 IH2].
  - done.
  - simpl in *. apply NoDup_cons in Hn as [_ Hn]. by rewrite IH.
  - simpl in *. apply NoDup_cons in Hn as [Hn _]. repeat case_decide; subst; try done. exfalso. apply Hn. by left.
  - rewrite IH1 by done. apply IH2. unfold keys. by rewrite <- H1.
Qed.

Lemma get_fmap {V W} (f : V → W) k (o : list (jsstr * V)) : get k (map (λ kv, (kv.1, f kv.2)) o) = f <$> get k o.
Proof. induction o as [|[k' v] o IH]; simpl; [done|]. by case_decide. Qed.

(** Assignments of distinct keys. *)
Lemma get_assign {V} k (l o : list (jsstr * V)) :
  NoDup (keys l) → get k (fold_left (λ o kv, set kv.1 kv.2 o) l o) = match get k l with Some v => Some v | None => get k o end.
Proof.
  revert o. induction l as [|[k1 v1] l IH]; intros o Hn; simpl; [done|]. apply NoDup_cons in Hn as [H1 Hn].
  rewrite IH, get_set by done. case_decide as E; [|done]. subst k1. simpl.
  assert (get k l = None) as -> by (by apply get_None). done.
Qed.

(** ** Equality decided *)

Fixpoint value_eqb (a b : value) {struct a} : bool :=
  match a, b with
  | VUndef, VUndef | VNull, VNull => true
  | VBool x, VBool y => eqb x y
  | VNum x, VNum y => bool_decide (x = y)
  | VStr x, VStr y => bool_decide (x = y)
  | VArr l, VArr l' =>
      (fix go l l' := match l, l' with [], [] => true | x :: l, y :: l' => value_eqb x y && go l l' | _, _ => false end) l l'
  | VObj o, VObj o' =>
      (fix go (o o' : props) :=
         match o, o' with
         | [], [] => true
         | (k, x) :: o, (k', y) :: o' => bool_decide (k = k') && value_eqb x y && go o o'
         | _, _ => false
         end) o o'
  | _, _ => false
  end.

Lemma value_eqb_spec a b : value_eqb a b = true ↔ a = b.
Proof.
  revert b. induction a as [| |x|x|x|l IH|o IH] using value_ind'; intros [| |y|y|y|l'|o']; simpl; try done.
  - rewrite eqb_true_iff. split; congruence.
  - rewrite bool_decide_eq_true. split; congruence.
  - rewrite bool_decide_eq_true. split; congruence.
  - trans (l = l'); [|split; congruence]. revert l'. induction IH as [|x l Hx _ IHl]; intros [|y l']; try done.
    rewrite andb_true_iff, Hx, IHl. split; [by intros [-> ->] | by intros [= -> ->]].
  - trans (o = o'); [|split; congruence]. revert o'. induction IH as [|[k x] o Hx _ IHo]; intros [|[k' y] o']; try done.
    simpl in Hx. rewrite !andb_true_iff, bool_decide_eq_true, Hx, IHo. split; [by intros [[-> ->] ->] | by intros [= -> -> ->]].
Qed.

#[export] Instance value_eq_dec : EqDecision value.
Proof. intros a b. destruct (value_eqb a b) eqn:E; [left | right]; by rewrite <- value_eqb_spec, E. Defined.
