(* ===== verification/JsOps.v ===== *)
(** * More JavaScript operations
    The operators and library functions that the hooks over the server's answers use
    on arbitrary values: [+], [===], [Object.entries], [encodeURIComponent],
    [encodeURI] and [String.prototype.replace] with a text pattern. *)

From Stdlib Require Import SpecFloat.
From stdpp Require Import base numbers option strings sets list.
From S2P Require Import Prelude JsString JsNumber JsValue.
Local Open Scope N_scope.

(** ** Operators *)

(** The default conversion to a primitive: arrays and objects become texts. *)
Definition to_primitive (v : value) : option value :=
  match v with
  | VArr _ | VObj _ => VStr <$> to_string v
  | _ => Some v
  end.

(** [a + b]; [None] is a TypeError. *)
Definition js_add (a b : value) : option value :=
  a ← to_primitive a; b ← to_primitive b;
  match a, b with
  | VStr _, _ | _, VStr _ => s ← to_string a; t ← to_string b; Some (VStr (s ++ t))
  | _, _ => x ← to_number a; y ← to_number b; Some (VNum (nadd x y))
  end.

(** [a === b] of two values that are not the same object: two arrays or objects of
    an answer are never the same one. *)
Definition strict_eq (a b : value) : bool :=
  match a, b with
  | VUndef, VUndef | VNull, VNull => true
  | VBool x, VBool y => eqb x y
  | VNum x, VNum y => neqb x y
  | VStr x, VStr y => bool_decide (x = y)
  | _, _ => false
  end.

(** [Object.entries(v)] of a value that is not null or undefined. *)
Definition own_entries (v : value) : props :=
  match v with
  | VObj o => o
  | VArr l => imap (λ i x, (dec_N (N.of_nat i), x)) l
  | VStr s => imap (λ i c, (dec_N (N.of_nat i), VStr [c])) s
  | _ => []
  end.

(** [values.reduce((acc, v) => acc + v, 0)] *)
Definition sum_values (l : list value) : option value :=
  fold_left (λ acc v, a ← acc; js_add a v) l (Some (VNum (S754_zero false))).

Lemma strict_eq_str s t : strict_eq (VStr s) (VStr t) = bool_decide (s = t).
Proof. done. Qed.

Example js_add_ex :
  (js_add (VNum (num_of_Z 1)) (VNum (num_of_Z 2)), js_add (VNum (num_of_Z 1)) (VStr (u "2")),
   js_add (VBool true) VNull, js_add (VStr (u "a")) (VArr [VNum (num_of_Z 1); VNull])) =
  (Some (VNum (num_of_Z 3)), Some (VStr (u "12")), Some (VNum (num_of_Z 1)), Some (VStr (u "a1,"))).
Proof. vm_compute. reflexivity. Qed.

(** ** [encodeURIComponent] and [encodeURI] *)

Definition uri_unreserved (c : N) : bool :=
  is_digit c || ((65 <=? c) && (c <=? 90)) || ((97 <=? c) && (c <=? 122)) ||
  existsb (N.eqb c) [45; 95; 46; 33; 126; 42; 39; 40; 41].

Definition upper_hex (d : N) : N := if d <? 10 then 48 + d else 55 + d.
Definition percent (b : N) : jsstr := [37; upper_hex (b / 16); upper_hex (b mod 16)].

Definition utf8_bytes (cp : N) : list N :=
  if cp <? 128 then [cp]
  else if cp <? 2048 then [192 + cp / 64; 128 + cp mod 64]
  else if cp <? 65536 then [224 + cp / 4096; 128 + cp / 64 mod 64; 128 + cp mod 64]
  else [240 + cp / 262144; 128 + cp / 4096 mod 64; 128 + cp / 64 mod 64; 128 + cp mod 64].

(** [keep]: the units that stay.  [None] is the URIError of a lone surrogate. *)
Fixpoint encode_units (keep : N → bool) (s : jsstr) : option jsstr :=
  match s with
  | [] => Some []
  | c :: s' =>
      if keep c then cons c <$> encode_units keep s'
      else if (55296 <=? c) && (c <=? 56319) then
        match s' with
        | d :: s'' =>
            if (56320 <=? d) && (d <=? 57343) then
              let cp := (c - 55296) * 1024 + (d - 56320) + 65536 in
              app (concat (map percent (utf8_bytes cp))) <$> encode_units keep s''
            else None
        | [] => None
        end
      else if (56320 <=? c) && (c <=? 57343) then None
      else app (concat (map percent (utf8_bytes c))) <$> encode_units keep s'
  end.

Definition encodeURIComponent (v : value) : option jsstr := to_string v ≫= encode_units uri_unreserved.

(** The characters that separate the parts of an address stay. *)
Definition uri_reserved (c : N) : bool := existsb (N.eqb c) [59; 47; 63; 58; 64; 38; 61; 43; 36; 44; 35].
Definition encodeURI : jsstr → option jsstr := encode_units (λ c, uri_unreserved c || uri_reserved c).

Example encode_address_ex : encodeURI (u "/a?b=c d&e=100%") = Some (u "/a?b=c%20d&e=100%25").
Proof. vm_compute. reflexivity. Qed.

Example encode_ex :
  (encodeURIComponent (VStr (u "a b&é，😀")), encodeURIComponent (VNum (num_of_Z 3)),
   encodeURIComponent (VStr [55296])) =
  (Some (u "a%20b%26%C3%A9%EF%BC%8C%F0%9F%98%80"), Some (u "3"), None).
Proof. vm_compute. reflexivity. Qed.

(** ** [s.replace(pattern, replacement)] with two texts: the first occurrence *)

(** The text before the first occurrence, and the text after it. *)
Fixpoint find_first (s p : jsstr) : option (jsstr * jsstr) :=
  if starts_with s p then Some ([], drop (length p) s)
  else match s with
       | [] => None
       | c :: s' => (λ ab, (c :: ab.1, ab.2)) <$> find_first s' p
       end.

(** The special sequences of a replacement: two dollars stand for one, [$&] for the
    match, a dollar and a backquote for what precedes it, and a dollar and an
    apostrophe for what follows. *)
Fixpoint expand (matched before after r : jsstr) : jsstr :=
  match r with
  | 36 :: ((c :: r') as rest) =>
      if c =? 36 then 36 :: expand matched before after r'
      else if c =? 38 then matched ++ expand matched before after r'
      else if c =? 96 then before ++ expand matched before after r'
      else if c =? 39 then after ++ expand matched before after r'
      else 36 :: expand matched before after rest
  | c :: r' => c :: expand matched before after r'
  | [] => []
  end.

Definition replace_first (s p r : jsstr) : jsstr :=
  match find_first s p with
  | Some (before, after) => before ++ expand p before after r ++ after
  | None => s
  end.

Example replace_ex :
  (replace_first (u "a ${n} b ${n}") (u "${n}") (u "x$&$$"), replace_first (u "abc") (u "z") (u "y")) =
  (u "a x${n}$ b ${n}", u "abc").
Proof. vm_compute. reflexivity. Qed.

(** ** [parseInt(s)] *)

(** The longest run of digits in base [b], and their value. *)
Fixpoint digits_run (b : N) (acc : option N) (s : jsstr) : option N :=
  match s with
  | c :: s' =>
      match radix_digit b c with
      | Some d => digits_run b (Some (b * default 0 acc + d)) s'
      | None => acc
      end
  | [] => acc
  end.

Definition parse_int_text (s : jsstr) : num :=
  let t := trim_start s in
  let '(neg, t) := match t with
    | 45 :: r => (true, r) | 43 :: r => (false, r) | _ => (false, t) end in
  let v := match t with
    | 48 :: x :: r => if (x =? 120) || (x =? 88) then digits_run 16 None r else digits_run 10 None t
    | _ => digits_run 10 None t
    end in
  match v with
  | None => NaN
  | Some n => if neg then (if n =? 0 then S754_zero true else num_of_Z (- Z.of_N n)) else num_of_Z (Z.of_N n)
  end.

Example parse_int_ex :
  (parse_int_text (u " 20px"), parse_int_text (u "-0x1f"), parse_int_text (u "a")) =
  (num_of_Z 20, num_of_Z (-31), NaN).
Proof. vm_compute. reflexivity. Qed.
