(* ===== verification/StatusCodeRules.v ===== *)
(** * HTTP status code rules
    [src/web/src/helpers/statusCodeRules.js]: the text of the operation settings
    ("401, 500-503") parsed into merged ranges and printed back. *)

From Stdlib Require Import SpecFloat.
From stdpp Require Import base numbers option strings sets list.
From S2P Require Import Prelude JsString JsNumber JsValue Json.
Local Open Scope Z_scope.

Record range := mk_range { start : Z; end_ : Z }.

#[export] Instance range_eq_dec : EqDecision range.
Proof. solve_decision. Defined.

Record parse_result := {
  ok : bool;
  ranges : list range;
  tokens : list jsstr;
  normalized : jsstr;
  invalidTokens : list jsstr;
}.

(** [/^\d+$/.test(s)] *)
Definition isNumber (s : jsstr) : bool :=
  match s with [] => false | _ => forallb is_digit s end.

(** [Number.parseInt(s, 10)] on a string of digits: the integer that the rounded
    Number holds, [None] when it is Infinity. *)
Definition parse_int (s : jsstr) : option Z := num_to_Z (num_of_dec false (digits_val s) 0).

Definition parseToken (token : jsstr) : option range :=
  let cleaned := remove_unit 32 (trim token) in
  match cleaned with
  | [] => None
  | _ =>
      if bool_decide (45%N ∈ cleaned) then
        match split_on 45 cleaned with
        | [a; b] =>
            if negb (isNumber a) || negb (isNumber b) then None
            else
              match parse_int a, parse_int b with
              | Some s, Some e =>
                  if e <? s then None
                  else if (s <? 100) || (599 <? e) then None
                  else Some (mk_range s e)
              | _, _ => None
              end
        | _ => None
        end
      else if negb (isNumber cleaned) then None
      else
        match parse_int cleaned with
        | Some code => if (code <? 100) || (599 <? code) then None else Some (mk_range code code)
        | None => None
        end
  end.

(** The comparator: by start, then by end. *)
Definition range_leb (a b : range) : bool :=
  if start a =? start b then end_ a <=? end_ b else start a <=? start b.

(** The loop over the sorted ranges; [last] is the last element of [merged]. *)
Fixpoint merge_from (last : range) (rest : list range) : list range :=
  match rest with
  | [] => [last]
  | current :: rest' =>
      if start current <=? end_ last + 1
      then merge_from (mk_range (start last) (Z.max (end_ last) (end_ current))) rest'
      else last :: merge_from current rest'
  end.

Definition mergeRanges (rs : list range) : list range :=
  match sort range_leb rs with
  | [] => []
  | first :: rest => merge_from first rest
  end.

Definition range_token (r : range) : jsstr :=
  if start r =? end_ r then dec_Z (start r) else dec_Z (start r) ++ u "-" ++ dec_Z (end_ r).

(** The trimmed non-empty segments between (full-width or ASCII) commas. *)
Definition segments (raw : jsstr) : list jsstr :=
  filter (λ s, s ≠ []) (map trim (split_on 44 (replace_unit 65292 44 raw))).

Definition invalid_of (segs : list jsstr) : list jsstr :=
  filter (λ s, parseToken s = None) segs.

Definition parse_rules (text : jsstr) : parse_result :=
  let raw := trim text in
  match raw with
  | [] => {| ok := true; ranges := []; tokens := []; normalized := []; invalidTokens := [] |}
  | _ =>
      match invalid_of (segments raw) with
      | [] =>
          let merged := mergeRanges (omap parseToken (segments raw)) in
          {| ok := true; ranges := merged; tokens := map range_token merged;
             normalized := join (u ",") (map range_token merged); invalidTokens := [] |}
      | inv =>
          {| ok := false; ranges := []; tokens := []; normalized := raw; invalidTokens := inv |}
      end
  end.

(** The exported function takes any value; [None] is the TypeError of
    [toString] on an object that hides it. *)
Definition parseHttpStatusCodeRules (input : value) : option parse_result :=
  match input with
  | VUndef | VNull => Some (parse_rules [])
  | _ => parse_rules <$> to_string input
  end.

Example rules_ex1 :
  (λ r, (ok r, ranges r, normalized r)) <$> parseHttpStatusCodeRules (VStr (u " 500-503， 401 ,504, 402 - 410,"))
  = Some (true, [mk_range 401 410; mk_range 500 504], u "401-410,500-504").
Proof. vm_compute. reflexivity. Qed.
Example rules_ex2 :
  (λ r, (ok r, normalized r, invalidTokens r)) <$> parseHttpStatusCodeRules (VStr (u " 200, 600, a-b"))
  = Some (false, u "200, 600, a-b", [u "600"; u "a-b"]).
Proof. vm_compute. reflexivity. Qed.

(** ** Specification: a rule list stands for a set of codes *)

Definition covers (rs : list range) (c : Z) : Prop := ∃ r, r ∈ rs ∧ start r <= c <= end_ r.

Definition in_bounds (r : range) : Prop := 100 <= start r ∧ start r <= end_ r ∧ end_ r <= 599.

(** Normal form: non-empty ranges in increasing order, with a gap between
    neighbours. *)
Fixpoint separated (rs : list range) : Prop :=
  match rs with
  | [] => True
  | r :: rs' => start r <= end_ r ∧ Forall (λ r', end_ r + 1 < start r') rs' ∧ separated rs'
  end.

Lemma covers_nil c : ¬ covers [] c.
Proof. intros (r & Hr & _). by apply elem_of_nil in Hr. Qed.

Lemma covers_cons r rs c : covers (r :: rs) c ↔ start r <= c <= end_ r ∨ covers rs c.
Proof. unfold covers. set_solver. Qed.

Lemma covers_perm rs1 rs2 c : rs1 ≡ₚ rs2 → covers rs1 c ↔ covers rs2 c.
Proof. intros H. unfold covers. by setoid_rewrite H. Qed.

Lemma range_leb_total a b : range_leb a b = true ∨ range_leb b a = true.
Proof. unfold range_leb. destruct (Z.eqb_spec (start a) (start b)), (Z.eqb_spec (start b) (start a)); lia. Qed.

Lemma range_leb_trans a b c : range_leb a b = true → range_leb b c = true → range_leb a c = true.
Proof.
  unfold range_leb. destruct (Z.eqb_spec (start a) (start b)), (Z.eqb_spec (start b) (start c)),
    (Z.eqb_spec (start a) (start c)); lia.
Qed.

Lemma range_leb_start a b : range_leb a b = true → start a <= start b.
Proof. unfold range_leb. destruct (Z.eqb_spec (start a) (start b)); lia. Qed.

Lemma merge_from_start last rest r :
  Forall (λ r', start last <= start r') rest → in_order range_leb rest →
  r ∈ merge_from last rest → start last <= start r.
Proof.
  revert last. induction rest as [|c rest IH]; intros last Hl Ho Hr; simpl in *.
  - apply list_elem_of_singleton in Hr as ->. lia.
  - apply Forall_cons in Hl as [Hc Hl]. destruct Ho as [Hco Ho].
    destruct (Z.leb_spec (start c) (end_ last + 1)); [by apply IH in Hr|].
    apply elem_of_cons in Hr as [->|Hr]; [lia|]. apply IH in Hr; [lia| |done].
    eapply Forall_impl; [done|]. intros. by apply range_leb_start.
Qed.

(** The merge loop keeps the covered codes and produces the normal form. *)
Lemma merge_from_spec last rest :
  start last <= end_ last → Forall (λ r, start r <= end_ r) rest →
  Forall (λ r, start last <= start r) rest → in_order range_leb rest →
  separated (merge_from last rest) ∧ ∀ c, covers (merge_from last rest) c ↔ covers (last :: rest) c.
Proof.
  revert last. induction rest as [|c rest IH]; intros last Hne Hrs Hl Ho; simpl; [done|].
  apply Forall_cons in Hrs as [Hc Hrs], Hl as [Hlc Hl]. destruct Ho as [Hco Ho].
  destruct (Z.leb_spec (start c) (end_ last + 1)) as [Hle|Hgt].
  - destruct (IH (mk_range (start last) (Z.max (end_ last) (end_ c)))) as [IH1 IH2]; simpl; try done; [lia|].
    split; [done|]. intros x. rewrite IH2, !covers_cons. simpl. split; [|naive_solver lia].
    intros [Hx|?]; [|auto]. destruct (decide (x <= end_ last)); [left; lia|].
    right; left. lia.
  - assert (Forall (λ r, start c <= start r) rest) as Hcr.
    { eapply Forall_impl; [done|]. intros. by apply range_leb_start. }
    destruct (IH c) as [IH1 IH2]; try done. split.
    + split; [done|]. split; [|done]. rewrite Forall_forall. intros r Hr.
      apply merge_from_start in Hr; [lia|done..].
    + intros x. by rewrite !(covers_cons last), IH2.
Qed.

Lemma mergeRanges_spec rs :
  Forall (λ r, start r <= end_ r) rs →
  separated (mergeRanges rs) ∧ ∀ c, covers (mergeRanges rs) c ↔ covers rs c.
Proof.
  intros Hrs. unfold mergeRanges.
  pose proof (sort_perm range_leb rs) as Hp.
  pose proof (sort_in_order range_leb range_leb_total range_leb_trans rs) as Ho.
  rewrite <- Hp in Hrs.
  assert (∀ c, covers (sort range_leb rs) c ↔ covers rs c) as Hc by (intros; by apply covers_perm).
  destruct (sort range_leb rs) as [|r rest]; [done|].
  apply Forall_cons in Hrs as [Hr Hrs]. destruct Ho as [Hro Ho].
  destruct (merge_from_spec r rest) as [H1 H2]; try done.
  { eapply Forall_impl; [done|]. intros. by apply range_leb_start. }
  split; [done|]. intros c. by rewrite H2.
Qed.

(** A set of codes has one normal form. *)
Lemma separated_unique rs1 rs2 :
  separated rs1 → separated rs2 → (∀ c, covers rs1 c ↔ covers rs2 c) → rs1 = rs2.
Proof.
  assert (Hlow : ∀ r rs c, separated (r :: rs) → covers (r :: rs) c → start r <= c).
  { intros r rs c (H1 & H2 & _) [?|(r' & Hr' & ?)]%covers_cons; [lia|].
    rewrite Forall_forall in H2. specialize (H2 _ Hr'). lia. }
  assert (Hgap : ∀ r rs c, separated (r :: rs) → covers (r :: rs) c → c <= end_ r ∨ end_ r + 1 < c).
  { intros r rs c (H1 & H2 & _) [?|(r' & Hr' & ?)]%covers_cons; [lia|].
    rewrite Forall_forall in H2. specialize (H2 _ Hr'). lia. }
  assert (Hin : ∀ r rs c, start r <= c <= end_ r → covers (r :: rs) c).
  { intros. apply covers_cons. by left. }
  revert rs2. induction rs1 as [|r1 rs1 IH]; intros [|r2 rs2] S1 S2 Hc.
  - done.
  - destruct (covers_nil (start r2)). apply Hc, Hin. destruct S2. lia.
  - destruct (covers_nil (start r1)). apply Hc, Hin. destruct S1. lia.
  - assert (start r1 <= end_ r1) by apply S1. assert (start r2 <= end_ r2) by apply S2.
    assert (start r1 = start r2) as Es.
    { apply Z.le_antisymm.
      - apply (Hlow r1 rs1); [done|]. apply Hc, Hin. lia.
      - apply (Hlow r2 rs2); [done|]. apply Hc, Hin. lia. }
    assert (end_ r1 = end_ r2) as Ee.
    { destruct (Z.lt_trichotomy (end_ r1) (end_ r2)) as [Hlt|[?|Hlt]]; [exfalso|done|exfalso].
      - destruct (Hgap r1 rs1 (end_ r1 + 1)); [done| |lia|lia]. apply Hc, Hin. lia.
      - destruct (Hgap r2 rs2 (end_ r2 + 1)); [done| |lia|lia]. apply Hc, Hin. lia. }
    assert (r1 = r2) as -> by (destruct r1, r2; simpl in *; by subst).
    f_equal. apply IH; [apply S1 | apply S2 |]. intros c. specialize (Hc c).
    rewrite !covers_cons in Hc.
    assert (∀ rs, separated (r2 :: rs) → covers rs c → ¬ start r2 <= c <= end_ r2) as Hout.
    { intros rs (_ & H2 & _) (r' & Hr' & ?) ?. rewrite Forall_forall in H2. specialize (H2 _ Hr'). lia. }
    pose proof (Hout _ S1). pose proof (Hout _ S2). tauto.
Qed.

(** ** Tokens *)

Lemma parseToken_bounds t r : parseToken t = Some r → in_bounds r.
Proof.
  unfold parseToken, in_bounds. intros H. repeat (case_match; simplify_eq/=);
    bool_simp; rewrite ?orb_false_iff, ?Z.ltb_ge in *; lia.
Qed.

(** The decimal text of a status code: digits only, and read back exactly. *)
Lemma code_text_all : forallb (λ i, let n := Z.of_nat i + 100 in
    isNumber (dec_Z n) && bool_decide (parse_int (dec_Z n) = Some n)) (seq 0 500) = true.
Proof. vm_compute. reflexivity. Qed.

Lemma code_text n : 100 <= n <= 599 → isNumber (dec_Z n) = true ∧ parse_int (dec_Z n) = Some n.
Proof.
  intros Hn. pose proof code_text_all as H. rewrite forallb_forall in H.
  specialize (H (Z.to_nat (n - 100))). rewrite in_seq in H. specialize (H ltac:(lia)).
  simpl in H. replace (Z.of_nat (Z.to_nat (n - 100)) + 100) with n in H by lia. by bool_simp.
Qed.

Lemma isNumber_digits s : isNumber s = true → s ≠ [] ∧ Forall (λ c, is_digit c = true) s.
Proof.
  unfold isNumber. destruct s as [|c s]; [done|]. intros H. split; [done|].
  apply Forall_forall. rewrite forallb_forall in H. intros x Hx. apply H. by apply list_elem_of_In.
Qed.

Lemma not_digit_not_in c s : Forall (λ c, is_digit c = true) s → is_digit c = false → c ∉ s.
Proof. intros Hs Hc Hin. rewrite Forall_forall in Hs. rewrite Hs in Hc; done. Qed.

(** Digits and hyphens: no white space, comma or blank to remove. *)
Definition plain (c : N) : bool := is_digit c || (c =? 45)%N.

Lemma plain_not_ws c : plain c = true → is_ws c = false.
Proof.
  unfold plain, is_digit. rewrite orb_true_iff, andb_true_iff, !N.leb_le, N.eqb_eq. intros Hc.
  unfold is_ws. simpl. rewrite !(proj2 (N.eqb_neq c _)) by lia. done.
Qed.

Lemma plain_trim s : Forall (λ c, plain c = true) s → trim s = s.
Proof.
  intros H. apply trim_id.
  - destruct H; [done|]. simpl. by apply plain_not_ws.
  - apply Forall_rev in H. destruct H; [done|]. simpl. by apply plain_not_ws.
Qed.

Lemma plain_not_in c s : Forall (λ c, plain c = true) s → plain c = false → c ∉ s.
Proof. intros Hs Hc Hin. rewrite Forall_forall in Hs. rewrite Hs in Hc; done. Qed.

Lemma range_token_plain r :
  in_bounds r → range_token r ≠ [] ∧ Forall (λ c, plain c = true) (range_token r).
Proof.
  intros (H1 & H2 & H3). unfold range_token.
  destruct (code_text (start r)) as [[Hn Hs]%isNumber_digits _]; [lia|].
  destruct (code_text (end_ r)) as [[_ He]%isNumber_digits _]; [lia|].
  assert (∀ s, Forall (λ c, is_digit c = true) s → Forall (λ c, plain c = true) s) as Hd.
  { intros s Hs'. eapply Forall_impl; [done|]. unfold plain. simpl. by intros ? ->. }
  destruct (start r =? end_ r); [by auto|]. split.
  - intros E. apply Hn. by apply app_eq_nil in E as [? _].
  - apply Forall_app; split; [by auto|]. by constructor; [|auto].
Qed.

Lemma parseToken_range_token r : in_bounds r → parseToken (range_token r) = Some r.
Proof.
  intros Hr. destruct (range_token_plain r Hr) as [Hne Hp]. destruct Hr as (H1 & H2 & H3).
  unfold parseToken. rewrite plain_trim by done.
  rewrite remove_unit_id by by apply (plain_not_in 32%N _ Hp).
  unfold range_token in *.
  destruct (code_text (start r)) as [Hs Hsv]; [lia|]. destruct (code_text (end_ r)) as [He Hev]; [lia|].
  pose proof (proj2 (isNumber_digits _ Hs)) as Hsd. pose proof (proj2 (isNumber_digits _ He)) as Hed.
  destruct r as [a b]; simpl in *. destruct (Z.eqb_spec a b) as [<-|Hab].
  - rewrite bool_decide_false by by apply (not_digit_not_in 45%N _ Hsd).
    rewrite Hs, Hsv. simpl. rewrite (proj2 (Z.ltb_ge a 100)), (proj2 (Z.ltb_ge 599 a)) by lia.
    by destruct (dec_Z a).
  - change (u "-") with [45%N]. rewrite bool_decide_true by set_solver.
    rewrite split_on_cons, split_on_no_sep by by apply (not_digit_not_in 45%N).
    rewrite Hs, He, Hsv, Hev. simpl.
    rewrite (proj2 (Z.ltb_ge b a)), (proj2 (Z.ltb_ge a 100)), (proj2 (Z.ltb_ge 599 b)) by lia.
    by destruct (dec_Z a).
Qed.

(** Printing ranges in bounds and cutting the text again. *)
Lemma segments_tokens rs :
  Forall in_bounds rs → segments (join (u ",") (map range_token rs)) = map range_token rs.
Proof.
  intros Hrs. destruct (decide (rs = [])) as [->|Hne]; [done|]. unfold segments.
  assert (Forall (λ w, w ≠ [] ∧ Forall (λ c, plain c = true) w) (map range_token rs)) as Hw.
  { apply Forall_map. eapply Forall_impl; [done|]. apply range_token_plain. }
  rewrite replace_unit_id.
  2: { intros [Hc|(w & Hw' & Hc)]%elem_of_join; [by apply list_elem_of_singleton in Hc|].
       rewrite Forall_forall in Hw. destruct (Hw _ Hw') as [_ Hp].
       by apply (plain_not_in 65292%N _ Hp). }
  change (u ",") with [44%N]. rewrite split_on_join.
  - induction Hw as [|w ws [Hn Hw] Hws IH]; [done|]. simpl. rewrite plain_trim by done.
    rewrite filter_cons_True by done. by f_equal.
  - by destruct rs.
  - eapply Forall_impl; [done|]. simpl. intros w [_ Hp]. by apply (plain_not_in 44%N _ Hp).
Qed.

(** ** Properties *)

Lemma trim_nil_iff_raw t : parse_rules (trim t) = parse_rules t.
Proof. unfold parse_rules. by rewrite trim_idemp. Qed.

Lemma invalid_of_nil segs :
  invalid_of segs = [] ↔ Forall (λ s, parseToken s ≠ None) segs.
Proof.
  unfold invalid_of. induction segs as [|s segs IH]; [done|].
  rewrite Forall_cons, filter_cons. case_decide; naive_solver.
Qed.

Lemma parse_rules_ok t :
  ok (parse_rules t) = true ↔ Forall (λ s, parseToken s ≠ None) (segments (trim t)).
Proof.
  unfold parse_rules. destruct (trim t) as [|c raw]; [done|].
  rewrite <- invalid_of_nil. by destruct (invalid_of _).
Qed.

Lemma parse_rules_ranges t :
  ok (parse_rules t) = true →
  ranges (parse_rules t) = mergeRanges (omap parseToken (segments (trim t))) ∧
  tokens (parse_rules t) = map range_token (ranges (parse_rules t)) ∧
  normalized (parse_rules t) = join (u ",") (tokens (parse_rules t)) ∧
  invalidTokens (parse_rules t) = [].
Proof.
  unfold parse_rules. destruct (trim t) as [|c raw]; [done|].
  by destruct (invalid_of _).
Qed.

Lemma parsed_in_bounds segs : Forall in_bounds (omap parseToken segs).
Proof.
  apply Forall_forall. intros r (s & _ & Hs)%list_elem_of_omap. by eapply parseToken_bounds.
Qed.

Lemma separated_nonempty rs r : separated rs → r ∈ rs → start r <= end_ r.
Proof.
  induction rs as [|x l IH]; intros Hs Hr; [by apply elem_of_nil in Hr|].
  destruct Hs as (? & _ & ?). apply elem_of_cons in Hr as [->|Hr]; auto.
Qed.

Lemma merged_in_bounds rs : Forall in_bounds rs → Forall in_bounds (mergeRanges rs).
Proof.
  intros Hrs. assert (Forall (λ r, start r <= end_ r) rs) as Hne.
  { eapply Forall_impl; [done|]. unfold in_bounds. simpl. lia. }
  destruct (mergeRanges_spec rs Hne) as [Hsep Hc]. rewrite Forall_forall in Hrs |- *. intros r Hr.
  pose proof (separated_nonempty _ _ Hsep Hr).
  assert (∀ c, start r <= c <= end_ r → 100 <= c <= 599) as Hb.
  { intros c Hcr. destruct (proj1 (Hc c)) as (r' & Hr' & ?); [by exists r|].
    specialize (Hrs _ Hr'). unfold in_bounds in Hrs. lia. }
  pose proof (Hb (start r)). pose proof (Hb (end_ r)). unfold in_bounds. lia.
Qed.

Lemma parse_rules_bounds t :
  Forall in_bounds (ranges (parse_rules t)) ∧ separated (ranges (parse_rules t)).
Proof.
  destruct (ok (parse_rules t)) eqn:E.
  - destruct (parse_rules_ranges t E) as (-> & _). split; [apply merged_in_bounds, parsed_in_bounds|].
    apply mergeRanges_spec. eapply Forall_impl; [apply parsed_in_bounds|]. unfold in_bounds. simpl. lia.
  - unfold parse_rules in *. destruct (trim t); [done|]. by destruct (invalid_of _).
Qed.

Lemma mergeRanges_id rs : separated rs → mergeRanges rs = rs.
Proof.
  intros Hs. apply separated_unique; [|done|].
  - apply mergeRanges_spec, Forall_forall. intros r. by apply separated_nonempty.
  - apply mergeRanges_spec, Forall_forall. intros r. by apply separated_nonempty.
Qed.

Lemma tokens_text_trim rs :
  Forall in_bounds rs → trim (join (u ",") (map range_token rs)) = join (u ",") (map range_token rs).
Proof.
  intros Hrs. 
  assert (∀ c, c ∈ join (u ",") (map range_token rs) → is_ws c = false) as Hj.
  { intros c [Hc|(w & Hw & Hc)]%elem_of_join; [by apply list_elem_of_singleton in Hc as ->|].
    apply list_elem_of_fmap in Hw as (r & -> & Hr). rewrite Forall_forall in Hrs.
    destruct (range_token_plain r (Hrs _ Hr)) as [_ Hp]. rewrite Forall_forall in Hp.
    by apply plain_not_ws, Hp. }
  apply trim_id.
  - destruct (join _ _); [done|]. apply Hj. by left.
  - destruct (rev (join _ _)) as [|c r] eqn:E; [done|]. apply Hj.
    apply list_elem_of_In. apply in_rev. rewrite E. by left.
Qed.

Lemma omap_tokens rs : Forall in_bounds rs → omap parseToken (map range_token rs) = rs.
Proof.
  induction 1 as [|r rs Hr _ IH]; [done|]. simpl. rewrite parseToken_range_token by done.
  by f_equal.
Qed.

(** Printing the ranges in normal form and parsing the text gives them back. *)
#[export] Instance ranges_codec :
  Codec (λ rs, Forall in_bounds rs ∧ separated rs) (λ rs, join (u ",") (map range_token rs))
    (λ t, if ok (parse_rules t) then Some (ranges (parse_rules t)) else None).
Proof.
  intros rs [Hb Hs].
  assert (ok (parse_rules (join (u ",") (map range_token rs))) = true) as E.
  { rewrite parse_rules_ok, tokens_text_trim, segments_tokens by done. apply Forall_map.
    eapply Forall_impl; [done|]. simpl. intros r Hr. by rewrite parseToken_range_token. }
  rewrite E. f_equal. destruct (parse_rules_ranges _ E) as (-> & _).
  rewrite tokens_text_trim, segments_tokens, omap_tokens by done. by apply mergeRanges_id.
Qed.

Lemma parse_result_eq a b :
  ok a = true → ok b = true →
  tokens a = map range_token (ranges a) → tokens b = map range_token (ranges b) →
  normalized a = join (u ",") (tokens a) → normalized b = join (u ",") (tokens b) →
  invalidTokens a = [] → invalidTokens b = [] → ranges a = ranges b → a = b.
Proof. destruct a, b; simpl. intros; by subst. Qed.

(** C1: a rule text is accepted exactly when each of its comma-separated segments
    is a code or a range of codes; the ranges returned are then in increasing
    order, disjoint and not adjacent, inside 100..599, and stand for exactly the
    codes that some segment names. *)
Theorem parse_rules_meaning t :
  (ok (parse_rules t) = true ↔ ∀ s, s ∈ segments (trim t) → parseToken s ≠ None) ∧
  separated (ranges (parse_rules t)) ∧ Forall in_bounds (ranges (parse_rules t)) ∧
  (ok (parse_rules t) = true → ∀ c, covers (ranges (parse_rules t)) c ↔
     ∃ s r, s ∈ segments (trim t) ∧ parseToken s = Some r ∧ start r <= c <= end_ r).
Proof.
  destruct (parse_rules_bounds t) as [Hb Hs].
  split; [by rewrite parse_rules_ok, Forall_forall|]. split; [done|]. split; [done|].
  intros E c. destruct (parse_rules_ranges t E) as (-> & _).
  rewrite (proj2 (mergeRanges_spec _ ltac:(eapply Forall_impl;
    [apply parsed_in_bounds | unfold in_bounds; simpl; lia]))).
  unfold covers. setoid_rewrite list_elem_of_omap. naive_solver.
Qed.

(** parsing is a normaliser: parsing the normalised text again, accepted or
    not, gives the same ok flag, ranges, tokens, text and invalid tokens. *)
Theorem parse_rules_normalized t : parse_rules (normalized (parse_rules t)) = parse_rules t.
Proof.
  destruct (ok (parse_rules t)) eqn:E.
  - destruct (parse_rules_ranges t E) as (_ & Ht & Hn & Hi).
    destruct (parse_rules_bounds t) as [Hb Hs].
    pose proof (codec_roundtrip (ranges (parse_rules t)) (conj Hb Hs)) as Hc.
    rewrite Hn, Ht. cbv beta in Hc.
    set (text := join (u ",") (map range_token (ranges (parse_rules t)))) in *.
    destruct (ok (parse_rules text)) eqn:E'; [injection Hc as Hc | discriminate Hc].
    destruct (parse_rules_ranges _ E') as (_ & Ht' & Hn' & Hi').
    by apply parse_result_eq.
  - unfold parse_rules in E |- * at 2. unfold parse_rules at 2.
    destruct (trim t) as [|c raw] eqn:Er; [done|].
    destruct (invalid_of (segments (c :: raw))) as [|i inv] eqn:Ei; [done|]. simpl.
    unfold parse_rules. rewrite <- Er, trim_idemp, Er, Ei. done.
Qed.

(** the normalised text is canonical: two accepted rule texts that stand for
    the same set of codes have the same parse, normalised text included. *)
Theorem parse_rules_canonical t1 t2 :
  ok (parse_rules t1) = true → ok (parse_rules t2) = true →
  (∀ c, covers (ranges (parse_rules t1)) c ↔ covers (ranges (parse_rules t2)) c) →
  parse_rules t1 = parse_rules t2.
Proof.
  intros E1 E2 Hc. destruct (parse_rules_ranges t1 E1) as (_ & ? & ? & ?).
  destruct (parse_rules_ranges t2 E2) as (_ & ? & ? & ?).
  apply parse_result_eq; try done. apply separated_unique; [apply parse_rules_bounds..|done].
Qed.

Lemma parse_rules_canonical_witness :
  parse_rules (u "500-501,502") = parse_rules (u "502 ,, 501 - 502，500").
Proof. apply parse_rules_canonical; [vm_compute; reflexivity..|]. intros c. reflexivity. Defined.
