(* ===== verification/StatusCodeRisk.v ===== *)
(** * Guard against risky status-code redirects
    [src/web/src/components/table/channels/modals/statusCodeRiskGuard.js]: the
    channel form asks for a confirmation when a status-code mapping newly
    redirects a time-out code (504, 524) to another code. *)

From Stdlib Require Import SpecFloat.
From stdpp Require Import base numbers option strings sets list.
From S2P Require Import Prelude JsString JsNumber JsValue Json.
Local Open Scope Z_scope.

Definition NON_REDIRECTABLE_STATUS_CODES : list Z := [504; 524].

(** [/^[1-5]\d{2}$/] on a trimmed string, and its [parseInt]. *)
Definition status_code_text (s : jsstr) : option Z :=
  match s with
  | [a; b; c] =>
      if (49 <=? a)%N && (a <=? 53)%N && is_digit b && is_digit c
      then Some (Z.of_N (digits_val s)) else None
  | _ => None
  end.

Definition parseStatusCodeKey (rawKey : jsstr) : option Z := status_code_text (trim rawKey).

Definition parseStatusCodeMappingTarget (rawValue : value) : option Z :=
  match rawValue with
  | VNum x =>
      match num_to_Z x with
      | Some z => if (100 <=? z) && (z <=? 599) then Some z else None
      | None => None
      end
  | VStr s =>
      match status_code_text (trim s) with
      | Some code => if (100 <=? code) && (code <=? 599) then Some code else None
      | None => None
      end
  | _ => None
  end.

(** The mapping object that a form text holds, if it holds one. *)
Definition mapping_entries (text : value) : props :=
  match text with
  | VStr s =>
      match trim s with
      | [] => []
      | _ => match json_parse s with Some (VObj o) => o | _ => [] end
      end
  | _ => []
  end.

(** [`${rawKey} → ${rawValue}`] for each entry that is not a pair of codes;
    [None]: the conversion of a value to a string throws. *)
Fixpoint invalid_entries (o : props) : option (list jsstr) :=
  match o with
  | [] => Some []
  | (k, v) :: o' =>
      match parseStatusCodeKey k, parseStatusCodeMappingTarget v with
      | Some _, Some _ => invalid_entries o'
      | _, _ =>
          match to_string v, invalid_entries o' with
          | Some s, Some l => Some ((k ++ u " → " ++ s) :: l)
          | _, _ => None
          end
      end
  end.

Definition collectInvalidStatusCodeEntries (text : value) : option (list jsstr) :=
  invalid_entries (mapping_entries text).

Definition redirect_text (p : Z * Z) : jsstr := dec_Z p.1 ++ u " -> " ++ dec_Z p.2.

Definition risky_redirect (kv : jsstr * value) : option (Z * Z) :=
  match parseStatusCodeKey kv.1, parseStatusCodeMappingTarget kv.2 with
  | Some fromCode, Some toCode =>
      if negb (existsb (Z.eqb fromCode) NON_REDIRECTABLE_STATUS_CODES) then None
      else if fromCode =? toCode then None
      else Some (fromCode, toCode)
  | _, _ => None
  end.

Definition collectDisallowedStatusCodeRedirects (text : value) : list jsstr :=
  sort str_leb (set_order (map redirect_text (omap risky_redirect (mapping_entries text)))).

Definition collectNewDisallowedStatusCodeRedirects (original current : value) : list jsstr :=
  match collectDisallowedStatusCodeRedirects current with
  | [] => []
  | currentRisky =>
      filter (λ m, m ∉ collectDisallowedStatusCodeRedirects original) currentRisky
  end.

Example risk_ex1 :
  collectDisallowedStatusCodeRedirects
    (VStr (j "{`524`: 200, `504`:` 503 `, `500`: 504, `x`: 1, ` 504 `: 500}")) =
  [u "504 -> 500"; u "504 -> 503"; u "524 -> 200"].
Proof. vm_compute. reflexivity. Qed.
Example risk_ex2 :
  collectInvalidStatusCodeEntries (VStr (j "{`524`: 200, `99`: `a`, `404`: [1,null]}")) =
  Some [u "99 → a"; u "404 → 1,"].
Proof. vm_compute. reflexivity. Qed.

(** ** Lemmas *)

Lemma status_code_text_bounds s z : status_code_text s = Some z → 100 <= z <= 599.
Proof.
  unfold status_code_text. destruct s as [|a [|b [|c [|]]]]; try done.
  case_match; [|done]. bool_simp. unfold digits_val, is_digit in *. bool_simp. simpl.
  intros; simplify_eq. rewrite !N.leb_le in *. lia.
Qed.

Lemma target_bounds v z : parseStatusCodeMappingTarget v = Some z → 100 <= z <= 599.
Proof. unfold parseStatusCodeMappingTarget. intros. split_matches; bool_simp; lia. Qed.

Lemma redirect_text_inj p q : redirect_text p = redirect_text q → 100 <= p.1 <= 599 →
  100 <= q.1 <= 599 → 100 <= p.2 <= 599 → 100 <= q.2 <= 599 → p = q.
Proof.
  destruct p as [a b], q as [c d]. unfold redirect_text; cbn [fst snd]. intros E Ha Hc Hb Hd.
  assert (∀ n, 0 <= n → dec_Z n = dec_N (Z.to_N n)) as Hz.
  { intros n Hn. unfold dec_Z. by rewrite (proj2 (Z.ltb_ge n 0)). }
  rewrite !Hz in E by lia.
  assert (∀ n r, span is_digit (dec_N n ++ u " -> " ++ r) = (dec_N n, u " -> " ++ r)) as Hsp.
  { intros n r. apply span_app; [apply dec_N_digits|done]. }
  pose proof (f_equal (span is_digit) E) as E'. rewrite !Hsp in E'.
  injection E' as E1 E2. apply dec_N_inj in E1, E2. f_equal; lia.
Qed.

Lemma risky_redirect_bounds kv p :
  risky_redirect kv = Some p → 100 <= p.1 <= 599 ∧ 100 <= p.2 <= 599 ∧
  (p.1 = 504 ∨ p.1 = 524) ∧ p.1 ≠ p.2.
Proof.
  unfold risky_redirect. intros H.
  destruct (parseStatusCodeKey _) as [a|] eqn:Ea; [|done].
  destruct (parseStatusCodeMappingTarget _) as [b|] eqn:Eb; [|done].
  apply status_code_text_bounds in Ea. apply target_bounds in Eb.
  simpl in H. destruct (Z.eqb_spec a 504), (Z.eqb_spec a 524), (Z.eqb_spec a b); simplify_eq/=; auto.
Qed.

Lemma elem_of_disallowed m text :
  m ∈ collectDisallowedStatusCodeRedirects text ↔
  ∃ kv p, kv ∈ mapping_entries text ∧ risky_redirect kv = Some p ∧ m = redirect_text p.
Proof.
  unfold collectDisallowedStatusCodeRedirects.
  rewrite elem_of_sort, elem_of_set_order, list_elem_of_fmap.
  setoid_rewrite list_elem_of_omap. naive_solver.
Qed.

(** the redirects reported for a mapping text are the codes 504 and 524 that it
    maps to another valid code, each one once, in increasing order of text. *)
Theorem disallowed_redirects_meaning text :
  (∀ f g, 100 <= f <= 599 → 100 <= g <= 599 →
     redirect_text (f, g) ∈ collectDisallowedStatusCodeRedirects text ↔
     (f = 504 ∨ f = 524) ∧ f ≠ g ∧
     ∃ kv, kv ∈ mapping_entries text ∧ parseStatusCodeKey kv.1 = Some f ∧
       parseStatusCodeMappingTarget kv.2 = Some g) ∧
  NoDup (collectDisallowedStatusCodeRedirects text) ∧
  in_order str_leb (collectDisallowedStatusCodeRedirects text).
Proof.
  split; [|split].
  - intros f g Hf Hg. rewrite elem_of_disallowed. split.
    + intros (kv & p & Hkv & Hp & E). pose proof (risky_redirect_bounds _ _ Hp) as (? & ? & Hc & Hne).
      apply redirect_text_inj in E as <-; try done. simpl in *. split; [done|]. split; [done|].
      exists kv. split; [done|]. unfold risky_redirect in Hp. split_matches. auto.
    + intros (Hc & Hne & kv & Hkv & Ef & Eg). exists kv, (f, g). split; [done|]. split; [|done].
      unfold risky_redirect. rewrite Ef, Eg. rewrite (proj2 (Z.eqb_neq f g)) by done.
      by destruct Hc as [-> | ->].
  - unfold collectDisallowedStatusCodeRedirects. rewrite sort_perm. apply NoDup_set_order.
  - apply sort_in_order; [apply str_leb_total | apply str_leb_trans].
Qed.

(** the guard asks about exactly the redirects that the stored mapping did not
    already have; saving an unchanged mapping asks about none. *)
Theorem new_redirects_meaning original current m :
  (m ∈ collectNewDisallowedStatusCodeRedirects original current ↔
   m ∈ collectDisallowedStatusCodeRedirects current ∧
   m ∉ collectDisallowedStatusCodeRedirects original) ∧
  collectNewDisallowedStatusCodeRedirects original original = [].
Proof.
  assert (∀ o c m, m ∈ collectNewDisallowedStatusCodeRedirects o c ↔
    m ∈ collectDisallowedStatusCodeRedirects c ∧ m ∉ collectDisallowedStatusCodeRedirects o) as H.
  { intros o c x. unfold collectNewDisallowedStatusCodeRedirects.
    destruct (collectDisallowedStatusCodeRedirects c) as [|y l]; [set_solver|].
    rewrite list_elem_of_filter. tauto. }
  split; [apply H|].
  destruct (collectNewDisallowedStatusCodeRedirects original original) as [|y l] eqn:E; [done|].
  exfalso. assert (y ∈ y :: l) as Hy by by left. rewrite <- E in Hy. apply H in Hy. tauto.
Qed.
