(* ===== verification/UpstreamUpdates.v ===== *)
(** * Upstream model updates of channels
    [src/web/src/hooks/channels/upstreamUpdateUtils.js] (model lists and the
    settings record) and [useChannelUpstreamUpdates.jsx]: the modal, and four
    asynchronous operations, each guarded by an in-flight flag. *)

From Stdlib Require Import SpecFloat.
From stdpp Require Import base numbers option strings sets list.
From S2P Require Import Prelude JsString JsNumber JsValue Json.

(** ** upstreamUpdateUtils.js *)

(** [String(model || '').trim()] *)
Definition model_text (model : value) : option jsstr := trim <$> to_string (value_or model (VStr [])).

Fixpoint model_texts (l : list value) : option (list jsstr) :=
  match l with
  | [] => Some []
  | m :: l' =>
      match model_text m, model_texts l' with
      | Some s, Some r => Some (s :: r)
      | _, _ => None
      end
  end.

(** [None]: a TypeError ([.map] on a truthy value that is no array, or a model
    that cannot be converted to a string). *)
Definition normalizeModelList (models : value) : option (list jsstr) :=
  if truthy models then
    match models with
    | VArr l => (λ ts, set_order (filter (λ s, s ≠ []) ts)) <$> model_texts l
    | _ => None
    end
  else Some [].

Record update_meta := {
  enabled : bool;
  pendingAddModels : list jsstr;
  pendingRemoveModels : list jsstr;
}.

(** The settings as an object, given as such or as JSON text. *)
Definition settings_value (settings : value) : value :=
  if truthy settings && is_object_type settings then settings
  else match settings with
       | VStr s => match json_parse s with Some v => v | None => VNull end
       | _ => VNull
       end.

Definition parseUpstreamUpdateMeta (settings : value) : option update_meta :=
  let parsed := settings_value settings in
  if negb (truthy parsed) || negb (is_object_type parsed) then
    Some {| enabled := false; pendingAddModels := []; pendingRemoveModels := [] |}
  else
    match read (u "upstream_model_update_check_enabled") parsed,
          read (u "upstream_model_update_last_detected_models") parsed ≫= normalizeModelList,
          read (u "upstream_model_update_last_removed_models") parsed ≫= normalizeModelList with
    | Some e, Some a, Some r =>
        Some {| enabled := is_true_value e; pendingAddModels := a; pendingRemoveModels := r |}
    | _, _, _ => None
    end.

(** [getManualIgnoredModelCountFromSettings] of useChannelUpstreamUpdates.jsx *)
Definition getManualIgnoredModelCountFromSettings (settings : value) : option nat :=
  let parsed := settings_value settings in
  if negb (truthy parsed) || negb (is_object_type parsed) then Some 0
  else length <$> (read (u "upstream_model_update_ignored_models") parsed ≫= normalizeModelList).

Definition model_array (l : list jsstr) : value := VArr (map VStr l).

(** What the normal form of a model list is. *)
Definition model_list_ok (l : list jsstr) : Prop :=
  NoDup l ∧ Forall (λ s, s ≠ [] ∧ trimmed s) l.

Lemma model_texts_trimmed l ts : model_texts l = Some ts → Forall trimmed ts.
Proof.
  revert ts. induction l as [|m l IH]; intros ts H; simpl in H; [by simplify_eq|].
  unfold model_text in H. destruct (to_string _); [|done].
  destruct (model_texts l); [|done]. simplify_eq/=. constructor; [apply trimmed_trim | by apply IH].
Qed.

Lemma normalizeModelList_ok models l : normalizeModelList models = Some l → model_list_ok l.
Proof.
  unfold normalizeModelList. destruct (truthy models); intros H; [|simplify_eq; by repeat constructor].
  destruct models as [| | | | |ms|]; try done. apply fmap_Some in H as (ts & Hts & ->).
  split; [apply NoDup_set_order|]. apply Forall_forall. intros s.
  rewrite elem_of_set_order, list_elem_of_filter. apply model_texts_trimmed in Hts.
  rewrite Forall_forall in Hts. naive_solver.
Qed.

Lemma model_texts_strings l : Forall trimmed l → model_texts (map VStr l) = Some l.
Proof.
  induction 1 as [|s l Hs _ IH]; simpl; [done|]. rewrite IH. unfold model_text, value_or.
  simpl. destruct s; simpl; [done|]. by rewrite Hs.
Qed.

Lemma normalizeModelList_id l : model_list_ok l → normalizeModelList (model_array l) = Some l.
Proof.
  intros [Hnd Hl]. unfold normalizeModelList, model_array. simpl.
  rewrite model_texts_strings by (eapply Forall_impl; [done|]; naive_solver). simpl. f_equal.
  rewrite set_order_id; [|by apply NoDup_filter].
  induction Hl as [|s l [Hs _] Hl IH]; [done|]. rewrite filter_cons_True by done.
  f_equal. apply IH. by inversion Hnd.
Qed.

(** a model list is cleaned to its distinct, trimmed, non-empty names, and
    cleaning the result again, as the hook does before each use, changes nothing. *)
Theorem normalizeModelList_normal models l :
  normalizeModelList models = Some l →
  model_list_ok l ∧ normalizeModelList (model_array l) = Some l ∧
  ∀ ms, models = VArr ms → ∀ s, s ∈ l ↔ s ≠ [] ∧ ∃ m, m ∈ ms ∧ model_text m = Some s.
Proof.
  intros H. pose proof (normalizeModelList_ok _ _ H) as Hok.
  split; [done|]. split; [by apply normalizeModelList_id|]. intros ms -> s.
  unfold normalizeModelList in H. simpl in H. apply fmap_Some in H as (ts & Hts & ->).
  rewrite elem_of_set_order, list_elem_of_filter.
  assert (s ∈ ts ↔ ∃ m, m ∈ ms ∧ model_text m = Some s) as ->; [|done].
  clear Hok. revert ts Hts. induction ms as [|m ms IH]; intros ts H; simpl in H.
  - simplify_eq. set_solver.
  - destruct (model_text m) as [x|] eqn:Em; [|done].
    destruct (model_texts ms) as [r|] eqn:Er; [|done]. simplify_eq.
    rewrite elem_of_cons, (IH r) by done.
    setoid_rewrite elem_of_cons. naive_solver.
Qed.

Lemma normalizeModelList_normal_witness :
  model_list_ok [u "gpt-4o"; u "7"].
Proof.
  apply (normalizeModelList_normal
    (VArr [VStr (u " gpt-4o "); VNull; VNum (num_of_Z 7); VStr (u "gpt-4o"); VStr (u " ")])).
  vm_compute. reflexivity.
Defined.

(** ** useChannelUpstreamUpdates.jsx *)

(** The four operations that call the server. *)
Inductive op := Apply | ApplyAll | Detect | DetectAll.
#[export] Instance op_eq_dec : EqDecision op.
Proof. solve_decision. Defined.

Definition in_flight_text (o : op) : jsstr :=
  match o with
  | Apply => u "正在处理，请稍候"
  | ApplyAll => u "正在批量处理，请稍候"
  | Detect => u "正在检测，请稍候"
  | DetectAll => u "正在批量检测，请稍候"
  end.
Definition failure_text (o : op) : jsstr :=
  match o with
  | Apply => u "操作失败"
  | ApplyAll => u "批量处理失败"
  | Detect => u "检测失败"
  | DetectAll => u "批量检测失败"
  end.
Definition path (o : op) : jsstr :=
  match o with
  | Apply => u "/api/channel/upstream_updates/apply"
  | ApplyAll => u "/api/channel/upstream_updates/apply_all"
  | Detect => u "/api/channel/upstream_updates/detect"
  | DetectAll => u "/api/channel/upstream_updates/detect_all"
  end.

(** What the hook does to the outside: messages (with the values put in them),
    requests and calls of [refresh]; [Threw] is an error no handler catches. *)
Inductive effect :=
  | Info (text : jsstr)
  | Error (msg : value)
  | Done (o : op) (counts : list value)
  | Post (o : op) (body : props)
  | Refresh
  | Threw.

(** A call suspended at its first or second [await]. *)
Inductive phase :=
  | Posting (ignoreModels : list jsstr)
  | Refreshing.
Record call := mk_call { call_op : op; call_phase : phase }.

Record state := mk_state {
  show_modal : bool;
  channel : value;
  add_models : list jsstr;
  remove_models : list jsstr;
  preferred_tab : jsstr;
  in_flight : op → bool;         (** the four [useRef(false)] flags *)
  loading : op → bool;           (** the three loading states ([Detect] has none) *)
  pending : list call;
  log : list effect;             (** latest first *)
}.

Definition init : state :=
  mk_state false VNull [] [] (u "add") (λ _, false) (λ _, false) [] [].

Definition upd {A} (f : op → A) (o : op) (x : A) : op → A := λ o', if decide (o' = o) then x else f o'.

Definition emit (e : effect) (s : state) : state :=
  mk_state (show_modal s) (channel s) (add_models s) (remove_models s) (preferred_tab s)
    (in_flight s) (loading s) (pending s) (e :: log s).
Definition set_flags (o : op) (b : bool) (s : state) : state :=
  mk_state (show_modal s) (channel s) (add_models s) (remove_models s) (preferred_tab s)
    (upd (in_flight s) o b)
    (if decide (o = Detect) then loading s else upd (loading s) o b) (pending s) (log s).
Definition set_pending (l : list call) (s : state) : state :=
  mk_state (show_modal s) (channel s) (add_models s) (remove_models s) (preferred_tab s)
    (in_flight s) (loading s) l (log s).

Definition closeUpstreamUpdateModal (s : state) : state :=
  mk_state false VNull [] [] (u "add") (in_flight s) (loading s) (pending s) (log s).

(** [v?.length]: strings and arrays have a length of their own. *)
Definition length_of (v : value) : value :=
  match v with
  | VStr s => VNum (num_of_Z (Z.of_nat (length s)))
  | VArr l => VNum (num_of_Z (Z.of_nat (length l)))
  | VObj o => prop (u "length") o
  | _ => VUndef
  end.

Definition zero : value := VNum (num_of_Z 0).

Definition openUpstreamUpdateModal (record add rem tab : value) (s : state) : state :=
  match normalizeModelList add, normalizeModelList rem with
  | Some a, Some r =>
      if negb (truthy (opt_read (u "id") record)) ||
         (bool_decide (a = []) && bool_decide (r = []))
      then emit (Info (u "该渠道暂无可处理的上游模型更新")) s
      else
        mk_state true record a r
          (match tab with
           | VStr t => if decide (t = u "remove") then u "remove" else u "add"
           | _ => u "add"
           end)
          (in_flight s) (loading s) (pending s) (log s)
  | _, _ => emit Threw s
  end.

(** The text shown when a TypeError of the handler itself is caught. *)
Section hook.
Variable type_error_message : value.

(** [finally]: the in-flight flag and the loading state are released. *)
Definition finish (o : op) (s : state) : state := set_flags o false s.

(** [catch (error)] followed by [finally]. *)
Definition fail (o : op) (error : value) (s : state) : state :=
  finish o
    (emit (Error (value_or (value_or
        (opt_read (u "message") (opt_read (u "data") (opt_read (u "response") error)))
        (opt_read (u "message") error)) (VStr (failure_text o)))) s).

Definition type_error (o : op) : state → state :=
  fail o (VObj [(u "message", type_error_message)]).

(** The code of an operation up to its first [await]. *)
Definition start_call (o : op) (ignore : list jsstr) (body : props) (s : state) : state :=
  set_pending (mk_call o (Posting ignore) :: pending s) (emit (Post o body) s).

Definition ignored_models (s : state) (selected : list jsstr) : list jsstr :=
  filter (λ m, m ∉ selected) (add_models s).

Definition applyUpstreamUpdates (selectedAdd selectedRemove : value) (s : state) : state :=
  if in_flight s Apply then emit (Info (in_flight_text Apply)) s
  else if negb (truthy (opt_read (u "id") (channel s))) then closeUpstreamUpdateModal s
  else
    let s1 := set_flags Apply true s in
    match normalizeModelList selectedAdd, normalizeModelList selectedRemove with
    | Some a, Some r =>
        let ignore := ignored_models s a in
        start_call Apply ignore
          [(u "id", opt_read (u "id") (channel s)); (u "add_models", model_array a);
           (u "ignore_models", model_array ignore); (u "remove_models", model_array r)] s1
    | _, _ => type_error Apply s1
    end.

Definition applyAllUpstreamUpdates (s : state) : state :=
  if in_flight s ApplyAll then emit (Info (in_flight_text ApplyAll)) s
  else start_call ApplyAll [] [] (set_flags ApplyAll true s).

Definition detectChannelUpstreamUpdates (ch : value) (s : state) : state :=
  if in_flight s Detect then emit (Info (in_flight_text Detect)) s
  else if negb (truthy (opt_read (u "id") ch)) then s
  else start_call Detect [] [(u "id", opt_read (u "id") ch)] (set_flags Detect true s).

Definition detectAllUpstreamUpdates (s : state) : state :=
  if in_flight s DetectAll then emit (Info (in_flight_text DetectAll)) s
  else start_call DetectAll [] [] (set_flags DetectAll true s).

(** The numbers of the success message, from the [data] of the response;
    [None]: counting the ignored models throws. *)
Definition counts (o : op) (ignore : list jsstr) (data : value) : option (list value) :=
  let count k := value_or (opt_read k data) zero in
  let len k := value_or (length_of (opt_read k data)) zero in
  let fails := length_of (value_or (opt_read (u "failed_channel_ids") data) (VArr [])) in
  match o with
  | Apply =>
      match getManualIgnoredModelCountFromSettings (opt_read (u "settings") data),
            normalizeModelList (model_array ignore) with
      | Some total, Some ig =>
          Some [len (u "added_models"); len (u "removed_models");
                VNum (num_of_Z (Z.of_nat (length ig))); VNum (num_of_Z (Z.of_nat total))]
      | _, _ => None
      end
  | ApplyAll =>
      Some [count (u "processed_channels"); count (u "added_models"); count (u "removed_models"); fails]
  | Detect => Some [len (u "add_models"); len (u "remove_models")]
  | DetectAll =>
      Some [count (u "processed_channels"); count (u "detected_add_models");
            count (u "detected_remove_models"); fails]
  end.

(** The code after the response, up to [await refresh()] or the end. *)
Definition on_response (o : op) (ignore : list jsstr) (res_data : value) (s : state) : state :=
  let body := value_or res_data (VObj []) in
  if negb (truthy (opt_read (u "success") body)) then
    finish o (emit (Error (value_or (opt_read (u "message") body) (VStr (failure_text o)))) s)
  else
    match counts o ignore (opt_read (u "data") body) with
    | Some l =>
        let s1 := emit (Done o l) s in
        let s2 := if decide (o = Apply) then closeUpstreamUpdateModal s1 else s1 in
        let s3 := emit Refresh s2 in
        set_pending (mk_call o Refreshing :: pending s3) s3
    | None => type_error o s
    end.

Inductive event :=
  | EOpen (record add rem tab : value)
  | EClose
  | EApply (selectedAdd selectedRemove : value)
  | EApplyAll
  | EDetect (ch : value)
  | EDetectAll
  | EResolve (i : nat) (res_data : value)   (** the [i]-th suspended call resumes *)
  | EReject (i : nat) (error : value).

Definition step (s : state) (e : event) : state :=
  match e with
  | EOpen record add rem tab => openUpstreamUpdateModal record add rem tab s
  | EClose => closeUpstreamUpdateModal s
  | EApply a r => applyUpstreamUpdates a r s
  | EApplyAll => applyAllUpstreamUpdates s
  | EDetect ch => detectChannelUpstreamUpdates ch s
  | EDetectAll => detectAllUpstreamUpdates s
  | EResolve i v =>
      match pending s !! i with
      | Some c =>
          let s1 := set_pending (delete i (pending s)) s in
          match call_phase c with
          | Posting ignore => on_response (call_op c) ignore v s1
          | Refreshing => finish (call_op c) s1
          end
      | None => s
      end
  | EReject i err =>
      match pending s !! i with
      | Some c => fail (call_op c) err (set_pending (delete i (pending s)) s)
      | None => s
      end
  end.

Definition run (s : state) (es : list event) : state := fold_left step es s.
End hook.

(** ** In-flight flags: at most one call of each operation *)

Definition calls (o : op) (l : list call) : nat := length (filter (λ c, call_op c = o) l).

(** The number of suspended calls of an operation is what its flag says. *)
Definition flags_ok (s : state) (o : op) : Prop :=
  calls o (pending s) = (if in_flight s o then 1 else 0) ∧
  loading s o = (if decide (o = Detect) then false else in_flight s o).

Definition wf (s : state) : Prop := ∀ o, flags_ok s o.

(** A call of [o] has been resumed and still holds its flag. *)
Definition running (o : op) (s : state) : Prop :=
  (∀ o', o' ≠ o → flags_ok s o') ∧ calls o (pending s) = 0 ∧ in_flight s o = true ∧
  loading s o = (if decide (o = Detect) then false else true).

Lemma calls_cons o c l : calls o (c :: l) = (if decide (call_op c = o) then 1 else 0) + calls o l.
Proof. unfold calls. rewrite filter_cons. by case_decide. Qed.

Lemma calls_delete o i c l :
  l !! i = Some c → calls o l = (if decide (call_op c = o) then 1 else 0) + calls o (delete i l).
Proof.
  intros H. rewrite <- calls_cons. unfold calls. apply Permutation_length.
  by rewrite (delete_Permutation l i c H) at 1.
Qed.

Lemma running_start o s : wf s → in_flight s o = false → running o (set_flags o true s).
Proof.
  intros Hwf Ho. split; [|destruct (Hwf o) as [H1 H2]; rewrite Ho in *; split_and!].
  - intros o' Hne. destruct (Hwf o') as [H1 H2]. split; simpl; unfold upd.
    + by rewrite decide_False.
    + destruct (decide (o = Detect)); rewrite !(decide_False (P := o' = o)) by done; done.
  - done.
  - simpl. unfold upd. by rewrite decide_True.
  - simpl. unfold upd. case_decide; [|by rewrite decide_True]. by rewrite H2.
Qed.

Lemma running_suspend o p s : running o s → wf (set_pending (mk_call o p :: pending s) s).
Proof.
  intros (H1 & H2 & H3 & H4) o'. unfold flags_ok. simpl. rewrite calls_cons. simpl.
  destruct (decide (o = o')) as [<-|Hne].
  - rewrite H2, H3, H4. done.
  - apply H1. congruence.
Qed.

Lemma running_finish o s : running o s → wf (finish o s).
Proof.
  intros (H1 & H2 & H3 & H4) o'. unfold flags_ok. simpl. unfold upd.
  destruct (decide (o' = o)) as [->|Hne].
  - rewrite H2. split; [done|]. case_decide; by rewrite ?decide_True.
  - destruct (H1 o' Hne) as [H5 H6]. split; [done|].
    destruct (decide (o = Detect)); [done|]. by rewrite decide_False.
Qed.

Lemma running_resume i c s :
  wf s → pending s !! i = Some c → running (call_op c) (set_pending (delete i (pending s)) s).
Proof.
  intros Hwf Hi. pose proof (λ o, calls_delete o i c (pending s) Hi) as Hc.
  destruct (Hwf (call_op c)) as [H1 H2]. rewrite Hc, decide_True in H1 by done.
  destruct (in_flight s (call_op c)) eqn:E; [|done].
  split; [|simpl; rewrite ?E; split_and!; try done; lia].
  intros o' Hne. destruct (Hwf o') as [H3 H4]. split; [|done]. simpl.
  by rewrite Hc, decide_False in H3 by congruence.
Qed.

Lemma wf_start o ig body s : running o s → wf (start_call o ig body s).
Proof. intros Hr. exact (running_suspend o (Posting ig) (emit (Post o body) s) Hr). Qed.

Lemma wf_step tm s e : wf s → wf (step tm s e).
Proof.
  intros Hwf.
  assert (∀ x, wf (emit x s)) as Hemit by (intros x o; apply Hwf).
  assert (wf (closeUpstreamUpdateModal s)) as Hclose by (intros o; apply Hwf).
  destruct e as [record add rem tab| |a r| |ch| |i v|i err]; simpl.
  - unfold openUpstreamUpdateModal. repeat case_match; done || (intros o; apply Hwf).
  - done.
  - unfold applyUpstreamUpdates. destruct (in_flight s Apply) eqn:E; [done|].
    destruct (negb _); [done|]. pose proof (running_start _ _ Hwf E) as Hr.
    destruct (normalizeModelList a), (normalizeModelList r);
      try (by apply running_finish). by apply wf_start.
  - unfold applyAllUpstreamUpdates. destruct (in_flight s ApplyAll) eqn:E; [done|].
    apply wf_start. by apply running_start.
  - unfold detectChannelUpstreamUpdates. destruct (in_flight s Detect) eqn:E; [done|].
    destruct (negb _); [done|]. apply wf_start. by apply running_start.
  - unfold detectAllUpstreamUpdates. destruct (in_flight s DetectAll) eqn:E; [done|].
    apply wf_start. by apply running_start.
  - destruct (pending s !! i) as [c|] eqn:Ei; [|done].
    pose proof (running_resume _ _ _ Hwf Ei) as Hr.
    destruct (call_phase c) as [ignore|]; [|by apply running_finish].
    unfold on_response. destruct (negb _); [by apply running_finish|].
    destruct (counts _ _ _); [|by apply running_finish].
    apply running_suspend. by destruct (decide (call_op c = Apply)).
  - destruct (pending s !! i) as [c|] eqn:Ei; [|done].
    apply running_finish. by apply running_resume.
Qed.

Lemma wf_init : wf init.
Proof. by intros []. Qed.

Lemma wf_run tm es : wf (run tm init es).
Proof.
  unfold run. rewrite <- (rev_involutive es). generalize (rev es). clear es. intros es.
  induction es as [|e es IH]; [apply wf_init|]. simpl. rewrite fold_left_app. by apply wf_step.
Qed.

(** C27: in every reachable state, whatever the order of the clicks and of the
    server's answers, an operation has at most one suspended call, it has one
    exactly while its in-flight flag is set, and its loading indicator agrees. *)
Theorem one_call_in_flight tm es o :
  let s := run tm init es in
  calls o (pending s) <= 1 ∧ (in_flight s o = true ↔ ∃ c, c ∈ pending s ∧ call_op c = o) ∧
  (o ≠ Detect → loading s o = in_flight s o).
Proof.
  intros s. destruct (wf_run tm es o) as [H1 H2]. fold s in H1, H2.
  split; [destruct (in_flight s o); lia|]. split; [|by intros; rewrite H2, decide_False].
  destruct (in_flight s o).
  - split; [intros _|done]. unfold calls in H1.
    destruct (filter _ (pending s)) as [|c l] eqn:E; [done|]. exists c.
    assert (c ∈ c :: l) as Hc by by left. rewrite <- E in Hc.
    apply list_elem_of_filter in Hc. tauto.
  - split; [done|]. intros Hc. exfalso. destruct Hc as (c & Hc & Ho).
    apply list_elem_of_In, in_split in Hc as (l1 & l2 & E). rewrite E in H1.
    unfold calls in H1. rewrite filter_app, length_app, filter_cons_True in H1 by done. simpl in H1. lia.
Qed.

(** The resumptions that a suspended call still needs. *)
Definition awaits (c : call) : nat := match call_phase c with Posting _ => 2 | Refreshing => 1 end.
Definition weight (l : list call) : nat := sum_list_with awaits l.

Lemma weight_delete i c l : l !! i = Some c → weight l = awaits c + weight (delete i l).
Proof.
  revert i. induction l as [|x l IH]; intros [|i] H; simplify_eq/=; [done|].
  rewrite (IH i H). unfold weight. simpl. lia.
Qed.

Lemma awaits_pos c : 1 <= awaits c.
Proof. unfold awaits. destruct (call_phase c); lia. Qed.

(** every answer of the server, or its failure, brings a suspended call closer to
    its end, whatever the answer holds; when no call is left every flag and every
    loading indicator is released, so each operation can be started again. *)
Theorem calls_release tm es i :
  let s := run tm init es in
  (i < length (pending s) →
     (∀ v, weight (pending (step tm s (EResolve i v))) < weight (pending s)) ∧
     (∀ err, weight (pending (step tm s (EReject i err))) < weight (pending s))) ∧
  (pending s = [] → ∀ o, in_flight s o = false ∧ loading s o = false).
Proof.
  intros s. split.
  - intros Hi. apply lookup_lt_is_Some in Hi as [c Hc]. simpl. rewrite Hc.
    pose proof (weight_delete _ _ _ Hc) as Hw. pose proof (awaits_pos c) as Hp. rewrite Hw.
    split; [|intros; simpl; lia]. intros v. unfold awaits in *.
    destruct (call_phase c) as [ig|]; [|simpl; lia]. unfold on_response.
    destruct (negb _); [simpl; lia|]. destruct (counts _ _ _); [|simpl; lia].
    destruct (decide (call_op c = Apply)); simpl; unfold weight; simpl; lia.
  - intros Hp o. destruct (wf_run tm es o) as [H1 H2]. fold s in H1, H2. rewrite Hp in H1.
    destruct (in_flight s o); [done|]. split; [done|]. rewrite H2. by case_decide.
Qed.

Lemma calls_release_witness :
  let s := run VNull init [EApplyAll; EDetectAll] in
  weight (pending (step VNull s (EResolve 1 (VObj [(u "success", VBool true)])))) <
  weight (pending s).
Proof.
  intros s. refine (proj1 (proj1 (calls_release VNull [EApplyAll; EDetectAll] 1) _) _).
  apply Nat.ltb_lt. vm_compute. reflexivity.
Defined.

(** while an operation is in flight, starting it again sends nothing and changes
    nothing but the message; otherwise applying the modal's selection posts the
    selected models to add and, as ignored, exactly the offered models that were
    left out, so every offered model is added or ignored and none is both. *)
Theorem apply_request tm a r s :
  (in_flight s Apply = true →
     applyUpstreamUpdates tm a r s = emit (Info (in_flight_text Apply)) s) ∧
  (∀ la lr, in_flight s Apply = false → truthy (opt_read (u "id") (channel s)) = true →
     normalizeModelList a = Some la → normalizeModelList r = Some lr →
     ∃ ignore, log (applyUpstreamUpdates tm a r s) =
       Post Apply [(u "id", opt_read (u "id") (channel s)); (u "add_models", model_array la);
         (u "ignore_models", model_array ignore); (u "remove_models", model_array lr)] :: log s ∧
       (∀ m, m ∈ ignore → m ∉ la) ∧ (∀ m, m ∈ add_models s → m ∈ la ∨ m ∈ ignore)).
Proof.
  unfold applyUpstreamUpdates. split; [by intros ->|].
  intros la lr -> Hid Ha Hr. rewrite Hid, Ha, Hr. simpl.
  exists (ignored_models s la). unfold ignored_models. split; [done|].
  split; intros m; rewrite list_elem_of_filter; [tauto|].
  destruct (decide (m ∈ la)); auto.
Qed.

Lemma apply_request_witness :
  let s := step VNull init (EOpen (VObj [(u "id", VNum (num_of_Z 3))])
    (model_array [u "a"; u "b"]) VUndef VUndef) in
  ∃ ignore, log (applyUpstreamUpdates VNull (model_array [u "b"]) VUndef s) =
     Post Apply [(u "id", opt_read (u "id") (channel s)); (u "add_models", model_array [u "b"]);
       (u "ignore_models", model_array ignore); (u "remove_models", model_array [])] :: log s ∧
     (∀ m, m ∈ ignore → m ∉ [u "b"]) ∧ (∀ m, m ∈ add_models s → m ∈ [u "b"] ∨ m ∈ ignore).
Proof.
  intros s. refine (proj2 (apply_request VNull (model_array [u "b"]) VUndef s) [u "b"] [] _ _ _ _);
    vm_compute; reflexivity.
Defined.
