(* ===== verification/ParamOverride.v ===== *)
(** * Parameter override editor: data and text
    The part of [ParamOverrideEditorModal.jsx] above the component: operation and
    condition modes, the records the visual editor works on, the reading of an
    override text into records, their validation and the writing of records back
    into the JSON text that the gateway receives. *)

From Stdlib Require Import SpecFloat.
From stdpp Require Import base numbers option strings sets list.
From S2P Require Import Prelude JsString JsNumber JsValue Json.

(** ** Modes *)

Inductive op_mode :=
  | m_set | m_delete | m_append | m_prepend | m_copy | m_move | m_replace
  | m_regex_replace | m_trim_prefix | m_trim_suffix | m_ensure_prefix
  | m_ensure_suffix | m_trim_space | m_to_lower | m_to_upper | m_return_error
  | m_prune_objects | m_pass_headers | m_sync_fields | m_set_header
  | m_delete_header | m_copy_header | m_move_header.
#[export] Instance op_mode_eq_dec : EqDecision op_mode.
Proof. solve_decision. Defined.

Definition OPERATION_MODE_OPTIONS : list (string * op_mode * string) :=
  [("设置字段", m_set, "set"); ("删除字段", m_delete, "delete");
   ("追加到末尾", m_append, "append"); ("追加到开头", m_prepend, "prepend");
   ("复制字段", m_copy, "copy"); ("移动字段", m_move, "move");
   ("字符串替换", m_replace, "replace"); ("正则替换", m_regex_replace, "regex_replace");
   ("裁剪前缀", m_trim_prefix, "trim_prefix"); ("裁剪后缀", m_trim_suffix, "trim_suffix");
   ("确保前缀", m_ensure_prefix, "ensure_prefix"); ("确保后缀", m_ensure_suffix, "ensure_suffix");
   ("去掉空白", m_trim_space, "trim_space"); ("转小写", m_to_lower, "to_lower");
   ("转大写", m_to_upper, "to_upper"); ("返回自定义错误", m_return_error, "return_error");
   ("清理对象项", m_prune_objects, "prune_objects"); ("请求头透传", m_pass_headers, "pass_headers");
   ("字段同步", m_sync_fields, "sync_fields"); ("设置请求头", m_set_header, "set_header");
   ("删除请求头", m_delete_header, "delete_header"); ("复制请求头", m_copy_header, "copy_header");
   ("移动请求头", m_move_header, "move_header")]%string.

Definition mode_entry (m : op_mode) : option (string * op_mode * string) :=
  find (λ e, bool_decide (e.1.2 = m)) OPERATION_MODE_OPTIONS.
Definition mode_text (m : op_mode) : jsstr :=
  match mode_entry m with Some e => u e.2 | None => [] end.
Definition OPERATION_MODE_LABEL_MAP (m : op_mode) : jsstr :=
  match mode_entry m with Some e => u e.1.1 | None => [] end.

(** [OPERATION_MODE_VALUES.has(v) ? v : 'set'] *)
Definition mode_of (v : value) : op_mode :=
  match v with
  | VStr s =>
      match find (λ e, bool_decide (u e.2 = s)) OPERATION_MODE_OPTIONS with
      | Some e => e.1.2
      | None => m_set
      end
  | _ => m_set
  end.

Inductive cond_mode := c_full | c_prefix | c_suffix | c_contains | c_gt | c_gte | c_lt | c_lte.
#[export] Instance cond_mode_eq_dec : EqDecision cond_mode.
Proof. solve_decision. Defined.

Definition CONDITION_MODE_OPTIONS : list (string * cond_mode * string) :=
  [("完全匹配", c_full, "full"); ("前缀匹配", c_prefix, "prefix");
   ("后缀匹配", c_suffix, "suffix"); ("包含", c_contains, "contains");
   ("大于", c_gt, "gt"); ("大于等于", c_gte, "gte");
   ("小于", c_lt, "lt"); ("小于等于", c_lte, "lte")]%string.

Definition cond_text (m : cond_mode) : jsstr :=
  match find (λ e, bool_decide (e.1.2 = m)) CONDITION_MODE_OPTIONS with
  | Some e => u e.2 | None => [] end.

(** [CONDITION_MODE_VALUES.has(v) ? v : 'full'] *)
Definition cond_mode_of (v : value) : cond_mode :=
  match v with
  | VStr s =>
      match find (λ e, bool_decide (u e.2 = s)) CONDITION_MODE_OPTIONS with
      | Some e => e.1.2
      | None => c_full
      end
  | _ => c_full
  end.

Lemma mode_of_text m : mode_of (VStr (mode_text m)) = m.
Proof. by destruct m. Qed.
Lemma cond_mode_of_text m : cond_mode_of (VStr (cond_text m)) = m.
Proof. by destruct m. Qed.
#[export] Hint Rewrite mode_of_text cond_mode_of_text : js_rw.

Arguments mode_of : simpl never.
Arguments mode_text : simpl never.
Arguments cond_mode_of : simpl never.
Arguments cond_text : simpl never.

(** Which fields a mode uses. *)
Record mode_meta := mk_meta {
  meta_path : bool; meta_pathOptional : bool; meta_value : bool; meta_keepOrigin : bool;
  meta_from : bool; meta_to : bool; meta_pathAlias : bool;
}.

Definition MODE_META (m : op_mode) : mode_meta :=
  match m with
  | m_delete => mk_meta true false false false false false false
  | m_set | m_append | m_prepend => mk_meta true false true true false false false
  | m_copy | m_move => mk_meta false false false false true true false
  | m_replace | m_regex_replace => mk_meta true false false false true false false
  | m_trim_prefix | m_trim_suffix | m_ensure_prefix | m_ensure_suffix =>
      mk_meta true false true false false false false
  | m_trim_space | m_to_lower | m_to_upper => mk_meta true false false false false false false
  | m_return_error => mk_meta false false true false false false false
  | m_prune_objects => mk_meta false true true false false false false
  | m_pass_headers => mk_meta false false true true false false false
  | m_sync_fields => mk_meta false false false false true true false
  | m_set_header => mk_meta true false true true false false false
  | m_delete_header => mk_meta true false false false false false false
  | m_copy_header | m_move_header => mk_meta false false false true true true true
  end.

Definition VALUE_REQUIRED_MODES : list op_mode :=
  [m_trim_prefix; m_trim_suffix; m_ensure_prefix; m_ensure_suffix; m_set_header;
   m_return_error; m_prune_objects; m_pass_headers].
Definition FROM_REQUIRED_MODES : list op_mode :=
  [m_copy; m_move; m_replace; m_regex_replace; m_copy_header; m_move_header; m_sync_fields].
Definition TO_REQUIRED_MODES : list op_mode :=
  [m_copy; m_move; m_copy_header; m_move_header; m_sync_fields].

Definition has_mode (l : list op_mode) (m : op_mode) : bool := bool_decide (m ∈ l).

(** ** Records of the visual editor *)

Record condition := mk_condition {
  c_id : jsstr; c_path : jsstr; c_mode : cond_mode; c_value_text : jsstr;
  c_invert : bool; c_pass_missing_key : bool;
}.

Record operation := mk_operation {
  id : jsstr; description : jsstr; path : jsstr; mode : op_mode; value_text : jsstr;
  keep_origin : bool; from : jsstr; to : jsstr; logic_and : bool;
  conditions : list condition;
}.

(** [logic] is 'AND' or 'OR'. *)
Definition logic_text (b : bool) : jsstr := if b then u "AND" else u "OR".

#[export] Instance condition_eq_dec : EqDecision condition.
Proof. solve_decision. Defined.
#[export] Instance operation_eq_dec : EqDecision operation.
Proof. solve_decision. Defined.

(** ** Local identifiers and errors: code that counts [localIdSeed] and may throw *)

Definition M (A : Type) : Type := N → option A * N.

#[export] Instance M_ret : MRet M := λ A x s, (Some x, s).
#[export] Instance M_bind : MBind M := λ A B f m s,
  match m s with
  | (Some x, s') => f x s'
  | (None, s') => (None, s')
  end.

Definition throw {A} : M A := λ s, (None, s).
(** A pure computation that may throw. *)
Definition lift {A} (o : option A) : M A := λ s, (o, s).
(** [try { m } catch { h }]: the seed keeps the identifiers taken in [m]. *)
Definition try_catch {A} (m h : M A) : M A := λ s,
  match m s with
  | (Some x, s') => (Some x, s')
  | (None, s') => h s'
  end.

(** ** Values as text *)

Definition toValueText (v : value) : jsstr :=
  match v with VUndef => [] | VStr s => s | _ => ser [] [] v end.

Definition parseLooseValue (raw : jsstr) : value :=
  match trim raw with
  | [] => VStr []
  | _ => match json_parse raw with Some v => v | None => VStr raw end
  end.

Arguments parseLooseValue : simpl never.

(** [String(item ?? '').trim()] *)
Definition item_text (v : value) : option jsstr :=
  trim <$> match v with VUndef | VNull => Some [] | _ => to_string v end.

Definition item_texts (l : list value) : option (list jsstr) :=
  filter (λ s, s ≠ []) <$> mapM item_text l.

(** [None]: the conversion of an item throws. *)
Definition parsePassHeaderNames (rawValue : value) : option (list jsstr) :=
  match rawValue with
  | VArr l => item_texts l
  | VObj o =>
      match prop (u "headers") o with
      | VArr l => item_texts l
      | _ =>
          match prop (u "header") o with
          | VUndef => Some []
          | h => (λ single, match single with [] => [] | _ => [single] end) <$> item_text h
          end
      end
  | VStr s => Some (filter (λ s, s ≠ []) (map trim (split_on 44 s)))
  | _ => Some []
  end.

(** [String(v || '').trim()] *)
Definition or_text (v : value) : option jsstr := trim <$> to_string (value_or v (VStr [])).

(** ASCII upper and lower case: only ASCII letters have 'A', 'N', 'D', 'O', 'R' as
    their upper case or 'h', 'e', 'a', 'd', 'r' as their lower case, so the
    comparisons below are those of [toUpperCase] and [toLowerCase]. *)
Definition ascii_upper (s : jsstr) : jsstr :=
  map (λ c, if ((97 <=? c) && (c <=? 122))%N then (c - 32)%N else c) s.
Definition ascii_lower (s : jsstr) : jsstr :=
  map (λ c, if ((65 <=? c) && (c <=? 90))%N then (c + 32)%N else c) s.

(** ** The form of return_error *)

Record return_error_draft := mk_re {
  re_message : jsstr; re_statusCode : num; re_code : jsstr; re_type : jsstr;
  re_skipRetry : bool; re_simpleMode : bool;
}.

Definition status_code_of (x : num) : num :=
  match num_to_Z x with
  | Some z => if ((100 <=? z) && (z <=? 599))%Z then x else num_of_Z 400
  | None => num_of_Z 400
  end.

Definition parseReturnErrorDraft (valueText : jsstr) : return_error_draft :=
  let raw := trim valueText in
  let plain := mk_re raw (num_of_Z 400) [] [] true true in
  match raw with
  | [] => mk_re [] (num_of_Z 400) [] [] true true
  | _ =>
      match json_parse raw with
      | Some (VObj o) =>
          let statusRaw :=
            match prop (u "status_code") o with VUndef => prop (u "status") o | v => v end in
          match to_number statusRaw,
                or_text (value_or (prop (u "message") o) (prop (u "msg") o)),
                or_text (prop (u "code") o), or_text (prop (u "type") o) with
          | Some statusValue, Some message, Some code, Some type =>
              mk_re message (status_code_of statusValue) code type
                (negb (is_false_value (prop (u "skip_retry") o))) false
          | _, _, _, _ => plain
          end
      | _ => plain
      end
  end.

Definition buildReturnErrorValueText (draft : return_error_draft) : jsstr :=
  let message := trim (re_message draft) in
  if re_simpleMode draft then message
  else
    let code := trim (re_code draft) in
    let type := trim (re_type draft) in
    ser [] [] (VObj (
      [(u "message", VStr message); (u "status_code", VNum (status_code_of (re_statusCode draft)))]
      ++ (if str_truthy code then [(u "code", VStr code)] else [])
      ++ (if str_truthy type then [(u "type", VStr type)] else [])
      ++ (if re_skipRetry draft then [] else [(u "skip_retry", VBool false)]))).

(** ** The form of prune_objects *)

Record prune_draft := mk_prune {
  pr_simpleMode : bool; pr_typeText : jsstr; pr_or : bool; pr_recursive : bool;
  pr_rules : list condition;
}.

(** An optional property of a payload. *)
Definition put (b : bool) (k : string) (v : value) (o : props) : props :=
  if b then set (u k) v o else o.

Lemma prop_put_eq b k v o : prop (u k) (put b k v o) = if b then v else prop (u k) o.
Proof. unfold put. destruct b; [|done]. by rewrite prop_set, decide_True. Qed.

Lemma prop_put_ne b k k' v o : u k' ≠ u k → prop (u k) (put b k' v o) = prop (u k) o.
Proof. intros. unfold put. destruct b; [|done]. by rewrite prop_set, decide_False. Qed.

Lemma props_sorted_put b k v o : props_sorted o → props_sorted (put b k v o).
Proof. unfold put. destruct b; auto with js. Qed.

(** [typeof v === 'string' ? v : ''] on a property. *)
Definition str_prop (k : string) (o : props) : jsstr := string_or_empty (prop (u k) o).

(** Property access on the argument of the normalisers: null throws, a primitive
    or an array has none of the names. *)
Definition fields (v : value) : option props :=
  match v with
  | VNull => None
  | VObj o => Some o
  | _ => Some []
  end.

Section ids.
(** [Date.now()] when the n-th identifier is made. *)
Variable clock : N → N.

Definition nextLocalId : M jsstr := λ seed,
  (Some (u "param_override_" ++ dec_N (clock seed) ++ u "_" ++ dec_N seed), (seed + 1)%N).

Definition condition_of (i : jsstr) (o : props) : condition :=
  mk_condition i (str_prop "path" o) (cond_mode_of (prop (u "mode") o))
    (toValueText (prop (u "value") o)) (is_true_value (prop (u "invert") o))
    (is_true_value (prop (u "pass_missing_key") o)).

Definition normalizeCondition (v : value) : M condition :=
  i ← nextLocalId; o ← lift (fields v); mret (condition_of i o).

Definition createDefaultCondition : M condition := normalizeCondition (VObj []).

Definition normalizePruneRule (v : value) : M condition :=
  i ← nextLocalId; o ← lift (fields v); mret (condition_of i o).

(** The rules of [where] and of an object of [conditions]: one per entry. *)
Definition entry_rules (o : props) : M (list condition) :=
  mapM (λ kv, normalizePruneRule
    (VObj [(u "path", VStr kv.1); (u "mode", VStr (u "full")); (u "value", kv.2)])) o.

Definition where_rules (o : props) : M (list condition) :=
  match prop (u "where") o with VObj w => entry_rules w | _ => mret [] end.

Definition condition_rules (o : props) : M (list condition) :=
  match prop (u "conditions") o with
  | VArr l => mapM normalizePruneRule (filter (λ v, truthy v && is_object_type v = true) l)
  | VObj c => entry_rules c
  | _ => mret []
  end.

Definition parsePruneObject (o : props) : M prune_draft :=
  ws ← where_rules o;
  cs ← condition_rules o;
  typeText ← match prop (u "type") o with
    | VUndef => mret []
    | v => lift (trim <$> to_string v)
    end;
  logic ← lift (to_string (value_or (prop (u "logic") o) (VStr (u "AND"))));
  let hasAdvancedFields := negb (is_undef (prop (u "logic") o)) ||
    negb (is_undef (prop (u "recursive") o)) || negb (is_undef (prop (u "where") o)) ||
    negb (is_undef (prop (u "conditions") o)) in
  mret (mk_prune (negb hasAdvancedFields) typeText (bool_decide (ascii_upper logic = u "OR"))
    (negb (is_false_value (prop (u "recursive") o))) (ws ++ cs)).

Definition parsePruneObjectsDraft (valueText : jsstr) : M prune_draft :=
  let raw := trim valueText in
  let simple t := mret (mk_prune true t false true []) in
  match raw with
  | [] => simple []
  | _ =>
      match json_parse raw with
      | None => simple raw
      | Some (VStr s) => simple (trim s)
      | Some (VObj o) => try_catch (parsePruneObject o) (simple raw)
      | Some v => match item_text v with Some t => simple t | None => simple raw end
      end
  end.
End ids.

Definition prune_condition_payload (rule : condition) : value :=
  let valueRaw := trim (c_value_text rule) in
  VObj ([(u "path", VStr (trim (c_path rule))); (u "mode", VStr (cond_text (c_mode rule)))]
    ++ (if str_truthy valueRaw then [(u "value", parseLooseValue valueRaw)] else [])
    ++ (if c_invert rule then [(u "invert", VBool true)] else [])
    ++ (if c_pass_missing_key rule then [(u "pass_missing_key", VBool true)] else [])).

Definition buildPruneObjectsValueText (draft : prune_draft) : jsstr :=
  let typeText := trim (pr_typeText draft) in
  if pr_simpleMode draft then typeText
  else
    let conds := map prune_condition_payload
      (filter (λ r, str_truthy (trim (c_path r)) = true) (pr_rules draft)) in
    let payload :=
      (if str_truthy typeText then [(u "type", VStr typeText)] else [])
      ++ (if pr_or draft then [(u "logic", VStr (u "OR"))] else [])
      ++ (if pr_recursive draft then [] else [(u "recursive", VBool false)])
      ++ match conds with [] => [] | _ => [(u "conditions", VArr conds)] end in
    match typeText, conds with
    | [], [] => ser [] [] (VObj [(u "logic", VStr (u "AND"))])
    | _, _ => ser [] [] (VObj payload)
    end.

(** ** Targets of sync_fields: [header:key] and [json:key] *)

Record sync_target := mk_sync { sync_header : bool; sync_key : jsstr }.

Definition parseSyncTargetSpec (spec : jsstr) : sync_target :=
  let raw := trim spec in
  match raw with
  | [] => mk_sync false []
  | _ =>
      match index_of 58 raw with
      | None => mk_sync false raw
      | Some idx =>
          let prefix := ascii_lower (trim (take idx raw)) in
          let key := trim (drop (S idx) raw) in
          mk_sync (bool_decide (prefix = u "header")) key
      end
  end.

Definition buildSyncTargetSpec (t : sync_target) : jsstr :=
  let normalizedKey := trim (sync_key t) in
  match normalizedKey with
  | [] => []
  | _ => (if sync_header t then u "header" else u "json") ++ u ":" ++ normalizedKey
  end.

(** ** Operations: reading *)

Section ids2.
Variable clock : N → N.

Definition normalizeOperation (v : value) : M operation :=
  i ← nextLocalId clock;
  o ← lift (fields v);
  logic ← lift (to_string (value_or (prop (u "logic") o) (VStr (u "OR"))));
  conds ← match prop (u "conditions") o with
    | VArr l => mapM (normalizeCondition clock) l
    | _ => mret []
    end;
  mret (mk_operation i (str_prop "description" o) (str_prop "path" o)
    (mode_of (prop (u "mode") o)) (toValueText (prop (u "value") o))
    (is_true_value (prop (u "keep_origin") o)) (str_prop "from" o) (str_prop "to" o)
    (bool_decide (ascii_upper logic = u "AND")) conds).

Definition createDefaultOperation : M operation :=
  normalizeOperation (VObj [(u "mode", VStr (u "set"))]).

Definition normalizeOperations (l : list value) : M (list operation) :=
  mapM normalizeOperation l.

(** [l.length > 0 ? l.map(normalizeOperation) : [createDefaultOperation()]] *)
Definition read_list (l : list value) : M (list operation) :=
  match l with
  | [] => d ← createDefaultOperation; mret [d]
  | _ => normalizeOperations l
  end.

Record init_state := mk_init {
  i_visual : bool;          (** [editMode] is 'visual' *)
  i_legacy : bool;          (** [visualMode] is 'legacy' *)
  i_legacyValue : jsstr;
  i_operations : list operation;
  i_jsonText : jsstr;
  i_jsonError : jsstr;
}.

Definition parseInitialState (rawValue : value) : M init_state :=
  let text := string_or_empty rawValue in
  let trimmed := trim text in
  match trimmed with
  | [] => d ← createDefaultOperation; mret (mk_init true false [] [d] [] [])
  | _ =>
      match json_parse trimmed with
      | None =>
          d ← createDefaultOperation;
          mret (mk_init false false [] [d] text (u "JSON 格式不正确"))
      | Some parsed =>
          let pretty := ser gap2 [] parsed in
          match parsed with
          | VObj o =>
              match prop (u "operations") o with
              | VArr l =>
                  ops ← read_list l;
                  mret (mk_init true false [] ops pretty [])
              | _ =>
                  d ← createDefaultOperation;
                  mret (mk_init true true pretty [d] pretty [])
              end
          | _ =>
              d ← createDefaultOperation;
              mret (mk_init false false [] [d] pretty [])
          end
      end
  end.
End ids2.

(** ** The list of operations *)

(** [findIndex(item => item.id === i)] *)
Fixpoint find_id (i : jsstr) (l : list operation) : option nat :=
  match l with
  | [] => None
  | x :: l' => if decide (id x = i) then Some 0 else S <$> find_id i l'
  end.

Definition insert_at {A} (n : nat) (x : A) (l : list A) : list A := take n l ++ x :: drop n l.

Definition reorderOperations (source : list operation) (sourceId targetId : jsstr) (after : bool)
  : list operation :=
  if negb (str_truthy sourceId) || negb (str_truthy targetId) || bool_decide (sourceId = targetId)
  then source
  else
    match find_id sourceId source with
    | None => source
    | Some sourceIndex =>
        match source !! sourceIndex with
        | None => source
        | Some moved =>
            let next := delete sourceIndex source in
            match find_id targetId next with
            | None => source
            | Some insertIndex =>
                insert_at (if after then S insertIndex else insertIndex) moved next
            end
        end
    end.

Definition getOperationSummary (o : operation) (index : nat) : jsstr :=
  let line := dec_N (N.of_nat (index + 1)) ++ u ". " ++ OPERATION_MODE_LABEL_MAP (mode o) ++ u " · " in
  let from := trim (from o) in
  let to := trim (to o) in
  if decide (mode o = m_sync_fields) then line ++ str_or from (str_or to (u "-"))
  else line ++ str_or (trim (path o)) (str_or from (str_or to (u "-"))).

Definition getOperationModeTagColor (m : op_mode) : jsstr :=
  let has s := includes (mode_text m) (u s) in
  if has "header"%string then u "cyan"
  else if has "replace"%string || has "trim"%string then u "violet"
  else if has "copy"%string || has "move"%string then u "blue"
  else if has "error"%string || has "prune"%string then u "red"
  else if has "sync"%string then u "green"
  else u "grey".

Definition condition_set (c : condition) : bool :=
  str_truthy (trim (c_path c)) || str_truthy (trim (c_value_text c)) ||
  negb (bool_decide (c_mode c = c_full)) || c_invert c || c_pass_missing_key c.

Definition isOperationBlank (o : operation) : bool :=
  bool_decide (mode o = m_set) && negb (str_truthy (trim (path o))) &&
  negb (str_truthy (trim (from o))) && negb (str_truthy (trim (to o))) &&
  negb (str_truthy (trim (value_text o))) && negb (keep_origin o) &&
  negb (existsb condition_set (conditions o)).

(** ** Validation *)

(** How the checks of an operation end: the loop goes on, returns a message, or an
    implicit conversion to a string throws. *)
Inductive check := Passes | Fails (message : jsstr) | Throws.

Section i18n.
(** [t(key, { line })] of i18next. *)
Variable t : jsstr → nat → jsstr.

Let fail (key : string) (line : nat) : check := Fails (t (u key) line).

(** The last checks: what one mode demands of its value. *)
Definition validate_value (m : op_mode) (line : nat) (value_text : jsstr) : check :=
  let raw := trim value_text in
  match m with
  | m_return_error =>
      match raw with
      | [] => fail "第 {{line}} 条操作缺少值" line
      | _ =>
          match json_parse raw with
          | Some (VObj o) =>
              match or_text (prop (u "message") o) with
              | Some [] => fail "第 {{line}} 条 return_error 需要 message 字段" line
              | _ => Passes
              end
          | _ => Passes
          end
      end
  | m_prune_objects =>
      match raw with
      | [] => fail "第 {{line}} 条 prune_objects 缺少条件" line
      | _ =>
          match json_parse raw with
          | Some (VObj o) =>
              let type := match prop (u "type") o with
                | VUndef => Some []
                | v => trim <$> to_string v
                end in
              let hasWhere := match prop (u "where") o with VObj (_ :: _) => true | _ => false end in
              let hasConditions := match prop (u "conditions") o with
                | VArr (_ :: _) | VObj (_ :: _) => true | _ => false end in
              match type with
              | Some [] =>
                  if negb hasWhere && negb hasConditions
                  then fail "第 {{line}} 条 prune_objects 需要至少一个匹配条件" line else Passes
              | _ => Passes
              end
          | _ => Passes
          end
      end
  | m_pass_headers =>
      match raw with
      | [] => fail "第 {{line}} 条请求头透传缺少请求头名称" line
      | _ =>
          match parsePassHeaderNames (parseLooseValue raw) with
          | None => Throws
          | Some [] => fail "第 {{line}} 条请求头透传格式无效" line
          | Some _ => Passes
          end
      end
  | _ => Passes
  end.

Definition validate_operation (line : nat) (op : operation) : check :=
  let m := mode op in
  let meta := MODE_META m in
  let pathValue := str_truthy (trim (path op)) in
  let fromValue := str_truthy (trim (from op)) in
  let toValue := str_truthy (trim (to op)) in
  if meta_path meta && negb pathValue then fail "第 {{line}} 条操作缺少目标路径" line
  else if has_mode FROM_REQUIRED_MODES m && negb fromValue && negb (meta_pathAlias meta && pathValue)
    then fail "第 {{line}} 条操作缺少来源字段" line
  else if has_mode TO_REQUIRED_MODES m && negb toValue && negb (meta_pathAlias meta && pathValue)
    then fail "第 {{line}} 条操作缺少目标字段" line
  else if meta_from meta && negb fromValue then fail "第 {{line}} 条操作缺少来源字段" line
  else if meta_to meta && negb toValue then fail "第 {{line}} 条操作缺少目标字段" line
  else if has_mode VALUE_REQUIRED_MODES m && negb (str_truthy (trim (value_text op)))
    then fail "第 {{line}} 条操作缺少值" line
  else validate_value m line (value_text op).

Fixpoint validate_from (line : nat) (ops : list operation) : check :=
  match ops with
  | [] => Passes
  | op :: ops' =>
      match validate_operation line op with
      | Passes => validate_from (S line) ops'
      | r => r
      end
  end.

(** The message of the first operation that fails; '' when all pass. *)
Definition validateOperations (ops : list operation) : check := validate_from 1 ops.
End i18n.

(** ** Writing *)

Definition buildConditionPayload (c : condition) : option value :=
  let path := trim (c_path c) in
  match path with
  | [] => None
  | _ =>
      Some (VObj ([(u "path", VStr path); (u "mode", VStr (cond_text (c_mode c)));
                   (u "value", parseLooseValue (c_value_text c))]
        ++ (if c_invert c then [(u "invert", VBool true)] else [])
        ++ (if c_pass_missing_key c then [(u "pass_missing_key", VBool true)] else [])))
  end.

(** The properties of a written operation that come from its fields. *)
Definition operation_fields (op : operation) : props :=
  let meta := MODE_META (mode op) in
  let descriptionValue := trim (description op) in
  let pathValue := trim (path op) in
  let fromValue := trim (from op) in
  let toValue := trim (to op) in
  let payload := [(u "mode", VStr (mode_text (mode op)))] in
  let payload := put (str_truthy descriptionValue) "description" (VStr descriptionValue) payload in
  let payload := put (meta_path meta) "path" (VStr pathValue) payload in
  let payload := put (meta_pathOptional meta && str_truthy pathValue) "path" (VStr pathValue) payload in
  let payload := put (meta_value meta) "value" (parseLooseValue (value_text op)) payload in
  let payload := put (meta_keepOrigin meta && keep_origin op) "keep_origin" (VBool true) payload in
  let payload := put (meta_from meta) "from" (VStr fromValue) payload in
  let payload := put (negb (meta_to meta) && str_truthy toValue) "to" (VStr toValue) payload in
  let payload := put (meta_to meta) "to" (VStr toValue) payload in
  let payload := put (meta_pathAlias meta && negb (truthy (prop (u "from") payload)) && str_truthy pathValue)
    "from" (VStr pathValue) payload in
  put (meta_pathAlias meta && negb (truthy (prop (u "to") payload)) && str_truthy pathValue)
    "to" (VStr pathValue) payload.

Definition operation_payload (op : operation) : props :=
  match omap buildConditionPayload (conditions op) with
  | [] => operation_fields op
  | conds => put true "logic" (VStr (logic_text (logic_and op)))
               (put true "conditions" (VArr conds) (operation_fields op))
  end.

(** The value that [JSON.stringify] writes. *)
Definition operations_payload (ops : list operation) : value :=
  VObj [(u "operations", VArr (map (λ op, VObj (operation_payload op)) ops))].

(** What a computation that may throw leaves: a text, an [Error] with a message
    (empty for the TypeError of an implicit conversion, whose text is the
    engine's). *)
Inductive outcome :=
  | Text (s : jsstr)
  | ErrorMessage (s : jsstr)
  | EngineError.

Section build.
Variable t : jsstr → nat → jsstr.

Definition nonblank (ops : list operation) : list operation :=
  filter (λ o, isOperationBlank o = false) ops.

Definition buildOperationsJson (source : list operation) (validate : bool) : outcome :=
  match nonblank source with
  | [] => Text []
  | filteredOps =>
      let written := Text (ser gap2 [] (operations_payload filteredOps)) in
      if validate then
        match validateOperations t filteredOps with
        | Throws => EngineError
        | Passes | Fails [] => written
        | Fails message => ErrorMessage message
        end
      else written
  end.

Definition buildVisualJson (legacy : bool) (legacyValue : jsstr) (ops : list operation) : outcome :=
  if legacy then
    match trim legacyValue with
    | [] => Text []
    | trimmed =>
        match json_parse trimmed with
        | None => ErrorMessage (t (u "参数覆盖必须是合法的 JSON 格式！") 0)
        | Some (VObj o) => Text (ser gap2 [] (VObj o))
        | Some _ => ErrorMessage (t (u "旧格式必须是 JSON 对象") 0)
        end
    end
  else buildOperationsJson ops true.
End build.

(** ** Templates *)

Definition obj (l : list (string * value)) : value := VObj (map (λ kv, (u kv.1, kv.2)) l).
Definition str (s : string) : value := VStr (u s).

Definition LEGACY_TEMPLATE : value :=
  obj [("temperature", VNum (num_of_Z 0)); ("max_tokens", VNum (num_of_Z 1000))]%string.

Definition OPERATION_TEMPLATE : value :=
  obj [("operations", VArr [obj [
    ("description", str "Set default temperature for openai/* models.");
    ("path", str "temperature"); ("mode", str "set"); ("value", VNum (str_to_num (u "0.7")));
    ("conditions", VArr [obj [("path", str "model"); ("mode", str "prefix"); ("value", str "openai/")]]);
    ("logic", str "AND")]])]%string.

Definition HEADER_PASSTHROUGH_TEMPLATE : value :=
  obj [("operations", VArr [obj [
    ("description", str "Pass through X-Request-Id header to upstream.");
    ("mode", str "pass_headers"); ("value", VArr [str "X-Request-Id"]);
    ("keep_origin", VBool true)]])]%string.

Definition GEMINI_IMAGE_4K_TEMPLATE : value :=
  obj [("operations", VArr [obj [
    ("description", str "Set imageSize to 4K when model contains gemini/image and ends with 4k.");
    ("mode", str "set"); ("path", str "generationConfig.imageConfig.imageSize"); ("value", str "4K");
    ("conditions", VArr [
      obj [("path", str "original_model"); ("mode", str "contains"); ("value", str "gemini")];
      obj [("path", str "original_model"); ("mode", str "contains"); ("value", str "image")];
      obj [("path", str "original_model"); ("mode", str "suffix"); ("value", str "4k")]]);
    ("logic", str "AND")]])]%string.

Definition AWS_BEDROCK_ANTHROPIC_COMPAT_TEMPLATE : value :=
  obj [("operations", VArr [
    obj [("description", str "Normalize anthropic-beta header tokens for Bedrock compatibility.");
      ("mode", str "set_header"); ("path", str "anthropic-beta");
      ("value", obj [
        ("advanced-tool-use-2025-11-20", str "tool-search-tool-2025-10-19");
        ("bash_20241022", VNull); ("bash_20250124", VNull);
        ("code-execution-2025-08-25", VNull);
        ("compact-2026-01-12", str "compact-2026-01-12");
        ("computer-use-2025-01-24", str "computer-use-2025-01-24");
        ("computer-use-2025-11-24", str "computer-use-2025-11-24");
        ("context-1m-2025-08-07", str "context-1m-2025-08-07");
        ("context-management-2025-06-27", str "context-management-2025-06-27");
        ("effort-2025-11-24", VNull); ("fast-mode-2026-02-01", VNull);
        ("files-api-2025-04-14", VNull); ("fine-grained-tool-streaming-2025-05-14", VNull);
        ("interleaved-thinking-2025-05-14", str "interleaved-thinking-2025-05-14");
        ("mcp-client-2025-11-20", VNull); ("mcp-client-2025-04-04", VNull);
        ("mcp-servers-2025-12-04", VNull); ("output-128k-2025-02-19", VNull);
        ("structured-output-2024-03-01", VNull); ("prompt-caching-scope-2026-01-05", VNull);
        ("skills-2025-10-02", VNull); ("structured-outputs-2025-11-13", VNull);
        ("text_editor_20241022", VNull); ("text_editor_20250124", VNull);
        ("token-efficient-tools-2025-02-19", VNull);
        ("tool-search-tool-2025-10-19", str "tool-search-tool-2025-10-19");
        ("web-fetch-2025-09-10", VNull); ("web-search-2025-03-05", VNull);
        ("oauth-2025-04-20", VNull)])];
    obj [("description", str "Remove all tools[*].custom.input_examples before upstream relay.");
      ("mode", str "delete"); ("path", str "tools.*.custom.input_examples")]])]%string.

(** [channel-affinity-template.constants.js] *)
Definition buildPassHeadersTemplate (headers : list string) : value :=
  obj [("operations", VArr [obj [("mode", str "pass_headers"); ("value", VArr (map str headers));
    ("keep_origin", VBool true)]])]%string.

Definition CODEX_CLI_HEADER_PASSTHROUGH_HEADERS : list string :=
  ["Originator"; "Session_id"; "User-Agent"; "X-Codex-Beta-Features"; "X-Codex-Turn-Metadata"]%string.
Definition CLAUDE_CLI_HEADER_PASSTHROUGH_HEADERS : list string :=
  ["X-Stainless-Arch"; "X-Stainless-Lang"; "X-Stainless-Os"; "X-Stainless-Package-Version";
   "X-Stainless-Retry-Count"; "X-Stainless-Runtime"; "X-Stainless-Runtime-Version";
   "X-Stainless-Timeout"; "User-Agent"; "X-App"; "Anthropic-Beta";
   "Anthropic-Dangerous-Direct-Browser-Access"; "Anthropic-Version"]%string.

Inductive preset := mk_preset (key : jsstr) (scenario : bool) (label : jsstr) (legacy : bool) (payload : value).

Definition TEMPLATE_PRESET_CONFIG : list preset :=
  [mk_preset (u "operations_default") false (u "新格式模板（规则集）") false OPERATION_TEMPLATE;
   mk_preset (u "legacy_default") false (u "旧格式模板（JSON 对象）") true LEGACY_TEMPLATE;
   mk_preset (u "pass_headers_auth") true (u "请求头透传（X-Request-Id）") false HEADER_PASSTHROUGH_TEMPLATE;
   mk_preset (u "gemini_image_4k") true (u "Gemini 图片 4K") false GEMINI_IMAGE_4K_TEMPLATE;
   mk_preset (u "claude_cli_headers_passthrough") true (u "Claude CLI 请求头透传") false
     (buildPassHeadersTemplate CLAUDE_CLI_HEADER_PASSTHROUGH_HEADERS);
   mk_preset (u "codex_cli_headers_passthrough") true (u "Codex CLI 请求头透传") false
     (buildPassHeadersTemplate CODEX_CLI_HEADER_PASSTHROUGH_HEADERS);
   mk_preset (u "aws_bedrock_anthropic_beta_override") true (u "AWS Bedrock Claude 兼容模板") false
     AWS_BEDROCK_ANTHROPIC_COMPAT_TEMPLATE].
