(* ===== verification/ParamOverrideLaws.v ===== *)
(** * Parameter override editor: laws of the data layer
    What saving, loading, validating and reordering operations preserve. *)

From Stdlib Require Import SpecFloat.
From stdpp Require Import base numbers option strings sets list.
From S2P Require Import Prelude JsString JsNumber JsValue Json ParamOverride.

(** ** Identifiers are fresh *)

Section fresh.
Variable clock : N → N.

Definition local_id (n : N) : jsstr :=
  u "param_override_" ++ dec_N (clock n) ++ u "_" ++ dec_N n.

Lemma digits_no_underscore n : 95%N ∉ dec_N n.
Proof.
  intros H. pose proof (dec_N_digits n) as Hd. rewrite Forall_forall in Hd.
  apply Hd in H. done.
Qed.

Lemma local_id_inj m n : local_id m = local_id n → m = n.
Proof.
  intros E. apply (f_equal (split_on 95)) in E. unfold local_id in E.
  change (u "param_override_") with (u "param" ++ [95%N] ++ u "override" ++ [95%N]) in E.
  change (u "_") with [95%N] in E. rewrite <- !app_assoc in E. cbn [app] in E.
  rewrite !split_on_cons, !split_on_no_sep in E
    by (apply digits_no_underscore || by vm_compute; set_solver).
  simplify_eq. by apply dec_N_inj.
Qed.

Lemma local_id_nonnil n : local_id n ≠ [].
Proof. done. Qed.

(** The identifiers in [l] are distinct and were made while the seed went from
    [s] to [s']. *)
Definition fresh (s s' : N) (l : list jsstr) : Prop :=
  NoDup l ∧ ∀ i, i ∈ l → ∃ n, (s <= n < s')%N ∧ i = local_id n.

Lemma fresh_nil s s' : fresh s s' [].
Proof. split; [constructor|]. by intros i ?%elem_of_nil. Qed.

Lemma fresh_app s s1 s2 l1 l2 :
  (s <= s1 <= s2)%N → fresh s s1 l1 → fresh s1 s2 l2 → fresh s s2 (l1 ++ l2).
Proof.
  intros Hs [N1 F1] [N2 F2]. split.
  - apply NoDup_app. split; [done|]. split; [|done]. intros i H1 H2.
    destruct (F1 i H1) as (n1 & ? & ->), (F2 _ H2) as (n2 & ? & E%local_id_inj). lia.
  - intros i [H|H]%elem_of_app; [destruct (F1 i H) as (n & ? & ->) | destruct (F2 i H) as (n & ? & ->)];
      exists n; split; (done || lia).
Qed.

Lemma fresh_perm s s' l l' : l ≡ₚ l' → fresh s s' l → fresh s s' l'.
Proof. intros Hp [H1 H2]. split; [by rewrite <- Hp|]. intros i. rewrite <- Hp. auto. Qed.

(** [m] only moves the seed forward, and the identifiers [f] of its result are
    fresh. *)
Definition takes {A} (f : A → list jsstr) (m : M A) : Prop :=
  ∀ s, (s <= (m s).2)%N ∧ ∀ x, (m s).1 = Some x → fresh s (m s).2 (f x).

Lemma takes_ret {A} (f : A → list jsstr) x : f x = [] → takes f (mret x).
Proof. intros E s. simpl. split; [lia|]. intros y [= <-]. rewrite E. apply fresh_nil. Qed.

Lemma takes_lift {A} (f : A → list jsstr) o : (∀ x, o = Some x → f x = []) → takes f (lift o).
Proof. intros E s. simpl. split; [lia|]. intros y ->. rewrite E by done. apply fresh_nil. Qed.

(** The result of a sequence holds the identifiers of its two parts. *)
Lemma takes_bind_app {A B} (f : A → list jsstr) (g : B → list jsstr) (m : M A) (k : A → M B) :
  takes f m →
  (∀ x, ∃ h, takes h (k x) ∧ ∀ y s, (k x s).1 = Some y → g y ≡ₚ f x ++ h y) →
  takes g (m ≫= k).
Proof.
  intros Hm Hk s. destruct (Hm s) as [Hle Hf]. unfold mbind, M_bind.
  destruct (m s) as [[x|] s1]; simpl in *; [|done].
  destruct (Hk x) as (h & Hh & Hg). destruct (Hh s1) as [Hle2 Hf2]. split; [lia|].
  intros y Hy. apply (fresh_perm _ _ (f x ++ h y)); [by rewrite Hg|].
  apply fresh_app with s1; [lia|by apply Hf|by apply Hf2].
Qed.

Lemma takes_nextLocalId : takes (λ i, [i]) (nextLocalId clock).
Proof.
  intros s. simpl. split; [lia|]. intros i [= <-]. split; [apply NoDup_singleton|].
  intros i ->%list_elem_of_singleton. exists s. split; [lia|done].
Qed.

Lemma takes_mapM {A B} (f : B → list jsstr) (k : A → M B) l :
  (∀ x, takes f (k x)) → takes (λ ys, concat (map f ys)) (mapM k l).
Proof.
  intros Hk. induction l as [|x l IH]; [by apply takes_ret|].
  change (mapM k (x :: l)) with (y ← k x; ys ← mapM k l; mret (M := M) (y :: ys)).
  eapply takes_bind_app; [apply Hk|]. intros y. exists (λ zs, concat (map f (tail zs))). split.
  - eapply takes_bind_app; [exact IH|]. intros ys. exists (λ _, []).
    split; [by apply takes_ret|]. intros zs s [= <-]. simpl. by rewrite app_nil_r.
  - intros zs s. unfold mbind, M_bind. destruct (mapM k l s) as [[ys|] s']; simpl; [|done].
    by intros [= <-].
Qed.

Definition op_ids (o : operation) : list jsstr := id o :: map c_id (conditions o).
Definition ops_ids (l : list operation) : list jsstr := concat (map op_ids l).

Lemma takes_normalizeCondition v : takes (λ c, [c_id c]) (normalizeCondition clock v).
Proof.
  eapply takes_bind_app; [apply takes_nextLocalId|]. intros i. exists (λ _, []). split.
  - eapply (takes_bind_app (λ _, [])); [by apply takes_lift|]. intros o. exists (λ _, []).
    split; [by apply takes_ret | done].
  - intros y s. unfold mbind, M_bind, lift. destruct (fields v); simpl; [|done].
    by intros [= <-].
Qed.

Lemma concat_singletons (l : list condition) : concat (map (λ c, [c_id c]) l) = map c_id l.
Proof. induction l as [|c l IH]; simpl; [done|]. by rewrite IH. Qed.

Lemma takes_normalizeOperation v : takes op_ids (normalizeOperation clock v).
Proof.
  eapply takes_bind_app; [apply takes_nextLocalId|]. intros i.
  exists (λ o, map c_id (conditions o)). split.
  - eapply (takes_bind_app (λ _, [])); [by apply takes_lift|]. intros o.
    exists (λ o, map c_id (conditions o)). split; [|done].
    eapply (takes_bind_app (λ _, [])); [by apply takes_lift|]. intros lg.
    exists (λ o, map c_id (conditions o)). split; [|done].
    eapply (takes_bind_app (map c_id)).
    + destruct (prop (u "conditions") o); try by apply takes_ret.
      intros s. destruct (takes_mapM _ _ l takes_normalizeCondition s) as [H1 H2].
      split; [done|]. intros x Hx. rewrite <- concat_singletons. by apply H2.
    + intros cs. exists (λ _, []). split; [by apply takes_ret|].
      intros y s [= <-]. simpl. by rewrite app_nil_r.
  - intros y s. unfold mbind, M_bind, lift, mret, M_ret.
    repeat case_match; simplify_eq/=; try done; by intros [= <-].
Qed.

Lemma takes_normalizeOperations l : takes ops_ids (normalizeOperations clock l).
Proof. apply takes_mapM, takes_normalizeOperation. Qed.
End fresh.

(** ** What a saved operation reads back as *)

Definition reread (text : jsstr) : jsstr := toValueText (parseLooseValue text).

Definition saved_condition (c : condition) : condition :=
  mk_condition [] (trim (c_path c)) (c_mode c) (reread (c_value_text c)) (c_invert c)
    (c_pass_missing_key c).

(** The conditions that are written: those with a path. *)
Definition saved_conditions (op : operation) : list condition :=
  map saved_condition (filter (λ c, trim (c_path c) ≠ []) (conditions op)).

Definition alias (op : operation) (s : jsstr) : jsstr :=
  if meta_pathAlias (MODE_META (mode op)) then str_or s (trim (path op)) else s.

(** The record that the text of an operation stands for: fields its mode does not
    use are cleared, texts are trimmed and values re-read. *)
Definition saved (op : operation) : operation :=
  let meta := MODE_META (mode op) in
  mk_operation [] (trim (description op))
    (if meta_path meta || meta_pathOptional meta then trim (path op) else [])
    (mode op)
    (if meta_value meta then reread (value_text op) else [])
    (meta_keepOrigin meta && keep_origin op)
    (if meta_from meta then alias op (trim (from op)) else [])
    (alias op (trim (to op)))
    (match saved_conditions op with [] => false | _ => logic_and op end)
    (saved_conditions op).

(** Records up to their identifiers. *)
Definition forget_condition (c : condition) : condition :=
  mk_condition [] (c_path c) (c_mode c) (c_value_text c) (c_invert c) (c_pass_missing_key c).
Definition forget (o : operation) : operation :=
  mk_operation [] (description o) (path o) (mode o) (value_text o) (keep_origin o) (from o) (to o)
    (logic_and o) (map forget_condition (conditions o)).

(** The record that [normalizeOperation] builds from the properties [o], without
    the identifiers it draws: [None] when it throws. *)
Definition read_condition (v : value) : option condition := condition_of [] <$> fields v.

Definition read_operation (v : value) : option operation :=
  o ← fields v;
  logic ← to_string (value_or (prop (u "logic") o) (VStr (u "OR")));
  conds ← match prop (u "conditions") o with VArr l => mapM read_condition l | _ => Some [] end;
  Some (mk_operation [] (str_prop "description" o) (str_prop "path" o)
    (mode_of (prop (u "mode") o)) (toValueText (prop (u "value") o))
    (is_true_value (prop (u "keep_origin") o)) (str_prop "from" o) (str_prop "to" o)
    (bool_decide (ascii_upper logic = u "AND")) conds).

Section reading.
Variable clock : N → N.

Lemma mapM_erase {A B C} (k : A → M B) (g : B → C) (h : A → option C) l :
  (∀ x s, g <$> (k x s).1 = h x) → ∀ s, map g <$> (mapM k l s).1 = mapM h l.
Proof.
  intros Hk. induction l as [|x l IH]; intros s; [done|].
  change (mapM k (x :: l)) with (y ← k x; ys ← mapM k l; mret (M := M) (y :: ys)).
  change (mapM h (x :: l)) with (y ← h x; ys ← mapM h l; Some (y :: ys)).
  unfold mbind at 1, M_bind at 1. specialize (Hk x s). destruct (k x s) as [[y|] s1]; simpl in *.
  - rewrite <- Hk. simpl. specialize (IH s1). unfold mbind at 1, M_bind.
    destruct (mapM k l s1) as [[ys|] s2]; simpl in *; by rewrite <- IH.
  - by rewrite <- Hk.
Qed.

Lemma normalizeCondition_read v s :
  forget_condition <$> (normalizeCondition clock v s).1 = read_condition v.
Proof.
  unfold normalizeCondition, read_condition, mbind, M_bind, lift. simpl. by destruct (fields v).
Qed.

Lemma normalizeOperation_read v s :
  forget <$> (normalizeOperation clock v s).1 = read_operation v.
Proof.
  unfold normalizeOperation, read_operation, mbind, M_bind, lift, mret, M_ret. simpl.
  destruct (fields v) as [o|]; simpl; [|done].
  destruct (to_string _) as [lg|]; simpl; [|done].
  destruct (prop (u "conditions") o) as [| | | | |l|]; try done.
  pose proof (mapM_erase (normalizeCondition clock) forget_condition read_condition l
    normalizeCondition_read (s + 1)%N) as H.
  destruct (mapM (normalizeCondition clock) l (s + 1)%N) as [[cs|] s']; simpl in *;
    by rewrite <- H.
Qed.

Lemma normalizeOperations_read l s :
  map forget <$> (normalizeOperations clock l s).1 = mapM read_operation l.
Proof. apply mapM_erase, normalizeOperation_read. Qed.
End reading.

Lemma read_condition_payload c v :
  buildConditionPayload c = Some v → read_condition v = Some (saved_condition c).
Proof.
  unfold buildConditionPayload. destruct (trim (c_path c)) as [|x p] eqn:Ep; [done|].
  intros [= <-]. unfold read_condition, condition_of, saved_condition. simpl. rewrite Ep.
  unfold str_prop. destruct (c_invert c), (c_pass_missing_key c); simpl;
    read_props; by rewrite cond_mode_of_text.
Qed.

Lemma read_condition_payloads cs :
  mapM read_condition (omap buildConditionPayload cs) =
  Some (map saved_condition (filter (λ c, trim (c_path c) ≠ []) cs)).
Proof.
  induction cs as [|c cs IH]; [done|]. rewrite filter_cons.
  change (omap buildConditionPayload (c :: cs)) with
    (match buildConditionPayload c with Some y => y :: omap buildConditionPayload cs
     | None => omap buildConditionPayload cs end).
  destruct (buildConditionPayload c) as [v|] eqn:E.
  - pose proof (read_condition_payload _ _ E) as Hr. unfold buildConditionPayload in E.
    destruct (trim (c_path c)) eqn:Ep; [done|]. rewrite decide_True by done.
    change (mapM read_condition (v :: ?l)) with
      (y ← read_condition v; ys ← mapM read_condition l; Some (y :: ys)).
    by rewrite Hr, IH.
  - unfold buildConditionPayload in E. destruct (trim (c_path c)) eqn:Ep; [|done].
    by rewrite decide_False by naive_solver.
Qed.
(** Loading the payload of an operation gives the saved record. *)

Ltac read_puts :=
  repeat first [ rewrite prop_put_eq | rewrite prop_put_ne by keys_differ | progress read_props ].

Lemma payload_fields op :
  str_prop "description" (operation_payload op) = trim (description op) ∧
  str_prop "path" (operation_payload op) =
    (if meta_path (MODE_META (mode op)) || meta_pathOptional (MODE_META (mode op))
     then trim (path op) else []) ∧
  prop (u "mode") (operation_payload op) = VStr (mode_text (mode op)) ∧
  prop (u "value") (operation_payload op) =
    (if meta_value (MODE_META (mode op)) then parseLooseValue (value_text op) else VUndef).
Proof.
  unfold operation_payload, operation_fields, str_prop. cbv zeta.
  destruct (omap buildConditionPayload (conditions op)); read_puts;
    (split_and!; [by destruct (trim (description op)) | | done | done]);
    destruct (meta_path _), (meta_pathOptional _), (trim (path op)); done.
Qed.

Lemma payload_targets op :
  prop (u "keep_origin") (operation_payload op) =
    (if meta_keepOrigin (MODE_META (mode op)) && keep_origin op then VBool true else VUndef) ∧
  str_prop "from" (operation_payload op) =
    (if meta_from (MODE_META (mode op)) then alias op (trim (from op)) else []) ∧
  str_prop "to" (operation_payload op) = alias op (trim (to op)).
Proof.
  unfold operation_payload, operation_fields, str_prop, alias. cbv zeta.
  destruct (omap buildConditionPayload (conditions op)); read_puts; (split; [done|]);
    destruct (MODE_META (mode op)) as [? ? ? ? mf mt ma] eqn:Em; simpl;
    assert (ma = true → mf = true ∧ mt = true) as Ha
      by (intros E; subst ma; destruct (mode op); injection Em; intros; subst; done);
    clear Em; destruct ma; try destruct (Ha eq_refl) as [-> ->];
    destruct (trim (from op)), (trim (to op)), (trim (path op)); simpl; try done;
    by destruct mf, mt.
Qed.

Lemma payload_conditions op :
  prop (u "conditions") (operation_payload op) =
    (match omap buildConditionPayload (conditions op) with [] => VUndef | l => VArr l end) ∧
  prop (u "logic") (operation_payload op) =
    (match omap buildConditionPayload (conditions op) with
     | [] => VUndef | _ => VStr (logic_text (logic_and op)) end).
Proof.
  unfold operation_payload, operation_fields. cbv zeta.
  destruct (omap buildConditionPayload (conditions op)); by read_puts.
Qed.

(** Loading the payload of an operation gives the saved record. *)
Lemma read_operation_payload op :
  read_operation (VObj (operation_payload op)) = Some (saved op).
Proof.
  destruct (payload_fields op) as (H1 & H2 & H3 & H4).
  destruct (payload_targets op) as (H5 & H6 & H7).
  destruct (payload_conditions op) as (H8 & H9).
  unfold read_operation. simpl fields. cbn [mbind option_bind].
  pose proof (read_condition_payloads (conditions op)) as Hc. fold (saved_conditions op) in Hc.
  assert (Hvt : toValueText (prop (u "value") (operation_payload op)) =
    if meta_value (MODE_META (mode op)) then reread (value_text op) else []).
  { rewrite H4. by destruct (meta_value _). }
  assert (Hko : is_true_value (prop (u "keep_origin") (operation_payload op)) =
    meta_keepOrigin (MODE_META (mode op)) && keep_origin op).
  { rewrite H5. by destruct (_ && _). }
  rewrite H1, H2, H3, H6, H7, H8, H9, Hvt, Hko, mode_of_text. unfold saved.
  destruct (omap buildConditionPayload (conditions op)) as [|v l] eqn:Eo.
  - assert (saved_conditions op = []) as -> by (by injection Hc). done.
  - rewrite Hc. destruct (saved_conditions op) as [|sc scs] eqn:Es.
    + by apply length_mapM in Hc.
    + by destruct (logic_and op).
Qed.

(** ** Values that survive being shown as text *)

(** A value whose text reads back as itself: JSON of the kind [JSON.stringify]
    keeps, or a string that is not itself JSON text. *)
Definition loose_stable (v : value) : bool :=
  match v with
  | VStr s =>
      match s with
      | [] => true
      | _ => str_truthy (trim s) && match json_parse s with Some _ => false | None => true end
      end
  | _ => json_ok v
  end.

Lemma loose_stable_reread v : loose_stable v = true → parseLooseValue (toValueText v) = v.
Proof.
  intros H. unfold parseLooseValue.
  assert (json_ok v = true → trim (ser [] [] v) ≠ [] ∧ json_parse (ser [] [] v) = Some v) as Hj.
  { intros Hv. split; [by apply ser_nonblank|]. by apply (codec_roundtrip v). }
  assert (json_ok v = true → toValueText v = ser [] [] v →
    match trim (toValueText v) with [] => VStr [] | _ =>
      match json_parse (toValueText v) with Some w => w | None => VStr (toValueText v) end end = v) as Hg.
  { intros [Hn Hp]%Hj ->. rewrite Hp. by destruct (trim _). }
  destruct v as [| |b|x|s|l|o]; try by apply Hg. clear Hj Hg.
  simpl in *. destruct s as [|c s]; [done|]. bool_simp.
  destruct (trim (c :: s)); [done|]. by destruct (json_parse (c :: s)).
Qed.

Definition text_stable (t : jsstr) : bool := loose_stable (parseLooseValue t).

Lemma text_stable_reread t : text_stable t = true → parseLooseValue (reread t) = parseLooseValue t.
Proof. intros H. by apply loose_stable_reread. Qed.

(** ** The written text is JSON that reads back *)

Definition condition_ok (c : condition) : bool := json_ok (parseLooseValue (c_value_text c)).
(** The values of an operation are ones that JSON text can hold (no infinity from
    "1e999", no -0). *)
Definition operation_ok (op : operation) : bool :=
  json_ok (parseLooseValue (value_text op)) && forallb condition_ok (conditions op).

Lemma json_ok_put b k v o :
  json_ok v = true → json_ok (VObj o) = true → json_ok (VObj (put b k v o)) = true.
Proof. unfold put. destruct b; [|done]. apply json_ok_set. Qed.

Lemma condition_payload_ok c v :
  condition_ok c = true → buildConditionPayload c = Some v → json_ok v = true.
Proof.
  unfold condition_ok, buildConditionPayload. intros Hc H.
  revert Hc H. generalize (parseLooseValue (c_value_text c)), (cond_text (c_mode c)).
  destruct (trim (c_path c)); [done|]. intros w m Hw [= <-]. rewrite json_ok_obj.
  apply andb_true_iff. split.
  - destruct (c_invert c), (c_pass_missing_key c); vm_compute; reflexivity.
  - destruct (c_invert c), (c_pass_missing_key c); simpl; by rewrite Hw.
Qed.

Lemma operation_payload_ok op : operation_ok op = true → json_ok (VObj (operation_payload op)) = true.
Proof.
  unfold operation_ok. rewrite andb_true_iff, forallb_forall. intros [Hv Hc].
  unfold operation_payload, operation_fields. cbv zeta.
  assert (json_ok (VArr (omap buildConditionPayload (conditions op))) = true) as Hl.
  { simpl. apply forallb_forall. intros v Hv'. apply list_elem_of_In in Hv'.
    apply list_elem_of_omap in Hv' as (c & Hin & E). eapply condition_payload_ok; [|done].
    apply Hc. by apply list_elem_of_In. }
  destruct (omap buildConditionPayload (conditions op)); repeat (apply json_ok_put; try done).
Qed.

Lemma operations_payload_ok ops :
  forallb operation_ok ops = true → json_ok (operations_payload ops) = true.
Proof.
  rewrite forallb_forall. intros H. unfold operations_payload. simpl. rewrite andb_true_r.
  apply forallb_forall. intros v (op & <- & Hop)%in_map_iff. by apply operation_payload_ok, H.
Qed.

Lemma mapM_read_operations ops :
  mapM read_operation (map (λ op, VObj (operation_payload op)) ops) = Some (map saved ops).
Proof.
  induction ops as [|op ops IH]; [done|].
  change (mapM read_operation (map ?f (op :: ops))) with
    (y ← read_operation (VObj (operation_payload op));
     ys ← mapM read_operation (map f ops); Some (y :: ys)).
  by rewrite read_operation_payload, IH.
Qed.

Lemma parseInitialState_operations clock s raw o l :
  trim raw ≠ [] → json_parse (trim raw) = Some (VObj o) → prop (u "operations") o = VArr l → l ≠ [] →
  parseInitialState clock (VStr raw) s =
  match normalizeOperations clock l s with
  | (Some ops, s') => (Some (mk_init true false [] ops (ser gap2 [] (VObj o)) []), s')
  | (None, s') => (None, s')
  end.
Proof.
  intros Hne Hp Ho Hl. unfold parseInitialState. change (string_or_empty (VStr raw)) with raw.
  rewrite Hp, Ho. destruct (trim raw); [done|]. destruct l; [done|].
  unfold read_list, mbind, M_bind. by destruct (normalizeOperations clock _ s) as [[?|] ?].
Qed.

(** Loading the text written for some operations. *)
Lemma load_written clock s ops :
  ops ≠ [] → forallb operation_ok ops = true →
  ∃ ops' s', parseInitialState clock (VStr (ser gap2 [] (operations_payload ops))) s =
      (Some (mk_init true false [] ops' (ser gap2 [] (operations_payload ops)) []), s') ∧
    map forget ops' = map saved ops.
Proof.
  intros Hne Hok. apply operations_payload_ok in Hok.
  assert (trim (ser gap2 [] (operations_payload ops)) = ser gap2 [] (operations_payload ops)) as Ht.
  { apply ser_object_trim. right. by eexists. }
  erewrite parseInitialState_operations.
  2: { rewrite Ht. rewrite <- Ht. by apply ser_nonblank. }
  2: { rewrite Ht. exact (codec_roundtrip (Codec := json_codec2) _ Hok). }
  2: { apply prop_cons_eq. }
  2: { by destruct ops. }
  pose proof (normalizeOperations_read clock (map (λ op, VObj (operation_payload op)) ops) s) as Hr.
  rewrite mapM_read_operations in Hr.
  destruct (normalizeOperations clock _ s) as [[ops'|] s'] eqn:En; [|done].
  exists ops', s'. split; [done|]. by injection Hr.
Qed.

(** ** Saving a loaded operation again *)

Definition condition_stable (c : condition) : bool := text_stable (c_value_text c).
(** No value of the operation is a JSON string that holds JSON text itself. *)
Definition operation_stable (op : operation) : bool :=
  text_stable (value_text op) && forallb condition_stable (conditions op).

Lemma loose_stable_ok v : loose_stable v = true → json_ok v = true.
Proof. by destruct v. Qed.

Lemma operation_stable_ok op : operation_stable op = true → operation_ok op = true.
Proof.
  unfold operation_stable, operation_ok. rewrite !andb_true_iff, !forallb_forall.
  intros [H1 H2]. split; [by apply loose_stable_ok|]. intros c Hc. by apply loose_stable_ok, H2.
Qed.

Lemma condition_payload_saved c :
  condition_stable c = true → buildConditionPayload (saved_condition c) = buildConditionPayload c.
Proof.
  intros H. unfold buildConditionPayload. simpl. rewrite trim_idemp.
  by rewrite text_stable_reread.
Qed.

Lemma conditions_payload_saved op :
  forallb condition_stable (conditions op) = true →
  omap buildConditionPayload (saved_conditions op) = omap buildConditionPayload (conditions op).
Proof.
  unfold saved_conditions. induction (conditions op) as [|c cs IH]; [done|].
  change (forallb condition_stable (c :: cs)) with (condition_stable c && forallb condition_stable cs).
  intros H. apply andb_true_iff in H as [Hc H]. specialize (IH H). rewrite filter_cons.
  change (omap buildConditionPayload (c :: cs)) with
    (match buildConditionPayload c with Some y => y :: omap buildConditionPayload cs
     | None => omap buildConditionPayload cs end).
  case_decide as Hp.
  - change (omap buildConditionPayload (map ?f (c :: ?l))) with
      (match buildConditionPayload (f c) with Some y => y :: omap buildConditionPayload (map f l)
       | None => omap buildConditionPayload (map f l) end).
    by rewrite condition_payload_saved, IH.
  - assert (buildConditionPayload c = None) as ->; [|done].
    unfold buildConditionPayload. by rewrite Hp.
Qed.

Lemma alias_fields_saved op :
  meta_pathAlias (MODE_META (mode op)) = true → operation_fields (saved op) = operation_fields op.
Proof.
  intros Ha. unfold operation_fields, saved, alias. simpl. rewrite trim_idemp.
  assert (∀ a b, trim (str_or (trim a) (trim b)) = str_or (trim a) (trim b)) as Hor.
  { intros a b. destruct (trim a) eqn:E; simpl; [apply trim_idemp|]. rewrite <- E. apply trim_idemp. }
  destruct (mode op); try discriminate Ha; simpl; rewrite !Hor;
    destruct (trim (description op)), (trim (path op)), (trim (from op)), (trim (to op)), (keep_origin op);
    vm_compute; reflexivity.
Qed.

Lemma plain_fields_saved op :
  meta_pathAlias (MODE_META (mode op)) = false → text_stable (value_text op) = true →
  operation_fields (saved op) = operation_fields op.
Proof.
  intros Ha Hv. unfold operation_fields, saved, alias. cbv zeta. simpl. rewrite Ha. simpl.
  rewrite !trim_idemp.
  set (meta := MODE_META (mode op)).
  assert (∀ o, put (meta_value meta) "value"
    (parseLooseValue (if meta_value meta then reread (value_text op) else [])) o =
    put (meta_value meta) "value" (parseLooseValue (value_text op)) o) as ->.
  { intros o. destruct (meta_value meta); [|done]. by rewrite text_stable_reread. }
  destruct (meta_path meta), (meta_pathOptional meta), (meta_keepOrigin meta), (meta_from meta);
    simpl; by rewrite ?trim_idemp.
Qed.

Lemma operation_payload_saved op :
  operation_stable op = true → operation_payload (saved op) = operation_payload op.
Proof.
  unfold operation_stable. rewrite andb_true_iff. intros [Hv Hc].
  assert (operation_fields (saved op) = operation_fields op) as Hf.
  { destruct (meta_pathAlias (MODE_META (mode op))) eqn:Ha;
      [by apply alias_fields_saved | by apply plain_fields_saved]. }
  unfold operation_payload. rewrite Hf.
  change (conditions (saved op)) with (saved_conditions op). rewrite conditions_payload_saved by done.
  pose proof (read_condition_payloads (conditions op)) as Hr. fold (saved_conditions op) in Hr.
  destruct (omap buildConditionPayload (conditions op)) as [|v l]; [done|].
  unfold saved. destruct (saved_conditions op); [by apply length_mapM in Hr | done].
Qed.

(** Identifiers are not written. *)
Lemma operation_payload_forget op : operation_payload (forget op) = operation_payload op.
Proof.
  unfold operation_payload. change (operation_fields (forget op)) with (operation_fields op).
  assert (omap buildConditionPayload (conditions (forget op)) =
    omap buildConditionPayload (conditions op)) as ->; [|done].
  change (conditions (forget op)) with (map forget_condition (conditions op)).
  induction (conditions op) as [|c cs IH]; [done|].
  change (omap buildConditionPayload (map forget_condition (c :: cs))) with
    (match buildConditionPayload c with
     | Some y => y :: omap buildConditionPayload (map forget_condition cs)
     | None => omap buildConditionPayload (map forget_condition cs) end).
  by rewrite IH.
Qed.

Lemma isOperationBlank_forget op : isOperationBlank (forget op) = isOperationBlank op.
Proof.
  unfold isOperationBlank, forget. simpl. f_equal. f_equal.
  by induction (conditions op) as [|c cs IH]; simpl; rewrite ?IH.
Qed.

(** ** What validation demands *)

(** The fields that a mode needs are filled in. *)
Definition fields_filled (op : operation) : Prop :=
  let m := mode op in
  (meta_path (MODE_META m) = true → trim (path op) ≠ []) ∧
  (m ∈ FROM_REQUIRED_MODES → trim (from op) ≠ []) ∧
  (m ∈ TO_REQUIRED_MODES → trim (to op) ≠ []) ∧
  (m ∈ VALUE_REQUIRED_MODES → trim (value_text op) ≠ []).

(** How the tables of the modes fit together. *)
Lemma mode_tables m :
  (meta_from (MODE_META m) = true → has_mode FROM_REQUIRED_MODES m = true) ∧
  (meta_to (MODE_META m) = true → has_mode TO_REQUIRED_MODES m = true) ∧
  (meta_pathAlias (MODE_META m) = true →
     meta_from (MODE_META m) = true ∧ meta_to (MODE_META m) = true).
Proof. by destruct m. Qed.

Lemma has_mode_spec l m : m ∈ l ↔ has_mode l m = true.
Proof. unfold has_mode. by rewrite bool_decide_eq_true. Qed.

Lemma if_fails_passes (b : bool) m r : (if b then Fails m else r) = Passes ↔ b = false ∧ r = Passes.
Proof. destruct b; naive_solver. Qed.

Lemma needs_false (b x : bool) : b && negb x = false ↔ (b = true → x = true).
Proof. destruct b, x; naive_solver. Qed.

(** The two checks of a target: the fallback on the path never excuses it. *)
Lemma target_checks (required alias p x has : bool) :
  (has = true → required = true) → (alias = true → has = true) →
  required && negb x && negb (alias && p) = false ∧ has && negb x = false ↔
  (required = true → x = true).
Proof.
  intros H1 H2. destruct has; [rewrite (H1 eq_refl)|];
    (destruct alias; [try discriminate (H2 eq_refl)|]);
    clear H1 H2; destruct p, x; try destruct required; simpl;
    (split; [by intros [? ?] | intros H; by try specialize (H eq_refl)]).
Qed.

Lemma validate_operation_passes t line op :
  validate_operation t line op = Passes ↔
  fields_filled op ∧ validate_value t (mode op) line (value_text op) = Passes.
Proof.
  unfold validate_operation, fields_filled. cbv zeta.
  rewrite !has_mode_spec, <- !str_truthy_true, !if_fails_passes, !needs_false.
  destruct (mode_tables (mode op)) as (H1 & H2 & H3).
  rewrite <- (target_checks (has_mode FROM_REQUIRED_MODES (mode op))
    (meta_pathAlias (MODE_META (mode op))) (str_truthy (trim (path op))) (str_truthy (trim (from op)))
    (meta_from (MODE_META (mode op)))), <- (target_checks (has_mode TO_REQUIRED_MODES (mode op))
    (meta_pathAlias (MODE_META (mode op))) (str_truthy (trim (path op))) (str_truthy (trim (to op)))
    (meta_to (MODE_META (mode op)))), !needs_false by tauto. tauto.
Qed.

Lemma validate_from_spec t line ops :
  match validate_from t line ops with
  | Passes => ∀ k op, ops !! k = Some op → validate_operation t (line + k) op = Passes
  | r => ∃ k op, ops !! k = Some op ∧ validate_operation t (line + k) op = r ∧
      ∀ k' op', k' < k → ops !! k' = Some op' → validate_operation t (line + k') op' = Passes
  end.
Proof.
  revert line. induction ops as [|op ops IH]; intros line; simpl; [done|].
  specialize (IH (S line)).
  destruct (validate_operation t line op) as [|m|] eqn:E.
  - destruct (validate_from t (S line) ops).
    + intros [|k] op' Hk; simplify_eq/=; [by rewrite Nat.add_0_r|].
      rewrite Nat.add_succ_r. by apply (IH k).
    + destruct IH as (k & op' & H1 & H2 & H3). exists (S k), op'. rewrite Nat.add_succ_r.
      split; [done|]. split; [done|]. intros [|k'] op2 Hk H; simplify_eq/=; [by rewrite Nat.add_0_r|].
      rewrite Nat.add_succ_r. apply (H3 k'); [lia|done].
    + destruct IH as (k & op' & H1 & H2 & H3). exists (S k), op'. rewrite Nat.add_succ_r.
      split; [done|]. split; [done|]. intros [|k'] op2 Hk H; simplify_eq/=; [by rewrite Nat.add_0_r|].
      rewrite Nat.add_succ_r. apply (H3 k'); [lia|done].
  - exists 0, op. rewrite Nat.add_0_r. split; [done|]. split; [done|]. intros; lia.
  - exists 0, op. rewrite Nat.add_0_r. split; [done|]. split; [done|]. intros; lia.
Qed.

Lemma validated_fields t ops :
  validateOperations t ops = Passes → ∀ op, op ∈ ops → fields_filled op.
Proof.
  intros H op Hop. pose proof (validate_from_spec t 1 ops) as Hs. unfold validateOperations in H.
  rewrite H in Hs. apply list_elem_of_lookup in Hop as [k Hk].
  by apply Hs, validate_operation_passes in Hk as [? _].
Qed.

(** A validated operation keeps a field that shows it is not blank. *)
Lemma saved_nonblank op : fields_filled op → isOperationBlank (saved op) = false.
Proof.
  intros (Hp & _). unfold isOperationBlank. simpl.
  destruct (decide (mode op = m_set)) as [E|E].
  - rewrite E in *. specialize (Hp eq_refl). simpl. rewrite trim_idemp.
    by destruct (trim (path op)).
  - by rewrite bool_decide_false.
Qed.

Lemma nonblank_id ops : Forall (λ op, isOperationBlank op = false) ops → nonblank ops = ops.
Proof.
  unfold nonblank. induction 1 as [|op ops Hop _ IH]; [done|]. rewrite filter_cons_True by done.
  by rewrite IH.
Qed.

(** Operations that agree up to identifiers are written alike. *)
Lemma operations_payload_ext ops1 ops2 :
  map forget ops1 = map forget ops2 → operations_payload ops1 = operations_payload ops2.
Proof.
  intros H. unfold operations_payload. do 4 f_equal.
  revert ops2 H. induction ops1 as [|o1 ops1 IH]; intros [|o2 ops2] H; try done.
  injection H as H H'. simpl. f_equal; [|by apply IH].
  rewrite <- (operation_payload_forget o1), <- (operation_payload_forget o2). f_equal. f_equal.
  unfold forget. by f_equal.
Qed.

Lemma forget_saved op : forget (saved op) = saved op.
Proof.
  unfold forget. unfold saved at 10. unfold saved. simpl. f_equal.
  unfold saved_conditions. induction (conditions op) as [|c cs IH]; [done|].
  rewrite filter_cons. case_decide; simpl; by rewrite ?IH.
Qed.

Lemma validate_message t line ops m :
  validate_from t line ops = Fails m → ∃ key line', m = t key line'.
Proof.
  revert line. induction ops as [|op ops IH]; intros line; simpl; [done|].
  destruct (validate_operation t line op) as [|m'|] eqn:E; [apply IH| |done]. intros [= ->].
  unfold validate_operation in E. cbv zeta in E.
  repeat match type of E with (if ?b then _ else _) = _ => destruct b; [injection E as <-; eauto|] end.
  unfold validate_value in E. destruct (mode op); try discriminate E; repeat case_match;
    try discriminate E; injection E as <-; eauto.
Qed.

Lemma operations_payload_saved f :
  forallb operation_stable f = true → operations_payload (map saved f) = operations_payload f.
Proof.
  rewrite forallb_forall. intros H. unfold operations_payload. rewrite map_map. do 4 f_equal.
  apply map_ext_in. intros op Hop. by rewrite operation_payload_saved by auto.
Qed.

(** A text that is not empty was saved for operations that pass validation. *)
Lemma saved_text t ops text :
  (∀ key line, t key line ≠ []) →
  buildOperationsJson t ops true = Text text → text ≠ [] →
  nonblank ops ≠ [] ∧ validateOperations t (nonblank ops) = Passes ∧
  text = ser gap2 [] (operations_payload (nonblank ops)).
Proof.
  intros Ht Hb Hne. unfold buildOperationsJson in Hb.
  destruct (nonblank ops) as [|op0 f0]; [by simplify_eq|].
  destruct (validateOperations t _) as [|[|]|] eqn:Ev; simplify_eq; [done|].
  by apply validate_message in Ev as (key & line & ?%eq_sym%Ht).
Qed.

(** Operations that were loaded from what passed validation are saved again as what they
    were loaded as. *)
Lemma reloaded_saved_again t f ops' :
  validateOperations t f = Passes → map forget ops' = map saved f → f ≠ [] →
  buildOperationsJson t ops' false = Text (ser gap2 [] (operations_payload (map saved f))).
Proof.
  intros Hv Hm Hf.
  assert (Forall (λ op, isOperationBlank op = false) (map forget ops')) as Hnb.
  { rewrite Hm. apply Forall_map, Forall_forall. intros op Hop.
    by apply saved_nonblank, (validated_fields t f). }
  assert (nonblank ops' = ops') as Hn'.
  { apply nonblank_id. apply Forall_map in Hnb. eapply Forall_impl; [done|].
    intros op. simpl. by rewrite isOperationBlank_forget. }
  unfold buildOperationsJson. rewrite Hn'. destruct ops' as [|op' ops']; [by destruct f|].
  f_equal. f_equal. apply operations_payload_ext. rewrite Hm, map_map. apply map_ext. intros. by rewrite forget_saved.
Qed.

(** ** Properties: saving and loading *)



(** the values that do not survive: a string value that is itself JSON text is
    shown without quotes, and saving the operation writes the value it denotes in
    place of the string. *)
Theorem json_text_string_changes v :
  json_ok v = true → (∀ s, v ≠ VStr s) →
  parseLooseValue (toValueText (VStr (ser [] [] v))) = v ∧
  parseLooseValue (toValueText (VStr (ser [] [] v))) ≠ VStr (ser [] [] v).
Proof.
  intros Hv Hs. assert (parseLooseValue (ser [] [] v) = v) as E.
  { unfold parseLooseValue. rewrite (codec_roundtrip (Codec := json_codec0) v Hv).
    pose proof (ser_nonblank [] [] v Hv). by destruct (trim _). }
  simpl. rewrite E. split; [done|]. apply Hs.
Qed.

Lemma json_text_string_changes_witness :
  parseLooseValue (toValueText (VStr (ser [] [] (VNum (num_of_Z 123))))) = VNum (num_of_Z 123).
Proof.
  refine (proj1 (json_text_string_changes (VNum (num_of_Z 123)) _ _)); [vm_compute; reflexivity|].
  intros s H. discriminate H.
Defined.

(** validation passes exactly when every operation has the fields its mode needs
    (the fallback of the header modes on the path excuses none) and the check of
    its value passes; otherwise the message is that of the first failing operation,
    with its line. *)
Theorem validation_meaning t ops :
  (validateOperations t ops = Passes ↔ ∀ k op, ops !! k = Some op →
     fields_filled op ∧ validate_value t (mode op) (k + 1) (value_text op) = Passes) ∧
  (∀ r, validateOperations t ops = r → r ≠ Passes →
     ∃ k op, ops !! k = Some op ∧ validate_operation t (k + 1) op = r ∧
       ∀ k' op', k' < k → ops !! k' = Some op' → validate_operation t (k' + 1) op' = Passes).
Proof.
  pose proof (validate_from_spec t 1 ops) as Hs. unfold validateOperations. split; [split|].
  - intros E k op Hk. rewrite E in Hs. rewrite Nat.add_comm.
    by apply validate_operation_passes, Hs.
  - intros H. destruct (validate_from t 1 ops); [done| |]; exfalso;
      destruct Hs as (k & op & Hk & Ho & _); apply H in Hk; rewrite Nat.add_comm in Hk;
      apply validate_operation_passes in Hk; rewrite Hk in Ho; discriminate Ho.
  - intros r <- Hr. destruct (validate_from t 1 ops); [done| |];
      destruct Hs as (k & op & Hk & Ho & Hp); exists k, op; rewrite Nat.add_comm;
      (split; [done|]; split; [done|]; intros k' op'; rewrite Nat.add_comm; apply Hp).
Qed.

Lemma validation_meaning_witness :
  validateOperations (λ k _, k) [mk_operation [] [] (u "a") m_delete [] false [] [] false []] = Passes.
Proof.
  refine (proj2 (proj1 (validation_meaning (λ k _, k)
    [mk_operation [] [] (u "a") m_delete [] false [] [] false []])) _).
  intros [|k] op H; [|discriminate H]. injection H as <-.
  split; [|reflexivity]. unfold fields_filled. rewrite !has_mode_spec. repeat split; discriminate.
Defined.
