(* ===== verification/ParamOverrideTypes.v ===== *)
(** * Parameter override editor: the type of what it writes
    A small language of JSON types, the schema of each mode of an operation, and
    the theorem that the text the editor saves is the text of operations that
    have their schema.  The schemas are written by hand, field by field, and not
    computed from MODE_META. *)

From stdpp Require Import base numbers option strings sets list.
From S2P Require Import Prelude JsString JsNumber JsValue Json ParamOverride ParamOverrideLaws.

(** ** Types of JSON values *)

(** [TName]: a trimmed text that is not empty.  [TTrue]: the literal true.
    [TTag]: one of some texts.  [TRows]: a non-empty list of objects whose
    properties are all declared; the boolean marks the required ones. *)
Inductive ty :=
  | TName
  | TTrue
  | TAny
  | TTag (texts : list jsstr)
  | TRows (fs : list (string * (bool * ty))).

Definition schema : Type := list (string * (bool * ty)).

Fixpoint has_type (t : ty) (v : value) : bool :=
  match t, v with
  | TName, VStr s => bool_decide (trim s = s) && str_truthy s
  | TTrue, VBool b => b
  | TAny, VUndef => false
  | TAny, _ => true
  | TTag l, VStr s => bool_decide (s ∈ l)
  | TRows fs, VArr l =>
      bool_decide (l ≠ []) && forallb (λ x, match x with
        | VObj o =>
            forallb (λ kv, existsb (λ f, bool_decide (kv.1 = u f.1) && has_type f.2.2 kv.2) fs) o
            && forallb (λ f, negb f.2.1 || negb (is_undef (prop (u f.1) o))) fs
        | _ => false
        end) l
  | _, _ => false
  end.

(** A property is declared with the type of its value. *)
Definition declared (fs : schema) (kv : jsstr * value) : bool :=
  existsb (λ f, bool_decide (kv.1 = u f.1) && has_type f.2.2 kv.2) fs.

(** A required property is there. *)
Definition provided (fs : schema) (o : props) : bool :=
  forallb (λ f, negb f.2.1 || negb (is_undef (prop (u f.1) o))) fs.

Definition conforms (fs : schema) (o : props) : bool := forallb (declared fs) o && provided fs o.

Definition required (k : string) (t : ty) : string * (bool * ty) := (k, (true, t)).
Definition optional (k : string) (t : ty) : string * (bool * ty) := (k, (false, t)).

(** ** The schemas *)

Definition condition_schema : schema :=
  [required "path" TName;
   required "mode" (TTag (map u ["full"; "prefix"; "suffix"; "contains"; "gt"; "gte"; "lt"; "lte"]));
   required "value" TAny; optional "invert" TTrue; optional "pass_missing_key" TTrue].

(** The fields of every mode. *)
Definition common (m : op_mode) : schema :=
  [required "mode" (TTag [mode_text m]); optional "description" TName;
   optional "conditions" (TRows condition_schema); optional "logic" (TTag [u "AND"; u "OR"])].

(** A stray target is written by the modes that do not use one. *)
Definition own_fields (m : op_mode) : schema :=
  match m with
  | m_delete | m_trim_space | m_to_lower | m_to_upper | m_delete_header =>
      [required "path" TName; optional "to" TName]
  | m_set | m_append | m_prepend | m_set_header =>
      [required "path" TName; required "value" TAny; optional "keep_origin" TTrue; optional "to" TName]
  | m_trim_prefix | m_trim_suffix | m_ensure_prefix | m_ensure_suffix =>
      [required "path" TName; required "value" TAny; optional "to" TName]
  | m_replace | m_regex_replace => [required "path" TName; required "from" TName; optional "to" TName]
  | m_copy | m_move | m_sync_fields => [required "from" TName; required "to" TName]
  | m_copy_header | m_move_header =>
      [required "from" TName; required "to" TName; optional "keep_origin" TTrue]
  | m_return_error => [required "value" TAny; optional "to" TName]
  | m_prune_objects => [optional "path" TName; required "value" TAny; optional "to" TName]
  | m_pass_headers => [required "value" TAny; optional "keep_origin" TTrue; optional "to" TName]
  end.

Definition mode_schema (m : op_mode) : schema := common m ++ own_fields m.

(** An operation has the schema of its mode, and a connective exactly when it has
    conditions. *)
Definition typed_operation (m : op_mode) (v : value) : Prop :=
  ∃ o, v = VObj o ∧ conforms (mode_schema m) o = true ∧
    (prop (u "logic") o = VUndef ↔ prop (u "conditions") o = VUndef).

(** ** Lemmas *)

Lemma has_type_name s : trim s ≠ [] → has_type TName (VStr (trim s)) = true.
Proof.
  intros H. apply str_truthy_true in H. simpl. rewrite H, bool_decide_true; [done|].
  apply trimmed_trim.
Qed.

Lemma json_parse_defined s : json_parse s ≠ Some VUndef.
Proof.
  unfold json_parse, json_fuel. cbn [p_value]. unfold p_scalar. intros H.
  repeat case_match; simplify_eq.
Qed.

Lemma parseLooseValue_defined s : has_type TAny (parseLooseValue s) = true.
Proof.
  unfold parseLooseValue. pose proof (json_parse_defined s) as H.
  destruct (trim s); [done|]. destruct (json_parse s) as [[]|]; done.
Qed.

Lemma has_type_rows fs l :
  l ≠ [] → Forall (λ v, ∃ o, v = VObj o ∧ conforms fs o = true) l → has_type (TRows fs) (VArr l) = true.
Proof.
  intros Hl H. cbn [has_type]. rewrite bool_decide_true by done. apply forallb_forall.
  intros v Hv. rewrite Forall_forall in H. apply list_elem_of_In in Hv.
  destruct (H v Hv) as (o & -> & Ho). exact Ho.
Qed.

Lemma forallb_set (f : jsstr * value → bool) k v o :
  f (k, v) = true → forallb f o = true → forallb f (set k v o) = true.
Proof.
  intros Hv Ho. unfold set. destruct (get k o); induction o as [|[k' v'] o IH]; simpl in *.
  - done.
  - apply andb_true_iff in Ho as [H1 H2]. case_decide; subst; simpl; rewrite ?Hv, ?H1, ?H2; auto.
  - by rewrite Hv.
  - apply andb_true_iff in Ho as [H1 H2].
    destruct (key_before k k'); simpl; rewrite ?Hv, ?H1, ?H2; simpl; auto.
Qed.

Lemma declared_put fs b k v o :
  (b = true → declared fs (u k, v) = true) → forallb (declared fs) o = true →
  forallb (declared fs) (put b k v o) = true.
Proof. unfold put. destruct b; [|done]. intros H ?. apply forallb_set; auto. Qed.

Lemma declared_in fs k req t v :
  (k, (req, t)) ∈ fs → has_type t v = true → declared fs (u k, v) = true.
Proof.
  intros Hin Hv. apply existsb_exists. exists (k, (req, t)).
  split; [by apply list_elem_of_In|]. simpl. by rewrite bool_decide_true, Hv.
Qed.

Lemma condition_typed c v :
  buildConditionPayload c = Some v → ∃ o, v = VObj o ∧ conforms condition_schema o = true.
Proof.
  unfold buildConditionPayload. intros H. pose proof (has_type_name (c_path c)) as Hp.
  pose proof (parseLooseValue_defined (c_value_text c)) as Hv.
  revert Hp Hv H. generalize (parseLooseValue (c_value_text c)), (trim (c_path c)).
  intros w p Hp Hv H. destruct p as [|x p]; [done|]. injection H as <-. eexists. split; [done|].
  specialize (Hp ltac:(done)). revert Hp. generalize (x :: p). intros s Hs. clear p x.
  unfold conforms. apply andb_true_iff. split.
  - destruct (c_invert c), (c_pass_missing_key c); cbn [app forallb];
      rewrite (declared_in condition_schema "path" true TName), (declared_in condition_schema "value" true TAny)
        by (done || (unfold condition_schema; set_solver));
      by destruct (c_mode c).
  - unfold provided, condition_schema, required, optional. cbn [forallb]. simpl fst. simpl snd.
    cbn [app]. read_props. by destruct w.
Qed.

(** [fs] declares the field [k] with the type [t], required or not. *)
Definition has_field (fs : schema) (k : string) (t : ty) : Prop := ∃ req, (k, (req, t)) ∈ fs.

Lemma declared_field fs k t v : has_field fs k t → has_type t v = true → declared fs (u k, v) = true.
Proof. intros [req H]. by apply (declared_in _ _ req t). Qed.

Ltac in_schema :=
  first [ exists true; unfold mode_schema, common, own_fields, required, optional; set_solver
        | exists false; unfold mode_schema, common, own_fields, required, optional; set_solver ].

(** How the table of the modes and the schemas fit together. *)
Lemma schema_fields m :
  (meta_path (MODE_META m) = true → has_field (mode_schema m) "path" TName) ∧
  (meta_pathOptional (MODE_META m) = true → has_field (mode_schema m) "path" TName) ∧
  (meta_value (MODE_META m) = true → has_field (mode_schema m) "value" TAny) ∧
  (meta_keepOrigin (MODE_META m) = true → has_field (mode_schema m) "keep_origin" TTrue) ∧
  (meta_from (MODE_META m) = true → has_field (mode_schema m) "from" TName) ∧
  (meta_pathAlias (MODE_META m) = true → has_field (mode_schema m) "from" TName) ∧
  has_field (mode_schema m) "to" TName.
Proof. destruct m; split_and!; intros; try discriminate; in_schema. Qed.

Lemma common_fields m :
  has_field (mode_schema m) "mode" (TTag [mode_text m]) ∧
  has_field (mode_schema m) "description" TName ∧
  has_field (mode_schema m) "conditions" (TRows condition_schema) ∧
  has_field (mode_schema m) "logic" (TTag [u "AND"; u "OR"]).
Proof. split_and!; in_schema. Qed.

Lemma has_type_filled s : str_truthy (trim s) = true → has_type TName (VStr (trim s)) = true.
Proof. intros H%str_truthy_true. by apply has_type_name. Qed.

Lemma fields_declared op :
  fields_filled op → forallb (declared (mode_schema (mode op))) (operation_fields op) = true.
Proof.
  intros (Hp & Hf & Ht & _). unfold operation_fields. cbv zeta.
  destruct (schema_fields (mode op)) as (Sp & So & Sv & Sk & Sf & Sa & St).
  destruct (common_fields (mode op)) as (Cm & Cd & _ & _).
  destruct (mode_tables (mode op)) as (Tf & Tt & _).
  rewrite has_mode_spec in Hf, Ht.
  repeat apply declared_put; rewrite ?andb_true_iff.
  - intros [[Ha _] Hb]. apply (declared_field _ _ TName); auto using has_type_filled.
  - intros [[Ha _] Hb]. apply (declared_field _ _ TName); auto using has_type_filled.
  - intros Ha. apply (declared_field _ _ TName); auto using has_type_name.
  - intros [_ Hb]. apply (declared_field _ _ TName); auto using has_type_filled.
  - intros Ha. apply (declared_field _ _ TName); auto using has_type_name.
  - intros [Ha _]. by apply (declared_field _ _ TTrue); auto.
  - intros Ha. apply (declared_field _ _ TAny); auto using parseLooseValue_defined.
  - intros [Ha Hb]. apply (declared_field _ _ TName); auto using has_type_filled.
  - intros Ha. apply (declared_field _ _ TName); auto using has_type_name.
  - intros Ha. apply (declared_field _ _ TName); auto using has_type_filled.
  - cbn [forallb]. rewrite andb_true_r. apply (declared_field _ _ _ _ Cm). simpl.
    by rewrite bool_decide_true by set_solver.
Qed.

Lemma conditions_typed op :
  Forall (λ v, ∃ o, v = VObj o ∧ conforms condition_schema o = true)
    (omap buildConditionPayload (conditions op)).
Proof.
  apply Forall_forall. intros v (c & _ & H)%list_elem_of_omap. by apply condition_typed in H.
Qed.

Lemma payload_declared op :
  fields_filled op → forallb (declared (mode_schema (mode op))) (operation_payload op) = true.
Proof.
  intros H%fields_declared. unfold operation_payload. pose proof (conditions_typed op) as Hc.
  destruct (common_fields (mode op)) as (_ & _ & Cc & Cl).
  destruct (omap buildConditionPayload (conditions op)) as [|v l]; [done|].
  apply declared_put; [|apply declared_put]; [intros _..|done].
  - apply (declared_field _ _ _ _ Cl). simpl. by destruct (logic_and op).
  - apply (declared_field _ _ _ _ Cc). by apply has_type_rows.
Qed.

Lemma defined_str_prop k o s : str_prop k o = s → s ≠ [] → is_undef (prop (u k) o) = false.
Proof. unfold str_prop, string_or_empty. destruct (prop (u k) o); naive_solver. Qed.

Lemma provided_required fs o :
  (∀ k t, (k, (true, t)) ∈ fs → is_undef (prop (u k) o) = false) → provided fs o = true.
Proof.
  intros H. apply forallb_forall. intros [k [[] t]] Hin; simpl; [|done].
  rewrite (H k t); [done|by apply list_elem_of_In].
Qed.

(** The required fields of a schema are among those of the mode. *)
Lemma schema_required m k t :
  (k, (true, t)) ∈ mode_schema m →
  k = "mode"%string ∨ (k = "path"%string ∧ meta_path (MODE_META m) = true) ∨
  (k = "value"%string ∧ meta_value (MODE_META m) = true) ∨
  (k = "from"%string ∧ meta_from (MODE_META m) = true) ∨
  (k = "to"%string ∧ meta_to (MODE_META m) = true).
Proof.
  unfold mode_schema, common, required, optional.
  destruct m; cbn [app own_fields]; unfold required, optional; rewrite !elem_of_cons, elem_of_nil; naive_solver.
Qed.

Lemma alias_filled op s : s ≠ [] → alias op s ≠ [].
Proof. unfold alias. by destruct (meta_pathAlias _), s. Qed.

Lemma payload_provided op :
  fields_filled op → provided (mode_schema (mode op)) (operation_payload op) = true.
Proof.
  intros (Hp & Hf & Ht & _). apply provided_required. intros k t Hk%schema_required.
  destruct (payload_fields op) as (_ & Ep & Em & Ev), (payload_targets op) as (_ & Ef & Et).
  destruct (mode_tables (mode op)) as (Tf & Tt & _). rewrite has_mode_spec in Hf, Ht.
  destruct Hk as [->|[[-> H]|[[-> H]|[[-> H]|[-> H]]]]].
  - by rewrite Em.
  - rewrite H in Ep. simpl in Ep. eapply defined_str_prop; [exact Ep|]. auto.
  - rewrite Ev, H. pose proof (parseLooseValue_defined (value_text op)). by destruct (parseLooseValue _).
  - rewrite H in Ef. eapply defined_str_prop; [exact Ef|]. apply alias_filled; auto.
  - eapply defined_str_prop; [exact Et|]. apply alias_filled; auto.
Qed.

Lemma payload_typed op :
  fields_filled op → typed_operation (mode op) (VObj (operation_payload op)).
Proof.
  intros H. exists (operation_payload op). split; [done|]. split.
  - unfold conforms. by rewrite payload_declared, payload_provided.
  - destruct (payload_conditions op) as [-> ->]. by destruct (omap _ _).
Qed.

(** ** Property *)

(** C24: what is saved is well typed.  The text that the visual editor saves is that
    of an object with the single property [operations], a list with one entry for
    each operation that is not blank, in order; the entry of an operation has the
    schema of its mode: every required property is there, there is no property the
    schema does not declare, every property has its type (names are trimmed and
    not empty, flags are only ever true, conditions are a non-empty list of
    well-typed conditions), and the connective is written exactly with the
    conditions. *)
Theorem saved_text_typed t ops text :
  (∀ key line, t key line ≠ []) →
  buildOperationsJson t ops true = Text text → text ≠ [] →
  ∃ l, text = ser gap2 [] (VObj [(u "operations", VArr l)]) ∧ l ≠ [] ∧
    Forall2 (λ op v, typed_operation (mode op) v) (nonblank ops) l.
Proof.
  intros Ht Hb Hne. destruct (saved_text t ops text) as (Hf & Hv & ->); [done..|].
  exists (map (λ op, VObj (operation_payload op)) (nonblank ops)). split_and!; [done|by destruct (nonblank ops)|].
  apply Forall2_fmap_r, Forall_Forall2_diag, Forall_forall. intros op Hop.
  by apply payload_typed, (validated_fields t (nonblank ops)).
Qed.

Lemma saved_text_typed_witness :
  let ops := [mk_operation (u "a") (u " note ") (u " temperature ") m_set (u "0.7") true [] [] true
    [mk_condition (u "b") (u "model") c_prefix (u "openai/") false true];
    mk_operation (u "c") [] [] m_copy_header [] true (u "X-A") (u "X-B") false []] in
  ∃ text l, text = ser gap2 [] (VObj [(u "operations", VArr l)]) ∧ l ≠ [] ∧
    Forall2 (λ op v, typed_operation (mode op) v) (nonblank ops) l.
Proof.
  intros ops. eexists _. refine (saved_text_typed (λ k _, u "!" ++ k) ops _ _ _ _).
  - discriminate.
  - vm_compute. reflexivity.
  - discriminate.
Defined.
