(* ===== verification/ParamOverrideForms.v ===== *)
(** * Parameter override editor: reordering and the forms of single modes
    Reordering by drag and drop, the forms of return_error, prune_objects and
    sync_fields, and the built-in templates. *)

From Stdlib Require Import SpecFloat.
From stdpp Require Import base numbers option strings sets list.
From S2P Require Import Prelude JsString JsNumber JsValue Json ParamOverride ParamOverrideLaws.

(** ** Reordering *)

Lemma find_id_Some i l k :
  find_id i l = Some k →
  ∃ l1 x l2, l = l1 ++ x :: l2 ∧ length l1 = k ∧ id x = i ∧ i ∉ map id l1.
Proof.
  revert k. induction l as [|x l IH]; intros k H; simpl in H; [done|].
  case_decide as Hx; simplify_eq.
  - exists [], x, l. repeat split; [done..|]. simpl. apply not_elem_of_nil.
  - destruct (find_id i l) as [k'|]; simplify_eq/=.
    destruct (IH k' eq_refl) as (l1 & y & l2 & -> & <- & Hy & Hn).
    exists (x :: l1), y, l2. repeat split; [done..|]. simpl. by apply not_elem_of_cons.
Qed.

Lemma find_id_None i l : find_id i l = None ↔ i ∉ map id l.
Proof.
  induction l as [|x l IH]; simpl; [split; [intros _; apply not_elem_of_nil|done]|].
  case_decide as Hx.
  - split; [done|]. intros H. exfalso. apply H. subst. by left.
  - rewrite fmap_None, IH, not_elem_of_cons. naive_solver.
Qed.

Lemma insert_at_app {A} (l1 l2 : list A) x : insert_at (length l1) x (l1 ++ l2) = l1 ++ x :: l2.
Proof. unfold insert_at. by rewrite take_app_length, drop_app_length. Qed.

Lemma insert_at_S_app {A} (l1 l2 : list A) x y :
  insert_at (S (length l1)) x (l1 ++ y :: l2) = l1 ++ y :: x :: l2.
Proof.
  unfold insert_at. rewrite (cons_middle y l1 l2), (app_assoc l1 [y] l2).
  replace (S (length l1)) with (length (l1 ++ [y])) by (rewrite length_app; simpl; lia).
  by rewrite take_app_length, drop_app_length, <- app_assoc.
Qed.

Lemma without_id (i : jsstr) l1 x l2 :
  id x = i → NoDup (map id (l1 ++ x :: l2)) → filter (λ o, id o ≠ i) (l1 ++ x :: l2) = l1 ++ l2.
Proof.
  intros Hx Hnd. rewrite map_app in Hnd. simpl in Hnd.
  assert (∀ l, i ∉ map id l → filter (λ o, id o ≠ i) l = l) as Hf.
  { intros l. induction l as [|y l IH]; [done|]. simpl. intros [H1 H2]%not_elem_of_cons.
    rewrite filter_cons_True by done. by rewrite IH. }
  apply NoDup_app in Hnd as (_ & H1 & [H2 _]%NoDup_cons).
  rewrite filter_app, filter_cons_False by (intros H; by apply H).
  rewrite !Hf; [done|by subst|]. intros Hi. apply (H1 i Hi). subst. by left.
Qed.

(** The three ways a drop is ignored. *)
Definition drop_ignored (ops : list operation) (sourceId targetId : jsstr) : Prop :=
  sourceId = [] ∨ targetId = [] ∨ sourceId = targetId ∨
  sourceId ∉ map id ops ∨ targetId ∉ map id ops.

Lemma reorder_cases ops sourceId targetId after :
  (drop_ignored ops sourceId targetId ∧ reorderOperations ops sourceId targetId after = ops) ∨
  (∃ l1 moved l2 k1 target k2,
     ops = l1 ++ moved :: l2 ∧ id moved = sourceId ∧ l1 ++ l2 = k1 ++ target :: k2 ∧
     id target = targetId ∧ sourceId ≠ targetId ∧
     reorderOperations ops sourceId targetId after =
       k1 ++ (if after then [target; moved] else [moved; target]) ++ k2).
Proof.
  unfold reorderOperations, drop_ignored.
  destruct sourceId as [|s0 sr]; [by left; auto|]. destruct targetId as [|t0 tr]; [by left; auto|].
  simpl str_truthy. cbn [negb orb].
  case_bool_decide as Est; [by left; auto|].
  destruct (find_id (s0 :: sr) ops) as [k|] eqn:Es.
  2: { left. apply find_id_None in Es. auto 6. }
  apply find_id_Some in Es as (l1 & moved & l2 & -> & <- & Hm & _).
  rewrite list_lookup_middle by done. rewrite delete_middle.
  destruct (find_id (t0 :: tr) (l1 ++ l2)) as [k|] eqn:Et.
  2: { left. apply find_id_None in Et. split; [|done]. do 4 right. intros Hin. apply Et.
       rewrite map_app in Hin |- *. apply elem_of_app. apply elem_of_app in Hin as [?|Hin]; [by left|].
       right. simpl in Hin. apply elem_of_cons in Hin as [E|?]; [congruence|done]. }
  apply find_id_Some in Et as (k1 & target & k2 & E & <- & Ht & _). right.
  exists l1, moved, l2, k1, target, k2. rewrite E.
  repeat (split; [done|]). destruct after; [by rewrite insert_at_S_app | by rewrite insert_at_app].
Qed.

(** dropping an operation on another one moves it next to that one, before or
    after as shown, and keeps the order of all the others; a drop whose source or
    target is unknown, empty or the same changes nothing.  No operation is lost or
    duplicated. *)
Theorem reorder_meaning ops sourceId targetId after :
  reorderOperations ops sourceId targetId after ≡ₚ ops ∧
  (reorderOperations ops sourceId targetId after = ops ∧ drop_ignored ops sourceId targetId ∨
   (NoDup (map id ops) →
    ∃ moved target k1 k2, id moved = sourceId ∧ id target = targetId ∧ moved ∈ ops ∧
     filter (λ o, id o ≠ sourceId) ops = k1 ++ target :: k2 ∧
     reorderOperations ops sourceId targetId after =
       k1 ++ (if after then [target; moved] else [moved; target]) ++ k2)).
Proof.
  destruct (reorder_cases ops sourceId targetId after)
    as [[Hi ->]|(l1 & moved & l2 & k1 & target & k2 & -> & Hm & E & Ht & Hne & ->)].
  - split; [done|]. by left.
  - split.
    + rewrite <- (Permutation_middle l1), E. destruct after; simpl; solve_Permutation.
    + right. intros Hnd. exists moved, target, k1, k2. repeat (split; [done|]).
      split; [set_solver|]. split; [|done]. by rewrite without_id, E.
Qed.

(** ** The forms *)

(** the form of sync_fields and its text agree: the text written for a target with
    a key reads back as that target. *)
Theorem sync_target_roundtrip target :
  trim (sync_key target) ≠ [] →
  parseSyncTargetSpec (buildSyncTargetSpec target) = mk_sync (sync_header target) (trim (sync_key target)).
Proof.
  intros Hk. unfold buildSyncTargetSpec.
  pose proof (trim_idemp (sync_key target)) as Ht. destruct (trim (sync_key target)) as [|c k] eqn:Ek; [done|].
  assert (∃ a p, (if sync_header target then u "header" else u "json") ++ u ":" ++ c :: k = a :: p ++ 58%N :: c :: k ∧
    58%N ∉ a :: p ∧ is_ws a = false ∧ bool_decide (ascii_lower (trim (a :: p)) = u "header") = sync_header target)
    as (a & p & -> & Hp & Ha & Hd).
  { destruct (sync_header target).
    - exists 104%N, [101; 97; 100; 101; 114]%N. repeat split. vm_compute. set_solver.
    - exists 106%N, [115; 111; 110]%N. repeat split. vm_compute. set_solver. }
  unfold parseSyncTargetSpec.
  assert (trim (a :: p ++ 58%N :: c :: k) = a :: p ++ 58%N :: c :: k) as ->.
  { apply trim_id; [done|].
    replace (a :: p ++ 58%N :: c :: k) with ((a :: p ++ [58%N]) ++ c :: k) by (simpl; by rewrite <- app_assoc).
    rewrite rev_app_distr. apply head_out_app.
    - simpl. by intros [_ ?]%app_eq_nil.
    - rewrite <- Ht at 1. unfold trim. rewrite rev_involutive. apply trim_start_head. }
  change (a :: p ++ 58%N :: c :: k) with ((a :: p) ++ 58%N :: c :: k).
  rewrite index_of_app, take_app_length by done.
  replace (drop (S (length (a :: p))) ((a :: p) ++ 58%N :: c :: k)) with (c :: k)
    by (rewrite cons_middle, app_assoc, <- (drop_app_length ((a :: p) ++ [58%N]) (c :: k)) at 1;
        rewrite length_app; simpl; by rewrite Nat.add_1_r).
  by rewrite Hd, Ht.
Qed.

Lemma sync_target_roundtrip_witness :
  parseSyncTargetSpec (buildSyncTargetSpec (mk_sync true (u " X-Session "))) = mk_sync true (u "X-Session").
Proof. refine (sync_target_roundtrip (mk_sync true (u " X-Session ")) _). vm_compute. discriminate. Defined.

(** *** return_error *)

Lemma status_codes_all : forallb (λ i, let x := num_of_Z (Z.of_nat i + 100) in
  bool_decide (num_to_Z x = Some (Z.of_nat i + 100)%Z) && is_finite x && num_ok x) (seq 0 500) = true.
Proof. vm_compute. reflexivity. Qed.

Lemma status_code_num z :
  (100 <= z <= 599)%Z → num_to_Z (num_of_Z z) = Some z ∧ json_ok (VNum (num_of_Z z)) = true.
Proof.
  intros Hz. pose proof status_codes_all as H. rewrite forallb_forall in H.
  specialize (H (Z.to_nat (z - 100))). rewrite in_seq in H. specialize (H ltac:(lia)). cbv zeta in H.
  replace (Z.of_nat (Z.to_nat (z - 100)) + 100)%Z with z in H by lia. bool_simp.
  split; [done|]. simpl. by rewrite H1, H0.
Qed.

Lemma status_code_of_range z : (100 <= z <= 599)%Z → status_code_of (num_of_Z z) = num_of_Z z.
Proof.
  intros Hz. unfold status_code_of. rewrite (proj1 (status_code_num z Hz)).
  by rewrite (proj2 (Z.leb_le 100 z)), (proj2 (Z.leb_le z 599)) by lia.
Qed.

(** Reading an object that was written. *)
Lemma parse_written_object o : json_ok (VObj o) = true →
  trim (ser [] [] (VObj o)) = ser [] [] (VObj o) ∧
  json_parse (ser [] [] (VObj o)) = Some (VObj o) ∧ ser [] [] (VObj o) ≠ [].
Proof.
  intros Ho. split; [apply ser_object_trim; right; by eexists|].
  split; [exact (codec_roundtrip (Codec := json_codec0) _ Ho)|].
  intros E. apply (ser_nonblank [] []) in Ho. by rewrite E in Ho.
Qed.

Lemma or_text_str s : trimmed s → or_text (VStr s) = Some s.
Proof. intros H. unfold or_text, value_or. simpl. destruct s; simpl; by rewrite ?H. Qed.

(** the advanced form of return_error and its JSON text agree: a draft whose
    texts are trimmed and whose status is an HTTP code reads back unchanged. *)
Theorem return_error_roundtrip m z c ty skip :
  trimmed m → trimmed c → trimmed ty → (100 <= z <= 599)%Z →
  let d := mk_re m (num_of_Z z) c ty skip false in
  parseReturnErrorDraft (buildReturnErrorValueText d) = d.
Proof.
  intros Hm Hc Ht Hz d. subst d. unfold buildReturnErrorValueText. simpl re_simpleMode.
  cbn [re_message re_statusCode re_code re_type re_skipRetry].
  rewrite Hm, Hc, Ht, status_code_of_range by done. destruct (status_code_num z Hz) as [Hz1 Hz2].
  pose proof (status_code_of_range z Hz) as Hz3. revert Hz1 Hz2 Hz3. generalize (num_of_Z z) as x.
  intros x Hx1 Hx2 Hx3.
  match goal with |- context [ser [] [] (VObj ?o)] => set (payload := o) end.
  assert (json_ok (VObj payload) = true) as Hok.
  { rewrite json_ok_obj. apply andb_true_iff. split.
    - unfold payload. destruct c, ty, skip; vm_compute; reflexivity.
    - unfold payload. destruct c, ty, skip; simpl in *; by rewrite Hx2. }
  destruct (parse_written_object payload Hok) as (E1 & E2 & E3).
  unfold parseReturnErrorDraft. rewrite E1, E2. destruct (ser [] [] (VObj payload)); [done|].
  assert (prop (u "status_code") payload = VNum x ∧ prop (u "message") payload = VStr m ∧
    prop (u "msg") payload = VUndef ∧
    prop (u "code") payload = (if str_truthy c then VStr c else VUndef) ∧
    prop (u "type") payload = (if str_truthy ty then VStr ty else VUndef) ∧
    is_false_value (prop (u "skip_retry") payload) = negb skip) as (P1 & P2 & P3 & P4 & P5 & P6).
  { unfold payload. destruct c, ty, skip; simpl; repeat split; by read_props. }
  rewrite P1, P2, P3, P4, P5, P6. simpl to_number. cbv iota.
  assert (or_text (value_or (VStr m) VUndef) = Some m) as ->.
  { destruct m; [done|]. exact (or_text_str _ Hm). }
  assert (∀ s, trimmed s → or_text (if str_truthy s then VStr s else VUndef) = Some s) as Ho.
  { intros s Hs. destruct s; [done|]. by apply or_text_str. }
  rewrite !Ho by done. rewrite Hx3, negb_involutive. done.
Qed.

Lemma return_error_roundtrip_witness :
  let d := mk_re (u "quota exceeded") (num_of_Z 429) (u "rate_limited") [] false false in
  parseReturnErrorDraft (buildReturnErrorValueText d) = d.
Proof. apply return_error_roundtrip; [reflexivity..|split; discriminate]. Defined.

Lemma trim_app_blank s : trim (s ++ [32%N]) = trim s.
Proof.
  unfold trim. f_equal.
  assert (trim_start (s ++ [32%N]) = match trim_start s with [] => [] | t => t ++ [32%N] end) as ->.
  { unfold trim_start. induction s as [|c s IH]; [done|]. simpl. by destruct (is_ws c). }
  destruct (trim_start s) as [|c t]; [done|]. by rewrite rev_unit.
Qed.

Definition with_message (d : return_error_draft) (m : jsstr) : return_error_draft :=
  mk_re m (re_statusCode d) (re_code d) (re_type d) (re_skipRetry d) (re_simpleMode d).

(** each keystroke in the message of the return_error form re-reads the text
    it wrote, so a blank typed at the end of the message is dropped at once: after
    it the operation's text is the one before it. *)
Theorem return_error_blank_lost d m :
  buildReturnErrorValueText (with_message d (m ++ u " ")) = buildReturnErrorValueText (with_message d m).
Proof.
  unfold buildReturnErrorValueText, with_message. cbn [re_message re_simpleMode re_statusCode re_code re_type re_skipRetry].
  change (u " ") with [32%N]. by rewrite trim_app_blank.
Qed.

(** *** prune_objects *)

(** the prune_objects form cannot hold a rule without a path: adding the empty
    rule of the "add" button to an advanced draft writes the same text, and with
    neither type nor rule the chosen logic and recursion are dropped too. *)
Theorem prune_empty_rule_lost ty or rec rules r :
  trim (c_path r) = [] →
  buildPruneObjectsValueText (mk_prune false ty or rec (rules ++ [r])) =
    buildPruneObjectsValueText (mk_prune false ty or rec rules) ∧
  buildPruneObjectsValueText (mk_prune false [] or rec [r]) =
    buildPruneObjectsValueText (mk_prune false [] false true []).
Proof.
  intros Hr. unfold buildPruneObjectsValueText. cbn [pr_typeText pr_simpleMode pr_rules pr_or pr_recursive].
  assert (∀ l, filter (λ r0, str_truthy (trim (c_path r0)) = true) (l ++ [r]) =
    filter (λ r0, str_truthy (trim (c_path r0)) = true) l) as Hf.
  { intros l. rewrite filter_app, (filter_cons_False _ r) by (by rewrite Hr).
    by rewrite filter_nil, app_nil_r. }
  split; [by rewrite Hf|]. change [r] with ([] ++ [r]). by rewrite Hf.
Qed.

Lemma prune_empty_rule_lost_witness :
  buildPruneObjectsValueText (mk_prune false (u "text") true false [mk_condition [] [] c_full [] false false])
  = buildPruneObjectsValueText (mk_prune false (u "text") true false []).
Proof.
  refine (proj1 (prune_empty_rule_lost (u "text") true false [] (mk_condition [] [] c_full [] false false) _)).
  reflexivity.
Defined.

(** ** The templates *)

Definition template_operations (payload : value) : list value :=
  match payload with
  | VObj o => match prop (u "operations") o with VArr l => l | _ => [] end
  | _ => []
  end.

Definition preset_operations (p : preset) : list value :=
  let '(mk_preset _ _ _ legacy payload) := p in if legacy then [] else template_operations payload.

Lemma validate_forget t line ops : validate_from t line (map forget ops) = validate_from t line ops.
Proof.
  revert line. induction ops as [|op ops IH]; intros line; [done|]. simpl.
  change (validate_operation t line (forget op)) with (validate_operation t line op).
  by destruct (validate_operation t line op).
Qed.

Lemma operation_stable_forget op : operation_stable (forget op) = operation_stable op.
Proof.
  unfold operation_stable. simpl. f_equal. by induction (conditions op) as [|c cs IH]; simpl; rewrite ?IH.
Qed.

(** What a template must satisfy once read. *)
Definition template_ok (t : jsstr → nat → jsstr) (l : list value) : bool :=
  match mapM read_operation l with
  | Some ops =>
      match validateOperations t ops with Passes => true | _ => false end &&
      forallb operation_stable ops && forallb (λ op, negb (isOperationBlank op)) ops
  | None => false
  end.

Lemma templates_all t : forallb (λ p, template_ok t (preset_operations p)) TEMPLATE_PRESET_CONFIG = true.
Proof. vm_compute. reflexivity. Qed.

(** every built-in rule template loads into the editor without an error, passes
    validation, has no blank operation, and only holds values that survive being
    saved and loaded. *)
Theorem templates_valid t clock s p :
  p ∈ TEMPLATE_PRESET_CONFIG →
  ∃ ops s', normalizeOperations clock (preset_operations p) s = (Some ops, s') ∧
    validateOperations t ops = Passes ∧ nonblank ops = ops ∧ forallb operation_stable ops = true.
Proof.
  intros Hp. pose proof (templates_all t) as H. rewrite forallb_forall in H.
  specialize (H p (proj1 (list_elem_of_In _ _) Hp)). unfold template_ok in H.
  pose proof (normalizeOperations_read clock (preset_operations p) s) as Hr.
  destruct (normalizeOperations clock (preset_operations p) s) as [[ops|] s']; simpl in Hr;
    rewrite <- Hr in H; [|done].
  exists ops, s'. unfold validateOperations in *. rewrite validate_forget in H. bool_simp.
  split; [done|]. split; [by destruct (validate_from t 1 ops)|].
  split.
  - apply nonblank_id. apply Forall_forall. intros op Hop. rewrite forallb_forall in H0.
    apply negb_true_iff. rewrite <- isOperationBlank_forget. apply H0.
    apply in_map. by apply list_elem_of_In.
  - apply forallb_forall. intros op Hop. rewrite forallb_forall in H1.
    rewrite <- operation_stable_forget. apply H1. by apply in_map.
Qed.

Lemma templates_valid_witness :
  ∃ ops s', normalizeOperations (λ _, 0%N)
      (template_operations OPERATION_TEMPLATE) 0%N = (Some ops, s') ∧
    validateOperations (λ k _, k) ops = Passes ∧ nonblank ops = ops ∧
    forallb operation_stable ops = true.
Proof.
  apply (templates_valid (λ k _, k) (λ _, 0%N) 0%N
    (mk_preset (u "operations_default") false (u "新格式模板（规则集）") false OPERATION_TEMPLATE)).
  left.
Defined.
