(* ===== verification/ParamOverrideEditor.v ===== *)
(** * Parameter override editor: the component's state and handlers
    [ParamOverrideEditorModal] of [ParamOverrideEditorModal.jsx]: one function per
    handler and effect, run over an explicit state with the seed of the local
    identifiers, and the invariants of every reachable state. *)

From Stdlib Require Import SpecFloat.
From stdpp Require Import base numbers option strings sets list.
From S2P Require Import Prelude JsString JsNumber JsValue Json ParamOverride ParamOverrideLaws ParamOverrideForms.

(** ** State *)

Inductive target := TPath | TFrom | TTo.
#[export] Instance target_eq_dec : EqDecision target.
Proof. solve_decision. Defined.

(** Messages, the text handed to [onSave], and errors no handler catches. *)
Inductive effect :=
  | ShowError (msg : jsstr)
  | ShowSuccess (msg : jsstr)
  | Saved (text : jsstr)
  | Uncaught.

(** What is edited. *)
Record doc := mk_doc {
  visual : bool;            (** [editMode === 'visual'] *)
  legacy : bool;            (** [visualMode === 'legacy'] *)
  legacyValue : jsstr;
  operations : list operation;
  jsonText : jsstr;
  jsonError : jsstr;
}.

(** How it is shown. *)
Record view := mk_view {
  operationSearch : jsstr;
  selectedOperationId : jsstr;
  expandedConditionMap : list (jsstr * list jsstr);
  draggedOperationId : jsstr;
  dragOverOperationId : jsstr;
  dragOverAfter : bool;
  scenarioGroup : bool;     (** [templateGroupKey === 'scenario'] *)
  templatePresetKey : jsstr;
  headerValueExampleVisible : bool;
  fieldGuideVisible : bool;
  fieldGuideTarget : target;
  fieldGuideKeyword : jsstr;
}.

Record editor := mk_editor { doc_of : doc; view_of : view; seed : N; log : list effect }.

Definition on_doc (f : doc → doc) (e : editor) : editor := mk_editor (f (doc_of e)) (view_of e) (seed e) (log e).
Definition on_view (f : view → view) (e : editor) : editor := mk_editor (doc_of e) (f (view_of e)) (seed e) (log e).
Definition emit (x : effect) (e : editor) : editor := mk_editor (doc_of e) (view_of e) (seed e) (x :: log e).

Definition ops (e : editor) : list operation := operations (doc_of e).
Definition selected (e : editor) : jsstr := selectedOperationId (view_of e).

Definition setEditMode b := on_doc (λ d, mk_doc b (legacy d) (legacyValue d) (operations d) (jsonText d) (jsonError d)).
Definition setVisualMode b := on_doc (λ d, mk_doc (visual d) b (legacyValue d) (operations d) (jsonText d) (jsonError d)).
Definition setLegacyValue s := on_doc (λ d, mk_doc (visual d) (legacy d) s (operations d) (jsonText d) (jsonError d)).
Definition setOperations f := on_doc (λ d, mk_doc (visual d) (legacy d) (legacyValue d) (f (operations d)) (jsonText d) (jsonError d)).
Definition setJsonText s := on_doc (λ d, mk_doc (visual d) (legacy d) (legacyValue d) (operations d) s (jsonError d)).
Definition setJsonError s := on_doc (λ d, mk_doc (visual d) (legacy d) (legacyValue d) (operations d) (jsonText d) s).

Definition setOperationSearch s := on_view (λ v, mk_view s (selectedOperationId v) (expandedConditionMap v)
  (draggedOperationId v) (dragOverOperationId v) (dragOverAfter v) (scenarioGroup v) (templatePresetKey v)
  (headerValueExampleVisible v) (fieldGuideVisible v) (fieldGuideTarget v) (fieldGuideKeyword v)).
Definition setSelectedOperationId s := on_view (λ v, mk_view (operationSearch v) s (expandedConditionMap v)
  (draggedOperationId v) (dragOverOperationId v) (dragOverAfter v) (scenarioGroup v) (templatePresetKey v)
  (headerValueExampleVisible v) (fieldGuideVisible v) (fieldGuideTarget v) (fieldGuideKeyword v)).
Definition setExpandedConditionMap f := on_view (λ v, mk_view (operationSearch v) (selectedOperationId v)
  (f (expandedConditionMap v)) (draggedOperationId v) (dragOverOperationId v) (dragOverAfter v)
  (scenarioGroup v) (templatePresetKey v) (headerValueExampleVisible v) (fieldGuideVisible v)
  (fieldGuideTarget v) (fieldGuideKeyword v)).
Definition setDrag dragged over after := on_view (λ v, mk_view (operationSearch v) (selectedOperationId v)
  (expandedConditionMap v) dragged over after (scenarioGroup v) (templatePresetKey v)
  (headerValueExampleVisible v) (fieldGuideVisible v) (fieldGuideTarget v) (fieldGuideKeyword v)).
Definition setTemplate scenario key := on_view (λ v, mk_view (operationSearch v) (selectedOperationId v)
  (expandedConditionMap v) (draggedOperationId v) (dragOverOperationId v) (dragOverAfter v) scenario key
  (headerValueExampleVisible v) (fieldGuideVisible v) (fieldGuideTarget v) (fieldGuideKeyword v)).
Definition setHeaderValueExampleVisible b := on_view (λ v, mk_view (operationSearch v) (selectedOperationId v)
  (expandedConditionMap v) (draggedOperationId v) (dragOverOperationId v) (dragOverAfter v)
  (scenarioGroup v) (templatePresetKey v) b (fieldGuideVisible v) (fieldGuideTarget v) (fieldGuideKeyword v)).
Definition setFieldGuide shown tgt keyword := on_view (λ v, mk_view (operationSearch v) (selectedOperationId v)
  (expandedConditionMap v) (draggedOperationId v) (dragOverOperationId v) (dragOverAfter v)
  (scenarioGroup v) (templatePresetKey v) (headerValueExampleVisible v) shown tgt keyword).

(** Later setters of a handler are written after the earlier ones. *)
Declare Scope js_scope.
Notation "e |> f" := (f e) (at level 50, left associativity, only parsing) : js_scope.
Local Open Scope js_scope.

(** [Record.find(item => item.id === i)] *)
Definition find_op (i : jsstr) (l : list operation) : option operation :=
  match find_id i l with Some k => l !! k | None => None end.

Definition first_id (l : list operation) : jsstr := match l with [] => [] | o :: _ => id o end.

(** ** Patches: the fields an input of the form sets *)

Inductive op_patch :=
  | PDescription (s : jsstr) | PPath (s : jsstr) | PMode (m : op_mode) | PValueText (s : jsstr)
  | PKeepOrigin (b : bool) | PFrom (s : jsstr) | PTo (s : jsstr) | PLogic (and : bool).

(** [{ ...item, ...patch }] *)
Definition patch_op (p : op_patch) (o : operation) : operation :=
  let '(mk_operation i d pa m v k f t l c) := o in
  match p with
  | PDescription s => mk_operation i s pa m v k f t l c
  | PPath s => mk_operation i d s m v k f t l c
  | PMode m => mk_operation i d pa m v k f t l c
  | PValueText s => mk_operation i d pa m s k f t l c
  | PKeepOrigin b => mk_operation i d pa m v b f t l c
  | PFrom s => mk_operation i d pa m v k s t l c
  | PTo s => mk_operation i d pa m v k f s l c
  | PLogic b => mk_operation i d pa m v k f t b c
  end.

Inductive cond_patch :=
  | CPath (s : jsstr) | CMode (m : cond_mode) | CValueText (s : jsstr) | CInvert (b : bool)
  | CPassMissingKey (b : bool).

Definition patch_cond (p : cond_patch) (c : condition) : condition :=
  let '(mk_condition i pa m v inv pass) := c in
  match p with
  | CPath s => mk_condition i s m v inv pass
  | CMode m => mk_condition i pa m v inv pass
  | CValueText s => mk_condition i pa m s inv pass
  | CInvert b => mk_condition i pa m v b pass
  | CPassMissingKey b => mk_condition i pa m v inv b
  end.

Inductive re_patch :=
  | RMessage (s : jsstr) | RStatusCode (x : num) | RCode (s : jsstr) | RType (s : jsstr)
  | RSkipRetry (b : bool) | RSimpleMode (b : bool).

Definition patch_re (d : return_error_draft) (p : re_patch) : return_error_draft :=
  let '(mk_re m s c t sk si) := d in
  match p with
  | RMessage m => mk_re m s c t sk si
  | RStatusCode s => mk_re m s c t sk si
  | RCode c => mk_re m s c t sk si
  | RType t => mk_re m s c t sk si
  | RSkipRetry sk => mk_re m s c t sk si
  | RSimpleMode si => mk_re m s c t sk si
  end.

Inductive pr_patch := PrSimpleMode (b : bool) | PrTypeText (s : jsstr) | PrOr (b : bool) | PrRecursive (b : bool).

Definition patch_pr (p : pr_patch) (d : prune_draft) : prune_draft :=
  let '(mk_prune si t lo re ru) := d in
  match p with
  | PrSimpleMode b => mk_prune b t lo re ru
  | PrTypeText s => mk_prune si s lo re ru
  | PrOr b => mk_prune si t b re ru
  | PrRecursive b => mk_prune si t lo b ru
  end.

(** [prev.map(item => item.id === i ? f(item) : item)] *)
Definition map_op (i : jsstr) (f : operation → operation) (l : list operation) : list operation :=
  map (λ o, if decide (id o = i) then f o else o) l.

Definition with_conditions (f : list condition → list condition) (o : operation) : operation :=
  let '(mk_operation i d pa m v k fr t l c) := o in mk_operation i d pa m v k fr t l (f c).

Section handlers.
Variable clock : N → N.
(** [t(key, { line })]; the message of the engine's own errors. *)
Variable t : jsstr → nat → jsstr.
Variable engine_message : jsstr.
(** [String.prototype.toLowerCase] *)
Variable to_lower : jsstr → jsstr.

(** Run code that makes identifiers; an uncaught throw ends the handler. *)
Definition with_ids {A} (m : M A) (k : A → editor → editor) (e : editor) : editor :=
  match m (seed e) with
  | (Some x, s) => k x (mk_editor (doc_of e) (view_of e) s (log e))
  | (None, s) => emit Uncaught (mk_editor (doc_of e) (view_of e) s (log e))
  end.

Definition fallback (k : operation → editor → editor) : editor → editor :=
  with_ids (createDefaultOperation clock) k.

(** *** Effects *)

(** [useEffect(..., [visible, value])] when the modal is shown. *)
Definition load (v : value) : editor → editor :=
  with_ids (parseInitialState clock v) (λ i e, e
    |> setEditMode (i_visual i) |> setVisualMode (i_legacy i) |> setLegacyValue (i_legacyValue i)
    |> setOperations (λ _, i_operations i) |> setJsonText (i_jsonText i) |> setJsonError (i_jsonError i)
    |> setOperationSearch [] |> setSelectedOperationId (first_id (i_operations i))
    |> setExpandedConditionMap (λ _, []) |> setDrag [] [] false
    |> setTemplate false (if i_legacy i then u "legacy_default" else u "operations_default")
    |> setHeaderValueExampleVisible false |> setFieldGuide false TPath []).

(** [useEffect(..., [operations, selectedOperationId])] *)
Definition fix_selected (e : editor) : editor :=
  match ops e with
  | [] => setSelectedOperationId [] e
  | o :: _ => if bool_decide (selected e ∈ map id (ops e)) then e else setSelectedOperationId (id o) e
  end.

Definition preset_key (p : preset) : jsstr := let '(mk_preset k _ _ _ _) := p in k.
Definition in_group (scenario : bool) (p : preset) : bool :=
  let '(mk_preset _ s _ _ _) := p in Bool.eqb s scenario.
Definition templatePresetOptions (scenario : bool) : list jsstr :=
  map preset_key (filter (λ p, in_group scenario p = true) TEMPLATE_PRESET_CONFIG).

(** [useEffect(..., [templatePresetKey, templatePresetOptions])] *)
Definition fix_preset (e : editor) : editor :=
  let options := templatePresetOptions (scenarioGroup (view_of e)) in
  match options with
  | [] => e
  | k :: _ =>
      if bool_decide (templatePresetKey (view_of e) ∈ options) then e
      else setTemplate (scenarioGroup (view_of e)) k e
  end.

Definition settle (e : editor) : editor := fix_preset (fix_selected e).

(** A render evaluates the initial value of [useState], and the memo of the
    prune draft when the text of the selected operation has changed. *)
Definition render (e : editor) : editor :=
  let e := with_ids (createDefaultOperation clock) (λ _ e, e) e in
  match find_op (selected e) (ops e) with
  | Some o =>
      if decide (mode o = m_prune_objects)
      then with_ids (parsePruneObjectsDraft clock (value_text o)) (λ _ e, e) e else e
  | None => e
  end.

(** *** Derived values *)

Definition operationCount (e : editor) : nat := length (nonblank (ops e)).

Definition searchableText (o : operation) : jsstr :=
  to_lower (join (u " ") (filter (λ s, s ≠ [])
    [description o; mode_text (mode o); path o; from o; to o; value_text o])).

Definition filteredOperations (e : editor) : list operation :=
  match to_lower (trim (operationSearch (view_of e))) with
  | [] => ops e
  | keyword => filter (λ o, includes (searchableText o) keyword = true) (ops e)
  end.

Fixpoint count_mode (m : op_mode) (counts : list (op_mode * nat)) : list (op_mode * nat) :=
  match counts with
  | [] => [(m, 1)]
  | (m', n) :: counts' => if decide (m' = m) then (m', S n) :: counts' else (m', n) :: count_mode m counts'
  end.

Definition topOperationModes (e : editor) : list (op_mode * nat) :=
  take 4 (sort (λ a b, b.2 <=? a.2) (fold_left (λ acc o, count_mode (mode o) acc) (ops e) [])).

Definition visualJson (e : editor) : outcome :=
  buildVisualJson t (legacy (doc_of e)) (legacyValue (doc_of e)) (ops e).

Definition error_text (r : outcome) : jsstr :=
  match r with ErrorMessage m => m | _ => engine_message end.

Definition visualValidationError (e : editor) : jsstr :=
  if visual (doc_of e) then
    match visualJson e with
    | Text _ => []
    | r => str_or (error_text r) (t (u "参数配置有误") 0)
    end
  else [].

(** *** Modes of the editor *)

Definition switchToJsonMode (e : editor) : editor :=
  if visual (doc_of e) then
    match visualJson e with
    | Text s => e |> setJsonText s |> setJsonError [] |> setEditMode false
    | r =>
        let text :=
          if legacy (doc_of e) then legacyValue (doc_of e)
          else match buildOperationsJson t (ops e) false with Text s => s | _ => [] end in
        e |> emit (ShowError (error_text r)) |> setJsonText text
          |> setJsonError (str_or (error_text r) (t (u "参数配置有误") 0)) |> setEditMode false
    end
  else e.

Definition switchToVisualMode (e : editor) : editor :=
  if visual (doc_of e) then e
  else
    match trim (jsonText (doc_of e)) with
    | [] => fallback (λ d e, e |> setVisualMode false |> setOperations (λ _, [d])
        |> setSelectedOperationId (id d) |> setLegacyValue [] |> setJsonError [] |> setEditMode true) e
    | trimmed =>
        match json_parse trimmed with
        | None => emit (ShowError (t (u "参数覆盖必须是合法的 JSON 格式！") 0)) e
        | Some (VObj o) =>
            match prop (u "operations") o with
            | VArr l =>
                with_ids (read_list clock l)
                  (λ next e, e |> setVisualMode false |> setOperations (λ _, next)
                    |> setSelectedOperationId (first_id next) |> setLegacyValue [] |> setJsonError []
                    |> setEditMode true |> setTemplate false (u "operations_default")) e
            | _ =>
                fallback (λ d e, e |> setVisualMode true |> setLegacyValue (ser gap2 [] (VObj o))
                  |> setOperations (λ _, [d]) |> setSelectedOperationId (id d) |> setJsonError []
                  |> setEditMode true |> setTemplate false (u "legacy_default")) e
            end
        | Some _ => emit (ShowError (t (u "参数覆盖必须是合法的 JSON 对象") 0)) e
        end
    end.

(** *** Templates *)

Definition set_legacy (text : jsstr) : editor → editor :=
  fallback (λ d e, e |> setVisualMode true |> setLegacyValue text |> setOperations (λ _, [d])
    |> setSelectedOperationId (id d) |> setExpandedConditionMap (λ _, []) |> setJsonText text
    |> setJsonError [] |> setEditMode true).

Definition fillLegacyTemplate (payload : value) : editor → editor := set_legacy (ser gap2 [] payload).

Definition finalOperations (payload : list value) : M (list operation) :=
  next ← normalizeOperations clock payload;
  match next with [] => d ← createDefaultOperation clock; mret [d] | _ => mret next end.

Definition fillOperationsTemplate (payload : list value) : editor → editor :=
  with_ids (finalOperations payload)
    (λ final e, e |> setVisualMode false |> setOperations (λ _, final)
      |> setSelectedOperationId (first_id final) |> setExpandedConditionMap (λ _, [])
      |> setJsonText (ser gap2 [] (VObj [(u "operations", VArr payload)]))
      |> setJsonError [] |> setEditMode true).

Definition appendLegacyTemplate (payload : props) (e : editor) : editor :=
  let merge current := set_legacy (ser gap2 [] (VObj (spread payload current))) e in
  if legacy (doc_of e) then
    match trim (legacyValue (doc_of e)) with
    | [] => merge []
    | trimmed =>
        match json_parse trimmed with
        | None => emit (ShowError (t (u "当前旧格式 JSON 不合法，无法追加模板") 0)) e
        | Some (VObj current) => merge current
        | Some _ => emit (ShowError (t (u "当前旧格式不是 JSON 对象，无法追加模板") 0)) e
        end
    end
  else merge [].

Definition appendOperationsTemplate (payload : list value) (e : editor) : editor :=
  let existing := if legacy (doc_of e) then [] else nonblank (ops e) in
  with_ids (normalizeOperations clock payload) (λ appended e,
    let next := existing ++ appended in
    e |> setVisualMode false |> setOperations (λ _, match next with [] => appended | _ => next end)
      |> setSelectedOperationId (str_or (first_id next) (first_id appended))
      |> setExpandedConditionMap (λ _, []) |> setLegacyValue [] |> setJsonError [] |> setEditMode true
      |> setJsonText []) e.

Definition clearValue : editor → editor :=
  fallback (λ d e, e |> setVisualMode false |> setLegacyValue [] |> setOperations (λ _, [d])
    |> setSelectedOperationId (id d) |> setExpandedConditionMap (λ _, []) |> setJsonText []
    |> setJsonError [] |> setTemplate false (u "operations_default")).

Definition resetEditorState (e : editor) : editor := clearValue e |> setEditMode true.

Definition getSelectedTemplatePreset (e : editor) : preset :=
  match find (λ p, bool_decide (preset_key p = templatePresetKey (view_of e))) TEMPLATE_PRESET_CONFIG with
  | Some p => p
  | None => mk_preset (u "operations_default") false (u "新格式模板（规则集）") false OPERATION_TEMPLATE
  end.

Definition fillTemplateFromLibrary (e : editor) : editor :=
  let '(mk_preset _ _ _ is_legacy payload) := getSelectedTemplatePreset e in
  if is_legacy then fillLegacyTemplate payload e
  else fillOperationsTemplate (template_operations payload) e.

Definition appendTemplateFromLibrary (e : editor) : editor :=
  let '(mk_preset _ _ _ is_legacy payload) := getSelectedTemplatePreset e in
  if is_legacy then appendLegacyTemplate (match payload with VObj o => o | _ => [] end) e
  else appendOperationsTemplate (template_operations payload) e.

(** *** Editing an operation *)

Definition updateOperation (i : jsstr) (patches : list op_patch) (e : editor) : editor :=
  setOperations (map_op i (λ o, fold_left (λ o p, patch_op p o) patches o)) e.

Definition applyBuiltinField (fieldKey : jsstr) (tgt : target) (e : editor) : editor :=
  match find_op (selected e) (ops e) with
  | None => emit (ShowError (t (u "请先选择一条规则") 0)) e
  | Some o =>
      let meta := MODE_META (mode o) in
      let sync := bool_decide (mode o = m_sync_fields) in
      let key := if sync then buildSyncTargetSpec (mk_sync false fieldKey) else fieldKey in
      match tgt with
      | TPath =>
          if meta_path meta || meta_pathOptional meta || meta_pathAlias meta
          then updateOperation (id o) [PPath fieldKey] e
          else emit (ShowError (t (u "当前规则不支持写入到该位置") 0)) e
      | TFrom =>
          if meta_from meta || meta_pathAlias meta || sync then updateOperation (id o) [PFrom key] e
          else emit (ShowError (t (u "当前规则不支持写入到该位置") 0)) e
      | TTo =>
          if meta_to meta || sync then updateOperation (id o) [PTo key] e
          else emit (ShowError (t (u "当前规则不支持写入到该位置") 0)) e
      end
  end.

Definition openFieldGuide (tgt : target) (e : editor) : editor :=
  setFieldGuide true tgt (fieldGuideKeyword (view_of e)) e.

(** [copy] of the helpers answers whether the clipboard took the text. *)
Definition copyBuiltinField (ok : bool) (e : editor) : editor :=
  if ok then emit (ShowSuccess (t (u "已复制字段：{{name}}") 0)) e
  else emit (ShowError (t (u "复制失败") 0)) e.

Definition formatSelectedOperationValueAsJson (e : editor) : editor :=
  match find_op (selected e) (ops e) with
  | None => e
  | Some o =>
      match trim (value_text o) with
      | [] => e
      | raw =>
          match json_parse raw with
          | None => emit (ShowError (t (u "当前值不是合法 JSON，无法格式化") 0)) e
          | Some v => e |> updateOperation (id o) [PValueText (ser gap2 [] v)]
                        |> emit (ShowSuccess (t (u "JSON 已格式化") 0))
          end
      end
  end.

Definition updateReturnErrorDraft (i : jsstr) (patches : list re_patch) (e : editor) : editor :=
  match find_op i (ops e) with
  | None => e
  | Some o =>
      let draft := fold_left patch_re patches (parseReturnErrorDraft (value_text o)) in
      updateOperation i [PValueText (buildReturnErrorValueText draft)] e
  end.

Definition updatePruneObjectsDraft (i : jsstr) (updater : prune_draft → M prune_draft) (e : editor) : editor :=
  match find_op i (ops e) with
  | None => e
  | Some o =>
      with_ids (draft ← parsePruneObjectsDraft clock (value_text o); updater draft)
        (λ next, updateOperation i [PValueText (buildPruneObjectsValueText next)]) e
  end.

Definition patchPruneDraft (i : jsstr) (patches : list pr_patch) : editor → editor :=
  updatePruneObjectsDraft i (λ d, mret (fold_left (λ d p, patch_pr p d) patches d)).

Definition with_rules (f : list condition → list condition) (d : prune_draft) : prune_draft :=
  mk_prune (pr_simpleMode d) (pr_typeText d) (pr_or d) (pr_recursive d) (f (pr_rules d)).

Definition addPruneRule (i : jsstr) : editor → editor :=
  updatePruneObjectsDraft i (λ d, r ← normalizePruneRule clock (VObj []);
    mret (mk_prune false (pr_typeText d) (pr_or d) (pr_recursive d) (pr_rules d ++ [r]))).

Definition updatePruneRule (i ruleId : jsstr) (patches : list cond_patch) : editor → editor :=
  updatePruneObjectsDraft i (λ d, mret (with_rules (map (λ r,
    if decide (c_id r = ruleId) then fold_left (λ r p, patch_cond p r) patches r else r)) d)).

Definition removePruneRule (i ruleId : jsstr) : editor → editor :=
  updatePruneObjectsDraft i (λ d, mret (with_rules (filter (λ r, c_id r ≠ ruleId)) d)).

(** *** The list of operations *)

Definition addOperation : editor → editor :=
  fallback (λ d e, e |> setOperations (λ l, l ++ [d]) |> setSelectedOperationId (id d)).

Definition resetOperationDragState : editor → editor := setDrag [] [] false.

Definition moveOperation (sourceId targetId : jsstr) (after : bool) (e : editor) : editor :=
  if negb (str_truthy sourceId) || negb (str_truthy targetId) || bool_decide (sourceId = targetId)
  then e
  else e |> setOperations (λ l, reorderOperations l sourceId targetId after)
         |> setSelectedOperationId sourceId.

Definition handleOperationDragStart (i : jsstr) (e : editor) : editor :=
  e |> setDrag i (dragOverOperationId (view_of e)) (dragOverAfter (view_of e))
    |> setSelectedOperationId i.

(** [below] says that the pointer is in the lower half of the item. *)
Definition handleOperationDragOver (i : jsstr) (below : bool) (e : editor) : editor :=
  let dragged := draggedOperationId (view_of e) in
  if negb (str_truthy dragged) || bool_decide (dragged = i) then e
  else setDrag dragged i below e.

(** [data] is [event.dataTransfer.getData('text/plain')]. *)
Definition handleOperationDrop (i data : jsstr) (e : editor) : editor :=
  let v := view_of e in
  let sourceId := str_or (draggedOperationId v) data in
  let after := bool_decide (dragOverOperationId v = i) && dragOverAfter v in
  e |> moveOperation sourceId i after |> resetOperationDragState.

(** What [duplicateOperation] passes to [normalizeOperation]. *)
Definition clone_source (o : operation) : value :=
  VObj [(u "description", VStr (description o)); (u "path", VStr (path o));
    (u "mode", VStr (mode_text (mode o))); (u "value", parseLooseValue (value_text o));
    (u "keep_origin", VBool (keep_origin o)); (u "from", VStr (from o)); (u "to", VStr (to o));
    (u "logic", VStr (logic_text (logic_and o)));
    (u "conditions", VArr (map (λ c, VObj [(u "path", VStr (c_path c));
       (u "mode", VStr (cond_text (c_mode c))); (u "value", parseLooseValue (c_value_text c));
       (u "invert", VBool (c_invert c)); (u "pass_missing_key", VBool (c_pass_missing_key c))])
       (conditions o)))].

(** React may run the updater of [setOperations] at once ([eager]) or with the
    next render; only in the first case is [insertedId] known to the handler. *)
Definition duplicateOperation (i : jsstr) (eager : bool) (e : editor) : editor :=
  match find_id i (ops e) with
  | None => e
  | Some index =>
      match ops e !! index with
      | None => e
      | Some source =>
          with_ids (normalizeOperation clock (clone_source source)) (λ cloned e,
            let e := setOperations (insert_at (S index) cloned) e in
            if eager then setSelectedOperationId (id cloned) e else e) e
      end
  end.

Definition drop_expanded (i : jsstr) : editor → editor := setExpandedConditionMap (del i).

Definition removeOperation (i : jsstr) (e : editor) : editor :=
  if length (ops e) <=? 1
  then fallback (λ d e, e |> setOperations (λ _, [d]) |> drop_expanded i) e
  else e |> setOperations (filter (λ o, id o ≠ i)) |> drop_expanded i.

(** *** Conditions *)

Definition expanded_of (i : jsstr) (m : list (jsstr * list jsstr)) : list jsstr :=
  match get i m with Some l => l | None => [] end.

Definition addCondition (i : jsstr) : editor → editor :=
  with_ids (createDefaultCondition clock) (λ c e,
    e |> setOperations (map_op i (with_conditions (λ l, l ++ [c])))
      |> setExpandedConditionMap (λ m, set i (expanded_of i m ++ [c_id c]) m)).

Definition updateCondition (i conditionId : jsstr) (patches : list cond_patch) : editor → editor :=
  setOperations (map_op i (with_conditions (map (λ c,
    if decide (c_id c = conditionId) then fold_left (λ c p, patch_cond p c) patches c else c)))).

Definition removeCondition (i conditionId : jsstr) (e : editor) : editor :=
  e |> setOperations (map_op i (with_conditions (filter (λ c, c_id c ≠ conditionId))))
    |> setExpandedConditionMap (λ m, set i (filter (λ k, k ≠ conditionId) (expanded_of i m)) m).

Definition handleConditionCollapseChange (i : jsstr) (keys : list jsstr) : editor → editor :=
  setExpandedConditionMap (set i (filter (λ k, k ≠ []) keys)).

Definition expandAllSelectedConditions (e : editor) : editor :=
  match selected e, find_op (selected e) (ops e) with
  | [], _ | _, None => e
  | i, Some o => setExpandedConditionMap (set i (map c_id (conditions o))) e
  end.

Definition collapseAllSelectedConditions (e : editor) : editor :=
  match selected e with
  | [] => e
  | i => setExpandedConditionMap (set i []) e
  end.

(** *** The JSON text *)

Definition handleJsonChange (next : jsstr) (e : editor) : editor :=
  let e := setJsonText next e in
  match trim next with
  | [] => setJsonError [] e
  | trimmed =>
      match json_parse trimmed with
      | None => setJsonError (t (u "JSON格式错误") 0) e
      | Some _ => setJsonError [] e
      end
  end.

Definition formatJson (e : editor) : editor :=
  match trim (jsonText (doc_of e)) with
  | [] => e
  | trimmed =>
      match json_parse trimmed with
      | None => emit (ShowError (t (u "参数覆盖必须是合法的 JSON 格式！") 0)) e
      | Some v => e |> setJsonText (ser gap2 [] v) |> setJsonError []
      end
  end.

Definition json_result (text : jsstr) : outcome :=
  match trim text with
  | [] => Text []
  | trimmed =>
      match json_parse trimmed with
      | None => ErrorMessage (t (u "参数覆盖必须是合法的 JSON 格式！") 0)
      | Some v => Text (ser gap2 [] v)
      end
  end.

Definition handleSave (e : editor) : editor :=
  match if visual (doc_of e) then visualJson e else json_result (jsonText (doc_of e)) with
  | Text s => emit (Saved s) e
  | r => emit (ShowError (error_text r)) e
  end.

(** ** Events and runs *)

Inductive event :=
  | ELoad (v : value) | ERender
  | ESwitchJson | ESwitchVisual | ELegacyValue (s : jsstr) | EJsonChange (s : jsstr) | EFormatJson
  | EFill | EAppend | EReset | EGroup (scenario : bool) | EPreset (key : jsstr)
  | ESearch (s : jsstr) | ESelect (i : jsstr)
  | EUpdate (i : jsstr) (p : list op_patch) | EField (key : jsstr) (tgt : target)
  | EGuide (tgt : target) | ECopy (ok : bool) | EFormatValue
  | EReturnError (i : jsstr) (p : list re_patch) | EPrune (i : jsstr) (p : list pr_patch)
  | EAddRule (i : jsstr) | EUpdateRule (i r : jsstr) (p : list cond_patch) | ERemoveRule (i r : jsstr)
  | EAddOperation | EDuplicate (i : jsstr) (eager : bool) | ERemove (i : jsstr)
  | EDragStart (i : jsstr) | EDragOver (i : jsstr) (below : bool) | EDrop (i data : jsstr) | EDragEnd
  | EAddCondition (i : jsstr) | EUpdateCondition (i c : jsstr) (p : list cond_patch)
  | ERemoveCondition (i c : jsstr) | ECollapse (i : jsstr) (keys : list jsstr)
  | EExpandAll | ECollapseAll | ESave.

Definition handle (ev : event) : editor → editor :=
  match ev with
  | ELoad v => load v
  | ERender => render
  | ESwitchJson => switchToJsonMode
  | ESwitchVisual => switchToVisualMode
  | ELegacyValue s => setLegacyValue s
  | EJsonChange s => handleJsonChange s
  | EFormatJson => formatJson
  | EFill => fillTemplateFromLibrary
  | EAppend => appendTemplateFromLibrary
  | EReset => resetEditorState
  | EGroup b => λ e, setTemplate b (templatePresetKey (view_of e)) e
  | EPreset k => λ e, setTemplate (scenarioGroup (view_of e)) k e
  | ESearch s => setOperationSearch s
  | ESelect i => setSelectedOperationId i
  | EUpdate i p => updateOperation i p
  | EField k tgt => applyBuiltinField k tgt
  | EGuide tgt => openFieldGuide tgt
  | ECopy ok => copyBuiltinField ok
  | EFormatValue => formatSelectedOperationValueAsJson
  | EReturnError i p => updateReturnErrorDraft i p
  | EPrune i p => patchPruneDraft i p
  | EAddRule i => addPruneRule i
  | EUpdateRule i r p => updatePruneRule i r p
  | ERemoveRule i r => removePruneRule i r
  | EAddOperation => addOperation
  | EDuplicate i eager => duplicateOperation i eager
  | ERemove i => removeOperation i
  | EDragStart i => handleOperationDragStart i
  | EDragOver i below => handleOperationDragOver i below
  | EDrop i data => handleOperationDrop i data
  | EDragEnd => resetOperationDragState
  | EAddCondition i => addCondition i
  | EUpdateCondition i c p => updateCondition i c p
  | ERemoveCondition i c => removeCondition i c
  | ECollapse i keys => handleConditionCollapseChange i keys
  | EExpandAll => expandAllSelectedConditions
  | ECollapseAll => collapseAllSelectedConditions
  | ESave => handleSave
  end.

(** One event, then the effects of the render that follows it. *)
Definition step (e : editor) (ev : event) : editor := settle (handle ev e).

(** The state after the first render, from seed [s]. *)
Definition first_state (s : N) : editor :=
  fallback (λ d e, setOperations (λ _, [d]) e)
    (mk_editor (mk_doc true false [] [] [] [])
      (mk_view [] [] [] [] [] false false (u "operations_default") false false TPath []) s []).

Inductive reachable : editor → Prop :=
  | reachable_first s : reachable (settle (first_state s))
  | reachable_step e ev : reachable e → reachable (step e ev).
End handlers.
