(* ===== verification/ParamOverrideInvariants.v ===== *)
(** * Parameter override editor: invariants of the reachable states
    Identifiers stay distinct, the list of operations is never empty and the
    selected operation exists, whatever the user does; and what single handlers do. *)

From Stdlib Require Import SpecFloat.
From stdpp Require Import base numbers option strings sets list.
From S2P Require Import Prelude JsString JsNumber JsValue Json ParamOverride ParamOverrideLaws ParamOverrideForms ParamOverrideEditor.

(** ** Code that only moves the seed forward *)

Definition moves {A} (m : M A) : Prop := ∀ s, (s <= (m s).2)%N.

Lemma moves_ret {A} (x : A) : moves (mret x).
Proof. intros s. simpl. lia. Qed.
Lemma moves_lift {A} (o : option A) : moves (lift o).
Proof. intros s. simpl. lia. Qed.
Lemma moves_bind {A B} (m : M A) (k : A → M B) : moves m → (∀ x, moves (k x)) → moves (m ≫= k).
Proof.
  intros Hm Hk s. unfold mbind, M_bind. specialize (Hm s).
  destruct (m s) as [[x|] s1]; simpl in *; [|done]. specialize (Hk x s1). lia.
Qed.
Lemma moves_try {A} (m h : M A) : moves m → moves h → moves (try_catch m h).
Proof.
  intros Hm Hh s. unfold try_catch. specialize (Hm s).
  destruct (m s) as [[x|] s1]; simpl in *; [done|]. specialize (Hh s1). lia.
Qed.
Lemma moves_mapM {A B} (k : A → M B) l : (∀ x, moves (k x)) → moves (mapM k l).
Proof.
  intros Hk. induction l as [|x l IH]; [apply moves_ret|].
  change (mapM k (x :: l)) with (y ← k x; ys ← mapM k l; mret (M := M) (y :: ys)).
  apply moves_bind; [done|]. intros y. apply moves_bind; [done|]. intros. apply moves_ret.
Qed.
Lemma moves_nextLocalId clock : moves (nextLocalId clock).
Proof. intros s. simpl. lia. Qed.
#[export] Hint Resolve moves_ret moves_lift moves_bind moves_try moves_mapM moves_nextLocalId : js.

Lemma moves_prune_rule clock v : moves (normalizePruneRule clock v).
Proof. unfold normalizePruneRule. auto with js. Qed.
#[export] Hint Resolve moves_prune_rule : js.

Lemma moves_prune_draft clock text : moves (parsePruneObjectsDraft clock text).
Proof.
  unfold parsePruneObjectsDraft, parsePruneObject, where_rules, condition_rules, entry_rules.
  cbv zeta.
  repeat case_match; auto with js;
    apply moves_try; auto with js; repeat (apply moves_bind; [|intros ?]); repeat case_match; auto with js.
Qed.
#[export] Hint Resolve moves_prune_draft : js.

(** ** Lists of operations and their identifiers *)

Section wf.
Variable clock : N → N.

Lemma fresh_weaken s0 s1 s s' l : (s0 <= s)%N → (s' <= s1)%N → fresh clock s s' l → fresh clock s0 s1 l.
Proof.
  intros H0 H1 [Hn Hf]. split; [done|]. intros i Hi. destruct (Hf i Hi) as (n & ? & ->).
  exists n. split; [lia|done].
Qed.

Lemma fresh_sublist s s' l k : sublist l k → fresh clock s s' k → fresh clock s s' l.
Proof.
  intros Hs [Hn Hf]. split; [by eapply sublist_NoDup|]. intros i Hi. apply Hf.
  by eapply elem_of_submseteq, sublist_submseteq.
Qed.

Lemma ops_ids_cons o l : ops_ids (o :: l) = op_ids o ++ ops_ids l.
Proof. done. Qed.
Lemma ops_ids_app l1 l2 : ops_ids (l1 ++ l2) = ops_ids l1 ++ ops_ids l2.
Proof. unfold ops_ids. by rewrite map_app, concat_app. Qed.

Lemma ops_ids_perm l1 l2 : l1 ≡ₚ l2 → ops_ids l1 ≡ₚ ops_ids l2.
Proof.
  induction 1 as [|x l l' _ IH|x y l|l1 l2 l3 _ IH1 _ IH2]; [done| | |by etrans].
  - by rewrite !ops_ids_cons, IH.
  - rewrite !ops_ids_cons. solve_Permutation.
Qed.
#[local] Instance ops_ids_proper : Proper ((≡ₚ) ==> (≡ₚ)) ops_ids.
Proof. intros ???. by apply ops_ids_perm. Qed.

Lemma ops_ids_filter (P : operation → Prop) `{∀ o, Decision (P o)} l :
  sublist (ops_ids (filter P l)) (ops_ids l).
Proof.
  induction l as [|o l IH]; [done|]. rewrite filter_cons. case_decide; rewrite !ops_ids_cons.
  - by apply sublist_app.
  - by apply sublist_inserts_l.
Qed.

Lemma elem_of_ops_ids o l : o ∈ l → id o ∈ ops_ids l.
Proof.
  induction l as [|x l IH]; intros Ho; [by apply elem_of_nil in Ho|].
  rewrite ops_ids_cons. apply elem_of_app. apply elem_of_cons in Ho as [->|Ho]; [left; by left|auto].
Qed.

Lemma map_op_id i f l : (∀ o, op_ids (f o) = op_ids o) → ops_ids (map_op i f l) = ops_ids l.
Proof.
  intros Hf. induction l as [|o l IH]; [done|]. simpl. rewrite !ops_ids_cons, IH.
  by case_decide; rewrite ?Hf.
Qed.

Lemma map_op_absent i f l : i ∉ map id l → map_op i f l = l.
Proof.
  induction l as [|o l IH]; [done|]. simpl. intros [H1 H2]%not_elem_of_cons.
  rewrite decide_False by congruence. by rewrite IH.
Qed.

Lemma ids_sub_ops_ids i l : i ∈ map id l → i ∈ ops_ids l.
Proof. intros (o & -> & Ho)%list_elem_of_fmap. by apply elem_of_ops_ids. Qed.

Lemma op_ids_with_conditions f o : op_ids (with_conditions f o) = id o :: map c_id (f (conditions o)).
Proof. by destruct o. Qed.

(** A new condition adds its identifier at most once. *)
Lemma map_op_add_condition i c l :
  NoDup (ops_ids l) →
  ops_ids (map_op i (with_conditions (λ cs, cs ++ [c])) l) ≡ₚ ops_ids l ∨
  ops_ids (map_op i (with_conditions (λ cs, cs ++ [c])) l) ≡ₚ ops_ids l ++ [c_id c].
Proof.
  induction l as [|o l IH]; intros Hnd; [by left|].
  rewrite ops_ids_cons in Hnd. apply NoDup_app in Hnd as (H1 & H2 & H3). simpl.
  case_decide as Ho.
  - right. rewrite map_op_absent.
    2: { intros Hi%ids_sub_ops_ids. apply (H2 i); [|done]. subst. by left. }
    rewrite !ops_ids_cons, op_ids_with_conditions, map_app. unfold op_ids. simpl.
    rewrite <- !app_assoc. apply perm_skip. apply Permutation_app_head, Permutation_app_comm.
  - rewrite !ops_ids_cons. destruct (IH H3) as [-> | ->]; [by left|right]. by rewrite app_assoc.
Qed.

Lemma map_op_filter_condition i (P : condition → Prop) `{∀ c, Decision (P c)} l :
  sublist (ops_ids (map_op i (with_conditions (filter P)) l)) (ops_ids l).
Proof.
  assert (∀ cs, sublist (map c_id (filter P cs)) (map c_id cs)) as Hs.
  { intros cs. induction cs as [|c cs IH]; [done|]. rewrite filter_cons. simpl.
    case_decide; simpl; [by apply sublist_skip | by apply sublist_cons]. }
  induction l as [|o l IH]; [done|]. simpl. rewrite !ops_ids_cons. apply sublist_app; [|done].
  case_decide; [|done]. rewrite op_ids_with_conditions. by apply sublist_skip.
Qed.

(** ** The invariant *)

Definition ops_wf (l : list operation) (s : N) : Prop := fresh clock 0 s (ops_ids l) ∧ l ≠ [].

Definition wf (e : editor) : Prop := ops_wf (ops e) (seed e).

Lemma ops_wf_mono l s s' : (s <= s')%N → ops_wf l s → ops_wf l s'.
Proof. intros Hs [H1 H2]. split; [|done]. by eapply fresh_weaken. Qed.

Lemma ops_wf_new l s s' : l ≠ [] → fresh clock s s' (ops_ids l) → ops_wf l s'.
Proof. intros H1 H2. split; [|done]. eapply fresh_weaken; [..|done]; lia. Qed.

Lemma wf_with_ids {A} (f : A → list jsstr) (m : M A) k e :
  wf e → takes clock f m →
  (∀ x s', (seed e <= s')%N → fresh clock (seed e) s' (f x) →
     wf (k x (mk_editor (doc_of e) (view_of e) s' (log e)))) →
  wf (with_ids m k e).
Proof.
  intros He Hm Hk. unfold with_ids. destruct (Hm (seed e)) as [Hle Hf].
  destruct (m (seed e)) as [[x|] s']; simpl in *; [by apply Hk; auto|].
  by eapply ops_wf_mono.
Qed.

Lemma takes_moves {A} (m : M A) : moves m → takes clock (λ _, []) m.
Proof. intros Hm s. split; [apply Hm|]. intros. apply fresh_nil. Qed.

Lemma wf_fallback k e :
  wf e → (∀ d s', (seed e <= s')%N → fresh clock (seed e) s' (op_ids d) →
     wf (k d (mk_editor (doc_of e) (view_of e) s' (log e)))) →
  wf (fallback clock k e).
Proof. intros He Hk. eapply wf_with_ids; [done|apply takes_normalizeOperation|done]. Qed.

Lemma ops_wf_single d s s' : fresh clock s s' (op_ids d) → ops_wf [d] s'.
Proof. intros H. apply (ops_wf_new _ s); [done|]. unfold ops_ids. simpl. by rewrite app_nil_r. Qed.

(** Replacing the whole list by one new operation. *)
Lemma wf_fallback_single k e :
  wf e → (∀ d s', ops_wf [d] s' → wf (k d (mk_editor (doc_of e) (view_of e) s' (log e)))) →
  wf (fallback clock k e).
Proof. intros He Hk. apply wf_fallback; [done|]. intros. by eapply Hk, ops_wf_single. Qed.

Lemma takes_default_list : takes clock ops_ids (d ← createDefaultOperation clock; mret [d]).
Proof.
  eapply takes_bind_app; [apply takes_normalizeOperation|]. intros d. exists (λ _, []).
  split; [by apply takes_ret|]. intros y s [= <-]. by rewrite ops_ids_cons.
Qed.

(** The lists that loading and filling build are never empty. *)
Lemma normalizeOperations_nonnil l s x :
  l ≠ [] → (normalizeOperations clock l s).1 = Some x → x ≠ [].
Proof.
  intros Hl H ->. pose proof (normalizeOperations_read clock l s) as Hr. rewrite H in Hr.
  symmetry in Hr. apply length_mapM in Hr. by destruct l.
Qed.

Lemma takes_read_list l : takes clock ops_ids (read_list clock l).
Proof. destruct l; [apply takes_default_list | apply takes_normalizeOperations]. Qed.

Lemma read_list_nonnil l s x : (read_list clock l s).1 = Some x → x ≠ [].
Proof.
  destruct l as [|v l]; [|by apply normalizeOperations_nonnil].
  unfold read_list, mbind, M_bind. destruct (createDefaultOperation clock s) as [[d|] s']; simpl; [|done].
  by intros [= <-].
Qed.

Lemma ops_wf_read_list l s x s' : read_list clock l s = (Some x, s') → ops_wf x s'.
Proof.
  intros E. pose proof (takes_read_list l s) as [_ H]. pose proof (read_list_nonnil l s x) as Hn.
  rewrite E in H, Hn. simpl in *. by eapply ops_wf_new; [apply Hn | apply H].
Qed.

Lemma parseInitialState_wf v s i s' :
  parseInitialState clock v s = (Some i, s') → ops_wf (i_operations i) s'.
Proof.
  intros H.
  assert (∀ (f : operation → init_state), (∀ d, i_operations (f d) = [d]) →
    (d ← createDefaultOperation clock; mret (f d)) s = (Some i, s') → ops_wf (i_operations i) s') as Hd.
  { intros f Hf. unfold mbind, M_bind, mret, M_ret.
    destruct (takes_normalizeOperation clock (VObj [(u "mode", VStr (u "set"))]) s) as [_ Ht].
    unfold createDefaultOperation.
    destruct (normalizeOperation clock _ s) as [[d|] s1]; intros [= <- <-].
    rewrite Hf. by eapply ops_wf_single, Ht. }
  unfold parseInitialState in H. cbv zeta in H.
  destruct (trim _); [by eapply Hd in H|].
  destruct (json_parse _) as [[| | | | | |o]|]; try (by eapply Hd in H).
  destruct (prop (u "operations") o) as [| | | | |vs|]; try (by eapply Hd in H).
  unfold mbind, M_bind in H.
  destruct (read_list clock vs s) as [[x|] s1] eqn:E; [|discriminate H].
  injection H as <- <-. by eapply ops_wf_read_list.
Qed.

Lemma parseInitialState_moves v : moves (parseInitialState clock v).
Proof.
  assert (∀ l, moves (read_list clock l)) as Hr by (intros l s; apply takes_read_list).
  assert (moves (createDefaultOperation clock)) as Hd
    by (intros s; apply (takes_normalizeOperation clock)).
  assert (∀ l, moves (normalizeOperations clock l)) as Hn
    by (intros l s; apply takes_normalizeOperations).
  unfold parseInitialState. cbv zeta. repeat case_match; auto with js.
  all: repeat (apply moves_bind; [|intros ?]); repeat case_match; auto with js.
Qed.

Lemma takes_final_list l : takes clock ops_ids (finalOperations clock l).
Proof.
  eapply takes_bind_app; [apply takes_normalizeOperations|]. intros next.
  exists (λ x, match next with [] => ops_ids x | _ => [] end). split.
  - destruct next; [apply takes_default_list | by apply takes_ret].
  - intros y s. destruct next; [done|]. intros [= <-]. by rewrite app_nil_r.
Qed.

(** *** Every handler keeps the invariant *)

Variable t : jsstr → nat → jsstr.
Variable engine_message : jsstr.

Lemma wf_same e e' : wf e → ops e' = ops e → seed e' = seed e → wf e'.
Proof. unfold wf. by intros H -> ->. Qed.

Lemma wf_load v e : wf e → wf (load clock v e).
Proof.
  intros He. unfold load, with_ids.
  pose proof (parseInitialState_wf v (seed e)) as Hw.
  pose proof (parseInitialState_moves v (seed e)) as Hm.
  destruct (parseInitialState clock v (seed e)) as [[i|] s']; simpl in *.
  - by apply (Hw i).
  - by eapply ops_wf_mono.
Qed.

Lemma wf_switchToVisualMode e : wf e → wf (switchToVisualMode clock t e).
Proof.
  intros He. unfold switchToVisualMode. destruct (visual (doc_of e)); [done|].
  destruct (trim _); [by apply wf_fallback_single|].
  destruct (json_parse _) as [[| | | | | |o]|]; try done.
  destruct (prop (u "operations") o) as [| | | | |vs|]; try (by apply wf_fallback_single).
  unfold with_ids. destruct (takes_read_list vs (seed e)) as [Hle _].
  destruct (read_list clock vs (seed e)) as [[x|] s'] eqn:E; simpl in *.
  - by eapply ops_wf_read_list.
  - by eapply ops_wf_mono.
Qed.

Lemma wf_fillOperationsTemplate l e : l ≠ [] → wf e → wf (fillOperationsTemplate clock l e).
Proof.
  intros Hl He. unfold fillOperationsTemplate, with_ids.
  destruct (takes_final_list l (seed e)) as [Hle Hf].
  destruct (finalOperations clock l (seed e)) as [[x|] s'] eqn:E; cbn [fst snd] in *; [|by eapply ops_wf_mono].
  change (ops_wf x s'). apply (ops_wf_new _ (seed e)); [|by apply Hf]. intros ->.
  unfold finalOperations, mbind, M_bind in E. destruct (normalizeOperations clock l (seed e)) as [[[|y ys]|] s1] eqn:En;
    [|by simplify_eq|by simplify_eq].
  eapply (normalizeOperations_nonnil l (seed e) []); [done| |done]. by rewrite En.
Qed.

Lemma wf_appendOperationsTemplate l e : l ≠ [] → wf e → wf (appendOperationsTemplate clock l e).
Proof.
  intros Hl He. unfold appendOperationsTemplate.
  set (existing := if legacy (doc_of e) then [] else nonblank (ops e)).
  assert (sublist (ops_ids existing) (ops_ids (ops e))) as Hs.
  { unfold existing. destruct (legacy (doc_of e)); [apply sublist_nil_l | apply ops_ids_filter]. }
  unfold with_ids. destruct (takes_normalizeOperations clock l (seed e)) as [Hle Hf].
  pose proof (normalizeOperations_nonnil l (seed e)) as Hn.
  destruct (normalizeOperations clock l (seed e)) as [[x|] s'] eqn:E; simpl in *;
    [|by eapply ops_wf_mono].
  assert (existing ++ x ≠ []) as Hne.
  { intros [_ Hx]%app_eq_nil. subst. by apply (Hn [] Hl eq_refl). }
  unfold wf, ops, ops_wf. simpl. destruct (existing ++ x) eqn:Ex; [done|]. rewrite <- Ex.
  split; [|by rewrite Ex]. rewrite ops_ids_app. apply fresh_app with (seed e); [lia| |by apply Hf].
  eapply fresh_sublist; [done|]. apply He.
Qed.

Lemma map_op_nonnil i f l : l ≠ [] → map_op i f l ≠ [].
Proof. by destruct l. Qed.

Lemma wf_updateOperation i p e : wf e → wf (updateOperation i p e).
Proof.
  intros [H Hl]. split; [|by apply map_op_nonnil]. unfold ops. simpl.
  rewrite map_op_id; [done|]. intros o. revert o. induction p as [|x p IH]; intros o; [done|].
  simpl. rewrite IH. by destruct x, o.
Qed.

Lemma wf_applyBuiltinField k tgt e : wf e → wf (applyBuiltinField t k tgt e).
Proof.
  intros He. unfold applyBuiltinField. repeat case_match; try done; by apply wf_updateOperation.
Qed.

Lemma wf_prune i f e : wf e → (∀ d, moves (f d)) → wf (updatePruneObjectsDraft clock i f e).
Proof.
  intros He Hf. unfold updatePruneObjectsDraft. destruct (find_op i (ops e)) as [o|]; [|done].
  eapply wf_with_ids; [done|apply takes_moves; auto with js|].
  intros d s' Hs _. apply wf_updateOperation. by eapply ops_wf_mono.
Qed.

Lemma wf_addOperation e : wf e → wf (addOperation clock e).
Proof.
  intros He. apply wf_fallback; [done|]. intros d s' Hs Hd. split; unfold ops; simpl.
  - rewrite ops_ids_app. apply fresh_app with (seed e); [lia|apply He|].
    unfold ops_ids. simpl. by rewrite app_nil_r.
  - by intros [_ ?]%app_eq_nil.
Qed.

Lemma ops_wf_perm l l' s : l ≡ₚ l' → ops_wf l s → ops_wf l' s.
Proof.
  intros Hp [H Hl]. split; [eapply fresh_perm; [by apply ops_ids_perm|done]|].
  intros ->. symmetry in Hp. by apply Permutation_nil in Hp.
Qed.

Lemma wf_moveOperation a b c e : wf e → wf (moveOperation a b c e).
Proof.
  intros He. unfold moveOperation. destruct (_ || _); [done|].
  eapply ops_wf_perm; [|exact He]. unfold ops. simpl. symmetry.
  destruct (reorder_cases (operations (doc_of e)) a b c)
    as [[_ ->]|(l1 & m & l2 & k1 & tg & k2 & E1 & _ & E & _ & _ & ->)]; [done|].
  rewrite E1, <- (Permutation_middle l1), E. destruct c; simpl; solve_Permutation.
Qed.

Lemma wf_duplicateOperation i eager e : wf e → wf (duplicateOperation clock i eager e).
Proof.
  intros He. unfold duplicateOperation. destruct (find_id i (ops e)) as [k|]; [|done].
  destruct (ops e !! k) as [o|]; [|done].
  eapply wf_with_ids; [done|apply takes_normalizeOperation|]. intros d s' Hs Hd.
  assert (ops_wf (insert_at (S k) d (ops e)) s') as Hw.
  { apply (ops_wf_perm (ops e ++ [d])).
    - unfold insert_at. rewrite <- (take_drop (S k) (ops e)) at 1. solve_Permutation.
    - split; [|by intros [_ ?]%app_eq_nil]. rewrite ops_ids_app.
      apply fresh_app with (seed e); [lia|apply He|]. unfold ops_ids. simpl. by rewrite app_nil_r. }
  destruct eager; exact Hw.
Qed.

Lemma filter_nonnil (i : jsstr) l :
  NoDup (ops_ids l) → 1 < length l → filter (λ o, id o ≠ i) l ≠ [].
Proof.
  destruct l as [|a [|b l]]; simpl; [lia|lia|]. intros Hnd _.
  rewrite ops_ids_cons in Hnd. apply NoDup_app in Hnd as (_ & H & _).
  assert (id a ≠ id b) as Hab.
  { intros E. apply (H (id a)); [by left|]. rewrite ops_ids_cons. apply elem_of_app. left. rewrite E. by left. }
  rewrite !filter_cons. repeat case_decide; try done. congruence.
Qed.

Lemma wf_removeOperation i e : wf e → wf (removeOperation clock i e).
Proof.
  intros He. unfold removeOperation. destruct (length (ops e) <=? 1) eqn:E.
  - by apply wf_fallback_single.
  - apply Nat.leb_gt in E. destruct He as [H Hl]. split; unfold ops; simpl.
    + eapply fresh_sublist; [apply ops_ids_filter|done].
    + apply filter_nonnil; [apply H|done].
Qed.

Lemma wf_addCondition i e : wf e → wf (addCondition clock i e).
Proof.
  intros He. eapply wf_with_ids; [done|apply takes_normalizeCondition|]. intros c s' Hs Hc.
  split; unfold ops; simpl; [|by apply map_op_nonnil, He].
  destruct He as [H Hl].
  destruct (map_op_add_condition i c (operations (doc_of e)) (proj1 H)) as [Hp|Hp];
    eapply fresh_perm; try (symmetry; exact Hp).
  - eapply fresh_weaken; [| |exact H]; lia.
  - apply fresh_app with (seed e); [lia|done|done].
Qed.

Lemma wf_updateCondition i c p e : wf e → wf (updateCondition i c p e).
Proof.
  intros [H Hl]. split; unfold ops; simpl; [|by apply map_op_nonnil].
  rewrite map_op_id; [done|]. intros o. rewrite op_ids_with_conditions. unfold op_ids. f_equal.
  rewrite map_map. apply map_ext. intros x. case_decide; [|done].
  clear. revert x. induction p as [|y p IH]; intros x; [done|]. simpl. rewrite IH. by destruct y, x.
Qed.

Lemma wf_removeCondition i c e : wf e → wf (removeCondition i c e).
Proof.
  intros [H Hl]. split; unfold ops; simpl; [|by apply map_op_nonnil].
  eapply fresh_sublist; [apply map_op_filter_condition|done].
Qed.

Lemma wf_set_legacy s e : wf e → wf (set_legacy clock s e).
Proof. intros He. by apply wf_fallback_single. Qed.

(** No template is empty. *)
Lemma preset_payload e :
  let '(mk_preset _ _ _ is_legacy payload) := getSelectedTemplatePreset e in
  is_legacy = true ∨ template_operations payload ≠ [].
Proof.
  unfold getSelectedTemplatePreset. destruct (find _ _) as [p|] eqn:E; [|by right].
  apply find_some in E as [Hp _].
  assert (Forall (λ p, let '(mk_preset _ _ _ is_legacy payload) := p in
    is_legacy = true ∨ template_operations payload ≠ []) TEMPLATE_PRESET_CONFIG) as H.
  { unfold TEMPLATE_PRESET_CONFIG. rewrite !Forall_cons. repeat split; first [by left | by right]. }
  rewrite Forall_forall in H. by apply H, list_elem_of_In.
Qed.

Lemma wf_library e : wf e → wf (fillTemplateFromLibrary clock e) ∧ wf (appendTemplateFromLibrary clock t e).
Proof.
  intros He. unfold fillTemplateFromLibrary, appendTemplateFromLibrary.
  pose proof (preset_payload e) as Hp. destruct (getSelectedTemplatePreset e) as [k sc lb lg payload].
  destruct lg.
  - split; [by apply wf_set_legacy|]. unfold appendLegacyTemplate. cbv zeta.
    repeat case_match; try done; by apply wf_set_legacy.
  - destruct Hp as [?|Hp]; [done|].
    split; [by apply wf_fillOperationsTemplate | by apply wf_appendOperationsTemplate].
Qed.

Lemma wf_render e : wf e → wf (render clock e).
Proof.
  intros He. unfold render.
  assert (wf (with_ids (createDefaultOperation clock) (λ _ e, e) e)) as H1.
  { eapply wf_with_ids; [done|apply takes_normalizeOperation|]. intros. by eapply ops_wf_mono. }
  destruct (find_op _ _); [|done]. case_decide; [|done].
  eapply wf_with_ids; [done|apply takes_moves; auto with js|]. intros. by eapply ops_wf_mono.
Qed.

Lemma wf_handle ev e : wf e → wf (handle clock t engine_message ev e).
Proof.
  intros He. destruct ev; simpl;
    auto using wf_load, wf_render, wf_switchToVisualMode, wf_updateOperation, wf_applyBuiltinField,
      wf_addOperation, wf_duplicateOperation, wf_removeOperation, wf_addCondition,
      wf_updateCondition, wf_removeCondition.
  - unfold switchToJsonMode. cbv zeta. by repeat case_match.
  - unfold handleJsonChange. cbv zeta. by repeat case_match.
  - unfold formatJson. by repeat case_match.
  - by apply wf_library.
  - by apply wf_library.
  - by apply wf_fallback_single.
  - by destruct ok.
  - unfold formatSelectedOperationValueAsJson. repeat case_match; try done.
    by apply (wf_updateOperation).
  - unfold updateReturnErrorDraft. case_match; [|done]. by apply wf_updateOperation.
  - apply wf_prune; auto with js.
  - apply wf_prune; auto with js.
  - apply wf_prune; auto with js.
  - apply wf_prune; auto with js.
  - unfold handleOperationDragOver. cbv zeta. by case_match.
  - by apply (wf_moveOperation _ _ _ e).
  - unfold expandAllSelectedConditions. by repeat case_match.
  - unfold collapseAllSelectedConditions. by repeat case_match.
  - unfold handleSave. by repeat case_match.
Qed.

Lemma wf_settle e : wf e → wf (settle e).
Proof.
  intros He. unfold settle, fix_preset, fix_selected. cbv zeta. by repeat case_match.
Qed.

(** The effects leave a selection and a template that exist. *)
Definition settled (e : editor) : Prop :=
  selected e ∈ map id (ops e) ∧
  templatePresetKey (view_of e) ∈ templatePresetOptions (scenarioGroup (view_of e)).

Lemma settle_settled e : ops e ≠ [] → settled (settle e).
Proof.
  intros Hne. unfold settle.
  assert (Hs : selected (fix_selected e) ∈ map id (ops (fix_selected e))).
  { unfold fix_selected. destruct (ops e) as [|o l] eqn:E; [done|].
    case_bool_decide; [by rewrite E|]. unfold ops in *. simpl. rewrite E. by left. }
  unfold fix_preset. destruct (templatePresetOptions _) as [|k ks] eqn:Eo.
  - by destruct (scenarioGroup (view_of (fix_selected e))).
  - case_bool_decide as Hk; [split; [done|by rewrite Eo]|]. split; [done|].
    simpl. rewrite Eo. by left.
Qed.

Lemma wf_first s : wf (first_state clock s).
Proof.
  unfold first_state, fallback, with_ids.
  pose proof (takes_normalizeOperation clock (VObj [(u "mode", VStr (u "set"))]) s) as [_ H].
  pose proof (normalizeOperation_read clock (VObj [(u "mode", VStr (u "set"))]) s) as Hr.
  unfold createDefaultOperation. simpl seed.
  destruct (normalizeOperation clock _ s) as [[d|] s']; [|discriminate Hr].
  change (ops_wf [d] s'). by eapply ops_wf_single, H.
Qed.

Lemma reachable_wf e : reachable clock t engine_message e → wf e ∧ settled e.
Proof.
  induction 1 as [s|e ev _ [IH _]].
  - split; [apply wf_settle, wf_first|]. apply settle_settled, wf_first.
  - split; [by apply wf_settle, wf_handle|]. by apply settle_settled, wf_handle.
Qed.
End wf.

(** ** Properties *)

(** C4: in every state the editor can reach, by any sequence of handlers, loads and
    renders, the identifiers of all operations and conditions are distinct, there
    is at least one operation, the selected identifier is that of an operation, and
    the chosen template belongs to the chosen group. *)
Theorem editor_invariant clock t engine_message e :
  reachable clock t engine_message e →
  NoDup (ops_ids (ops e)) ∧ ops e ≠ [] ∧ selected e ∈ map id (ops e) ∧
  templatePresetKey (view_of e) ∈ templatePresetOptions (scenarioGroup (view_of e)).
Proof. intros [[[Hn _] Hl] [Hs Hp]]%reachable_wf. done. Qed.

Lemma editor_invariant_witness :
  let e := step (λ n, n) (λ k _, k) [] (settle (first_state (λ n, n) 0)) EAddOperation in
  NoDup (ops_ids (ops e)) ∧ ops e ≠ [] ∧ selected e ∈ map id (ops e) ∧
  templatePresetKey (view_of e) ∈ templatePresetOptions (scenarioGroup (view_of e)).
Proof.
  intros e. apply (editor_invariant (λ n, n) (λ k _, k) [] e).
  apply reachable_step, reachable_first.
Defined.

(** ** The rules of a prune draft have new identifiers at each reading *)

Section prune.
Variable clock : N → N.

Lemma takes_prune_rule v : takes clock (λ c, [c_id c]) (normalizePruneRule clock v).
Proof. apply takes_normalizeCondition. Qed.

Lemma takes_prune_rules {A} (g : A → value) l :
  takes clock (map c_id) (mapM (λ x, normalizePruneRule clock (g x)) l).
Proof.
  intros s.
  destruct (takes_mapM clock (λ c, [c_id c]) (λ x, normalizePruneRule clock (g x)) l
    (λ x, takes_prune_rule (g x)) s) as [H1 H2].
  split; [done|]. intros x Hx. rewrite <- concat_singletons. by apply H2.
Qed.

Lemma takes_where_rules o : takes clock (map c_id) (where_rules clock o).
Proof. unfold where_rules. destruct (prop _ o); try by apply takes_ret. apply takes_prune_rules. Qed.

Lemma takes_condition_rules o : takes clock (map c_id) (condition_rules clock o).
Proof.
  unfold condition_rules. destruct (prop _ o); try by apply takes_ret.
  - apply (takes_prune_rules (λ v, v)).
  - apply takes_prune_rules.
Qed.

(** The identifiers of the rules read at seed [s] were all made from then on. *)
Definition made_from (s : N) (rules : list condition) : Prop :=
  ∀ r, r ∈ rules → ∃ n, (s <= n)%N ∧ c_id r = local_id clock n.

Lemma takes_made_from s0 s (m : M (list condition)) rules :
  takes clock (map c_id) m → (s0 <= s)%N → (m s).1 = Some rules → made_from s0 rules.
Proof.
  intros Hm Hs E r Hr. destruct (Hm s) as [_ H]. destruct (H _ E) as [_ Hf].
  destruct (Hf (c_id r)) as (n & ? & ?); [by apply list_elem_of_fmap_2|]. exists n. split; [lia|done].
Qed.

Lemma made_from_nil s : made_from s [].
Proof. by intros r ?%elem_of_nil. Qed.

Lemma parsePruneObject_made s o d s' :
  parsePruneObject clock o s = (Some d, s') → made_from s (pr_rules d).
Proof.
  unfold parsePruneObject, mbind, M_bind. intros H.
  pose proof (takes_where_rules o s) as [Hs _].
  destruct (where_rules clock o s) as [[ws|] s1] eqn:E1; [|discriminate H]. simpl in Hs.
  destruct (condition_rules clock o s1) as [[cs|] s2] eqn:E2; [|discriminate H].
  assert (pr_rules d = ws ++ cs) as ->.
  { revert H. unfold lift, mret, M_ret. repeat case_match; intros; simplify_eq; done. }
  intros r [Hr|Hr]%elem_of_app.
  - eapply (takes_made_from s s (where_rules clock o)); [apply takes_where_rules|lia| |exact Hr].
    by rewrite E1.
  - eapply (takes_made_from s s1 (condition_rules clock o)); [apply takes_condition_rules|done| |exact Hr].
    by rewrite E2.
Qed.

Lemma parsePruneObjectsDraft_made s text d s' :
  parsePruneObjectsDraft clock text s = (Some d, s') → made_from s (pr_rules d).
Proof.
  unfold parsePruneObjectsDraft. cbv zeta. intros H.
  assert (∀ t, (mret (mk_prune true t false true []) : M prune_draft) s = (Some d, s') →
    made_from s (pr_rules d)) as Hd.
  { intros t [= <- <-]. apply made_from_nil. }
  destruct (trim text); [by eapply Hd|].
  destruct (json_parse _) as [[| | | | | |o]|]; try (by eapply Hd in H);
    try (destruct (item_text _); by eapply Hd in H).
  unfold try_catch in H. destruct (parsePruneObject clock o s) as [[x|] s1] eqn:E.
  - injection H as <- <-. by eapply parsePruneObject_made.
  - injection H as <- <-. apply made_from_nil.
Qed.
End prune.

(** in the prune_objects form the identifier of a rule on screen is from an
    earlier reading of the text, and the handlers read it again: whatever is typed
    into a rule, or deleting it, only rewrites the text of the operation as it
    stands; no rule can be changed or removed. *)
Theorem prune_rule_edits_lost clock i ruleId n p e :
  ruleId = local_id clock n → (n < seed e)%N →
  updatePruneRule clock i ruleId p e = patchPruneDraft clock i [] e ∧
  removePruneRule clock i ruleId e = patchPruneDraft clock i [] e.
Proof.
  intros -> Hn. unfold updatePruneRule, removePruneRule, patchPruneDraft, updatePruneObjectsDraft.
  destruct (find_op i (ops e)) as [o|]; [|done]. unfold with_ids, mbind, M_bind.
  pose proof (parsePruneObjectsDraft_made clock (seed e) (value_text o)) as Hm.
  destruct (parsePruneObjectsDraft clock (value_text o) (seed e)) as [[d|] s']; [|done].
  specialize (Hm d s' eq_refl). cbn [fold_left mret M_ret].
  assert (∀ r, r ∈ pr_rules d → c_id r ≠ local_id clock n) as Hne.
  { intros r Hr E. destruct (Hm r Hr) as (n' & Hn' & E'). rewrite E' in E.
    apply local_id_inj in E. lia. }
  assert (map (λ r, if decide (c_id r = local_id clock n)
    then fold_left (λ r p, patch_cond p r) p r else r) (pr_rules d) = pr_rules d) as H1.
  { clear Hm. induction (pr_rules d) as [|r rs IH]; [done|]. simpl.
    rewrite decide_False by (apply Hne; by left). f_equal. apply IH. intros. apply Hne. by right. }
  assert (filter (λ r, c_id r ≠ local_id clock n) (pr_rules d) = pr_rules d) as H2.
  { clear Hm H1. induction (pr_rules d) as [|r rs IH]; [done|].
    rewrite filter_cons_True by (apply Hne; by left). f_equal. apply IH. intros. apply Hne. by right. }
  unfold with_rules, mret, M_ret. rewrite H1, H2. by destruct d.
Qed.

Lemma prune_rule_edits_lost_witness :
  removePruneRule (λ n, n) (u "x") (local_id (λ n, n) 3) (first_state (λ n, n) 5) =
  patchPruneDraft (λ n, n) (u "x") [] (first_state (λ n, n) 5).
Proof.
  refine (proj2 (prune_rule_edits_lost (λ n, n) (u "x") (local_id (λ n, n) 3) 3 [] _ eq_refl _)).
  vm_compute. reflexivity.
Defined.

(** going to the JSON text and back is saving and loading: with valid operations
    it ends in the visual editor, without a message, on the saved form of the
    operations that were not blank. *)
Theorem json_and_back clock t engine_message e text :
  (∀ key line, t key line ≠ []) →
  visual (doc_of e) = true → legacy (doc_of e) = false → visualJson t e = Text text →
  nonblank (ops e) ≠ [] → forallb operation_ok (nonblank (ops e)) = true →
  let e' := switchToVisualMode clock t (switchToJsonMode t engine_message e) in
  map forget (ops e') = map saved (nonblank (ops e)) ∧
  visual (doc_of e') = true ∧ legacy (doc_of e') = false ∧ log e' = log e.
Proof.
  intros Ht Hv Hl Hj Hne Hok. unfold switchToJsonMode. rewrite Hv, Hj.
  unfold visualJson, buildVisualJson in Hj. rewrite Hl in Hj. unfold buildOperationsJson in Hj.
  assert (text = ser gap2 [] (operations_payload (nonblank (ops e)))) as ->.
  { destruct (nonblank (ops e)) as [|o l]; [done|].
    destruct (validateOperations t _) as [|[|]|]; by simplify_eq. }
  set (f := nonblank (ops e)) in *. pose proof (operations_payload_ok _ Hok) as Hp.
  match goal with |- context [switchToVisualMode clock t ?x] => set (e1 := x) end.
  assert (visual (doc_of e1) = false ∧ seed e1 = seed e ∧ log e1 = log e ∧
    jsonText (doc_of e1) = ser gap2 [] (operations_payload f)) as (H1 & H2 & H3 & H4) by done.
  clearbody e1. unfold switchToVisualMode. rewrite H1, H4, <- H3.
  rewrite ser_object_trim by (right; by eexists).
  pose proof (ser_nonblank gap2 [] _ Hp) as Hn.
  pose proof (codec_roundtrip (Codec := json_codec2) _ Hp) as Hc.
  destruct (ser gap2 [] (operations_payload f)) as [|c s]; [done|].
  rewrite Hc. clear Hn Hc. unfold operations_payload. rewrite prop_cons_eq.
  pose proof (normalizeOperations_read clock (map (λ op, VObj (operation_payload op)) f) (seed e)) as Hr.
  rewrite mapM_read_operations in Hr.
  assert (∀ l, l ≠ [] → read_list clock l = normalizeOperations clock l) as Hrl by by intros [].
  rewrite Hrl by by destruct f. unfold with_ids.
  rewrite H2. destruct (normalizeOperations clock _ (seed e)) as [[l'|] s']; [|discriminate Hr].
  injection Hr as Hr. done.
Qed.

Lemma json_and_back_witness :
  let e := step (λ n, n) (λ k _, u "!" ++ k) [] (settle (first_state (λ n, n) 0)) EFill in
  let e' := switchToVisualMode (λ n, n) (λ k _, u "!" ++ k)
              (switchToJsonMode (λ k _, u "!" ++ k) [] e) in
  map forget (ops e') = map saved (nonblank (ops e)) ∧
  visual (doc_of e') = true ∧ legacy (doc_of e') = false ∧ log e' = log e.
Proof.
  intros e. eapply (json_and_back (λ n, n) (λ k _, u "!" ++ k) [] e);
    [discriminate|vm_compute; reflexivity..|vm_compute; discriminate|vm_compute; reflexivity].
Defined.

(** C35: saving answers once and changes nothing else: either an error message, or a
    text that is empty or the two-space JSON of a value; in the operations mode of the
    visual editor a text is only saved when every operation that is not blank passes
    validation. *)
Theorem handleSave_meaning t engine_message e :
  (∀ key line, t key line ≠ []) →
  ∃ x, handleSave t engine_message e = emit x e ∧
  ((∃ m, x = ShowError m) ∨
   (∃ text, x = Saved text ∧ (text = [] ∨ ∃ v, text = ser gap2 [] v) ∧
      (visual (doc_of e) = true → legacy (doc_of e) = false →
         validateOperations t (nonblank (ops e)) = Passes))).
Proof.
  intros Ht. unfold handleSave.
  destruct (if visual (doc_of e) then visualJson t e else json_result t (jsonText (doc_of e)))
    as [text|m|] eqn:E; [|eexists; split; [done|left; by eexists]..].
  exists (Saved text). split; [done|]. right. exists text. split; [done|].
  destruct (visual (doc_of e)).
  - unfold visualJson, buildVisualJson in E. destruct (legacy (doc_of e)).
    + split; [|done]. destruct (trim _); [simplify_eq; by left|].
      destruct (json_parse _) as [[| | | | | |o]|]; simplify_eq. right. by exists (VObj o).
    + unfold buildOperationsJson in E. destruct (nonblank (ops e)) as [|o l] eqn:En.
      * simplify_eq. split; [by left|done].
      * destruct (validateOperations t (o :: l)) as [|[|c m]|] eqn:Ev; simplify_eq.
        -- split; [right; by exists (operations_payload (o :: l))|done].
        -- apply validate_message in Ev as (k & n & Hk). by destruct (Ht k n).
  - split; [|done]. unfold json_result in E. destruct (trim _); [simplify_eq; by left|].
    destruct (json_parse _) as [v|]; simplify_eq. right. by exists v.
Qed.

Lemma handleSave_meaning_witness :
  let e := first_state (λ n, n) 0 in
  ∃ x, handleSave (λ k _, u "!" ++ k) [] e = emit x e ∧
  ((∃ m, x = ShowError m) ∨
   (∃ text, x = Saved text ∧ (text = [] ∨ ∃ v, text = ser gap2 [] v) ∧
      (visual (doc_of e) = true → legacy (doc_of e) = false →
         validateOperations (λ k _, u "!" ++ k) (nonblank (ops e)) = Passes))).
Proof.
  intros e. apply (handleSave_meaning (λ k _, u "!" ++ k) [] e). discriminate.
Defined.
