(* ===== verification/ModelPricing.v ===== *)
(** * Model pricing editor
    [src/web/src/pages/Setting/Ratio/hooks/useModelPricingEditorState.js]: stored
    prices read into texts, texts edited per billing mode, and written back. *)

From Stdlib Require Import SpecFloat.
From stdpp Require Import base numbers option strings sets list.
From S2P Require Import Prelude JsString JsNumber JsValue Json.

Definition PAGE_SIZE : nat := 10.

(** ** Data *)

Inductive billing := PerToken | PerRequest | Tiered.
#[export] Instance billing_eq_dec : EqDecision billing.
Proof. solve_decision. Defined.

Record tier := mk_tier {
  maxLen : jsstr; t_inputPrice : jsstr; t_outputPrice : jsstr; t_cacheReadPrice : jsstr;
  t_cacheWritePrice : jsstr;
}.

(** The seven per-token prices. *)
Record prices := mk_prices {
  inputPrice : jsstr; outputPrice : jsstr; cacheReadPrice : jsstr; cacheWritePrice : jsstr;
  imagePrice : jsstr; audioInputPrice : jsstr; audioOutputPrice : jsstr;
}.

Record model := mk_model {
  name : jsstr; billingMode : billing; fixedPrice : jsstr; unit_second : bool;
  tokenPrices : prices; tiers : list tier; hasConfiguration : bool;
}.

Definition NO_PRICES : prices := mk_prices [] [] [] [] [] [] [].
Definition EMPTY_MODEL : model := mk_model [] PerToken [] false NO_PRICES [] false.
Definition UNLIMITED_MAX_LEN : jsstr := u "∞".
Definition EMPTY_TIER : tier := mk_tier UNLIMITED_MAX_LEN [] [] [] [].

(** ** Input texts *)

(** [NUMERIC_INPUT_REGEX]: digits, and optionally a point and more digits; the two
    parts may be empty. *)
Definition NUMERIC_INPUT (s : jsstr) : bool :=
  match (span is_digit s).2 with
  | [] => true
  | c :: r => (c =? 46)%N && forallb is_digit r
  end.

(** [MAX_LEN_INPUT_REGEX]: the infinity sign, or such a number. *)
Definition MAX_LEN_INPUT (s : jsstr) : bool := bool_decide (s = UNLIMITED_MAX_LEN) || NUMERIC_INPUT s.

Definition hasValue (v : value) : bool :=
  match v with VStr [] | VNull | VUndef | VBool false => false | _ => true end.
(** [hasValue] of a text of the state. *)
Definition has (s : jsstr) : bool := str_truthy s.

Definition isUnlimitedMaxLen (v : value) : bool :=
  match v with
  | VNull | VUndef => true
  | VStr s => bool_decide (s = []) || bool_decide (s = UNLIMITED_MAX_LEN)
  | _ => false
  end.

Definition formatMaxLenDisplay (v : value) : option jsstr :=
  if isUnlimitedMaxLen v then Some UNLIMITED_MAX_LEN else to_string v.

Definition tierHasPrice (t : tier) : bool :=
  has (t_inputPrice t) || has (t_outputPrice t) || has (t_cacheReadPrice t) || has (t_cacheWritePrice t).

Definition anyPrice (p : prices) : bool :=
  has (inputPrice p) || has (outputPrice p) || has (cacheReadPrice p) || has (cacheWritePrice p) ||
  has (imagePrice p) || has (audioInputPrice p) || has (audioOutputPrice p).

(** ** Numbers: the outer [None] is the TypeError of a conversion *)

Definition toNumberOrNull (v : value) : option (option num) :=
  if negb (hasValue v) then Some None
  else (λ x, if is_finite x then Some x else None) <$> to_number v.

(** [parseFloat(num.toFixed(12)).toString()] *)
Definition format_num (x : num) : jsstr := num_to_string (parse_float (to_fixed x 12)).

Definition formatNumber (v : value) : option jsstr :=
  (λ o, match o with Some x => format_num x | None => [] end) <$> toNumberOrNull v.

Definition toNormalizedNumber (v : value) : option (option num) :=
  (λ f, match f with [] => None | _ => Some (str_to_num f) end) <$> formatNumber v.

(** The normalised number of a text of the state: nothing throws. *)
Definition price (s : jsstr) : option num := default None (toNormalizedNumber (VStr s)).

(** ** Reading the stored prices *)

(** [parseOptionJSON]: [None] when the option is a truthy value without [trim]. *)
Definition parseOptionJSON (raw : value) : option value :=
  if negb (truthy raw) then Some (VObj [])
  else match raw with
       | VStr s =>
           match trim s with
           | [] => Some (VObj [])
           | _ => match json_parse s with
                  | Some v => Some (if truthy v && is_object_type v then v else VObj [])
                  | None => Some (VObj [])
                  end
           end
       | _ => None
       end.

Definition normalizeModelName (v : value) : option jsstr :=
  trim <$> to_string (value_or v (VStr [])).

(** [Object.entries] of an object or an array. *)
Definition entries (v : value) : props :=
  match v with
  | VObj o => o
  | VArr l => imap (λ i x, (dec_N (N.of_nat i), x)) l
  | _ => []
  end.

Definition dedupeModelPriceMap (m : value) : props :=
  fold_left (λ acc kv, match trim kv.1 with [] => acc | n => set n kv.2 acc end) (entries m) [].

(** [toNormalizedNumber(v) !== null ? formatNumber(v) : ''] *)
Definition price_text (v : value) : option jsstr :=
  n ← toNormalizedNumber v;
  match n with Some _ => formatNumber v | None => Some [] end.

(** [p !== null ? formatNumber(p) : ''] *)
Definition number_text (o : option num) : jsstr :=
  match o with Some x => default [] (formatNumber (VNum x)) | None => [] end.

Definition present (o : option num) : bool := match o with Some _ => true | None => false end.

Definition buildTier (v : value) : option tier :=
  l ← formatMaxLenDisplay (opt_read (u "max_len") v);
  i ← price_text (opt_read (u "prompt_price") v);
  o ← price_text (opt_read (u "completion_price") v);
  r ← price_text (opt_read (u "cache_read_price") v);
  w ← price_text (opt_read (u "cache_write_price") v);
  Some (mk_tier l i o r w).

Definition buildModelState (n : jsstr) (modelPriceMap : props) : option model :=
  let stored := value_or (prop n modelPriceMap) (VObj []) in
  let field k := opt_read (u k) stored in
  pc ← toNormalizedNumber (field "per_call_price"%string);
  i ← toNormalizedNumber (field "prompt_price"%string);
  o ← toNormalizedNumber (field "completion_price"%string);
  cr ← toNormalizedNumber (field "cache_read_price"%string);
  cw ← toNormalizedNumber (field "cache_write_price"%string);
  im ← toNormalizedNumber (field "image_price"%string);
  ai ← toNormalizedNumber (field "audio_input_price"%string);
  ao ← toNormalizedNumber (field "audio_output_price"%string);
  ts ← match field "tiers"%string with VArr l => mapM buildTier l | _ => Some [] end;
  let isTiered := match field "billing_mode"%string, ts with
    | VStr s, _ :: _ => bool_decide (s = u "tiered") | _, _ => false end in
  Some (mk_model n (if present pc then PerRequest else if isTiered then Tiered else PerToken)
    (number_text pc)
    (match field "fixed_price_unit"%string with VStr s => bool_decide (s = u "second") | _ => false end)
    (mk_prices (number_text i) (number_text o) (number_text cr) (number_text cw) (number_text im)
       (number_text ai) (number_text ao))
    (if isTiered then ts else [])
    (present pc || present i || present o || present cr || present cw || present im || present ai ||
     present ao || isTiered)).

Definition isBasePricingUnset (m : model) : bool := negb (hasConfiguration m).

(** ** Writing the prices: the entry of a model in [output.ModelPrice] *)

Definition num_or (a : option num) (b : num) : num := match a with Some x => x | None => b end.
Definition n0 : num := S754_zero false.

Definition tier_item (t : tier) : option value :=
  let i := price (t_inputPrice t) in
  let len := if isUnlimitedMaxLen (VStr (maxLen t)) then None else price (maxLen t) in
  match len with
  | None =>
      if negb (tierHasPrice t) then None
      else Some (VObj [(u "prompt_price", VNum (num_or i n0));
        (u "completion_price", VNum (num_or (price (t_outputPrice t)) (num_or i n0)));
        (u "cache_read_price", VNum (num_or (price (t_cacheReadPrice t)) n0));
        (u "cache_write_price", VNum (num_or (price (t_cacheWritePrice t)) n0))])
  | Some x =>
      Some (VObj [(u "prompt_price", VNum (num_or i n0));
        (u "completion_price", VNum (num_or (price (t_outputPrice t)) (num_or i n0)));
        (u "cache_read_price", VNum (num_or (price (t_cacheReadPrice t)) n0));
        (u "cache_write_price", VNum (num_or (price (t_cacheWritePrice t)) n0));
        (u "max_len", VNum (num_trunc x))])
  end.

Definition model_entry (m : model) : option value :=
  match billingMode m with
  | PerRequest =>
      match price (fixedPrice m) with
      | Some x => Some (VObj [(u "per_call_price", VNum x); (u "use_per_call_pricing", VBool true);
          (u "fixed_price_unit", VStr (if unit_second m then u "second" else u "call"))])
      | None => None
      end
  | Tiered =>
      match omap tier_item (tiers m) with
      | [] => None
      | first :: rest =>
          let f k := match opt_read (u k) first with VUndef | VNull => VNum n0 | v => v end in
          Some (VObj [(u "billing_mode", VStr (u "tiered")); (u "tiers", VArr (first :: rest));
            (u "prompt_price", f "prompt_price"%string);
            (u "completion_price", f "completion_price"%string);
            (u "cache_read_price", f "cache_read_price"%string);
            (u "cache_write_price", f "cache_write_price"%string)])
      end
  | PerToken =>
      let p := tokenPrices m in
      let i := price (inputPrice p) in let o := price (outputPrice p) in
      let cr := price (cacheReadPrice p) in let cw := price (cacheWritePrice p) in
      let im := price (imagePrice p) in let ai := price (audioInputPrice p) in
      let ao := price (audioOutputPrice p) in
      match i, o, cr, cw, im, ai, ao with
      | None, None, None, None, None, None, None => None
      | _, _, _, _, _, _, _ =>
          Some (VObj [(u "prompt_price", VNum (num_or i n0));
            (u "completion_price", VNum (num_or o (num_or i n0)));
            (u "cache_read_price", VNum (num_or cr n0)); (u "cache_write_price", VNum (num_or cw n0));
            (u "image_price", VNum (num_or im n0)); (u "audio_input_price", VNum (num_or ai n0));
            (u "audio_output_price", VNum (num_or ao n0))])
      end
  end.

(** [output.ModelPrice] *)
Definition ModelPrice_output (ms : list model) : props :=
  fold_left (λ out m, match model_entry m with Some v => set (name m) v out | None => out end) ms [].

Example submit_ex :
  ser [] [] (VObj (ModelPrice_output
    [mk_model (u "a") PerToken [] false (mk_prices (u "2.50") [] (u ".25") [] [] [] []) [] true;
     mk_model (u "b") PerRequest (u "0.04") true NO_PRICES [] true;
     mk_model (u "c") Tiered [] false NO_PRICES [mk_tier (u "128000.9") (u "1") [] [] []; EMPTY_TIER] true;
     mk_model (u "d") PerToken [] false NO_PRICES [] false])) =
  j "{`a`:{`prompt_price`:2.5,`completion_price`:2.5,`cache_read_price`:0.25,`cache_write_price`:0,`image_price`:0,`audio_input_price`:0,`audio_output_price`:0},`b`:{`per_call_price`:0.04,`use_per_call_pricing`:true,`fixed_price_unit`:`second`},`c`:{`billing_mode`:`tiered`,`tiers`:[{`prompt_price`:1,`completion_price`:1,`cache_read_price`:0,`cache_write_price`:0,`max_len`:128000}],`prompt_price`:1,`completion_price`:1,`cache_read_price`:0,`cache_write_price`:0}}".
Proof. vm_compute. reflexivity. Qed.

(** ** Texts shown for a model *)

Section texts.
Variable t : jsstr → jsstr.

Definition getModelWarnings (m : option model) : list jsstr :=
  match m with
  | None => []
  | Some m =>
      let p := tokenPrices m in
      if bool_decide (billingMode m = PerToken) &&
         (has (outputPrice p) || has (cacheReadPrice p) || has (cacheWritePrice p) ||
          has (imagePrice p) || has (audioInputPrice p) || has (audioOutputPrice p)) &&
         negb (has (inputPrice p))
      then [t (u "填写输出价格前，需要先填写输入价格。")] else []
  end.

Definition unit_text (m : model) : jsstr := if unit_second m then t (u "秒") else t (u "次").

Definition buildSummaryText (m : model) : jsstr :=
  let p := tokenPrices m in
  let tag (label : string) s := if has s then [u label ++ u " " ++ s] else [] in
  let token_summary :=
    if has (inputPrice p) then
      let tags := join (u " · ") (tag "O"%string (outputPrice p) ++ tag "CR"%string (cacheReadPrice p) ++
        tag "CW"%string (cacheWritePrice p) ++ tag "IMG"%string (imagePrice p) ++
        tag "AIN"%string (audioInputPrice p) ++ tag "AOUT"%string (audioOutputPrice p)) in
      t (u "输入") ++ u " " ++ inputPrice p ++ (if str_truthy tags then u " · " ++ tags else [])
    else t (u "未设置价格") in
  match billingMode m with
  | Tiered =>
      match tiers m with
      | [] => t (u "动态阶梯（未配置）")
      | l => t (u "动态阶梯") ++ u " · " ++ dec_N (N.of_nat (length l)) ++ u " " ++ t (u "档")
      end
  | PerRequest =>
      if has (fixedPrice m) then t (u "固定价格") ++ u " $" ++ fixedPrice m ++ u " / " ++ unit_text m
      else token_summary
  | PerToken => token_summary
  end.

Record preview := mk_preview { p_key : jsstr; p_label : jsstr; p_value : jsstr }.

Definition tier_preview (index : nat) (x : tier) : preview :=
  mk_preview (u "tier-" ++ dec_N (N.of_nat index))
    (t (u "档位") ++ u " " ++ dec_N (N.of_nat (index + 1)))
    (u "≤" ++ (if isUnlimitedMaxLen (VStr (maxLen x)) then UNLIMITED_MAX_LEN else maxLen x) ++
     u " · I " ++ str_or (t_inputPrice x) (u "-") ++ u " / O " ++ str_or (t_outputPrice x) (u "-") ++
     u " / CR " ++ str_or (t_cacheReadPrice x) (u "-") ++
     u " / CW " ++ str_or (t_cacheWritePrice x) (u "-")).

Definition buildPreviewRows (m : option model) : list preview :=
  let row (key label : string) s := mk_preview (u key) (t (u label)) (if has s then s else t (u "空")) in
  match m with
  | None => []
  | Some m =>
      match billingMode m with
      | PerRequest =>
          [mk_preview (u "ModelPrice") (t (u "固定价格"))
             (if has (fixedPrice m) then u "$" ++ fixedPrice m ++ u " / " ++ unit_text m else t (u "空"))]
      | Tiered =>
          match tiers m with
          | [] => [mk_preview (u "tiers") (t (u "阶梯套餐")) (t (u "空"))]
          | l => imap tier_preview l
          end
      | PerToken =>
          let p := tokenPrices m in
          [mk_preview (u "InputPrice") (t (u "输入价格"))
             (if has (inputPrice p) then u "$" ++ inputPrice p ++ u " / 1M tokens" else t (u "空"));
           row "OutputPrice" "输出价格" (outputPrice p);
           row "CacheReadPrice" "缓存读取价格" (cacheReadPrice p);
           row "CacheWritePrice" "缓存创建价格" (cacheWritePrice p);
           row "ImagePrice" "图片输入价格" (imagePrice p);
           row "AudioInputPrice" "音频输入价格" (audioInputPrice p);
           row "AudioOutputPrice" "音频输出价格" (audioOutputPrice p)]%string
      end
  end.
End texts.

(** ** The hook *)

Inductive status_filter := SAll | SConfigured | SUnset.
#[export] Instance status_filter_eq_dec : EqDecision status_filter.
Proof. solve_decision. Defined.

Inductive field :=
  | FFixed | FInput | FOutput | FCacheRead | FCacheWrite | FImage | FAudioIn | FAudioOut.
Inductive tier_field := TMaxLen | TInput | TOutput | TCacheRead | TCacheWrite.

Inductive effect :=
  | ShowError (msg : jsstr)
  | ShowErrorValue (msg : value)
  | ShowSuccess (msg : jsstr)
  | Put (key : jsstr) (text : jsstr)
  | Refresh
  | Uncaught.

Record state := mk_state {
  models : list model;
  initialVisibleModelNames : list jsstr;
  selectedModelName : jsstr;
  selectedModelNames : list jsstr;
  searchText : jsstr;
  currentPage : nat;
  loading : bool;
  statusFilter : status_filter;
  log : list effect;
}.

Definition set_field (f : field) (v : jsstr) (m : model) : model :=
  let '(mk_model n b fp us p ts h) := m in
  let '(mk_prices i o cr cw im ai ao) := p in
  let with_prices p := mk_model n b fp us p ts (anyPrice p) in
  match f with
  | FFixed => mk_model n b v us p ts (has v)
  | FInput => with_prices (mk_prices v o cr cw im ai ao)
  | FOutput => with_prices (mk_prices i v cr cw im ai ao)
  | FCacheRead => with_prices (mk_prices i o v cw im ai ao)
  | FCacheWrite => with_prices (mk_prices i o cr v im ai ao)
  | FImage => with_prices (mk_prices i o cr cw v ai ao)
  | FAudioIn => with_prices (mk_prices i o cr cw im v ao)
  | FAudioOut => with_prices (mk_prices i o cr cw im ai v)
  end.

Definition set_tier_field (f : tier_field) (v : jsstr) (x : tier) : tier :=
  let '(mk_tier l i o cr cw) := x in
  match f with
  | TMaxLen => mk_tier v i o cr cw
  | TInput => mk_tier l v o cr cw
  | TOutput => mk_tier l i v cr cw
  | TCacheRead => mk_tier l i o v cw
  | TCacheWrite => mk_tier l i o cr v
  end.

(** The updater of [handleBillingModeChange]. *)
Definition change_billing (b : billing) (m : model) : model :=
  let fp := match b with PerRequest => fixedPrice m | _ => [] end in
  let p := match b with PerToken => tokenPrices m | _ => NO_PRICES end in
  let ts := match b with
    | Tiered => match tiers m with
                | [] => [mk_tier (u "128000") [] [] [] []; EMPTY_TIER]
                | l => l
                end
    | _ => []
    end in
  mk_model (name m) b fp (match b with PerRequest => unit_second m | _ => false end) p ts
    (match b with
     | PerRequest => has fp
     | Tiered => existsb tierHasPrice ts
     | PerToken => anyPrice p
     end).

Definition with_tiers (ts : list tier) (m : model) : model :=
  mk_model (name m) (billingMode m) (fixedPrice m) (unit_second m) (tokenPrices m) ts
    (existsb tierHasPrice ts).

(** [name: model.name, ...pricing of the template]. *)
Definition copy_pricing (tpl m : model) : model :=
  mk_model (name m) (billingMode tpl) (fixedPrice tpl) (unit_second tpl) (tokenPrices tpl) (tiers tpl)
    (hasConfiguration tpl).

Section hook.
Variable t : jsstr → jsstr.
(** [a.localeCompare(b) <= 0] of the engine's locale. *)
Variable locale_leb : jsstr → jsstr → bool.
Variable to_lower : jsstr → jsstr.
(** The message of the TypeError of an impossible conversion. *)
Variable engine_message : jsstr.
(** [filterMode === 'unset'] *)
Variable unset_only : bool.

Definition with_models (f : list model → list model) (s : state) : state :=
  mk_state (f (models s)) (initialVisibleModelNames s) (selectedModelName s) (selectedModelNames s)
    (searchText s) (currentPage s) (loading s) (statusFilter s) (log s).
Definition with_selected (n : jsstr) (s : state) : state :=
  mk_state (models s) (initialVisibleModelNames s) n (selectedModelNames s)
    (searchText s) (currentPage s) (loading s) (statusFilter s) (log s).
Definition with_names (f : list jsstr → list jsstr) (s : state) : state :=
  mk_state (models s) (initialVisibleModelNames s) (selectedModelName s) (f (selectedModelNames s))
    (searchText s) (currentPage s) (loading s) (statusFilter s) (log s).
Definition with_page (n : nat) (s : state) : state :=
  mk_state (models s) (initialVisibleModelNames s) (selectedModelName s) (selectedModelNames s)
    (searchText s) n (loading s) (statusFilter s) (log s).
Definition with_loading (b : bool) (s : state) : state :=
  mk_state (models s) (initialVisibleModelNames s) (selectedModelName s) (selectedModelNames s)
    (searchText s) (currentPage s) b (statusFilter s) (log s).
Definition emit (e : effect) (s : state) : state :=
  mk_state (models s) (initialVisibleModelNames s) (selectedModelName s) (selectedModelNames s)
    (searchText s) (currentPage s) (loading s) (statusFilter s) (e :: log s).

Definition init : state :=
  mk_state [] [] [] [] [] 1 false (if unset_only then SUnset else SAll) [].

(** *** Loading the options *)

(** [normalizeModelName(typeof n === 'string' ? n : n.id)] *)
Definition candidate_name (c : value) : option jsstr :=
  match c with
  | VStr s => normalizeModelName (VStr s)
  | _ => id ← read (u "id") c; normalizeModelName id
  end.

Definition load_models (option_value : value) (candidates : list value) : option (list model) :=
  raw ← parseOptionJSON option_value;
  let map := dedupeModelPriceMap raw in
  cs ← mapM candidate_name candidates;
  let names := set_order (filter (λ n, n ≠ []) cs ++ filter (λ n, n ≠ []) (keys map)) in
  ms ← mapM (λ n, buildModelState n map) names;
  Some (sort (λ a b, locale_leb (name a) (name b)) ms).

Definition first_name (ms : list model) : jsstr := match ms with [] => [] | m :: _ => name m end.

(** The effect on [options], [candidateModelNames] and [filterMode]; the page is
    reset by another effect, when the candidates themselves have changed. *)
Definition load (option_value : value) (candidates : list value) (changed : bool) (s : state) : state :=
  match load_models option_value candidates with
  | None => emit Uncaught s
  | Some next =>
      let unset := filter (λ m, isBasePricingUnset m = true) next in
      let shown := if unset_only then unset else next in
      let previous := selectedModelName s in
      mk_state next (map name shown)
        (if str_truthy previous && bool_decide (previous ∈ map name next) then previous
         else first_name shown)
        (selectedModelNames s) (searchText s) (if changed then 1 else currentPage s) (loading s)
        (statusFilter s) (log s)
  end.

(** *** Derived lists *)

Definition base_models (s : state) : list model :=
  let base := if unset_only
    then filter (λ m, name m ∈ initialVisibleModelNames s) (models s) else models s in
  match statusFilter s with
  | SConfigured => filter (λ m, hasConfiguration m = true) base
  | SUnset => filter (λ m, hasConfiguration m = false) base
  | SAll => base
  end.

Definition find_model (n : jsstr) (ms : list model) : option model :=
  find (λ m, bool_decide (name m = n)) ms.

Definition visibleModels (s : state) : list model :=
  let base := base_models s in
  if str_truthy (selectedModelName s) && negb (bool_decide (selectedModelName s ∈ map name base)) then
    match find_model (selectedModelName s) (models s) with
    | Some m => m :: base
    | None => base
    end
  else base.

Definition filteredModels (s : state) : list model :=
  let keyword := to_lower (trim (searchText s)) in
  filter (λ m, (if str_truthy keyword then includes (to_lower (name m)) keyword else true) = true)
    (visibleModels s).

Definition page_of (page : nat) (ms : list model) : list model :=
  take PAGE_SIZE (drop ((page - 1) * PAGE_SIZE) ms).
Definition pagedData (s : state) : list model := page_of (currentPage s) (filteredModels s).

Definition selectedModel (s : state) : option model := find_model (selectedModelName s) (visibleModels s).

(** *** Effects after a render *)

Definition fix_names (s : state) : state :=
  with_names (filter (λ n, n ∈ map name (visibleModels s))) s.

Definition fix_selected (s : state) : state :=
  match visibleModels s with
  | [] => with_selected [] s
  | m :: _ =>
      if bool_decide (selectedModelName s ∈ map name (visibleModels s)) then s
      else with_selected (name m) s
  end.

(** The selection is repaired first: it decides which models are visible. *)
Definition settle (s : state) : state := fix_names (fix_selected s).

(** *** Handlers *)

Definition upsertModel (n : jsstr) (f : model → model) : state → state :=
  with_models (map (λ m, if decide (name m = n) then f m else m)).

Definition on_selected (f : model → model) (s : state) : state :=
  match selectedModel s with
  | Some m => upsertModel (name m) f s
  | None => s
  end.

Definition handleNumericFieldChange (f : field) (v : jsstr) (s : state) : state :=
  if NUMERIC_INPUT v then on_selected (set_field f v) s else s.

Definition handleBillingModeChange (b : billing) : state → state := on_selected (change_billing b).

Definition handleFixedPriceUnitChange (second : bool) : state → state :=
  on_selected (λ m, mk_model (name m) (billingMode m) (fixedPrice m) second (tokenPrices m)
    (tiers m) (hasConfiguration m)).

Definition tier_input_ok (f : tier_field) (v : jsstr) : bool :=
  match f with TMaxLen => MAX_LEN_INPUT v | _ => NUMERIC_INPUT v end.

Definition handleTierChange (index : nat) (f : tier_field) (v : jsstr) (s : state) : state :=
  if tier_input_ok f v then
    on_selected (λ m, with_tiers (alter (set_tier_field f v) index (tiers m)) m) s
  else s.

Definition addTier : state → state :=
  on_selected (λ m, mk_model (name m) (billingMode m) (fixedPrice m) (unit_second m) (tokenPrices m)
    (tiers m ++ [EMPTY_TIER]) (hasConfiguration m)).

Definition removeTier (index : nat) : state → state :=
  on_selected (λ m, with_tiers (delete index (tiers m)) m).

Definition addModel (modelName : jsstr) (s : state) : state * bool :=
  let trimmedName := trim modelName in
  match trimmedName with
  | [] => (emit (ShowError (t (u "请输入模型名称"))) s, false)
  | _ =>
      if bool_decide (trimmedName ∈ map name (models s))
      then (emit (ShowError (t (u "模型名称已存在"))) s, false)
      else
        (with_page 1 (with_selected trimmedName (with_models (λ l,
           mk_model trimmedName PerToken [] false NO_PRICES [] false :: l) s)), true)
  end.

Definition deleteModel (n : jsstr) (s : state) : state :=
  let nextModels := filter (λ m, name m ≠ n) (models s) in
  let s1 := with_names (filter (λ x, x ≠ n)) (with_models (λ _, nextModels) s) in
  if decide (selectedModelName s = n) then with_selected (first_name nextModels) s1 else s1.

Definition applySelectedModelPricing (s : state) : state * bool :=
  match selectedModel s with
  | None => (emit (ShowError (t (u "请先选择一个作为模板的模型"))) s, false)
  | Some tpl =>
      match selectedModelNames s with
      | [] => (emit (ShowError (t (u "请先勾选需要批量设置的模型"))) s, false)
      | names =>
          (emit (ShowSuccess (t (u "已将模型 {{name}} 的价格配置批量应用到 {{count}} 个模型")))
             (with_models (map (λ m, if decide (name m ∈ names) then copy_pricing tpl m else m)) s), true)
      end
  end.

(** [handleSubmit] up to its [await]: the request that is sent. *)
Definition submit_start (s : state) : state :=
  emit (Put (u "ModelPrice") (ser gap2 [] (VObj (ModelPrice_output (models s))))) (with_loading true s).

(** The rest of [handleSubmit]: [response] is the answer of the request, or the
    error it is rejected with; [refreshed] how [refresh()] ends. *)
Definition submit_end (response refreshed : value + value) (s : state) : state :=
  let default_msg := VStr (t (u "保存失败，请重试")) in
  let fail msg := emit (ShowErrorValue (value_or msg default_msg)) in
  with_loading false
    match response with
    | inr error => fail (opt_read (u "message") error) s
    | inl res =>
        let data := opt_read (u "data") res in
        if truthy (opt_read (u "success") data) then
          let s := emit Refresh (emit (ShowSuccess (t (u "保存成功"))) s) in
          match refreshed with
          | inl _ => s
          | inr error => fail (opt_read (u "message") error) s
          end
        else (* [throw new Error(message)] makes the message a string *)
          fail (match to_string (value_or (opt_read (u "message") data) default_msg) with
                | Some m => VStr m | None => VStr engine_message end) s
    end.

Inductive event :=
  | ELoad (option_value : value) (candidates : list value) (changed : bool)
  | ESearch (s : jsstr) | EStatus (f : status_filter) | EPage (n : nat)
  | ESelect (n : jsstr) | ESelectNames (l : list jsstr)
  | ENumeric (f : field) (v : jsstr) | EBilling (b : billing) | EUnit (second : bool)
  | ETier (index : nat) (f : tier_field) (v : jsstr) | EAddTier | ERemoveTier (index : nat)
  | EAdd (n : jsstr) | EDelete (n : jsstr) | EApply
  | ESubmit | ESubmitted (response refreshed : value + value).

Definition handle (e : event) (s : state) : state :=
  match e with
  | ELoad o cs changed => load o cs changed s
  | ESearch x => mk_state (models s) (initialVisibleModelNames s) (selectedModelName s)
      (selectedModelNames s) x 1 (loading s) (statusFilter s) (log s)
  | EStatus f => mk_state (models s) (initialVisibleModelNames s) (selectedModelName s)
      (selectedModelNames s) (searchText s) 1 (loading s) f (log s)
  | EPage n => with_page n s
  | ESelect n => with_selected n s
  | ESelectNames l => with_names (λ _, l) s
  | ENumeric f v => handleNumericFieldChange f v s
  | EBilling b => handleBillingModeChange b s
  | EUnit b => handleFixedPriceUnitChange b s
  | ETier i f v => handleTierChange i f v s
  | EAddTier => addTier s
  | ERemoveTier i => removeTier i s
  | EAdd n => (addModel n s).1
  | EDelete n => deleteModel n s
  | EApply => (applySelectedModelPricing s).1
  | ESubmit => submit_start s
  | ESubmitted r f => submit_end r f s
  end.

Definition step (s : state) (e : event) : state := settle (handle e s).
End hook.
