(* ===== verification/ModelPricingLaws.v ===== *)
(** * Model pricing editor: laws
    What is saved is what is loaded, what the inputs accept, and the invariants of
    the hook's state. *)

From Stdlib Require Import SpecFloat.
From stdpp Require Import base numbers option strings sets list.
From S2P Require Import Prelude JsString JsNumber JsValue Json ModelPricing.

(** ** Inputs *)

Definition digits (s : jsstr) : Prop := Forall (λ c, is_digit c = true) s.

Lemma forallb_digits s : forallb is_digit s = true ↔ digits s.
Proof.
  unfold digits. rewrite forallb_forall, Forall_forall. split; intros H x Hx; apply H;
    by apply list_elem_of_In.
Qed.

Lemma NUMERIC_INPUT_spec s :
  NUMERIC_INPUT s = true ↔ digits s ∨ ∃ a b, s = a ++ u "." ++ b ∧ digits a ∧ digits b.
Proof.
  unfold NUMERIC_INPUT. change (u ".") with [46%N]. split.
  - destruct (span_spec is_digit s) as (E & Ha & Hr).
    destruct (span is_digit s) as [a [|c r]]; simpl in *.
    + intros _. left. rewrite app_nil_r in E. by subst.
    + rewrite andb_true_iff, N.eqb_eq, forallb_digits. intros [-> Hd]. right. by exists a, r.
  - intros [Hd|(a & b & -> & Ha & Hb)].
    + rewrite <- (app_nil_r s). by rewrite span_app by done.
    + change ([46%N] ++ b) with (46%N :: b). rewrite span_app by done. simpl.
      by apply forallb_digits.
Qed.

(** ** Numbers that survive *)

(** The text shown for [x] reads back as [x]. *)
Definition num_stable (x : num) : bool := bool_decide (toNormalizedNumber (VNum x) = Some (Some x)).

Lemma num_stable_spec x :
  num_stable x = true →
  toNormalizedNumber (VNum x) = Some (Some x) ∧ number_text (Some x) ≠ [] ∧ price (number_text (Some x)) = Some x.
Proof.
  unfold num_stable. intros H%bool_decide_eq_true_1. split; [done|].
  unfold number_text. unfold toNormalizedNumber, formatNumber, toNumberOrNull in H |- *. simpl in *.
  destruct (is_finite x) eqn:Ef; simpl in *; [|done].
  destruct (format_num x) as [|c f] eqn:E; simpl in *; [done|]. injection H as H. split; [done|].
  unfold price, toNormalizedNumber, formatNumber, toNumberOrNull. simpl.
  rewrite H, Ef. simpl. rewrite E. simpl. by rewrite H.
Qed.

Lemma n0_stable : num_stable n0 = true.
Proof. vm_compute. reflexivity. Qed.

Lemma normalized_undef : toNormalizedNumber VUndef = Some None.
Proof. done. Qed.

Definition price_stable (s : jsstr) : bool :=
  match price s with Some x => num_stable x | None => true end.

Lemma num_or_stable a b :
  (∀ x, a = Some x → num_stable x = true) → num_stable b = true → num_stable (num_or a b) = true.
Proof. destruct a; simpl; auto. Qed.

Lemma price_stable_num s x : price_stable s = true → price s = Some x → num_stable x = true.
Proof. unfold price_stable. intros H E. by rewrite E in H. Qed.

(** A length that is written reads back. *)
Definition len_stable (y : num) : bool :=
  negb (isUnlimitedMaxLen (VStr (num_to_string y))) &&
  bool_decide (price (num_to_string y) = Some y) && bool_decide (num_trunc y = y).

Lemma len_stable_spec y :
  len_stable y = true →
  isUnlimitedMaxLen (VStr (num_to_string y)) = false ∧ price (num_to_string y) = Some y ∧ num_trunc y = y.
Proof. unfold len_stable. intros H. by bool_simp. Qed.

Definition tier_stable (x : tier) : bool :=
  price_stable (t_inputPrice x) && price_stable (t_outputPrice x) &&
  price_stable (t_cacheReadPrice x) && price_stable (t_cacheWritePrice x) &&
  match price (maxLen x) with Some y => len_stable (num_trunc y) | None => true end.

Definition prices_stable (p : prices) : bool :=
  price_stable (inputPrice p) && price_stable (outputPrice p) && price_stable (cacheReadPrice p) &&
  price_stable (cacheWritePrice p) && price_stable (imagePrice p) && price_stable (audioInputPrice p) &&
  price_stable (audioOutputPrice p).

(** Every price of the model's mode is shown with a text that reads back. *)
Definition model_stable (m : model) : bool :=
  match billingMode m with
  | PerRequest => price_stable (fixedPrice m)
  | PerToken => prices_stable (tokenPrices m)
  | Tiered => forallb tier_stable (tiers m)
  end.

Lemma price_text_stable x : num_stable x = true → price_text (VNum x) = Some (number_text (Some x)).
Proof.
  intros H. pose proof (num_stable_spec x H) as (E & _). unfold price_text. rewrite E. simpl.
  unfold number_text. by destruct (formatNumber (VNum x)) eqn:F.
Qed.

(** The four prices of a tier item, as written. *)
Definition tier_nums (x : tier) : num * num * num * num :=
  let i := price (t_inputPrice x) in
  (num_or i n0, num_or (price (t_outputPrice x)) (num_or i n0),
   num_or (price (t_cacheReadPrice x)) n0, num_or (price (t_cacheWritePrice x)) n0).

Lemma tier_nums_stable x :
  tier_stable x = true →
  let '(a, b, c, d) := tier_nums x in
  num_stable a = true ∧ num_stable b = true ∧ num_stable c = true ∧ num_stable d = true.
Proof.
  unfold tier_stable, tier_nums. intros H. bool_simp.
  repeat split; repeat apply num_or_stable; try apply n0_stable;
    intros y Hy; (eapply price_stable_num; [|exact Hy]); assumption.
Qed.

(** An item of a tier is read into a tier with the same item. *)
Lemma tier_item_reload x v :
  tier_stable x = true → tier_item x = Some v →
  ∃ x', buildTier v = Some x' ∧ tier_item x' = Some v.
Proof.
  intros Hs H. pose proof (tier_nums_stable x Hs) as Hn. unfold tier_stable in Hs. bool_simp.
  unfold tier_item in H. unfold tier_nums in Hn. cbv zeta in Hn.
  revert Hn H. generalize (num_or (price (t_inputPrice x)) n0) as a. intros a.
  generalize (num_or (price (t_outputPrice x)) a) (num_or (price (t_cacheReadPrice x)) n0)
    (num_or (price (t_cacheWritePrice x)) n0). intros b c d (Ha & Hb & Hc & Hd) H.
  destruct (num_stable_spec a Ha) as (_ & Ta & Pa), (num_stable_spec b Hb) as (_ & Tb & Pb),
    (num_stable_spec c Hc) as (_ & Tc & Pc), (num_stable_spec d Hd) as (_ & Td & Pd).
  assert (∀ l, tierHasPrice (mk_tier l (number_text (Some a)) (number_text (Some b))
    (number_text (Some c)) (number_text (Some d))) = true) as Hp.
  { intros l. unfold tierHasPrice, has. cbn [t_inputPrice].
    by rewrite (proj2 (str_truthy_true (number_text (Some a)))). }
  destruct (if isUnlimitedMaxLen (VStr (maxLen x)) then None else price (maxLen x)) as [y|] eqn:El.
  - assert (len_stable (num_trunc y) = true) as Hl.
    { destruct (isUnlimitedMaxLen _); [done|]. by rewrite El in *. }
    apply len_stable_spec in Hl as (Hu & Hl & Ht). injection H as <-.
    exists (mk_tier (num_to_string (num_trunc y)) (number_text (Some a)) (number_text (Some b))
      (number_text (Some c)) (number_text (Some d))).
    split.
    + unfold buildTier, opt_read. simpl read. read_props. rewrite !price_text_stable by done. done.
    + unfold tier_item. cbn [maxLen t_inputPrice t_outputPrice t_cacheReadPrice t_cacheWritePrice].
      rewrite Pa, Pb, Pc, Pd, Hu, Hl. simpl num_or. by rewrite Ht.
  - destruct (negb (tierHasPrice x)); [done|]. injection H as <-.
    exists (mk_tier UNLIMITED_MAX_LEN (number_text (Some a)) (number_text (Some b))
      (number_text (Some c)) (number_text (Some d))).
    split.
    + unfold buildTier, opt_read. simpl read. read_props. rewrite !price_text_stable by done. done.
    + unfold tier_item. rewrite Hp. cbn [maxLen t_inputPrice t_outputPrice t_cacheReadPrice t_cacheWritePrice].
      by rewrite Pa, Pb, Pc, Pd.
Qed.

(** ** Entries survive a reload *)

Lemma tier_item_shape x v :
  tier_item x = Some v →
  let '(a, b, c, d) := tier_nums x in
  ∃ rest, v = VObj ((u "prompt_price", VNum a) :: (u "completion_price", VNum b) ::
    (u "cache_read_price", VNum c) :: (u "cache_write_price", VNum d) :: rest).
Proof.
  unfold tier_item, tier_nums. intros H. case_match; [|case_match; [done|]];
    injection H as <-; by eexists.
Qed.

Lemma tiers_reload ts :
  forallb tier_stable ts = true →
  ∃ ts', mapM buildTier (omap tier_item ts) = Some ts' ∧ omap tier_item ts' = omap tier_item ts ∧
    length ts' = length (omap tier_item ts).
Proof.
  induction ts as [|x ts IH]; cbn [forallb]; [by exists []|].
  intros [Hx Hts]%andb_true_iff. destruct (IH Hts) as (ts' & E & E' & El). simpl.
  destruct (tier_item x) as [v|] eqn:Ev; [|by exists ts'].
  destruct (tier_item_reload x v Hx Ev) as (x' & Eb & Ei).
  exists (x' :: ts'). split; [by apply mapM_Some; constructor; [|apply mapM_Some]|]. cbn. by rewrite Ei, E', El.
Qed.

(** What a stored entry must give back. *)
Definition reloads (m : model) (v : value) (o : option model) : Prop :=
  ∃ m', o = Some m' ∧ name m' = name m ∧ billingMode m' = billingMode m ∧
    hasConfiguration m' = true ∧ model_entry m' = Some v.

Lemma fixed_reload m v o :
  billingMode m = PerRequest → price_stable (fixedPrice m) = true →
  model_entry m = Some v → prop (name m) o = v → reloads m v (buildModelState (name m) o).
Proof.
  intros Eb Hs. unfold model_entry. rewrite Eb.
  destruct (price (fixedPrice m)) as [x|] eqn:Ex; [|done]. intros H Ep. injection H as <-.
  revert Ep. generalize (unit_second m). intros second Ep.
  destruct (num_stable_spec x (price_stable_num _ _ Hs Ex)) as (En & _ & Ea).
  eexists. split.
  - unfold buildModelState, opt_read. rewrite Ep. cbn [value_or truthy read]. eval_props.
    rewrite En. reflexivity.
  - unfold model_entry. cbn [billingMode name hasConfiguration fixedPrice unit_second present orb].
    rewrite Eb. split; [done|]. split; [done|]. split; [done|].
    rewrite Ea. by destruct second.
Qed.

Lemma normalized_num x : num_stable x = true → toNormalizedNumber (VNum x) = Some (Some x).
Proof. intros H. by destruct (num_stable_spec x H). Qed.
Lemma price_number_text x : num_stable x = true → price (number_text (Some x)) = Some x.
Proof. intros H. by destruct (num_stable_spec x H) as (_ & _ & E). Qed.

Lemma tiered_reload m v o :
  billingMode m = Tiered → forallb tier_stable (tiers m) = true →
  model_entry m = Some v → prop (name m) o = v → reloads m v (buildModelState (name m) o).
Proof.
  intros Eb Hs. unfold model_entry at 1. rewrite Eb.
  destruct (tiers_reload (tiers m) Hs) as (ts' & Et & Ei & El).
  destruct (omap tier_item (tiers m)) as [|first rest] eqn:Eo; [done|]. intros H Ep.
  assert (∃ x, x ∈ tiers m ∧ tier_item x = Some first) as (x & Hx & Ex).
  { apply list_elem_of_omap. rewrite Eo. by left. }
  pose proof (tier_item_shape x first Ex) as Hf.
  pose proof (tier_nums_stable x (proj1 (forallb_forall _ _) Hs x (proj1 (list_elem_of_In _ _) Hx))) as Hn.
  destruct (tier_nums x) as [[[a b] c] d]. destruct Hf as (tl & ->), Hn as (Ha & Hb & Hc & Hd).
  revert H. unfold opt_read at 1 2 3 4. cbn [read]. read_props. intros H. injection H as H.
  remember (VObj _ :: rest) as l eqn:Hl.
  destruct ts' as [|y ts']; [by subst l|].
  eexists. split.
  - unfold buildModelState. rewrite Ep, <- H. unfold opt_read. cbn [value_or truthy read]. eval_props.
    rewrite !normalized_num, normalized_undef by done. cbn [mbind option_bind]. rewrite Et. reflexivity.
  - unfold model_entry. cbn [billingMode name hasConfiguration tiers present].
    rewrite bool_decide_true by done. rewrite !orb_true_r. split; [done|]. split; [done|]. split; [done|].
    rewrite Ei, Hl. unfold opt_read. cbn [read]. read_props. by rewrite <- H, Hl.
Qed.

(** The entry of per-token prices. *)
Definition token_value (a b c d e f g : num) : value :=
  VObj [(u "prompt_price", VNum a); (u "completion_price", VNum b);
    (u "cache_read_price", VNum c); (u "cache_write_price", VNum d); (u "image_price", VNum e);
    (u "audio_input_price", VNum f); (u "audio_output_price", VNum g)].

Definition token_model (n : jsstr) (a b c d e f g : num) : model :=
  mk_model n PerToken [] false (mk_prices (number_text (Some a)) (number_text (Some b))
    (number_text (Some c)) (number_text (Some d)) (number_text (Some e)) (number_text (Some f))
    (number_text (Some g))) [] true.

Section token.
Context (a b c d e f g : num).
Context (Ha : num_stable a = true) (Hb : num_stable b = true) (Hc : num_stable c = true)
  (Hd : num_stable d = true) (He : num_stable e = true) (Hf : num_stable f = true)
  (Hg : num_stable g = true).

Lemma token_read n o :
  prop n o = token_value a b c d e f g → buildModelState n o = Some (token_model n a b c d e f g).
Proof.
  intros Ep. unfold buildModelState. rewrite Ep. unfold token_value, opt_read.
  cbn [value_or truthy read]. eval_props. by rewrite !normalized_num, normalized_undef by done.
Qed.

Lemma token_write n : model_entry (token_model n a b c d e f g) = Some (token_value a b c d e f g).
Proof.
  unfold model_entry, token_model, token_value. cbn [billingMode tokenPrices inputPrice outputPrice
    cacheReadPrice cacheWritePrice imagePrice audioInputPrice audioOutputPrice].
  by rewrite !price_number_text by done.
Qed.
End token.

Lemma token_entry m v :
  billingMode m = PerToken → prices_stable (tokenPrices m) = true → model_entry m = Some v →
  ∃ a b c d e f g, v = token_value a b c d e f g ∧ num_stable a = true ∧ num_stable b = true ∧
    num_stable c = true ∧ num_stable d = true ∧ num_stable e = true ∧ num_stable f = true ∧
    num_stable g = true.
Proof.
  intros Eb Hs H. unfold prices_stable in Hs. unfold model_entry in H. rewrite Eb in H. cbv zeta in H.
  set (p := tokenPrices m) in *. set (a := num_or (price (inputPrice p)) n0) in H.
  exists a, (num_or (price (outputPrice p)) a), (num_or (price (cacheReadPrice p)) n0),
    (num_or (price (cacheWritePrice p)) n0), (num_or (price (imagePrice p)) n0),
    (num_or (price (audioInputPrice p)) n0), (num_or (price (audioOutputPrice p)) n0).
  split; [unfold token_value; clear -H; repeat case_match; congruence|].
  clear H. bool_simp. repeat split; repeat apply num_or_stable; try apply n0_stable;
    intros y Hy; (eapply price_stable_num; [|exact Hy]); assumption.
Qed.

Lemma token_reload m v o :
  billingMode m = PerToken → prices_stable (tokenPrices m) = true →
  model_entry m = Some v → prop (name m) o = v → reloads m v (buildModelState (name m) o).
Proof.
  intros Eb Hs H Ep. destruct (token_entry m v Eb Hs H) as (a & b & c & d & e & f & g & -> & ?).
  exists (token_model (name m) a b c d e f g). destruct_and!.
  split; [by apply token_read | split; [done | split; [done | split; [done | by apply token_write]]]].
Qed.

Lemma entry_reload m v o :
  model_stable m = true → model_entry m = Some v → prop (name m) o = v →
  reloads m v (buildModelState (name m) o).
Proof.
  unfold model_stable. destruct (billingMode m) eqn:Eb; intros Hs.
  - by apply token_reload. - by apply fixed_reload. - by apply tiered_reload.
Qed.

(** *** The object that is written *)

(** The entries that JSON can hold: finite numbers whose text reads back. *)
Definition entry_ok (m : model) : bool :=
  match model_entry m with Some v => json_ok v | None => true end.

Definition put (out : props) (m : model) : props :=
  match model_entry m with Some v => set (name m) v out | None => out end.

Lemma put_ok ms out :
  forallb entry_ok ms = true → json_ok (VObj out) = true →
  json_ok (VObj (fold_left put ms out)) = true.
Proof.
  revert out. induction ms as [|m ms IH]; intros out; cbn [forallb]; [done|].
  intros [Hm Hms]%andb_true_iff Ho. apply IH; [done|]. unfold put. unfold entry_ok in Hm.
  destruct (model_entry m); [by apply json_ok_set | done].
Qed.

Lemma put_other ms out n : n ∉ map name ms → prop n (fold_left put ms out) = prop n out.
Proof.
  revert out. induction ms as [|m ms IH]; intros out; simpl; [done|].
  intros [Hn Hms]%not_elem_of_cons. rewrite IH by done. unfold put.
  destruct (model_entry m); [|done]. rewrite prop_set. by rewrite decide_False by congruence.
Qed.

Lemma put_self ms out m :
  NoDup (map name ms) → m ∈ ms →
  prop (name m) (fold_left put ms out) =
  match model_entry m with Some v => v | None => prop (name m) out end.
Proof.
  revert out. induction ms as [|x ms IH]; intros out Hnd Hm; [by apply elem_of_nil in Hm|].
  simpl in *. apply NoDup_cons in Hnd as [Hx Hnd]. apply elem_of_cons in Hm as [->|Hm].
  - rewrite put_other by done. unfold put. destruct (model_entry x); [|done].
    rewrite prop_set. by rewrite decide_True.
  - rewrite IH by done. destruct (model_entry m); [done|]. unfold put.
    destruct (model_entry x); [|done]. rewrite prop_set. rewrite decide_False; [done|].
    intros E. apply Hx. rewrite E. by apply list_elem_of_fmap_2.
Qed.

Lemma put_keys ms out k : k ∈ keys (fold_left put ms out) → k ∈ keys out ∨ k ∈ map name ms.
Proof.
  revert out. induction ms as [|m ms IH]; intros out; simpl; [by left|]. intros H%IH.
  rewrite elem_of_cons. destruct H as [H|H]; [|by auto]. unfold put in H.
  destruct (model_entry m); [|by left]. apply keys_set in H as [->|H]; auto.
Qed.

Definition clean_name (n : jsstr) : Prop := trim n = n ∧ n ≠ [].

Lemma dedupe_clean o : props_sorted o → Forall clean_name (keys o) → dedupeModelPriceMap (VObj o) = o.
Proof.
  intros Hs Hc. unfold dedupeModelPriceMap. cbn [entries].
  trans (spread [] o); [|by rewrite (spread_nil_sorted [] o)].
  unfold spread. clear Hs. generalize (@nil (jsstr * value)). induction o as [|[k v] o IH]; intros acc; [done|].
  cbn [keys map] in Hc. apply Forall_cons in Hc as [[Et Hk] Hc]. cbn. cbn in Et. rewrite Et.
  destruct k; [done|]. by apply IH.
Qed.

(** C28: what [handleSubmit] writes is what the editor loads: the text it sends
    parses to the object it was printed from, that object has no name to merge, and
    every model with an entry is read back in its billing mode, as configured, with
    exactly that entry to write again, while a model without one is absent.  The
    hypotheses are the invariant of the names and that each price is shown by a text
    with its value. *)
Theorem saved_prices_reload ms :
  NoDup (map name ms) → Forall clean_name (map name ms) →
  forallb model_stable ms = true → forallb entry_ok ms = true →
  let out := ModelPrice_output ms in
  parseOptionJSON (VStr (ser gap2 [] (VObj out))) = Some (VObj out) ∧
  dedupeModelPriceMap (VObj out) = out ∧
  ∀ m, m ∈ ms → match model_entry m with
    | Some v => reloads m v (buildModelState (name m) (dedupeModelPriceMap (VObj out)))
    | None => prop (name m) out = VUndef
    end.
Proof.
  intros Hnd Hc Hs Hok out. assert (json_ok (VObj out) = true) as Hj by (by apply put_ok).
  assert (dedupeModelPriceMap (VObj out) = out) as Hd.
  { rewrite json_ok_obj in Hj. apply andb_true_iff in Hj as [Hsort%bool_decide_eq_true _].
    apply dedupe_clean; [done|]. apply Forall_forall. intros k [Hk|Hk]%put_keys; [by apply elem_of_nil in Hk|].
    by apply (proj1 (Forall_forall _ _) Hc). }
  split; [|split; [done|]].
  - pose proof (ser_nonblank gap2 [] _ Hj) as Hn. unfold parseOptionJSON. cbn [truthy].
    rewrite (proj2 (str_truthy_true _)) by (intros E; apply Hn; by rewrite E). cbn [negb].
    destruct (trim _) eqn:E; [done|]. by rewrite (json_parse_ser gap2 _ gap2_ws Hj).
  - intros m Hm. pose proof (put_self ms [] m Hnd Hm) as Hp.
    destruct (model_entry m) eqn:Em; [|by rewrite <- prop_nil with (k := name m)].
    rewrite Hd. apply entry_reload; [|done|done].
    by apply (proj1 (forallb_forall _ _) Hs), list_elem_of_In.
Qed.

Lemma saved_prices_reload_witness :
  let ms :=
    [mk_model (u "a") PerToken [] false (mk_prices (u "2.50") [] (u ".25") [] [] [] []) [] true;
     mk_model (u "b") PerRequest (u "0.04") true NO_PRICES [] true;
     mk_model (u "c") Tiered [] false NO_PRICES [mk_tier (u "128000.9") (u "1") [] [] []; EMPTY_TIER] true;
     mk_model (u "d") PerToken [] false NO_PRICES [] false] in
  dedupeModelPriceMap (VObj (ModelPrice_output ms)) = ModelPrice_output ms.
Proof.
  intros ms. refine (proj1 (proj2 (saved_prices_reload ms _ _ _ _))).
  - apply (bool_decide_eq_true_1 _). vm_compute. reflexivity.
  - repeat constructor; try (vm_compute; reflexivity); discriminate.
  - vm_compute. reflexivity.
  - vm_compute. reflexivity.
Defined.
