(* ===== verification/ModelPricingHook.v ===== *)
(** * Model pricing editor: the hook's state
    The invariant that the effects restore after every event, the edited model
    staying selected, and the batch copy. *)

From stdpp Require Import base numbers option strings sets list.
From S2P Require Import Prelude JsString JsNumber JsValue Json ModelPricing ModelPricingLaws.

Section hook.
Context (t : jsstr → jsstr) (locale_leb : jsstr → jsstr → bool) (engine_message : jsstr) (unset_only : bool).

Local Notation base_models := (base_models unset_only).
Local Notation visibleModels := (visibleModels unset_only).
Local Notation selectedModel := (selectedModel unset_only).
Local Notation fix_selected := (fix_selected unset_only).
Local Notation fix_names := (fix_names unset_only).
Local Notation settle := (settle unset_only).
Local Notation handle := (handle t locale_leb engine_message unset_only).
Local Notation step := (step t locale_leb engine_message unset_only).

Inductive reachable : state → Prop :=
  | reach_init : reachable (init unset_only)
  | reach_step s e : reachable s → reachable (step s e).

(** *** The list of models *)

Definition names_ok (ms : list model) : Prop :=
  NoDup (map name ms) ∧ Forall clean_name (map name ms).

Lemma names_ok_filter (P : model → Prop) `{∀ m, Decision (P m)} ms : names_ok ms → names_ok (filter P ms).
Proof.
  intros [Hn Hc]. assert (sublist (filter P ms) ms) as Hs.
  { induction ms as [|m ms IH]; [constructor|]. rewrite filter_cons. simpl in *.
    apply NoDup_cons in Hn as [_ Hn]. apply Forall_cons in Hc as [_ Hc].
    case_decide; constructor; auto. }
  split.
  - apply (sublist_NoDup _ _ Hn). by apply (fmap_sublist name).
  - rewrite Forall_forall in Hc |- *. intros n Hin. apply Hc.
    apply list_elem_of_fmap in Hin as (m & -> & [_ Hm]%list_elem_of_filter). by apply list_elem_of_fmap_2.
Qed.

Lemma upsert_names n f ms :
  (∀ m, name (f m) = name m) →
  map name (map (λ m, if decide (name m = n) then f m else m) ms) = map name ms.
Proof. intros Hf. rewrite map_map. apply map_ext. intros m. by case_decide. Qed.

Lemma set_field_name f v m : name (set_field f v m) = name m.
Proof. by destruct m as [? ? ? ? [] ? ?], f. Qed.

Lemma on_selected_names f s :
  (∀ m, name (f m) = name m) →
  map name (models (on_selected unset_only f s)) = map name (models s).
Proof.
  intros Hf. unfold on_selected. destruct (selectedModel s); [|done].
  by apply (upsert_names (name m)).
Qed.

(** *** Which models are visible *)

Lemma find_model_Some n ms m : find_model n ms = Some m → m ∈ ms ∧ name m = n.
Proof. intros [H1 H2%bool_decide_eq_true]%find_some. split; [by apply list_elem_of_In | done]. Qed.

Lemma find_model_None n ms : find_model n ms = None → n ∉ map name ms.
Proof.
  intros H Hn. apply list_elem_of_fmap in Hn as (m & -> & Hm).
  pose proof (find_none _ _ H m (proj1 (list_elem_of_In _ _) Hm)) as E. simpl in E.
  by apply bool_decide_eq_false in E.
Qed.

Lemma find_model_elem ms m : NoDup (map name ms) → m ∈ ms → find_model (name m) ms = Some m.
Proof.
  intros Hn Hm. induction ms as [|x ms IH]; [by apply elem_of_nil in Hm|]. simpl in *.
  apply NoDup_cons in Hn as [Hx Hn]. apply elem_of_cons in Hm as [->|Hm].
  - by rewrite bool_decide_true.
  - rewrite bool_decide_false; [by apply IH|]. intros E. apply Hx. rewrite E.
    by apply list_elem_of_fmap_2.
Qed.

Lemma base_subset s m : m ∈ base_models s → m ∈ models s.
Proof.
  unfold ModelPricing.base_models. destruct (statusFilter s), unset_only;
    rewrite ?list_elem_of_filter; tauto.
Qed.

Lemma visible_subset s m : m ∈ visibleModels s → m ∈ models s.
Proof.
  unfold ModelPricing.visibleModels. cbv zeta. case_match; [|apply base_subset].
  destruct (find_model _ _) eqn:E; [|apply base_subset]. apply find_model_Some in E as [? _].
  rewrite elem_of_cons. intros [->|]; [done | by apply base_subset].
Qed.

Lemma visible_base s :
  selectedModelName s ∉ map name (visibleModels s) → visibleModels s = base_models s.
Proof.
  unfold ModelPricing.visibleModels. cbv zeta. case_match; [|done].
  destruct (find_model _ _) eqn:E; [|done]. apply find_model_Some in E as [_ E].
  simpl. rewrite E. intros H'. exfalso. apply H'. by left.
Qed.

(** Selecting a model of the filtered list adds nothing to it. *)
Lemma visible_with_selected s n :
  n = [] ∨ n ∈ map name (base_models s) → visibleModels (with_selected n s) = base_models s.
Proof.
  intros H. unfold ModelPricing.visibleModels. cbv zeta. simpl.
  change (base_models (with_selected n s)) with (base_models s).
  destruct H as [->|H]; [done|]. by rewrite (bool_decide_true _ H), andb_false_r.
Qed.

(** Of the models of the state, the selected one is always visible. *)
Lemma selected_visible s :
  selectedModelName s ≠ [] → selectedModelName s ∈ map name (models s) →
  selectedModelName s ∈ map name (visibleModels s).
Proof.
  intros Hn%str_truthy_true Hm. unfold ModelPricing.visibleModels. cbv zeta. rewrite Hn. simpl.
  case_bool_decide as Hb; [done|]. simpl.
  destruct (find_model _ _) eqn:E; [|by apply find_model_None in E].
  apply find_model_Some in E as [_ E]. simpl. rewrite E. by left.
Qed.

(** *** The invariant *)

Record inv (s : state) : Prop := {
  inv_names : names_ok (models s);
  inv_selected : match visibleModels s with
    | [] => selectedModelName s = []
    | _ => selectedModelName s ∈ map name (visibleModels s)
    end;
  inv_checked : ∀ n, n ∈ selectedModelNames s → n ∈ map name (visibleModels s);
}.

Lemma fix_selected_spec s :
  visibleModels (fix_selected s) = visibleModels s ∧
  match visibleModels s with
  | [] => selectedModelName (fix_selected s) = []
  | _ => selectedModelName (fix_selected s) ∈ map name (visibleModels s)
  end.
Proof.
  unfold ModelPricing.fix_selected. destruct (visibleModels s) as [|m l] eqn:E.
  - split; [|done]. assert (visibleModels s = base_models s) as Hb.
    { apply visible_base. rewrite E. apply not_elem_of_nil. }
    rewrite visible_with_selected by (by left). congruence.
  - case_bool_decide as Hs; [done|].
    assert (visibleModels s = base_models s) as Hb by (apply visible_base; by rewrite E).
    split; [|by left]. rewrite visible_with_selected; [congruence|].
    right. rewrite <- Hb, E. by left.
Qed.

Lemma settle_inv s : names_ok (models s) → inv (settle s).
Proof.
  intros Hn. destruct (fix_selected_spec s) as [Ev Hs].
  assert (models (fix_selected s) = models s) as Em.
  { unfold ModelPricing.fix_selected. by destruct (visibleModels s); [|case_bool_decide]. }
  unfold ModelPricing.settle, ModelPricing.fix_names. rewrite Ev. split.
  - simpl. by rewrite Em.
  - change (visibleModels (with_names ?f ?s)) with (visibleModels s). by rewrite Ev.
  - change (visibleModels (with_names ?f ?s)) with (visibleModels s). rewrite Ev.
    intros n. simpl. rewrite list_elem_of_filter. tauto.
Qed.

Lemma buildModelState_name n o m : buildModelState n o = Some m → name m = n.
Proof.
  unfold buildModelState. intros H. repeat (apply bind_Some in H as (? & _ & H)). by injection H as <-.
Qed.

Lemma mapM_names ns o ms : mapM (λ n, buildModelState n o) ns = Some ms → map name ms = ns.
Proof.
  intros H%mapM_Some. induction H as [|n m ns ms E _ IH]; [done|]. simpl.
  by rewrite (buildModelState_name _ _ _ E), IH.
Qed.

Lemma dedupe_keys v k : k ∈ keys (dedupeModelPriceMap v) → trim k = k.
Proof.
  unfold dedupeModelPriceMap. generalize (entries v) as o.
  assert (∀ k, k ∈ keys (@nil (jsstr * value)) → trim k = k) as H0 by (intros ? []%elem_of_nil).
  revert H0. generalize (@nil (jsstr * value)) as acc. intros acc H0 o. revert acc H0.
  induction o as [|[k' x] o IH]; intros acc H0; simpl; [apply H0|].
  apply IH. intros k0. destruct (trim k') eqn:E; [apply H0|]. rewrite keys_set.
  intros [->|]; [|by apply H0]. rewrite <- E. apply trim_idemp.
Qed.

Lemma candidate_name_trimmed c n : candidate_name c = Some n → trim n = n.
Proof.
  assert (∀ v, normalizeModelName v = Some n → trim n = n) as H.
  { intros v E. apply fmap_Some in E as (x & _ & ->). apply trim_idemp. }
  unfold candidate_name. intros E. destruct c; try (by apply (H _ E)); apply bind_Some in E as (? & _ & E); by apply (H _ E).
Qed.

Lemma load_models_names o cs ms : load_models locale_leb o cs = Some ms → names_ok ms.
Proof.
  unfold load_models. destruct (parseOptionJSON o) as [raw|]; [|done]. simpl.
  destruct (mapM candidate_name cs) as [ns|] eqn:Ec; [|done]. simpl.
  destruct (mapM (λ n, buildModelState n _) _) as [l|] eqn:El; [|done]. cbn. intros H. injection H as <-.
  apply mapM_names in El.
  assert (map name (sort (λ a b, locale_leb (name a) (name b)) l) ≡ₚ map name l) as Hp
    by (apply Permutation_map, sort_perm).
  split.
  - rewrite Hp, El. apply NoDup_set_order.
  - rewrite Hp, El. apply Forall_forall. intros n. rewrite elem_of_set_order, elem_of_app, !list_elem_of_filter.
    intros [[Hn Hin]|[Hn Hin]]; split; try done; [|by apply dedupe_keys in Hin].
    apply mapM_Some in Ec. apply list_elem_of_lookup in Hin as [i Hi].
    destruct (Forall2_lookup_r _ _ _ _ _ Ec Hi) as (c & _ & E).
    by apply candidate_name_trimmed in E.
Qed.

Lemma handle_names s e : names_ok (models s) → names_ok (models (handle e s)).
Proof.
  intros Hn. assert (∀ f, (∀ m, name (f m) = name m) → names_ok (models (on_selected unset_only f s))) as Hf.
  { intros f Hf. unfold names_ok. by rewrite on_selected_names. }
  destruct e; simpl; try done.
  - unfold load. destruct (load_models _ _ _) eqn:E; [|done]. by apply load_models_names in E.
  - unfold handleNumericFieldChange. case_match; [|done]. apply Hf, set_field_name.
  - by apply Hf.
  - by apply Hf.
  - unfold handleTierChange. case_match; [|done]. by apply Hf.
  - by apply Hf.
  - by apply Hf.
  - unfold addModel. destruct (trim n) eqn:E; [done|]. case_bool_decide as Hd; [done|]. simpl.
    destruct Hn as [H1 H2]. split; simpl; constructor; try done. split; [|done].
    rewrite <- E. apply trim_idemp.
  - unfold deleteModel. case_decide; by apply names_ok_filter.
  - unfold applySelectedModelPricing. destruct (selectedModel s); [|done].
    destruct (selectedModelNames s); [done|]. simpl. unfold names_ok.
    rewrite map_map. erewrite map_ext; [exact Hn|]. intros x. by case_decide.
  - unfold submit_end. destruct response; [|done]. simpl. case_match; [|done]. by destruct refreshed.
Qed.

Lemma reachable_inv s : reachable s → inv s.
Proof.
  intros Hr. destruct Hr as [|s e Hr].
  - split; simpl; [split; constructor| |by intros ? ?%elem_of_nil].
    unfold ModelPricing.visibleModels, ModelPricing.base_models. simpl. by destruct unset_only.
  - apply settle_inv. assert (names_ok (models s)) as Hn; [|by apply handle_names].
    induction Hr as [|s e' Hr IH]; [split; constructor|]. by apply settle_inv, handle_names.
Qed.


(** *** Edits of the selected model *)

(** The change that an event makes to the selected model. *)
Definition edit_of (e : event) : option (model → model) :=
  match e with
  | ENumeric f v => if NUMERIC_INPUT v then Some (set_field f v) else None
  | EBilling b => Some (change_billing b)
  | EUnit b => Some (λ m, mk_model (name m) (billingMode m) (fixedPrice m) b (tokenPrices m)
      (tiers m) (hasConfiguration m))
  | EAddTier => Some (λ m, mk_model (name m) (billingMode m) (fixedPrice m) (unit_second m)
      (tokenPrices m) (tiers m ++ [EMPTY_TIER]) (hasConfiguration m))
  | ETier i f v =>
      if tier_input_ok f v then Some (λ m, with_tiers (alter (set_tier_field f v) i (tiers m)) m) else None
  | ERemoveTier i => Some (λ m, with_tiers (delete i (tiers m)) m)
  | _ => None
  end.

Lemma edit_handle e f s : edit_of e = Some f → handle e s = on_selected unset_only f s.
Proof.
  unfold edit_of. intros H. destruct e; simpl in *; simplify_eq; try done.
  - unfold handleNumericFieldChange. by destruct (NUMERIC_INPUT v); simplify_eq.
  - unfold handleTierChange. by destruct (tier_input_ok f0 v); simplify_eq.
Qed.

Lemma edit_name e f m : edit_of e = Some f → name (f m) = name m.
Proof.
  unfold edit_of. intros H. destruct e; simpl in *; simplify_eq; try done.
  - destruct (NUMERIC_INPUT v); simplify_eq. apply set_field_name.
  - by destruct (tier_input_ok f0 v); simplify_eq.
Qed.

Lemma elem_of_base s m :
  m ∈ base_models s ↔
  m ∈ models s ∧ (unset_only = true → name m ∈ initialVisibleModelNames s) ∧
  match statusFilter s with
  | SConfigured => hasConfiguration m = true
  | SUnset => hasConfiguration m = false
  | SAll => True
  end.
Proof.
  unfold ModelPricing.base_models. cbv zeta.
  destruct (statusFilter s), unset_only; rewrite ?list_elem_of_filter; naive_solver.
Qed.

Lemma base_visible s m : m ∈ base_models s → m ∈ visibleModels s.
Proof.
  unfold ModelPricing.visibleModels. cbv zeta. case_match; [|done].
  destruct (find_model _ _); [by right | done].
Qed.

Lemma visible_other s m :
  m ∈ visibleModels s → name m ≠ selectedModelName s → m ∈ base_models s.
Proof.
  unfold ModelPricing.visibleModels. cbv zeta. case_match; [|done].
  destruct (find_model _ _) eqn:E; [|done]. apply find_model_Some in E as [_ E].
  rewrite elem_of_cons. by intros [->|].
Qed.

Lemma name_unique ms a b : NoDup (map name ms) → a ∈ ms → b ∈ ms → name a = name b → a = b.
Proof.
  intros Hn Ha Hb E. pose proof (find_model_elem ms a Hn Ha) as Ea.
  rewrite E, (find_model_elem ms b Hn Hb) in Ea. congruence.
Qed.

Section upsert.
Context (s : state) (m : model) (f : model → model).
Context (Hi : inv s) (Hm : selectedModel s = Some m) (Hf : ∀ x, name (f x) = name x).
Local Notation s1 := (upsertModel (name m) f s).

Lemma upsert_selected_name : selectedModelName s = name m.
Proof. by apply find_model_Some in Hm as [_ ->]. Qed.

Lemma upsert_selected_visible : name m ∈ map name (visibleModels s1).
Proof.
  pose proof upsert_selected_name as E. pose proof (find_model_Some _ _ _ Hm) as [Hv _].
  apply visible_subset in Hv. destruct (inv_names _ Hi) as [_ Hc].
  pose proof (selected_visible s1) as Hs. cbn [upsertModel with_models selectedModelName models] in Hs.
  rewrite E in Hs. apply Hs.
  - apply (proj1 (Forall_forall clean_name _) Hc). by apply list_elem_of_fmap_2.
  - rewrite upsert_names by done. by apply list_elem_of_fmap_2.
Qed.

Lemma upsert_visible n : n ∈ map name (visibleModels s) → n ∈ map name (visibleModels s1).
Proof.
  intros Hn. destruct (decide (n = name m)) as [->|Hne]; [apply upsert_selected_visible|].
  apply list_elem_of_fmap in Hn as (x & -> & Hx). apply list_elem_of_fmap_2, base_visible.
  apply visible_other in Hx; [|by rewrite upsert_selected_name].
  apply elem_of_base in Hx as (Hx & Hrest). apply elem_of_base. split; [|done]. simpl.
  apply list_elem_of_fmap. exists x. split; [|done]. by rewrite decide_False.
Qed.

Lemma upsert_selected : selectedModel s1 = Some (f m).
Proof.
  pose proof upsert_selected_name as E. unfold ModelPricing.selectedModel. simpl. rewrite E.
  destruct (find_model _ _) as [m'|] eqn:Ef.
  - apply find_model_Some in Ef as [Hv En]. f_equal.
    pose proof (find_model_Some _ _ _ Hm) as [Hm' _]. apply visible_subset in Hm', Hv.
    simpl in Hv. apply list_elem_of_fmap in Hv as (x & -> & Hx).
    case_decide as Hd; [|done]. f_equal.
    apply (name_unique (models s)); try done. apply (inv_names _ Hi).
  - apply find_model_None in Ef. by destruct (Ef upsert_selected_visible).
Qed.

Lemma upsert_settled : settle s1 = s1.
Proof.
  assert (fix_selected s1 = s1) as Es.
  { unfold ModelPricing.fix_selected. pose proof upsert_selected_visible as Hv.
    destruct (visibleModels s1); [by apply elem_of_nil in Hv|].
    rewrite bool_decide_true; [done|]. simpl selectedModelName. by rewrite upsert_selected_name. }
  unfold ModelPricing.settle. rewrite Es. unfold ModelPricing.fix_names, with_names.
  rewrite (filter_all _ (selectedModelNames s1)); [done|].
  intros n Hn. by apply upsert_visible, (inv_checked _ Hi).
Qed.
End upsert.

(** an edit of the selected model changes that model only and keeps it
    selected, and every checked model checked, even when it no longer matches the
    status filter. *)
Theorem edit_keeps_selection s e f m :
  reachable s → edit_of e = Some f → selectedModel s = Some m →
  let s' := step s e in
  selectedModel s' = Some (f m) ∧
  models s' = map (λ x, if decide (name x = name m) then f x else x) (models s) ∧
  selectedModelName s' = selectedModelName s ∧
  selectedModelNames s' = selectedModelNames s ∧ currentPage s' = currentPage s.
Proof.
  intros Hr He Hm. pose proof (reachable_inv s Hr) as Hi.
  pose proof (λ x, edit_name e f x He) as Hf.
  unfold ModelPricing.step. rewrite (edit_handle e f s He). unfold on_selected. rewrite Hm.
  rewrite (upsert_settled s m f Hi Hm Hf). split; [by apply upsert_selected|]. done.
Qed.
End hook.

(** ** Concrete runs *)

Definition sample : state :=
  step id (λ _ _, true) [] false (init false) (EAdd (u " gpt ")).

Lemma sample_reachable : reachable id (λ _ _, true) [] false sample.
Proof. apply reach_step, reach_init. Qed.


Lemma edit_keeps_selection_witness :
  selectedModel false
    (step id (λ _ _, true) [] false (with_page 1 sample) (ENumeric FInput (u "2.5"))) =
  Some (set_field FInput (u "2.5") (mk_model (u "gpt") PerToken [] false NO_PRICES [] false)).
Proof.
  refine (proj1 (edit_keeps_selection id (λ _ _, true) [] false sample _ _ _ sample_reachable _ _));
    vm_compute; reflexivity.
Defined.
