(* ===== verification/ElectronConnect.v ===== *)
(** * Desktop shell: waiting for the server
    [checkServerAvailability] of [src/electron/main.js]: requests to the port are
    repeated until one is answered or the attempts are used up.  The requests, their
    timers and their events are those of Node: a request is answered, fails, or times
    out; [req.destroy()] on one that timed out makes it fail as well. *)

From stdpp Require Import base numbers option strings sets list.
From S2P Require Import Prelude JsString JsNumber.

(** ** State and handlers *)

Inductive outcome := Resolved | Rejected (message : jsstr).

Record state := mk_state {
  currentAttempt : nat;
  live : nat;        (** requests without an answer *)
  destroyed : nat;   (** requests destroyed by the timeout handler, before their error *)
  timers : nat;      (** [setTimeout(tryConnect, retryDelay)] not yet fired *)
  promise : option outcome;
}.

(** A promise is settled once. *)
Definition settle (o : outcome) (s : state) : state :=
  mk_state (currentAttempt s) (live s) (destroyed s) (timers s)
    (match promise s with None => Some o | p => p end).

Definition nat_text (n : nat) : jsstr := dec_N (N.of_nat n).

Section connect.
Variable port maxRetries : nat.

Definition tryConnect (s : state) : state :=
  mk_state (S (currentAttempt s)) (S (live s)) (destroyed s) (timers s) (promise s).

(** [currentAttempt >= maxRetries ? reject(...) : setTimeout(tryConnect, retryDelay)] *)
Definition retry (message : jsstr) (s : state) : state :=
  if (maxRetries <=? currentAttempt s)%nat then settle (Rejected message) s
  else mk_state (currentAttempt s) (live s) (destroyed s) (S (timers s)) (promise s).

Definition error_text (err : jsstr) : jsstr :=
  u "Failed to connect to port " ++ nat_text port ++ u " after " ++ nat_text maxRetries ++
  u " attempts: " ++ err.
Definition timeout_text : jsstr :=
  u "Connection timeout on port " ++ nat_text port ++ u " after " ++ nat_text maxRetries ++ u " attempts".

Inductive event :=
  | Fire                    (** a timer runs [tryConnect] *)
  | Response
  | Error (err : jsstr)     (** of a request that was not destroyed *)
  | Timeout
  | Destroyed (err : jsstr) (** the error of a request that was *).

(** [None]: the event cannot happen in the state. *)
Definition handle (e : event) (s : state) : option state :=
  let '(mk_state a l d t p) := s in
  match e, l, d, t with
  | Fire, _, _, S t => Some (tryConnect (mk_state a l d t p))
  | Response, S l, _, _ => Some (settle Resolved (mk_state a l d t p))
  | Error err, S l, _, _ => Some (retry (error_text err) (mk_state a l d t p))
  | Timeout, S l, _, _ => Some (retry timeout_text (mk_state a l (S d) t p))
  | Destroyed err, _, S d, _ => Some (retry (error_text err) (mk_state a l d t p))
  | _, _, _, _ => None
  end.

Definition checkServerAvailability : state := tryConnect (mk_state 0 0 0 0 None).

Fixpoint run (es : list event) (s : state) : option state :=
  match es with
  | [] => Some s
  | e :: es => s ← handle e s; run es s
  end.

Definition is_timeout (e : event) : bool := match e with Timeout => true | _ => false end.
Definition quiet (s : state) : Prop := live s = 0%nat ∧ destroyed s = 0%nat ∧ timers s = 0%nat.

(** ** Laws *)

Lemma run_ind (P : state → Prop) :
  P checkServerAvailability →
  (∀ e s s', P s → handle e s = Some s' → P s') →
  ∀ es s, run es checkServerAvailability = Some s → P s.
Proof.
  intros H0 Hstep es. revert H0. generalize checkServerAvailability as s0.
  induction es as [|e es IH]; intros s0 H0 s H; simpl in H; [by simplify_eq|].
  apply bind_Some in H as (s1 & H1 & H). eauto.
Qed.

Ltac handle_cases H :=
  match type of H with handle ?e ?s = Some _ =>
    destruct s as [a l d t p], e; simpl in H; repeat (case_match; try done); simplify_eq/=
  end;
  unfold retry, settle in *; simpl in *; repeat case_match; simplify_eq/=;
  rewrite ?Nat.leb_le, ?Nat.leb_gt in *.

(** The promise is settled unless something is still under way. *)
Lemma quiet_settled es s :
  run es checkServerAvailability = Some s → quiet s → is_Some (promise s).
Proof.
  intros H. assert (promise s = None → (live s + destroyed s + timers s > 0)%nat) as Hc.
  { refine (run_ind (λ s, promise s = None → (live s + destroyed s + timers s > 0)%nat) _ _ es s H);
      [simpl; lia|].
    clear. intros e s s' IH H. handle_cases H; intros; simplify_eq; lia. }
  intros [? [? ?]]. destruct (promise s); [by eexists|]. specialize (Hc eq_refl). lia.
Qed.

(** Each failure seen below the limit starts a timer, and a request destroyed by a
    timeout fails twice. *)
Lemma attempts_inv es s :
  (0 < maxRetries)%nat → run es checkServerAvailability = Some s →
  (currentAttempt s < maxRetries)%nat ∧
    (timers s + live s + live s + destroyed s <= currentAttempt s + 1)%nat ∨
  (maxRetries <= currentAttempt s)%nat ∧ (currentAttempt s + timers s <= 2 * maxRetries - 1)%nat.
Proof.
  intros Hn H. refine (run_ind (λ s,
    (currentAttempt s < maxRetries)%nat ∧
      (timers s + live s + live s + destroyed s <= currentAttempt s + 1)%nat ∨
    (maxRetries <= currentAttempt s)%nat ∧ (currentAttempt s + timers s <= 2 * maxRetries - 1)%nat)
    _ _ es s H); [simpl; lia|].
  clear H s. intros e s s' IH H. handle_cases H; lia.
Qed.

(** A request has at most two events, and each but the first has a timer. *)
Lemma events_inv es s :
  run es checkServerAvailability = Some s →
  (length es + live s + live s + destroyed s + 1 <= 3 * currentAttempt s)%nat.
Proof.
  assert (∀ es s0 s n, (n + live s0 + live s0 + destroyed s0 + 1 <= 3 * currentAttempt s0)%nat →
    run es s0 = Some s → (n + length es + live s + live s + destroyed s + 1 <= 3 * currentAttempt s)%nat) as Hg.
  { clear. induction es as [|e es IH]; intros s0 s n Hn H; simpl in H; [simplify_eq/=; lia|].
    apply bind_Some in H as (s1 & H1 & H). simpl. replace (n + S (length es))%nat with (S n + length es)%nat by lia.
    apply (IH s1 s (S n)); [|done]. handle_cases H1; lia. }
  intros H. by apply (Hg es checkServerAvailability s 0%nat); [simpl; lia|].
Qed.

Lemma no_timeout_inv es s :
  (0 < maxRetries)%nat → Forall (λ e, is_timeout e = false) es →
  run es checkServerAvailability = Some s → (currentAttempt s <= maxRetries)%nat.
Proof.
  intros Hn Hes H.
  assert (destroyed s = 0 ∧ live s + timers s <= 1 ∧ currentAttempt s <= maxRetries ∧
    (timers s = 1 → currentAttempt s < maxRetries))%nat; [|tauto].
  revert H. assert (destroyed checkServerAvailability = 0 ∧
    live checkServerAvailability + timers checkServerAvailability <= 1 ∧
    currentAttempt checkServerAvailability <= maxRetries ∧
    (timers checkServerAvailability = 1 → currentAttempt checkServerAvailability < maxRetries))%nat as H0
    by (simpl; lia).
  revert H0. generalize checkServerAvailability as s0.
  induction Hes as [|e es He _ IH]; intros s0 H0 H; simpl in H; [by simplify_eq|].
  apply bind_Some in H as (s1 & H1 & H). apply (IH s1); [|done]. handle_cases H1; try done; lia.
Qed.

Lemma quiet_iff s : (∀ e, handle e s = None) ↔ quiet s.
Proof.
  unfold quiet. destruct s as [a l d t p]. simpl. split.
  - intros H. pose proof (H Response). pose proof (H (Destroyed [])). pose proof (H Fire).
    simpl in *. by destruct l, d, t.
  - intros (-> & -> & ->) e. by destruct e.
Qed.

(** C38: the wait ends.  Whatever the requests do, at most [6 * maxRetries - 4]
    events happen and at most [2 * maxRetries - 1] requests are made; when nothing
    more can happen the promise is settled; and if no request times out, at most
    [maxRetries] requests are made. *)
Theorem connect_settles es s :
  (0 < maxRetries)%nat → run es checkServerAvailability = Some s →
  (length es <= 6 * maxRetries - 4)%nat ∧ (currentAttempt s <= 2 * maxRetries - 1)%nat ∧
  ((∀ e, handle e s = None) → is_Some (promise s)) ∧
  (Forall (λ e, is_timeout e = false) es → (currentAttempt s <= maxRetries)%nat).
Proof.
  intros Hn H. pose proof (attempts_inv es s Hn H). pose proof (events_inv es s H).
  split; [lia|]. split; [lia|]. split.
  - intros Hq%quiet_iff. by apply (quiet_settled es).
  - intros He. by apply (no_timeout_inv es).
Qed.
End connect.

(** ** Concrete runs *)

(** The server answers on the third attempt. *)
Lemma connect_settles_witness :
  (currentAttempt (mk_state 3 0 0 0 (Some Resolved)) <= 2 * 30 - 1)%nat.
Proof.
  refine (proj1 (proj2 (connect_settles 3000 30 [Error (u "refused"); Fire; Error (u "refused"); Fire; Response]
    _ _ _))); [lia | vm_compute; reflexivity].
Defined.

(** The requests that time out are retried twice each. *)
Definition hung : list event :=
  concat (replicate 29 [Timeout; Destroyed (u "socket hang up"); Fire]) ++ replicate 29 Fire.

(** the limit of attempts does not hold when requests time out: each of them
    starts two retries, from its timeout and from the error that destroying it
    causes, so that with the default limit of 30 a run makes 59 requests. *)
Theorem timeouts_double_attempts port :
  ∃ s, run port 30 hung checkServerAvailability = Some s ∧ currentAttempt s = 59%nat ∧ promise s = None.
Proof. eexists. split; [vm_compute; reflexivity | done]. Qed.
