(* ===== verification/ElectronMain.v ===== *)
(** * Desktop shell: the main process
    [src/electron/main.js]: the server is started, its errors are kept and analysed,
    and the window, the tray, the dialogs and the exit follow the events of Electron
    and Node.  What the process asks of them is the list of effects, last first;
    messages to the console are left out. *)

From stdpp Require Import base numbers option strings sets list.
From S2P Require Import Prelude JsString JsNumber JsValue Json.

Definition PORT : nat := 3000.
Definition DEV_FRONTEND_PORT : nat := 5173.
Definition nl : jsstr := [10%N].

(** ** Known errors *)

Record known_error := mk_known_error {
  k_type : jsstr; k_title : jsstr; k_message : jsstr; k_solution : jsstr;
}.

Definition port_error : known_error :=
  mk_known_error (u "端口被占用") (u "端口 3000 被占用") (u "无法启动服务器，端口已被其他程序占用")
    (u "可能的解决方案：

1. 关闭占用端口 3000 的其他程序
2. 检查是否已经运行了另一个 New API 实例
3. 使用以下命令查找占用端口的进程：
   Mac/Linux: lsof -i :3000
   Windows: netstat -ano | findstr :3000
4. 重启电脑以释放端口").

Definition file_error : known_error :=
  mk_known_error (u "数据文件被占用") (u "无法访问数据文件") (u "应用的数据文件正被其他程序占用")
    (u "可能的解决方案：

1. 检查是否已经打开了另一个 New API 窗口
   - 查看任务栏/Dock 中是否有其他 New API 图标
   - 查看系统托盘（Windows）或菜单栏（Mac）中是否有 New API 图标

2. 如果刚刚关闭过应用，请等待 10 秒后再试

3. 重启电脑以释放被占用的文件

4. 如果问题持续，可以尝试：
   - 退出所有 New API 实例
   - 删除数据目录中的临时文件（.db-shm 和 .db-wal）
   - 重新启动应用").

Definition permission_error : known_error :=
  mk_known_error (u "权限错误") (u "权限不足") (u "程序没有足够的权限执行操作")
    (u "可能的解决方案：

1. 以管理员/root权限运行程序
2. 检查数据目录的读写权限
3. 检查可执行文件的权限
4. 在 Mac 上，检查安全性与隐私设置").

Definition network_error : known_error :=
  mk_known_error (u "网络错误") (u "网络连接失败") (u "无法建立网络连接")
    (u "可能的解决方案：

1. 检查网络连接是否正常
2. 检查防火墙设置
3. 检查代理配置
4. 确认目标服务器地址正确").

Definition config_error : known_error :=
  mk_known_error (u "配置错误") (u "配置文件错误") (u "配置文件格式不正确或包含无效配置")
    (u "可能的解决方案：

1. 检查配置文件格式是否正确
2. 恢复默认配置
3. 删除配置文件让程序重新生成
4. 查看文档了解正确的配置格式").

Definition memory_error : known_error :=
  mk_known_error (u "内存不足") (u "系统内存不足") (u "程序运行时内存不足")
    (u "可能的解决方案：

1. 关闭其他占用内存的程序
2. 增加系统可用内存
3. 重启电脑释放内存
4. 检查是否存在内存泄漏").

Definition missing_error : known_error :=
  mk_known_error (u "文件缺失") (u "找不到必需的文件") (u "缺少程序运行所需的文件")
    (u "可能的解决方案：

1. 重新安装应用程序
2. 检查安装目录是否完整
3. 确保所有依赖文件都存在
4. 检查文件路径是否正确").

(** The conditions of [analyzeError], in its order. *)
Definition error_tests : list ((jsstr → bool) * known_error) :=
  let has (p : string) all := includes all (u p) in
  [((λ a, has "failed to start HTTP server" a || has "bind: address already in use" a ||
       (has "listen tcp" a && has "bind: address already in use" a)), port_error);
   ((λ a, has "database is locked" a || has "unable to open database" a), file_error);
   ((λ a, has "permission denied" a || has "access denied" a), permission_error);
   ((λ a, has "network is unreachable" a || has "no such host" a || has "connection refused" a),
     network_error);
   ((λ a, has "invalid configuration" a || has "failed to parse config" a || has "yaml" a ||
       (has "json" a && has "parse" a)), config_error);
   ((λ a, has "out of memory" a || has "cannot allocate memory" a), memory_error);
   ((λ a, has "no such file or directory" a || has "cannot find the file" a), missing_error)]%string.

Fixpoint first_match (tests : list ((jsstr → bool) * known_error)) (all : jsstr) : option known_error :=
  match tests with
  | [] => None
  | (test, e) :: tests => if test all then Some e else first_match tests all
  end.

Definition analyzeError (errorLogs : list jsstr) : option known_error :=
  first_match error_tests (join nl errorLogs).

Example analyze_ex :
  k_title <$> analyzeError [u "listen tcp :3000: bind: address already in use"; u "database is locked"] =
  Some (u "端口 3000 被占用").
Proof. vm_compute. reflexivity. Qed.

(** ** Effects and dialogs *)

Record dialog_options := mk_dialog {
  d_type : jsstr; d_title : jsstr; d_message : jsstr; d_detail : jsstr; d_buttons : list jsstr;
}.

(** Which call of [showMessageBox] an answer belongs to. *)
Inductive dialog_kind := Crash | CrashSaved | Startup | StartupSaved.
#[export] Instance dialog_kind_eq_dec : EqDecision dialog_kind.
Proof. solve_decision. Defined.

Inductive effect :=
  | SetEnv (name value : jsstr)
  | Mkdir (path : jsstr)
  | Spawn (binary : jsstr) (env : list (jsstr * jsstr)) (cwd : jsstr)
  | CheckPort (port : nat)
  | OpenWindow (preload icon url : jsstr) (devTools : bool)
  | CreateTray (icon : jsstr)
  | CloseWindow | HideWindow | ShowWindow | DockHide | DockShow
  | PreventDefault
  | Quit | Exit
  | Kill (signal : jsstr)
  | StartKillTimer
  | ShowDialog (k : dialog_kind) (o : dialog_options)
  | WriteFile (path content : jsstr)
  | OpenPath (path : jsstr)
  | ShowItemInFolder (path : jsstr).

Record state := mk_state {
  mainWindow : bool;            (** not null *)
  serverProcess : bool;         (** not null *)
  exited : bool;                (** the process has emitted [close], which it does once *)
  quit_listeners : nat;         (** the [close] listeners that [before-quit] added *)
  kill_timers : nat;
  tray : bool;
  serverErrorLogs : list jsstr;
  isQuitting : bool;
  starting : option bool;       (** [startServer()]: not called, pending, settled *)
  effects : list effect;
}.

Definition init : state := mk_state false false false 0 0 false [] false None [].

Definition emit (e : effect) (s : state) : state :=
  mk_state (mainWindow s) (serverProcess s) (exited s) (quit_listeners s) (kill_timers s) (tray s)
    (serverErrorLogs s) (isQuitting s) (starting s) (e :: effects s).
Definition emit_if (b : bool) (e : effect) (s : state) : state := if b then emit e s else s.
Definition set_window (b : bool) (s : state) : state :=
  mk_state b (serverProcess s) (exited s) (quit_listeners s) (kill_timers s) (tray s)
    (serverErrorLogs s) (isQuitting s) (starting s) (effects s).
Definition set_server (b closed : bool) (s : state) : state :=
  mk_state (mainWindow s) b closed (quit_listeners s) (kill_timers s) (tray s)
    (serverErrorLogs s) (isQuitting s) (starting s) (effects s).
Definition set_waits (listeners timers : nat) (s : state) : state :=
  mk_state (mainWindow s) (serverProcess s) (exited s) listeners timers (tray s)
    (serverErrorLogs s) (isQuitting s) (starting s) (effects s).
Definition set_tray (s : state) : state :=
  mk_state (mainWindow s) (serverProcess s) (exited s) (quit_listeners s) (kill_timers s) true
    (serverErrorLogs s) (isQuitting s) (starting s) (effects s).
Definition set_logs (l : list jsstr) (s : state) : state :=
  mk_state (mainWindow s) (serverProcess s) (exited s) (quit_listeners s) (kill_timers s) (tray s)
    l (isQuitting s) (starting s) (effects s).
Definition set_quitting (s : state) : state :=
  mk_state (mainWindow s) (serverProcess s) (exited s) (quit_listeners s) (kill_timers s) (tray s)
    (serverErrorLogs s) true (starting s) (effects s).
Definition set_starting (b : bool) (s : state) : state :=
  mk_state (mainWindow s) (serverProcess s) (exited s) (quit_listeners s) (kill_timers s) (tray s)
    (serverErrorLogs s) (isQuitting s) (Some b) (effects s).

(** The last [n] elements: [l.slice(-n)]. *)
Definition last_n {A} (n : nat) (l : list A) : list A := drop (length l - n) l.

(** What a call of [saveAndOpenErrorLog] finds: the clock, the versions, the log
    directory and whether the calls on the file system succeed. *)
Record save_env := mk_save_env {
  iso_time : jsstr; local_time : jsstr; arch : jsstr; app_version : jsstr;
  log_dir : jsstr; log_dir_exists : bool; mkdir_ok : bool; write_ok : bool;
}.

Section main.
(** [path.join] of Node. *)
Variable path_join : list jsstr → jsstr.
Variable platform : jsstr.
(** [process.env.NODE_ENV === 'development'] *)
Variable isDev : bool.
Variable process_env : list (jsstr * jsstr).
Variables dirname resourcesPath userDataPath : jsstr.
(** [fs.existsSync(dataDir)] *)
Variable data_dir_exists : bool.

Definition is_mac : bool := bool_decide (platform = u "darwin").

(** *** The log file *)

Definition logFileName (e : save_env) : jsstr :=
  u "new-api-crash-" ++ replace_unit 58 45 (replace_unit 46 45 (iso_time e)) ++ u ".log".
Definition logFilePath (e : save_env) : jsstr := path_join [log_dir e; logFileName e].

Definition rule : jsstr := u "━━━━━━━━━━━━━━━━━━━━━━━━━━━━━━━━━━".
Definition logContent (e : save_env) (logs : list jsstr) : jsstr :=
  join nl [u "New API 崩溃日志"; u "生成时间: " ++ local_time e; u "平台: " ++ platform;
    u "架构: " ++ arch e; u "应用版本: " ++ app_version e; []; rule; []; u "完整错误日志:"; [];
    join nl logs; []; rule; []; u "日志文件位置: " ++ logFilePath e; []].

(** The path, or [None] when a call throws. *)
Definition saveAndOpenErrorLog (e : save_env) (s : state) : state * option jsstr :=
  let s := emit_if (negb (log_dir_exists e)) (Mkdir (log_dir e)) s in
  if negb (log_dir_exists e) && negb (mkdir_ok e) then (s, None)
  else
    let s := emit (WriteFile (logFilePath e) (logContent e (serverErrorLogs s))) s in
    if negb (write_ok e) then (s, None) else (emit (OpenPath (logFilePath e)) s, Some (logFilePath e)).

(** *** Starting the server *)

Definition getBinaryPath : jsstr :=
  let binaryName := if bool_decide (platform = u "win32") then u "new-api.exe" else u "new-api" in
  if isDev then path_join [dirname; u ".."; binaryName]
  else path_join [resourcesPath; u "bin"; binaryName].

Definition dataDir : jsstr := path_join [userDataPath; u "data"].

(** [startServer()] up to its first event. *)
Definition startServer (s : state) : state :=
  let s := emit (SetEnv (u "ELECTRON_DATA_DIR") dataDir) (set_starting true s) in
  if isDev then emit (CheckPort DEV_FRONTEND_PORT) s
  else
    let env := set (u "SQLITE_PATH") (path_join [dataDir; u "new-api.db"])
      (set (u "PORT") (dec_N (N.of_nat PORT)) (set (u "ELECTRON_DATA_DIR") dataDir process_env)) in
    let s := emit_if (negb data_dir_exists) (Mkdir dataDir) s in
    let s := set_server true false (emit (Spawn getBinaryPath env resourcesPath) s) in
    emit (CheckPort PORT) s.

Definition on_stderr (data : jsstr) (s : state) : state :=
  let l := serverErrorLogs s ++ [data] in
  set_logs (if (100 <? length l)%nat then tail l else l) s.

Definition QUIT_BUTTONS : list jsstr := [u "退出应用"; u "查看完整日志"].
Definition short_rule : jsstr := u "━━━━━━━━━━━━━━━━━━━━━━".

Definition crash_dialog (code : Z) (logs : list jsstr) : dialog_options :=
  let errorDetails := match logs with
    | [] => u "没有捕获到错误日志" | _ => join nl (last_n 20 logs) end in
  match analyzeError logs with
  | Some e =>
      mk_dialog (u "error") (k_title e) (k_message e)
        (join nl [k_solution e; []; short_rule; []; u "退出代码: " ++ dec_Z code; [];
           u "错误类型: " ++ k_type e; []; u "最近的错误日志:"; errorDetails]) QUIT_BUTTONS
  | None =>
      mk_dialog (u "error") (u "服务器崩溃") (u "服务器进程异常退出")
        (join nl [u "退出代码: " ++ dec_Z code; []; u "最近的错误信息:"; errorDetails]) QUIT_BUTTONS
  end.

(** The listener that [startServer] adds to [close] of the process; [destroyed] is
    the answer of [mainWindow.isDestroyed()]. *)
Definition on_close (code : option Z) (destroyed : bool) (s : state) : state :=
  match code with
  | Some c =>
      if (c =? 0)%Z then emit_if (mainWindow s && negb destroyed) CloseWindow s
      else emit (ShowDialog Crash (crash_dialog c (serverErrorLogs s))) s
  | None => emit_if (mainWindow s && negb destroyed) CloseWindow s
  end.

(** The listeners of [before-quit], which run after it: each forgets the process. *)
Fixpoint exit_times (n : nat) (s : state) : state :=
  match n with
  | O => s
  | S n => exit_times n (emit Exit (set_server false true s))
  end.
Definition on_quit_close (s : state) : state := exit_times (quit_listeners s) s.

(** *** Window and tray *)

Definition createWindow (s : state) : state :=
  let port := if isDev then DEV_FRONTEND_PORT else PORT in
  set_window true (emit (OpenWindow (path_join [dirname; u "preload.js"]) (path_join [dirname; u "icon.png"])
    (u "http://127.0.0.1:" ++ dec_N (N.of_nat port)) isDev) s).

Definition on_window_close (s : state) : state :=
  if isQuitting s then s else emit_if is_mac DockHide (emit HideWindow (emit PreventDefault s)).

Definition createTray (s : state) : state :=
  set_tray (emit (CreateTray (path_join [dirname;
    if is_mac then u "tray-iconTemplate.png" else u "tray-icon-windows.png"])) s).

Definition tray_show (s : state) : state :=
  if mainWindow s then emit_if is_mac DockShow (emit ShowWindow s) else createWindow s.

Definition quit (s : state) : state := emit Quit (set_quitting s).

(** [before] and [after] are the answers of [mainWindow.isVisible()]. *)
Definition tray_click (before after : bool) (s : state) : state :=
  if mainWindow s
  then emit_if (after && is_mac) DockShow (emit (if before then HideWindow else ShowWindow) s)
  else createWindow s.

(** *** Start-up *)

Definition START_BUTTONS : list jsstr := [u "退出"; u "查看完整日志"].

Definition startup_dialog (message : jsstr) (logs : list jsstr) : dialog_options :=
  match analyzeError logs with
  | Some e =>
      mk_dialog (u "error") (k_title e) (u "启动失败: " ++ k_message e)
        (join nl [k_solution e; []; short_rule; []; u "错误信息: " ++ message; [];
           u "错误类型: " ++ k_type e]) START_BUTTONS
  | None =>
      mk_dialog (u "error") (u "启动失败") (u "无法启动服务器")
        (join nl [u "错误信息: " ++ message; []; u "请检查日志获取更多信息。"]) START_BUTTONS
  end.

(** The first settlement of [startServer()] is the one that counts. *)
Definition started (result : option jsstr) (s : state) : state :=
  match starting s with
  | Some true =>
      let s := set_starting false s in
      match result with
      | None => createWindow (createTray s)
      | Some message => emit (ShowDialog Startup (startup_dialog message (serverErrorLogs s))) s
      end
  | _ => s
  end.

Definition saved_dialog (path : option jsstr) : dialog_options :=
  mk_dialog (u "info") (u "日志已保存")
    (join nl match path with
      | Some p => [u "日志已保存到:"; p; []; u "日志文件已在默认文本编辑器中打开。"; [];
          j "点击`退出`关闭应用程序。"]
      | None => [u "日志保存失败，但已在控制台输出。"; []; j "点击`退出`关闭应用程序。"]
      end) [] [u "退出"].

(** The answer of a message box. *)
Definition answered (k : dialog_kind) (response : nat) (e : save_env) (s : state) : state :=
  let save next s :=
    let '(s, logPath) := saveAndOpenErrorLog e s in emit (ShowDialog next (saved_dialog logPath)) s in
  match k with
  | Crash => if (response =? 1)%nat then save CrashSaved s else quit s
  | CrashSaved => quit s
  | Startup => if (response =? 1)%nat then save StartupSaved s else emit Quit s
  | StartupSaved => emit Quit s
  end.

(** *** Leaving *)

Definition on_before_quit (s : state) : state :=
  if serverProcess s then
    set_waits (S (quit_listeners s)) (S (kill_timers s))
      (emit StartKillTimer (emit (Kill (u "SIGTERM")) (emit PreventDefault s)))
  else s.

Definition on_kill_timer (s : state) : state :=
  emit Exit (emit_if (serverProcess s) (Kill (u "SIGKILL")) s).

(** *** Events *)

Inductive event :=
  | Ready
  | Connected (result : option jsstr)  (** [checkServerAvailability] settles *)
  | SpawnError (message : jsstr)
  | Stderr (data : jsstr)
  | ServerClose (code : option Z) (destroyed : bool)
  | WindowClose | WindowClosed
  | TrayShow | TrayQuit | TrayClick (before after : bool)
  | Activate (windows : nat) | WindowAllClosed
  | BeforeQuit | KillTimer
  | Answered (k : dialog_kind) (response : nat) (e : save_env)
  | OpenPathFailed (path : jsstr).

(** [None]: the event cannot happen in the state. *)
Definition handle (e : event) (s : state) : option state :=
  match e with
  | Ready => match starting s with None => Some (startServer s) | _ => None end
  | Connected r => Some (started r s)
  | SpawnError m => Some (started (Some m) s)
  | Stderr d => if serverProcess s && negb (exited s) then Some (on_stderr d s) else None
  | ServerClose c d =>
      if serverProcess s && negb (exited s)
      then Some (on_quit_close (on_close c d (set_server true true s))) else None
  | WindowClose => if mainWindow s then Some (on_window_close s) else None
  | WindowClosed => Some (set_window false s)
  | TrayShow => Some (tray_show s)
  | TrayQuit => Some (quit s)
  | TrayClick a b => Some (tray_click a b s)
  | Activate n => Some (if (n =? 0)%nat then createWindow s else s)
  | WindowAllClosed => Some s
  | BeforeQuit => Some (on_before_quit s)
  | KillTimer => match kill_timers s with
      | S n => Some (on_kill_timer (set_waits (quit_listeners s) n s)) | O => None end
  | Answered k r e => Some (answered k r e s)
  | OpenPathFailed p => Some (emit (ShowItemInFolder p) s)
  end.

Fixpoint run (es : list event) (s : state) : option state :=
  match es with
  | [] => Some s
  | e :: es => s ← handle e s; run es s
  end.
End main.
