(* ===== verification/ElectronLaws.v ===== *)
(** * Desktop shell: laws of the main process
    What is kept of the server's errors, what the analysis recognises, and when the
    process exits. *)

From stdpp Require Import base numbers option strings sets list.
From S2P Require Import Prelude JsString JsNumber JsValue Json ElectronMain.

(** ** The analysis of the errors *)

Definition infix (a b : jsstr) : Prop := ∃ x y, b = x ++ a ++ y.

Lemma join_app sep l1 l2 :
  l1 ≠ [] → l2 ≠ [] → join sep (l1 ++ l2) = join sep l1 ++ sep ++ join sep l2.
Proof.
  intros H1 H2. induction l1 as [|x l1 IH]; [done|]. destruct l1 as [|y l1].
  - simpl. by destruct l2.
  - change (x ++ sep ++ join sep ((y :: l1) ++ l2) = (x ++ sep ++ join sep (y :: l1)) ++ sep ++ join sep l2).
    rewrite IH by done. by rewrite <- !app_assoc.
Qed.

Lemma join_infix sep pre l post : infix (join sep l) (join sep (pre ++ l ++ post)).
Proof.
  assert (∀ l post, infix (join sep l) (join sep (l ++ post))) as Hr.
  { clear. intros l post. destruct l as [|x l]; [by eexists [], _|]. destruct post as [|y post].
    - rewrite app_nil_r. exists [], []. by rewrite app_nil_r.
    - exists [], (sep ++ join sep (y :: post)). by apply join_app. }
  destruct pre as [|x pre]; [apply (Hr l post)|]. destruct (Hr l post) as (a & b & E).
  destruct (l ++ post) as [|y r] eqn:El.
  - apply app_nil in El as [-> _]. exists [], (join sep ((x :: pre) ++ [])). done.
  - exists (join sep (x :: pre) ++ sep ++ a), b. rewrite join_app by done. rewrite E.
    by rewrite <- !app_assoc.
Qed.

Lemma includes_infix a b p : infix a b → includes a p = true → includes b p = true.
Proof.
  intros (x & y & ->) (l & r & ->)%includes_spec. apply includes_spec.
  exists (x ++ l), (r ++ y). by rewrite <- !app_assoc.
Qed.

(** The tests only look for texts. *)
Definition monotone (test : jsstr → bool) : Prop :=
  ∀ a b, infix a b → test a = true → test b = true.

Lemma monotone_includes p : monotone (λ a, includes a p).
Proof. intros a b. apply includes_infix. Qed.
Lemma monotone_or f g : monotone f → monotone g → monotone (λ a, f a || g a).
Proof. intros Hf Hg a b Hi [H|H]%orb_true_iff; apply orb_true_iff; eauto. Qed.
Lemma monotone_and f g : monotone f → monotone g → monotone (λ a, f a && g a).
Proof. intros Hf Hg a b Hi [H1 H2]%andb_true_iff; apply andb_true_iff; eauto. Qed.

Lemma error_tests_monotone : Forall (λ t, monotone t.1) error_tests.
Proof.
  unfold error_tests.
  repeat first [constructor | apply monotone_or | apply monotone_and | apply monotone_includes].
Qed.

(** The position of the first test that holds. *)
Fixpoint rank (tests : list ((jsstr → bool) * known_error)) (all : jsstr) : nat :=
  match tests with
  | [] => 0
  | (test, _) :: tests => if test all then 0 else S (rank tests all)
  end.

Lemma first_match_rank tests all : first_match tests all = snd <$> tests !! rank tests all.
Proof. induction tests as [|[test e] tests IH]; simpl; [done|]. by destruct (test all). Qed.

Lemma rank_monotone tests a b :
  Forall (λ t, monotone t.1) tests → infix a b → (rank tests b <= rank tests a)%nat.
Proof.
  intros Ht Hi. induction Ht as [|[test e] tests Hm _ IH]; simpl; [done|].
  specialize (Hm a b Hi). simpl in Hm. destruct (test a); [by rewrite Hm|]. destruct (test b); lia.
Qed.

(** the analysis reports the first kind of error, in the order of the tests, of
    which any kept message has the texts; messages that come before or after never
    hide an error that was recognised, they can only put one of an earlier kind in
    its place. *)
Theorem analyzeError_monotone pre logs post :
  let at_rank n := snd <$> error_tests !! n in
  analyzeError logs = at_rank (rank error_tests (join nl logs)) ∧
  (rank error_tests (join nl (pre ++ logs ++ post)) <= rank error_tests (join nl logs))%nat ∧
  (is_Some (analyzeError logs) → is_Some (analyzeError (pre ++ logs ++ post))).
Proof.
  pose proof (rank_monotone error_tests _ _ error_tests_monotone (join_infix nl pre logs post)) as Hr.
  split; [apply first_match_rank|]. split; [done|].
  unfold analyzeError. rewrite !first_match_rank, !fmap_is_Some, !lookup_lt_is_Some. lia.
Qed.

Lemma analyzeError_monotone_witness :
  is_Some (analyzeError [u "x"; u "out of memory"]).
Proof.
  refine (proj2 (proj2 (analyzeError_monotone [u "x"] [u "out of memory"] [])) _).
  vm_compute. by eexists.
Defined.

(** ** Runs of the main process *)

Section main.
Context (path_join : list jsstr → jsstr) (platform : jsstr) (isDev : bool)
  (process_env : list (jsstr * jsstr)) (dirname resourcesPath userDataPath : jsstr)
  (data_dir_exists : bool).

Local Notation handle :=
  (handle path_join platform isDev process_env dirname resourcesPath userDataPath data_dir_exists).
Local Notation run :=
  (run path_join platform isDev process_env dirname resourcesPath userDataPath data_dir_exists).

Lemma run_invariant (P : list event → state → Prop) s0 :
  P [] s0 →
  (∀ es e s s', P es s → handle e s = Some s' → P (es ++ [e]) s') →
  ∀ es s, run es s0 = Some s → P es s.
Proof.
  intros H0 Hstep es s. change (P es s) with (P ([] ++ es) s). revert H0.
  generalize (@nil event) as past. revert s0.
  induction es as [|e es IH]; intros s0 past H0 H; simpl in H.
  - simplify_eq. by rewrite app_nil_r.
  - apply bind_Some in H as (s1 & H1 & H). rewrite cons_middle, app_assoc. eauto.
Qed.

Ltac unfold_handlers :=
  unfold startServer, on_stderr, on_quit_close, on_close, on_window_close, tray_show, tray_click,
    quit, started, answered, saveAndOpenErrorLog, createWindow, createTray, on_before_quit,
    on_kill_timer, emit_if in *; simpl in *.

(** What the listeners of [before-quit] do. *)
Lemma exit_times_spec n s :
  let s' := exit_times n s in
  serverErrorLogs s' = serverErrorLogs s ∧ starting s' = starting s ∧
  effects s' = replicate n Exit ++ effects s ∧
  serverProcess s' = (if (n =? 0)%nat then serverProcess s else false) ∧
  (exited s = true → exited s' = true).
Proof.
  revert s. induction n as [|n IH]; intros s; [done|].
  destruct (IH (emit Exit (set_server false true s))) as (E1 & E2 & E3 & E4 & E5). simpl in *.
  rewrite E1, E2, E3, E4. repeat split; try done.
  - by rewrite cons_middle, app_assoc, <- replicate_cons_app.
  - by case_match.
  - intros _. by apply E5.
Qed.

Lemma exit_times_waits n s :
  quit_listeners (exit_times n s) = quit_listeners s ∧ kill_timers (exit_times n s) = kill_timers s.
Proof. revert s. induction n as [|n IH]; intros s; [done|]. apply (IH (emit Exit (set_server false true s))). Qed.

(** *** The errors that are kept *)

Definition received (es : list event) : list jsstr :=
  omap (λ e, match e with Stderr d => Some d | _ => None end) es.

Lemma last_n_snoc {A} n (l : list A) x :
  (0 < n)%nat →
  last_n n (l ++ [x]) =
  let k := last_n n l ++ [x] in if (n <? length k)%nat then tail k else k.
Proof.
  intros Hn. unfold last_n. rewrite !length_app, length_drop. simpl. case_match eqn:E.
  - apply Nat.ltb_lt in E. replace (length l + 1 - n)%nat with (S (length l - n)) by lia.
    rewrite drop_app_le by lia. rewrite <- (drop_drop l (length l - n) 1) || idtac.
    replace (S (length l - n)) with (length l - n + 1)%nat by lia.
    rewrite <- drop_drop. by destruct (drop (length l - n) l) as [|y r] eqn:Ed;
      [apply (f_equal length) in Ed; rewrite length_drop in Ed; simpl in Ed; lia|].
  - apply Nat.ltb_ge in E. rewrite drop_app_le by lia. f_equal. f_equal. lia.
Qed.

Lemma handle_logs e s s' :
  handle e s = Some s' →
  serverErrorLogs s' = match e with
    | Stderr d => let k := serverErrorLogs s ++ [d] in if (100 <? length k)%nat then tail k else k
    | _ => serverErrorLogs s end.
Proof.
  intros H. destruct e; simpl in H; repeat (case_match; try done); simplify_eq;
    unfold_handlers; rewrite ?(proj1 (exit_times_spec _ _)); repeat (case_match; simplify_eq/=); done.
Qed.

(** the process keeps the last hundred messages of the server, whatever else
    happens. *)
Theorem keeps_last_errors es s :
  run es init = Some s → serverErrorLogs s = last_n 100 (received es).
Proof.
  revert es s. apply (run_invariant (λ es s, serverErrorLogs s = last_n 100 (received es))); [done|].
  intros es e s s' IH H%handle_logs. rewrite H. unfold received. rewrite omap_app.
  destruct e; simpl; rewrite ?app_nil_r; try done.
  rewrite last_n_snoc by lia. by rewrite IH.
Qed.

(** *** Leaving *)

Lemma on_quit_close_exits s :
  quit_listeners s ≠ 0%nat → Exit ∈ effects (on_quit_close s) ∧ serverProcess (on_quit_close s) = false.
Proof.
  unfold on_quit_close. intros Hq.
  destruct (exit_times_spec (quit_listeners s) s) as (_ & _ & -> & -> & _).
  destruct (quit_listeners s); [done|]. split; [by left | done].
Qed.

Lemma on_close_listeners code d s : quit_listeners (on_close code d s) = quit_listeners s.
Proof. unfold on_close, emit_if. by repeat case_match. Qed.

Lemma handle_exit e s s' :
  handle e s = Some s' → Exit ∈ effects s' →
  Exit ∈ effects s ∨ (e = KillTimer ∧ kill_timers s ≠ 0%nat) ∨
  (∃ c d, e = ServerClose c d ∧ quit_listeners s ≠ 0%nat ∧ exited s = false).
Proof.
  intros H Hx. destruct e; simpl in H; repeat (case_match; try done); simplify_eq;
    try (revert Hx; unfold_handlers; repeat (case_match; simplify_eq/=);
         rewrite ?elem_of_cons; first [solve [intuition congruence] | naive_solver]).
  - apply andb_true_iff in H0 as [_ H0%negb_true_iff]. unfold on_quit_close in Hx.
    destruct (exit_times_spec (quit_listeners (on_close code destroyed (set_server true true s)))
      (on_close code destroyed (set_server true true s))) as (_ & _ & E & _). rewrite E in Hx.
    clear E. revert Hx. unfold on_close, emit_if.
    repeat (case_match; simplify_eq/=); rewrite elem_of_app, ?elem_of_cons, elem_of_replicate; naive_solver.
Qed.

Lemma handle_waits e s s' :
  handle e s = Some s' → (quit_listeners s' ≠ 0 ∨ kill_timers s' ≠ 0)%nat →
  (quit_listeners s ≠ 0 ∨ kill_timers s ≠ 0)%nat ∨ e = BeforeQuit.
Proof.
  intros H Hx. destruct e; try (by right); left; revert Hx; simpl in H;
    repeat (case_match; try done); simplify_eq; unfold_handlers;
    rewrite ?(proj1 (exit_times_waits _ _)), ?(proj2 (exit_times_waits _ _)); repeat (case_match; simplify_eq/=);
    try tauto; intros [?|?]; auto.
Qed.

Lemma handle_gone e s s' :
  starting s ≠ None → serverProcess s = true → exited s = true → handle e s = Some s' →
  starting s' ≠ None ∧ serverProcess s' = true ∧ exited s' = true.
Proof.
  intros Hs Hp Hx H. destruct e; simpl in H; rewrite ?Hp, ?Hx in H;
    repeat (case_match; try done); simplify_eq; unfold_handlers; repeat (case_match; simplify_eq/=); try done;
    by rewrite H.
Qed.

Lemma run_gone es s s' :
  starting s ≠ None → serverProcess s = true → exited s = true → KillTimer ∉ es →
  run es s = Some s' → Exit ∈ effects s' → Exit ∈ effects s.
Proof.
  revert s. induction es as [|e es IH]; intros s Hs Hp Hx Hk H; simpl in H; [by simplify_eq|].
  apply bind_Some in H as (s1 & H1 & H). apply not_elem_of_cons in Hk as [Hk Hk'].
  destruct (handle_gone e s s1 Hs Hp Hx H1) as (? & ? & ?). intros He.
  apply (IH s1) in He; try done.
  destruct (handle_exit e s s1 H1 He) as [|[[-> _]|(c & d & -> & _ & E)]]; congruence.
Qed.

Lemma run_server_started es s :
  run es init = Some s → serverProcess s = true → starting s ≠ None.
Proof.
  revert es s. apply (run_invariant (λ _ s, serverProcess s = true → starting s ≠ None)); [done|].
  intros _ e s s' IH H. destruct e; simpl in H; repeat (case_match; try done); simplify_eq;
    unfold_handlers; rewrite ?(proj1 (proj2 (exit_times_spec _ _)));
    repeat (case_match; simplify_eq/=); try done; bool_simp;
    first [intros _; congruence | congruence | intros Hp; by destruct (IH Hp) | auto].
Qed.

Lemma run_waits es s :
  run es init = Some s →
  ((quit_listeners s ≠ 0 ∨ kill_timers s ≠ 0)%nat → BeforeQuit ∈ es) ∧
  (Exit ∈ effects s → BeforeQuit ∈ es).
Proof.
  revert es s. apply (run_invariant (λ es s,
    ((quit_listeners s ≠ 0 ∨ kill_timers s ≠ 0)%nat → BeforeQuit ∈ es) ∧
    (Exit ∈ effects s → BeforeQuit ∈ es))).
  { simpl. split; [lia|]. by intros ?%elem_of_nil. }
  intros es e s s' [IH1 IH2] H. rewrite elem_of_app, list_elem_of_singleton. split.
  - intros Hw. destruct (handle_waits e s s' H Hw) as [?| ->]; auto.
  - intros Hx. destruct (handle_exit e s s' H Hx) as [?|[[_ ?]|(? & ? & _ & ? & _)]]; auto.
Qed.

(** C40: the process leaves through [before-quit] only.  While the server is not
    forgotten that event is cancelled, the server is asked to stop, and its end or
    the five-second timer exits; but when the server had already ended, only the
    timer does: no run without it reaches the exit. *)
Theorem exit_after_before_quit es s :
  run es init = Some s →
  (Exit ∈ effects s → BeforeQuit ∈ es) ∧
  (serverProcess s = true →
    effects (on_before_quit s) =
      StartKillTimer :: Kill (u "SIGTERM") :: PreventDefault :: effects s ∧
    (∀ s', handle KillTimer (on_before_quit s) = Some s' → Exit ∈ effects s') ∧
    (∀ code d s', handle (ServerClose code d) (on_before_quit s) = Some s' →
      Exit ∈ effects s' ∧ serverProcess s' = false) ∧
    (exited s = true → ∀ es' s', KillTimer ∉ es' → run es' s = Some s' →
      Exit ∈ effects s' → Exit ∈ effects s)).
Proof.
  intros H. split; [by apply (run_waits es s)|]. intros Hp. split; [|split; [|split]].
  - unfold on_before_quit. by rewrite Hp.
  - intros s' Hs. simpl in Hs. unfold on_before_quit in Hs. rewrite Hp in Hs. simpl in Hs.
    simplify_eq. unfold on_kill_timer. simpl. by left.
  - intros code d s' Hs. assert (quit_listeners (on_before_quit s) ≠ 0%nat) as Hq
      by (unfold on_before_quit; by rewrite Hp).
    revert Hq Hs. generalize (on_before_quit s) as s1. intros s1 Hq Hs. simpl in Hs.
    case_match; [|done]. simplify_eq. apply on_quit_close_exits. by rewrite on_close_listeners.
  - intros Hx es' s' Hk Hr He. apply (run_gone es' s s'); try done. by apply (run_server_started es s).
Qed.

(** when the server ends with code 0 or by a signal and the user has not asked
    to quit, the window is asked to close, and its [close] event hides it instead:
    the process goes on without a server. *)
Theorem normal_exit_hides s code :
  serverProcess s = true → exited s = false → mainWindow s = true →
  quit_listeners s = 0%nat → isQuitting s = false → code = None ∨ code = Some 0%Z →
  ∃ s', run [ServerClose code false; WindowClose] s = Some s' ∧
    mainWindow s' = true ∧ serverProcess s' = true ∧ exited s' = true ∧
    effects s' = (if is_mac platform then [DockHide] else []) ++
      HideWindow :: PreventDefault :: CloseWindow :: effects s.
Proof.
  intros Hp Hx Hw Hq Hi Hc. eexists. split.
  - simpl. rewrite Hp, Hx. simpl. unfold on_quit_close, on_close. simpl. rewrite Hw.
    replace (match code with Some c => if (c =? 0)%Z then _ else _ | None => _ end)
      with (emit CloseWindow (set_server true true s)) by (by destruct Hc as [-> | ->]).
    simpl. rewrite Hq. simpl. rewrite Hw. reflexivity.
  - unfold on_window_close. simpl. rewrite Hi. unfold emit_if. by destruct (is_mac platform).
Qed.
End main.

(** ** Concrete runs *)

(** The server starts, complains, ends with code 2; the user then quits. *)
Definition concat_path (l : list jsstr) : jsstr := join (u "/") l.
Definition crash_run : list event :=
  [Ready; Connected None; Stderr (u "out of memory"); ServerClose (Some 2%Z) false; TrayQuit; BeforeQuit].
Local Notation sample_run es :=
  (run concat_path (u "linux") false [] (u "/app") (u "/res") (u "/home/u") false es init).

Lemma keeps_last_errors_witness :
  default [] (serverErrorLogs <$> sample_run crash_run) = [u "out of memory"].
Proof.
  destruct (sample_run crash_run) as [s|] eqn:E; [|vm_compute in E; discriminate E].
  trans (last_n 100 (received crash_run)); [|vm_compute; reflexivity].
  exact (keeps_last_errors concat_path (u "linux") false [] (u "/app") (u "/res") (u "/home/u") false
    crash_run s E).
Defined.

Lemma exit_after_before_quit_witness :
  match sample_run crash_run with Some s => Exit ∈ effects s → BeforeQuit ∈ crash_run | None => False end.
Proof.
  destruct (sample_run crash_run) as [s|] eqn:E; [|vm_compute in E; discriminate E].
  exact (proj1 (exit_after_before_quit concat_path (u "linux") false [] (u "/app") (u "/res") (u "/home/u")
    false crash_run s E)).
Defined.

Definition running : state := default init (sample_run [Ready; Connected None]).

Lemma normal_exit_hides_witness :
  ∃ s', run concat_path (u "linux") false [] (u "/app") (u "/res") (u "/home/u") false
    [ServerClose (Some 0%Z) false; WindowClose] running = Some s'.
Proof.
  destruct (normal_exit_hides concat_path (u "linux") false [] (u "/app") (u "/res") (u "/home/u") false
    running (Some 0%Z)) as (s' & H & _); try (vm_compute; reflexivity); [by right|].
  exists s'. exact H.
Defined.
