(* ===== verification/ChannelList.v ===== *)
(** * Channel list
    [src/web/src/hooks/channels/useChannelSearch.js]: the rows of the channel table,
    built from the server's channels one by one or grouped by tag, and the requests
    that load and search them, answered in any order. *)

From Stdlib Require Import SpecFloat.
From stdpp Require Import base numbers option strings sets list.
From S2P Require Import Prelude JsString JsNumber JsValue Json JsOps UpstreamUpdates.

Definition ITEMS_PER_PAGE : Z := 10.

(** ** Rows *)

Record channel := mk_channel { fields : props; meta : update_meta }.

(** The row of a tag; its [status] is 1 or absent. *)
Record tag_row := mk_tag_row {
  row_key : value; row_name : value; row_group : value; row_used : value; row_response : value;
  row_priority : value; row_weight : value; row_enabled : bool; children : list channel;
}.

Inductive row := Single (c : channel) | Tagged (r : tag_row).

Definition channel_field (k : string) (c : channel) : value := prop (u k) (fields c).

(** [upstreamUpdateMeta] and [key] are set on each channel. *)
Definition format_channel (c : props) : option channel :=
  m ← parseUpstreamUpdateMeta (prop (u "settings") c);
  k ← js_add (VStr []) (prop (u "id") c);
  Some (mk_channel (set (u "key") k c) m).

(** [channel.tag ? channel.tag : ''] *)
Definition tag_of (c : channel) : value := value_or (channel_field "tag" c) (VStr []).

Definition minus_one : value := VNum (num_of_Z (-1)).
Definition one : value := VNum (num_of_Z 1).

Definition new_row (tag : value) : option tag_row :=
  name ← js_add (VStr (u "标签：")) tag;
  Some (mk_tag_row tag name (VStr []) (VNum (num_of_Z 0)) (VNum (num_of_Z 0)) minus_one minus_one false []).

(** The common value of the children, or '' when they differ; -1 stands for none yet. *)
Definition merge_common (old new : value) : value :=
  if strict_eq old minus_one then new
  else if strict_eq old new then old else VStr [].

(** [if (group.indexOf(item) === -1) group += ',' + item]; [None] when [group] has no
    [indexOf]. *)
Definition add_group (group : value) (item : jsstr) : option value :=
  match group with
  | VStr g => Some (if includes g item then VStr g else VStr (g ++ u "," ++ item))
  | VArr l =>
      if existsb (strict_eq (VStr item)) l then Some group
      else g ← to_string group; Some (VStr (g ++ u "," ++ item))
  | _ => None
  end.

Definition merge_group (old new : value) : option value :=
  if strict_eq old (VStr []) then Some new
  else match new with
       | VStr s => fold_left (λ g item, g ← g; add_group g item) (split_on 44 s) (Some old)
       | _ => None
       end.

Definition halve (v : value) : option value :=
  x ← to_number v; Some (VNum (ndiv x (num_of_Z 2))).

(** The body of the loop once the row of the tag is known. *)
Definition add_to_row (c : channel) (r : tag_row) : option tag_row :=
  g ← merge_group (row_group r) (channel_field "group" c);
  used ← js_add (row_used r) (channel_field "used_quota" c);
  sum ← js_add (row_response r) (channel_field "response_time" c);
  response ← halve sum;
  Some (mk_tag_row (row_key r) (row_name r) g used response
    (merge_common (row_priority r) (channel_field "priority" c))
    (merge_common (row_weight r) (channel_field "weight" c))
    (row_enabled r || strict_eq (channel_field "status" c) one)
    (children r ++ [c])).

(** The properties that every object inherits: [channelTags] has them all. *)
Definition inherited_keys : list jsstr :=
  map u ["constructor"; "__defineGetter__"; "__defineSetter__"; "hasOwnProperty"; "__lookupGetter__";
    "__lookupSetter__"; "isPrototypeOf"; "propertyIsEnumerable"; "toString"; "valueOf"; "__proto__";
    "toLocaleString"]%string.

(** [rows.find(item => item.key === tag)], as a position. *)
Fixpoint find_row (tag : value) (rows : list tag_row) : option nat :=
  match rows with
  | [] => None
  | r :: rows => if strict_eq (row_key r) tag then Some O else S <$> find_row tag rows
  end.

(** One turn of the loop in tag mode; [seen] is [channelTags]. *)
Definition add_channel (seen : list jsstr) (rows : list tag_row) (c : channel) :
    option (list jsstr * list tag_row) :=
  let tag := tag_of c in
  key ← to_string tag;
  if decide (key ∈ seen ++ inherited_keys) then
    i ← find_row tag rows;
    r ← rows !! i;
    r' ← add_to_row c r;
    Some (seen, <[i := r']> rows)
  else
    r ← new_row tag;
    r' ← add_to_row c r;
    Some (seen ++ [key], rows ++ [r']).

Fixpoint add_channels (seen : list jsstr) (rows : list tag_row) (cs : list channel) : option (list tag_row) :=
  match cs with
  | [] => Some rows
  | c :: cs => sr ← add_channel seen rows c; add_channels sr.1 sr.2 cs
  end.

(** [setChannelFormat]: the rows it sets, or [None] when it throws. *)
Definition setChannelFormat (tagMode : bool) (channels : list props) : option (list row) :=
  cs ← mapM format_channel channels;
  if tagMode then map Tagged <$> add_channels [] [] cs else Some (map Single cs).

Example format_ex :
  let ch id tag group quota := [(u "id", VNum (num_of_Z id)); (u "tag", VStr (u tag)); (u "group", VStr (u group));
    (u "used_quota", VNum (num_of_Z quota)); (u "response_time", VNum (num_of_Z 8)); (u "status", one)] in
  option_map (map (λ r, match r with
    | Tagged r => (row_key r, row_group r, row_used r, row_response r, length (children r))
    | Single c => (VNull, VNull, VNull, VNull, 0%nat) end))
    (setChannelFormat true [ch 1%Z "a" "svip" 5%Z; ch 2%Z "b" "x" 1%Z; ch 3%Z "a" "vip,y" 6%Z]) =
  Some [(VStr (u "a"), VStr (u "svip,y"), VNum (num_of_Z 11), VNum (num_of_Z 6), 2%nat);
        (VStr (u "b"), VStr (u "x"), VNum (num_of_Z 1), VNum (num_of_Z 4), 1%nat)]%string.
Proof. vm_compute. reflexivity. Qed.

(** ** State *)

Inductive effect :=
  | Get (url : jsstr)
  | ShowError (v : value)
  | CopyFailed (v : value) (** the message of a failed copy, with its cause *)
  | SetItem (key text : jsstr)
  | Unhandled (v : value). (** a rejected promise that nobody catches *)

(** What is left of a suspended call after its [await].  A search started by
    [loadChannels] is followed by [setLoading(false)]; a load started by
    [searchChannels] by the [finally] of the search. *)
Inductive call_kind :=
  | Load (reqId : nat) (tagMode : value) (in_search : bool)
  | Search (tagMode page : value) (in_load : bool)
  | Groups. (** the names of the groups *)

(** Who catches the error of a rejected promise: nobody, the caller of the handler,
    which shows it, or the copy of a channel that awaits the list. *)
Inductive catcher := Nobody | Shows | Copies.

Record call := mk_call { kind : call_kind; caught : catcher }.

(** [setChannelFormat] makes the objects of a table; later copies of the array share
    them, and [updateChannelProperty] writes to them in place.  [tables] holds every
    table made so far with what its objects now are, and [channels] is the one
    numbered [shown]. *)
Record state := mk_state {
  tables : list (list row);
  shown : nat;
  loading : bool;
  searching : bool;
  activePage : value;
  pageSize : value;
  channelCount : value;
  enableTagMode : bool;
  enableBatchDelete : bool;
  statusFilter : value;
  groupFilter : value;
  groupOptions : value;
  activeTypeKey : value;
  typeCounts : props;
  visibleColumns : props;
  searchKeyword : jsstr;   (** [getFormValues()] *)
  searchModel : jsstr;
  requestCounter : nat;
  pending : list call;
  log : list effect;
}.

Definition setTable ts n s := mk_state ts n (loading s) (searching s) (activePage s) (pageSize s) (channelCount
  s) (enableTagMode s) (enableBatchDelete s) (statusFilter s) (groupFilter s) (groupOptions s) (activeTypeKey s)
  (typeCounts s) (visibleColumns s) (searchKeyword s) (searchModel s) (requestCounter s) (pending s) (log s).
Definition setLoading x s := mk_state (tables s) (shown s) x (searching s) (activePage s) (pageSize s)
  (channelCount s) (enableTagMode s) (enableBatchDelete s) (statusFilter s) (groupFilter s) (groupOptions s)
  (activeTypeKey s) (typeCounts s) (visibleColumns s) (searchKeyword s) (searchModel s) (requestCounter s)
  (pending s) (log s).
Definition setSearching x s := mk_state (tables s) (shown s) (loading s) x (activePage s) (pageSize s)
  (channelCount s) (enableTagMode s) (enableBatchDelete s) (statusFilter s) (groupFilter s) (groupOptions s)
  (activeTypeKey s) (typeCounts s) (visibleColumns s) (searchKeyword s) (searchModel s) (requestCounter s)
  (pending s) (log s).
Definition setPages page size count s := mk_state (tables s) (shown s) (loading s) (searching s) page size count
  (enableTagMode s) (enableBatchDelete s) (statusFilter s) (groupFilter s) (groupOptions s) (activeTypeKey s)
  (typeCounts s) (visibleColumns s) (searchKeyword s) (searchModel s) (requestCounter s) (pending s) (log s).
Definition setFlags tagMode batch s := mk_state (tables s) (shown s) (loading s) (searching s) (activePage s)
  (pageSize s) (channelCount s) tagMode batch (statusFilter s) (groupFilter s) (groupOptions s) (activeTypeKey
  s) (typeCounts s) (visibleColumns s) (searchKeyword s) (searchModel s) (requestCounter s) (pending s) (log s).
Definition setFilters status group typeKey s := mk_state (tables s) (shown s) (loading s) (searching s)
  (activePage s) (pageSize s) (channelCount s) (enableTagMode s) (enableBatchDelete s) status group
  (groupOptions s) typeKey (typeCounts s) (visibleColumns s) (searchKeyword s) (searchModel s) (requestCounter
  s) (pending s) (log s).
Definition setGroupOptions x s := mk_state (tables s) (shown s) (loading s) (searching s) (activePage s)
  (pageSize s) (channelCount s) (enableTagMode s) (enableBatchDelete s) (statusFilter s) (groupFilter s) x
  (activeTypeKey s) (typeCounts s) (visibleColumns s) (searchKeyword s) (searchModel s) (requestCounter s)
  (pending s) (log s).
Definition setTypeCounts x s := mk_state (tables s) (shown s) (loading s) (searching s) (activePage s) (pageSize
  s) (channelCount s) (enableTagMode s) (enableBatchDelete s) (statusFilter s) (groupFilter s) (groupOptions s)
  (activeTypeKey s) x (visibleColumns s) (searchKeyword s) (searchModel s) (requestCounter s) (pending s) (log
  s).
Definition setVisibleColumns x s := mk_state (tables s) (shown s) (loading s) (searching s) (activePage s)
  (pageSize s) (channelCount s) (enableTagMode s) (enableBatchDelete s) (statusFilter s) (groupFilter s)
  (groupOptions s) (activeTypeKey s) (typeCounts s) x (searchKeyword s) (searchModel s) (requestCounter s)
  (pending s) (log s).
Definition setForm keyword model s := mk_state (tables s) (shown s) (loading s) (searching s) (activePage s)
  (pageSize s) (channelCount s) (enableTagMode s) (enableBatchDelete s) (statusFilter s) (groupFilter s)
  (groupOptions s) (activeTypeKey s) (typeCounts s) (visibleColumns s) keyword model (requestCounter s) (pending
  s) (log s).
Definition setCalls counter calls s := mk_state (tables s) (shown s) (loading s) (searching s) (activePage s)
  (pageSize s) (channelCount s) (enableTagMode s) (enableBatchDelete s) (statusFilter s) (groupFilter s)
  (groupOptions s) (activeTypeKey s) (typeCounts s) (visibleColumns s) (searchKeyword s) (searchModel s) counter
  calls (log s).
Definition emit x s := mk_state (tables s) (shown s) (loading s) (searching s) (activePage s) (pageSize s)
  (channelCount s) (enableTagMode s) (enableBatchDelete s) (statusFilter s) (groupFilter s) (groupOptions s)
  (activeTypeKey s) (typeCounts s) (visibleColumns s) (searchKeyword s) (searchModel s) (requestCounter s)
  (pending s) (x :: log s).
Definition setActivePage x s := setPages x (pageSize s) (channelCount s) s.
Definition setPageSize x s := setPages (activePage s) x (channelCount s) s.
Definition setChannelCount x s := setPages (activePage s) (pageSize s) x s.
Definition setStatusFilter x s := setFilters x (groupFilter s) (activeTypeKey s) s.
Definition setGroupFilter x s := setFilters (statusFilter s) x (activeTypeKey s) s.
Definition setActiveTypeKey x s := setFilters (statusFilter s) (groupFilter s) x s.

Definition channels (s : state) : list row := default [] (tables s !! shown s).
(** A table of new objects. *)
Definition setChannels (rows : list row) (s : state) : state := setTable (tables s ++ [rows]) (length (tables s)) s.

(** [new_value === undefined ? default : new_value] *)
Definition default_to (d v : value) : value := match v with VUndef => d | _ => v end.

Definition num_value (z : Z) : value := VNum (num_of_Z z).

(** [searchKeyword !== '' || searchModel !== ''] *)
Definition has_search (s : state) : bool := str_truthy (searchKeyword s) || str_truthy (searchModel s).

Section requests.
(** The error that the engine throws for a conversion or a property of nothing. *)
Variable engine_error : value.

(** *** Sending *)

(** A text of the query, [None] when a conversion throws. *)
Definition filter_params (typeKey status group : value) : option jsstr :=
  let all := VStr (u "all") in
  t ← (if strict_eq typeKey all then Some [] else k ← to_string typeKey; Some (u "&type=" ++ k));
  st ← (if strict_eq status all then Some [] else x ← to_string status; Some (u "&status=" ++ x));
  g ← (if strict_eq group all then Some [] else x ← encodeURIComponent group; Some (u "&group=" ++ x));
  Some (t ++ st ++ g).

Definition load_url (page size tagMode typeKey status group : value) : option jsstr :=
  params ← filter_params typeKey status group;
  p ← to_string page; z ← to_string size; m ← to_string tagMode;
  Some (u "/api/channel/?p=" ++ p ++ u "&page_size=" ++ z ++ u "&tag_mode=" ++ m ++ params).

Definition search_url (s : state) (page size tagMode typeKey status group : value) : option jsstr :=
  params ← filter_params typeKey status group;
  p ← to_string page; z ← to_string size; m ← to_string tagMode;
  Some (u "/api/channel/search?keyword=" ++ searchKeyword s ++ u "&model=" ++ searchModel s ++
    u "&tag_mode=" ++ m ++ u "&p=" ++ p ++ u "&page_size=" ++ z ++ params).

(** What follows the [await] of a call, in turn: [searchChannels] resets its flag
    however it ends, [loadChannels] only when nothing throws. *)
Definition ended (k : call_kind) (s : state) : state :=
  match k with
  | Load _ _ in_search => if in_search then setSearching false s else s
  | Search _ _ in_load => let s := setSearching false s in if in_load then setLoading false s else s
  | Groups => s
  end.

Definition fails (c : call) (error : value) (s : state) : state :=
  let failed := emit match caught c with
    | Nobody => Unhandled error | Shows => ShowError error | Copies => CopyFailed error end in
  match kind c with
  | Load _ _ in_search => failed (if in_search then setSearching false s else s)
  | Search _ _ _ => failed (setSearching false s)
  | Groups => s
  end.

Definition send (url : option jsstr) (c : call) (s : state) : state :=
  match url with
  | Some url => setCalls (requestCounter s) (c :: pending s) (emit (Get url) s)
  | None => fails c engine_error s
  end.

(** A handler is a closure of a render: what it reads of the state it reads of that
    render, [r], while the form, the counter and the setters are those of now, [s]. *)

(** [loadChannels] without search texts. *)
Definition request_load (r : state) (in_search : bool) (shown : catcher) (page size tagMode typeKey status group : value)
    (s : state) : state :=
  let typeKey := default_to (activeTypeKey r) typeKey in
  let status := default_to (statusFilter r) status in
  let group := default_to (groupFilter r) group in
  let reqId := S (requestCounter s) in
  send (load_url page size tagMode typeKey status group) (mk_call (Load reqId tagMode in_search) shown)
    (setLoading true (setCalls reqId (pending s) s)).

(** [searchChannels] with a search text. *)
Definition request_search (in_load : bool) (shown : catcher) (tagMode typeKey status group page size : value) (s : state) : state :=
  send (search_url s page size tagMode typeKey status group) (mk_call (Search tagMode page in_load) shown) s.

Definition searchChannels (r : state) (in_load : bool) (shown : catcher) (tagMode typeKey status group page size : value)
    (s : state) : state :=
  let typeKey := default_to (activeTypeKey r) typeKey in
  let status := default_to (statusFilter r) status in
  let group := default_to (groupFilter r) group in
  let page := default_to (num_value 1) page in
  let size := default_to (pageSize r) size in
  let s := setSearching true s in
  if has_search s then request_search in_load shown tagMode typeKey status group page size s
  else request_load r true shown page size tagMode typeKey status group s.

Definition loadChannels (r : state) (shown : catcher) (page size tagMode typeKey status group : value)
    (s : state) : state :=
  if has_search s then
    searchChannels r true shown tagMode (default_to (activeTypeKey r) typeKey)
      (default_to (statusFilter r) status) (default_to (groupFilter r) group) page size (setLoading true s)
  else request_load r false shown page size tagMode typeKey status group s.

(** *** Receiving *)

(** The elements of [items] as objects: an array is one without the properties
    that are read; writing to anything else throws. *)
Definition item_object (v : value) : option props :=
  match v with VObj o => Some o | VArr _ => Some [] | _ => None end.
(** The objects at the indices below [n], up to the first that is missing. *)
Fixpoint indexed (fuel i : nat) (n : num) (o : props) : option (list props) :=
  if nltb (num_of_Z (Z.of_nat i)) n then
    match fuel with
    | O => None
    | S fuel =>
        v ← get (dec_N (N.of_nat i)) o; x ← item_object v;
        rest ← indexed fuel (S i) n o; Some (x :: rest)
    end
  else Some [].
(** What the loop [i < items.length] runs over. *)
Definition items_of (v : value) : option (list props) :=
  match v with
  | VArr l => mapM item_object l
  | VUndef | VNull | VStr (_ :: _) => None
  | VObj o => n ← to_number (prop (u "length") o); indexed (length o) 0 n o
  | _ => Some []
  end.

(** [{ ...type_counts, all: sum }] *)
Definition counted (type_counts : value) : option props :=
  match type_counts with
  | VUndef | VNull => None
  | _ => sum ← sum_values (map snd (own_entries type_counts));
         Some (set (u "all") sum (spread [] (own_entries type_counts)))
  end.

Definition show_items (items tagMode : value) (s : state) : option state :=
  cs ← items_of items; rows ← setChannelFormat (truthy tagMode) cs; Some (setChannels rows s).

(** The rest of [loadChannels] after its answer; [false] when it throws. *)
Definition receive_load (reqId : nat) (tagMode res : value) (s : state) : state * bool :=
  if is_undef res || negb (reqId =? requestCounter s)%nat then (s, true)
  else
    match read (u "data") res ≫= read (u "success") with
    | None => (s, false)
    | Some success =>
        if truthy success then
          let data := opt_read (u "data") (opt_read (u "data") res) in
          match read (u "type_counts") data with
          | None => (s, false)
          | Some type_counts =>
              match (if truthy type_counts then (λ c, setTypeCounts c s) <$> counted type_counts else Some s) with
              | None => (s, false)
              | Some s =>
                  match show_items (opt_read (u "items") data) tagMode s with
                  | None => (s, false)
                  | Some s => (setLoading false (setChannelCount (opt_read (u "total") data) s), true)
                  end
              end
          end
        else (setLoading false (emit (ShowError (opt_read (u "message") (opt_read (u "data") res))) s), true)
    end.

(** The rest of [searchChannels]. *)
Definition receive_search (tagMode page res : value) (s : state) : state * bool :=
  match read (u "data") res ≫= read (u "success") with
  | None => (s, false)
  | Some success =>
      if truthy success then
        let data := opt_read (u "data") (opt_read (u "data") res) in
        match read (u "type_counts") data with
        | None => (s, false)
        | Some type_counts =>
            match counted (default_to (VObj []) type_counts) with
            | None => (s, false)
            | Some c =>
                let s := setTypeCounts c s in
                match show_items (default_to (VArr []) (opt_read (u "items") data)) tagMode s with
                | None => (s, false)
                | Some s =>
                    (setActivePage page (setChannelCount (default_to (num_value 0) (opt_read (u "total") data)) s), true)
                end
            end
        end
      else (emit (ShowError (opt_read (u "message") (opt_read (u "data") res))) s, true)
  end.

(** The answer of [/api/group/]; its errors are ignored. *)
Definition receive_groups (res : value) (s : state) : state :=
  let data := opt_read (u "data") res in
  if truthy (opt_read (u "success") data)
  then setGroupOptions (value_or (opt_read (u "data") data) (VArr [])) s else s.

Definition receive (c : call) (res : value) (s : state) : state :=
  match kind c with
  | Load id tagMode _ =>
      let '(s, ok) := receive_load id tagMode res s in
      if ok then ended (kind c) s else fails c engine_error s
  | Search tagMode page _ =>
      let '(s, ok) := receive_search tagMode page res s in
      if ok then ended (kind c) s else fails c engine_error s
  | Groups => receive_groups res s
  end.

(** *** Handlers *)

Definition tag_value (r : state) : value := VBool (enableTagMode r).

(** The searches of [refresh], [handlePageChange] and [handlePageSizeChange] pass
    [page] and [size] where [groupF] and [page] are expected. *)
Definition refresh (r : state) (by_ : catcher) (page : value) (s : state) : state :=
  let page := default_to (activePage r) page in
  if has_search s
  then searchChannels r false by_ (tag_value r) (activeTypeKey r) (statusFilter r) page (pageSize r) VUndef s
  else loadChannels r by_ page (pageSize r) (tag_value r) VUndef VUndef VUndef s.

Definition handlePageChange (r : state) (page : value) (s : state) : state :=
  let s := setActivePage page s in
  if has_search s
  then searchChannels r false Nobody (tag_value r) (activeTypeKey r) (statusFilter r) page (pageSize r) VUndef s
  else loadChannels r Nobody page (pageSize r) (tag_value r) VUndef VUndef VUndef s.

Definition handlePageSizeChange (r : state) (size : num) (s : state) : state :=
  let s := setActivePage (num_value 1)
    (setPageSize (VNum size) (emit (SetItem (u "page-size") (num_to_string size)) s)) in
  if has_search s
  then searchChannels r false Nobody (tag_value r) (activeTypeKey r) (statusFilter r) (num_value 1) (VNum size) VUndef s
  else loadChannels r Shows (num_value 1) (VNum size) (tag_value r) VUndef VUndef VUndef s.

(** The tabs and the type bubble ([ChannelsTabs.jsx], [index.jsx]). *)
Definition handleTabChange (r : state) (key : jsstr) (s : state) : state :=
  loadChannels r Nobody (num_value 1) (pageSize r) (tag_value r) (VStr key) VUndef VUndef
    (setActivePage (num_value 1) (setActiveTypeKey (VStr key) s)).

(** The filters of [ChannelsActions.jsx]: they leave the tag mode out. *)
Definition change_status (r : state) (next : jsstr) (s : state) : state :=
  loadChannels r Nobody (num_value 1) (pageSize r) VUndef VUndef (VStr next) (groupFilter r)
    (setActivePage (num_value 1) (setStatusFilter (VStr next)
      (emit (SetItem (u "channel-status-filter") next) s))).

Definition change_group (r : state) (next : jsstr) (s : state) : state :=
  loadChannels r Nobody (num_value 1) (pageSize r) VUndef VUndef (statusFilter r) (VStr next)
    (setActivePage (num_value 1) (setGroupFilter (VStr next)
      (emit (SetItem (u "channel-group-filter") next) s))).

(** The submit button of [ChannelsFilters.jsx]. *)
Definition submit (r : state) (s : state) : state :=
  searchChannels r false Nobody (tag_value r) VUndef VUndef VUndef VUndef VUndef s.

(** *** Columns *)

Definition COLUMN_KEYS : list jsstr :=
  map u ["id"; "name"; "type"; "status"; "response_time"; "balance"; "priority"; "weight"; "groups"; "operate"]%string.

Definition all_columns (checked : bool) : props :=
  fold_left (λ o key, set key (VBool checked) o) COLUMN_KEYS [].

Definition getDefaultColumnVisibility : props := all_columns true.

(** [setVisibleColumns], and the effect that saves them after the render. *)
Definition show_columns (columns : props) (s : state) : state :=
  let s := setVisibleColumns columns s in
  match columns, json_stringify [] (VObj columns) with
  | _ :: _, Some text => emit (SetItem (u "channels-table-columns") text) s
  | _, _ => s
  end.

Definition initDefaultColumns : state → state := show_columns getDefaultColumnVisibility.

Definition handleColumnVisibilityChange (r : state) (key : jsstr) (checked : bool) : state → state :=
  show_columns (set key (VBool checked) (visibleColumns r)).

Definition handleSelectAll (checked : bool) : state → state := show_columns (all_columns checked).

Definition load_columns (saved : option jsstr) : state → state :=
  match saved with
  | Some ((_ :: _) as text) =>
      match json_parse text with
      | Some parsed => show_columns (spread getDefaultColumnVisibility (own_entries parsed))
      | None => initDefaultColumns
      end
  | _ => initDefaultColumns
  end.

(** *** What the table shows *)

(** A row that is not enabled is dimmed. *)
Definition handleRow (r : row) : bool :=
  negb match r with Single c => strict_eq (channel_field "status" c) one | Tagged r => row_enabled r end.

(** The channels of a row; those of the server have no [children]. *)
Definition row_channels (r : row) : list channel :=
  match r with Single c => [c] | Tagged r => children r end.

Definition count_type (counts : option props) (c : channel) : option props :=
  counts ← counts; key ← to_string (channel_field "type" c);
  n ← js_add (value_or (prop key counts) (num_value 0)) (num_value 1);
  Some (set key n counts).

Definition channelTypeCounts (s : state) : option props :=
  match typeCounts s with
  | [] => fold_left count_type (concat (map row_channels (channels s)))
            (Some [(u "all", num_value (Z.of_nat (length (channels s))))])
  | counts => Some counts
  end.

Definition availableTypeKeys (counts : props) : option (list jsstr) :=
  tests ← mapM (λ kv, n ← to_number kv.2; Some (kv.1, negb (bool_decide (kv.1 = u "all")) && nltb (num_of_Z 0) n)) counts;
  Some (u "all" :: map fst (filter (λ kv, kv.2 = true) tests)).

(** Writing to the channels with an identifier, in the table that the closure holds;
    [update] is [None] when the function throws as soon as it is called.  [false]
    when it throws. *)
Definition has_id (channelId : value) (c : channel) : bool := strict_eq (channel_field "id" c) channelId.

Definition update_row (channelId : value) (update : channel → channel) (r : row) : row :=
  let write c := if has_id channelId c then update c else c in
  match r with
  | Single c => Single (write c)
  | Tagged r => Tagged (mk_tag_row (row_key r) (row_name r) (row_group r) (row_used r) (row_response r)
      (row_priority r) (row_weight r) (row_enabled r) (map write (children r)))
  end.

Definition updateChannelProperty (r : state) (channelId : value) (update : option (channel → channel))
    (s : state) : state * bool :=
  let rows := default [] (tables s !! shown r) in
  if existsb (has_id channelId) (concat (map row_channels rows)) then
    match update with
    | Some f => (setTable (<[shown r := map (update_row channelId f) rows]> (tables s)) (shown r) s, true)
    | None => (s, false)
    end
  else (s, true).

(** *** The component *)

Definition parse_page_size (saved : option jsstr) : num :=
  let x := match saved with Some t => parse_int_text t | None => NaN end in
  if num_truthy x then x else num_of_Z ITEMS_PER_PAGE.

(** [localStorage.getItem(key) || 'all'] *)
Definition saved_filter (saved : option jsstr) : value := VStr (str_or (default [] saved) (u "all")).

Definition init (saved_status saved_group : option jsstr) : state :=
  mk_state [[]] 0 true false (num_value 1) (num_value ITEMS_PER_PAGE) (num_value 0) false false
    (saved_filter saved_status) (saved_filter saved_group) (VArr []) (VStr (u "all")) [] [] [] [] 0 [] [].

(** The effects of the first render, in order, with the texts of the local storage;
    what becomes of [loadChannelModels] is not part of the list. *)
Definition mount (saved_size saved_tag_mode saved_batch saved_columns : option jsstr) (s : state) : state :=
  let size := VNum (parse_page_size saved_size) in
  let tagMode := bool_decide (saved_tag_mode = Some (u "true")) in
  let s0 := setCalls (requestCounter s) (mk_call Groups Nobody :: pending s) (emit (Get (u "/api/group/")) s) in
  let s1 := setFlags tagMode (bool_decide (saved_batch = Some (u "true"))) (setPageSize size s0) in
  let s2 := loadChannels s Shows (num_value 1) size (VBool tagMode) VUndef VUndef VUndef s1 in
  load_columns saved_columns (emit (Get (u "/api/models")) s2).

Inductive event :=
  | Refresh (page : value)
  | PageChange (page : value)
  | PageSizeChange (size : num)
  | TabChange (key : jsstr)
  | StatusChange (next : jsstr)
  | GroupChange (next : jsstr)
  | Submit
  | Form (keyword model : jsstr)
  | ColumnChange (key : jsstr) (checked : bool)
  | SelectAll (checked : bool)
  | ResetColumns
  | Response (i : nat) (res : value)   (** the answer to a pending call *)
  | Reject (i : nat) (error : value).

Definition take_call (i : nat) (s : state) : state := setCalls (requestCounter s) (delete i (pending s)) s.

(** A click runs the handler of the last render. *)
Definition step (s : state) (e : event) : state :=
  match e with
  | Refresh page => refresh s Nobody page s
  | PageChange page => handlePageChange s page s
  | PageSizeChange size => handlePageSizeChange s size s
  | TabChange key => handleTabChange s key s
  | StatusChange next => change_status s next s
  | GroupChange next => change_group s next s
  | Submit => submit s s
  | Form keyword model => setForm keyword model s
  | ColumnChange key checked => handleColumnVisibilityChange s key checked s
  | SelectAll checked => handleSelectAll checked s
  | ResetColumns => initDefaultColumns s
  | Response i res => match pending s !! i with Some c => receive c res (take_call i s) | None => s end
  | Reject i error => match pending s !! i with Some c => fails c error (take_call i s) | None => s end
  end.

Definition run (s : state) (es : list event) : state := fold_left step es s.
End requests.
