(* ===== verification/ChannelListLaws.v ===== *)
(** * Channel list: laws
    The loop over the channels refines grouping them by tag, and what answers that
    come late change. *)

From Stdlib Require Import SpecFloat.
From stdpp Require Import base numbers option strings sets list.
From S2P Require Import Prelude JsString JsNumber JsValue Json JsOps UpstreamUpdates ChannelList.

(** ** Grouping by tag *)

(** The specification: the row of a tag is built from its channels alone, and the
    rows are in the order in which the tags first occur. *)
Definition build_row (start : option tag_row) (cs : list channel) : option tag_row :=
  fold_left (λ r c, r ≫= add_to_row c) cs start.

Definition tag_text (c : channel) : jsstr := match tag_of c with VStr t => t | _ => [] end.

Definition members (t : jsstr) (cs : list channel) : list channel := filter (λ c, tag_text c = t) cs.

Definition grouped_rows (cs : list channel) : option (list tag_row) :=
  mapM (λ t, build_row (new_row (VStr t)) (members t cs)) (set_order (map tag_text cs)).

(** A tag that is absent or a text, as the server sends it, and one that is the name of a
    property that objects inherit. *)
Definition text_tag (c : channel) : Prop := tag_of c = VStr (tag_text c).
Definition inherited_tag (c : channel) : bool := bool_decide (tag_text c ∈ inherited_keys).
Definition plain_tag (c : channel) : Prop := text_tag c ∧ tag_text c ∉ inherited_keys.

Lemma build_row_cons o c cs : build_row o (c :: cs) = build_row (o ≫= add_to_row c) cs.
Proof. done. Qed.
Lemma build_row_nil o : build_row o [] = o.
Proof. done. Qed.

Lemma build_row_None cs : build_row None cs = None.
Proof. by induction cs. Qed.

Lemma add_to_row_key c r r' : add_to_row c r = Some r' → row_key r' = row_key r.
Proof.
  unfold add_to_row. intros H. repeat (apply bind_Some in H as (? & _ & H)). by injection H as <-.
Qed.

Lemma new_row_str t : ∃ r, new_row (VStr t) = Some r ∧ row_key r = VStr t.
Proof. eexists. split; reflexivity. Qed.

(** The rows of the tags seen so far, each continued with its channels. *)
Definition continue_rows (keys : list jsstr) (rows : list tag_row) (cs : list channel) : option (list tag_row) :=
  mapM (λ tr, build_row (Some tr.2) (members tr.1 cs)) (zip keys rows).

Definition continued (keys : list jsstr) (rows : list tag_row) (cs : list channel) : option (list tag_row) :=
  a ← continue_rows keys rows cs;
  b ← mapM (λ t, build_row (new_row (VStr t)) (members t cs)) (set_order_from keys (map tag_text cs));
  Some (a ++ b).

#[local] Arguments build_row : simpl never.
#[local] Arguments members : simpl never.
#[local] Arguments new_row : simpl never.
#[local] Arguments continue_rows : simpl never.

Definition keyed (keys : list jsstr) (rows : list tag_row) : Prop := map row_key rows = map VStr keys.

Lemma find_row_keyed keys rows t :
  keyed keys rows → t ∈ keys →
  ∃ i, find_row (VStr t) rows = Some i ∧ keys !! i = Some t ∧ is_Some (rows !! i).
Proof.
  unfold keyed. revert rows. induction keys as [|k keys IH]; intros [|r rows] H Ht; try discriminate H;
    [by apply elem_of_nil in Ht|].
  injection H as Hr H. simpl. rewrite Hr, strict_eq_str. case_bool_decide as Hk.
  - exists 0%nat. subst. by eauto.
  - apply elem_of_cons in Ht as [?|Ht]; [done|]. destruct (IH rows H Ht) as (i & -> & ? & ?).
    by exists (S i).
Qed.

Lemma keyed_insert keys rows i r r' :
  keyed keys rows → rows !! i = Some r → row_key r' = row_key r → keyed keys (<[i := r']> rows).
Proof.
  unfold keyed. intros H Hi Hr. rewrite <- H. apply list_eq. intros j. rewrite !list_lookup_fmap.
  destruct (decide (i = j)) as [<-|Hne].
  - rewrite list_lookup_insert_eq by (by eapply lookup_lt_Some). rewrite Hi. simpl. by rewrite Hr.
  - by rewrite list_lookup_insert_ne.
Qed.

(** The keys seen count as a set. *)
Lemma set_order_from_seen {A} `{EqDecision A} (s1 s2 l : list A) :
  (∀ x, x ∈ s1 ↔ x ∈ s2) → set_order_from s1 l = set_order_from s2 l.
Proof.
  revert s1 s2. induction l as [|x l IH]; intros s1 s2 H; simpl; [done|].
  case_decide as H1; rewrite H in H1; [by rewrite decide_True; auto | rewrite decide_False by done].
  f_equal. apply IH. intros y. rewrite !elem_of_cons. naive_solver.
Qed.

Lemma members_cons t c cs :
  members t (c :: cs) = if decide (tag_text c = t) then c :: members t cs else members t cs.
Proof. unfold members. by rewrite filter_cons. Qed.

Lemma mapM_ext_in {A B} (f g : A → option B) (l : list A) :
  (∀ x, x ∈ l → f x = g x) → mapM f l = mapM g l.
Proof.
  induction l as [|x l IH]; intros H; [done|]. simpl. rewrite (H x) by (by left).
  rewrite IH; [done|]. intros y Hy. apply H. by right.
Qed.

Lemma continue_cons k keys r rows cs :
  continue_rows (k :: keys) (r :: rows) cs =
  r' ← build_row (Some r) (members k cs); l ← continue_rows keys rows cs; Some (r' :: l).
Proof. done. Qed.

Lemma continue_other keys rows c cs :
  tag_text c ∉ keys → continue_rows keys rows (c :: cs) = continue_rows keys rows cs.
Proof.
  intros Hc. apply mapM_ext_in. intros [t r] Htr%elem_of_zip_l. simpl in *.
  rewrite members_cons, decide_False; [done|]. by intros <-.
Qed.

(** Updating one row of distinct keys is one more channel for its key. *)
Lemma continue_insert keys rows i t r c cs :
  NoDup keys → keyed keys rows → keys !! i = Some t → rows !! i = Some r → tag_text c = t →
  continue_rows keys rows (c :: cs) =
  r' ← add_to_row c r; continue_rows keys (<[i := r']> rows) cs.
Proof.
  intros Hn Hk Hi Hr Hc. revert rows i Hk Hi Hr.
  induction Hn as [|k keys Hk0 Hn IH]; intros [|r0 rows] i Hk Hi Hr; try done.
  injection Hk as Hr0 Hk. rewrite continue_cons, members_cons. destruct i as [|i]; simpl in Hi, Hr.
  - injection Hi as ->. injection Hr as ->. rewrite decide_True by done.
    rewrite build_row_cons, continue_other by (by rewrite Hc). cbn [mbind option_bind].
    destruct (add_to_row c r) as [r'|]; [done|]. simpl. by rewrite build_row_None.
  - rewrite decide_False by (intros E; apply Hk0; rewrite <- E, Hc; by eapply list_elem_of_lookup_2).
    rewrite (IH rows i Hk Hi Hr). destruct (add_to_row c r) as [r'|]; simpl.
    + by rewrite continue_cons.
    + by destruct (build_row _ _).
Qed.

Lemma continue_snoc keys rows t r cs :
  length keys = length rows →
  continue_rows (keys ++ [t]) (rows ++ [r]) cs =
  l ← continue_rows keys rows cs; r' ← build_row (Some r) (members t cs); Some (l ++ [r']).
Proof.
  revert rows. induction keys as [|k keys IH]; intros [|r0 rows] Hl; try done.
  simpl app. rewrite !continue_cons. destruct (build_row (Some r0) _); [|done]. simpl.
  rewrite IH by (simpl in Hl; lia). destruct (continue_rows keys rows cs); [|done]. simpl.
  by destruct (build_row _ _).
Qed.

Lemma keyed_length keys rows : keyed keys rows → length keys = length rows.
Proof. intros H%(f_equal length). by rewrite !length_map in H. Qed.

(** A channel of a tag already seen is no member of the later rows. *)
Lemma later_members keys t c cs :
  tag_text c = t → t ∈ keys →
  mapM (λ t, build_row (new_row (VStr t)) (members t (c :: cs))) (set_order_from keys (map tag_text cs)) =
  mapM (λ t, build_row (new_row (VStr t)) (members t cs)) (set_order_from keys (map tag_text cs)).
Proof.
  intros Hc Ht. apply mapM_ext_in. intros x Hx%elem_of_set_order_from.
  rewrite members_cons, decide_False; [done|]. intros E. apply (proj2 Hx). by rewrite <- E, Hc.
Qed.

(** The loop is the specification, continued from any point. *)
Lemma add_channels_continued keys rows cs :
  NoDup keys → keyed keys rows → Forall plain_tag cs →
  add_channels keys rows cs = continued keys rows cs.
Proof.
  intros Hn Hk Hcs. revert keys rows Hn Hk. induction Hcs as [|c cs [Ht Hi] _ IH]; intros keys rows Hn Hk.
  - simpl. unfold continued. simpl.
    assert (continue_rows keys rows [] = Some rows) as ->; [|simpl; by rewrite app_nil_r].
    apply keyed_length in Hk. clear Hn. revert rows Hk. induction keys as [|k keys IH]; intros [|r rows] Hl; try done.
    rewrite continue_cons. change (members k []) with (@nil channel). rewrite build_row_nil. simpl.
    rewrite IH by (simpl in Hl; lia). done.
  - simpl. unfold add_channel. rewrite Ht. cbn [to_string mbind option_bind].
    set (t := tag_text c) in *. unfold continued. simpl map. simpl set_order_from. fold t.
    destruct (decide (t ∈ keys)) as [Hin|Hin].
    + rewrite decide_True by (apply elem_of_app; by left).
      destruct (find_row_keyed keys rows t Hk Hin) as (i & -> & Hki & r & Hri). cbn. rewrite Hri. cbn.
      rewrite (continue_insert keys rows i t r c cs) by done.
      destruct (add_to_row c r) as [r'|] eqn:Er; [|done]. cbn. rewrite IH.
      * unfold continued. by rewrite (later_members keys t c cs).
      * done.
      * eapply keyed_insert; eauto using add_to_row_key.
    + rewrite decide_False by (rewrite elem_of_app; tauto).
      rewrite continue_other by done. change (mapM ?f (t :: ?l)) with (y ← f t; k ← mapM f l; Some (y :: k)).
      cbn beta. rewrite members_cons, decide_True, build_row_cons by done. cbn.
      destruct (new_row_str t) as (r & -> & Hr). cbn.
      destruct (add_to_row c r) as [r'|] eqn:Er; cbn; [|rewrite build_row_None; by destruct (continue_rows _ _ _)].
      rewrite IH.
      * unfold continued. rewrite continue_snoc by (by apply keyed_length).
        rewrite (set_order_from_seen (keys ++ [t]) (t :: keys)) by (intros x; rewrite elem_of_app, !elem_of_cons, elem_of_nil; naive_solver).
        rewrite (later_members (t :: keys) t c cs) by (done || by left).
        destruct (continue_rows keys rows cs) as [l|]; [|done]. cbn.
        destruct (build_row (Some r') _); [|done]. cbn. destruct (mapM _ _); [|done]. cbn. by rewrite <- app_assoc.
      * apply NoDup_app. split; [done|]. split; [|apply NoDup_singleton]. intros x Hx ->%list_elem_of_singleton. done.
      * unfold keyed. rewrite !map_app, Hk. simpl. by rewrite (add_to_row_key _ _ _ Er), Hr.
Qed.

(** What a row says of its channels. *)
Lemma build_row_spec cs : ∀ r0 r,
  build_row (Some r0) cs = Some r →
  children r = children r0 ++ cs ∧ row_key r = row_key r0 ∧
  row_enabled r = row_enabled r0 || existsb (λ c, strict_eq (channel_field "status" c) one) cs.
Proof.
  induction cs as [|c cs IH]; intros r0 r H.
  - injection H as <-. by rewrite app_nil_r, orb_false_r.
  - rewrite build_row_cons in H. cbn [mbind option_bind] in H.
    destruct (add_to_row c r0) as [r1|] eqn:E; [|by rewrite build_row_None in H].
    destruct (IH r1 r H) as (-> & -> & ->). unfold add_to_row in E.
    repeat (apply bind_Some in E as (? & _ & E)). injection E as <-. simpl.
    by rewrite <- app_assoc, <- orb_assoc.
Qed.

Lemma members_perm c cs ts :
  NoDup ts → tag_text c ∈ ts →
  concat (map (λ t, members t (c :: cs)) ts) ≡ₚ c :: concat (map (λ t, members t cs) ts).
Proof.
  induction 1 as [|t ts Ht Hn IH]; intros Hc; [by apply elem_of_nil in Hc|]. simpl.
  rewrite members_cons. case_decide as E.
  - rewrite (map_ext_in (λ t, members t (c :: cs)) (λ t, members t cs)); [done|].
    intros x Hx%list_elem_of_In. rewrite members_cons, decide_False; [done|]. congruence.
  - apply elem_of_cons in Hc as [Hc|Hc]; [congruence|]. rewrite IH by done. by rewrite Permutation_middle.
Qed.

Lemma members_all cs ts :
  NoDup ts → (∀ c, c ∈ cs → tag_text c ∈ ts) → concat (map (λ t, members t cs) ts) ≡ₚ cs.
Proof.
  intros Hn. induction cs as [|c cs IH]; intros H.
  - clear. by induction ts.
  - rewrite members_perm by (done || (apply H; by left)). rewrite IH; [done|].
    intros x Hx. apply H. by right.
Qed.

(** No row has a key that objects inherit. *)
Lemma inherited_tag_throws cs : ∀ seen rows c k,
  (∀ r, r ∈ rows → ∀ k, row_key r = VStr k → k ∉ inherited_keys) →
  c ∈ cs → tag_of c = VStr k → k ∈ inherited_keys → add_channels seen rows cs = None.
Proof.
  induction cs as [|x cs IH]; intros seen rows c k Hr Hc Hk Hi; [by apply elem_of_nil in Hc|]. simpl.
  destruct (add_channel seen rows x) as [[seen' rows']|] eqn:E; [|done]. simpl.
  apply elem_of_cons in Hc as [->|Hc].
  - exfalso. unfold add_channel in E. rewrite Hk in E. cbn [to_string mbind option_bind] in E.
    rewrite decide_True in E by (rewrite elem_of_app; by right).
    apply bind_Some in E as (i & Hf & _). revert i Hf. clear -Hr Hi.
    induction rows as [|r rows IH]; intros i Hf; simpl in Hf; [done|].
    destruct (strict_eq (row_key r) (VStr k)) eqn:Ek.
    + destruct (row_key r) eqn:Er; simpl in Ek; try done. apply bool_decide_eq_true in Ek as ->.
      by apply (Hr r (list_elem_of_here _ _) _ Er).
    + apply fmap_Some in Hf as (j & Hj & _). eapply IH; [|exact Hj]. intros r' Hr'. apply Hr. by right.
  - eapply IH; [|exact Hc|exact Hk|exact Hi]. unfold add_channel in E.
    apply bind_Some in E as (key & Hkey & E). case_decide as Hd.
    + apply bind_Some in E as (i & _ & E). apply bind_Some in E as (r & Hl & E).
      apply bind_Some in E as (r' & Ha & E). injection E as <- <-. intros r0 [j Hj]%list_elem_of_lookup k0 Ek0.
      apply list_lookup_insert_Some in Hj as [(-> & <- & _)|[_ Hj]].
      * apply (Hr r); [by eapply list_elem_of_lookup_2|]. by rewrite <- (add_to_row_key _ _ _ Ha).
      * apply (Hr r0); [by eapply list_elem_of_lookup_2 | done].
    + apply bind_Some in E as (r & Hn & E). apply bind_Some in E as (r' & Ha & E). injection E as <- <-.
      intros r0 [H0|H0%list_elem_of_singleton]%elem_of_app k0 Ek0; [by apply (Hr r0)|]. subst r0.
      rewrite (add_to_row_key _ _ _ Ha) in Ek0. apply bind_Some in Hn as (? & _ & Hn). injection Hn as <-.
      simpl in Ek0. rewrite Ek0 in Hkey. injection Hkey as <-. rewrite elem_of_app in Hd. tauto.
Qed.

(** Where a tag is inherited the loop throws, and where none is it is the specification. *)
Lemma tag_mode_rows channels cs :
  mapM format_channel channels = Some cs → Forall text_tag cs →
  setChannelFormat true channels = if existsb inherited_tag cs then None else map Tagged <$> grouped_rows cs.
Proof.
  intros Hf Hp. unfold setChannelFormat. rewrite Hf. cbn [mbind option_bind].
  rewrite Forall_forall in Hp. destruct (existsb inherited_tag cs) eqn:Ei.
  - apply existsb_exists in Ei as (c & Hc%list_elem_of_In & Hi%bool_decide_eq_true).
    by rewrite (inherited_tag_throws cs [] [] c (tag_text c)) by (done || by apply Hp || by intros r ?%elem_of_nil).
  - assert (Forall plain_tag cs) as Hplain.
    { apply Forall_forall. intros c Hc. split; [by apply Hp|]. intros Hi.
      apply not_true_iff_false in Ei. apply Ei, existsb_exists. exists c. split; [by apply list_elem_of_In|].
      by apply bool_decide_eq_true. }
    rewrite add_channels_continued by (done || constructor). unfold continued, grouped_rows, set_order.
    change (continue_rows [] [] cs) with (Some (@nil tag_row)). cbn [mbind option_bind].
    by destruct (mapM (λ t, build_row _ _) _).
Qed.

(** C15: In tag mode the loop over channels whose tags are absent or texts throws, and shows
    nothing, when a tag is the name of a property that objects inherit; otherwise it refines
    grouping them: its rows are those built, for each tag in the order of first occurrence,
    from the channels of that tag alone, and it throws exactly when one of them cannot be
    built; no channel is lost or shown twice, each row has its tag's channels in their
    order and is enabled when one of them is. *)
Theorem tag_mode_groups channels cs :
  mapM format_channel channels = Some cs → Forall text_tag cs →
  setChannelFormat true channels = (if existsb inherited_tag cs then None else map Tagged <$> grouped_rows cs) ∧
  (∀ rows, grouped_rows cs = Some rows →
    map row_key rows = map VStr (set_order (map tag_text cs)) ∧
    concat (map children rows) ≡ₚ cs ∧
    ∀ r, r ∈ rows → ∃ t, row_key r = VStr t ∧ children r = members t cs ∧
      row_enabled r = existsb (λ c, strict_eq (channel_field "status" c) one) (children r)).
Proof.
  intros Hf Hp. split.
  - by apply tag_mode_rows.
  - intros rows H%mapM_Some.
    assert (Forall2 (λ t r, row_key r = VStr t ∧ children r = members t cs ∧
      row_enabled r = existsb (λ c, strict_eq (channel_field "status" c) one) (children r))
      (set_order (map tag_text cs)) rows) as Hr.
    { eapply Forall2_impl; [exact H|]. intros t r Hb. destruct (new_row_str t) as (r0 & E & Hk).
      cbv beta in Hb. rewrite E in Hb. assert (children r0 = [] ∧ row_enabled r0 = false) as [Hc0 He0] by (by injection E as <-).
      destruct (build_row_spec _ _ _ Hb) as (Hc & Hk' & He). rewrite Hc0 in Hc. rewrite He0 in He.
      rewrite Hk', Hc, He. done. }
    split; [|split].
    + clear -Hr. induction Hr as [|t r ts rows (Hk & _) _ IH]; [done|]. simpl. by rewrite Hk, IH.
    + assert (map children rows = map (λ t, members t cs) (set_order (map tag_text cs))) as ->.
      { clear -Hr. induction Hr as [|t r ts rows (_ & Hc & _) _ IH]; [done|]. simpl. by rewrite Hc, IH. }
      apply members_all; [apply NoDup_set_order|]. intros c Hc. apply elem_of_set_order.
      by apply list_elem_of_fmap_2.
    + intros r [i Hi]%list_elem_of_lookup. destruct (Forall2_lookup_r _ _ _ _ _ Hr Hi) as (t & _ & Ht). by exists t.
Qed.

(** ** Loads that overtake each other *)

Section laws.
Context (engine_error : value).
Local Abbreviation step := (step engine_error).
Local Abbreviation run := (run engine_error).

Definition load_id (c : call) : option nat := match kind c with Load id _ _ => Some id | _ => None end.
Definition load_ids (s : state) : list nat := omap load_id (pending s).

(** The loads in flight are numbered from 1 on, up to the counter, once each. *)
Definition loads_ok (s : state) : Prop :=
  NoDup (load_ids s) ∧ ∀ id, id ∈ load_ids s → (id ≤ requestCounter s)%nat.

(** What the table shows. *)
Definition shown_list (s : state) :=
  (tables s, shown s, typeCounts s, channelCount s, activePage s, loading s).

Definition reachable (s : state) : Prop :=
  ∃ status group size tag batch columns es,
    s = run (mount engine_error size tag batch columns (init status group)) es.

(** Two states with the same calls. *)
Definition same_calls (s s' : state) : Prop := pending s' = pending s ∧ requestCounter s' = requestCounter s.

Lemma loads_ok_same s s' : same_calls s s' → loads_ok s → loads_ok s'.
Proof. unfold loads_ok, load_ids. by intros [-> ->]. Qed.

Lemma same_fails c error s : same_calls s (fails c error s).
Proof. unfold fails. destruct (kind c) as [? ? []| |]; done. Qed.

Lemma same_ended k s : same_calls s (ended k s).
Proof. destruct k as [? ? []|? ? []|]; done. Qed.

Lemma same_show_columns columns s : same_calls s (show_columns columns s).
Proof. unfold show_columns. destruct columns; [done|]. by destruct (json_stringify _ _). Qed.

Lemma same_load_columns saved s : same_calls s (load_columns saved s).
Proof.
  unfold load_columns. destruct saved as [[|? ?]|]; try apply same_show_columns.
  destruct (json_parse _); apply same_show_columns.
Qed.

Lemma same_emit x s : same_calls s (emit x s).
Proof. done. Qed.

Lemma same_items items tagMode s s' : show_items items tagMode s = Some s' → same_calls s s'.
Proof. unfold show_items. intros (? & _ & H)%bind_Some. apply bind_Some in H as (? & _ & H). by injection H as <-. Qed.

Lemma same_trans s1 s2 s3 : same_calls s1 s2 → same_calls s2 s3 → same_calls s1 s3.
Proof. unfold same_calls. intros [<- <-] [<- <-]. done. Qed.

Lemma same_receive_load id tagMode res s : same_calls s (receive_load id tagMode res s).1.
Proof.
  unfold receive_load. case_match; [done|]. destruct (_ ≫= _) as [success|]; [|done].
  destruct (truthy success); [|done]. cbv zeta. destruct (read (u "type_counts") _) as [counts|]; [|done].
  match goal with |- context [match ?x with Some s => match show_items _ _ s with _ => _ end | None => _ end] =>
    destruct x as [s1|] eqn:E1 end; [|done].
  assert (same_calls s s1) as Hs.
  { destruct (truthy counts); [|by simplify_eq]. by apply fmap_Some in E1 as (? & _ & ->). }
  destruct (show_items _ _ s1) as [s2|] eqn:E2; [|done].
  eapply same_trans; [exact Hs|]. eapply same_trans; [by eapply same_items|]. done.
Qed.

Lemma same_receive_search tagMode page res s : same_calls s (receive_search tagMode page res s).1.
Proof.
  unfold receive_search. destruct (_ ≫= _) as [success|]; [|done].
  destruct (truthy success); [|done]. cbv zeta. destruct (read (u "type_counts") _) as [counts|]; [|done].
  destruct (counted _) as [o|]; [|done].
  destruct (show_items _ _ _) as [s2|] eqn:E2; [|done].
  eapply (same_trans _ (setTypeCounts o s)); [done|]. eapply same_trans; [by eapply same_items|]. done.
Qed.

Lemma same_receive c res s : same_calls s (receive engine_error c res s).
Proof.
  unfold receive. destruct (kind c) as [id tagMode b|tagMode page b|] eqn:E.
  - pose proof (same_receive_load id tagMode res s) as H. destruct (receive_load _ _ _ _) as [s' []]; cbn [fst] in H.
    + eapply same_trans; [exact H | apply same_ended].
    + eapply same_trans; [exact H | apply same_fails].
  - pose proof (same_receive_search tagMode page res s) as H. destruct (receive_search _ _ _ _) as [s' []]; cbn [fst] in H.
    + eapply same_trans; [exact H | apply same_ended].
    + eapply same_trans; [exact H | apply same_fails].
  - unfold receive_groups. by case_match.
Qed.

(** Sending: a search adds no load; a load takes the next number. *)
Lemma loads_ok_send url c s :
  load_id c = None → loads_ok s → loads_ok (send engine_error url c s).
Proof.
  intros Hc H. unfold send. destruct url as [url|]; [|by eapply loads_ok_same, H; apply same_fails].
  unfold loads_ok, load_ids in *. simpl. by rewrite Hc.
Qed.

Lemma loads_ok_request_load r b c page size tagMode typeKey status group s :
  loads_ok s → loads_ok (request_load engine_error r b c page size tagMode typeKey status group s).
Proof.
  intros [Hn Hle]. unfold request_load, send.
  assert (loads_ok (setLoading true (setCalls (S (requestCounter s)) (pending s) s))) as Ht.
  { split; [exact Hn|]. intros id Hid. simpl. apply Hle in Hid. lia. }
  case_match.
  - split; unfold load_ids; simpl.
    + constructor; [|exact Hn]. intros Hid. apply Hle in Hid. lia.
    + intros id [->|Hid]%elem_of_cons; [lia|]. apply Hle in Hid. lia.
  - eapply loads_ok_same, Ht. apply same_fails.
Qed.

Lemma loads_ok_search r b c tagMode typeKey status group page size s :
  loads_ok s → loads_ok (searchChannels engine_error r b c tagMode typeKey status group page size s).
Proof.
  intros H. unfold searchChannels. cbv zeta. case_match.
  - by apply loads_ok_send.
  - by apply loads_ok_request_load.
Qed.

Lemma loads_ok_load r c page size tagMode typeKey status group s :
  loads_ok s → loads_ok (loadChannels engine_error r c page size tagMode typeKey status group s).
Proof.
  intros H. unfold loadChannels. case_match; [by apply loads_ok_search | by apply loads_ok_request_load].
Qed.

Lemma loads_ok_take i s : loads_ok s → loads_ok (take_call i s).
Proof.
  intros [Hn Hle].
  assert (load_ids (take_call i s) `sublist_of` load_ids s) as Hs.
  { unfold load_ids, take_call. simpl. clear. generalize (pending s) as l.
    induction i as [|i IH]; intros [|c l]; simpl; try done.
    - destruct (load_id c); [by constructor | done].
    - destruct (load_id c); [by constructor | apply IH]. }
  split; [by eapply sublist_NoDup|]. intros id Hid. apply Hle. by eapply sublist_subseteq.
Qed.

Lemma loads_ok_step s e : loads_ok s → loads_ok (step s e).
Proof.
  intros H. destruct e; simpl;
    try (eapply loads_ok_same, H; first [done | apply same_show_columns]).
  - unfold refresh. case_match; [by apply loads_ok_search | by apply loads_ok_load].
  - unfold handlePageChange. case_match; [by apply loads_ok_search | by apply loads_ok_load].
  - unfold handlePageSizeChange. cbv zeta. case_match; [by apply loads_ok_search | by apply loads_ok_load].
  - by apply loads_ok_load.
  - by apply loads_ok_load.
  - by apply loads_ok_load.
  - by apply loads_ok_search.
  - case_match; [|done]. eapply loads_ok_same; [apply same_receive | by apply loads_ok_take].
  - case_match; [|done]. eapply loads_ok_same; [apply same_fails | by apply loads_ok_take].
Qed.

Lemma loads_ok_reachable s : reachable s → loads_ok s.
Proof.
  intros (status & group & size & tag & batch & columns & es & ->).
  assert (loads_ok (mount engine_error size tag batch columns (init status group))) as H.
  { unfold mount. cbv zeta. eapply loads_ok_same; [apply same_load_columns|].
    eapply (loads_ok_same (loadChannels _ _ _ _ _ _ _ _ _ _)); [apply same_emit|].
    apply loads_ok_load. split; [apply NoDup_nil_2|]. by intros id ?%elem_of_nil. }
  revert H. generalize (mount engine_error size tag batch columns (init status group)) as s.
  induction es as [|e es IH]; intros s H; [done|]. by apply IH, loads_ok_step.
Qed.

(** Two calls of the same load are the same call. *)
Lemma load_ids_inj s i j c c' id :
  NoDup (load_ids s) → pending s !! i = Some c → pending s !! j = Some c' →
  load_id c = Some id → load_id c' = Some id → i = j.
Proof.
  unfold load_ids. generalize (pending s) as l. clear s. intros l. revert i j.
  induction l as [|x l IH]; intros i j Hn Hi Hj Hc Hc'; [done|]. simpl in Hn.
  assert (∀ k (y : call), l !! k = Some y → load_id y = Some id → id ∈ omap load_id l) as Hin.
  { intros k y Hk Hy. apply list_elem_of_omap. exists y. split; [by eapply list_elem_of_lookup_2 | done]. }
  destruct i as [|i], j as [|j]; simpl in Hi, Hj; simplify_eq; try done.
  - rewrite Hc in Hn. apply NoDup_cons in Hn as [Hn _]. destruct Hn. by eapply Hin.
  - rewrite Hc' in Hn. apply NoDup_cons in Hn as [Hn _]. destruct Hn. by eapply Hin.
  - f_equal. destruct (load_id x); [apply NoDup_cons in Hn as [_ Hn]|]; by eapply IH.
Qed.

(** C14: the table only ever shows the last load that was started, whatever the order
    of the answers: the answer or the failure of any earlier load leaves the rows,
    the counts, the page and the loading flag as they are, at most one of the loads
    in flight is the last, and starting a load makes every one in flight an earlier. *)
Theorem latest_load_wins s i c id :
  reachable s → pending s !! i = Some c → load_id c = Some id →
  (id ≠ requestCounter s → ∀ res error,
    shown_list (step s (Response i res)) = shown_list s ∧
    shown_list (step s (Reject i error)) = shown_list s) ∧
  (∀ j c', pending s !! j = Some c' → load_id c' = Some (requestCounter s) → id = requestCounter s → i = j) ∧
  (∀ r b shown page size tagMode typeKey status group,
    id ≠ requestCounter (request_load engine_error r b shown page size tagMode typeKey status group s)).
Proof.
  intros [Hn Hle]%loads_ok_reachable Hi Hc. split; [|split].
  - intros Hid res error. simpl. rewrite Hi. unfold load_id in Hc. unfold receive, fails.
    destruct (kind c) as [id' tagMode b| |] eqn:E; simplify_eq.
    unfold receive_load. simpl. rewrite (proj2 (Nat.eqb_neq _ _) Hid), orb_true_r.
    split; destruct b; done.
  - intros j c' Hj Hc' ->. by eapply load_ids_inj.
  - intros r b shown page size tagMode typeKey status group.
    assert (id ≤ requestCounter s)%nat as Hid.
    { apply Hle. apply list_elem_of_omap. exists c. split; [by eapply list_elem_of_lookup_2 | done]. }
    unfold request_load, send. case_match; simpl; [lia|].
    destruct b; simpl; lia.
Qed.
End laws.

(** ** What a search asks for *)

(** with a search text, a page change sends the page as the group filter and the
    page size as the page, and the answer then shows the page size as the page
    number; a change of the page size sends the new size as the page, the old size
    as the size and the group 1. *)
Theorem search_page_misplaced engine_error s page size url url' :
  has_search s = true →
  Forall (λ v, is_undef v = false) [page; activeTypeKey s; statusFilter s; pageSize s] →
  search_url s (pageSize s) (pageSize s) (tag_value s) (activeTypeKey s) (statusFilter s) page = Some url →
  search_url s (VNum size) (pageSize s) (tag_value s) (activeTypeKey s) (statusFilter s) (num_value 1) = Some url' →
  (let s' := step engine_error s (PageChange page) in
   log s' = Get url :: log s ∧ activePage s' = page ∧
   pending s' = mk_call (Search (tag_value s) (pageSize s) false) Nobody :: pending s ∧
   ∀ res s'', receive_search (tag_value s) (pageSize s) res s' = (s'', true) →
     truthy (opt_read (u "success") (opt_read (u "data") res)) = true → activePage s'' = pageSize s) ∧
  (let s' := step engine_error s (PageSizeChange size) in
   log s' = Get url' :: SetItem (u "page-size") (num_to_string size) :: log s ∧
   pending s' = mk_call (Search (tag_value s) (VNum size) false) Nobody :: pending s).
Proof.
  intros Hs Hv Hurl Hurl'. rewrite !Forall_cons in Hv. destruct Hv as (Hp & Hk & Hst & Hz & _).
  assert (∀ d v, is_undef v = false → default_to d v = v) as Hd by (by intros d []).
  split; intros s'.
  - assert (s' = request_search engine_error false Nobody (tag_value s) (activeTypeKey s) (statusFilter s) page
      (pageSize s) (pageSize s) (setSearching true (setActivePage page s))) as ->.
    { unfold s'. cbn [step]. unfold handlePageChange. cbv zeta.
      change (has_search (setActivePage page s)) with (has_search s). rewrite Hs.
      unfold searchChannels. cbv zeta. rewrite !(Hd _ page), !(Hd _ (activeTypeKey s)), !(Hd _ (statusFilter s)), !(Hd _ (pageSize s)) by done.
      change (has_search (setSearching true (setActivePage page s))) with (has_search s). by rewrite Hs. }
    unfold request_search, send. change (search_url (setSearching _ _)) with (search_url s). rewrite Hurl.
    split; [done|]. split; [done|]. split; [done|].
    intros res s''. unfold receive_search.
    destruct (read (u "data") res) as [data|] eqn:Er; [|done].
    assert (opt_read (u "data") res = data) as -> by (unfold opt_read; by rewrite Er). cbn [mbind option_bind].
    destruct (read (u "success") data) as [ok|] eqn:Ed; [|done]. intros H Hok.
    assert (opt_read (u "success") data = ok) as E by (unfold opt_read; by rewrite Ed).
    rewrite E in Hok. rewrite Hok in H. cbv zeta in H.
    repeat (match type of H with context [match ?x with Some _ => _ | None => _ end] => destruct x end; [|done]).
    by injection H as <-.
  - assert (s' = request_search engine_error false Nobody (tag_value s) (activeTypeKey s) (statusFilter s) (num_value 1)
      (VNum size) (pageSize s) (setSearching true (setActivePage (num_value 1)
        (setPageSize (VNum size) (emit (SetItem (u "page-size") (num_to_string size)) s))))) as ->.
    { unfold s'. cbn [step]. unfold handlePageSizeChange. cbv zeta.
      match goal with |- context [if has_search ?x then _ else _] => change (has_search x) with (has_search s) end. rewrite Hs.
      unfold searchChannels. cbv zeta. rewrite !(Hd _ (activeTypeKey s)), !(Hd _ (statusFilter s)) by done.
      match goal with |- context [if has_search ?x then _ else _] => change (has_search x) with (has_search s) end. by rewrite Hs. }
    unfold request_search, send. change (search_url (setSearching _ _)) with (search_url s). rewrite Hurl'. done.
Qed.

(** ** Witnesses *)

(** Two channels are grouped; a third one of the tag "constructor" ends the loop. *)
Lemma tag_mode_groups_witness :
  let channel (id : Z) (tag : value) : props := [(u "id", num_value id); (u "tag", tag); (u "status", one)] in
  let two := [channel 1 (VStr (u "a")); channel 2 VUndef]%Z in
  (∃ cs, mapM format_channel two = Some cs ∧ setChannelFormat true two = map Tagged <$> grouped_rows cs) ∧
  setChannelFormat true (two ++ [channel 3 (VStr (u "constructor"))]%Z) = None.
Proof.
  intros channel two. set (three := two ++ _).
  assert (∃ cs, mapM format_channel two = Some cs ∧ Forall text_tag cs ∧ existsb inherited_tag cs = false) as (cs & H1 & H2 & H3).
  { eexists. split; [vm_compute; reflexivity|]. split; [|vm_compute; reflexivity]. by repeat apply Forall_cons_2. }
  assert (∃ cs, mapM format_channel three = Some cs ∧ Forall text_tag cs ∧ existsb inherited_tag cs = true) as (cs' & H4 & H5 & H6).
  { eexists. split; [vm_compute; reflexivity|]. split; [|vm_compute; reflexivity]. by repeat apply Forall_cons_2. }
  split.
  - exists cs. split; [exact H1|]. pose proof (proj1 (tag_mode_groups two cs H1 H2)) as H. by rewrite H3 in H.
  - pose proof (proj1 (tag_mode_groups three cs' H4 H5)) as H. by rewrite H6 in H.
Defined.

Definition two_pages : list event := [PageChange (num_value 2)].

(** The first page answered after the second was asked for. *)
Lemma latest_load_wins_witness :
  let s := run VNull (mount VNull None None None None (init None None)) two_pages in
  let res := VObj [(u "data", VObj [(u "success", VBool true)])] in
  (load_id <$> pending s !! 1%nat) = Some (Some 1%nat) ∧ requestCounter s = 2%nat ∧
  shown_list (step VNull s (Response 1 res)) = shown_list s.
Proof.
  intros s res. split; [vm_compute; reflexivity|]. split; [vm_compute; reflexivity|].
  assert (reachable VNull s) as Hr by (by exists None, None, None, None, None, None, two_pages).
  refine (proj1 (proj1 (latest_load_wins VNull s 1 (mk_call (Load 1 (VBool false) false) Shows) 1 Hr _ _) _ res VNull)).
  - vm_compute. reflexivity.
  - reflexivity.
  - vm_compute. discriminate.
Defined.

Lemma search_page_misplaced_witness :
  let s := run VNull (mount VNull None None None None (init None None)) [Form (u "gpt") []] in
  head (log (step VNull s (PageChange (num_value 2)))) =
  Some (Get (u "/api/channel/search?keyword=gpt&model=&tag_mode=false&p=10&page_size=10&group=2")).
Proof.
  intros s.
  refine (f_equal head (proj1 (proj1 (search_page_misplaced VNull s (num_value 2) (num_of_Z 20) _ _ _ _ _ _)))).
  - vm_compute. reflexivity.
  - repeat constructor; vm_compute; reflexivity.
  - vm_compute. reflexivity.
  - vm_compute. reflexivity.
Defined.
