(* ===== verification/ChannelEdit.v ===== *)
(** * Channel editing
    [src/web/src/hooks/channels/useChannelCRUD.js]: the actions on the channels of the
    list, their requests, and the list loaded again after them.  An action is a
    closure of a render: the list it loads again is the one that render showed. *)

From Stdlib Require Import SpecFloat.
From stdpp Require Import base numbers option strings sets list.
From S2P Require Import Prelude JsString JsNumber JsValue Json JsOps UpstreamUpdates ChannelList ChannelListLaws.

(** ** State *)

Inductive method := GET | POST | PUT | DELETE.

(** [Other]: a name that no case has. *)
Inductive action := Delete | Enable | Disable | Priority | Weight | EnableAll | Other.

(** What a suspended call is. *)
Inductive edit_kind :=
  | Manage (a : action)
  | ManageTag
  | CopyChannel
  | TagEdit (reloads : bool)
  | BatchTag
  | BatchDelete
  | DeleteDisabled
  | UpdateBalances
  | FixAbilities.

Inductive effect :=
  | Request (m : method) (url : jsstr) (body : value)
  | Success (text : jsstr)
  | Info (text : jsstr)
  | Error (v : value)
  | Unhandled (v : value).

(** [edit_render]: the list of the render whose closure the call is. *)
Record edit := mk_edit { what : edit_kind; edit_render : ChannelList.state }.

Record state := mk_state { list_of : ChannelList.state; edits : list edit; log : list effect }.

Definition with_list (l : ChannelList.state) (s : state) : state := mk_state l (edits s) (log s).
Definition emit (e : effect) (s : state) : state := mk_state (list_of s) (edits s) (e :: log s).
Definition suspend (c : edit) (s : state) : state := mk_state (list_of s) (edits s ++ [c]) (log s).

Section edits.
Context (t : jsstr → jsstr) (engine_error : value).

Definition request (k : edit_kind) (r : ChannelList.state) (m : method) (url : jsstr) (body : value)
    (s : state) : state :=
  suspend (mk_edit k r) (emit (Request m url body) s).

(** A conversion or a property of nothing throws, and nobody catches it. *)
Definition throws (s : state) : state := emit (Unhandled engine_error) s.

(** [parseInt(v)] *)
Definition parse_int (v : value) : option num := parse_int_text <$> to_string v.

(** *** Actions on one channel *)

(** [data], with one more property. *)
Definition put_channel (a : action) (r : ChannelList.state) (id : value) (k : string) (v : value) : state → state :=
  request (Manage a) r PUT (u "/api/channel/") (VObj [(u "id", id); (u k, v)]).

(** [data.channel_info] is the object of the record: emptying its list of states
    writes to the table too. *)
Definition reset_keys (info : props) : props := set (u "multi_key_status_list") (VObj []) info.

Definition reset_record (c : channel) : channel :=
  match channel_field "channel_info" c with
  | VObj info => mk_channel (set (u "channel_info") (VObj (reset_keys info)) (fields c)) (meta c)
  | _ => c
  end.

Definition write_record (r : ChannelList.state) (id : value) (l : ChannelList.state) : ChannelList.state :=
  let rows := default [] (tables l !! shown r) in
  setTable (<[shown r := map (update_row id reset_record) rows]> (tables l)) (shown l) l.

Definition manageChannel (r : ChannelList.state) (id : value) (a : action) (record : props) (v : value)
    (s : state) : state :=
  match a with
  | Delete =>
      match to_string id with
      | Some x => request (Manage a) r DELETE (u "/api/channel/" ++ x ++ u "/") VUndef s
      | None => throws s
      end
  | Enable => put_channel a r id "status" (num_value 1) s
  | Disable => put_channel a r id "status" (num_value 2) s
  | Priority =>
      if strict_eq v (VStr []) then s
      else match parse_int v with
           | Some x => put_channel a r id "priority" (VNum x) s
           | None => throws s
           end
  | Weight =>
      if strict_eq v (VStr []) then s
      else match parse_int v with
           | Some x => put_channel a r id "weight" (VNum (if nltb x (num_of_Z 0) then num_of_Z 0 else x)) s
           | None => throws s
           end
  | EnableAll =>
      match prop (u "channel_info") record with
      | VObj info =>
          put_channel a r id "channel_info" (VObj (reset_keys info)) (with_list (write_record r id (list_of s)) s)
      | VArr l => put_channel a r id "channel_info" (VArr l) s
      | _ => throws s
      end
  | Other => throws s
  end.

(** *** Actions on a tag *)

(** [None]: a name that no case has. *)
Definition manageTag (r : ChannelList.state) (tag : value) (enable : option bool) (s : state) : state :=
  match enable with
  | Some b =>
      request ManageTag r POST (u (if b then "/api/channel/tag/enabled" else "/api/channel/tag/disabled"))
        (VObj [(u "tag", tag)]) s
  | None => throws s
  end.

Inductive tag_edit := EditPriority | EditWeight | EditOther.

(** [data.weight < 0] *)
Definition negative (v : value) : option bool := x ← to_number v; Some (nltb x (num_of_Z 0)).

Definition put_tag (k : edit_kind) (r : ChannelList.state) (data : props) : state → state :=
  request k r PUT (u "/api/channel/tag") (VObj data).

Definition submitTagEdit (r : ChannelList.state) (type : tag_edit) (data : props) (s : state) : state :=
  match type with
  | EditPriority =>
      let p := prop (u "priority") data in
      if is_undef p || strict_eq p (VStr []) then emit (Info (u "优先级必须是整数！")) s
      else match parse_int p with
           | Some x => put_tag (TagEdit false) r (set (u "priority") (VNum x) data) s
           | None => throws s
           end
  | EditWeight =>
      let w := prop (u "weight") data in
      match (if is_undef w then Some true else below ← negative w; Some (below || strict_eq w (VStr []))) with
      | Some true => emit (Info (u "权重必须是非负整数！")) s
      | Some false =>
          match parse_int w with
          | Some x => put_tag (TagEdit false) r (set (u "weight") (VNum x) data) s
          | None => throws s
          end
      | None => throws s
      end
  | EditOther => put_tag (TagEdit true) r data s
  end.

(** *** Other actions *)

Definition copySelectedChannel (r : ChannelList.state) (record : props) (s : state) : state :=
  match to_string (prop (u "id") record) with
  | Some id => request CopyChannel r POST (u "/api/channel/copy/" ++ id) VUndef s
  | None => throws s
  end.

Definition ids_of (selected : list props) : value := VArr (map (prop (u "id")) selected).

Definition batchSetChannelTag (r : ChannelList.state) (selected : list props) (tag : jsstr) (s : state) : state :=
  match selected, tag with
  | [], _ => emit (Error (VStr (t (u "请先选择要设置标签的渠道！")))) s
  | _, [] => emit (Error (VStr (t (u "标签不能为空！")))) s
  | _, _ => request BatchTag r POST (u "/api/channel/batch/tag")
              (VObj [(u "ids", ids_of selected); (u "tag", VStr tag)]) s
  end.

Definition batchDeleteChannels (r : ChannelList.state) (selected : list props) (s : state) : state :=
  match selected with
  | [] => emit (Error (VStr (t (u "请先选择要删除的通道！")))) s
  | _ => request BatchDelete r POST (u "/api/channel/batch") (VObj [(u "ids", ids_of selected)]) s
  end.

Definition deleteAllDisabledChannels (r : ChannelList.state) : state → state :=
  request DeleteDisabled r DELETE (u "/api/channel/disabled") VUndef.
Definition updateAllChannelsBalance (r : ChannelList.state) : state → state :=
  request UpdateBalances r GET (u "/api/channel/update_balance") VUndef.
Definition fixChannelsAbilities (r : ChannelList.state) : state → state :=
  request FixAbilities r POST (u "/api/channel/fix") VUndef.

(** *** Answers *)

(** [await refresh()] of the closure, which knows its page. *)
Definition reload (r : ChannelList.state) (by_ : catcher) (s : state) : state :=
  with_list (refresh engine_error r by_ VUndef (list_of s)) s.

(** A text with a value put in the place of a pattern. *)
Definition fill (text : jsstr) (pattern : string) (v : value) : option jsstr :=
  x ← to_string v; Some (replace_first text (u pattern) x).

(** What is shown on success; [None] when it cannot be made. *)
Definition success_text (k : edit_kind) (data : value) : option jsstr :=
  match k with
  | Manage _ | ManageTag => Some (t (u "操作成功完成！"))
  | CopyChannel => Some (t (u "渠道复制成功"))
  | TagEdit _ => Some (u "更新成功！")
  | BatchTag => fill (t (u "已为 ${count} 个渠道设置标签！")) "${count}" (opt_read (u "data") data)
  | BatchDelete => fill (t (u "已删除 ${data} 个通道！")) "${data}" (opt_read (u "data") data)
  | DeleteDisabled => fill (t (u "已删除所有禁用渠道，共计 ${data} 个")) "${data}" (opt_read (u "data") data)
  | UpdateBalances => Some (t (u "已更新完毕所有已启用通道余额！"))
  | FixAbilities =>
      done ← read (u "success") (opt_read (u "data") data);
      text ← fill (t (u "已修复 ${success} 个通道，失败 ${fails} 个通道。")) "${success}" done;
      fill text "${fails}" (opt_read (u "fails") (opt_read (u "data") data))
  end.

Definition reloads (k : edit_kind) : bool :=
  match k with
  | Manage Priority | Manage Weight | TagEdit false | UpdateBalances => false
  | _ => true
  end.

Definition catcher_of (k : edit_kind) : catcher :=
  match k with CopyChannel => Copies | TagEdit _ => Shows | _ => Nobody end.

(** The text of a failed copy, also of one whose list could not be loaded again. *)
Definition copy_error_text (error : value) : option jsstr :=
  let message := value_or (opt_read (u "message") (opt_read (u "data") (opt_read (u "response") error)))
    (value_or (opt_read (u "message") error) error) in
  x ← to_string message; Some (t (u "渠道复制失败: ") ++ x).

(** What becomes of an error: the [catch] of the call, or nothing. *)
Definition caught (k : edit_kind) (error : value) (s : state) : state :=
  match catcher_of k with
  | Nobody => emit (Unhandled error) s
  | Shows => emit (Error error) s
  | Copies => match copy_error_text error with Some x => emit (Error (VStr x)) s | None => throws s end
  end.

Definition succeeded (k : edit_kind) (r : ChannelList.state) (data : value) (s : state) : state :=
  match success_text k data with
  | None => caught k engine_error s
  | Some text =>
      let s := emit (match k with UpdateBalances => Info text | _ => Success text end) s in
      if reloads k then reload r (catcher_of k) s else s
  end.

(** An answer without success; a tag edit says nothing. *)
Definition refused (k : edit_kind) (data : value) (s : state) : state :=
  let message := opt_read (u "message") data in
  match k with
  | CopyChannel => emit (Error (value_or message (VStr (t (u "渠道复制失败"))))) s
  | TagEdit _ => s
  | _ => emit (Error message) s
  end.

(** [res.data.success], or [res?.data?.success] where the call is guarded. *)
Definition success_of (k : edit_kind) (res : value) : option value :=
  match k with
  | CopyChannel | TagEdit _ => Some (opt_read (u "success") (opt_read (u "data") res))
  | _ => read (u "data") res ≫= read (u "success")
  end.

Definition answered (c : edit) (res : value) (s : state) : state :=
  match success_of (what c) res with
  | None => caught (what c) engine_error s
  | Some success =>
      let data := opt_read (u "data") res in
      if truthy success then succeeded (what c) (edit_render c) data s else refused (what c) data s
  end.

(** *** Steps *)

Inductive event :=
  | ManageChannel (id : value) (a : action) (record : props) (v : value)
  | TagAction (tag : value) (enable : option bool)
  | Copy (record : props)
  | SubmitTag (type : tag_edit) (data : props)
  | SetTag (selected : list props) (tag : jsstr)
  | DeleteSelected (selected : list props)
  | DeleteAllDisabled
  | UpdateAll
  | Fix
  | Answer (i : nat) (res : value)
  | Failure (i : nat) (error : value)
  | List (e : ChannelList.event).

Definition take_edit (i : nat) (s : state) : state := mk_state (list_of s) (delete i (edits s)) (log s).

Definition step (s : state) (e : event) : state :=
  let r := list_of s in
  match e with
  | ManageChannel id a record v => manageChannel r id a record v s
  | TagAction tag enable => manageTag r tag enable s
  | Copy record => copySelectedChannel r record s
  | SubmitTag type data => submitTagEdit r type data s
  | SetTag selected tag => batchSetChannelTag r selected tag s
  | DeleteSelected selected => batchDeleteChannels r selected s
  | DeleteAllDisabled => deleteAllDisabledChannels r s
  | UpdateAll => updateAllChannelsBalance r s
  | Fix => fixChannelsAbilities r s
  | Answer i res => match edits s !! i with Some c => answered c res (take_edit i s) | None => s end
  | Failure i error => match edits s !! i with Some c => caught (what c) error (take_edit i s) | None => s end
  | List e => with_list (ChannelList.step engine_error r e) s
  end.

Definition run (s : state) (es : list event) : state := fold_left step es s.

Definition init (saved_status saved_group : option jsstr) : state :=
  mk_state (ChannelList.init saved_status saved_group) [] [].
End edits.

(** A key that was disabled is enabled in the table before the server has agreed. *)
Example reset_before_answer :
  let record := [(u "id", num_value 3); (u "channel_info", VObj [(u "multi_key_status_list", VObj [(u "0", num_value 2)])])] in
  let l := setChannels [Single (mk_channel record (Build_update_meta false [] []))] (ChannelList.init None None) in
  let s := step id VNull (mk_state l [] []) (ManageChannel (num_value 3) EnableAll record VUndef) in
  channels (list_of s) = [Single (mk_channel
    [(u "id", num_value 3); (u "channel_info", VObj [(u "multi_key_status_list", VObj [])])] (Build_update_meta false [] []))].
Proof. vm_compute. reflexivity. Qed.

(** * Channel editing: laws
    What the actions do to the list that is loaded again after them. *)

Section laws.
Context (t : jsstr → jsstr) (engine_error : value).
Local Abbreviation step := (ChannelEdit.step t engine_error).
Local Abbreviation run := (ChannelEdit.run t engine_error).

(** The states of the page: the list is mounted, then anything happens. *)
Definition reachable (s : ChannelEdit.state) : Prop :=
  ∃ status group size tag batch columns es,
    s = run (mk_state (mount engine_error size tag batch columns (ChannelList.init status group)) [] []) es.

(** The list of the page has its calls in order. *)
Lemma list_wf_reload r by_ s :
  loads_ok (list_of s) → loads_ok (list_of (reload engine_error r by_ s)).
Proof.
  intros H. unfold reload, refresh. simpl.
  case_match; [by apply loads_ok_search | by apply loads_ok_load].
Qed.

(** The list is that of before, up to what its objects hold. *)
Definition same_list (s s' : ChannelEdit.state) : Prop := same_calls (list_of s) (list_of s').

Lemma same_list_caught k error s : same_list s (caught t engine_error k error s).
Proof. unfold caught. destruct (catcher_of k); [done..|]. by destruct (copy_error_text t error). Qed.

Lemma same_list_request r e s :
  match e with Answer _ _ | Failure _ _ | List _ => True | _ =>
    r = list_of s → same_list s (step s e) end.
Proof.
  destruct e; try done; intros _; simpl; unfold manageChannel, manageTag, copySelectedChannel, submitTagEdit,
    batchSetChannelTag, batchDeleteChannels, put_channel, put_tag, throws; cbv zeta;
    repeat case_match; done.
Qed.

Lemma list_wf_answered c res s :
  loads_ok (list_of s) → loads_ok (list_of (answered t engine_error c res s)).
Proof.
  intros H. unfold answered, succeeded, refused. cbv zeta.
  destruct (success_of (what c) res) as [v|]; [|by eapply loads_ok_same, H; apply same_list_caught].
  destruct (truthy v); [|by destruct (what c)].
  destruct (success_text t (what c) (opt_read (u "data") res)); [|by eapply loads_ok_same, H; apply same_list_caught].
  destruct (reloads (what c)); [|by destruct (what c)].
  apply list_wf_reload. by destruct (what c).
Qed.

Lemma list_wf_step s e : loads_ok (list_of s) → loads_ok (list_of (step s e)).
Proof.
  intros H. pose proof (same_list_request (list_of s) e s) as Hr. destruct e;
    try (eapply loads_ok_same, H; by apply Hr); simpl.
  - destruct (edits s !! i); [|done]. by apply list_wf_answered.
  - destruct (edits s !! i); [|done]. by apply (loads_ok_same (list_of (take_edit i s))); [apply same_list_caught|].
  - by apply loads_ok_step.
Qed.

Lemma list_wf_reachable s : reachable s → loads_ok (list_of s).
Proof.
  intros (status & group & size & tag & batch & columns & es & ->).
  assert (loads_ok (mount engine_error size tag batch columns (ChannelList.init status group))) as H.
  { apply (loads_ok_reachable engine_error). by exists status, group, size, tag, batch, columns, []. }
  remember (mk_state (mount engine_error size tag batch columns (ChannelList.init status group)) [] []) as s eqn:E.
  assert (loads_ok (list_of s)) as Hs by by subst. clear E H. revert s Hs.
  induction es as [|e es IH]; intros s H; [done|]. by apply IH, list_wf_step.
Qed.

(** Answers of a load leave the page number. *)
Lemma receive_load_page reqId tagMode res s : activePage (receive_load reqId tagMode res s).1 = activePage s.
Proof.
  unfold receive_load, show_items. repeat case_match; simplify_eq/=; try done;
    repeat match goal with H : _ = Some _ |- _ => first [progress simplify_option_eq | destruct (counted _); simplify_eq/=] end; done.
Qed.

(** after a successful action the list loads the page that was shown when the action
    was clicked, with the filters of then, and this load overtakes all those in
    flight: whatever page the operator has turned to meanwhile, the table shows the
    rows of the old page under the new page's number, and the loads of the new page
    are dropped when they are answered. *)
Theorem edit_reloads_old_page s i c res success url :
  reachable s → edits s !! i = Some c → reloads (what c) = true →
  success_of (what c) res = Some success → truthy success = true →
  success_text t (what c) (opt_read (u "data") res) ≠ None →
  let r := edit_render c in
  let l := list_of s in
  let l' := list_of (step s (Answer i res)) in
  has_search l = false → is_undef (activePage r) = false →
  load_url (activePage r) (pageSize r) (tag_value r) (activeTypeKey r) (statusFilter r) (groupFilter r) = Some url →
  ChannelList.log l' = Get url :: ChannelList.log l ∧
  pending l' = mk_call (Load (requestCounter l') (tag_value r) false) (catcher_of (what c)) :: pending l ∧
  activePage l' = activePage l ∧
  (∀ res', activePage (receive_load (requestCounter l') (tag_value r) res' l').1 = activePage l) ∧
  ∀ j c', pending l !! j = Some c' → ∀ id, load_id c' = Some id → id ≠ requestCounter l'.
Proof.
  intros Hs Hi Hr Hok Ht Htext r l l' Hsearch Hpage Hurl.
  destruct (success_text t (what c) (opt_read (u "data") res)) as [text|] eqn:Etext; [|done].
  assert (l' = refresh engine_error r (catcher_of (what c)) VUndef l) as El.
  { unfold l'. simpl. rewrite Hi. unfold answered. rewrite Hok. cbv zeta. rewrite Ht.
    unfold succeeded. rewrite Etext. cbv zeta. rewrite Hr. simpl. by destruct (what c). }
  assert (l' = setCalls (S (requestCounter l)) (mk_call (Load (S (requestCounter l)) (tag_value r) false)
    (catcher_of (what c)) :: pending l) (ChannelList.emit (Get url) (setLoading true (setCalls (S (requestCounter l)) (pending l) l)))) as E.
  { rewrite El. unfold refresh, loadChannels. cbv zeta. simpl default_to. rewrite Hsearch.
    unfold request_load. simpl default_to. by rewrite Hurl. }
  rewrite E. simpl. split_and!; try done.
  - intros res'. by rewrite receive_load_page.
  - intros j c' Hj id Hid ->. destruct (list_wf_reachable s Hs) as [_ Hle].
    assert (S (requestCounter l) ∈ load_ids l) as Hin.
    { apply list_elem_of_omap. exists c'. split; [by eapply list_elem_of_lookup_2 | done]. }
    apply Hle in Hin. unfold l in Hin. lia.
Qed.
End laws.

(** An action on page 1, then page 2: the answer loads page 1. *)
Lemma edit_reloads_old_page_witness :
  let s0 := mk_state (mount VNull None None None None (ChannelList.init None None)) [] [] in
  let s := ChannelEdit.run id VNull s0 [ManageChannel (num_value 3) Disable [] VUndef; List (PageChange (num_value 2))] in
  let res := VObj [(u "data", VObj [(u "success", VBool true)])] in
  let l' := list_of (ChannelEdit.step id VNull s (Answer 0 res)) in
  activePage l' = num_value 2 ∧
  ChannelList.log l' = Get (u "/api/channel/?p=1&page_size=10&tag_mode=false") :: ChannelList.log (list_of s).
Proof.
  cbv zeta. split; [vm_compute; reflexivity|].
  refine (proj1 (edit_reloads_old_page id VNull _ 0 (mk_edit (Manage Disable)
    (mount VNull None None None None (ChannelList.init None None))) _ (VBool true) _ _ _ _ _ _ _ _ _ _)).
  - exists None, None, None, None, None, None, [ManageChannel (num_value 3) Disable [] VUndef; List (PageChange (num_value 2))].
    reflexivity.
  - vm_compute. reflexivity.
  - reflexivity.
  - vm_compute. reflexivity.
  - reflexivity.
  - discriminate.
  - vm_compute. reflexivity.
  - reflexivity.
  - vm_compute. reflexivity.
Defined.
