(* ===== verification/ChannelTest.v ===== *)
(** * Channel tests
    [src/web/src/hooks/channels/useChannelTest.js] over the list of
    [useChannelSearch.js]: tests of one model, batches of five with their pauses and
    the flag that stops them, and balances.  A handler and what follows its awaits
    keep the render whose closure they are. *)

From Stdlib Require Import SpecFloat.
From stdpp Require Import base numbers option strings sets list.
From S2P Require Import Prelude JsString JsNumber JsValue Json JsOps UpstreamUpdates ChannelList.

(** ** State *)

(** The [useState] values of a render; [channel_list] is the list of the same page. *)
Record view := mk_view {
  channel_list : ChannelList.state;
  showModelTestModal : bool;
  currentTestChannel : option props;
  modelSearchKeyword : jsstr;
  modelTestResults : props;
  testingModels : list jsstr;
  selectedModelKeys : list jsstr;
  isBatchTesting : bool;
  modelTablePage : num;
  selectedEndpointType : jsstr;
  isStreamTest : bool;
}.

(** A suspended [testChannel]; [test_run] is the batch that awaits it. *)
Record test := mk_test {
  test_render : view; test_record : props; test_model : jsstr; test_index : value;
  test_key : jsstr; test_run : option nat;
}.

Inductive waiting :=
  | Test (c : test)
  | AllTests
  | Balance (r : view) (record : props).

(** Where a suspended [batchTestModels] is: tests it awaits, the pause between two
    groups, the pause before the count. *)
Inductive phase := Testing | Pausing | Finishing.

Record batch := mk_batch {
  run_id : nat; run_render : view; run_channel : props; run_models : list jsstr;
  run_from : nat; run_phase : phase;
}.

Inductive effect :=
  | Get (url : jsstr)
  | Post (url : jsstr) (body : props)
  | Info (text : jsstr)
  | Success (text : jsstr)      (** after 100 ms *)
  | Error (v : value)
  | Unhandled (v : value)
  | CodexUsage (record : props).

Record state := mk_state {
  now : view;
  shouldStop : bool;            (** [shouldStopBatchTestingRef.current] *)
  allSelecting : bool;          (** [allSelectingRef.current] of [useChannelsData.jsx] *)
  calls : list waiting;
  batches : list batch;
  next_run : nat;
  log : list effect;
}.

Definition with_view v s := mk_state v (shouldStop s) (allSelecting s) (calls s) (batches s) (next_run s) (log s).
Definition setStop x s := mk_state (now s) x (allSelecting s) (calls s) (batches s) (next_run s) (log s).
Definition setAllSelecting x s := mk_state (now s) (shouldStop s) x (calls s) (batches s) (next_run s) (log s).
Definition with_calls l s := mk_state (now s) (shouldStop s) (allSelecting s) l (batches s) (next_run s) (log s).
Definition with_batches l s := mk_state (now s) (shouldStop s) (allSelecting s) (calls s) l (next_run s) (log s).
Definition add_batch b s :=
  mk_state (now s) (shouldStop s) (allSelecting s) (calls s) (batches s ++ [b]) (S (next_run s)) (log s).
Definition emit e s :=
  mk_state (now s) (shouldStop s) (allSelecting s) (calls s) (batches s) (next_run s) (e :: log s).

Definition on_view (f : view → view) (s : state) : state := with_view (f (now s)) s.

Definition set_list x v := mk_view x (showModelTestModal v) (currentTestChannel v) (modelSearchKeyword v)
  (modelTestResults v) (testingModels v) (selectedModelKeys v) (isBatchTesting v) (modelTablePage v)
  (selectedEndpointType v) (isStreamTest v).
Definition set_modal shown channel v := mk_view (channel_list v) shown channel (modelSearchKeyword v)
  (modelTestResults v) (testingModels v) (selectedModelKeys v) (isBatchTesting v) (modelTablePage v)
  (selectedEndpointType v) (isStreamTest v).
Definition set_results x v := mk_view (channel_list v) (showModelTestModal v) (currentTestChannel v)
  (modelSearchKeyword v) x (testingModels v) (selectedModelKeys v) (isBatchTesting v) (modelTablePage v)
  (selectedEndpointType v) (isStreamTest v).
Definition set_testing x v := mk_view (channel_list v) (showModelTestModal v) (currentTestChannel v)
  (modelSearchKeyword v) (modelTestResults v) x (selectedModelKeys v) (isBatchTesting v) (modelTablePage v)
  (selectedEndpointType v) (isStreamTest v).
Definition set_batch_testing x v := mk_view (channel_list v) (showModelTestModal v) (currentTestChannel v)
  (modelSearchKeyword v) (modelTestResults v) (testingModels v) (selectedModelKeys v) x (modelTablePage v)
  (selectedEndpointType v) (isStreamTest v).
Definition set_options keyword selected page endpoint stream v := mk_view (channel_list v) (showModelTestModal v)
  (currentTestChannel v) keyword (modelTestResults v) (testingModels v) selected (isBatchTesting v) page
  endpoint stream.

Definition setModelSearchKeyword x v :=
  set_options x (selectedModelKeys v) (modelTablePage v) (selectedEndpointType v) (isStreamTest v) v.
Definition setSelectedModelKeys x v :=
  set_options (modelSearchKeyword v) x (modelTablePage v) (selectedEndpointType v) (isStreamTest v) v.
Definition setModelTablePage x v :=
  set_options (modelSearchKeyword v) (selectedModelKeys v) x (selectedEndpointType v) (isStreamTest v) v.
Definition setSelectedEndpointType x v :=
  set_options (modelSearchKeyword v) (selectedModelKeys v) (modelTablePage v) x (isStreamTest v) v.
Definition setIsStreamTest x v :=
  set_options (modelSearchKeyword v) (selectedModelKeys v) (modelTablePage v) (selectedEndpointType v) x v.

(** [new Set([...prev, model])] *)
Definition add_testing (model : jsstr) (v : view) : view :=
  set_testing (if decide (model ∈ testingModels v) then testingModels v else testingModels v ++ [model]) v.
Definition remove_testing (model : jsstr) (v : view) : view :=
  set_testing (filter (λ m, m ≠ model) (testingModels v)) v.

Definition concurrencyLimit : nat := 5.

Section tests.
Context (t lower : jsstr → jsstr) (engine_error : value).

Definition dec (n : nat) : jsstr := dec_N (N.of_nat n).
Definition replace (pattern : string) (by_ s : jsstr) : jsstr := replace_first s (u pattern) by_.

(** *** One test *)

(** [`${record.id}-${model}`], with [`-k${keyIndex}`] for one key of several. *)
Definition result_key (record : props) (model : jsstr) : option jsstr :=
  id ← to_string (prop (u "id") record); Some (id ++ u "-" ++ model).

Definition full_key (record : props) (model : jsstr) (keyIndex : value) : option jsstr :=
  key ← result_key record model;
  if is_undef keyIndex then Some key else k ← to_string keyIndex; Some (key ++ u "-k" ++ k).

Definition key_test_body (record : props) (model : jsstr) (keyIndex : value) (endpoint : jsstr) (stream : bool) : props :=
  [(u "channel_id", prop (u "id") record); (u "action", VStr (u "test_key")); (u "key_index", keyIndex);
   (u "test_model", VStr model); (u "endpoint_type", VStr endpoint); (u "is_stream", VBool stream)].

Definition test_url (id model endpoint : jsstr) (stream : bool) : jsstr :=
  u "/api/channel/test/" ++ id ++ u "?model=" ++ model ++
  (if str_truthy endpoint then u "&endpoint_type=" ++ endpoint else []) ++
  (if stream then u "&stream=true" else []).

(** A promise that is rejected: [Promise.allSettled] takes those of a batch. *)
Definition rejected (run : option nat) (error : value) (s : state) : state :=
  match run with None => emit (Unhandled error) s | Some _ => s end.

(** [testChannel] up to its [await]; [false] when there is none. *)
Definition testChannel (r : view) (record : props) (model endpoint : jsstr) (stream : bool) (keyIndex : value)
    (run : option nat) (s : state) : state * bool :=
  match full_key record model keyIndex, to_string (prop (u "id") record) with
  | Some key, Some id =>
      if shouldStop s && isBatchTesting r then (s, false)
      else
        let s := on_view (add_testing model) s in
        let request :=
          if is_undef keyIndex then Get (test_url id model endpoint stream)
          else Post (u "/api/channel/multi_key/manage") (key_test_body record model keyIndex endpoint stream) in
        (emit request (with_calls (calls s ++ [Test (mk_test r record model keyIndex key run)]) s), true)
  | _, _ => (rejected run engine_error s, false)
  end.

Definition write_result (key : jsstr) (result : props) : state → state :=
  on_view (λ v, set_results (set key (VObj result) (modelTestResults v)) v).

(** [status_code ?? null] *)
Definition or_null (v : value) : value := match v with VUndef => VNull | _ => v end.

Definition answer_result (data time : value) (timestamp : num) : props :=
  [(u "success", opt_read (u "success") data); (u "message", opt_read (u "message") data); (u "time", time);
   (u "timestamp", VNum timestamp); (u "headers", opt_read (u "headers") data); (u "body", opt_read (u "body") data);
   (u "statusCode", or_null (opt_read (u "status_code") data))].

Definition failure_result (message : value) (timestamp : num) : props :=
  [(u "success", VBool false); (u "message", message); (u "time", num_value 0); (u "timestamp", VNum timestamp)].

(** [`${t('模型')} ${model}: ${message}`] *)
Definition model_message (model : jsstr) (message : value) : option value :=
  m ← to_string message; Some (VStr (t (u "模型") ++ u " " ++ model ++ u ": " ++ m)).

(** The outcome of a piece of code: its state, and the error it throws. *)
Abbreviation outcome := (state * option value)%type.

Definition show_failure (model : jsstr) (message : value) (s : state) : outcome :=
  match model_message model message with
  | Some m => (emit (Error m) s, None)
  | None => (s, Some engine_error)
  end.

(** [channel.response_time = time * 1000; channel.test_time = Date.now() / 1000] *)
Definition write_times (time : value) (timestamp : num) : option (channel → channel) :=
  x ← to_number time;
  Some (λ c, mk_channel (set (u "test_time") (VNum (ndiv timestamp (num_of_Z 1000)))
    (set (u "response_time") (VNum (nmul x (num_of_Z 1000))) (fields c))) (meta c)).

Definition update_property (r : view) (id : value) (f : option (channel → channel)) (s : state) : state * bool :=
  let '(l, ok) := updateChannelProperty (channel_list r) id f (channel_list (now s)) in
  (on_view (set_list l) s, ok).

(** The message of a test that passed; [None] when [toFixed] or a conversion throws. *)
Definition passed_text (record : props) (model : jsstr) (time : value) : option jsstr :=
  name ← to_string (prop (u "name") record);
  match time with
  | VNum x =>
      let seconds := replace "${time.toFixed(2)}" (to_fixed x 2) in
      Some (if str_truthy model
            then seconds (replace "${model}" model (replace "${name}" name
              (t (u "通道 ${name} 测试成功，模型 ${model} 耗时 ${time.toFixed(2)} 秒。"))))
            else seconds (replace "${name}" name (t (u "通道 ${name} 测试成功，耗时 ${time.toFixed(2)} 秒。"))))
  | _ => None
  end.

(** The body of the [try] after the answer. *)
Definition key_answered (c : test) (data : value) (timestamp : num) (s : state) : outcome :=
  let s := write_result (test_key c) (answer_result data (num_value 0) timestamp) s in
  if truthy (opt_read (u "success") data) then
    match to_string (test_index c) with
    | Some k => (emit (Info (replace "${model}" (test_model c) (replace "${index}" k
                   (t (u "密钥 #${index} 测试成功，模型 ${model}"))))) s, None)
    | None => (s, Some engine_error)
    end
  else show_failure (test_model c) (opt_read (u "message") data) s.

Definition channel_answered (c : test) (data : value) (timestamp : num) (s : state) : outcome :=
  let time := opt_read (u "time") data in
  let s := write_result (test_key c) (answer_result data (value_or time (num_value 0)) timestamp) s in
  if truthy (opt_read (u "success") data) then
    let '(s, ok) := update_property (test_render c) (prop (u "id") (test_record c)) (write_times time timestamp) s in
    if ok then
      match passed_text (test_record c) (test_model c) time with
      | Some text => (emit (Info text) s, None)
      | None => (s, Some engine_error)
      end
    else (s, Some engine_error)
  else show_failure (test_model c) (opt_read (u "message") data) s.

Definition answered (c : test) (res : value) (timestamp : num) (s : state) : outcome :=
  if is_undef (test_index c) && shouldStop s && isBatchTesting (test_render c) then (s, None)
  else match read (u "data") res with
  | Some ((VUndef | VNull)) | None => (s, Some engine_error)
  | Some data =>
      if is_undef (test_index c) then channel_answered c data timestamp s else key_answered c data timestamp s
  end.

(** The [catch]. *)
Definition catch_error (c : test) (error : value) (timestamp : num) (s : state) : outcome :=
  match read (u "message") error, result_key (test_record c) (test_model c) with
  | Some message, Some key =>
      show_failure (test_model c) (value_or message (VStr (t (u "测试失败"))))
        (write_result key (failure_result (value_or message (VStr (t (u "网络错误")))) timestamp) s)
  | _, _ => (s, Some engine_error)
  end.

(** The [try], its [catch] and its [finally], from the answer or the failure on. *)
Definition end_test (c : test) (timestamp : num) (o : outcome) : state :=
  let '(s, error) := match o with
    | (s, Some error) => catch_error c error timestamp s
    | (s, None) => (s, None)
    end in
  let s := on_view (remove_testing (test_model c)) s in
  match error with Some e => rejected (test_run c) e s | None => s end.

(** *** Batches *)

Definition put_batch (b : batch) (s : state) : state :=
  with_batches (map (λ b', if decide (run_id b' = run_id b) then b else b') (batches s)) s.
Definition at_phase (p : phase) (from : nat) (b : batch) : batch :=
  mk_batch (run_id b) (run_render b) (run_channel b) (run_models b) from p.

(** The [finally] of a batch. *)
Definition end_batch (b : batch) (s : state) : state :=
  on_view (set_batch_testing false) (with_batches (filter (λ b', run_id b' ≠ run_id b) (batches s)) s).

(** What follows the loop. *)
Definition end_loop (b : batch) (s : state) : state :=
  if shouldStop s then end_batch b s else put_batch (at_phase Finishing (run_from b) b) s.

Definition stopped : effect := Info (t (u "批量测试已停止")).

(** What follows [Promise.allSettled]. *)
Definition after_tests (b : batch) (s : state) : state :=
  if shouldStop s then end_loop b (emit stopped s)
  else if (run_from b + concurrencyLimit <? length (run_models b))%nat
  then put_batch (at_phase Pausing (run_from b) b) s
  else end_loop b s.

Definition group_of (b : batch) : list jsstr := take concurrencyLimit (drop (run_from b) (run_models b)).

Definition group_text (b : batch) : jsstr :=
  replace "${total}" (dec (length (run_models b)))
    (replace "${end}" (dec (Nat.min (run_from b + concurrencyLimit) (length (run_models b))))
      (replace "${current}" (dec (S (run_from b)))
        (t (u "正在测试第 ${current} - ${end} 个模型 (共 ${total} 个)")))).

(** [batch.map(model => testChannel(...))], and how many of the tests wait. *)
Definition start_test (b : batch) (acc : state * nat) (model : jsstr) : state * nat :=
  let '(s, n) := acc in
  let r := run_render b in
  let '(s, waits) := testChannel r (run_channel b) model (selectedEndpointType r) (isStreamTest r)
    (prop (u "_testKeyIndex") (run_channel b)) (Some (run_id b)) s in
  (s, if waits then S n else n).

(** A turn of the loop. *)
Definition turn (b : batch) (s : state) : state :=
  if (run_from b <? length (run_models b))%nat then
    if shouldStop s then end_loop b (emit stopped s)
    else
      let '(s, n) := fold_left (start_test b) (group_of b)
        (emit (Info (group_text b)) (put_batch (at_phase Testing (run_from b) b) s), O) in
      if decide (n = O) then after_tests b s else s
  else end_loop b s.

(** A batch goes on when the last test that it awaits has ended. *)
Definition awaited (id : nat) (w : waiting) : bool :=
  match w with Test c => bool_decide (test_run c = Some id) | _ => false end.

Definition find_batch (id : nat) (s : state) : option batch :=
  head (filter (λ b, run_id b = id) (batches s)).

Definition settle (run : option nat) (s : state) : state :=
  match run with
  | None => s
  | Some id =>
      if existsb (awaited id) (calls s) then s
      else match find_batch id s with Some b => after_tests b s | None => s end
  end.

Definition matching (keyword : jsstr) (model : jsstr) : bool := includes (lower model) (lower keyword).

(** [modelTestResults] without the last results of the models. *)
Definition clear_results (channel : props) (models : list jsstr) (v : view) : option view :=
  keys ← mapM (result_key channel) models;
  Some (set_results (fold_left (λ o k, del k o) keys (modelTestResults v)) v).

Definition batchTestModels (r : view) (s : state) : state :=
  let incomplete := emit (Error (VStr (t (u "渠道模型信息不完整")))) s in
  match currentTestChannel r with
  | None => incomplete
  | Some channel =>
      let list := prop (u "models") channel in
      if negb (truthy list) then incomplete
      else match list with
      | VStr text =>
          match List.filter (matching (modelSearchKeyword r)) (split_on 44 text) with
          | [] => emit (Error (VStr (t (u "没有找到匹配的模型")))) s
          | models =>
              let s := setStop false (on_view (set_batch_testing true) s) in
              match clear_results channel models (now s) with
              | None => emit (Unhandled engine_error) s
              | Some v =>
                  let b := mk_batch (next_run s) r channel models 0 Testing in
                  turn b (emit (Info (replace "${count}" (dec (length models))
                    (t (u "开始批量测试 ${count} 个模型，已清空上次结果..."))))
                    (add_batch b (with_view v s)))
              end
          end
      | _ => emit (Unhandled engine_error) s
      end
  end.

(** The count at the end: a model passed when its result says so. *)
Definition passed (channel : props) (results : props) (model : jsstr) : bool :=
  match result_key channel model with
  | Some key => truthy (opt_read (u "success") (prop key results))
  | None => false
  end.

Definition count_text (b : batch) (results : props) : jsstr :=
  let n := length (List.filter (passed (run_channel b) results) (run_models b)) in
  replace "${total}" (dec (length (run_models b)))
    (replace "${fail}" (dec (length (run_models b) - n))
      (replace "${success}" (dec n)
        (t (u "批量测试完成！成功: ${success}, 失败: ${fail}, 总计: ${total}")))).

(** A pause ends. *)
Definition on_timer (id : nat) (s : state) : state :=
  match find_batch id s with
  | Some b =>
      match run_phase b with
      | Testing => s
      | Pausing => turn (at_phase Testing (run_from b + concurrencyLimit) b) s
      | Finishing => end_batch b (emit (Success (count_text b (modelTestResults (now s)))) s)
      end
  | None => s
  end.

(** *** The other handlers *)

Definition stopBatchTesting (s : state) : state :=
  emit (Info (t (u "已停止批量测试"))) (setStop true (on_view (λ v, set_testing [] (set_batch_testing false v)) s)).

Definition clearTestResults (s : state) : state :=
  emit (Info (t (u "已清空测试结果"))) (on_view (set_results []) s).

Definition handleCloseModal (r : view) (s : state) : state :=
  let s := if isBatchTesting r
    then emit (Info (t (u "关闭弹窗，已停止批量测试"))) (setStop true s) else s in
  on_view (λ v, set_options [] [] (num_of_Z 1) [] false
    (set_testing [] (set_batch_testing false (set_modal false (currentTestChannel v) v)))) s.

Definition testAllChannels (s : state) : state :=
  emit (Get (u "/api/channel/test")) (with_calls (calls s ++ [AllTests]) s).

Definition all_tests_answered (res : value) (s : state) : state :=
  match read (u "data") res ≫= read (u "success") with
  | None => emit (Unhandled engine_error) s
  | Some success =>
      if truthy success then emit (Info (t (u "已成功开始测试所有已启用通道，请刷新页面查看结果。"))) s
      else emit (Error (opt_read (u "message") (opt_read (u "data") res))) s
  end.

Definition updateChannelBalance (r : view) (record : props) (s : state) : state :=
  if strict_eq (prop (u "type") record) (num_value 57) then emit (CodexUsage record) s
  else match to_string (prop (u "id") record) with
  | Some id => emit (Get (u "/api/channel/update_balance/" ++ id ++ u "/"))
                 (with_calls (calls s ++ [Balance r record]) s)
  | None => emit (Unhandled engine_error) s
  end.

Definition write_balance (balance : value) (timestamp : num) (c : channel) : channel :=
  mk_channel (set (u "balance_updated_time") (VNum (ndiv timestamp (num_of_Z 1000)))
    (set (u "balance") balance (fields c))) (meta c).

Definition balance_answered (r : view) (record : props) (res : value) (timestamp : num) (s : state) : state :=
  match read (u "data") res ≫= read (u "success") with
  | None => emit (Unhandled engine_error) s
  | Some success =>
      let data := opt_read (u "data") res in
      if truthy success then
        let s := (update_property r (prop (u "id") record)
          (Some (write_balance (opt_read (u "balance") data) timestamp)) s).1 in
        match to_string (prop (u "name") record) with
        | Some name => emit (Info (replace "${name}" name (t (u "通道 ${name} 余额更新成功！")))) s
        | None => emit (Unhandled engine_error) s
        end
      else emit (Error (opt_read (u "message") data)) s
  end.

(** *** The dialog ([ModelTestModal.jsx]) *)

(** [None] when there is no list of models to split. *)
Definition channel_models (r : view) : option (list jsstr) :=
  match currentTestChannel r with
  | Some channel => match prop (u "models") channel with VStr text => Some (split_on 44 text) | _ => None end
  | None => Some []
  end.

Definition filteredModels (r : view) : option (list jsstr) :=
  List.filter (matching (modelSearchKeyword r)) <$> channel_models r.

Definition MODEL_TABLE_PAGE_SIZE : nat := 10.

(** The rows of page [p], from 1. *)
Definition dataSource (r : view) (p : nat) : option (list jsstr) :=
  models ← filteredModels r; Some (take MODEL_TABLE_PAGE_SIZE (drop ((p - 1) * MODEL_TABLE_PAGE_SIZE) models)).

Definition succeeded (r : view) (channel : props) (model : jsstr) : bool :=
  match full_key channel model (prop (u "_testKeyIndex") channel) with
  | Some key => truthy (opt_read (u "success") (prop key (modelTestResults r)))
  | None => false
  end.

Definition handleSelectSuccess (r : view) (s : state) : state :=
  match currentTestChannel r, filteredModels r with
  | None, _ => s
  | Some channel, Some models =>
      let successKeys := List.filter (succeeded r channel) models in
      on_view (setSelectedModelKeys successKeys)
        (match successKeys with [] => emit (Info (t (u "暂无成功模型"))) s | _ => s end)
  | Some _, None => emit (Unhandled engine_error) s
  end.

(** The table reports a click on the header twice: the second report is ignored. *)
Definition selection_changed (keys : list jsstr) (s : state) : state :=
  if allSelecting s then setAllSelecting false s else on_view (setSelectedModelKeys keys) s.

Definition select_all (r : view) (checked : bool) (s : state) : state :=
  match filteredModels r with
  | Some models => on_view (setSelectedModelKeys (if checked then models else [])) (setAllSelecting true s)
  | None => s
  end.

Definition streamToggleDisabled (v : view) : bool :=
  bool_decide (selectedEndpointType v ∈ map u ["embeddings"; "image-generation"; "jina-rerank";
    "openai-response-compact"]%string).

(** The effect of the dialog. *)
Definition fix_stream (v : view) : view :=
  if streamToggleDisabled v && isStreamTest v then setIsStreamTest false v else v.

(** *** Steps *)

Inductive event :=
  | List (e : ChannelList.event)                      (** anything that happens to the list *)
  | TestRow (record : props)                          (** the button of a row *)
  | OpenModal (record : props)                        (** [_testKeyIndex] is set for one key *)
  | TestModel (model : jsstr)                         (** the button of a model *)
  | Batch
  | Stop
  | Clear
  | Close
  | TestAll
  | UpdateBalance (record : props)
  | Keyword (keyword : jsstr)
  | Select (keys : list jsstr)
  | SelectAll (checked : bool)
  | SelectSuccess
  | Page (page : num)
  | Endpoint (endpoint : jsstr)
  | Stream (stream : bool)
  | Response (i : nat) (res : value) (timestamp : num)
  | Reject (i : nat) (error : value) (timestamp : num)
  | Timer (id : nat).

Definition take_call (i : nat) (s : state) : state := with_calls (delete i (calls s)) s.

Definition respond (w : waiting) (res : value) (timestamp : num) (s : state) : state :=
  match w with
  | Test c => settle (test_run c) (end_test c timestamp (answered c res timestamp s))
  | AllTests => all_tests_answered res s
  | Balance r record => balance_answered r record res timestamp s
  end.

Definition fail (w : waiting) (error : value) (timestamp : num) (s : state) : state :=
  match w with
  | Test c => settle (test_run c) (end_test c timestamp (s, Some error))
  | _ => emit (Unhandled error) s
  end.

Definition step (s : state) (e : event) : state :=
  let r := now s in
  match e with
  | List e => on_view (λ v, set_list (ChannelList.step engine_error (channel_list v) e) v) s
  | TestRow record => (testChannel r record [] [] false VUndef None s).1
  | OpenModal record => on_view (set_modal true (Some record)) s
  | TestModel model =>
      match currentTestChannel r with
      | Some channel => (testChannel r channel model (selectedEndpointType r) (isStreamTest r)
          (prop (u "_testKeyIndex") channel) None s).1
      | None => s
      end
  | Batch => if isBatchTesting r then s else batchTestModels r s
  | Stop => stopBatchTesting s
  | Clear => clearTestResults s
  | Close => handleCloseModal r s
  | TestAll => testAllChannels s
  | UpdateBalance record => updateChannelBalance r record s
  | Keyword keyword => on_view (λ v, setModelTablePage (num_of_Z 1) (setModelSearchKeyword keyword v)) s
  | Select keys => selection_changed keys s
  | SelectAll checked => select_all r checked s
  | SelectSuccess => handleSelectSuccess r s
  | Page page => on_view (setModelTablePage page) s
  | Endpoint endpoint => on_view (λ v, fix_stream (setSelectedEndpointType endpoint v)) s
  | Stream stream => on_view (λ v, fix_stream (setIsStreamTest stream v)) s
  | Response i res timestamp =>
      match calls s !! i with Some w => respond w res timestamp (take_call i s) | None => s end
  | Reject i error timestamp =>
      match calls s !! i with Some w => fail w error timestamp (take_call i s) | None => s end
  | Timer id => on_timer id s
  end.

Definition run (s : state) (es : list event) : state := fold_left step es s.

Definition init (l : ChannelList.state) : state :=
  mk_state (mk_view l false None [] [] [] [] false (num_of_Z 1) [] false) false false [] [] 0 [].
End tests.
