(* ===== verification/ChannelTestLaws.v ===== *)
(** * Channel tests: laws
    What a batch awaits in every reachable state, that it ends, and what late answers
    do to the list. *)

From Stdlib Require Import SpecFloat.
From stdpp Require Import base numbers option strings sets list.
From S2P Require Import Prelude JsString JsNumber JsValue Json JsOps UpstreamUpdates ChannelList ChannelTest.

Section laws.
Context (t lower : jsstr → jsstr) (engine_error : value).
Abbreviation step := (step t lower engine_error).
Abbreviation run := (run t lower engine_error).
Abbreviation turn := (turn t engine_error).
Abbreviation after_tests := (after_tests t).

(** ** What batches await *)

Definition awaited_model (id : nat) (w : waiting) : option jsstr :=
  match w with Test c => if decide (test_run c = Some id) then Some (test_model c) else None | _ => None end.
Definition awaited_models (id : nat) (s : state) : list jsstr := omap (awaited_model id) (calls s).

Definition ids (s : state) : list nat := map run_id (batches s).

(** While it tests, a batch awaits models of its group, in their order; in a pause it
    awaits none, between two groups or after the last. *)
Definition batch_ok (s : state) (b : batch) : Prop :=
  let l := awaited_models (run_id b) s in
  match run_phase b with
  | Testing => l ≠ [] ∧ l `sublist_of` group_of b
  | Pausing => l = [] ∧ (run_from b + concurrencyLimit < length (run_models b))%nat
  | Finishing => l = [] ∧ (length (run_models b) ≤ run_from b + concurrencyLimit)%nat
  end.

(** Everything but the batch [id], which awaits nothing. *)
Record wf_but (id : nat) (s : state) : Prop := {
  but_nodup : NoDup (ids s);
  but_fresh : ∀ i, i ∈ ids s → (i < next_run s)%nat;
  but_ok : ∀ b, b ∈ batches s → run_id b ≠ id → batch_ok s b;
  but_known : ∀ i, awaited_models i s ≠ [] → i ∈ ids s;
  but_none : awaited_models id s = [];
  but_here : id ∈ ids s;
}.

Record wf (s : state) : Prop := {
  wf_nodup : NoDup (ids s);
  wf_fresh : ∀ i, i ∈ ids s → (i < next_run s)%nat;
  wf_ok : ∀ b, b ∈ batches s → batch_ok s b;
  wf_known : ∀ i, awaited_models i s ≠ [] → i ∈ ids s;
}.

(** Only the calls, the batches and their number count. *)
Definition same_runs (s s' : state) : Prop :=
  calls s' = calls s ∧ batches s' = batches s ∧ next_run s' = next_run s.

Lemma same_runs_refl s : same_runs s s.
Proof. done. Qed.
Lemma same_runs_trans s1 s2 s3 : same_runs s1 s2 → same_runs s2 s3 → same_runs s1 s3.
Proof. unfold same_runs. by intros (<- & <- & <-) (<- & <- & <-). Qed.

Lemma batches_wf_same s s' : same_runs s s' → wf s → wf s'.
Proof.
  intros (Hc & Hb & Hn) [H1 H2 H3 H4]. unfold ids, batch_ok, awaited_models in *.
  split; unfold ids, batch_ok, awaited_models; rewrite ?Hc, ?Hb, ?Hn; done.
Qed.
Lemma wf_but_same id s s' : same_runs s s' → wf_but id s → wf_but id s'.
Proof.
  intros (Hc & Hb & Hn) [H1 H2 H3 H4 H5]. unfold ids, batch_ok, awaited_models in *.
  split; unfold ids, batch_ok, awaited_models; rewrite ?Hc, ?Hb, ?Hn; done.
Qed.

Lemma wf_wf_but id s : wf s → id ∈ ids s → awaited_models id s = [] → wf_but id s.
Proof. intros [H1 H2 H3 H4] Hid H. split; auto. Qed.

(** ** Ending, pausing and starting groups *)

Lemma ids_put_batch b s : ids (put_batch b s) = ids s.
Proof.
  unfold ids, put_batch. simpl. rewrite map_map. apply map_ext. intros b'. by case_decide.
Qed.

Lemma wf_put_batch b s : wf_but (run_id b) s → batch_ok s b → wf (put_batch b s).
Proof.
  intros [H1 H2 H3 H4 H5 H6] Hb. split; rewrite ?ids_put_batch; [done|done| |done].
  intros b' (x & -> & Hx)%list_elem_of_fmap. case_decide; [done | by apply H3].
Qed.

Lemma wf_end_batch b s : wf_but (run_id b) s → wf (end_batch b s).
Proof.
  intros [H1 H2 H3 H4 H5 H6].
  assert (∀ i, i ∈ ids (end_batch b s) ↔ i ∈ ids s ∧ i ≠ run_id b) as Hi.
  { intros i. unfold ids. simpl. rewrite !list_elem_of_fmap. split.
    - intros (x & -> & [? ?]%list_elem_of_filter). eauto.
    - intros [(x & -> & Hx) Hne]. exists x. split; [done|]. by apply list_elem_of_filter. }
  split.
  - unfold ids. simpl. clear -H1. unfold ids in H1. induction (batches s) as [|x l IH]; [constructor|].
    rewrite filter_cons. apply NoDup_cons in H1 as [Hx H1]. case_decide; [|by apply IH]. simpl. constructor; [|by apply IH].
    contradict Hx. apply list_elem_of_fmap in Hx as (y & E & [_ Hy]%list_elem_of_filter).
    rewrite E. by apply list_elem_of_fmap_2.
  - intros i [Hin _]%Hi. by apply H2.
  - intros x [Hne Hx]%list_elem_of_filter. by apply (H3 x).
  - intros i Hm. apply Hi. split; [by apply H4|]. intros ->. by apply Hm.
Qed.

Lemma wf_end_loop b s :
  wf_but (run_id b) s → shouldStop s = true ∨ (length (run_models b) ≤ run_from b + concurrencyLimit)%nat →
  wf (end_loop b s).
Proof.
  intros H Hs. unfold end_loop. destruct (shouldStop s) eqn:E; [by apply wf_end_batch|].
  destruct Hs as [|Hs]; [done|]. apply wf_put_batch; [exact H|]. split; [apply H | exact Hs].
Qed.

Lemma wf_after_tests b s : wf_but (run_id b) s → wf (after_tests b s).
Proof.
  intros H. unfold ChannelTest.after_tests. destruct (shouldStop s) eqn:E.
  - apply wf_end_loop; [by eapply wf_but_same, H | by left].
  - case_match eqn:El.
    + apply wf_put_batch; [exact H|]. split; [apply H | by apply Nat.ltb_lt].
    + apply wf_end_loop; [exact H|]. right. by apply Nat.ltb_ge.
Qed.

(** What starting a test does to the calls. *)
Lemma testChannel_spec r record model endpoint stream key r0 s s' waits :
  testChannel engine_error r record model endpoint stream key r0 s = (s', waits) →
  batches s' = batches s ∧ next_run s' = next_run s ∧ shouldStop s' = shouldStop s ∧
  if waits then ∃ c, calls s' = calls s ++ [Test c] ∧ test_run c = r0 ∧ test_model c = model
  else calls s' = calls s.
Proof.
  unfold testChannel. intros H.
  destruct (full_key _ _ _) as [k|]; [destruct (to_string _) as [i|]|].
  2-3: by injection H as <- <-; unfold rejected; destruct r0.
  destruct (shouldStop s && isBatchTesting r); injection H as <- <-; [done|].
  simpl. repeat (split; [done|]). eexists. split; [done|]. done.
Qed.

Lemma start_tests_spec b ms s n s' n' :
  fold_left (start_test engine_error b) ms (s, n) = (s', n') →
  batches s' = batches s ∧ next_run s' = next_run s ∧ shouldStop s' = shouldStop s ∧
  ∃ cs, calls s' = calls s ++ map Test cs ∧ n' = (n + length cs)%nat ∧
    Forall (λ c, test_run c = Some (run_id b)) cs ∧ map test_model cs `sublist_of` ms.
Proof.
  revert s n. induction ms as [|m ms IH]; intros s n H.
  - injection H as <- <-. repeat (split; [done|]). exists []. by rewrite app_nil_r, Nat.add_0_r.
  - simpl in H. destruct (testChannel _ _ _ _ _ _ _ _ _) as [s1 w] eqn:E.
    apply testChannel_spec in E as (Eb & En & Es & Ec).
    destruct (IH _ _ H) as (-> & -> & -> & cs & Hc & Hn & Hr & Hm). repeat (split; [done|]). destruct w.
    + destruct Ec as (c & Ec & Hrun & Hmodel). exists (c :: cs). rewrite Hc, Ec, <- app_assoc. split; [done|].
      split; [simpl; lia|]. split; [by constructor|]. simpl. rewrite Hmodel. by constructor.
    + exists cs. rewrite Hc, Ec. split; [done|]. split; [done|]. split; [done|]. by constructor.
Qed.

(** The models that the new calls await. *)
Lemma awaited_new id cs :
  Forall (λ c, test_run c = Some id) cs → ∀ i,
  omap (awaited_model i) (map Test cs) = if decide (i = id) then map test_model cs else [].
Proof.
  intros H i. induction H as [|c cs Hc _ IH]; [by case_decide|]. cbn [map].
  change (omap (awaited_model i) (Test c :: map Test cs)) with
    (match awaited_model i (Test c) with
     | Some m => m :: omap (awaited_model i) (map Test cs) | None => omap (awaited_model i) (map Test cs) end).
  rewrite IH. simpl. rewrite Hc. repeat case_decide; simplify_eq; done.
Qed.

(** A turn of the loop: its group is started, or the loop ends. *)
Lemma wf_turn b s : wf_but (run_id b) s → (run_from b < length (run_models b))%nat → wf (turn b s).
Proof.
  intros H Hlt. unfold ChannelTest.turn. rewrite (proj2 (Nat.ltb_lt _ _) Hlt).
  destruct (shouldStop s) eqn:Es.
  { apply wf_end_loop; [by eapply wf_but_same, H | by left]. }
  set (s0 := emit _ _).
  assert (wf_but (run_id b) s0) as H0.
  { destruct H as [H1 H2 H3 H4 H5 H6]. split; try done.
    - change (NoDup (ids (put_batch (at_phase Testing (run_from b) b) s))). by rewrite ids_put_batch.
    - change (∀ i, i ∈ ids (put_batch (at_phase Testing (run_from b) b) s) → (i < next_run s)%nat).
      by rewrite ids_put_batch.
    - intros b' (x & -> & Hx)%list_elem_of_fmap Hne. case_decide; [done|]. by apply H3.
    - change (∀ i, awaited_models i s ≠ [] → i ∈ ids (put_batch (at_phase Testing (run_from b) b) s)).
      by rewrite ids_put_batch.
    - change (run_id b ∈ ids (put_batch (at_phase Testing (run_from b) b) s)). by rewrite ids_put_batch. }
  assert (∀ b', b' ∈ batches s0 → run_id b' = run_id b → b' = at_phase Testing (run_from b) b) as Hsame.
  { intros b' (x & -> & Hx)%list_elem_of_fmap. by case_decide. }
  destruct (fold_left _ _ _) as [s1 n] eqn:E.
  apply start_tests_spec in E as (Hb & Hn & _ & cs & Hc & Hlen & Hr & Hm).
  assert (∀ i, awaited_models i s1 = awaited_models i s0 ++ if decide (i = run_id b) then map test_model cs else []) as Ha.
  { intros i. unfold awaited_models. rewrite Hc, omap_app. by rewrite (awaited_new _ _ Hr). }
  destruct (decide (n = O)) as [->|Hn0].
  - apply wf_after_tests. destruct cs; [|simpl in Hlen; lia]. eapply wf_but_same, H0.
    by rewrite app_nil_r in Hc.
  - destruct H0 as [H1 H2 H3 H4 H5 H6]. split; unfold ids; rewrite ?Hb, ?Hn; try done.
    + intros b' Hb'. unfold batch_ok. rewrite Ha. case_decide as Ei.
      * rewrite (Hsame b' Hb' Ei). simpl. rewrite H5. simpl. split; [|done]. destruct cs; [simpl in Hlen; lia | done].
      * rewrite app_nil_r. by apply (H3 b').
    + intros i Hi. rewrite Ha in Hi. case_decide as Ei; [|rewrite app_nil_r in Hi; by apply H4].
      by subst i.
Qed.

(** ** Answers *)

Lemma existsb_awaited id s : existsb (awaited id) (calls s) = true ↔ awaited_models id s ≠ [].
Proof.
  unfold awaited_models. induction (calls s) as [|w l IH]; [done|]. simpl.
  destruct w as [c| |]; simpl; [|exact IH|exact IH].
  case_bool_decide as H; [by rewrite decide_True by done | by rewrite decide_False by done].
Qed.

Lemma find_batch_elem id s b : find_batch id s = Some b → b ∈ batches s ∧ run_id b = id.
Proof.
  unfold find_batch. destruct (filter _ _) as [|x l] eqn:E; intros H; [done|]. injection H as ->.
  assert (b ∈ filter (λ b, run_id b = id) (batches s)) as [? ?]%list_elem_of_filter by (rewrite E; by left). done.
Qed.

Lemma find_batch_ids id s : id ∈ ids s → is_Some (find_batch id s).
Proof.
  intros (b & -> & Hb)%list_elem_of_fmap. unfold find_batch.
  destruct (filter _ _) as [|x l] eqn:E; [|by eexists].
  assert (b ∈ filter (λ b', run_id b' = run_id b) (batches s)) as Hf by (by apply list_elem_of_filter).
  rewrite E in Hf. by apply elem_of_nil in Hf.
Qed.

(** The call that is answered leaves. *)
Lemma awaited_take i s w j :
  calls s !! i = Some w →
  awaited_models j (take_call i s) `sublist_of` awaited_models j s ∧
  length (awaited_models j s) =
    (length (awaited_models j (take_call i s)) + if awaited_model j w then 1 else 0)%nat.
Proof.
  unfold awaited_models, take_call. simpl. generalize (calls s) as l.
  induction i as [|i IH]; intros [|x l] Hi; simpl in Hi |- *; try done.
  - injection Hi as ->. destruct (awaited_model j w); simpl.
    + split; [by constructor | by rewrite Nat.add_1_r].
    + split; [done | by rewrite Nat.add_0_r].
  - destruct (IH l Hi) as [H1 H2]. destruct (awaited_model j x); simpl.
    + split; [by constructor | f_equal; exact H2].
    + done.
Qed.

Lemma awaited_take_same i s w j :
  calls s !! i = Some w → awaited_model j w = None → awaited_models j (take_call i s) = awaited_models j s.
Proof.
  unfold awaited_models, take_call. simpl. generalize (calls s) as l.
  induction i as [|i IH]; intros [|x l] Hi Hj; simpl in Hi |- *; try done.
  - injection Hi as ->. by rewrite Hj.
  - destruct (awaited_model j x); [f_equal|]; by apply IH.
Qed.

Lemma wf_take i s w : wf s → calls s !! i = Some w → (∀ j, awaited_model j w = None) → wf (take_call i s).
Proof.
  intros [H1 H2 H3 H4] Hi Hw.
  assert (∀ j, awaited_models j (take_call i s) = awaited_models j s) as Ha by (intros j; by eapply awaited_take_same).
  split; [done|done| |].
  - intros b Hb. specialize (H3 b Hb). unfold batch_ok in *. by rewrite Ha.
  - intros j. rewrite Ha. apply H4.
Qed.

Lemma same_end_test c ts s s0 e : same_runs s s0 → same_runs s (end_test t engine_error c ts (s0, e)).
Proof.
  intros H. eapply same_runs_trans; [exact H|]. unfold end_test, rejected. destruct e as [e|]; [|done].
  unfold catch_error, show_failure. destruct (read (u "message") e), (result_key (test_record c) (test_model c));
    try (destruct (model_message t (test_model c) _)); destruct (test_run c); done.
Qed.

Lemma same_update r id f s : same_runs s (update_property r id f s).1.
Proof. unfold update_property. by destruct (updateChannelProperty _ _ _ _). Qed.

Lemma same_answered c res ts s : same_runs s (answered t engine_error c res ts s).1.
Proof.
  unfold answered. case_match; [done|].
  assert (∀ data, same_runs s (channel_answered t engine_error c data ts s).1) as Hc.
  { intros data. unfold channel_answered, show_failure. cbv zeta. case_match.
    - match goal with |- context [update_property ?r ?i ?f ?x] => pose proof (same_update r i f x) as H';
        destruct (update_property r i f x) as [s1 ok] end.
      destruct ok; [|exact H']. destruct (passed_text _ _ _ _); exact H'.
    - by destruct (model_message t _ _). }
  assert (∀ data, same_runs s (key_answered t engine_error c data ts s).1) as Hk.
  { intros data. unfold key_answered, show_failure. cbv zeta. case_match.
    - by destruct (to_string _).
    - by destruct (model_message t _ _). }
  destruct (read _ _) as [[]|]; try done; (case_match; [apply Hc | apply Hk]).
Qed.

Lemma NoDup_ids_inj s b b' : NoDup (ids s) → b ∈ batches s → b' ∈ batches s → run_id b = run_id b' → b = b'.
Proof.
  unfold ids. induction (batches s) as [|x l IH]; simpl; [by intros _ ?%elem_of_nil|].
  intros [Hx Hn]%NoDup_cons [->|Hb]%elem_of_cons [->|Hb']%elem_of_cons E; [done| | |by apply IH].
  - destruct Hx. rewrite E. by apply list_elem_of_fmap_2.
  - destruct Hx. rewrite <- E. by apply list_elem_of_fmap_2.
Qed.

Lemma awaited_take_other i s c id j :
  calls s !! i = Some (Test c) → test_run c = Some id → j ≠ id →
  awaited_models j (take_call i s) = awaited_models j s.
Proof.
  intros Hi Er Hj. eapply awaited_take_same; [done|]. simpl. rewrite Er. by rewrite decide_False by congruence.
Qed.

(** A batch that awaits something tests. *)
Lemma awaiting_tests s b :
  wf s → b ∈ batches s → awaited_models (run_id b) s ≠ [] →
  run_phase b = Testing ∧ awaited_models (run_id b) s `sublist_of` group_of b.
Proof.
  intros Hwf Hb Ha. pose proof (wf_ok _ Hwf b Hb) as H3. unfold batch_ok in H3.
  destruct (run_phase b); by destruct H3.
Qed.

Lemma answered_length i s c id :
  calls s !! i = Some (Test c) → test_run c = Some id →
  length (awaited_models id s) = S (length (awaited_models id (take_call i s))).
Proof.
  intros Hi Er. destruct (awaited_take i s (Test c) id Hi) as [_ Hlen]. simpl in Hlen.
  rewrite Er, decide_True in Hlen by done. lia.
Qed.

(** The last answer that a batch awaited. *)
Lemma last_answer i s c id s' :
  wf s → calls s !! i = Some (Test c) → test_run c = Some id → same_runs (take_call i s) s' →
  existsb (awaited id) (calls s') = false → wf_but id s'.
Proof.
  intros [H1 H2 H3 H4] Hi Er Hs Ee.
  assert (awaited_models id s' = []) as Ea.
  { destruct (awaited_models id s') eqn:Ea; [done|]. exfalso.
    assert (existsb (awaited id) (calls s') = true) by (apply existsb_awaited; by rewrite Ea). congruence. }
  eapply wf_but_same; [exact Hs|].
  assert (awaited_models id (take_call i s) = []) as Ea'.
  { rewrite <- Ea. destruct Hs as (Hc & _). unfold awaited_models. by rewrite Hc. }
  split; [done|done| | |done|].
  - intros b Hin Hne'. specialize (H3 b Hin). unfold batch_ok in *. by erewrite awaited_take_other.
  - intros j Hj. destruct (decide (j = id)) as [->|Hne']; [done|].
    erewrite awaited_take_other in Hj by done. by apply H4.
  - apply H4. intros E. apply (f_equal length) in E. erewrite answered_length in E by done. done.
Qed.

(** An answer to a test: its batch waits on, or goes on. *)
Lemma wf_answer i s c s' :
  wf s → calls s !! i = Some (Test c) → same_runs (take_call i s) s' → wf (settle t (test_run c) s').
Proof.
  intros Hwf Hi Hs. destruct (test_run c) as [id|] eqn:Er; simpl.
  2: { eapply batches_wf_same; [exact Hs|]. eapply wf_take; [done..|]. intros j. simpl. by rewrite Er. }
  destruct (existsb (awaited id) (calls s')) eqn:Ee.
  - apply existsb_awaited in Ee. eapply batches_wf_same; [exact Hs|].
    assert (awaited_models id (take_call i s) ≠ []) as Ee'.
    { destruct Hs as (Hc & _). revert Ee. unfold awaited_models. by rewrite Hc. }
    split; [apply Hwf|apply Hwf| |].
    + intros b Hin. destruct (decide (run_id b = id)) as [<-|Eb].
      * destruct (awaiting_tests s b Hwf Hin) as [Ep Hg].
        { intros E. apply (f_equal length) in E. by erewrite answered_length in E. }
        unfold batch_ok. rewrite Ep. split; [done|]. etrans; [|exact Hg]. by eapply (awaited_take i s).
      * pose proof (wf_ok _ Hwf b Hin) as H3. unfold batch_ok in *. by erewrite awaited_take_other.
    + intros j Hj. apply (wf_known _ Hwf). intros E. apply Hj.
      destruct (awaited_take i s (Test c) j Hi) as [Hsub _]. rewrite E in Hsub. by apply sublist_nil_r in Hsub.
  - assert (wf_but id s') as Hbut by (by eapply last_answer).
    destruct (find_batch_ids id s' (but_here _ _ Hbut)) as [b Hfb]. rewrite Hfb.
    apply find_batch_elem in Hfb as [_ Eb]. apply wf_after_tests. by rewrite Eb.
Qed.

Lemma wf_timer id s : wf s → wf (on_timer t engine_error id s).
Proof.
  intros Hwf. unfold on_timer. destruct (find_batch id s) as [b|] eqn:E; [|done].
  apply find_batch_elem in E as [Hb <-]. pose proof (wf_ok _ Hwf b Hb) as Hok. unfold batch_ok in Hok.
  assert (run_id b ∈ ids s) as Hid by (by apply list_elem_of_fmap_2).
  destruct (run_phase b); [done| |].
  - destruct Hok as [Ha Hlt]. apply wf_turn; [|exact Hlt]. by apply wf_wf_but.
  - destruct Hok as [Ha _]. apply wf_end_batch. eapply wf_but_same; [|by apply wf_wf_but]. done.
Qed.

(** A new batch, with whatever the view and the log become. *)
Lemma wf_but_added b e v s : wf s → run_id b = next_run s → wf_but (run_id b) (emit e (add_batch b (with_view v s))).
Proof.
  intros [H1 H2 H3 H4] Eb. rewrite Eb. set (s1 := emit _ _).
  assert (ids s1 = ids s ++ [next_run s]) as Hids by (unfold ids, s1; simpl; rewrite map_app; simpl; by rewrite Eb).
  assert (next_run s ∉ ids s) as Hfresh by (intros Hin%H2; lia).
  assert (∀ j, awaited_models j s1 = awaited_models j s) as Ha by done.
  split; rewrite ?Hids.
  - apply NoDup_app. split; [done|]. split; [|apply NoDup_singleton].
    by intros x Hx ->%list_elem_of_singleton.
  - intros j [Hj| ->%list_elem_of_singleton]%elem_of_app; simpl; [apply H2 in Hj; lia | lia].
  - intros b' [Hb'| ->%list_elem_of_singleton]%elem_of_app Hne; [|done]. by apply (H3 b').
  - intros j. rewrite Ha, elem_of_app. left. by apply H4.
  - rewrite Ha. destruct (awaited_models (next_run s) s) eqn:E; [done|]. destruct Hfresh. apply H4. by rewrite E.
  - rewrite elem_of_app. right. by apply list_elem_of_singleton.
Qed.

Lemma wf_batch r s : wf s → wf (batchTestModels t lower engine_error r s).
Proof.
  intros Hwf. unfold batchTestModels. cbv zeta.
  destruct (currentTestChannel r) as [channel|]; [|by eapply batches_wf_same, Hwf].
  case_match; [by eapply batches_wf_same, Hwf|].
  destruct (prop (u "models") channel) as [| | | |text| |]; try (by eapply batches_wf_same, Hwf).
  destruct (List.filter _ _) as [|m ms]; [by eapply batches_wf_same, Hwf|].
  destruct (clear_results _ _ _) as [v|]; [|by eapply batches_wf_same, Hwf].
  apply wf_turn; [|simpl; lia]. apply wf_but_added; [by eapply batches_wf_same, Hwf | done].
Qed.

(** A new call that no batch awaits. *)
Lemma wf_add_call s s' w :
  batches s' = batches s → next_run s' = next_run s → calls s' = calls s ++ [w] →
  (∀ j, awaited_model j w = None) → wf s → wf s'.
Proof.
  intros Hb Hn Hc Hw [H1 H2 H3 H4].
  assert (∀ j, awaited_models j s' = awaited_models j s) as Ha.
  { intros j. unfold awaited_models. rewrite Hc, omap_app. simpl. rewrite Hw. apply app_nil_r. }
  unfold ids in *. split; unfold ids; rewrite ?Hb, ?Hn; [done|done| |].
  - intros b Hin. specialize (H3 b Hin). unfold batch_ok in *. by rewrite Ha.
  - intros j. rewrite Ha. apply H4.
Qed.

Lemma wf_test r record model endpoint stream key s :
  wf s → wf (testChannel engine_error r record model endpoint stream key None s).1.
Proof.
  intros H. destruct (testChannel _ _ _ _ _ _ _ _ _) as [s' waits] eqn:E.
  apply testChannel_spec in E as (Eb & En & _ & Ec). simpl. destruct waits.
  - destruct Ec as (c & Ec & Hr & _). eapply wf_add_call; [done|done|exact Ec| |done].
    intros j. simpl. by rewrite Hr.
  - by eapply batches_wf_same, H.
Qed.

Lemma batches_wf_step s e : wf s → wf (step s e).
Proof.
  intros Hwf.
  assert (∀ s', same_runs s s' → wf s') as Hsame by (intros s' H; by eapply batches_wf_same).
  destruct e; simpl; try by apply Hsame.
  - by apply wf_test.
  - destruct (currentTestChannel (now s)); [by apply wf_test | done].
  - destruct (isBatchTesting (now s)); [done|]. by apply wf_batch.
  - apply Hsame. unfold handleCloseModal. by destruct (isBatchTesting (now s)).
  - eapply (wf_add_call s); [done|done|done|by intros j|exact Hwf].
  - unfold updateChannelBalance. case_match; [by apply Hsame|]. case_match; [|by apply Hsame].
    eapply (wf_add_call s); [done|done|done|by intros j|exact Hwf].
  - apply Hsame. unfold selection_changed. by destruct (allSelecting s).
  - apply Hsame. unfold select_all. by destruct (filteredModels _ _).
  - apply Hsame. unfold handleSelectSuccess. destruct (currentTestChannel (now s)); [|done].
    destruct (filteredModels _ _); [|done]. by destruct (List.filter _ _).
  - destruct (calls s !! i) as [w|] eqn:Hi; [|done]. destruct w as [c| |r record]; simpl.
    + eapply wf_answer; [done..|]. destruct (answered _ _ _ _ _ _) as [s0 e] eqn:E.
      apply same_end_test. change s0 with (s0, e).1. rewrite <- E. apply same_answered.
    + eapply batches_wf_same; [|by eapply wf_take]. unfold all_tests_answered. repeat case_match; done.
    + eapply batches_wf_same; [|by eapply wf_take]. unfold balance_answered. case_match; [|done]. cbv zeta.
      case_match; [|done]. case_match; apply same_update.
  - destruct (calls s !! i) as [w|] eqn:Hi; [|done]. destruct w as [c| |r record]; simpl.
    + eapply wf_answer; [done..|]. by apply same_end_test.
    + eapply batches_wf_same; [|by eapply wf_take]. done.
    + eapply batches_wf_same; [|by eapply wf_take]. done.
  - by apply wf_timer.
Qed.

Lemma batches_wf_run l es : wf (run (init l) es).
Proof.
  assert (wf (init l)) as H by (split; [constructor | intros i []%elem_of_nil | intros b []%elem_of_nil | done]).
  revert H. generalize (init l) as s. induction es as [|e es IH]; intros s H; [done|]. by apply IH, batches_wf_step.
Qed.

(** C25: whatever is clicked and answered, in any order, a batch awaits at most five
    tests: while it tests, of models of its current group of five, in their order and
    at least one; in a pause none, between two groups while models are left and after
    the last group otherwise. *)
Theorem batch_bounds l es b :
  let s := run (init l) es in
  let awaited := awaited_models (run_id b) s in
  b ∈ batches s →
  (length awaited ≤ concurrencyLimit)%nat ∧
  match run_phase b with
  | Testing => awaited ≠ [] ∧ awaited `sublist_of` group_of b
  | Pausing => awaited = [] ∧ (run_from b + concurrencyLimit < length (run_models b))%nat
  | Finishing => awaited = [] ∧ (length (run_models b) ≤ run_from b + concurrencyLimit)%nat
  end.
Proof.
  intros s awaited Hb. pose proof (wf_ok _ (batches_wf_run l es) b Hb) as Hok. split; [|exact Hok].
  unfold batch_ok in Hok. fold s in Hok. fold awaited in Hok. destruct (run_phase b).
  - destruct Hok as [_ Hs%sublist_length]. unfold group_of in Hs. rewrite length_take in Hs. lia.
  - destruct Hok as [-> _]. simpl. lia.
  - destruct Hok as [-> _]. simpl. lia.
Qed.

(** ** A batch ends *)

Definition remaining (b : batch) : nat := length (run_models b) - (run_from b + concurrencyLimit).

Definition weight (s : state) (b : batch) : nat :=
  length (awaited_models (run_id b) s) + 3 * remaining b + match run_phase b with Testing => 2 | _ => 1 end.

Definition progress (id : nat) (s : state) : nat :=
  match find_batch id s with Some b => weight s b | None => 0 end.

(** The events that a batch waits for: the answers to its tests and the end of its
    pause. *)
Definition of_batch (id : nat) (s : state) (e : event) : bool :=
  match e with
  | Response i _ _ | Reject i _ _ => match calls s !! i with Some w => awaited id w | None => false end
  | Timer j => bool_decide (j = id) && match find_batch id s with Some b => match run_phase b with Testing => false | _ => true end | None => false end
  | _ => false
  end.

Lemma find_put_eq b s : run_id b ∈ ids s → find_batch (run_id b) (put_batch b s) = Some b.
Proof.
  unfold ids, find_batch, put_batch. simpl. induction (batches s) as [|x l IH]; [by intros ?%elem_of_nil|].
  cbn [map]. intros [E|H]%elem_of_cons.
  - rewrite decide_True by done. by rewrite filter_cons_True.
  - case_decide; [by rewrite filter_cons_True|]. rewrite filter_cons_False by done. by apply IH.
Qed.

Lemma find_put_ne id b s : run_id b ≠ id → find_batch id (put_batch b s) = find_batch id s.
Proof.
  intros Hne. unfold find_batch, put_batch. simpl. induction (batches s) as [|x l IH]; [done|].
  cbn [map]. rewrite !filter_cons. destruct (decide (run_id x = run_id b)) as [E|E].
  - rewrite (decide_False (P := run_id b = id)) by done. rewrite decide_False by congruence. exact IH.
  - case_decide; [done | exact IH].
Qed.

Lemma find_end_eq b s : find_batch (run_id b) (end_batch b s) = None.
Proof.
  unfold find_batch, end_batch. simpl. induction (batches s) as [|x l IH]; [done|].
  rewrite filter_cons. case_decide; [|exact IH]. by rewrite filter_cons_False.
Qed.

Lemma find_end_ne id b s : run_id b ≠ id → find_batch id (end_batch b s) = find_batch id s.
Proof.
  intros Hne. unfold find_batch, end_batch. simpl. induction (batches s) as [|x l IH]; [done|].
  destruct (decide (run_id x = run_id b)) as [E|E].
  - rewrite (filter_cons_False _ x) by auto. rewrite (filter_cons_False _ x l) by congruence. exact IH.
  - rewrite (filter_cons_True _ x) by auto. rewrite !(filter_cons (λ b, run_id b = id)).
    case_decide; [done | exact IH].
Qed.

Lemma progress_same id s s' :
  same_runs s s' → progress id s' = progress id s.
Proof.
  intros (Hc & Hb & _). unfold progress, find_batch, weight, awaited_models. by rewrite Hb, Hc.
Qed.

Lemma progress_eq id s s' :
  find_batch id s' = find_batch id s → awaited_models id s' = awaited_models id s → progress id s' = progress id s.
Proof.
  intros Hf Ha. unfold progress. rewrite Hf. destruct (find_batch id s) as [b|] eqn:E; [|done].
  apply find_batch_elem in E as [_ E]. unfold weight. by rewrite E, Ha.
Qed.

Lemma progress_end b s : progress (run_id b) (end_batch b s) = 0%nat.
Proof. unfold progress. by rewrite find_end_eq. Qed.

Lemma progress_put b s :
  run_id b ∈ ids s → progress (run_id b) (put_batch b s) = weight s b.
Proof. intros H. unfold progress. by rewrite find_put_eq. Qed.

Lemma progress_end_loop id b s :
  wf_but (run_id b) s →
  (run_id b ≠ id → progress id (end_loop b s) = progress id s) ∧
  (progress (run_id b) (end_loop b s) ≤ 3 * remaining b + 1)%nat.
Proof.
  intros H. unfold end_loop. destruct (shouldStop s); split.
  - intros Hne. apply progress_eq; [by apply find_end_ne | done].
  - rewrite progress_end. lia.
  - intros Hne. apply progress_eq; [by apply find_put_ne | done].
  - change (run_id b) with (run_id (at_phase Finishing (run_from b) b)). rewrite progress_put by exact (but_here _ _ H).
    unfold weight. simpl run_id. rewrite (but_none _ _ H). unfold remaining. simpl. lia.
Qed.

Lemma progress_after_tests id b s :
  wf_but (run_id b) s →
  (run_id b ≠ id → progress id (after_tests b s) = progress id s) ∧
  (progress (run_id b) (after_tests b s) ≤ 3 * remaining b + 1)%nat.
Proof.
  intros H. unfold ChannelTest.after_tests. destruct (shouldStop s).
  { assert (wf_but (run_id b) (emit (stopped t) s)) as H' by (by eapply wf_but_same, H).
    apply (progress_end_loop id) in H' as [H1 H2]. split; [|exact H2]. intros Hne. rewrite H1 by done. done. }
  case_match; [|by apply progress_end_loop]. split.
  - intros Hne. apply progress_eq; [by apply find_put_ne | done].
  - change (run_id b) with (run_id (at_phase Pausing (run_from b) b)). rewrite progress_put by exact (but_here _ _ H).
    unfold weight. simpl run_id. rewrite (but_none _ _ H). unfold remaining. simpl. lia.
Qed.

Lemma progress_turn id b s :
  wf_but (run_id b) s → (run_from b < length (run_models b))%nat →
  (run_id b ≠ id → progress id (turn b s) = progress id s) ∧
  (progress (run_id b) (turn b s) ≤ 3 * (length (run_models b) - run_from b))%nat.
Proof.
  intros H Hlt. unfold ChannelTest.turn. rewrite (proj2 (Nat.ltb_lt _ _) Hlt).
  destruct (shouldStop s) eqn:Es.
  { assert (wf_but (run_id b) (emit (stopped t) s)) as H' by (by eapply wf_but_same, H).
    unfold end_loop. change (shouldStop (emit (stopped t) s)) with (shouldStop s). rewrite Es. split.
    - intros Hne. apply progress_eq; [by rewrite find_end_ne | done].
    - rewrite progress_end. lia. }
  set (s0 := emit _ _).
  destruct (fold_left _ _ _) as [s1 n] eqn:E.
  apply start_tests_spec in E as (Hb & Hn & _ & cs & Hc & Hlen & Hr & Hm).
  assert (∀ i, awaited_models i s1 = awaited_models i s ++ if decide (i = run_id b) then map test_model cs else []) as Ha.
  { intros i. unfold awaited_models. rewrite Hc, omap_app. by rewrite (awaited_new _ _ Hr). }
  set (b0 := at_phase Testing (run_from b) b) in *.
  assert (∀ i, find_batch i s1 = find_batch i (put_batch b0 s)) as Hf by (intros i; unfold find_batch; by rewrite Hb).
  assert (length (map test_model cs) ≤ Nat.min 5 (length (run_models b) - run_from b))%nat as Hk.
  { apply sublist_length in Hm. unfold group_of in Hm. rewrite length_take, length_drop in Hm. exact Hm. }
  assert (run_id b ≠ id → progress id s1 = progress id s) as Hother.
  { intros Hne. apply progress_eq; [rewrite Hf; by rewrite find_put_ne|]. rewrite Ha, decide_False by done. apply app_nil_r. }
  destruct (decide (n = O)) as [->|Hn0].
  - destruct cs; [|simpl in Hlen; lia].
    assert (wf_but (run_id b) s1) as H1.
    { destruct H as [K1 K2 K3 K4 K5 K6].
      assert (ids s1 = ids s) as Hi by (unfold ids; rewrite Hb; apply (ids_put_batch b0)).
      split; rewrite ?Hi; [done| | | | |done].
      - intros i Hin. rewrite Hn. by apply K2.
      - intros b' Hb' Hne. unfold batch_ok. rewrite Ha, decide_False by done. rewrite app_nil_r.
        rewrite Hb in Hb'. apply list_elem_of_fmap in Hb' as (x & -> & Hx). case_decide; [done|]. by apply (K3 x).
      - intros i. rewrite Ha. case_decide; rewrite ?app_nil_r; by apply K4.
      - rewrite Ha. case_decide; by rewrite app_nil_r. }
    apply (progress_after_tests id) in H1 as [H1 H2]. split; [intros Hne; rewrite H1 by done; by apply Hother|].
    unfold remaining, concurrencyLimit in H2. lia.
  - split; [exact Hother|].
    unfold progress. rewrite Hf. change (run_id b) with (run_id b0). rewrite find_put_eq by exact (but_here _ _ H).
    unfold weight, remaining. change (run_id b0) with (run_id b). rewrite Ha, decide_True, (but_none _ _ H) by done.
    simpl. unfold concurrencyLimit. rewrite length_map in Hk. simpl in Hlen. rewrite length_map. lia.
Qed.

Lemma progress_answer id i s c s' :
  wf s → calls s !! i = Some (Test c) → same_runs (take_call i s) s' →
  (progress id (settle t (test_run c) s') + (if awaited id (Test c) then 1 else 0) ≤ progress id s)%nat.
Proof.
  intros Hwf Hi Hs. simpl.
  assert (∀ j, test_run c ≠ Some j → progress j s' = progress j s) as Hother.
  { intros j Hj. rewrite (progress_same _ _ _ Hs). apply progress_eq; [done|].
    eapply awaited_take_same; [done|]. simpl. by rewrite decide_False. }
  case_bool_decide as Er; cycle 1.
  { destruct (test_run c) as [id'|] eqn:Er'; simpl; [|rewrite Hother by done; lia].
    destruct (existsb _ _) eqn:Ee; [rewrite Hother by done; lia|].
    assert (wf_but id' s') as Hbut by (by eapply last_answer).
    destruct (find_batch_ids id' s' (but_here _ _ Hbut)) as [b Hfb]. rewrite Hfb.
    apply find_batch_elem in Hfb as [_ <-]. rewrite (proj1 (progress_after_tests id b s' Hbut)) by congruence.
    rewrite Hother by done. lia. }
  rewrite Er. simpl.
  assert (awaited_models id s ≠ []) as Hne.
  { intros E. apply (f_equal length) in E. by erewrite answered_length in E. }
  assert (∃ b, find_batch id s = Some b ∧ b ∈ batches s ∧ run_id b = id ∧ run_phase b = Testing) as (b & Hfb & Hb & Eb & Ep).
  { destruct (find_batch_ids id s (wf_known _ Hwf id Hne)) as [b Hfb].
    pose proof (find_batch_elem _ _ _ Hfb) as [Hb Eb]. exists b. repeat (split; [done|]).
    subst id. by eapply (proj1 (awaiting_tests s b Hwf Hb Hne)). }
  assert (progress id s = length (awaited_models id s) + 3 * remaining b + 2)%nat as ->.
  { unfold progress, weight. by rewrite Hfb, Eb, Ep. }
  assert (find_batch id s' = Some b) as Hfb'.
  { rewrite <- Hfb. destruct Hs as (_ & Hbs & _). unfold find_batch. by rewrite Hbs. }
  rewrite (answered_length i s c id Hi Er).
  destruct (existsb _ _) eqn:Ee.
  - rewrite (progress_same _ _ _ Hs). unfold progress. change (find_batch id (take_call i s)) with (find_batch id s).
    rewrite Hfb. unfold weight. rewrite Eb, Ep. lia.
  - assert (wf_but id s') as Hbut by (by eapply last_answer). rewrite Hfb'. subst id.
    pose proof (proj2 (progress_after_tests (run_id b) b s' Hbut)). lia.
Qed.

Lemma progress_timer id j s :
  wf s → (progress id (on_timer t engine_error j s) + (if of_batch id s (Timer j) then 1 else 0) ≤ progress id s)%nat.
Proof.
  intros Hwf. unfold on_timer. simpl.
  destruct (find_batch j s) as [b|] eqn:Hfb.
  2: { case_bool_decide as E; [|simpl; lia]. subst j. rewrite Hfb. simpl. lia. }
  pose proof (find_batch_elem _ _ _ Hfb) as [Hb Eb]. pose proof (wf_ok _ Hwf b Hb) as Hok. unfold batch_ok in Hok.
  assert (j ∈ ids s) as Hid by (subst j; by apply list_elem_of_fmap_2).
  destruct (run_phase b) eqn:Ep.
  - case_bool_decide as E; [|simpl; lia]. subst. rewrite Hfb, Ep. simpl. lia.
  - destruct Hok as [Ha Hlt].
    assert (wf_but (run_id (at_phase Testing (run_from b + concurrencyLimit) b)) s) as Hbut by (apply wf_wf_but; simpl; [exact Hwf | by rewrite Eb | exact Ha]).
    destruct (progress_turn id _ s Hbut Hlt) as [H1 H2]. simpl run_id in H1, H2. rewrite Eb in H1, H2.
    case_bool_decide as E; simpl; [|rewrite H1 by done; lia]. subst id. rewrite Hfb, Ep. simpl.
    simpl in H2. unfold progress at 2. rewrite Hfb. unfold weight. rewrite Ep, Ha. simpl.
    unfold remaining in *. lia.
  - destruct Hok as [Ha _]. case_bool_decide as E; simpl.
    + subst id. rewrite Hfb, Ep. rewrite <- Eb. rewrite progress_end. simpl. unfold progress. rewrite Eb, Hfb.
      unfold weight. rewrite Ep. lia.
    + rewrite Nat.add_0_r. apply Nat.eq_le_incl. apply progress_eq; [|done].
      rewrite find_end_ne by congruence. done.
Qed.

Lemma progress_add_call id s s' w :
  batches s' = batches s → calls s' = calls s ++ [w] → awaited_model id w = None → progress id s' = progress id s.
Proof.
  intros Hb Hc Hw. apply progress_eq; [unfold find_batch; by rewrite Hb|].
  unfold awaited_models. rewrite Hc, omap_app. simpl. rewrite Hw. apply app_nil_r.
Qed.

Lemma progress_test id r record model endpoint stream key s :
  progress id (testChannel engine_error r record model endpoint stream key None s).1 = progress id s.
Proof.
  destruct (testChannel _ _ _ _ _ _ _ _ _) as [s' waits] eqn:E.
  apply testChannel_spec in E as (Eb & En & _ & Ec). simpl. destruct waits.
  - destruct Ec as (c & Ec & Hr & _). eapply progress_add_call; [done|exact Ec|]. simpl. by rewrite Hr.
  - by apply progress_same.
Qed.

Lemma progress_batch id r s :
  wf s → (id < next_run s)%nat → progress id (batchTestModels t lower engine_error r s) = progress id s.
Proof.
  intros Hwf Hid. unfold batchTestModels. cbv zeta.
  destruct (currentTestChannel r) as [channel|]; [|done]. case_match; [done|].
  destruct (prop (u "models") channel) as [| | | |text| |]; try done.
  destruct (List.filter _ _) as [|m ms]; [done|]. destruct (clear_results _ _ _) as [v|]; [|done].
  set (b := mk_batch _ _ _ _ _ _). set (s1 := emit _ _).
  assert (wf_but (run_id b) s1) as Hbut by (apply wf_but_added; [by eapply batches_wf_same, Hwf | done]).
  rewrite (proj1 (progress_turn id b s1 Hbut ltac:(simpl; lia))) by (simpl; lia).
  apply progress_eq; [|done]. unfold find_batch. simpl. rewrite filter_app, filter_cons_False by (simpl; lia).
  by rewrite app_nil_r.
Qed.

(** No step sets a batch back, and its own events take it forward. *)
Lemma progress_step id s e :
  wf s → (id < next_run s)%nat →
  (progress id (step s e) + (if of_batch id s e then 1 else 0) ≤ progress id s)%nat.
Proof.
  intros Hwf Hid.
  assert (∀ s', same_runs s s' → (progress id s' + 0 ≤ progress id s)%nat) as Hsame.
  { intros s' H. rewrite (progress_same id s s' H). lia. }
  assert (∀ i, calls s !! i = None → (progress id s + 0 ≤ progress id s)%nat) as Hnone by (intros; lia).
  destruct e; try (by apply Hsame); try (apply progress_timer; done); simpl.
  - rewrite progress_test. lia.
  - destruct (currentTestChannel (now s)); [rewrite progress_test|]; lia.
  - destruct (isBatchTesting (now s)); [lia|]. rewrite progress_batch by done. lia.
  - apply Hsame. unfold handleCloseModal. by destruct (isBatchTesting (now s)).
  - rewrite (progress_add_call id s _ AllTests); done || lia.
  - unfold updateChannelBalance. case_match; [by apply Hsame|]. case_match; [|by apply Hsame].
    rewrite (progress_add_call id s _ (Balance (now s) record)); done || lia.
  - apply Hsame. unfold selection_changed. by destruct (allSelecting s).
  - apply Hsame. unfold select_all. by destruct (filteredModels _ _).
  - apply Hsame. unfold handleSelectSuccess. destruct (currentTestChannel (now s)); [|done].
    destruct (filteredModels _ _); [|done]. by destruct (List.filter _ _).
  - destruct (calls s !! i) as [w|] eqn:Hi; [|lia].
    assert (∀ s', same_runs (take_call i s) s' → (∀ j, awaited_model j w = None) → progress id s' = progress id s) as Hother.
    { intros s' Hs Hw. rewrite (progress_same _ _ _ Hs). apply progress_eq; [done|]. by eapply awaited_take_same. }
    destruct w as [c| |r record]; simpl.
    + eapply progress_answer; [done..|]. destruct (answered _ _ _ _ _ _) as [s0 e] eqn:E.
      apply same_end_test. change s0 with (s0, e).1. rewrite <- E. apply same_answered.
    + rewrite Hother; [lia| |done]. unfold all_tests_answered. repeat case_match; done.
    + rewrite Hother; [lia| |done]. unfold balance_answered. case_match; [|done]. cbv zeta.
      case_match; [|done]. case_match; apply same_update.
  - destruct (calls s !! i) as [w|] eqn:Hi; [|lia].
    destruct w as [c| |r record]; simpl.
    + eapply progress_answer; [done..|]. by apply same_end_test.
    + rewrite (progress_eq id s); [lia|done|]. by eapply (awaited_take_same i s AllTests).
    + rewrite (progress_eq id s); [lia|done|]. by eapply (awaited_take_same i s (Balance r record)).
Qed.

(** The events of a batch in a run. *)
Fixpoint own_events (id : nat) (s : state) (es : list event) : nat :=
  match es with
  | [] => 0
  | e :: es => (if of_batch id s e then 1 else 0) + own_events id (step s e) es
  end.

Lemma next_run_end_loop b s : next_run (end_loop b s) = next_run s.
Proof. unfold end_loop. by case_match. Qed.

Lemma next_run_after_tests b s : next_run (after_tests b s) = next_run s.
Proof. unfold ChannelTest.after_tests. repeat case_match; by rewrite ?next_run_end_loop. Qed.

Lemma next_run_turn b s : next_run (turn b s) = next_run s.
Proof.
  unfold ChannelTest.turn. case_match; [|by rewrite next_run_end_loop]. case_match; [by rewrite next_run_end_loop|].
  destruct (fold_left _ _ _) as [s1 n] eqn:E. apply start_tests_spec in E as (_ & E & _).
  case_decide; rewrite ?next_run_after_tests, E; done.
Qed.

Lemma next_run_settle r s : next_run (settle t r s) = next_run s.
Proof. unfold settle. destruct r; [|done]. case_match; [done|]. case_match; by rewrite ?next_run_after_tests. Qed.

Lemma next_run_test r record model endpoint stream key i s :
  next_run (testChannel engine_error r record model endpoint stream key i s).1 = next_run s.
Proof. destruct (testChannel _ _ _ _ _ _ _ _ _) as [s' waits] eqn:E. simpl. by apply testChannel_spec in E as (_ & -> & _). Qed.

Lemma next_run_step s e : (next_run s ≤ next_run (step s e))%nat.
Proof.
  assert (∀ s', same_runs s s' → (next_run s ≤ next_run s')%nat) as Hsame by (intros s' (_ & _ & ->); lia).
  destruct e; simpl; try (apply Hsame; done).
  - by rewrite next_run_test.
  - destruct (currentTestChannel (now s)); by rewrite ?next_run_test.
  - destruct (isBatchTesting (now s)); [done|]. unfold batchTestModels. cbv zeta.
    destruct (currentTestChannel (now s)); [|done]. case_match; [done|].
    destruct (prop _ _); try done. destruct (List.filter _ _); [done|]. destruct (clear_results _ _ _); [|done].
    rewrite next_run_turn. simpl. lia.
  - apply Hsame. unfold handleCloseModal. by destruct (isBatchTesting (now s)).
  - unfold updateChannelBalance. repeat case_match; done.
  - apply Hsame. unfold selection_changed. by destruct (allSelecting s).
  - apply Hsame. unfold select_all. by destruct (filteredModels _ _).
  - apply Hsame. unfold handleSelectSuccess. destruct (currentTestChannel (now s)); [|done].
    destruct (filteredModels _ _); [|done]. by destruct (List.filter _ _).
  - destruct (calls s !! i) as [w|] eqn:Hi; [|done]. destruct w as [c| |r record]; simpl.
    + rewrite next_run_settle. destruct (answered _ _ _ _ _ _) as [s0 e] eqn:E.
      pose proof (same_answered c res timestamp (take_call i s)) as Hs. rewrite E in Hs. simpl in Hs.
      apply (same_end_test c timestamp _ _ e) in Hs as (_ & _ & ->). done.
    + unfold all_tests_answered. repeat case_match; done.
    + unfold balance_answered. case_match; [|done]. cbv zeta.
      case_match; [|done].
      match goal with |- context [update_property ?r ?i ?f ?s] => pose proof (same_update r i f s) as (_ & _ & E) end.
      case_match; simpl; by rewrite E.
  - destruct (calls s !! i) as [w|] eqn:Hi; [|done]. destruct w as [c| |r record]; simpl; [|done|done].
    rewrite next_run_settle.
    pose proof (same_end_test c timestamp (take_call i s) (take_call i s) (Some error) (same_runs_refl _)) as (_ & _ & ->). done.
  - unfold on_timer. destruct (find_batch id s) as [b|]; [|done]. destruct (run_phase b); rewrite ?next_run_turn; done.
Qed.

(** C26: a batch ends: as long as it is there one of its own events (the answer to a
    test it awaits, the end of its pause) can happen, and whatever else happens in
    between, at most three times as many of them as it has models, and two, do. *)
Theorem batch_ends l es b es' :
  let s := run (init l) es in
  b ∈ batches s →
  (∃ e, of_batch (run_id b) s e = true) ∧
  (own_events (run_id b) s es' ≤ 3 * length (run_models b) + 2)%nat.
Proof.
  intros s Hb. pose proof (batches_wf_run l es) as Hwf. fold s in Hwf. set (id := run_id b).
  assert (id ∈ ids s) as Hid by (by apply list_elem_of_fmap_2).
  assert (find_batch id s = Some b) as Hf.
  { destruct (find_batch_ids id s Hid) as [b' Hf]. rewrite Hf. f_equal.
    apply find_batch_elem in Hf as [Hb' E]. by apply (NoDup_ids_inj s); [apply Hwf|..]. }
  pose proof (wf_ok _ Hwf b Hb) as Hok. unfold batch_ok in Hok. fold id in Hok. split.
  - destruct (run_phase b) eqn:Ep.
    + destruct Hok as [Ha _]. apply existsb_awaited, existsb_exists in Ha as (w & Hw & Haw).
      apply list_elem_of_In, list_elem_of_lookup in Hw as [i Hi].
      exists (Response i VUndef NaN). simpl. by rewrite Hi.
    + exists (Timer id). simpl. rewrite Hf, Ep. by rewrite bool_decide_true.
    + exists (Timer id). simpl. rewrite Hf, Ep. by rewrite bool_decide_true.
  - assert (progress id s ≤ 3 * length (run_models b) + 2)%nat as Hp.
    { unfold progress. rewrite Hf. unfold weight, remaining. fold id. destruct (run_phase b).
      - destruct Hok as [Hne Hs%sublist_length]. unfold group_of in Hs. rewrite length_take, length_drop in Hs.
        assert (0 < length (awaited_models id s))%nat by (destruct (awaited_models id s); [done | simpl; lia]).
        unfold concurrencyLimit in *. lia.
      - destruct Hok as [-> ?]. simpl. lia.
      - destruct Hok as [-> ?]. simpl. lia. }
    assert (own_events id s es' ≤ progress id s)%nat; [|lia].
    pose proof (wf_fresh _ Hwf id Hid) as Hlt. clear -Hwf Hlt. revert Hwf Hlt. generalize s as s0.
    induction es' as [|e es2 IH]; intros s0 Hwf Hlt; simpl; [lia|].
    pose proof (progress_step id s0 e Hwf Hlt). pose proof (next_run_step s0 e).
    pose proof (IH (step s0 e) (batches_wf_step s0 e Hwf) ltac:(lia)). lia.
Qed.

(** ** Late answers and lost stops *)

Lemma list_settle r s : channel_list (now (settle t r s)) = channel_list (now s).
Proof.
  unfold settle, ChannelTest.after_tests, end_loop. destruct r; [|done]. repeat case_match; done.
Qed.

Lemma list_end_test c timestamp s e :
  channel_list (now (end_test t engine_error c timestamp (s, e))) = channel_list (now s).
Proof.
  unfold end_test, rejected. destruct e as [e|]; [|done]. unfold catch_error, show_failure.
  destruct (read (u "message") e), (result_key (test_record c) (test_model c));
    try (destruct (model_message t (test_model c) _)); destruct (test_run c); done.
Qed.

(** the answer to a test that passed shows the table that was shown when the test
    was started, with its channel updated, whatever was loaded in between: the page,
    the filter or the search that the operator has gone to is replaced. *)
Theorem late_test_restores_table s i c data time timestamp :
  let r := channel_list (test_render c) in
  let id := prop (u "id") (test_record c) in
  let rows := default [] (tables (channel_list (now s)) !! shown r) in
  calls s !! i = Some (Test c) → test_index c = VUndef → shouldStop s = false →
  prop (u "success") data = VBool true → prop (u "time") data = VNum time →
  existsb (has_id id) (concat (map row_channels rows)) = true →
  let s' := step s (Response i (VObj [(u "data", VObj data)]) timestamp) in
  shown (channel_list (now s')) = shown r ∧
  ∃ f, channels (channel_list (now s')) = map (update_row id f) rows.
Proof.
  intros r id rows Hi Hindex Hstop Hok Htime Hin s'.
  assert (∃ f, updateChannelProperty r id (write_times (VNum time) timestamp) (channel_list (now s)) =
    (setTable (<[shown r := map (update_row id f) rows]> (tables (channel_list (now s)))) (shown r)
      (channel_list (now s)), true)) as [f Hup].
  { unfold updateChannelProperty. fold rows. rewrite Hin. simpl. by eexists. }
  assert (channel_list (now s') = setTable (<[shown r := map (update_row id f) rows]> (tables (channel_list (now s))))
    (shown r) (channel_list (now s))) as ->.
  { unfold s'. simpl. rewrite Hi. simpl. rewrite list_settle.
    destruct (answered t engine_error c (VObj [(u "data", VObj data)]) timestamp (take_call i s)) as [s1 e] eqn:E.
    rewrite list_end_test. unfold answered in E. rewrite Hindex in E. simpl in E. rewrite Hstop in E.
    change (prop (u "data") _) with (VObj data) in E. cbv iota in E.
    unfold channel_answered in E. change (opt_read (u "success") (VObj data)) with (prop (u "success") data) in E.
    change (opt_read (u "time") (VObj data)) with (prop (u "time") data) in E.
    rewrite Hok, Htime in E. cbv zeta in E. simpl truthy in E. cbv iota in E. unfold update_property in E.
    fold r id in E.
    match type of E with context [updateChannelProperty _ _ _ ?l] => change l with (channel_list (now s)) in E end.
    rewrite Hup in E. destruct (passed_text _ _ _ _); by injection E as <- _. }
  split; [done|]. exists f. unfold channels. simpl.
  rewrite list_lookup_insert_eq; [done|].
  apply lookup_lt_is_Some. clear -Hin. revert Hin. unfold rows.
  destruct (tables (channel_list (now s)) !! shown r); [by eexists | done].
Qed.

(** A turn that is not stopped keeps every batch. *)
Lemma turn_keeps b s :
  (run_from b < length (run_models b))%nat → shouldStop s = false →
  shouldStop (turn b s) = false ∧ ids (turn b s) = ids s ∧
  ∀ x, x ∈ batches s → run_id x ≠ run_id b → x ∈ batches (turn b s).
Proof.
  intros Hlt Hs. unfold ChannelTest.turn. rewrite (proj2 (Nat.ltb_lt _ _) Hlt), Hs.
  assert (∀ b1 s1, run_id b1 = run_id b → ids s1 = ids s → (∀ x, x ∈ batches s → run_id x ≠ run_id b → x ∈ batches s1) →
    ids (put_batch b1 s1) = ids s ∧ ∀ x, x ∈ batches s → run_id x ≠ run_id b → x ∈ batches (put_batch b1 s1)) as Hput.
  { intros b1 s1 E Hi Hx. split; [by rewrite ids_put_batch|]. intros x Hin Hne. simpl.
    apply list_elem_of_fmap. exists x. rewrite decide_False by congruence. auto. }
  set (s0 := emit _ _). destruct (Hput (at_phase Testing (run_from b) b) s eq_refl eq_refl ltac:(auto)) as [Hi0 Hx0].
  destruct (fold_left _ _ _) as [s1 n] eqn:E. apply start_tests_spec in E as (Hb & _ & Hs1 & _).
  assert (shouldStop s1 = false) as Hs1' by (by rewrite Hs1).
  assert (ids s1 = ids s) as Hi1 by (unfold ids in *; by rewrite Hb).
  assert (∀ x, x ∈ batches s → run_id x ≠ run_id b → x ∈ batches s1) as Hx1 by (rewrite Hb; exact Hx0).
  case_decide; [|done]. unfold ChannelTest.after_tests, end_loop. rewrite Hs1'.
  case_match; (split; [exact Hs1'|]); by apply Hput.
Qed.

Lemma includes_nil s : includes s [] = true.
Proof. by destruct s. Qed.

(** a stop is lost when a batch is started again before the tests that the first
    one awaits have ended: closing the dialog sets the flag, the new batch resets it,
    and both batches are in progress with nothing left to stop the first. *)
Theorem restart_forgets_stop s b channel text id :
  lower [] = [] →
  wf s → b ∈ batches s → isBatchTesting (now s) = true → currentTestChannel (now s) = Some channel →
  prop (u "models") channel = VStr text → text ≠ [] → to_string (prop (u "id") channel) = Some id →
  let stopped := step s Close in
  let s' := step stopped Batch in
  shouldStop stopped = true ∧ shouldStop s' = false ∧ b ∈ batches s' ∧
  ∃ b', b' ∈ batches s' ∧ run_id b' ≠ run_id b.
Proof.
  intros Hlower Hwf Hb Hbatch Hch Hm Ht Hid stopped s'.
  assert (stopped = handleCloseModal t (now s) s) as Es by done.
  unfold handleCloseModal in Es. rewrite Hbatch in Es.
  assert (same_runs s stopped) as Hsame by (by rewrite Es).
  split; [by rewrite Es|].
  assert (currentTestChannel (now stopped) = Some channel ∧ modelSearchKeyword (now stopped) = [] ∧
    isBatchTesting (now stopped) = false) as (Hch' & Hkw & Hbt) by (by rewrite Es).
  destruct Hsame as (_ & Ebs & En).
  set (models := split_on 44 text).
  assert (∀ l, List.filter (matching lower []) l = l) as Hall.
  { intros l. induction l as [|x l IH]; [done|]. simpl. unfold matching at 1.
    rewrite Hlower, includes_nil. by rewrite IH. }
  assert (∃ v, clear_results channel models (now (setStop false (on_view (set_batch_testing true) stopped))) = Some v) as [v Hv].
  { unfold clear_results. assert (is_Some (mapM (result_key channel) models)) as [ks ->]; [|by eexists].
    apply mapM_is_Some, Forall_true. intros m. unfold result_key. rewrite Hid. by eexists. }
  assert (∃ e s0 b0, s' = turn b0 (emit e (add_batch b0 s0)) ∧ batches s0 = batches s ∧ shouldStop s0 = false ∧
    run_id b0 = next_run s ∧ (run_from b0 < length (run_models b0))%nat) as (e & s0 & b0 & -> & Hbs & Hs0 & Hb0 & Hlt).
  { unfold s'. cbn [ChannelTest.step]. cbv zeta. rewrite Hbt. unfold batchTestModels. rewrite Hch', Hm, Hkw. cbv zeta.
    destruct text as [|x text']; [done|]. simpl truthy. cbv iota. fold models. rewrite Hall.
    destruct models as [|m ms] eqn:Em; [by apply split_on_nonnil in Em|]. rewrite Hv.
    eexists _, _, _. split; [reflexivity|]. split; [exact Ebs|]. split; [done|]. split; [exact En | simpl; lia]. }
  destruct (turn_keeps b0 (emit e (add_batch b0 s0)) Hlt Hs0) as (H1 & H2 & H3).
  assert (run_id b ≠ run_id b0) as Hne.
  { assert (run_id b < next_run s)%nat by (apply (wf_fresh _ Hwf), list_elem_of_fmap_2, Hb). lia. }
  split; [exact H1|]. split.
  - apply H3; [|exact Hne]. simpl. rewrite Hbs. apply elem_of_app. by left.
  - assert (run_id b0 ∈ ids (turn b0 (emit e (add_batch b0 s0)))) as Hin.
    { rewrite H2. unfold ids. simpl. rewrite map_app. apply elem_of_app. right. by left. }
    apply list_elem_of_fmap in Hin as (x & Ex & Hx). exists x. split; [done|]. congruence.
Qed.
End laws.

(** ** Witnesses *)

Local Notation same := (λ s : jsstr, s).
Local Notation demo_channel := [(u "id", num_value 7); (u "name", VStr (u "c")); (u "models", VStr (u "a,b,c,d,e,f"))].
Local Notation demo_run := (run same same VNull (init (ChannelList.init None None))).
Local Notation answer := (VObj [(u "data", VObj [(u "success", VBool true); (u "time", num_value 2)])]).

(** Six models: five answers, a pause, one answer, a pause, the count. *)
Example demo_batch :
  let s := demo_run ([OpenModal demo_channel; Batch] ++ repeat (Response 0 answer (num_of_Z 1000)) 5 ++
    [Timer 0; Response 0 answer (num_of_Z 1000); Timer 0]) in
  batches s = [] ∧ isBatchTesting (now s) = false ∧ calls s = [] ∧
  head (log s) = Some (Success (u "批量测试完成！成功: 6, 失败: 0, 总计: 6")) ∧
  omap (λ e, match e with Get url => Some url | _ => None end) (rev (log s)) =
    map (λ m, u "/api/channel/test/7?model=" ++ u m) ["a"; "b"; "c"; "d"; "e"; "f"]%string.
Proof. vm_compute. repeat split. Qed.

(** A test of one key counts as failed, whatever its answer. *)
Example demo_key_batch :
  let s := demo_run [OpenModal (set (u "_testKeyIndex") (num_value 0) (set (u "models") (VStr (u "a")) demo_channel)); Batch;
    Response 0 answer (num_of_Z 1000); Timer 0] in
  head (log s) = Some (Success (u "批量测试完成！成功: 0, 失败: 1, 总计: 1")) ∧
  truthy (opt_read (u "success") (prop (u "7-a-k0") (modelTestResults (now s)))) = true.
Proof. vm_compute. repeat split. Qed.

(** The first batch of a run. *)
Definition first_batch (s : state) : batch :=
  default (mk_batch 0 (now s) [] [] 0 Testing) (head (batches s)).

Lemma batch_bounds_witness :
  let s := demo_run [OpenModal demo_channel; Batch; Response 2 answer (num_of_Z 1000)] in
  (length (awaited_models (run_id (first_batch s)) s) ≤ concurrencyLimit)%nat ∧
  awaited_models (run_id (first_batch s)) s = map u ["a"; "b"; "d"; "e"]%string.
Proof.
  intros s. split; [|vm_compute; reflexivity].
  refine (proj1 (batch_bounds same same VNull (ChannelList.init None None)
    [OpenModal demo_channel; Batch; Response 2 answer (num_of_Z 1000)] (first_batch s) _)).
  apply list_elem_of_here.
Defined.

Lemma batch_ends_witness :
  let s := demo_run [OpenModal demo_channel; Batch] in
  (own_events same same VNull (run_id (first_batch s)) s
     (repeat (Response 0 answer (num_of_Z 1000)) 5 ++ [Stop; Timer 0]) ≤ 3 * 6 + 2)%nat.
Proof.
  intros s.
  refine (proj2 (batch_ends same same VNull (ChannelList.init None None) [OpenModal demo_channel; Batch] (first_batch s)
    (repeat (Response 0 answer (num_of_Z 1000)) 5 ++ [Stop; Timer 0]) _)).
  apply list_elem_of_here.
Defined.

Local Abbreviation page_of_channels ids :=
  (VObj [(u "data", VObj [(u "success", VBool true); (u "data", VObj [(u "items", VArr ids); (u "total", num_value 2)])])]).
Local Abbreviation second_page :=
  (demo_run [List (PageChange (num_value 1)); List (ChannelList.Response 0 (page_of_channels [VObj demo_channel]));
    TestRow demo_channel; List (PageChange (num_value 2));
    List (ChannelList.Response 0 (page_of_channels [VObj [(u "id", num_value 8)]]))]).

(** A test started on the first page is answered on the second. *)
Lemma late_test_restores_table_witness :
  let s := second_page in
  let s' := step same same VNull s (Response 0 answer (num_of_Z 1000)) in
  shown (channel_list (now s)) = 2%nat ∧ shown (channel_list (now s')) = 1%nat.
Proof.
  intros s s'. split; [vm_compute; reflexivity|].
  refine (proj1 (late_test_restores_table same same VNull s 0
    (mk_test (now (demo_run [List (PageChange (num_value 1));
       List (ChannelList.Response 0 (page_of_channels [VObj demo_channel]))])) demo_channel [] VUndef (u "7-") None)
    [(u "success", VBool true); (u "time", num_value 2)] (num_of_Z 2) (num_of_Z 1000) _ _ _ _ _ _));
  vm_compute; reflexivity.
Defined.

Lemma restart_forgets_stop_witness :
  let s := demo_run [OpenModal demo_channel; Batch] in
  let s' := step same same VNull (step same same VNull s Close) Batch in
  shouldStop s' = false ∧ length (batches s') = 2%nat ∧ first_batch s ∈ batches s'.
Proof.
  intros s s'.
  pose proof (restart_forgets_stop same same VNull s (first_batch s) demo_channel (u "a,b,c,d,e,f") (u "7")
    eq_refl (batches_wf_run same same VNull _ _) (list_elem_of_here _ _) eq_refl eq_refl eq_refl ltac:(done) eq_refl) as H.
  split; [exact (proj1 (proj2 H))|]. split; [vm_compute; reflexivity | exact (proj1 (proj2 (proj2 H)))].
Defined.
