(* ===== verification/Session.v ===== *)
(** * The session in the local storage
    [src/web/src/helpers/data.js], [auth.jsx], [boolean.js], [log.js], [token.js], the
    storage helpers of [utils.jsx] and [hooks/common/useUserPermissions.js]: what the
    console keeps of the user and of the server's status, the permissions it reads
    back and the routes it guards with them. *)

From Stdlib Require Import SpecFloat.
From stdpp Require Import base numbers option strings sets list.
From S2P Require Import Prelude JsString JsNumber JsValue Json JsOps.

(** The local storage: texts by key. *)
Abbreviation storage := (list (jsstr * jsstr)).

Definition getItem (key : string) (s : storage) : option jsstr := get (u key) s.
(** [localStorage.getItem(key)] where only a text that is not empty counts. *)
Definition stored (key : string) (s : storage) : option jsstr :=
  match getItem key s with Some ((_ :: _) as text) => Some text | _ => None end.
Definition setItem (key : string) (text : jsstr) (s : storage) : storage := set (u key) text s.
Definition removeItem (key : string) (s : storage) : storage := del (u key) s.

(** [localStorage.setItem(key, JSON.stringify(v))]; [undefined] is stored as a text. *)
Definition setJson (key : string) (v : value) (s : storage) : storage :=
  setItem key (default (u "undefined") (json_stringify [] v)) s.

(** ** Who is logged in *)

(** [v >= n]; [None] when the conversion throws. *)
Definition at_least (n : Z) (v : value) : option bool := x ← to_number v; Some (nleb (num_of_Z n) x).

Definition has_role (n : Z) (s : storage) : option bool :=
  match stored "user" s with
  | None => Some false
  | Some text => user ← json_parse text; role ← read (u "role") user; at_least n role
  end.

Definition isAdmin : storage → option bool := has_role 10.
Definition isRoot : storage → option bool := has_role 100.

(** The identifier sent with every request. *)
Definition getUserIdFromLocalStorage (s : storage) : option value :=
  match stored "user" s with
  | None => Some (VNum (num_of_Z (-1)))
  | Some text => user ← json_parse text; read (u "id") user
  end.

(** [JSON.parse(localStorage.getItem('user'))]: null when there is none. *)
Definition authHeader (s : storage) : option props :=
  user ← match getItem "user" s with Some text => json_parse text | None => Some VNull end;
  let token := opt_read (u "token") user in
  if truthy user && truthy token
  then text ← to_string token; Some [(u "Authorization", VStr (u "Bearer " ++ text))]
  else Some [].

Definition getSystemName (s : storage) : jsstr := default (u "API") (stored "system_name" s).
Definition getLogo (s : storage) : jsstr := default (u "/favicon.png") (stored "logo" s).
Definition getFooterHTML (s : storage) : option jsstr := getItem "footer_html" s.

(** ** Permissions *)

Record permissions := mk_permissions {
  view_usage_logs : bool; manage_users : value; manage_channels : value;
  view_group_success_rate : bool; configure_operation_settings : bool;
}.

Definition all_permissions : permissions := mk_permissions true (VStr (u "all")) (VStr (u "all")) true true.

Definition not_false (key : string) (p : value) : bool := negb (is_false_value (opt_read (u key) p)).
Definition all_or_list (key : string) (p : value) : value :=
  let v := opt_read (u key) p in
  if strict_eq v (VStr (u "all")) || is_array v then v else VStr (u "all").

(** Whatever cannot be read grants everything. *)
Definition getAdminPermissions (s : storage) : permissions :=
  match stored "admin_permissions" s ≫= json_parse with
  | None | Some VNull => all_permissions
  | Some p => mk_permissions (not_false "view_usage_logs" p) (all_or_list "manage_users" p)
      (all_or_list "manage_channels" p) (not_false "view_group_success_rate" p)
      (not_false "configure_operation_settings" p)
  end.

(** [perms[key] === true] *)
Definition permission_true (key : jsstr) (p : permissions) : bool :=
  if decide (key = u "view_usage_logs") then view_usage_logs p
  else if decide (key = u "view_group_success_rate") then view_group_success_rate p
  else if decide (key = u "configure_operation_settings") then configure_operation_settings p
  else if decide (key = u "manage_users") then is_true_value (manage_users p)
  else if decide (key = u "manage_channels") then is_true_value (manage_channels p)
  else false.

Definition hasPermission (key : jsstr) (s : storage) : option bool :=
  match isRoot s with
  | Some true => Some true
  | Some false => (λ admin, admin && permission_true key (getAdminPermissions s)) <$> isAdmin s
  | None => None
  end.

Definition setAdminPermissions (perms : value) (s : storage) : storage :=
  if truthy perms then setJson "admin_permissions" perms s else removeItem "admin_permissions" s.

(** *** [data.js]: what the server says *)

Definition setUserData (data : value) (s : storage) : storage :=
  let s := setJson "user" data s in
  let p := opt_read (u "admin_permissions") data in
  if truthy p then setJson "admin_permissions" p s else removeItem "admin_permissions" s.

(** [None] when [data] is null or a conversion throws; the writes before it stay, and
    the cache of the display type is then not invalidated. *)
Definition setStatusData (data : value) (s : storage) : option storage :=
  let text (key : string) (d : bool) := v ← read (u key) data; to_string (if d then value_or v (VStr (u "USD")) else v) in
  name ← text "system_name" false; logo ← text "logo" false;
  unit_ ← text "quota_per_unit" false; currency ← text "display_in_currency" false;
  type_ ← text "quota_display_type" true; sidebar ← text "default_collapse_sidebar" false;
  Some (removeItem "chat_link2" (removeItem "chat_link" (removeItem "chats" (removeItem "footer_html"
    (setItem "default_collapse_sidebar" sidebar (setItem "quota_display_type" type_
      (setItem "display_in_currency" currency (setItem "quota_per_unit" unit_
        (setItem "logo" logo (setItem "system_name" name (setJson "status" data s))))))))))).

(** ** Guarded routes *)

Inductive route := Children | Login | Dashboard.

(** [user && typeof user.role === 'number' && user.role >= n]; what throws is ignored. *)
Definition role_guard (n : Z) (s : storage) : route :=
  match stored "user" s with
  | None => Login
  | Some text =>
      match json_parse text with
      | Some user =>
          match opt_read (u "role") user with
          | VNum x => if truthy user && nleb (num_of_Z n) x then Children else Dashboard
          | _ => Dashboard
          end
      | None => Dashboard
      end
  end.

Definition AdminRoute : storage → route := role_guard 10.
Definition RootRoute : storage → route := role_guard 100.
Definition PrivateRoute (s : storage) : route := match stored "user" s with None => Login | Some _ => Children end.
Definition AuthRedirect (s : storage) : route := match stored "user" s with Some _ => Dashboard | None => Children end.

(** ** The sidebar ([useUserPermissions.js]); [permissions] is what the server sent *)

Definition sidebar_modules (permissions : value) : value := opt_read (u "sidebar_modules") permissions.

Definition hasSidebarSettingsPermission (permissions : value) : bool :=
  is_true_value (opt_read (u "sidebar_settings") permissions).

Definition isSidebarSectionAllowed (permissions : value) (sectionKey : jsstr) : bool :=
  let modules := sidebar_modules permissions in
  negb (truthy modules) || negb (is_false_value (opt_read sectionKey modules)).

Definition isSidebarModuleAllowed (permissions : value) (sectionKey moduleKey : jsstr) : bool :=
  let modules := sidebar_modules permissions in
  if negb (truthy modules) then true
  else
    let section := opt_read sectionKey modules in
    if is_false_value section then false
    else negb (truthy section && is_false_value (opt_read moduleKey section)).

Definition getAllowedSidebarSections (permissions : value) : list jsstr :=
  let modules := sidebar_modules permissions in
  if truthy modules then filter (λ k, isSidebarSectionAllowed permissions k = true) (map fst (own_entries modules))
  else [].

Definition getAllowedSidebarModules (permissions : value) (sectionKey : jsstr) : list jsstr :=
  let modules := sidebar_modules permissions in
  if negb (truthy modules) then []
  else
    let section := opt_read sectionKey modules in
    if truthy section && is_object_type section
    then filter (λ k, k ≠ u "enabled" ∧ is_true_value (opt_read k section) = true) (map fst (own_entries section))
    else [].

(** The state of the hook, and its request. *)
Record user_permissions := mk_user_permissions { granted : value; up_loading : bool; up_error : value }.

Definition loadPermissions_start (s : user_permissions) : user_permissions :=
  mk_user_permissions (granted s) true VNull.

Definition loadPermissions_failed (s : user_permissions) : user_permissions :=
  mk_user_permissions (granted s) false (VStr (u "网络错误，请重试")).

(** The answer; [None] of a reading is the error that is caught. *)
Definition loadPermissions_answered (res : value) (s : user_permissions) : user_permissions :=
  match read (u "data") res ≫= λ d, x ← read (u "success") d; Some (d, x) with
  | None => loadPermissions_failed s
  | Some (data, success) =>
      if truthy success then
        match read (u "data") data ≫= read (u "permissions") with
        | Some p => mk_user_permissions p false (up_error s)
        | None => loadPermissions_failed s
        end
      else mk_user_permissions (granted s) false (value_or (opt_read (u "message") data) (VStr (u "获取权限失败")))
  end.

(** ** Tables shown compactly *)

Definition TABLE_COMPACT_MODES_KEY : string := "table_compact_modes".

Definition readTableCompactModes (s : storage) : value :=
  match stored TABLE_COMPACT_MODES_KEY s with
  | Some text => default (VObj []) (json_parse text)
  | None => VObj []
  end.

(** [None]: a stored null has no properties. *)
Definition getTableCompactMode (tableKey : jsstr) (s : storage) : option bool :=
  v ← read tableKey (readTableCompactModes s); Some (truthy v).

(** Properties of an array that are no indices are not printed; a primitive has none. *)
Definition setTableCompactMode (compact : bool) (tableKey : jsstr) (s : storage) : option storage :=
  match readTableCompactModes s with
  | VObj o => Some (setJson TABLE_COMPACT_MODES_KEY (VObj (set tableKey (VBool compact) o)) s)
  | VArr l => Some (setJson TABLE_COMPACT_MODES_KEY (VArr l) s)
  | _ => None
  end.

(** ** Prompts, addresses, log details and booleans *)

Definition prompt_key (id : jsstr) : jsstr := u "prompt-" ++ id.
Definition shouldShowPrompt (id : jsstr) (s : storage) : bool :=
  negb match get (prompt_key id) s with Some text => str_truthy text | None => false end.
Definition setPromptShown (id : jsstr) (s : storage) : storage := set (prompt_key id) (u "true") s.

(** [status] is replaced by the parsed value, and only then read. *)
Definition getServerAddress (origin : jsstr) (s : storage) : value :=
  let address := match stored "status" s ≫= json_parse with
    | Some status => value_or (opt_read (u "server_address") status) (VStr [])
    | None => VStr []
    end in
  value_or address (VStr origin).

Definition getLogOther (other : value) : value :=
  match other with
  | VUndef | VNull | VStr [] => VObj []
  | VArr _ | VObj _ => other
  | _ => default VNull (to_string other ≫= json_parse)
  end.

Definition toBoolean (lower : jsstr → jsstr) (v : value) : bool :=
  match v with
  | VBool b => b
  | VNum x => neqb x (num_of_Z 1)
  | VStr s => let t := lower s in bool_decide (t = u "true") || bool_decide (t = u "1")
  | _ => false
  end.

Definition removeTrailingSlash (url : jsstr) : jsstr :=
  if ends_with url (u "/") then take (length url - 1) url else url.

Definition verifyJSON (text : jsstr) : bool := match json_parse text with Some _ => true | None => false end.

(** ** Laws *)

Lemma getItem_set_eq key text s : getItem key (setItem key text s) = Some text.
Proof. apply get_set_eq. Qed.

Lemma getItem_set_ne key key' text s : u key ≠ u key' → getItem key' (setItem key text s) = getItem key' s.
Proof. apply get_set_ne. Qed.

Lemma get_del {V} k k' (o : list (jsstr * V)) : get k' (del k o) = if decide (k = k') then None else get k' o.
Proof.
  unfold del. induction o as [|[k0 v] o IH]; [by case_decide|]. rewrite filter_cons.
  destruct (decide (k0 = k)) as [->|Hne].
  - rewrite decide_False by (simpl; auto). rewrite IH. simpl. by case_decide.
  - rewrite decide_True by done. simpl. rewrite IH. repeat case_decide; simplify_eq; done.
Qed.

Lemma members_ok_del k o : members_ok o = true → members_ok (del k o) = true.
Proof.
  unfold members_ok, del. rewrite !forallb_forall. intros H kv Hkv. apply H.
  apply list_elem_of_In in Hkv. apply list_elem_of_filter in Hkv as [_ Hkv]. by apply list_elem_of_In.
Qed.

Lemma sorted_del k (o : props) : props_sorted o → props_sorted (del k o).
Proof.
  unfold del. induction o as [|[k1 v1] o IH]; [done|]. intros [H1 H2].
  assert (Forall (λ k', k' ≠ k1 ∧ key_before k' k1 = false) (keys (filter (λ kv : jsstr * value, kv.1 ≠ k) o))) as Hf.
  { rewrite Forall_forall in *. intros x Hx. apply H1. unfold keys in *. apply list_elem_of_fmap in Hx as (y & -> & Hy).
    apply list_elem_of_filter in Hy as [_ Hy]. by apply list_elem_of_fmap_2. }
  destruct (decide ((k1, v1).1 ≠ k)) as [H|H]; [rewrite filter_cons_True by done; split; [exact Hf | by apply IH]|].
  rewrite filter_cons_False by done. by apply IH.
Qed.

Lemma json_ok_del k o : json_ok (VObj o) = true → json_ok (VObj (del k o)) = true.
Proof.
  rewrite !json_ok_obj. intros H. apply andb_prop in H as [H1 H2]. apply bool_decide_eq_true in H1.
  apply andb_true_intro. split; [by apply bool_decide_true, sorted_del | by apply members_ok_del].
Qed.

(** A value stored as JSON is read back. *)
Lemma stored_json key v s : json_ok v = true → stored key (setJson key v s) ≫= json_parse = Some v.
Proof.
  intros Hv. unfold stored, setJson. rewrite getItem_set_eq.
  assert (json_stringify [] v = Some (ser [] [] v)) as -> by (by destruct v).
  pose proof (codec_roundtrip (Codec := json_codec0) v Hv) as Hp.
  assert (ser [] [] v ≠ []) as Hne.
  { intros E. pose proof (ser_nonblank [] [] v Hv) as H. by rewrite E in H. }
  simpl. destruct (ser [] [] v) eqn:E; [done|]. exact Hp.
Qed.

(** What is read of the permissions the server sent. *)
Definition permissions_of (p : value) : permissions :=
  mk_permissions (not_false "view_usage_logs" p) (all_or_list "manage_users" p)
    (all_or_list "manage_channels" p) (not_false "view_group_success_rate" p)
    (not_false "configure_operation_settings" p).

Lemma member_ok k o : json_ok (VObj o) = true → get k o ≠ None → json_ok (prop k o) = true.
Proof.
  rewrite json_ok_obj. intros H Hk. bool_simp. unfold members_ok in H0. rewrite forallb_forall in H0.
  unfold prop. destruct (get k o) as [v|] eqn:E; [|done]. apply (H0 (k, v)).
  clear -E. induction o as [|[k' v'] o IH]; simpl in E; [done|].
  case_decide; simplify_eq; [by left | right; auto].
Qed.

(** after the server's answer about a user is stored, everything the console reads
    of the session says what the answer says: the role decides who is an
    administrator or root, and the guarded routes agree with it, the permissions are
    those sent or all of them when none were, and a permission is granted to root
    always, to an administrator by its flag, and to nobody else. *)
Theorem session_after_login data role s :
  json_ok (VObj data) = true → prop (u "role") data = VNum role →
  let s' := setUserData (VObj data) s in
  let sent := prop (u "admin_permissions") data in
  let granted := if truthy sent then permissions_of sent else all_permissions in
  let admin := nleb (num_of_Z 10) role in
  let root := nleb (num_of_Z 100) role in
  isAdmin s' = Some admin ∧ isRoot s' = Some root ∧
  AdminRoute s' = (if admin then Children else Dashboard) ∧ RootRoute s' = (if root then Children else Dashboard) ∧
  PrivateRoute s' = Children ∧ AuthRedirect s' = Dashboard ∧
  getUserIdFromLocalStorage s' = Some (prop (u "id") data) ∧
  getAdminPermissions s' = granted ∧
  ∀ key, hasPermission key s' = Some (root || (admin && permission_true key granted)).
Proof.
  intros Hok Hrole s' sent granted admin root.
  assert (stored "user" s' = stored "user" (setJson "user" (VObj data) s)) as Hu.
  { unfold s', setUserData. change (opt_read (u "admin_permissions") (VObj data)) with sent.
    cbv zeta. unfold stored. destruct (truthy sent).
    - unfold setJson at 1. by rewrite getItem_set_ne by keys_differ.
    - unfold removeItem, getItem. by rewrite get_del, decide_False by keys_differ. }
  pose proof (stored_json "user" (VObj data) s Hok) as Hj. rewrite <- Hu in Hj.
  assert (getAdminPermissions s' = granted) as Hperm.
  { unfold getAdminPermissions, granted. unfold s', setUserData.
    change (opt_read (u "admin_permissions") (VObj data)) with sent. cbv zeta. destruct (truthy sent) eqn:Et.
    - rewrite stored_json; [by destruct sent|]. apply member_ok; [done|]. intros E.
      unfold sent, prop in Et. by rewrite E in Et.
    - unfold stored, removeItem, getItem. by rewrite get_del, decide_True. }
  destruct (stored "user" s') as [text|] eqn:Es; [|done]. cbn [mbind option_bind] in Hj.
  assert (∀ n, has_role n s' = Some (nleb (num_of_Z n) role)) as Hr.
  { intros n. unfold has_role. rewrite Es, Hj. cbn [mbind option_bind read]. by rewrite Hrole. }
  assert (∀ n, role_guard n s' = if nleb (num_of_Z n) role then Children else Dashboard) as Hg.
  { intros n. unfold role_guard. rewrite Es, Hj.
    change (opt_read (u "role") (VObj data)) with (prop (u "role") data). by rewrite Hrole. }
  split; [apply Hr|]. split; [apply Hr|]. split; [apply Hg|]. split; [apply Hg|].
  split; [unfold PrivateRoute; by rewrite Es|]. split; [unfold AuthRedirect; by rewrite Es|].
  split; [unfold getUserIdFromLocalStorage; rewrite Es, Hj; done|]. split; [exact Hperm|].
  intros key. unfold hasPermission, isRoot, isAdmin. rewrite !Hr, Hperm. fold root admin. by destruct root.
Qed.

Lemma session_after_login_witness :
  let data := [(u "id", VNum (num_of_Z 3)); (u "role", VNum (num_of_Z 10));
    (u "admin_permissions", VObj [(u "view_usage_logs", VBool false)])] in
  hasPermission (u "view_usage_logs") (setUserData (VObj data) []) = Some false.
Proof.
  intros data.
  assert (json_ok (VObj data) = true) as Hok by (vm_compute; reflexivity).
  assert (prop (u "role") data = VNum (num_of_Z 10)) as Hrole by (vm_compute; reflexivity).
  destruct (session_after_login data (num_of_Z 10) [] Hok Hrole) as (_ & _ & _ & _ & _ & _ & _ & _ & H).
  exact (H (u "view_usage_logs")).
Defined.
