(* ===== verification/ModelPriceFile.v ===== *)
(** * The file of model prices
    [src/web/src/pages/Setting/Ratio/ModelSettingsFileEditor.jsx]: the prices of all
    models as one text, which is cleaned and sorted, and to which models are appended
    with a choice for each one that is there with other prices. *)

From Stdlib Require Import SpecFloat.
From stdpp Require Import base numbers option strings sets list.
From S2P Require Import Prelude JsString JsNumber JsValue Json JsOps Session.

Definition isPlainObject (v : value) : bool := match v with VObj _ => true | _ => false end.
Definition has (k : jsstr) (o : props) : bool := match get k o with Some _ => true | None => false end.

(** ** Appended text *)

(** [replace(/^,+\s*/, '').replace(/,\s*$/, '')] *)
Definition drop_commas (s : jsstr) : jsstr :=
  let s := match s with 44%N :: _ => drop_while is_ws (drop_while (N.eqb 44) s) | _ => s end in
  match drop_while is_ws (rev s) with 44%N :: rest => rev rest | _ => s end.

Definition wrapModelEntriesInput (rawText : jsstr) : jsstr :=
  match trim rawText with
  | [] => u "{}"
  | trimmed =>
      if starts_with trimmed (u "{") && ends_with trimmed (u "}") then trimmed
      else [123; 10]%N ++ drop_commas trimmed ++ [10; 125]%N
  end.

Section prices.
(** [locale_leb a b]: [a.localeCompare(b) <= 0]. *)
Context (locale_leb : jsstr → jsstr → bool).

Definition entry_leb (a b : jsstr * value) : bool := locale_leb a.1 b.1.
(** [Object.fromEntries], or assignments one after the other. *)
Definition from_entries (l : props) : props := fold_left (λ o kv, set kv.1 kv.2 o) l [].

Fixpoint sortJsonValue (v : value) : value :=
  match v with
  | VArr l => VArr (map sortJsonValue l)
  | VObj o =>
      let sorted := (fix go (o : props) : props :=
        match o with [] => [] | (k, x) :: o' => (k, sortJsonValue x) :: go o' end) o in
      VObj (from_entries (sort entry_leb sorted))
  | _ => v
  end.

Definition stringifyPrettyJson (v : value) : jsstr := ser gap2 [] (sortJsonValue v).

Definition MISSING_VALUE : jsstr := u "__DAZEAPI_MISSING__".
Definition getComparableValueText (v : value) : jsstr :=
  if strict_eq v (VStr MISSING_VALUE) then u "<missing>" else ser [] [] (sortJsonValue v).

(** ** Differences *)

Definition key_union (a b : props) : list jsstr := sort locale_leb (set_order (keys a ++ keys b)).
Definition sub_path (path key : jsstr) : jsstr := match path with [] => key | _ => path ++ u "." ++ key end.

(** The paths at which two values differ, for each key of either in order. *)
Fixpoint collectDiffPaths (l r : value) (path : jsstr) : list jsstr :=
  match l, r with
  | VObj a, VObj b =>
      let table := (fix go (a : props) : list (jsstr * (value → jsstr → list jsstr)) :=
        match a with [] => [] | (k, x) :: a' => (k, collectDiffPaths x) :: go a' end) a in
      concat (map (λ key,
        match get key table, get key b with
        | Some diff, Some y => diff y (sub_path path key)
        | _, _ => [sub_path path key]
        end) (key_union a b))
  | _, _ =>
      if bool_decide (getComparableValueText l = getComparableValueText r) then []
      else [match path with [] => u "__root__" | _ => path end]
  end.

Definition pathHasDiff (diffPaths : list jsstr) (currentPath : jsstr) : bool :=
  match currentPath with
  | [] => bool_decide (u "__root__" ∈ diffPaths)
  | _ => existsb (λ p, bool_decide (p = currentPath) || starts_with p (currentPath ++ u ".")) diffPaths
  end.

(** ** Cleaning *)

Definition sortModelPriceObject (o : props) : props :=
  from_entries (map (λ kv, (kv.1, sortJsonValue kv.2)) (sort entry_leb o)).

Record stats := mk_stats { trimmedKeyCount : nat; mergedDuplicateCount : nat; emptyKeyCount : nat }.

Definition clean_entry (acc : props * stats) (kv : jsstr * value) : props * stats :=
  let '(o, c) := acc in
  match trim kv.1 with
  | [] => (o, mk_stats (trimmedKeyCount c) (mergedDuplicateCount c) (S (emptyKeyCount c)))
  | name =>
      (set name kv.2 o,
       mk_stats (if bool_decide (kv.1 = name) then trimmedKeyCount c else S (trimmedKeyCount c))
         (if has name o then S (mergedDuplicateCount c) else mergedDuplicateCount c) (emptyKeyCount c))
  end.

(** [None] when the text is no JSON object. *)
Definition normalizeModelPriceJson (rawText : jsstr) : option (props * stats) :=
  parsed ← (match trim rawText with [] => Some (VObj []) | _ => json_parse rawText end);
  match parsed with
  | VObj o => let '(o, c) := fold_left clean_entry o ([], mk_stats 0 0 0) in Some (sortModelPriceObject o, c)
  | _ => None
  end.

Definition stringifyModelPriceJson (rawText : jsstr) : option (jsstr * stats) :=
  '(o, c) ← normalizeModelPriceJson rawText; Some (stringifyPrettyJson (VObj o), c).

(** ** Appending *)

Inductive side := Left | Right.
Record conflict := mk_conflict { name : jsstr; leftValue : value; rightValue : value; selectedSide : option side }.
Record merge := mk_merge {
  baseMap : props; conflicts : list conflict; skippedIdenticalNames : list jsstr; duplicateNames : list jsstr;
}.

Definition identical (a b : value) : bool := bool_decide (stringifyPrettyJson a = stringifyPrettyJson b).

Definition merged_base (current added : props) : props :=
  fold_left (λ o kv, if has kv.1 current then o else set kv.1 kv.2 o) added current.
Definition skipped_names (current added : props) : list jsstr :=
  omap (λ kv, match get kv.1 current with Some v => if identical v kv.2 then Some kv.1 else None | None => None end) added.
Definition conflicts_of (current added : props) : list conflict :=
  omap (λ kv, match get kv.1 current with
              | Some v => if identical v kv.2 then None else Some (mk_conflict kv.1 v kv.2 None)
              | None => None end) added.
Definition duplicate_names (current added : props) : list jsstr := List.filter (λ k, has k current) (keys added).

Definition resolve (o : props) (c : conflict) : props :=
  set (name c) (match selectedSide c with Some Left => leftValue c | _ => rightValue c end) o.

(** ** State *)

Record view := mk_view {
  jsonText : jsstr; appendJsonText : jsstr; pendingMerge : option merge; pendingConflictIndex : nat;
  showAppendModal : bool; loading : bool;
}.

Inductive effect :=
  | PutOption (text : jsstr)
  | ShowError (v : value)
  | ShowSuccess (text : jsstr)
  | ShowWarning (text : jsstr)
  | Cleaned (c : stats)
  | SkippedModels (count : nat) (names : jsstr)
  | FoundConflicts (count : nat)
  | AddedModels (count : nat)
  | UnresolvedModels (count : nat)
  | ResolvedModels (count : nat)
  | RefreshOptions.

(** A save waits for its request, then for the refresh. *)
Inductive waiting := Saving | Refreshing.

Record state := mk_state { now : view; ModelPrice : jsstr; calls : list waiting; log : list effect }.

Definition with_view v s := mk_state v (ModelPrice s) (calls s) (log s).
Definition with_calls l s := mk_state (now s) (ModelPrice s) l (log s).
Definition emit e s := mk_state (now s) (ModelPrice s) (calls s) (e :: log s).
Definition suspend (w : waiting) (s : state) : state := with_calls (calls s ++ [w]) s.
Definition on_view (f : view → view) (s : state) : state := with_view (f (now s)) s.

Definition setJsonText x v := mk_view x (appendJsonText v) (pendingMerge v) (pendingConflictIndex v) (showAppendModal v) (loading v).
Definition setAppendJsonText x v := mk_view (jsonText v) x (pendingMerge v) (pendingConflictIndex v) (showAppendModal v) (loading v).
Definition setPending m i v := mk_view (jsonText v) (appendJsonText v) m i (showAppendModal v) (loading v).
Definition setShowAppendModal x v := mk_view (jsonText v) (appendJsonText v) (pendingMerge v) (pendingConflictIndex v) x (loading v).
Definition setLoading x v := mk_view (jsonText v) (appendJsonText v) (pendingMerge v) (pendingConflictIndex v) (showAppendModal v) x.

Section editor.
Context (t : jsstr → jsstr).

Definition fails (text : string) (s : state) : state := emit (ShowError (VStr (t (u text)))) s.
Definition succeeds (text : string) (s : state) : state := emit (ShowSuccess (t (u text))) s.

Definition notifyNormalization (c : stats) (s : state) : state :=
  if bool_decide (trimmedKeyCount c + mergedDuplicateCount c + emptyKeyCount c = 0) then s else emit (Cleaned c) s.

(** The effect on the option. *)
Definition options_changed (s : state) : state :=
  let raw := str_or (ModelPrice s) (u "{}") in
  match stringifyModelPriceJson raw with
  | Some (text, _) => on_view (λ v, setPending None 0 (setJsonText text v)) s
  | None => on_view (setJsonText raw) s
  end.

Definition handleFormat (r : view) (s : state) : state :=
  match stringifyModelPriceJson (jsonText r) with
  | Some (text, c) => succeeds "格式化成功" (notifyNormalization c (on_view (setJsonText text) s))
  | None => fails "JSON 格式错误，无法格式化" s
  end.

Definition sum_stats (a b : stats) : stats :=
  mk_stats (trimmedKeyCount a + trimmedKeyCount b) (mergedDuplicateCount a + mergedDuplicateCount b)
    (emptyKeyCount a + emptyKeyCount b).

(** Two parsed texts: models that are new are added, and those with other prices asked about. *)
Definition append_models (current added : props) (c c' : stats) (s : state) : state :=
  let base := merged_base current added in
  let skipped := skipped_names current added in
  let s := match skipped with
           | [] => s
           | _ => emit (SkippedModels (length skipped) (join (u ", ") (take 10 skipped))) s end in
  match conflicts_of current added with
  | [] =>
      let s := on_view (λ v, setPending None 0 (setShowAppendModal false (setAppendJsonText []
        (setJsonText (stringifyPrettyJson (VObj (sortModelPriceObject base))) v)))) s in
      emit (AddedModels (length (keys added) - length skipped)) (notifyNormalization (sum_stats c c') s)
  | l =>
      emit (FoundConflicts (length l)) (on_view (λ v, setPending
        (Some (mk_merge (sortModelPriceObject base) l skipped (duplicate_names current added))) 0 (setShowAppendModal false v)) s)
  end.

Definition handleAppendModels (r : view) (s : state) : state :=
  match trim (appendJsonText r) with
  | [] => fails "请输入需要添加的模型 JSON" s
  | _ =>
      match normalizeModelPriceJson (jsonText r), normalizeModelPriceJson (wrapModelEntriesInput (appendJsonText r)) with
      | Some (current, c), Some (added, c') => append_models current added c c' s
      | _, _ => fails "添加模型的 JSON 格式错误" s
      end
  end.

Definition choose (modelName : jsstr) (x : side) (m : merge) : merge :=
  mk_merge (baseMap m) (map (λ c, if bool_decide (name c = modelName)
      then mk_conflict (name c) (leftValue c) (rightValue c) (Some x) else c) (conflicts m))
    (skippedIdenticalNames m) (duplicateNames m).

Definition handleConflictChoice (r : view) (modelName : jsstr) (x : side) (s : state) : state :=
  on_view (λ v, setPending (choose modelName x <$> pendingMerge v)
    (match pendingMerge r with
     | Some m => Nat.min (S (pendingConflictIndex v)) (length (conflicts m) - 1)
     | None => pendingConflictIndex v end) v) s.

Definition unresolved (m : merge) : list conflict :=
  List.filter (λ c, match selectedSide c with Some _ => false | None => true end) (conflicts m).

Definition handleApplyConflictChoices (r : view) (s : state) : state :=
  match pendingMerge r with
  | None => s
  | Some m =>
      match unresolved m with
      | [] =>
          emit (ResolvedModels (length (conflicts m)))
            (on_view (λ v, setShowAppendModal false (setPending None 0 (setAppendJsonText []
              (setJsonText (stringifyPrettyJson (VObj (sortModelPriceObject (fold_left resolve (conflicts m) (baseMap m))))) v)))) s)
      | l => emit (UnresolvedModels (length l)) s
      end
  end.

Definition handleCancelConflictChoices (s : state) : state :=
  emit (ShowWarning (t (u "已取消本次重复模型处理"))) (on_view (setPending None 0) s).

(** *** The buttons of the choice *)

Definition currentConflict (r : view) : option conflict := m ← pendingMerge r; conflicts m !! pendingConflictIndex r.
Definition isLastConflict (r : view) : bool :=
  match pendingMerge r with Some m => bool_decide (S (pendingConflictIndex r) = length (conflicts m)) | None => false end.
Definition hasUnresolvedConflicts (r : view) : bool :=
  match pendingMerge r with Some m => match unresolved m with [] => false | _ => true end | None => false end.

Definition next_conflict (r : view) (s : state) : state :=
  match pendingMerge r with
  | None => s
  | Some m =>
      if isLastConflict r then if hasUnresolvedConflicts r then s else handleApplyConflictChoices r s
      else if bool_decide (length (conflicts m) - 1 ≤ pendingConflictIndex r) then s
      else on_view (λ v, setPending (pendingMerge v) (Nat.min (length (conflicts m) - 1) (S (pendingConflictIndex v))) v) s
  end.

Definition previous_conflict (s : state) : state :=
  on_view (λ v, setPending (pendingMerge v) (pendingConflictIndex v - 1) v) s.

(** *** Saving *)

Definition handleSave (r : view) (s : state) : state :=
  if negb (verifyJSON (jsonText r)) then fails "不是合法的 JSON 字符串" s
  else
    let s := on_view (setLoading true) s in
    match stringifyModelPriceJson (jsonText r) with
    | Some (text, c) =>
        suspend Saving (emit (PutOption text) (notifyNormalization c (on_view (setJsonText text) s)))
    | None => on_view (setLoading false) (fails "保存失败" s)
    end.

Definition save_failed (s : state) : state := on_view (setLoading false) (fails "保存失败" s).

Definition saved (res : value) (s : state) : state :=
  match read (u "data") res ≫= λ data, success ← read (u "success") data; Some (data, success) with
  | None => save_failed s
  | Some (data, success) =>
      if truthy success then suspend Refreshing (emit RefreshOptions (succeeds "保存成功" s))
      else on_view (setLoading false)
        (emit (ShowError (value_or (opt_read (u "message") data) (VStr (t (u "保存失败"))))) s)
  end.

(** *** Steps *)

Inductive event :=
  | Options (raw : jsstr)
  | EditText (text : jsstr)
  | EditAppend (text : jsstr)
  | ShowAppend (shown : bool)
  | Format
  | Append
  | Choose (x : side)
  | Next
  | Previous
  | CancelChoices
  | Save
  | Answer (i : nat) (res : value)
  | Failure (i : nat).

Definition take_call (i : nat) (s : state) : state := with_calls (delete i (calls s)) s.

Definition answered (w : waiting) (res : value) (s : state) : state :=
  match w with Saving => saved res s | Refreshing => on_view (setLoading false) s end.

Definition step (s : state) (e : event) : state :=
  let r := now s in
  match e with
  | Options raw =>
      let s' := mk_state (now s) raw (calls s) (log s) in
      if bool_decide (raw = ModelPrice s) then s' else options_changed s'
  | EditText text => on_view (setJsonText text) s
  | EditAppend text => on_view (setAppendJsonText text) s
  | ShowAppend shown => on_view (setShowAppendModal shown) s
  | Format => handleFormat r s
  | Append => handleAppendModels r s
  | Choose x => match currentConflict r with Some c => handleConflictChoice r (name c) x s | None => s end
  | Next => next_conflict r s
  | Previous => match pendingMerge r with Some _ => previous_conflict s | None => s end
  | CancelChoices => match pendingMerge r with Some _ => handleCancelConflictChoices s | None => s end
  | Save => handleSave r s
  | Answer i res => match calls s !! i with Some w => answered w res (take_call i s) | None => s end
  | Failure i => match calls s !! i with Some _ => save_failed (take_call i s) | None => s end
  end.

Definition run (s : state) (es : list event) : state := fold_left step es s.

Definition init (raw : jsstr) : state := options_changed (mk_state (mk_view [] [] None 0 false false) raw [] []).
End editor.
End prices.
