(* ===== verification/ModelPriceLaws.v ===== *)
(** * The file of model prices: laws
    Sorting keeps the data, a difference is shown exactly where the data differ, and
    appended models are merged by the choices that were made. *)

From Stdlib Require Import SpecFloat.
From stdpp Require Import base numbers option strings sets list.
From S2P Require Import Prelude JsString JsNumber JsValue Json JsSame JsOps Session ModelPriceFile.

Lemma option_Forall2_fmap_r {A B} (R : A → B → Prop) (f : A → B) (x : option A) :
  (∀ a, x = Some a → R a (f a)) → option_Forall2 R x (f <$> x).
Proof. intros H. destruct x; constructor. by apply H. Qed.

Lemma json_obj_inv o : json_ok (VObj o) = true ↔ props_sorted o ∧ Forall (λ kv, json_ok kv.2 = true) o.
Proof.
  rewrite json_ok_obj, andb_true_iff, bool_decide_eq_true. apply and_iff_compat_l. unfold members_ok.
  rewrite forallb_forall, Forall_forall. split; intros H kv Hkv; apply H; by apply list_elem_of_In.
Qed.
Lemma json_arr_inv l : json_ok (VArr l) = true ↔ Forall (λ x, json_ok x = true) l.
Proof. simpl. rewrite forallb_forall, Forall_forall. split; intros H x Hx; apply H; by apply list_elem_of_In. Qed.

(** Text determines a value. *)
Lemma ser_inj gap v w : all_ws gap → json_ok v = true → json_ok w = true → ser gap [] v = ser gap [] w → v = w.
Proof.
  intros Hg Hv Hw E. pose proof (json_parse_ser gap v Hg Hv) as P1. pose proof (json_parse_ser gap w Hg Hw) as P2.
  rewrite E in P1. congruence.
Qed.

(** The keys of a value, at every depth. *)
Fixpoint deep_keys (v : value) : list jsstr :=
  match v with
  | VArr l => concat (map deep_keys l)
  | VObj o => (fix go (o : props) : list jsstr := match o with [] => [] | (k, x) :: o' => k :: deep_keys x ++ go o' end) o
  | _ => []
  end.

Lemma deep_keys_obj k o : k ∈ keys o → k ∈ deep_keys (VObj o).
Proof.
  simpl. induction o as [|[k' x] o IH]; simpl; [done|]. rewrite !elem_of_cons, elem_of_app. intros [->|H]; [by left | right; right; auto].
Qed.
Lemma deep_keys_member k x j o : get k o = Some x → j ∈ deep_keys x → j ∈ deep_keys (VObj o).
Proof.
  simpl. induction o as [|[k' y] o IH]; simpl; [done|]. case_decide.
  - intros [= ->] Hj. right. apply elem_of_app. by left.
  - intros H1 H2. right. apply elem_of_app. right. auto.
Qed.
Lemma deep_keys_elem x l j : x ∈ l → j ∈ deep_keys x → j ∈ deep_keys (VArr l).
Proof. intros Hx Hj. simpl. apply list_elem_of_In, in_concat. exists (deep_keys x). split; [apply in_map|]; by apply list_elem_of_In. Qed.

Lemma get_elem {V} k (v : V) o : NoDup (keys o) → (k, v) ∈ o ↔ get k o = Some v.
Proof.
  induction o as [|[k' x] o IH]; simpl; [intros _; split; [by intros ?%not_elem_of_nil | done]|].
  intros [Hk Hn]%NoDup_cons. rewrite elem_of_cons, IH by done. case_decide as E; [|naive_solver]. subst k'.
  assert (get k o = None) as -> by by apply get_None. naive_solver.
Qed.

Lemma NoDup_members {V} (o : list (jsstr * V)) : NoDup (keys o) → NoDup o.
Proof. apply NoDup_fmap_1. Qed.

(** ** Sorting *)

Section laws.
Context (locale_leb : jsstr → jsstr → bool).
Local Abbreviation sortJsonValue := (sortJsonValue locale_leb).
Local Abbreviation entry_leb := (entry_leb locale_leb).
Local Abbreviation sortModelPriceObject := (sortModelPriceObject locale_leb).
Local Abbreviation collectDiffPaths := (collectDiffPaths locale_leb).
Local Abbreviation identical := (identical locale_leb).

Definition sorted_members (o : props) : props := map (λ kv, (kv.1, sortJsonValue kv.2)) o.

Lemma sort_obj o : sortJsonValue (VObj o) = VObj (from_entries (sort entry_leb (sorted_members o))).
Proof.
  simpl. do 3 f_equal. unfold sorted_members. induction o as [|[k x] o IH]; simpl; [done|]. by rewrite IH.
Qed.

Lemma keys_sorted_members o : keys (sorted_members o) = keys o.
Proof. unfold keys, sorted_members. rewrite map_map. by apply map_ext. Qed.

Lemma NoDup_sort_keys (o : props) : NoDup (keys o) → NoDup (keys (sort entry_leb o)).
Proof. unfold keys. intros H. by rewrite sort_perm. Qed.

Lemma get_sort k (o : props) : NoDup (keys o) → get k (sort entry_leb o) = get k o.
Proof. intros H. apply get_perm; [by apply NoDup_sort_keys | apply sort_perm]. Qed.

Lemma get_from_entries k (o : props) : NoDup (keys o) → get k (from_entries o) = get k o.
Proof. intros H. unfold from_entries. rewrite get_assign by done. by destruct (get k o). Qed.

Lemma from_entries_sorted (o : props) : props_sorted (from_entries o).
Proof. exact (props_sorted_spread [] o I). Qed.

Lemma from_entries_ok (o : props) : Forall (λ kv, json_ok kv.2 = true) o → json_ok (VObj (from_entries o)) = true.
Proof.
  intros H. apply json_obj_inv. split; [apply from_entries_sorted|]. unfold from_entries.
  assert (Forall (λ kv : jsstr * value, json_ok kv.2 = true) []) as H0 by constructor. revert H0. generalize (@nil (jsstr * value)).
  induction H as [|[k v] o Hv Ho IH]; simpl; intros a Ha; [done|]. apply IH. by apply (Forall_set (λ v, json_ok v = true)).
Qed.

Lemma get_sorted k o : NoDup (keys o) → get k (from_entries (sort entry_leb (sorted_members o))) = sortJsonValue <$> get k o.
Proof.
  intros H. rewrite <- (keys_sorted_members o) in H. rewrite get_from_entries by by apply NoDup_sort_keys.
  rewrite get_sort by done. apply get_fmap.
Qed.

Lemma sort_json_ok v : json_ok v = true → json_ok (sortJsonValue v) = true.
Proof.
  induction v as [| | | | |l IH|o IH] using value_ind'; intros H; try done.
  - simpl. apply json_arr_inv. apply json_arr_inv in H. apply Forall_map. by eapply Forall_impl; [apply Forall_and; split; [exact IH | exact H]|]; intros x [A B]; apply A.
  - rewrite sort_obj. apply json_obj_inv in H as [_ H]. apply from_entries_ok. rewrite sort_perm. unfold sorted_members. apply Forall_map.
    eapply Forall_impl; [apply Forall_and; split; [exact IH | exact H]|]. intros x [A B]. by apply A.
Qed.

(** Sorting keeps the data. *)
Lemma sort_same v : json_ok v = true → same v (sortJsonValue v).
Proof.
  induction v as [| | | | |l IH|o IH] using value_ind'; intros H; try done.
  - apply json_arr_inv in H. simpl. apply same_arr. apply Forall2_fmap_r, Forall_Forall2_diag.
    eapply Forall_impl; [apply Forall_and; split; [exact IH | exact H]|]. intros x [A B]. by apply A.
  - rewrite sort_obj. apply json_obj_inv in H as [Hs H]. apply same_obj. intros k.
    rewrite get_sorted by by apply sorted_keys_NoDup. apply option_Forall2_fmap_r. intros x E.
    eapply (get_Forall (λ v, json_ok v = true → same v (sortJsonValue v))); [exact IH | exact E|].
    by eapply (get_Forall (λ v, json_ok v = true)).
Qed.

(** *** Sorted values are equal when they have the same data *)

Hypothesis leb_total : ∀ a b, locale_leb a b = true ∨ locale_leb b a = true.
Hypothesis leb_trans : ∀ a b c, locale_leb a b = true → locale_leb b c = true → locale_leb a c = true.

(** No two keys of the value are equal in the order of the locale. *)
Definition told_apart (v : value) : Prop :=
  ∀ j k, j ∈ deep_keys v → k ∈ deep_keys v → locale_leb j k = true → locale_leb k j = true → j = k.

Lemma told_apart_member k x o : told_apart (VObj o) → get k o = Some x → told_apart x.
Proof. intros H E i j Hi Hj. apply H; by eapply deep_keys_member. Qed.

Lemma sorted_members_perm a b :
  NoDup (keys a) → NoDup (keys b) → (∀ k, sortJsonValue <$> get k a = sortJsonValue <$> get k b) →
  sorted_members a ≡ₚ sorted_members b.
Proof.
  intros Ha Hb H. rewrite <- (keys_sorted_members a) in Ha. rewrite <- (keys_sorted_members b) in Hb.
  apply NoDup_Permutation; [by apply NoDup_members.. |]. intros [k y]. rewrite !get_elem by done.
  unfold sorted_members. by rewrite !get_fmap, H.
Qed.

Lemma sort_members_eq a b :
  NoDup (keys a) → told_apart (VObj a) → sorted_members a ≡ₚ sorted_members b →
  sort entry_leb (sorted_members a) = sort entry_leb (sorted_members b).
Proof.
  intros Hn Ht Hp. apply (in_order_unique entry_leb).
  - intros [j x] [k y]. rewrite !elem_of_sort. intros Hx Hy H1 H2. unfold entry_leb in *. simpl in *.
    assert (j = k) as <-.
    { apply Ht; try done; apply deep_keys_obj; rewrite <- keys_sorted_members;
        [exact (list_elem_of_fmap_2 fst _ _ Hx) | exact (list_elem_of_fmap_2 fst _ _ Hy)]. }
    rewrite <- keys_sorted_members in Hn. apply get_elem in Hx, Hy; [|done..]. congruence.
  - apply sort_in_order; unfold entry_leb; eauto.
  - apply sort_in_order; unfold entry_leb; eauto.
  - by rewrite !sort_perm.
Qed.

Lemma same_sorted l r :
  json_ok l = true → json_ok r = true → told_apart l → same l r → sortJsonValue l = sortJsonValue r.
Proof.
  revert r. induction l as [| | | | |l IH|a IH] using value_ind'; intros r Hl Hr Ht Hs; inversion Hs; subst; try done.
  - simpl. f_equal. match goal with F : Forall2 _ l ?m |- _ => rename m into l'; rename F into HF end.
    apply json_arr_inv in Hl, Hr. assert (∀ x, x ∈ l → told_apart x) as Ht'.
    { intros x Hx i j Hi Hj. apply Ht; by eapply deep_keys_elem. }
    clear Ht Hs. revert l' HF Hr. induction IH as [|x l Hx Hl' IH']; intros l' HF Hr; inversion HF; subst; [done|].
    apply Forall_cons in Hl as [Ox Hl], Hr as [Oy Hr]. simpl. f_equal; [apply Hx; [done..| |done]; apply Ht'; by left|].
    apply IH'; try done. intros z Hz. apply Ht'. by right.
  - rewrite !sort_obj. match goal with H : ∀ k, option_Forall2 _ _ (get k ?m) |- _ => rename m into b; rename H into Hk end.
    apply json_obj_inv in Hl as [Sa Ha], Hr as [Sb Hb]. apply sorted_keys_NoDup in Sa, Sb.
    do 2 f_equal. apply sort_members_eq; [done..|]. apply sorted_members_perm; [done..|]. intros k.
    specialize (Hk k). destruct (get k a) as [x|] eqn:Ea, (get k b) as [y|] eqn:Eb; inversion Hk as [? ? Hxy|]; subst; [|done].
    simpl. f_equal.
    eapply (get_Forall (λ v, ∀ r, json_ok v = true → json_ok r = true → told_apart v → same v r → sortJsonValue v = sortJsonValue r) k a);
      [exact IH | exact Ea | exact (get_Forall (λ v, json_ok v = true) k a _ Ha Ea)
      | exact (get_Forall (λ v, json_ok v = true) k b _ Hb Eb) | by eapply told_apart_member | exact Hxy].
Qed.

Lemma sorted_eq_same l r :
  json_ok l = true → json_ok r = true → told_apart l → sortJsonValue l = sortJsonValue r ↔ same l r.
Proof.
  intros Hl Hr Ht. split; [|by apply same_sorted]. intros E. rewrite (sort_same l), (sort_same r) by done. by rewrite E.
Qed.

Lemma identical_same l r : json_ok l = true → json_ok r = true → told_apart l → identical l r = true ↔ same l r.
Proof.
  intros Hl Hr Ht. unfold ModelPriceFile.identical, stringifyPrettyJson. rewrite bool_decide_eq_true, <- sorted_eq_same by done.
  split; [|by intros ->]. by apply (ser_inj gap2); [apply gap2_ws | apply sort_json_ok..].
Qed.

(** *** Differences *)

Lemma text_same l r :
  json_ok l = true → json_ok r = true → told_apart l →
  getComparableValueText locale_leb l = getComparableValueText locale_leb r ↔ same l r.
Proof.
  intros Hl Hr Ht. unfold getComparableValueText.
  assert (∀ v, json_ok v = true → ser [] [] (sortJsonValue v) ≠ u "<missing>") as Hmissing.
  { intros v Hv E. pose proof (json_parse_ser [] _ ltac:(constructor) (sort_json_ok v Hv)) as P. by rewrite E in P. }
  assert (∀ v, strict_eq v (VStr MISSING_VALUE) = true → v = VStr MISSING_VALUE) as Hs.
  { intros v. destruct v; try done. simpl. by intros ->%bool_decide_eq_true. }
  destruct (strict_eq l _) eqn:E1, (strict_eq r _) eqn:E2.
  - apply Hs in E1 as ->. by apply Hs in E2 as ->.
  - apply Hs in E1 as ->. split; [by intros E; symmetry in E; apply Hmissing in E|].
    intros H%same_scalar_inv; [|done]. subst r. by vm_compute in E2.
  - apply Hs in E2 as ->. split; [by intros ?%Hmissing|]. intros H. symmetry in H. apply same_scalar_inv in H; [|done].
    subst l. by vm_compute in E1.
  - rewrite <- sorted_eq_same by done. split; [|by intros ->]. by apply (ser_inj []); [constructor | apply sort_json_ok..].
Qed.

Lemma diff_obj a b path :
  collectDiffPaths (VObj a) (VObj b) path =
  concat (map (λ key, match get key a, get key b with
                      | Some x, Some y => collectDiffPaths x y (sub_path path key)
                      | _, _ => [sub_path path key] end) (key_union locale_leb a b)).
Proof.
  simpl. f_equal. apply map_ext. intros key.
  match goal with |- context [get key (?go a)] => assert (get key (go a) = collectDiffPaths <$> get key a) as -> end; [|by destruct (get key a)].
  induction a as [|[k x] a IH]; simpl; [done|]. by case_decide.
Qed.

Lemma concat_map_nil {A B} (f : A → list B) l : concat (map f l) = [] ↔ ∀ x, x ∈ l → f x = [].
Proof.
  induction l as [|x l IH]; simpl; [split; [by intros _ x ?%not_elem_of_nil | done]|]. split.
  - intros [H1 H2]%app_nil y. rewrite elem_of_cons. intros [->|Hy]; [done|]. by apply IH.
  - intros H. rewrite (H x) by by left. simpl. apply IH. intros y Hy. apply H. by right.
Qed.

Lemma key_union_elem k a b : k ∈ key_union locale_leb a b ↔ get k a ≠ None ∨ get k b ≠ None.
Proof.
  unfold key_union. rewrite elem_of_sort, elem_of_set_order, elem_of_app.
  assert (∀ o : props, k ∈ keys o ↔ get k o ≠ None) as E; [|by rewrite !E].
  intros o. rewrite get_None. split; [tauto | apply dec_stable].
Qed.

Lemma no_difference l r path :
  json_ok l = true → json_ok r = true → told_apart l → collectDiffPaths l r path = [] ↔ same l r.
Proof.
  revert r path. induction l as [| | | | |l IH|a IH] using value_ind'; intros r path Hl Hr Ht;
    try (rewrite <- text_same by done; simpl; by case_bool_decide).
  destruct r as [| | | | |m|b]; try (rewrite <- text_same by done; simpl; by case_bool_decide).
  rewrite diff_obj, concat_map_nil, same_obj_inv. pose proof Hl as [_ Ha]%json_obj_inv. pose proof Hr as [_ Hb]%json_obj_inv.
  assert (∀ k x y p, get k a = Some x → get k b = Some y → collectDiffPaths x y p = [] ↔ same x y) as Hxy.
  { intros k x y p Ex Ey.
    eapply (get_Forall (λ v, ∀ r p, json_ok v = true → json_ok r = true → told_apart v → collectDiffPaths v r p = [] ↔ same v r) k a);
      [exact IH | exact Ex | exact (get_Forall (λ v, json_ok v = true) k a _ Ha Ex)
      | exact (get_Forall (λ v, json_ok v = true) k b _ Hb Ey) | by eapply told_apart_member]. }
  split.
  - intros H k. specialize (H k). rewrite key_union_elem in H.
    destruct (get k a) as [x|] eqn:Ex, (get k b) as [y|] eqn:Ey; try constructor.
    + eapply Hxy; [done..|]. apply H. by left.
    + discriminate H. by left.
    + discriminate H. by right.
  - intros H k. rewrite key_union_elem. specialize (H k).
    destruct (get k a) as [x|] eqn:Ex, (get k b) as [y|] eqn:Ey; inversion H; subst; [|by intros [[]|[]]].
    intros _. by apply (Hxy k).
Qed.

(** two configurations of a model are skipped as identical exactly when they have the
    same data, whatever the order of their keys, and only then no path is marked as
    different: a choice that is asked for always shows what it is about. *)
Theorem differences_shown l r :
  json_ok l = true → json_ok r = true → told_apart l →
  (identical l r = true ↔ same l r) ∧ (collectDiffPaths l r [] = [] ↔ same l r).
Proof. intros. split; [by apply identical_same | by apply no_difference]. Qed.
End laws.

(** A price with its keys in another order, and another price. *)
Lemma differences_shown_witness :
  let l := VObj [(u "b", VNum (JsNumber.num_of_Z 1)); (u "a", VNull)] in
  let r := VObj [(u "a", VNull); (u "b", VNum (JsNumber.num_of_Z 1))] in
  identical str_leb l r = true ∧ collectDiffPaths str_leb l r [] = [] ∧ same l r.
Proof.
  intros l r. destruct (differences_shown str_leb str_leb_total str_leb_trans l r) as [H1 H2].
  - vm_compute. reflexivity.
  - vm_compute. reflexivity.
  - intros j k _ _. apply str_leb_antisym.
  - assert (identical str_leb l r = true) as E by (vm_compute; reflexivity). split; [exact E|].
    pose proof (proj1 H1 E) as Hs. split; [exact (proj2 H2 Hs) | exact Hs].
Defined.

(** ** Merging *)

Section merging.
Context (locale_leb : jsstr → jsstr → bool) (t : jsstr → jsstr).
Local Abbreviation run := (ModelPriceFile.run locale_leb t).
Local Abbreviation step := (ModelPriceFile.step locale_leb t).
Local Abbreviation identical := (identical locale_leb).
Local Abbreviation conflicts_of := (conflicts_of locale_leb).

Lemma get_merged_base k current added :
  NoDup (keys added) →
  get k (merged_base current added) = match get k current with Some x => Some x | None => get k added end.
Proof.
  unfold merged_base. intros Hn. assert (∀ o, (∀ j, has j current = true → get j o = get j current) →
    get k (fold_left (λ o kv, if has kv.1 current then o else set kv.1 kv.2 o) added o) =
    match get k current with Some x => Some x | None => match get k added with Some x => Some x | None => get k o end end) as H.
  { induction added as [|[j v] added IH]; intros o Ho; simpl.
    - destruct (get k current) as [x|] eqn:E; [|done]. rewrite Ho; [done|]. unfold has. by rewrite E.
    - apply NoDup_cons in Hn as [Hj Hn]. destruct (has j current) eqn:E.
      + rewrite IH by done. unfold has in E. destruct (get k current) eqn:E1; [done|]. case_decide; subst; [by rewrite E1 in E|done].
      + rewrite IH; [|done|].
        * destruct (get k current) eqn:E1; [done|]. rewrite get_set. case_decide; subst; [|done].
          assert (get k added = None) as -> by by apply get_None. done.
        * intros i Hi. rewrite get_set_ne; [by apply Ho|]. intros <-. congruence. }
  rewrite H by done. destruct (get k current) eqn:E; [done|]. by destruct (get k added).
Qed.

(** A conflict for each name that both have with other data. *)
Lemma elem_conflicts current added c :
  NoDup (keys added) → c ∈ conflicts_of current added ↔
  ∃ x y, get (name c) current = Some x ∧ get (name c) added = Some y ∧ identical x y = false ∧ c = mk_conflict (name c) x y None.
Proof.
  intros Hn. unfold ModelPriceFile.conflicts_of. rewrite list_elem_of_omap. split.
  - intros ([k y] & Hk & Hc). apply get_elem in Hk; [|done]. simpl in Hc. destruct (get k current) as [x|] eqn:E; [|done].
    destruct (identical x y) eqn:E2; [done|]. injection Hc as <-. by exists x, y.
  - intros (x & y & Hx & Hy & Hi & Hc). exists (name c, y). split; [by apply get_elem|]. simpl. by rewrite Hx, Hi, Hc.
Qed.

Lemma conflict_names current added : NoDup (keys added) → NoDup (map name (conflicts_of current added)).
Proof.
  unfold ModelPriceFile.conflicts_of. induction added as [|[k y] added IH]; simpl; [by constructor|]. intros [Hk Hn]%NoDup_cons.
  destruct (get k current) as [x|]; [|by apply IH]. destruct (identical x y); [by apply IH|].
  simpl. apply NoDup_cons. split; [|by apply IH]. intros (c & E & Hc)%list_elem_of_fmap.
  apply elem_conflicts in Hc as (x' & y' & _ & Hy & _); [|done]. rewrite <- E in Hy. simpl in Hy. apply Hk.
  destruct (decide (k ∈ keys added)) as [|Hd]; [done|]. apply get_None in Hd. congruence.
Qed.

(** The side that a choice takes. *)
Definition side_of (c : conflict) : value := match selectedSide c with Some Left => leftValue c | _ => rightValue c end.

Lemma get_resolved k l o :
  NoDup (map name l) →
  get k (fold_left resolve l o) = match List.find (λ c, bool_decide (name c = k)) l with Some c => Some (side_of c) | None => get k o end.
Proof.
  revert o. induction l as [|c l IH]; intros o Hn; simpl; [done|]. apply NoDup_cons in Hn as [Hc Hn]. rewrite IH by done.
  unfold resolve. fold (side_of c). rewrite get_set. case_bool_decide as E.
  - rewrite decide_True by done. destruct (List.find _ l) as [d|] eqn:Ed; [|done].
    apply find_some in Ed as [Hin Hd]. apply bool_decide_eq_true in Hd. exfalso. apply Hc. rewrite E, <- Hd.
    apply (list_elem_of_fmap_2 name), list_elem_of_In, Hin.
  - by rewrite decide_False.
Qed.

(** *** The choices one after the other *)

Definition answer (f : jsstr → side) (c : conflict) : conflict := mk_conflict (name c) (leftValue c) (rightValue c) (Some (f (name c))).

(** The state while the conflicts of [rest] are still to be chosen. *)
Definition choosing (f : jsstr → side) (base : props) (chosen rest : list conflict) (s : state) : Prop :=
  ∃ skipped duplicates, pendingMerge (now s) = Some (mk_merge base (map (answer f) chosen ++ rest) skipped duplicates) ∧
  pendingConflictIndex (now s) = Nat.min (length chosen) (length (chosen ++ rest) - 1).

Lemma choose_one f base chosen c rest s :
  NoDup (map name (chosen ++ c :: rest)) → choosing f base chosen (c :: rest) s →
  choosing f base (chosen ++ [c]) rest (step s (Choose (f (name c)))).
Proof.
  intros Hn (skipped & duplicates & Hm & Hi). rewrite length_app in Hi. simpl in Hi.
  assert (pendingConflictIndex (now s) = length chosen) as Hi' by lia. simpl. unfold currentConflict.
  rewrite Hm, Hi'. cbn [mbind option_bind conflicts].
  rewrite lookup_app_r, length_map, Nat.sub_diag by (rewrite length_map; lia). simpl.
  unfold handleConflictChoice. rewrite Hm. eexists skipped, duplicates.
  cbn [on_view with_view now setPending pendingMerge pendingConflictIndex conflicts]. rewrite Hm, Hi'.
  cbn [fmap option_fmap option_map]. split.
  - unfold choose. simpl. do 2 f_equal. rewrite !map_app. simpl. rewrite <- app_assoc. simpl.
    rewrite bool_decide_true by done. rewrite map_app in Hn. simpl in Hn. apply NoDup_app in Hn as (_ & Hd & [Hc _]%NoDup_cons).
    f_equal; [|unfold answer at 1; f_equal].
    + rewrite map_map. apply map_ext_in. intros d Hdin%list_elem_of_In. simpl.
      rewrite bool_decide_false; [done|]. intros E. apply (Hd (name d)); [by apply (list_elem_of_fmap_2 name)|]. rewrite E. by left.
    + rewrite <- (map_id rest) at 2. apply map_ext_in. intros d Hdin%list_elem_of_In.
      rewrite bool_decide_false; [done|]. intros E. apply Hc. rewrite <- E. by apply (list_elem_of_fmap_2 name).
  - rewrite !length_app, length_map. cbn [length]. lia.
Qed.

Lemma choose_all f base rest : ∀ chosen s,
  NoDup (map name (chosen ++ rest)) → choosing f base chosen rest s →
  choosing f base (chosen ++ rest) [] (run s (map (λ c, Choose (f (name c))) rest)).
Proof.
  induction rest as [|c rest IH]; intros chosen s Hn Hs; simpl; [by rewrite app_nil_r|].
  replace (chosen ++ c :: rest) with ((chosen ++ [c]) ++ rest) in * by by rewrite <- app_assoc.
  unfold ModelPriceFile.run. simpl. apply IH; [done|]. rewrite <- app_assoc in Hn. by apply choose_one.
Qed.

(** *** What is written *)

Local Abbreviation sortModelPriceObject := (sortModelPriceObject locale_leb).

Lemma sort_object_ok o : json_ok (VObj o) = true → json_ok (VObj (sortModelPriceObject o)) = true.
Proof.
  intros [_ H]%json_obj_inv. apply from_entries_ok, Forall_map. rewrite sort_perm. eapply Forall_impl; [exact H|].
  intros kv Hkv. by apply sort_json_ok.
Qed.

Lemma get_sort_object k o : json_ok (VObj o) = true → get k (sortModelPriceObject o) = sortJsonValue locale_leb <$> get k o.
Proof.
  intros [Hs _]%json_obj_inv. apply sorted_keys_NoDup in Hs. unfold ModelPriceFile.sortModelPriceObject.
  rewrite get_from_entries; [by rewrite get_fmap, get_sort|].
  unfold keys. rewrite map_map. cbn [fst]. by apply NoDup_sort_keys.
Qed.

Lemma sort_object_same k o : json_ok (VObj o) = true → option_Forall2 same (get k o) (get k (sortModelPriceObject o)).
Proof.
  intros H. rewrite get_sort_object by done. apply option_Forall2_fmap_r. intros x E. apply sort_same.
  apply json_obj_inv in H as [_ H]. exact (get_Forall (λ v, json_ok v = true) k o x H E).
Qed.

Lemma pretty_back o :
  json_ok (VObj o) = true →
  ∃ o', json_parse (stringifyPrettyJson locale_leb (VObj (sortModelPriceObject o))) = Some (VObj o') ∧ same (VObj o) (VObj o').
Proof.
  intros H. pose proof (sort_object_ok _ H) as H1. pose proof (sort_json_ok locale_leb _ H1) as H2.
  unfold stringifyPrettyJson. rewrite json_parse_ser by (done || apply gap2_ws).
  rewrite sort_obj in *. eexists. split; [done|]. rewrite <- sort_obj. transitivity (VObj (sortModelPriceObject o)).
  - apply same_obj. intros k. by apply sort_object_same.
  - by apply sort_same.
Qed.

Lemma set_fold_ok {A} (f : A → jsstr * value) l o :
  json_ok (VObj o) = true → Forall (λ x, json_ok (f x).2 = true) l →
  json_ok (VObj (fold_left (λ o x, set (f x).1 (f x).2 o) l o)) = true.
Proof. intros Ho Hl. revert o Ho. induction Hl as [|x l Hx Hl IH]; intros o Ho; simpl; [done|]. apply IH. by apply json_ok_set. Qed.

Lemma merged_base_ok current added :
  json_ok (VObj current) = true → json_ok (VObj added) = true → json_ok (VObj (merged_base current added)) = true.
Proof.
  intros Hc [_ Ha]%json_obj_inv. unfold merged_base.
  enough (∀ o, json_ok (VObj o) = true →
    json_ok (VObj (fold_left (λ o kv, if has kv.1 current then o else set kv.1 kv.2 o) added o)) = true) as H by by apply H.
  clear Hc. induction Ha as [|[k v] added Hv Ha IH]; intros o Ho; simpl; [done|]. apply IH.
  destruct (has k current); [done | by apply json_ok_set].
Qed.

(** What a model has after the merge. *)
Definition price_of (current added : props) (f : jsstr → side) (k : jsstr) : option value :=
  match get k current, get k added with
  | Some x, Some y => Some (if identical x y then x else match f k with Left => x | Right => y end)
  | Some x, None => Some x
  | None, y => y
  end.

Lemma find_answer f k l :
  List.find (λ c, bool_decide (name c = k)) (map (answer f) l) = answer f <$> List.find (λ c, bool_decide (name c = k)) l.
Proof. induction l as [|c l IH]; simpl; [done|]. by case_bool_decide. Qed.

(** The map with all conflicts resolved, from any base with the same data. *)
Lemma resolved_prices current added f base k :
  NoDup (keys added) → (∀ k, option_Forall2 same (get k (merged_base current added)) (get k base)) →
  option_Forall2 same (price_of current added f k) (get k (fold_left resolve (map (answer f) (conflicts_of current added)) base)).
Proof.
  intros Hn Hb. rewrite get_resolved by (rewrite map_map; by apply conflict_names). rewrite find_answer.
  destruct (List.find _ _) as [c|] eqn:E; simpl.
  - apply find_some in E as [Hin%list_elem_of_In Hk]. apply bool_decide_eq_true in Hk. subst k.
    apply elem_conflicts in Hin as (x & y & Hx & Hy & Hi & Hc); [|done]. unfold price_of. rewrite Hx, Hy, Hi. constructor.
    rewrite Hc. unfold side_of. simpl. by destruct (f (name c)).
  - specialize (Hb k). rewrite get_merged_base in Hb by done. unfold price_of.
    destruct (get k current) as [x|] eqn:Ex; [|by destruct (get k added)].
    destruct (get k added) as [y|] eqn:Ey; [|done]. destruct (identical x y) eqn:Ei; [done|].
    exfalso. eapply find_none in E; [|apply list_elem_of_In, (elem_conflicts current added (mk_conflict k x y None)); [done | by exists x, y]].
    by rewrite bool_decide_true in E.
Qed.

Lemma conflict_sides_ok current added f :
  json_ok (VObj current) = true → json_ok (VObj added) = true →
  Forall (λ c, json_ok (side_of c) = true) (map (answer f) (conflicts_of current added)).
Proof.
  intros [_ Hc]%json_obj_inv [Hs Ha]%json_obj_inv. apply sorted_keys_NoDup in Hs. apply Forall_map, Forall_forall.
  intros c (x & y & Hx & Hy & _ & E)%elem_conflicts; [|done]. unfold side_of. simpl. rewrite E. simpl.
  destruct (f (name c)); [exact (get_Forall (λ v, json_ok v = true) _ _ _ Hc Hx) | exact (get_Forall (λ v, json_ok v = true) _ _ _ Ha Hy)].
Qed.

(** The events of a merge: texts typed meanwhile, the choices, and the button at the end. *)
Definition merging (current added : props) (edits : list jsstr) (f : jsstr → side) : list event :=
  Append :: match conflicts_of current added with
            | [] => []
            | l => map EditText edits ++ map (λ c, Choose (f (name c))) l ++ [Next]
            end.

Lemma choosing_edits f base chosen rest edits : ∀ s,
  choosing f base chosen rest s → choosing f base chosen rest (run s (map EditText edits)).
Proof. unfold ModelPriceFile.run. induction edits as [|x edits IH]; intros s H; [done|]. by apply IH. Qed.

Lemma run_app s es es' : run s (es ++ es') = run (run s es) es'.
Proof. apply fold_left_app. Qed.

Lemma next_applies f base l s :
  l ≠ [] → choosing f base l [] s →
  pendingMerge (now (step s Next)) = None ∧
  jsonText (now (step s Next)) = stringifyPrettyJson locale_leb (VObj (sortModelPriceObject (fold_left resolve (map (answer f) l) base))).
Proof.
  intros Hl (skipped & duplicates & Hm & Hi). rewrite app_nil_r in Hm, Hi. simpl. unfold next_conflict. rewrite Hm.
  assert (unresolved (mk_merge base (map (answer f) l) skipped duplicates) = []) as Hu.
  { unfold unresolved. cbn [conflicts]. clear. induction l as [|c l IH]; [done | exact IH]. }
  assert (isLastConflict (now s) = true) as ->.
  { unfold isLastConflict. rewrite Hm, Hi. apply bool_decide_eq_true. cbn [conflicts]. rewrite length_map.
    destruct l as [|c l]; [done|]. cbn [length]. lia. }
  unfold hasUnresolvedConflicts. rewrite Hm, Hu. unfold handleApplyConflictChoices. by rewrite Hm, Hu.
Qed.

(** models are appended to a text: afterwards the text holds the models of both, with
    the data they had, the model of the text where both have the same, and where they
    differ that of the side that was chosen; nothing else changes, and what was typed
    into the text before the choices were done is not in it. *)
Theorem merge_meaning s current added c c' edits f :
  trim (appendJsonText (now s)) ≠ [] →
  normalizeModelPriceJson locale_leb (jsonText (now s)) = Some (current, c) →
  normalizeModelPriceJson locale_leb (wrapModelEntriesInput (appendJsonText (now s))) = Some (added, c') →
  json_ok (VObj current) = true → json_ok (VObj added) = true →
  let s' := run s (merging current added edits f) in
  pendingMerge (now s') = None ∧
  ∃ o, json_parse (jsonText (now s')) = Some (VObj o) ∧ ∀ k, option_Forall2 same (price_of current added f k) (get k o).
Proof.
  intros Ht Hcur Hadd Hc Ha. cbv zeta. pose proof (merged_base_ok _ _ Hc Ha) as Hb.
  assert (NoDup (keys added)) as Hn by (apply json_obj_inv in Ha as [Hs _]; by apply sorted_keys_NoDup).
  assert (∀ o, json_ok (VObj o) = true → (∀ k, option_Forall2 same (price_of current added f k) (get k o)) →
    ∃ o', json_parse (stringifyPrettyJson locale_leb (VObj (sortModelPriceObject o))) = Some (VObj o') ∧
      ∀ k, option_Forall2 same (price_of current added f k) (get k o')) as Hback.
  { intros o Ho Hp. destruct (pretty_back o Ho) as (o' & E & Hs). exists o'. split; [done|]. intros k.
    pose proof (proj1 (same_obj_inv _ _) Hs k) as H2. specialize (Hp k). by etransitivity. }
  assert (step s Append = append_models locale_leb current added c c' s) as E1.
  { simpl. unfold handleAppendModels. destruct (trim _); [done|]. by rewrite Hcur, Hadd. }
  unfold merging. destruct (conflicts_of current added) as [|c0 l0] eqn:El.
  - unfold ModelPriceFile.run. cbn [fold_left]. rewrite E1. unfold append_models. cbv zeta. rewrite El.
    assert (∀ k, option_Forall2 same (price_of current added f k) (get k (merged_base current added))) as Hr.
    { intros k. pose proof (resolved_prices current added f (merged_base current added) k Hn) as Hr. rewrite El in Hr. by apply Hr. }
    destruct (skipped_names _ _ _); unfold notifyNormalization; case_bool_decide; (split; [done | by apply Hback]).
  - rewrite <- El. assert (choosing f (sortModelPriceObject (merged_base current added)) [] (conflicts_of current added) (step s Append)) as H1.
    { rewrite E1. unfold append_models. cbv zeta. rewrite El. destruct (skipped_names _ _ _); eexists _, _; split; reflexivity. }
    change (run s (?e :: ?es)) with (run (step s e) es). rewrite !run_app.
    apply (choosing_edits f _ _ _ edits) in H1. apply choose_all in H1; [|by apply conflict_names]. rewrite app_nil_l in H1.
    change (run ?s0 [Next]) with (step s0 Next). apply next_applies in H1 as [H1 H2]; [|by rewrite El].
    split; [exact H1|]. rewrite H2. apply Hback.
    + apply (set_fold_ok (λ c, (name c, side_of c))); [by apply sort_object_ok | by apply conflict_sides_ok].
    + intros k. apply resolved_prices; [done|]. intros j. by apply sort_object_same.
Qed.
End merging.

(** A text with two models, to which one is appended with another price, and a new one;
    the new price is chosen. *)
Definition two_models : state :=
  mk_state (mk_view (j "{`m`: 1, `n`: 2}") (j "`m`: 3, `k`: 4,") None 0 true false) [] [] [].

Lemma merge_meaning_witness :
  let current := [(u "m", VNum (JsNumber.num_of_Z 1)); (u "n", VNum (JsNumber.num_of_Z 2))] in
  let added := [(u "k", VNum (JsNumber.num_of_Z 4)); (u "m", VNum (JsNumber.num_of_Z 3))] in
  let s' := run str_leb (λ x, x) two_models (merging str_leb current added [u "lost"] (λ _, Right)) in
  ∃ o, json_parse (jsonText (now s')) = Some (VObj o) ∧ prop (u "m") o = VNum (JsNumber.num_of_Z 3).
Proof.
  intros current added s'. destruct (merge_meaning str_leb (λ x, x) two_models current added (mk_stats 0 0 0) (mk_stats 0 0 0)
    [u "lost"] (λ _, Right)) as (_ & o & E & H).
  - vm_compute. discriminate.
  - vm_compute. reflexivity.
  - vm_compute. reflexivity.
  - vm_compute. reflexivity.
  - vm_compute. reflexivity.
  - exists o. split; [exact E|]. specialize (H (u "m")). unfold prop.
    assert (price_of str_leb current added (λ _, Right) (u "m") = Some (VNum (JsNumber.num_of_Z 3))) as Ep by (vm_compute; reflexivity).
    rewrite Ep in H. inversion H as [x y Hs E1 E2|]. apply same_scalar_inv in Hs; [|reflexivity]. rewrite <- Hs. reflexivity.
Defined.
