(* ===== verification/ApiClient.v ===== *)
(** * The client of the server's API
    [src/web/src/helpers/api.js]: the instance whose [get] joins the callers that ask
    for the same thing while it is in flight, its interceptors and its replacement,
    the redirects to OAuth providers, the cached lists of models; and [showError] of
    [utils.jsx], [secureApiCall.js]. *)

From Stdlib Require Import SpecFloat.
From stdpp Require Import base numbers option strings sets list gmap.
From S2P Require Import Prelude JsString JsNumber JsValue Json JsOps Session.

(** ** What an error shows *)

Inductive shown :=
  | ToastError (content : value) (id : jsstr)
  | ToastInfo (content : value)
  | ExpiredLogin.      (** the user is removed and the login page opened *)

(** ['k' in body] of an object *)
Definition has_key (k : string) (v : value) : bool :=
  match v with VObj o => match get (u k) o with Some _ => true | None => false end | _ => false end.

Definition offline_text : value := VStr (u "错误：无法连接到服务器，请确认后端已启动").

(** [showError]; [None] when the text of the error cannot be made. *)
Definition showError (error : value) : option shown :=
  let message := opt_read (u "message") error in
  if negb (truthy message) then text ← to_string error; Some (ToastError (VStr (u "错误：" ++ text)) [])
  else
    if negb (strict_eq (opt_read (u "name") error) (VStr (u "AxiosError"))) then
      text ← to_string message; Some (ToastError (VStr (u "错误：" ++ text)) [])
    else
      let response := opt_read (u "response") error in
      let status := opt_read (u "status") response in
      let body := opt_read (u "data") response in
      let isApiPayload := is_object_type body && (has_key "success" body || has_key "message" body) in
      let code := opt_read (u "code") error in
      let looksOffline := negb (truthy response) || strict_eq code (VStr (u "ERR_NETWORK")) ||
        strict_eq code (VStr (u "ECONNABORTED")) || (strict_eq status (VNum (num_of_Z 500)) && negb isApiPayload) in
      let status_is n := strict_eq status (VNum (num_of_Z n)) in
      if status_is 401%Z then Some ExpiredLogin
      else if status_is 429%Z then Some (ToastError (VStr (u "错误：请求次数过多，请稍后再试！")) (u "api-429"))
      else if status_is 500%Z then
        Some (if looksOffline then ToastError offline_text (u "api-offline")
              else ToastError (VStr (u "错误：服务器内部错误，请联系管理员！")) (u "api-500"))
      else if status_is 405%Z then Some (ToastInfo (VStr (u "本站仅作演示之用，无服务端！")))
      else if negb (truthy response) || looksOffline then Some (ToastError offline_text (u "api-offline"))
      else text ← to_string message; id ← to_string (value_or status (VStr (u "x")));
           Some (ToastError (VStr (u "错误：" ++ text)) (u "api-" ++ id)).

(** ** Requests in flight *)

Record config := mk_config { params : value; disableDuplicate : bool; skipErrorHandler : bool }.

(** [None] when [JSON.stringify] has nothing to print. *)
Definition genKey (url : jsstr) (c : config) : jsstr :=
  url ++ u "?" ++
  (if truthy (params c) then default (u "undefined") (json_stringify [] (params c)) else u "{}").

(** A request that the network has not answered.  [instance_of]: the number of the
    instance that sent it; [waiters]: the callers that hold its promise. *)
Record request := mk_request {
  instance_of : nat; key_of : option jsstr; skips : bool; waiters : list nat;
}.

(** [flights]: the maps [inFlightGetRequests] of the instances; [API] is the one
    numbered [current], and only the first has interceptors. *)
Record state := mk_state {
  current : nat;
  flights : gmap (nat * jsstr) nat;
  requests : gmap nat request;
  next : nat;
}.

Inductive answer := Fulfilled (res : value) | Rejected (error : value).

Inductive effect :=
  | Send (id : nat) (url : jsstr) (authorized : bool)
  | Deliver (caller : nat) (a : answer)
  | Toast (error : value).

Inductive event :=
  | Get (caller : nat) (url : jsstr) (c : config)    (** [API.get(url, config)] *)
  | Settle (id : nat) (a : answer)                   (** the network answers *)
  | Update.                                          (** [updateAPI()] *)

Definition intercepted (instance : nat) : bool := (instance =? 0)%nat.

Definition originalGet (caller : nat) (url : jsstr) (key : option jsstr) (c : config) (s : state) : state * list effect :=
  let r := mk_request (current s) key (skipErrorHandler c) [caller] in
  let flights' := match key with Some k => <[(current s, k) := next s]> (flights s) | None => flights s end in
  (mk_state (current s) flights' (<[next s := r]> (requests s)) (S (next s)),
   [Send (next s) url (intercepted (current s))]).

Definition join_request (caller id : nat) (s : state) : state :=
  mk_state (current s) (flights s)
    (alter (λ r, mk_request (instance_of r) (key_of r) (skips r) (waiters r ++ [caller])) id (requests s)) (next s).

Definition get (caller : nat) (url : jsstr) (c : config) (s : state) : state * list effect :=
  if disableDuplicate c then originalGet caller url None c s
  else
    let key := genKey url c in
    match flights s !! (current s, key) with
    | Some id => (join_request caller id s, [])
    | None => originalGet caller url (Some key) c s
    end.

(** The [finally] of the request, the interceptor, and the promise's callers. *)
Definition settle (id : nat) (a : answer) (s : state) : state * list effect :=
  match requests s !! id with
  | None => (s, [])
  | Some r =>
      let flights' := match key_of r with Some k => delete (instance_of r, k) (flights s) | None => flights s end in
      (mk_state (current s) flights' (delete id (requests s)) (next s),
       match a with
       | Rejected error => if intercepted (instance_of r) && negb (skips r) then [Toast error] else []
       | Fulfilled _ => []
       end ++ map (λ c, Deliver c a) (waiters r))
  end.

Definition updateAPI (s : state) : state := mk_state (S (current s)) (flights s) (requests s) (next s).

Definition step (s : state) (e : event) : state * list effect :=
  match e with
  | Get caller url c => get caller url c s
  | Settle id a => settle id a s
  | Update => (updateAPI s, [])
  end.

Fixpoint run (s : state) (es : list event) : state * list effect :=
  match es with
  | [] => (s, [])
  | e :: es => let '(s, out) := step s e in let '(s, outs) := run s es in (s, out ++ outs)
  end.

Definition init : state := mk_state 0 ∅ ∅ 0.

(** ** The specification: groups of callers *)

Module Spec.
(** The callers that wait together for what a key names, by instance; those of a
    request of its own, by request. *)
Record group := mk_group { request_id : nat; quiet : bool; callers : list nat }.
Record spec := mk_spec {
  generation : nat; shared : gmap (nat * jsstr) group; alone : gmap nat (nat * group); fresh : nat;
}.

Inductive which := Shared (generation : nat) (key : jsstr) | Alone (id : nat).
Inductive event := Ask (caller : nat) (url : jsstr) (c : config) | Answer (w : which) (a : answer) | Renew | Nothing.

Definition outcome (generation : nat) (g : group) (a : answer) : list effect :=
  match a with
  | Rejected error => if intercepted generation && negb (quiet g) then [Toast error] else []
  | Fulfilled _ => []
  end ++ map (λ c, Deliver c a) (callers g).

Definition step (s : spec) (e : event) : spec * list effect :=
  match e with
  | Ask caller url c =>
      let g := mk_group (fresh s) (skipErrorHandler c) [caller] in
      let send := [Send (fresh s) url (intercepted (generation s))] in
      if disableDuplicate c
      then (mk_spec (generation s) (shared s) (<[fresh s := (generation s, g)]> (alone s)) (S (fresh s)), send)
      else
        let k := (generation s, genKey url c) in
        match shared s !! k with
        | Some g' => (mk_spec (generation s)
            (<[k := mk_group (request_id g') (quiet g') (callers g' ++ [caller])]> (shared s)) (alone s) (fresh s), [])
        | None => (mk_spec (generation s) (<[k := g]> (shared s)) (alone s) (S (fresh s)), send)
        end
  | Answer (Shared n k) a =>
      match shared s !! (n, k) with
      | Some g => (mk_spec (generation s) (delete (n, k) (shared s)) (alone s) (fresh s), outcome n g a)
      | None => (s, [])
      end
  | Answer (Alone id) a =>
      match alone s !! id with
      | Some (n, g) => (mk_spec (generation s) (shared s) (delete id (alone s)) (fresh s), outcome n g a)
      | None => (s, [])
      end
  | Renew => (mk_spec (S (generation s)) (shared s) (alone s) (fresh s), [])
  | Nothing => (s, [])
  end.

Fixpoint run (s : spec) (es : list event) : spec * list effect :=
  match es with
  | [] => (s, [])
  | e :: es => let '(s, out) := step s e in let '(s, outs) := run s es in (s, out ++ outs)
  end.

Definition init : spec := mk_spec 0 ∅ ∅ 0.
End Spec.

(** *** Refinement *)

(** What an event is for the groups. *)
Definition spec_event (s : state) (e : event) : Spec.event :=
  match e with
  | Get caller url c => Spec.Ask caller url c
  | Settle id a =>
      match requests s !! id with
      | Some r => Spec.Answer (match key_of r with Some k => Spec.Shared (instance_of r) k | None => Spec.Alone id end) a
      | None => Spec.Nothing
      end
  | Update => Spec.Renew
  end.

Fixpoint spec_events (s : state) (es : list event) : list Spec.event :=
  match es with [] => [] | e :: es => spec_event s e :: spec_events (step s e).1 es end.

Definition group_at (id : nat) (r : request) : Spec.group := Spec.mk_group id (skips r) (waiters r).

Record sim (s : state) (a : Spec.spec) : Prop := {
  sim_generation : Spec.generation a = current s;
  sim_fresh : Spec.fresh a = next s;
  sim_flights : ∀ n k id, flights s !! (n, k) = Some id ↔
    ∃ r, requests s !! id = Some r ∧ instance_of r = n ∧ key_of r = Some k;
  sim_shared : ∀ nk, Spec.shared a !! nk = id ← flights s !! nk; group_at id <$> requests s !! id;
  sim_alone : ∀ id, Spec.alone a !! id = r ← requests s !! id;
    match key_of r with None => Some (instance_of r, group_at id r) | Some _ => None end;
  sim_next : ∀ id, is_Some (requests s !! id) → (id < next s)%nat;
}.

Lemma sim_init : sim init Spec.init.
Proof.
  split; try done.
  - intros n k id. simpl. rewrite lookup_empty. split; [done|]. intros (r & H & _). by rewrite lookup_empty in H.
  - intros id. simpl. rewrite lookup_empty. by intros [? ?].
Qed.

Lemma sim_originalGet caller url key c s a :
  sim s a → (∀ k, key = Some k → flights s !! (current s, k) = None) →
  let g := Spec.mk_group (next s) (skipErrorHandler c) [caller] in
  let a' := match key with
    | Some k => Spec.mk_spec (current s) (<[(current s, k) := g]> (Spec.shared a)) (Spec.alone a) (S (next s))
    | None => Spec.mk_spec (current s) (Spec.shared a) (<[next s := (current s, g)]> (Spec.alone a)) (S (next s))
    end in
  sim (originalGet caller url key c s).1 a'.
Proof.
  intros [H1 H2 H3 H4 H5 H6] Hk g a'. unfold originalGet. simpl.
  set (r := mk_request _ _ _ _).
  assert (requests s !! next s = None) as Hnone.
  { destruct (requests s !! next s) eqn:E; [|done]. assert (next s < next s)%nat by (apply H6; by rewrite E). lia. }
  assert (∀ nk id, flights s !! nk = Some id → id ≠ next s) as Hold.
  { intros [n k] id Hf. apply H3 in Hf as (r' & Hr' & _). assert (id < next s)%nat by (apply H6; by rewrite Hr'). lia. }
  split; simpl.
  - by destruct key.
  - by destruct key.
  - intros n k id. destruct (decide (id = next s)) as [->|Hid].
    + rewrite lookup_insert_eq. destruct key as [k0|]; simpl.
      * rewrite lookup_insert_Some. split.
        -- intros [[E _]|[_ Hf]]; [|by apply Hold in Hf]. injection E as <- <-. by exists r.
        -- intros (r' & E & <- & Ek). injection E as <-. simpl in Ek. injection Ek as ->. by left.
      * split; [by intros Hf; apply Hold in Hf|]. intros (r' & E & _ & Ek). injection E as <-. done.
    + rewrite lookup_insert_ne by done. destruct key as [k0|]; [|apply H3].
      rewrite lookup_insert_Some, H3. split.
      * intros [[_ E]|[_ Hf]]; [by rewrite E in Hid|exact Hf].
      * intros Hf. right. split; [|exact Hf]. intros E. injection E as <- <-.
        assert (flights s !! (current s, k0) = Some id) as Hf' by (by apply H3). by rewrite (Hk k0) in Hf'.
  - intros [n k]. destruct key as [k0|]; simpl.
    + destruct (decide ((current s, k0) = (n, k))) as [E|E].
      * rewrite E, !lookup_insert_eq. simpl. by rewrite lookup_insert_eq.
      * rewrite !(lookup_insert_ne _ _ _ _ E), H4.
        destruct (flights s !! (n, k)) as [id|] eqn:Ef; [|done]. simpl.
        rewrite lookup_insert_ne; [done|]. apply Hold in Ef. congruence.
    + rewrite H4. destruct (flights s !! (n, k)) as [id|] eqn:Ef; [|done]. simpl.
      rewrite lookup_insert_ne; [done|]. apply Hold in Ef. congruence.
  - intros id. destruct (decide (id = next s)) as [->|Hid].
    + rewrite lookup_insert_eq. destruct key as [k0|]; simpl; [by rewrite H5, Hnone | by rewrite lookup_insert_eq].
    + rewrite lookup_insert_ne by done. destruct key as [k0|]; simpl; [apply H5|].
      rewrite lookup_insert_ne by done. apply H5.
  - intros id. destruct (decide (id = next s)) as [->|Hid]; [lia|]. rewrite lookup_insert_ne by done.
    intros H%H6. lia.
Qed.

(** A request's key and instance are those under which it is in flight. *)
Lemma sim_unique s a n k n' k' id :
  sim s a → flights s !! (n, k) = Some id → flights s !! (n', k') = Some id → (n, k) = (n', k').
Proof.
  intros H (r & E & <- & Ek)%(sim_flights _ _ H) (r' & E' & <- & Ek')%(sim_flights _ _ H). congruence.
Qed.

Lemma sim_join caller id n k s a r :
  sim s a → flights s !! (n, k) = Some id → requests s !! id = Some r →
  sim (join_request caller id s)
    (Spec.mk_spec (current s) (<[(n, k) := Spec.mk_group id (skips r) (waiters r ++ [caller])]> (Spec.shared a))
       (Spec.alone a) (next s)).
Proof.
  intros H Hf Hr. pose proof H as [H1 H2 H3 H4 H5 H6].
  set (r' := mk_request (instance_of r) (key_of r) (skips r) (waiters r ++ [caller])).
  assert (∀ i, requests (join_request caller id s) !! i = if decide (i = id) then Some r' else requests s !! i) as Hreq.
  { intros i. simpl. case_decide; [subst; by rewrite lookup_alter_eq, Hr | by rewrite lookup_alter_ne]. }
  split; try done.
  - intros n' k' i. rewrite Hreq. simpl. rewrite H3. case_decide as E; [subst i|done].
    rewrite Hr. split; intros (x & E & ? & ?); injection E as <-; [by exists r' | by exists r].
  - intros [n' k']. simpl flights. simpl Spec.shared. destruct (decide ((n, k) = (n', k'))) as [E|E].
    + rewrite <- E, lookup_insert_eq, Hf. cbn [mbind option_bind]. rewrite Hreq. by rewrite decide_True.
    + rewrite lookup_insert_ne by done. rewrite H4. destruct (flights s !! (n', k')) as [i|] eqn:Ef; [|done].
      cbn [mbind option_bind]. rewrite Hreq, decide_False; [done|]. intros ->.
      by apply E, (sim_unique s a n k n' k' id H).
  - intros i. rewrite Hreq. simpl Spec.alone. rewrite H5. case_decide as E; [subst i|done]. rewrite Hr. simpl.
    apply H3 in Hf as (x & Ex & _ & Ek). rewrite Hr in Ex. injection Ex as <-. by rewrite Ek.
  - intros i. rewrite Hreq. case_decide as E; [subst i; intros _|]; apply H6. by rewrite Hr.
Qed.

Lemma sim_settle id r s a :
  sim s a → requests s !! id = Some r →
  sim (mk_state (current s)
        match key_of r with Some k => delete (instance_of r, k) (flights s) | None => flights s end
        (delete id (requests s)) (next s))
    match key_of r with
    | Some k => Spec.mk_spec (current s) (delete (instance_of r, k) (Spec.shared a)) (Spec.alone a) (next s)
    | None => Spec.mk_spec (current s) (Spec.shared a) (delete id (Spec.alone a)) (next s)
    end.
Proof.
  intros H Hr. pose proof H as [H1 H2 H3 H4 H5 H6].
  assert (∀ n k, flights s !! (n, k) = Some id ↔ key_of r = Some k ∧ instance_of r = n) as Hid.
  { intros n k. rewrite H3. split; [intros (x & E & ? & ?) | intros [? ?]; exists r; auto].
    rewrite Hr in E. by injection E as <-. }
  assert (∀ n k i, (match key_of r with Some k => delete (instance_of r, k) (flights s) | None => flights s end) !! (n, k) = Some i ↔
    flights s !! (n, k) = Some i ∧ i ≠ id) as Hdel.
  { intros n k i. destruct (key_of r) as [k0|] eqn:Ek.
    - rewrite lookup_delete_Some. split; intros [Ha Hb]; split; try done.
      + intros ->. apply Hid in Hb as [E <-]. injection E as ->. done.
      + intros E. injection E as <- <-. assert (flights s !! (instance_of r, k0) = Some id) as Hf by (by apply Hid).
        congruence.
    - split; [|by intros [? _]]. intros Hf. split; [done|]. intros ->. by apply Hid in Hf as [? _]. }
  split; simpl.
  - by destruct (key_of r).
  - by destruct (key_of r).
  - intros n k i. rewrite Hdel, H3. destruct (decide (i = id)) as [->|Hne].
    + rewrite lookup_delete_eq. split; [by intros [_ ?] | by intros (? & ? & _)].
    + rewrite lookup_delete_ne by done. tauto.
  - intros [n k].
    assert ((match key_of r with
      | Some k => Spec.mk_spec (current s) (delete (instance_of r, k) (Spec.shared a)) (Spec.alone a) (next s)
      | None => Spec.mk_spec (current s) (Spec.shared a) (delete id (Spec.alone a)) (next s) end).(Spec.shared) !! (n, k) =
      if decide (flights s !! (n, k) = Some id) then None else Spec.shared a !! (n, k)) as ->.
    { destruct (key_of r) as [k0|] eqn:Ek; simpl; case_decide as Ef.
      - apply Hid in Ef as [E <-]. injection E as ->. apply lookup_delete_eq.
      - apply lookup_delete_ne. intros E. injection E as <- <-. by apply Ef, Hid.
      - by apply Hid in Ef as [? _].
      - done. }
    match goal with |- _ = ?m !! _ ≫= _ => destruct (m !! (n, k)) as [i|] eqn:Ei end.
    + apply Hdel in Ei as [Ei Hne]. rewrite decide_False by congruence. rewrite H4, Ei. simpl.
      by rewrite lookup_delete_ne.
    + case_decide as Ef; [done|]. rewrite H4. destruct (flights s !! (n, k)) as [i|] eqn:Ei'; [|done].
      exfalso. assert (i ≠ id) by congruence. by rewrite (proj2 (Hdel n k i)) in Ei.
  - intros i. destruct (decide (i = id)) as [->|Hne].
    + rewrite lookup_delete_eq. destruct (key_of r) eqn:Ek; simpl; [by rewrite H5, Hr; simpl; rewrite Ek | by rewrite lookup_delete_eq].
    + rewrite lookup_delete_ne by done. destruct (key_of r) eqn:Ek; simpl; [apply H5 | rewrite lookup_delete_ne by done; apply H5].
  - intros i. destruct (decide (i = id)) as [->|Hne]; [rewrite lookup_delete_eq; by intros [? ?]|].
    rewrite lookup_delete_ne by done. apply H6.
Qed.

Lemma sim_step s a e :
  sim s a →
  sim (step s e).1 (Spec.step a (spec_event s e)).1 ∧ (step s e).2 = (Spec.step a (spec_event s e)).2.
Proof.
  intros H. destruct e as [caller url c|id ans|]; simpl.
  - unfold get. destruct (disableDuplicate c) eqn:Ed.
    + rewrite (sim_generation _ _ H), (sim_fresh _ _ H). split; [|done].
      by apply (sim_originalGet caller url None c s a H).
    + rewrite (sim_generation _ _ H), (sim_fresh _ _ H), (sim_shared _ _ H).
      destruct (flights s !! (current s, genKey url c)) as [id|] eqn:Ef; simpl.
      * pose proof (proj1 (sim_flights _ _ H _ _ _) Ef) as (r & Hr & _). rewrite Hr. simpl.
        split; [|done]. by apply sim_join.
      * split; [|done]. apply (sim_originalGet caller url (Some (genKey url c)) c s a H). by intros k [= <-].
  - unfold settle. destruct (requests s !! id) as [r|] eqn:Hr; [|done].
    pose proof (sim_settle id r s a H Hr) as Hs. simpl. destruct (key_of r) as [k|] eqn:Ek.
    + assert (flights s !! (instance_of r, k) = Some id) as Hf by (apply (sim_flights _ _ H); eauto).
      rewrite (sim_shared _ _ H), Hf. simpl. rewrite Hr. simpl.
      rewrite (sim_generation _ _ H), (sim_fresh _ _ H). split; [exact Hs | done].
    + rewrite (sim_alone _ _ H), Hr. simpl. rewrite Ek.
      rewrite (sim_generation _ _ H), (sim_fresh _ _ H). split; [exact Hs | done].
  - destruct H as [H1 H2 H3 H4 H5 H6]. split; [|done]. split; simpl; auto.
Qed.

Lemma sim_run s a es :
  sim s a → (run s es).2 = (Spec.run a (spec_events s es)).2 ∧ sim (run s es).1 (Spec.run a (spec_events s es)).1.
Proof.
  revert s a. induction es as [|e es IH]; intros s a H; [done|]. simpl.
  destruct (sim_step s a e H) as [H1 H2]. destruct (step s e) as [s1 out], (Spec.step a _) as [a1 out'].
  simpl in *. subst out'. destruct (IH s1 a1 H1) as [H3 H4].
  destruct (run s1 es) as [s2 outs], (Spec.run a1 _) as [a2 outs']. simpl in *. subst outs'. done.
Qed.

(** C5: the [get] of the instances, with its maps of promises, refines keeping one
    group of callers per instance and key: whatever is asked and answered, in any
    order, it sends exactly the requests, delivers exactly the answers and shows
    exactly the errors that the groups do, and the promises in flight are the groups. *)
Theorem get_refines_groups es :
  (run init es).2 = (Spec.run Spec.init (spec_events init es)).2 ∧
  sim (run init es).1 (Spec.run Spec.init (spec_events init es)).1.
Proof. apply sim_run, sim_init. Qed.
