(* ===== verification/OAuth.v ===== *)
(** * Logging in elsewhere, model lists and token keys
    The rest of [src/web/src/helpers/api.js] (the state that is asked for before a
    redirect to an OAuth provider, the redirects, the cached lists of models) and
    [token.js], [secureApiCall.js]. *)

From Stdlib Require Import SpecFloat.
From stdpp Require Import base numbers option strings sets list.
From S2P Require Import Prelude JsString JsNumber JsValue Json JsOps Session.

(** ** OAuth *)

Inductive provider :=
  | Discord (client_id : value)
  | OIDC (auth_url client_id : value) (openInNewTab : bool)
  | GitHub (client_id : value)
  | LinuxDO (client_id : value)
  | Custom (provider : value).

(** A suspended click: the best-effort logout, then the state of the login. *)
Inductive phase := LoggingOut | AwaitingState.

Inductive effect :=
  | Get (url : jsstr) (skipErrorHandler : bool)
  | UpdateAPI
  | ShowError (v : value)
  | Open (url : jsstr)
  | Assign (url : jsstr)
  | Unhandled (v : value).

Record state := mk_state { local : storage; flows : list (provider * phase); log : list effect }.

Definition emit (e : effect) (s : state) : state := mk_state (local s) (flows s) (e :: log s).
Definition suspend (p : provider) (ph : phase) (s : state) : state := mk_state (local s) (flows s ++ [(p, ph)]) (log s).

Section oauth.
(** [make_url]: the [URL] of the platform with its [searchParams] set, [None] when the
    text is no URL. *)
Context (origin : jsstr) (make_url : jsstr → list (jsstr * jsstr) → option jsstr) (engine_error : value).

(** [getOAuthState] up to its [await]. *)
Definition getOAuthState (p : provider) (s : state) : state :=
  let path := u "/api/oauth/state" ++
    match stored "aff" (local s) with Some affCode => u "?aff=" ++ affCode | None => [] end in
  suspend p AwaitingState (emit (Get path false) s).

Definition prepareOAuthState (p : provider) (shouldLogout : bool) (s : state) : state :=
  if shouldLogout then suspend p LoggingOut (emit (Get (u "/api/user/logout") true) s) else getOAuthState p s.

(** After the logout, whether it failed or not. *)
Definition logged_out (p : provider) (s : state) : state :=
  getOAuthState p (emit UpdateAPI (mk_state (removeItem "user" (local s)) (flows s) (log s))).

Definition authorize_params (client_id redirect_uri scope st : jsstr) : list (jsstr * jsstr) :=
  [(u "client_id", client_id); (u "redirect_uri", redirect_uri); (u "response_type", u "code");
   (u "scope", scope); (u "state", st)].

(** The address of a provider; [None] when something throws. *)
Definition redirect_url (p : provider) (st : value) : option jsstr :=
  st ← to_string st;
  match p with
  | Discord id =>
      id ← to_string id;
      Some (u "https://discord.com/oauth2/authorize?client_id=" ++ id ++ u "&redirect_uri=" ++ origin ++
        u "/oauth/discord&response_type=code&scope=identify+openid&state=" ++ st)
  | OIDC auth_url id _ =>
      auth_url ← to_string auth_url; id ← to_string id;
      make_url auth_url (authorize_params id (origin ++ u "/oauth/oidc") (u "openid profile email") st)
  | GitHub id =>
      id ← to_string id;
      Some (u "https://github.com/login/oauth/authorize?client_id=" ++ id ++ u "&state=" ++ st ++ u "&scope=user:email")
  | LinuxDO id =>
      id ← to_string id;
      Some (u "https://connect.linux.do/oauth2/authorize?response_type=code&client_id=" ++ id ++ u "&state=" ++ st)
  | Custom p =>
      slug ← read (u "slug") p ≫= to_string;
      endpoint ← match opt_read (u "authorization_endpoint") p with VStr e => Some e | _ => None end;
      id ← to_string (opt_read (u "client_id") p);
      scope ← to_string (value_or (opt_read (u "scopes") p) (VStr (u "openid profile email")));
      make_url endpoint (authorize_params id (origin ++ u "/oauth/" ++ slug) scope st)
  end.

(** A custom provider without a full address. *)
Definition relative_endpoint (p : value) : bool :=
  match read (u "slug") p ≫= to_string, opt_read (u "authorization_endpoint") p with
  | Some _, VStr e => negb (starts_with e (u "http://") || starts_with e (u "https://"))
  | _, _ => false
  end.

Definition redirectToOAuthUrl (url : jsstr) (openInNewTab : bool) (s : state) : state :=
  emit (if openInNewTab then Open url else Assign url) s.

(** The rest of a click once the state is known. *)
Definition redirect (p : provider) (st : value) (s : state) : state :=
  if negb (truthy st) then s
  else match p with
  | Custom c =>
      if relative_endpoint c
      then emit (ShowError (VStr (u "OAuth 配置错误：授权端点必须是完整的 URL（以 http:// 或 https:// 开头）"))) s
      else match redirect_url p st with
      | Some url => redirectToOAuthUrl url false s
      | None =>
          let message := value_or (opt_read (u "message") engine_error) (VStr (u "未知错误")) in
          match to_string message with
          | Some text => emit (ShowError (VStr (u "OAuth 登录失败：" ++ text))) s
          | None => emit (Unhandled engine_error) s
          end
      end
  | _ =>
      match redirect_url p st with
      | Some url => redirectToOAuthUrl url match p with OIDC _ _ b => b | _ => false end s
      | None => emit (Unhandled engine_error) s
      end
  end.

(** The answer of [/api/oauth/state]. *)
Definition state_answered (p : provider) (res : value) (s : state) : state :=
  match read (u "data") res ≫= λ d, x ← read (u "success") d; Some (d, x) with
  | None => emit (Unhandled engine_error) s
  | Some (data, success) =>
      if truthy success then redirect p (opt_read (u "data") data) s
      else emit (ShowError (opt_read (u "message") data)) s
  end.

Inductive event :=
  | Click (p : provider) (shouldLogout : bool)
  | Answer (i : nat) (res : value)
  | Failure (i : nat) (error : value).

Definition take_flow (i : nat) (s : state) : state := mk_state (local s) (delete i (flows s)) (log s).

Definition step (s : state) (e : event) : state :=
  match e with
  | Click p shouldLogout => prepareOAuthState p shouldLogout s
  | Answer i res =>
      match flows s !! i with
      | Some (p, LoggingOut) => logged_out p (take_flow i s)
      | Some (p, AwaitingState) => state_answered p res (take_flow i s)
      | None => s
      end
  | Failure i error =>
      match flows s !! i with
      | Some (p, LoggingOut) => logged_out p (take_flow i s)
      | Some (p, AwaitingState) => emit (Unhandled error) (take_flow i s)
      | None => s
      end
  end.

Definition run (s : state) (es : list event) : state := fold_left step es s.

(** The page is left only on a successful answer that carries a state. *)
Lemma leaves_with_state s e url :
  log (step s e) = Assign url :: log s →
  ∃ i res p, e = Answer i res ∧ flows s !! i = Some (p, AwaitingState) ∧
    truthy (opt_read (u "success") (opt_read (u "data") res)) = true ∧
    redirect_url p (opt_read (u "data") (opt_read (u "data") res)) = Some url.
Proof.
  assert (∀ (x y : effect) l, x ≠ y → x :: l = y :: l → False) as Hne by (intros x y l Hn [= E]; done).
  assert (∀ p s0, log (getOAuthState p s0) = Assign url :: log s0 → False) as Hget by (intros p s0 [= E]).
  intros H. destruct e as [p b|i res|i error]; simpl in H.
  - unfold prepareOAuthState in H. by destruct b.
  - destruct (flows s !! i) as [[p []]|] eqn:Ef.
    + simpl in H. apply (f_equal length) in H. simpl in H. lia.
    + exists i, res, p. split; [done|]. split; [done|]. unfold state_answered in H.
      destruct (read (u "data") res) as [data|] eqn:Ed; [|by injection H].
      assert (opt_read (u "data") res = data) as -> by (unfold opt_read; by rewrite Ed). cbn [mbind option_bind] in H.
      destruct (read (u "success") data) as [ok|] eqn:Es; [|by injection H].
      assert (opt_read (u "success") data = ok) as -> by (unfold opt_read; by rewrite Es). cbn [mbind option_bind] in H.
      destruct (truthy ok); [|by injection H]. split; [done|]. unfold redirect in H.
      destruct (negb _); [apply (f_equal length) in H; simpl in H; lia|].
      assert (∀ o b, log (match o with Some url => redirectToOAuthUrl url b (take_flow i s) | None => emit (Unhandled engine_error) (take_flow i s) end)
        = Assign url :: log s → o = Some url) as Ho by (by intros [x|] [] [= ->]).
      destruct p; try (by apply (Ho _ _ H)).
      destruct (relative_endpoint provider0); [by injection H|].
      destruct (redirect_url _ _) as [x|]; [by injection H as -> | by destruct (to_string _)].
    + apply (f_equal length) in H. simpl in H. lia.
  - destruct (flows s !! i) as [[p []]|].
    + simpl in H. apply (f_equal length) in H. simpl in H. lia.
    + by injection H.
    + apply (f_equal length) in H. simpl in H. lia.
Qed.
End oauth.

(** ** Cached lists of models *)

(** [channelModels], and the copy in the local storage. *)
Definition models_answered (res : value) (cache : option value) (s : storage) : option (option value * storage) :=
  data ← read (u "data") res; success ← read (u "success") data;
  Some (if truthy success
        then (Some (opt_read (u "data") data), setJson "channel_models" (opt_read (u "data") data) s)
        else (cache, s)).

(** [type in models]: [None] when it is no object. *)
Definition key_in (k : jsstr) (v : value) : option bool :=
  match v with
  | VObj _ | VArr _ => Some (match get k (own_entries v) with Some _ => true | None => false end)
  | _ => None
  end.

(** The models of a type, and the cache; [None] when it throws. *)
Definition getChannelModels (type : jsstr) (cache : option value) (s : storage) : option (value * option value) :=
  let from_storage :=
    match stored "channel_models" s with
    | None => Some (VArr [], cache)
    | Some text =>
        models ← json_parse text; found ← key_in type models;
        Some (if (found : bool) then prop type (own_entries models) else VArr [], Some models)
    end in
  match cache with
  | Some VUndef | None => from_storage
  | Some models =>
      match key_in type models with
      | None => None
      | Some true => Some (value_or (prop type (own_entries models)) (VArr []), cache)
      | Some false => from_storage
      end
  end.

(** ** Token keys *)

Inductive key_result := Key (v : value) | NoKey (message : value).

(** The answer for one token; [None] is an error of the engine. *)
Definition fetchTokenKey (res : value) : option key_result :=
  data ← read (u "data") res;
  let data := value_or data (VObj []) in
  let key := opt_read (u "key") (opt_read (u "data") data) in
  Some (if truthy (opt_read (u "success") data) && truthy key then Key key
        else NoKey (value_or (opt_read (u "message") data) (VStr (u "Failed to fetch token key")))).

(** The tokens whose keys are asked for; [None] is caught and gives no key. *)
Definition active_tokens (res : value) : option (list value) :=
  data ← read (u "data") res; success ← read (u "success") data;
  if truthy success then
    let items := opt_read (u "data") data in
    list ← match items with
      | VArr l => Some l
      | _ => x ← read (u "items") items;
             match value_or x (VArr []) with VArr l => Some l | _ => None end
      end;
    statuses ← mapM (read (u "status")) list;
    Some (map fst (filter (λ ts, strict_eq ts.2 (VNum (num_of_Z 1)) = true) (zip list statuses)))
  else None.

(** [Promise.allSettled] of the requests, and what is kept of it. *)
Definition token_keys (results : list (option key_result)) : list value :=
  omap (λ r, match r with Some (Key v) => if truthy v then Some v else None | _ => None end) results.

(** ** Errors that ask for a verification *)

Definition verificationCodes : list jsstr :=
  map u ["VERIFICATION_REQUIRED"; "VERIFICATION_EXPIRED"; "VERIFICATION_INVALID"]%string.

Definition isVerificationRequiredError (error : value) : bool :=
  let response := opt_read (u "response") error in
  let data := opt_read (u "data") response in
  truthy response && strict_eq (opt_read (u "status") response) (VNum (num_of_Z 403)) && truthy data &&
  existsb (λ c, strict_eq (opt_read (u "code") data) (VStr c)) verificationCodes.

Definition extractVerificationInfo (error : value) : props :=
  let data := value_or (opt_read (u "data") (opt_read (u "response") error)) (VObj []) in
  [(u "code", opt_read (u "code") data);
   (u "message", value_or (opt_read (u "message") data) (VStr (u "需要安全验证")));
   (u "required", VBool true)].
