(* ===== verification/ChannelForm.v ===== *)
(** * The form of a channel
    [src/web/src/components/table/channels/modals/EditChannelModal.jsx]: what the
    dialog makes of a channel it has loaded and what it writes when it saves, as
    functions on the data.  The dialog itself is in [ChannelModal]. *)

From Stdlib Require Import SpecFloat.
From stdpp Require Import base numbers option strings sets list.
From S2P Require Import Prelude JsString JsNumber JsValue Json JsOps Session StatusCodeRisk ParamOverride.

Definition n (z : Z) : value := VNum (num_of_Z z).

(** ** The redirection of parameters *)

(** [/^body\./i.test(p)] and [/^body$/i.test(p)] *)
Definition has_body_prefix (p : jsstr) : bool := bool_decide (ascii_lower (take 5 p) = u "body.").
Definition is_body (p : jsstr) : bool := bool_decide (ascii_lower p = u "body").

(** Of a path that is a text. *)
Definition stripBodyPrefix (path : jsstr) : jsstr :=
  let p := trim path in
  if has_body_prefix p then drop 5 p else if is_body p then [] else p.

(** [None]: the path cannot be converted to a text. *)
Definition formatBodyPath (path : value) : option jsstr :=
  text ← to_string (value_or path (VStr []));
  let p := trim text in
  Some match p with
  | [] => u "body"
  | _ => if is_body p || has_body_prefix p then p else u "body." ++ p
  end.

(** The operations of a parsed text. *)
Definition operations_of (parsed : value) : option (list value) :=
  match parsed with
  | VArr l => Some l
  | _ => match opt_read (u "operations") parsed with VArr l => Some l | _ => None end
  end.

Definition plain_copy (op : value) : bool :=
  strict_eq (opt_read (u "mode") op) (VStr (u "copy")) && truthy (opt_read (u "from") op) && truthy (opt_read (u "to") op).

Definition copy_line (op : value) : option jsstr :=
  to ← formatBodyPath (opt_read (u "to") op); from ← formatBodyPath (opt_read (u "from") op);
  Some (to ++ u " = " ++ from).

(** The lines of a text that only copies; [None]: it is shown as it is. *)
Definition copy_lines (parsed : option value) : option jsstr :=
  ops ← parsed ≫= operations_of;
  match ops with
  | [] => None
  | _ => if forallb plain_copy ops then lines ← mapM copy_line ops; Some (join [10%N] lines) else None
  end.

Definition paramOverrideToDisplay (raw : value) : jsstr :=
  match raw with
  | VUndef | VNull => []
  | _ =>
      let text := match raw with VStr s => trim s | _ => ser [] [] raw end in
      if decide (text = [] ∨ text = u "{}") then []
      else
        let parsed := if is_object_type raw then Some raw else json_parse text in
        default (match raw with VStr s => s | _ => text end) (copy_lines parsed)
  end.

Definition json_like (text : jsstr) : bool := starts_with text [123%N] || starts_with text [91%N].

(** A line [to = from]; [None] throws. *)
Definition parse_copy (line : jsstr) : option value :=
  eq ← index_of 61 line;
  let to := stripBodyPrefix (take eq line) in
  let from := stripBodyPrefix (drop (S eq) line) in
  if (0 <? eq)%nat && str_truthy to && str_truthy from
  then Some (VObj [(u "mode", VStr (u "copy")); (u "from", VStr from); (u "to", VStr to)]) else None.

Definition operations_text (ops : list value) : jsstr := ser [] [] (VObj [(u "operations", VArr ops)]).

(** [None]: the text of the form is not understood. *)
Definition displayToParamOverride (text : value) : option jsstr :=
  trimmed ← match value_or text (VStr []) with VStr s => Some (trim s) | _ => None end;
  match trimmed with
  | [] => Some []
  | _ =>
      if json_like trimmed then Some trimmed
      else
        let lines := List.filter (λ l, str_truthy l && negb (starts_with l [35%N])) (map trim (split_on 10 trimmed)) in
        ops ← mapM parse_copy lines; Some (operations_text ops)
  end.

(** ** Loading *)

Definition set_all (l : list (string * value)) (o : props) : props := fold_left (λ o kv, set (u kv.1) kv.2 o) l o.

(** [v === '' ? \[\] : v.split(',')] *)
Definition split_list (v : value) : option value :=
  match v with
  | VStr [] => Some (VArr [])
  | VStr s => Some (VArr (map VStr (split_on 44 s)))
  | _ => None
  end.

Definition parse_text (v : value) : option value := to_string v ≫= json_parse.

(** [data.settings]: a text that is no JSON leaves the defaults. *)
Definition read_settings (data : props) : props :=
  let settings := prop (u "settings") data in
  if truthy settings then
    match parsed ← parse_text settings; azure ← read (u "azure_responses_version") parsed; Some (parsed, azure) with
    | Some (parsed, azure) =>
        set_all [("azure_responses_version", value_or azure (VStr []));
          ("is_enterprise_account", VBool (is_true_value (opt_read (u "openrouter_enterprise") parsed)))]%string data
    | None => set_all [("azure_responses_version", VStr []); ("region", VStr []); ("is_enterprise_account", VBool false)]%string data
    end
  else set_all [("is_enterprise_account", VBool false)]%string data.

(** The fields of [setting], the settings of the channel. *)
Definition setting_fields (pass_through record : bool) (proxy : value) (mode : string) (timeout : value) : list (string * value) :=
  [("pass_through_body_enabled", VBool pass_through); ("request_record_enabled", VBool record); ("proxy", proxy);
   ("timeout", timeout); ("image_convert_mode", VStr (u mode))]%string.

Definition image_mode (setting : value) : string :=
  if is_true_value (opt_read (u "convert_image_base64_to_url") setting) then "base64_to_url"
  else if is_true_value (opt_read (u "convert_image_url_to_base64") setting) then "url_to_base64" else "disabled".

Definition read_setting (data : props) : props :=
  let setting := prop (u "setting") data in
  let defaults := setting_fields false false (VStr []) "disabled" (n 0) in
  set_all
    (if truthy setting then
       match parsed ← parse_text setting; _ ← read (u "proxy") parsed; Some parsed with
       | Some parsed => setting_fields (is_true_value (opt_read (u "pass_through_body_enabled") parsed))
           (is_true_value (opt_read (u "request_record_enabled") parsed))
           (value_or (opt_read (u "proxy") parsed) (VStr [])) (image_mode parsed)
           (value_or (opt_read (u "timeout") parsed) (n 0))
       | None => defaults
       end
     else defaults) data.

(** The inputs of a channel of the server; [None] when a field cannot be read. *)
Definition channel_inputs (data : props) : option props :=
  models ← split_list (prop (u "models") data);
  groups ← split_list (prop (u "group") data);
  let data := set_all [("models", models); ("groups", groups)]%string data in
  data ← (let mapping := prop (u "model_mapping") data in
          if strict_eq mapping (VStr []) then Some data
          else parsed ← parse_text mapping; Some (set_all [("model_mapping", VStr (ser gap2 [] parsed))]%string data));
  let data := read_setting (read_settings data) in
  Some (set_all [("key", VStr []); ("param_override", VStr (paramOverrideToDisplay (prop (u "param_override") data)))]%string data).

(** [(v || '').trim()] *)
Definition trim_value (v : value) : option jsstr :=
  match value_or v (VStr []) with VStr s => Some (trim s) | _ => None end.

(** [models.map((m) => (m || '').trim())]; the list is an array. *)
Definition trimmed_models (v : value) : option (list jsstr) :=
  match v with VArr l => mapM trim_value l | _ => None end.

Definition clean_models (v : value) : option (list jsstr) := List.filter str_truthy <$> trimmed_models v.

(** *** Whether the advanced settings are open *)

Definition nonempty (v : value) : bool :=
  match v with VStr s => bool_decide (trim s ≠ [] ∧ trim s ≠ u "{}") | _ => truthy v end.

(** [(Number(v) || 0) !== 0] *)
Definition nonzero (v : value) : option bool := x ← to_number v; Some (num_truthy x).

Definition advanced_set (data : props) : option bool :=
  let field k := prop (u k) data in
  priority ← nonzero (field "priority"%string); weight ← nonzero (field "weight"%string);
  timeout ← nonzero (field "timeout"%string);
  Some (existsb (λ k, nonempty (field k)) ["param_override"; "header_override"; "status_code_mapping"; "proxy"; "model_mapping"]%string ||
    truthy (field "pass_through_body_enabled"%string) || truthy (field "request_record_enabled"%string) ||
    priority || weight || timeout ||
    (truthy (field "image_convert_mode"%string) && negb (strict_eq (field "image_convert_mode"%string) (VStr (u "disabled")))) ||
    strict_eq (field "auto_ban"%string) (n 0)).

(** [v && v.trim()]; [None] when [v] has no [trim]. *)
Definition trim_truthy (v : value) : option bool :=
  if truthy v then match v with VStr s => Some (str_truthy (trim s)) | _ => None end else Some false.

(** [a || b] of conditions that may throw. *)
Fixpoint any_of (l : list (option bool)) : option bool :=
  match l with [] => Some false | c :: l => b ← c; if (b : bool) then Some true else any_of l end.

Definition hasAdvancedValues (data : props) : option bool :=
  let field k := prop (u k) data in
  any_of (map (λ k, trim_truthy (field k))
      ["model_mapping"; "param_override"; "status_code_mapping"; "header_override"; "tag"; "remark"]%string ++
    map (λ k, Some (truthy (field k) && negb (strict_eq (field k) (n 0)))) ["priority"; "weight"]%string ++
    [Some (is_true_value (field "pass_through_body_enabled"%string)); trim_truthy (field "proxy"%string)]).

(** The channel of a deployment, if it is one. *)
Definition ionet_metadata (other_info : value) : option value :=
  if truthy other_info then
    meta ← parse_text other_info;
    if truthy meta && is_object_type meta && strict_eq (opt_read (u "source") meta) (VStr (u "ionet")) then Some meta else None
  else None.

(** ** Saving *)

(** The targets of the mapping, without blanks and repetitions. *)
Definition redirectModelList (mapping : value) : list jsstr :=
  match mapping with
  | VStr s =>
      match trim s with
      | [] => []
      | text => match json_parse text with
                | Some (VObj o) => set_order (List.filter str_truthy (omap (λ kv, match kv.2 with VStr x => Some (trim x) | _ => None end) o))
                | _ => []
                end
      end
  | _ => []
  end.

(** The parsed mapping of models: [None] when the text is no JSON, [VNull] without one. *)
Definition parsed_mapping (mapping : value) : option value :=
  match mapping with
  | VStr s => if str_truthy (trim s) then json_parse s else Some VNull
  | _ => Some VNull
  end.

(** The models that the mapping has and the list has not, in the mapping's order. *)
Definition missing_models (parsed : value) (models : list jsstr) : list jsstr :=
  match parsed with
  | VObj o => List.filter (λ k, str_truthy k && negb (bool_decide (k ∈ models))) (map trim (keys o))
  | _ => []
  end.

(** The settings of the dialog written into those of the text. *)
Definition parse_or_empty (v : value) : value :=
  if truthy v then default (VObj []) (parse_text v) else VObj [].

(** [v.k = x] and [delete v.k] on a parsed value: primitives throw, arrays keep no
    named property when they are written. *)
Definition assign (l : list (string * option value)) (v : value) : option value :=
  match v with
  | VObj o => Some (VObj (fold_left (λ o kv, match kv.2 with Some x => set (u kv.1) x o | None => del (u kv.1) o end) l o))
  | VArr a => Some (VArr a)
  | _ => None
  end.

Definition settings_text (o : props) : option jsstr :=
  let settings := parse_or_empty (prop (u "settings") o) in
  settings ← (if strict_eq (prop (u "type") o) (n 20)
    then assign [("openrouter_enterprise"%string, Some (VBool (is_true_value (prop (u "is_enterprise_account") o))))] settings
    else Some settings);
  Some (ser [] [] settings).

Definition proxy_of (v : value) : option (option value) :=
  if truthy v then match v with VStr s => Some (if str_truthy (trim s) then Some (VStr (trim s)) else None) | _ => None end
  else Some None.

Definition timeout_of (v : value) : option (option value) :=
  if truthy v then x ← to_number v; Some (if nltb (num_of_Z 0) x then Some v else None) else Some None.

Definition image_flags (mode : value) : list (string * option value) :=
  let yes := Some (VBool true) in
  let is_mode s := strict_eq mode (VStr (u s)) in
  [("convert_image_base64_to_url", if is_mode "base64_to_url"%string then yes else None);
   ("convert_image_url_to_base64", if is_mode "url_to_base64"%string then yes else None)]%string.

Definition setting_text (o : props) : option jsstr :=
  proxy ← proxy_of (prop (u "proxy") o); timeout ← timeout_of (prop (u "timeout") o);
  setting ← assign
    ([("pass_through_body_enabled", Some (VBool (is_true_value (prop (u "pass_through_body_enabled") o))));
      ("request_record_enabled", Some (VBool (is_true_value (prop (u "request_record_enabled") o))));
      ("proxy", proxy); ("timeout", timeout)]%string ++ image_flags (prop (u "image_convert_mode") o))
    (parse_or_empty (prop (u "setting") o));
  Some (ser [] [] setting).

(** The fields of the form that the server does not get. *)
Definition form_only : list string :=
  ["is_enterprise_account"; "pass_through_body_enabled"; "request_record_enabled"; "proxy"; "image_convert_mode"; "timeout"].

(** The lines of a key that say something. *)
Definition key_lines (text : jsstr) : list jsstr := List.filter str_truthy (map trim (split_on 10 text)).

Definition edited_key (key : jsstr) (o : props) : props :=
  match trim key with
  | [] => del (u "key") o
  | k => set (u "key") (VStr (if starts_with k [91%N] then k else join [10%N] (key_lines k))) o
  end.

(** The mode and the key of a new channel. *)
Definition new_key (type : value) (key : jsstr) : jsstr * jsstr :=
  match trim key with
  | [] => (u "single", [])
  | k =>
      if strict_eq type (n 57) || starts_with k [91%N] then (u "single", k)
      else match key_lines key with
           | (_ :: _ :: _) as lines => (u "multi_to_single", join [10%N] lines)
           | lines => (u "single", default [] (head lines))
           end
  end.

Definition nonempty_array (v : value) : option (list value) :=
  match v with VArr ((_ :: _) as l) => Some l | _ => None end.

(** What is written of the inputs of the form, once its models are chosen; [None]
    when a field cannot be read.  [groups]: those of the dialog. *)
Definition channel_payload (groups : value) (models : list jsstr) (o : props) : option props :=
  o ← (let url := prop (u "base_url") o in
       if truthy url then
         match url with
         | VStr s => Some (if ends_with s [47%N] then set (u "base_url") (VStr (take (length s - 1) s)) o else o)
         | _ => None
         end
       else Some o);
  let o := if strict_eq (prop (u "type") o) (n 18) && strict_eq (prop (u "other") o) (VStr [])
           then set (u "other") (VStr (u "v2.1")) o else o in
  settings ← settings_text o;
  let o := set (u "settings") (VStr settings) o in
  setting ← setting_text o;
  let o := fold_left (λ o k, del (u k) o) form_only (set (u "setting") (VStr setting) o) in
  let chosen := default (default [] (nonempty_array groups)) (nonempty_array (prop (u "groups") o)) in
  group ← to_string (VArr chosen);
  Some (set_all [("auto_ban", n (if truthy (prop (u "auto_ban") o) then 1 else 0)); ("models", VStr (join [44%N] models));
    ("groups", VArr chosen); ("group", VStr group)]%string o).
