(* ===== verification/ChannelFormLaws.v ===== *)
(** * The form of a channel: laws
    What is written comes back: the settings of the channel, and the redirection of
    parameters up to what its lines cannot say. *)

From Stdlib Require Import SpecFloat.
From stdpp Require Import base numbers option strings sets list.
From S2P Require Import Prelude JsString JsNumber JsValue Json JsOps Session ParamOverride ChannelForm.

(** ** The redirection of parameters *)

Lemma trimmed_rev_head s : trimmed s → head_out is_ws (rev s).
Proof. intros <-. unfold trim. rewrite rev_involutive. apply trim_start_head. Qed.

(** A text that begins with what is no blank and ends with a trimmed one. *)
Lemma trim_framed a p : head_out is_ws a → a ≠ [] → trimmed p → p ≠ [] → trim (a ++ p) = a ++ p.
Proof.
  intros Ha Hne Hp Hpne. apply trim_id; [by apply head_out_app|].
  rewrite rev_app_distr. apply head_out_app; [|by apply trimmed_rev_head].
  intros H. apply Hpne. by rewrite <- (rev_involutive p), H.
Qed.

(** A path that its line can say. *)
Record clean_path (p : jsstr) : Prop := {
  path_trimmed : trimmed p;
  path_nonempty : p ≠ [];
  path_one_line : 10%N ∉ p;
  path_no_prefix : has_body_prefix p = false;
  path_no_body : is_body p = false;
}.

Definition body : jsstr := u "body.".

Lemma body_prefixed p : has_body_prefix (body ++ p) = true.
Proof. unfold has_body_prefix. apply bool_decide_true. reflexivity. Qed.

Lemma format_clean p : clean_path p → formatBodyPath (VStr p) = Some (body ++ p).
Proof.
  intros [H1 H2 _ H4 H5]. unfold formatBodyPath, value_or. destruct p as [|c p]; [done|]. cbn [truthy str_truthy to_string mbind option_bind].
  unfold trimmed in H1. rewrite H1. cbv iota. by rewrite H4, H5.
Qed.

Lemma body_trim p : clean_path p → trim (body ++ p) = body ++ p.
Proof. intros [H1 H2 _ _ _]. by apply trim_framed. Qed.

Lemma strip_clean p w : clean_path p → trim w = body ++ p → stripBodyPrefix w = p.
Proof. intros H E. unfold stripBodyPrefix. by rewrite E, body_prefixed. Qed.

Lemma trim_around p : clean_path p → trim (body ++ p ++ u " ") = body ++ p ∧ trim (u " " ++ body ++ p) = body ++ p.
Proof.
  intros H. pose proof (body_trim p H) as E. split.
  - unfold trim in *. change (trim_start (body ++ p ++ u " ")) with (body ++ p ++ u " ").
    change (trim_start (body ++ p)) with (body ++ p) in E. rewrite app_assoc, rev_app_distr. exact E.
  - exact E.
Qed.

Definition line_of (to from : jsstr) : jsstr := (body ++ to) ++ u " = " ++ body ++ from.

(** A line is read back. *)
Lemma parse_line to from :
  clean_path to → clean_path from → 61%N ∉ to →
  parse_copy (line_of to from) = Some (VObj [(u "mode", VStr (u "copy")); (u "from", VStr from); (u "to", VStr to)]).
Proof.
  intros Ht Hf Hn. unfold parse_copy, line_of.
  change (u " = ") with (u " " ++ 61%N :: u " "). rewrite <- !app_assoc. cbn [app]. rewrite !app_assoc.
  rewrite index_of_app.
  2:{ rewrite !elem_of_app. intros [[H|H]|H]; [|done|]; vm_compute in H; repeat (apply elem_of_cons in H as [H|H]; [discriminate H|]);
      by apply elem_of_nil in H. }
  cbn [mbind option_bind]. rewrite take_app_length, drop_app_ge by lia.
  replace (S (length ((body ++ to) ++ u " ")) - length ((body ++ to) ++ u " "))%nat with 1%nat by lia. cbn [drop].
  rewrite (strip_clean to), (strip_clean from);
    [|done | change (32%N :: body ++ from) with (u " " ++ body ++ from); by apply trim_around
     |done | rewrite <- app_assoc; by apply trim_around].
  destruct Ht as [_ Ht _ _ _], Hf as [_ Hf _ _ _]. destruct to, from; try done.
Qed.

Lemma line_trim to from : clean_path from → trim (line_of to from) = line_of to from.
Proof.
  intros [H1 H2 _ _ _]. unfold line_of. rewrite !app_assoc. by apply trim_framed.
Qed.

Lemma line_one_line to from : clean_path to → clean_path from → 10%N ∉ line_of to from.
Proof.
  intros [_ _ H1 _ _] [_ _ H2 _ _]. unfold line_of. rewrite !elem_of_app.
  intros [[H|H]|[H|[H|H]]]; try done; vm_compute in H; repeat (apply elem_of_cons in H as [H|H]; [discriminate H|]);
    by apply elem_of_nil in H.
Qed.

(** An operation that copies; it may say more than its paths. *)
Record copies (o : props) (from to : jsstr) : Prop := {
  copies_mode : prop (u "mode") o = VStr (u "copy");
  copies_from : prop (u "from") o = VStr from;
  copies_to : prop (u "to") o = VStr to;
  copies_clean : clean_path from ∧ clean_path to ∧ 61%N ∉ to;
}.

Definition bare_copy (from to : jsstr) : value :=
  VObj [(u "mode", VStr (u "copy")); (u "from", VStr from); (u "to", VStr to)].

Lemma copies_line o from to : copies o from to → plain_copy (VObj o) = true ∧ copy_line (VObj o) = Some (line_of to from).
Proof.
  intros [H1 H2 H3 (Hf & Ht & _)]. unfold plain_copy, copy_line. cbn [opt_read read]. rewrite H1, H2, H3.
  rewrite !format_clean by done. split; [|done]. destruct Hf as [_ Hf _ _ _], Ht as [_ Ht _ _ _]. by destruct from, to.
Qed.

Abbreviation operation_list := (list (props * (jsstr * jsstr))).
Definition all_copies (ops : operation_list) : Prop := Forall (λ x, copies x.1 x.2.1 x.2.2) ops.
Definition lines_of (ops : operation_list) : list jsstr := map (λ x, line_of x.2.2 x.2.1) ops.

Lemma copies_lines (ops : operation_list) :
  all_copies ops →
  forallb plain_copy (map (λ x, VObj x.1) ops) = true ∧ mapM copy_line (map (λ x, VObj x.1) ops) = Some (lines_of ops).
Proof.
  induction 1 as [|[o [from to]] ops H _ (IH1 & IH2)]; [done|]. simpl in *.
  destruct (copies_line _ _ _ H) as [E1 E2]. rewrite E1, E2, IH1. simpl. by rewrite IH2.
Qed.

Lemma lines_back (ops : operation_list) :
  all_copies ops →
  Forall (λ l, 10%N ∉ l) (lines_of ops) ∧ map trim (lines_of ops) = lines_of ops ∧
  List.filter (λ l, str_truthy l && negb (starts_with l [35%N])) (lines_of ops) = lines_of ops ∧
  mapM parse_copy (lines_of ops) = Some (map (λ x, bare_copy x.2.1 x.2.2) ops).
Proof.
  induction 1 as [|[o [from to]] ops [_ _ _ (Hf & Ht & Hn)] _ (IH1 & IH2 & IH3 & IH4)]; [by repeat constructor|].
  simpl in *. split_and!.
  - constructor; [by apply line_one_line | done].
  - by rewrite line_trim, IH2.
  - by rewrite IH3.
  - rewrite parse_line by done. cbn [mbind option_bind]. by rewrite IH4.
Qed.

(** The lines have no blanks around them and are no JSON. *)
Lemma lines_text ops :
  all_copies ops → ops ≠ [] →
  trim (join [10%N] (lines_of ops)) = join [10%N] (lines_of ops) ∧ json_like (join [10%N] (lines_of ops)) = false ∧
  join [10%N] (lines_of ops) ≠ [].
Proof.
  intros H Hne. assert (∃ r, join [10%N] (lines_of ops) = u "b" ++ r) as [r Er].
  { destruct ops as [|[o [from to]] ops]; [done|]. simpl. destruct (lines_of ops); eexists; reflexivity. }
  split_and!; [|by rewrite Er|by rewrite Er]. apply trim_id; [by rewrite Er|]. clear Er r Hne.
  induction H as [|[o [from to]] ops Hc H IH]; [done|].
  assert (head_out is_ws (rev (line_of to from))) as Hl.
  { apply trimmed_rev_head, line_trim. by destruct Hc as [_ _ _ (? & _)]. }
  simpl. destruct ops as [|x ops]; [exact Hl|].
  change (head_out is_ws (rev (line_of to from ++ 10%N :: join [10%N] (lines_of (x :: ops))))).
  rewrite rev_app_distr. set (j := join [10%N] _) in *. change (rev (10%N :: j)) with (rev j ++ [10%N]).
  apply head_out_app; [by destruct (rev j)|].
  apply head_out_app; [|exact IH]. intros E. apply (f_equal (@rev _)) in E. rewrite rev_involutive in E. unfold j in E.
  destruct x as [o' [from' to']]. simpl in E. by destruct (lines_of ops).
Qed.

(** The text of operations is shown as the lines. *)
Lemma operations_shown ops :
  ops ≠ [] → all_copies ops → json_ok (VArr (map (λ x, VObj x.1) ops)) = true →
  paramOverrideToDisplay (VStr (operations_text (map (λ x, VObj x.1) ops))) = join [10%N] (lines_of ops).
Proof.
  intros Hne Hc Hok. destruct (copies_lines ops Hc) as [E1 E2].
  set (v := VObj [(u "operations", VArr (map (λ x, VObj x.1) ops))]).
  assert (json_ok v = true) as Hv.
  { unfold v. rewrite json_ok_obj. apply andb_true_intro. split; [by apply bool_decide_true; repeat constructor|].
    change (json_ok (VArr (map (λ x : props * (jsstr * jsstr), VObj x.1) ops)) && true = true). by rewrite Hok. }
  pose proof (json_parse_ser [] v ltac:(constructor) Hv) as Hp.
  pose proof (ser_object_trim [] [] v (or_intror (ex_intro _ _ eq_refl))) as Ht.
  unfold operations_text. fold v. unfold paramOverrideToDisplay. rewrite Ht. cbv zeta.
  rewrite decide_False.
  2:{ intros [E|E]; rewrite E in Hp; [discriminate Hp|]. vm_compute in Hp. discriminate Hp. }
  cbn [is_object_type]. rewrite Hp. unfold copy_lines, v. cbn [mbind option_bind operations_of].
  change (opt_read (u "operations") (VObj [(u "operations", VArr (map (λ x, VObj x.1) ops))])) with
    (VArr (map (λ x, VObj x.1) ops)). cbv iota. cbn [mbind option_bind].
  rewrite E1, E2. by destruct ops.
Qed.

(** a channel whose parameter redirection only copies is opened and saved: what is
    written are the same copies in the same order with their mode and paths and
    nothing else.  Operations that say no more come back unchanged, while the
    conditions of others are lost, so that copies that were made under a condition
    are made for every request. *)
Theorem copies_resaved ops :
  ops ≠ [] → all_copies ops → json_ok (VArr (map (λ x, VObj x.1) ops)) = true →
  displayToParamOverride (VStr (paramOverrideToDisplay (VStr (operations_text (map (λ x, VObj x.1) ops))))) =
    Some (operations_text (map (λ x, bare_copy x.2.1 x.2.2) ops)).
Proof.
  intros Hne Hc Hok. rewrite operations_shown by done.
  destruct (lines_text ops Hc Hne) as (Ht & Hj & Hnil). destruct (lines_back ops Hc) as (H10 & Htr & Hf & Hp).
  unfold displayToParamOverride, value_or. cbn [truthy].
  assert (str_truthy (join [10%N] (lines_of ops)) = true) as -> by by destruct (join _ _).
  cbn [mbind option_bind]. rewrite Ht.
  destruct (join [10%N] (lines_of ops)) as [|c r] eqn:E; [done|]. rewrite Hj. rewrite <- E.
  rewrite split_on_join by (try done; by destruct ops). by rewrite Htr, Hf, Hp.
Qed.

(** A copy for one model is made for all. *)
Lemma copies_resaved_witness :
  let path := u "messages.0" in
  let op := [(u "mode", VStr (u "copy")); (u "from", VStr path); (u "to", VStr (u "prompt"));
             (u "conditions", VArr [VObj [(u "path", VStr (u "model"))]])] in
  displayToParamOverride (VStr (paramOverrideToDisplay (VStr (operations_text [VObj op])))) =
    Some (operations_text [bare_copy path (u "prompt")]).
Proof.
  cbv zeta. apply (copies_resaved [([(u "mode", VStr (u "copy")); (u "from", VStr (u "messages.0")); (u "to", VStr (u "prompt"));
             (u "conditions", VArr [VObj [(u "path", VStr (u "model"))]])], (u "messages.0", u "prompt"))]).
  - discriminate.
  - apply Forall_cons_2; [|apply Forall_nil_2].
    assert (61%N ∉ u "prompt" ∧ 10%N ∉ u "prompt" ∧ 10%N ∉ u "messages.0") as (? & ? & ?).
    { repeat split; apply index_of_None; reflexivity. }
    split; [reflexivity..|]. split; [|split; [|done]]; (split; [reflexivity|discriminate|done|reflexivity|reflexivity]).
  - vm_compute. reflexivity.
Defined.

(** ** The settings of the channel *)

Lemma prop_del k k' o : prop k' (del k o) = if decide (k = k') then VUndef else prop k' o.
Proof. unfold prop. rewrite get_del. by case_decide. Qed.

(** What [assign] leaves in an object. *)
Definition assigned (l : list (string * option value)) (o : props) : props :=
  fold_left (λ o kv, match kv.2 with Some x => set (u kv.1) x o | None => del (u kv.1) o end) l o.

Lemma assigned_ok l o :
  Forall (λ kv : string * option value, ∀ x, kv.2 = Some x → json_ok x = true) l →
  json_ok (VObj o) = true → json_ok (VObj (assigned l o)) = true.
Proof.
  intros Hl. revert o. induction Hl as [|[k [x|]] l H Hl IH]; intros o Ho; [done|..]; simpl; apply IH.
  - by apply json_ok_set; [apply H|].
  - by apply json_ok_del.
Qed.

Lemma prop_assigned_last k v l o :
  prop (u k) (assigned (l ++ [(k, v)]) o) = default VUndef v.
Proof.
  unfold assigned. rewrite fold_left_app. simpl. destruct v; [rewrite prop_set | rewrite prop_del]; by rewrite decide_True.
Qed.

Lemma prop_assigned_other k k' v l o :
  u k' ≠ u k → prop (u k) (assigned (l ++ [(k', v)]) o) = prop (u k) (assigned l o).
Proof.
  intros H. unfold assigned. rewrite fold_left_app. simpl. destruct v; [rewrite prop_set | rewrite prop_del]; by rewrite decide_False.
Qed.

(** The value of a key that is assigned once, and of one that is not the last. *)
Ltac assigned_key :=
  repeat match goal with
  | |- context [prop (u ?k) (assigned ?l ?o)] =>
      let l' := eval cbv [app image_flags] in l in
      let r := eval cbv [rev app] in (rev l') in
      lazymatch r with
      | (k, ?v) :: ?t => let t' := eval cbv [rev app] in (rev t) in
          change (prop (u k) (assigned l o)) with (prop (u k) (assigned (t' ++ [(k, v)]) o));
          rewrite (prop_assigned_last k v t' o)
      | (?k', ?v) :: ?t => let t' := eval cbv [rev app] in (rev t) in
          change (prop (u k) (assigned l o)) with (prop (u k) (assigned (t' ++ [(k', v)]) o));
          rewrite (prop_assigned_other k k' v t' o) by (vm_compute; discriminate)
      end
  end.

(** The last assignment of a list of fields. *)
Lemma prop_set_all_fields k (l : list (string * value)) o :
  prop (u k) (set_all l o) = prop (u k) (assigned (map (λ kv, (kv.1, Some kv.2)) l) o).
Proof.
  unfold set_all, assigned. revert o. induction l as [|[k1 v1] l IH]; intros o; [done|]. apply IH.
Qed.

Lemma proxy_back v p : proxy_of v = Some p → value_or (default VUndef p) (VStr []) = default (VStr []) p ∧ ∀ x, p = Some x → json_ok x = true.
Proof.
  unfold proxy_of. destruct (truthy v); [|by intros [= <-]]. destruct v as [| | | |s| |]; try done.
  destruct (str_truthy (trim s)) eqn:E; intros [= <-]; [|done]. unfold value_or. simpl. rewrite E. split; [done|]. by intros x [= <-].
Qed.

Lemma timeout_back v x : timeout_of v = Some x → value_or (default VUndef x) (n 0) = default (n 0) x.
Proof.
  unfold timeout_of. destruct (truthy v) eqn:E; [|by intros [= <-]]. destruct (to_number v) as [y|]; [|done].
  cbn [mbind option_bind]. destruct (nltb _ y); intros [= <-]; [|done]. unfold value_or. simpl. by rewrite E.
Qed.

(** C30: the settings of a channel come back: what the dialog writes into the text of
    the settings is what it shows when it is opened again, with the proxy without
    blanks around it, no timeout below one and the mode of images among those it
    knows, whatever else the text holds. *)
Theorem settings_come_back o data old proxy timeout :
  parse_or_empty (prop (u "setting") o) = VObj old → json_ok (VObj old) = true →
  proxy_of (prop (u "proxy") o) = Some proxy → timeout_of (prop (u "timeout") o) = Some timeout →
  (∀ x, timeout = Some x → json_ok x = true) →
  ∃ text, setting_text o = Some text ∧
  let d := read_setting (set (u "setting") (VStr text) data) in
  let mode := prop (u "image_convert_mode") o in
  prop (u "pass_through_body_enabled") d = VBool (is_true_value (prop (u "pass_through_body_enabled") o)) ∧
  prop (u "request_record_enabled") d = VBool (is_true_value (prop (u "request_record_enabled") o)) ∧
  prop (u "proxy") d = default (VStr []) proxy ∧ prop (u "timeout") d = default (n 0) timeout ∧
  prop (u "image_convert_mode") d =
    (if strict_eq mode (VStr (u "base64_to_url")) || strict_eq mode (VStr (u "url_to_base64")) then mode else VStr (u "disabled")).
Proof.
  intros Ho Hok Hp Ht Hj. destruct (proxy_back _ _ Hp) as [Ep Jp]. pose proof (timeout_back _ _ Ht) as Et.
  unfold setting_text. rewrite Hp, Ht, Ho. cbn [mbind option_bind assign].
  match goal with |- context [fold_left _ ?l old] => change (fold_left _ l old) with (assigned l old); set (fields := l) end.
  eexists. split; [reflexivity|]. cbv zeta. set (text := ser [] [] (VObj (assigned fields old))).
  assert (json_ok (VObj (assigned fields old)) = true) as Hok'.
  { apply assigned_ok; [|done]. unfold fields, image_flags. cbv zeta. cbn [app].
    repeat (apply Forall_cons_2); try apply Forall_nil_2; cbn [snd]; try done;
      try (intros x [= <-]; done); intros x; case_match; by intros [= <-]. }
  pose proof (json_parse_ser [] _ ltac:(constructor) Hok') as Hparse. fold text in Hparse.
  unfold read_setting. rewrite prop_set, decide_True by done. unfold parse_text. cbn [to_string mbind option_bind].
  rewrite Hparse. cbn [mbind option_bind read truthy].
  assert (str_truthy text = true) as -> by (destruct text; [discriminate Hparse | done]).
  rewrite !prop_set_all_fields. cbn [setting_fields map fst snd opt_read read image_mode].
  set (d0 := set (u "setting") (VStr text) data).
  unfold image_mode. cbn [opt_read read].
  assert (prop (u "pass_through_body_enabled") (assigned fields old) =
    VBool (is_true_value (prop (u "pass_through_body_enabled") o))) as -> by (unfold fields; by assigned_key).
  assert (prop (u "request_record_enabled") (assigned fields old) =
    VBool (is_true_value (prop (u "request_record_enabled") o))) as -> by (unfold fields; by assigned_key).
  assert (prop (u "proxy") (assigned fields old) = default VUndef proxy) as -> by (unfold fields; by assigned_key).
  assert (prop (u "timeout") (assigned fields old) = default VUndef timeout) as -> by (unfold fields; by assigned_key).
  set (mode := prop (u "image_convert_mode") o) in *.
  assert (prop (u "convert_image_base64_to_url") (assigned fields old) =
    (if strict_eq mode (VStr (u "base64_to_url")) then VBool true else VUndef)) as ->
    by (unfold fields; assigned_key; by case_match).
  assert (prop (u "convert_image_url_to_base64") (assigned fields old) =
    (if strict_eq mode (VStr (u "url_to_base64")) then VBool true else VUndef)) as ->
    by (unfold fields; assigned_key; by case_match).
  rewrite Ep, Et. clearbody d0. assigned_key. split_and!; try done. simpl default.
  destruct (strict_eq mode (VStr (u "base64_to_url"))) eqn:E1;
    [|destruct (strict_eq mode (VStr (u "url_to_base64"))) eqn:E2; [|done]];
    simpl; destruct mode; try discriminate E1; try discriminate E2;
    rewrite strict_eq_str in *; [apply bool_decide_eq_true in E1 | apply bool_decide_eq_true in E2]; by subst.
Qed.

(** A proxy typed with a blank, on a channel with other settings. *)
Lemma settings_come_back_witness :
  let o := [(u "setting", VStr (u "{}")); (u "pass_through_body_enabled", VBool true); (u "proxy", VStr (u "http://p "));
            (u "timeout", n 30); (u "image_convert_mode", VStr (u "url_to_base64"))] in
  ∃ text, setting_text o = Some text ∧
    prop (u "proxy") (read_setting (set (u "setting") (VStr text) [])) = VStr (u "http://p").
Proof.
  cbv zeta. refine (match settings_come_back
    [(u "setting", VStr (u "{}")); (u "pass_through_body_enabled", VBool true); (u "proxy", VStr (u "http://p "));
     (u "timeout", n 30); (u "image_convert_mode", VStr (u "url_to_base64"))] [] []
    (Some (VStr (u "http://p"))) (Some (n 30)) _ _ _ _ _ with
    ex_intro _ text (conj H1 (conj _ (conj _ (conj H _)))) => ex_intro _ text (conj H1 H) end).
  - vm_compute. reflexivity.
  - reflexivity.
  - vm_compute. reflexivity.
  - vm_compute. reflexivity.
  - intros x [= <-]. vm_compute. reflexivity.
Defined.
