(* ===== verification/ChannelModal.v ===== *)
(** * The dialog of a channel
    [src/web/src/components/table/channels/modals/EditChannelModal.jsx]: the state of
    the dialog, its requests, its fields, and [submit] with the questions it asks
    before it writes.  A handler is a closure of a render; the form is the library's,
    and what its functions do to the values of its fields is a parameter. *)

From Stdlib Require Import SpecFloat.
From stdpp Require Import base numbers option strings sets list.
From S2P Require Import Prelude JsString JsNumber JsValue Json JsOps Session StatusCodeRisk ParamOverride OAuth ChannelForm.

(** ** State *)

Record mapping_modal := mk_mapping { mm_visible : bool; mm_models : list jsstr; mm_key : jsstr; mm_selected : jsstr }.

(** [channelId] is a property of the dialog, [visible] too. *)
Record view := mk_view {
  channelId : value; visible : bool; inputs : props; loading : bool; autoBan : bool; isEnterpriseAccount : bool;
  originModelOptions : list jsstr; basicModels : value; fullModels : list value; modelGroups : value;
  customModel : jsstr; modelSearchValue : jsstr; modelModalVisible : bool; fetchedModels : list value;
  modelMappingModal : mapping_modal; ionetMetadata : option value; codexCredentialRefreshing : bool;
  statusCodeRiskConfirm : option (list jsstr); advancedSettingsOpen : bool;
}.

(** What follows a list of models: nothing, or the dialog of a mapping. *)
Inductive after_models := Plain | ForMapping (key : jsstr) (v : value).

(** A [submit] that waits: its inputs, with their models. *)
Record saving := mk_saving { sv_render : view; sv_inputs : props; sv_models : list jsstr }.

Inductive waiting :=
  | LoadChannel
  | FetchModels
  | FetchGroups
  | FetchUpstream (silent : bool) (r : view) (k : after_models)
  | RefreshCodex
  | Saving (isEdit : bool).

Inductive dialog :=
  | BaseUrlV1 (v : value)
  | MissingMappings (w : saving) (missing : list jsstr).

Inductive choice := Cancel | Submit | Add.

Inductive effect :=
  | Get (url : jsstr)
  | Post (url : jsstr) (body : value)
  | Put (url : jsstr) (body : value)
  | ShowError (v : value)
  | ShowInfo (text : jsstr)
  | ShowSuccess (text : jsstr)
  | AddedModels (models : list jsstr)
  | Clipboard (text : jsstr)
  | OpenWindow (url : jsstr)
  | RefreshList
  | CloseDialog
  | Unhandled (v : value).

(** The references: [initialModels] and the others of the loaded channel, and
    [riskResolver], the [submit] that waits for a confirmation. *)
Record state := mk_state {
  now : view; form : props; initialModels : list jsstr; initialModelMapping : value; initialStatusCodeMapping : value;
  riskResolver : option saving; channel_models : option value; local_storage : storage;
  dialogs : list dialog; calls : list waiting; log : list effect;
}.

Definition with_view v s := mk_state v (form s) (initialModels s) (initialModelMapping s) (initialStatusCodeMapping s) (riskResolver s) (channel_models s) (local_storage s) (dialogs s) (calls s) (log s).
Definition with_form f s := mk_state (now s) f (initialModels s) (initialModelMapping s) (initialStatusCodeMapping s) (riskResolver s) (channel_models s) (local_storage s) (dialogs s) (calls s) (log s).
Definition with_initial a b c s := mk_state (now s) (form s) a b c (riskResolver s) (channel_models s) (local_storage s) (dialogs s) (calls s) (log s).
Definition with_resolver x s := mk_state (now s) (form s) (initialModels s) (initialModelMapping s) (initialStatusCodeMapping s) x (channel_models s) (local_storage s) (dialogs s) (calls s) (log s).
Definition with_cache x s := mk_state (now s) (form s) (initialModels s) (initialModelMapping s) (initialStatusCodeMapping s) (riskResolver s) x (local_storage s) (dialogs s) (calls s) (log s).
Definition with_dialogs l s := mk_state (now s) (form s) (initialModels s) (initialModelMapping s) (initialStatusCodeMapping s) (riskResolver s) (channel_models s) (local_storage s) l (calls s) (log s).
Definition with_calls l s := mk_state (now s) (form s) (initialModels s) (initialModelMapping s) (initialStatusCodeMapping s) (riskResolver s) (channel_models s) (local_storage s) (dialogs s) l (log s).
Definition emit e s := mk_state (now s) (form s) (initialModels s) (initialModelMapping s) (initialStatusCodeMapping s) (riskResolver s) (channel_models s) (local_storage s) (dialogs s) (calls s) (e :: log s).
Definition suspend (w : waiting) (s : state) : state := with_calls (calls s ++ [w]) s.
Definition ask (d : dialog) (s : state) : state := with_dialogs (dialogs s ++ [d]) s.
Definition on_view (f : view → view) (s : state) : state := with_view (f (now s)) s.

Definition setProps id shown v := mk_view id shown (inputs v) (loading v) (autoBan v) (isEnterpriseAccount v) (originModelOptions v) (basicModels v) (fullModels v) (modelGroups v) (customModel v) (modelSearchValue v) (modelModalVisible v) (fetchedModels v) (modelMappingModal v) (ionetMetadata v) (codexCredentialRefreshing v) (statusCodeRiskConfirm v) (advancedSettingsOpen v).
Definition setInputs x v := mk_view (channelId v) (visible v) x (loading v) (autoBan v) (isEnterpriseAccount v) (originModelOptions v) (basicModels v) (fullModels v) (modelGroups v) (customModel v) (modelSearchValue v) (modelModalVisible v) (fetchedModels v) (modelMappingModal v) (ionetMetadata v) (codexCredentialRefreshing v) (statusCodeRiskConfirm v) (advancedSettingsOpen v).
Definition setFlags load ban enterprise codex open v := mk_view (channelId v) (visible v) (inputs v) load ban enterprise (originModelOptions v) (basicModels v) (fullModels v) (modelGroups v) (customModel v) (modelSearchValue v) (modelModalVisible v) (fetchedModels v) (modelMappingModal v) (ionetMetadata v) codex (statusCodeRiskConfirm v) open.
Definition setModels origin basic full groups v := mk_view (channelId v) (visible v) (inputs v) (loading v) (autoBan v) (isEnterpriseAccount v) origin basic full groups (customModel v) (modelSearchValue v) (modelModalVisible v) (fetchedModels v) (modelMappingModal v) (ionetMetadata v) (codexCredentialRefreshing v) (statusCodeRiskConfirm v) (advancedSettingsOpen v).
Definition setTyped custom search v := mk_view (channelId v) (visible v) (inputs v) (loading v) (autoBan v) (isEnterpriseAccount v) (originModelOptions v) (basicModels v) (fullModels v) (modelGroups v) custom search (modelModalVisible v) (fetchedModels v) (modelMappingModal v) (ionetMetadata v) (codexCredentialRefreshing v) (statusCodeRiskConfirm v) (advancedSettingsOpen v).
Definition setFetched shown models v := mk_view (channelId v) (visible v) (inputs v) (loading v) (autoBan v) (isEnterpriseAccount v) (originModelOptions v) (basicModels v) (fullModels v) (modelGroups v) (customModel v) (modelSearchValue v) shown models (modelMappingModal v) (ionetMetadata v) (codexCredentialRefreshing v) (statusCodeRiskConfirm v) (advancedSettingsOpen v).
Definition setMapping m v := mk_view (channelId v) (visible v) (inputs v) (loading v) (autoBan v) (isEnterpriseAccount v) (originModelOptions v) (basicModels v) (fullModels v) (modelGroups v) (customModel v) (modelSearchValue v) (modelModalVisible v) (fetchedModels v) m (ionetMetadata v) (codexCredentialRefreshing v) (statusCodeRiskConfirm v) (advancedSettingsOpen v).
Definition setMeta ionet risk v := mk_view (channelId v) (visible v) (inputs v) (loading v) (autoBan v) (isEnterpriseAccount v) (originModelOptions v) (basicModels v) (fullModels v) (modelGroups v) (customModel v) (modelSearchValue v) (modelModalVisible v) (fetchedModels v) (modelMappingModal v) ionet (codexCredentialRefreshing v) risk (advancedSettingsOpen v).

Definition setLoading b v := setFlags b (autoBan v) (isEnterpriseAccount v) (codexCredentialRefreshing v) (advancedSettingsOpen v) v.
Definition setAutoBan b v := setFlags (loading v) b (isEnterpriseAccount v) (codexCredentialRefreshing v) (advancedSettingsOpen v) v.
Definition setIsEnterpriseAccount b v := setFlags (loading v) (autoBan v) b (codexCredentialRefreshing v) (advancedSettingsOpen v) v.
Definition setCodexCredentialRefreshing b v := setFlags (loading v) (autoBan v) (isEnterpriseAccount v) b (advancedSettingsOpen v) v.
Definition setAdvancedSettingsOpen b v := setFlags (loading v) (autoBan v) (isEnterpriseAccount v) (codexCredentialRefreshing v) b v.
Definition setBasicModels x v := setModels (originModelOptions v) x (fullModels v) (modelGroups v) v.

Definition originInputs : props :=
  map (λ kv : string * value, (u kv.1, kv.2))
    [("name", VStr []); ("type", n 1); ("openai_organization", VStr []); ("max_input_tokens", n 0); ("base_url", VStr []);
     ("other", VStr []); ("model_mapping", VStr []); ("param_override", VStr []); ("status_code_mapping", VStr []);
     ("models", VArr []); ("auto_ban", n 1); ("test_model", VStr []); ("groups", VArr []); ("priority", n 0); ("weight", n 0);
     ("tag", VStr []); ("settings", VStr []); ("key", VStr []); ("is_enterprise_account", VBool false);
     ("pass_through_body_enabled", VBool false); ("request_record_enabled", VBool false); ("proxy", VStr []);
     ("image_convert_mode", VStr (u "disabled")); ("timeout", n 0)]%string.

Definition isEdit (r : view) : bool := negb (is_undef (channelId r)).
Definition input (k : string) (r : view) : value := prop (u k) (inputs r).

Definition MODEL_FETCHABLE_CHANNEL_TYPES : list Z := [1; 14; 26; 24; 20; 48; 43]%Z.
Definition fetchable (type : value) : bool := existsb (λ z, strict_eq type (n z)) MODEL_FETCHABLE_CHANNEL_TYPES.

(** The models of a type that are not asked for. *)
Definition fixed_models (type : value) : option value :=
  let models l := Some (VArr (map (λ m, VStr (u m)) l)) in
  if strict_eq type (n 2) then
    models ["mj_imagine"; "mj_variation"; "mj_reroll"; "mj_blend"; "mj_upscale"; "mj_describe"; "mj_uploads"]%string
  else if strict_eq type (n 5) then
    models ["swap_face"; "mj_imagine"; "mj_video"; "mj_edits"; "mj_variation"; "mj_reroll"; "mj_blend"; "mj_upscale";
      "mj_describe"; "mj_zoom"; "mj_shorten"; "mj_modal"; "mj_inpaint"; "mj_custom_zoom"; "mj_high_variation";
      "mj_low_variation"; "mj_pan"; "mj_uploads"]%string
  else if strict_eq type (n 36) then models ["suno_music"; "suno_lyrics"]%string
  else None.

Section dialog.
(** [set_values values], [set_value k v]: what the form's functions of these names do
    to its values; [after_reset]: its values after [reset]. *)
Context (t : jsstr → jsstr) (engine_error : value).
Context (set_values : props → props → props) (set_value : jsstr → value → props → props) (after_reset : props).

Definition throws (s : state) : state := emit (Unhandled engine_error) s.

(** [setInputs] and the effect on the inputs, which writes them to the form. *)
Definition put_inputs (f : props → props) (s : state) : state :=
  let x := f (inputs (now s)) in with_form (set_values x (form s)) (on_view (setInputs x) s).

(** [getChannelModels(type)]; [None] when it throws. *)
Definition models_of (type : value) (s : state) : option (value * state) :=
  k ← to_string type; '(models, cache) ← getChannelModels k (channel_models s) (local_storage s);
  Some (models, with_cache cache s).

(** *** Fields *)

(** Whether a list, or a text, is empty; [None]: it has no length. *)
Definition is_empty (v : value) : option bool :=
  match v with
  | VArr l => Some (bool_decide (length l = 0%nat)) | VStr s => Some (negb (str_truthy s))
  | VUndef | VNull => None | _ => Some false
  end.

Definition type_changed (r : view) (type : value) (s : state) : state :=
  match (match fixed_models type with Some models => Some (models, s) | None => models_of type s end) with
  | None => throws s
  | Some (models, s) =>
      match is_empty (input "models" r) with
      | None => throws s
      | Some empty => on_view (setBasicModels models) (if empty then put_inputs (set (u "models") models) s else s)
      end
  end.

(** Models become trimmed texts without repetitions. *)
Definition input_value (name : string) (v : value) : option value :=
  match v with
  | VArr _ => if decide (name = "models"%string) then models ← trimmed_models v; Some (VArr (map VStr (set_order models))) else Some v
  | _ => Some v
  end.

Definition handleInputChange (r : view) (name : string) (v : value) (s : state) : state :=
  if bool_decide (is_Some (ionetMetadata r)) && isEdit r && bool_decide (name ∈ ["type"; "base_url"]%string) then s
  else
    let s := with_form (set_value (u name) v (form s)) s in
    match input_value name v with
    | None => throws s
    | Some v =>
        if decide (name = "base_url"%string) then
          match v with
          | VStr url => if ends_with url (u "/v1") then ask (BaseUrlV1 v) s else put_inputs (set (u name) v) s
          | _ => throws s
          end
        else
          let s := put_inputs (set (u name) v) s in
          if decide (name = "type"%string) then type_changed r v s else s
    end.

(** A setting of [settings]; a text that is no JSON is dropped. *)
Definition handleChannelOtherSettingsChange (r : view) (key : string) (v : value) (s : state) : state :=
  let s := put_inputs (set (u key) v) (with_form (set_value (u key) v (form s)) s) in
  match assign [(key, Some v)] (parse_or_empty (input "settings" r)) with
  | Some settings => handleInputChange r "settings" (VStr (ser [] [] settings)) s
  | None => throws s
  end.

(** The field of the groups writes both forms of them. *)
Definition groups_changed (r : view) (text : jsstr) (s : state) : state :=
  let groups := List.filter str_truthy (map trim (split_on 44 text)) in
  handleInputChange r "group" (VStr text) (handleInputChange r "groups" (VArr (map VStr groups)) s).

(** The switch does not write the inputs. *)
Definition auto_ban_changed (b : bool) (s : state) : state :=
  on_view (setAutoBan b) (with_form (set_value (u "auto_ban") (VBool b) (form s)) s).

Definition handleOpenIonetDeployment (r : view) (s : state) : state :=
  match ionetMetadata r with
  | Some meta =>
      let id := opt_read (u "deployment_id") meta in
      if truthy id then
        match to_string id with
        | Some x => emit (OpenWindow (u "/console/deployment?deployment_id=" ++ x)) s
        | None => throws s
        end
      else s
  | None => s
  end.

Definition addCustomModels (r : view) (s : state) : state :=
  match trim (customModel r) with
  | [] => s
  | _ =>
      match input "models" r with
      | VArr models =>
          let has l m := existsb (λ v, strict_eq v (VStr m)) l in
          let added := fold_left (λ acc m, if str_truthy m && negb (has models m) && negb (bool_decide (m ∈ acc)) then acc ++ [m] else acc)
            (map trim (split_on 44 (customModel r))) [] in
          let s := handleInputChange r "models" (VArr (models ++ map VStr added))
            (on_view (λ v, setTyped [] (modelSearchValue v) v) s) in
          emit (match added with [] => ShowInfo (t (u "未发现新增模型")) | _ => AddedModels added end) s
      | _ => throws s
      end
  end.

Definition copy_models (r : view) (s : state) : state :=
  match input "models" r with
  | VArr ((_ :: _) as l) =>
      match to_string (VArr l) with
      | Some text => emit (ShowSuccess (t (u "模型列表已复制到剪贴板"))) (emit (Clipboard text) s)
      | None => emit (ShowError (VStr (t (u "复制失败")))) s
      end
  | VArr [] => emit (ShowInfo (t (u "没有模型可以复制"))) s
  | v => emit (if truthy v then ShowError (VStr (t (u "复制失败"))) else ShowInfo (t (u "没有模型可以复制"))) s
  end.

(** *** Lists of models *)

(** [Array.from(new Set(l))] *)
Definition unique (l : list value) : list value :=
  fold_left (λ acc v, if existsb (strict_eq v) acc then acc else acc ++ [v]) l [].

Definition show_mapping (models : list value) (key : jsstr) (v : value) (s : state) : state :=
  match models with
  | [] => emit (ShowInfo (t (u "暂无模型"))) s
  | _ =>
      let text x := match x with VUndef | VNull => Some [] | _ => trim <$> to_string x end in
      match mapM text models, text v with
      | Some texts, Some current =>
          let texts := set_order (List.filter str_truthy texts) in
          on_view (setMapping (mk_mapping true texts key (if bool_decide (current ∈ texts) then current else []))) s
      | _, _ => throws s
      end
  end.

(** After a list was fetched, or could not be ([None]). *)
Definition models_fetched (r : view) (k : after_models) (models : option (list value)) (s : state) : state :=
  match k with
  | Plain => s
  | ForMapping key v => show_mapping (default (fetchedModels r) models) key v s
  end.

Definition fetchUpstreamModelList (r : view) (silent : bool) (k : after_models) (s : state) : state :=
  match trim_value (input "key" r) with
  | None => throws s
  | Some ((_ :: _) as formKey) =>
      suspend (FetchUpstream silent r k) (emit (Post (u "/api/channel/fetch_models")
        (VObj [(u "base_url", value_or (input "base_url" r) (VStr [])); (u "type", input "type" r);
               (u "key", VStr (trim (default [] (head (split_on 10 formKey)))))])) (on_view (setLoading true) s))
  | Some [] =>
      if isEdit r then
        match to_string (channelId r) with
        | Some id => suspend (FetchUpstream silent r k)
            (emit (Get (u "/api/channel/fetch_models/" ++ id)) (on_view (setLoading true) s))
        | None => throws (on_view (setLoading true) s)
        end
      else models_fetched r k None (emit (ShowError (VStr (t (u "请先填写密钥")))) s)
  end.

Definition upstream_answered (silent : bool) (r : view) (k : after_models) (res : value) (s : state) : state :=
  let data := opt_read (u "data") res in
  if truthy (opt_read (u "success") data) then
    match opt_read (u "data") data with
    | VArr l =>
        let models := unique l in
        models_fetched r k (Some models)
          (on_view (λ v, setLoading false (setFetched (negb silent || modelModalVisible v) models v)) s)
    | _ => throws s
    end
  else models_fetched r k None (on_view (setLoading false) (emit (ShowError (VStr (t (u "获取模型列表失败")))) s)).

Definition openModelMappingValueModal (r : view) (pairKey v : value) (s : state) : state :=
  match (match pairKey with VUndef | VNull => Some [] | _ => to_string pairKey end) with
  | None => throws s
  | Some text =>
      match trim text with
      | [] => s
      | key =>
          if negb (fetchable (input "type" r)) then s
          else match fetchedModels r with
               | [] => fetchUpstreamModelList r true (ForMapping key v) s
               | models => show_mapping models key v s
               end
      end
  end.

(** The choice of a target writes it into the mapping, or into a new one. *)
Definition mapping_chosen (r : view) (selected : value) (s : state) : state :=
  match (match selected with VUndef | VNull => Some [] | _ => to_string selected end) with
  | None => throws s
  | Some text =>
      match trim text with
      | [] => emit (ShowError (VStr (t (u "请先选择模型！")))) s
      | modelName =>
          let close s := on_view (λ v, let m := modelMappingModal v in
            setMapping (mk_mapping false (mm_models m) (mm_key m) (mm_selected m)) v) s in
          match trim (mm_key (modelMappingModal r)) with
          | [] => close s
          | key =>
              let parsed := match input "model_mapping" r with
                | VStr m => match (if str_truthy (trim m) then json_parse m else None) with Some (VObj o) => o | _ => [] end
                | VObj o => o
                | _ => [] end in
              let next := VStr (ser gap2 [] (VObj (set key (VStr modelName) parsed))) in
              let s := handleInputChange r "model_mapping" next s in
              close (with_form (set_value (u "model_mapping") next (form s)) s)
          end
      end
  end.

(** *** Loading *)

Definition loadChannel (s : state) : state :=
  let s := on_view (setLoading true) s in
  match to_string (channelId (now s)) with
  | Some id => suspend LoadChannel (emit (Get (u "/api/channel/" ++ id)) s)
  | None => throws s
  end.

(** The state of the dialog for the inputs of a channel, part by part: what follows a
    part that throws is left as it was, and the dialog goes on loading. *)
Definition show_channel (data : props) (s : state) : state :=
  let s := put_inputs (λ _, data) s in
  let s := with_form (set_values data (form s)) s in
  let s := on_view (λ v, setIsEnterpriseAccount (truthy (prop (u "is_enterprise_account") data))
    (setAutoBan (negb (strict_eq (prop (u "auto_ban") data) (n 0))) v)) s in
  match models_of (prop (u "type") data) s with
  | None => throws s
  | Some (basic, s) =>
      let s := on_view (setBasicModels basic) s in
      let s := with_initial (default [] (clean_models (prop (u "models") data)))
        (value_or (prop (u "model_mapping") data) (VStr [])) (value_or (prop (u "status_code_mapping") data) (VStr [])) s in
      match advanced_set data with
      | None => throws s
      | Some open =>
          let s := on_view (λ v, setMeta (ionet_metadata (prop (u "other_info") data)) (statusCodeRiskConfirm v)
            (setAdvancedSettingsOpen open v)) s in
          match hasAdvancedValues data with
          | None => throws s
          | Some more => on_view (λ v, setLoading false (setAdvancedSettingsOpen (more || advancedSettingsOpen v) v)) s
          end
      end
  end.

Definition channel_answered (res : value) (s : state) : state :=
  if is_undef res then s
  else match read (u "data") res ≫= λ data, success ← read (u "success") data; Some (data, success) with
  | None => throws s
  | Some (data, success) =>
      if truthy success then
        match as_object (opt_read (u "data") data) ≫= channel_inputs with
        | Some data => show_channel data s
        | None => throws s
        end
      else on_view (setLoading false) (emit (ShowError (opt_read (u "message") data)) s)
  end.

Definition list_failed (error : value) (s : state) : state := emit (ShowError (opt_read (u "message") error)) s.

(** The identifiers of the models; the basic ones begin like those of OpenAI. *)
Definition models_listed (res : value) (s : state) : state :=
  match read (u "data") res ≫= read (u "data") with
  | Some (VArr l) =>
      match mapM (λ m, id ← read (u "id") m; trim_value id) l with
      | None => list_failed engine_error s
      | Some options =>
          let ids := map (opt_read (u "id")) l in
          let s := on_view (λ v, setModels options (basicModels v) ids (modelGroups v) v) s in
          match mapM (λ id, match id with VStr x => Some (starts_with x (u "gpt-") || starts_with x (u "text-")) | _ => None end) ids with
          | Some basic => on_view (setBasicModels (VArr (map fst (List.filter snd (zip ids basic))))) s
          | None => list_failed engine_error s
          end
      end
  | _ => list_failed engine_error s
  end.

Definition groups_listed (res : value) (s : state) : state :=
  let data := opt_read (u "data") res in
  if truthy (opt_read (u "success") data)
  then on_view (λ v, setModels (originModelOptions v) (basicModels v) (fullModels v) (value_or (opt_read (u "data") data) (VArr [])) v) s
  else s.

Definition fetchModels (s : state) : state := suspend FetchModels (emit (Get (u "/api/channel/models")) s).
Definition fetchModelGroups (s : state) : state := suspend FetchGroups (emit (Get (u "/api/prefill_group?type=model")) s).

Definition handleRefreshCodexCredential (r : view) (s : state) : state :=
  if negb (isEdit r) then s
  else
    let s := on_view (setCodexCredentialRefreshing true) s in
    match to_string (channelId r) with
    | Some id => suspend RefreshCodex (emit (Post (u "/api/channel/" ++ id ++ u "/codex/refresh") (VObj [])) s)
    | None => on_view (setCodexCredentialRefreshing false)
        (emit (ShowError (value_or (opt_read (u "message") engine_error) (VStr (t (u "刷新失败"))))) s)
    end.

Definition codex_failed (message : value) (s : state) : state :=
  on_view (setCodexCredentialRefreshing false) (emit (ShowError (value_or message (VStr (t (u "刷新失败"))))) s).

Definition codex_answered (res : value) (s : state) : state :=
  let data := opt_read (u "data") res in
  if truthy (opt_read (u "success") data)
  then on_view (setCodexCredentialRefreshing false) (emit (ShowSuccess (t (u "凭证已刷新"))) s)
  else codex_failed (value_or (opt_read (u "message") data) (VStr (u "Failed to refresh credential"))) s.

(** *** Saving *)

Definition hasModelConfigChanged (r : view) (models : list jsstr) (mapping : value) (s : state) : option bool :=
  if negb (isEdit r) then Some true
  else if bool_decide (models = initialModels s) then
    a ← trim_value mapping; b ← trim_value (initialModelMapping s); Some (negb (bool_decide (a = b)))
  else Some true.

(** The request of a save; [None] when a field cannot be read. *)
Definition save_request (r : view) (models : list jsstr) (o : props) : option effect :=
  o ← channel_payload (input "groups" r) models o;
  let key := string_or_empty (prop (u "key") o) in
  if isEdit r then
    id ← to_string (channelId r);
    Some (Put (u "/api/channel/") (VObj (set (u "id") (VNum (parse_int_text id)) (edited_key key o))))
  else
    let '(mode, key) := new_key (prop (u "type") o) key in
    Some (Post (u "/api/channel/") (VObj [(u "mode", VStr mode); (u "multi_key_mode", VStr (u "random"));
      (u "channel", VObj (set (u "key") (VStr key) o))])).

Definition write (w : saving) (s : state) : state :=
  match save_request (sv_render w) (sv_models w) (sv_inputs w) with
  | Some request => suspend (Saving (isEdit (sv_render w))) (emit request s)
  | None => throws s
  end.

(** The status codes: an invalid entry is refused, a new redirect that is not allowed
    is asked about. *)
Definition check_status_codes (w : saving) (s : state) : state :=
  let mapping := prop (u "status_code_mapping") (sv_inputs w) in
  match collectInvalidStatusCodeEntries mapping with
  | None => throws s
  | Some ((_ :: _) as invalid) =>
      emit (ShowError (VStr (t (u "状态码复写包含无效的状态码") ++ u ": " ++ join (u ", ") invalid))) s
  | Some [] =>
      match collectNewDisallowedStatusCodeRedirects (initialStatusCodeMapping s) mapping with
      | [] => write w s
      | risky => with_resolver (Some w) (on_view (λ v, setMeta (ionetMetadata v) (Some risky) v) s)
      end
  end.

(** The answer to the question about models that the list has not. *)
Definition missing_answered (w : saving) (missing : list jsstr) (c : choice) (s : state) : state :=
  match c with
  | Cancel => s
  | Submit => check_status_codes w s
  | Add =>
      let models := set_order (sv_models w ++ missing) in
      check_status_codes (mk_saving (sv_render w) (sv_inputs w) models)
        (handleInputChange (sv_render w) "models" (VArr (map VStr models)) s)
  end.

Definition check_models (w : saving) (parsed : value) (s : state) : state :=
  match missing_models parsed (sv_models w) with
  | [] => check_status_codes w s
  | missing =>
      match hasModelConfigChanged (sv_render w) (sv_models w) (prop (u "model_mapping") (sv_inputs w)) s with
      | None => throws s
      | Some true => ask (MissingMappings w missing) s
      | Some false => check_status_codes w s
      end
  end.

Definition submit (r : view) (s : state) : state :=
  let o := form s in
  let override := match prop (u "param_override") o with VUndef | VNull => input "param_override" r | v => v end in
  match displayToParamOverride override with
  | None => emit (ShowInfo (t (u "参数重定向格式不正确"))) s
  | Some text =>
      let o := set (u "param_override") (VStr text) o in
      if json_like (trim text) && negb (verifyJSON text) then emit (ShowInfo (t (u "参数重定向格式不正确"))) s
      else if negb (isEdit r) && negb (truthy (prop (u "name") o)) then emit (ShowInfo (t (u "请填写渠道名称！"))) s
      else
        let models := match prop (u "models") o with VArr l => VArr l | _ => VArr [] end in
        match parsed_mapping (prop (u "model_mapping") o) with
        | None => emit (ShowInfo (t (u "模型映射必须是合法的 JSON 格式！"))) s
        | Some parsed =>
            match clean_models models with
            | Some models => check_models (mk_saving r o models) parsed s
            | None => throws s
            end
        end
  end.

Definition resolveStatusCodeRiskConfirm (confirmed : bool) (s : state) : state :=
  let waiting := riskResolver s in
  let s := with_resolver None (on_view (λ v, setMeta (ionetMetadata v) None v) s) in
  match waiting with
  | Some w => if confirmed then write w s else s
  | None => s
  end.

Definition saved (wasEdit : bool) (res : value) (s : state) : state :=
  match read (u "data") res ≫= λ data, success ← read (u "success") data; Some (data, success) with
  | None => throws s
  | Some (data, success) =>
      if truthy success then
        let s := if wasEdit then emit (ShowSuccess (t (u "渠道更新成功！"))) s
                 else put_inputs (λ _, originInputs) (emit (ShowSuccess (t (u "渠道创建成功！"))) s) in
        emit CloseDialog (emit RefreshList s)
      else emit (ShowError (opt_read (u "message") data)) s
  end.

(** *** Opening and closing *)

Definition resetModalState (s : state) : state :=
  let s := with_form after_reset (resolveStatusCodeRiskConfirm false s) in
  put_inputs (λ _, originInputs) (on_view (λ v, setAdvancedSettingsOpen false
    (setIsEnterpriseAccount false (setTyped (customModel v) [] v))) s).

(** The effect on the identifier. *)
Definition channel_changed (r : view) (s : state) : state :=
  let s := fetchModels s in
  if isEdit r then s
  else
    let s := with_form (set_values originInputs (form s)) (put_inputs (λ _, originInputs) s) in
    match models_of (input "type" r) s with
    | Some (models, s) => put_inputs (set (u "models") models) (on_view (setBasicModels models) s)
    | None => throws s
    end.

(** The effect on [visible] and the identifier. *)
Definition visibility_changed (s : state) : state :=
  let s := on_view (λ v, setTyped (customModel v) [] v) s in
  if visible (now s) then
    fetchModelGroups
      (if isEdit (now s) then loadChannel s
       else on_view (setAdvancedSettingsOpen false) (with_form (set_values originInputs (form s)) s))
  else resetModalState s.

(** The effects on whether there is a channel. *)
Definition forget_deployment (s : state) : state :=
  if isEdit (now s) then s else on_view (λ v, setMeta None (statusCodeRiskConfirm v) v) s.
Definition forget_channel (s : state) : state :=
  if isEdit (now s) then s else with_initial [] (VStr []) (VStr []) s.

(** New properties, and the effects of the render. *)
Definition show (id : value) (shown : bool) (s : state) : state :=
  let r := now s in
  let s := on_view (setProps id shown) s in
  let same := strict_eq id (channelId r) in
  let other := negb (eqb (isEdit r) (isEdit (now s))) in
  let s := if other then forget_deployment s else s in
  let s := if same then s else channel_changed (now s) s in
  let s := if same && eqb shown (visible r) then s else visibility_changed s in
  if other || negb (eqb shown (visible r)) then forget_channel s else s.

(** *** Steps *)

Inductive event :=
  | Show (id : value) (shown : bool)
  | Field (name : string) (v : value)
  | OtherSetting (key : string) (v : value)
  | Groups (text : jsstr)
  | AutoBan (b : bool)
  | Enterprise (b : bool)
  | CustomModel (text : jsstr)
  | SearchModel (text : jsstr)
  | AddCustomModels
  | CopyModels
  | FetchList
  | MappingModal (pairKey v : value)
  | CloseMapping
  | ChooseMapping (selected : value)
  | ChooseModels (selected : value)
  | CloseModels
  | Codex
  | Ionet
  | ToggleAdvanced
  | Save
  | Choose (i : nat) (c : choice)
  | Risk (confirmed : bool)
  | Answer (i : nat) (res : value)
  | Failure (i : nat) (error : value).

Definition take_call (i : nat) (s : state) : state := with_calls (delete i (calls s)) s.

Definition answered (w : waiting) (res : value) (s : state) : state :=
  match w with
  | LoadChannel => channel_answered res s
  | FetchModels => models_listed res s
  | FetchGroups => groups_listed res s
  | FetchUpstream silent r k => upstream_answered silent r k res s
  | RefreshCodex => codex_answered res s
  | Saving wasEdit => saved wasEdit res s
  end.

Definition failed (w : waiting) (error : value) (s : state) : state :=
  match w with
  | FetchModels => list_failed error s
  | FetchGroups => s
  | RefreshCodex => codex_failed (opt_read (u "message") error) s
  | LoadChannel | FetchUpstream _ _ _ | Saving _ => emit (Unhandled error) s
  end.

(** The buttons of a question; one of [MissingMappings] closes it. *)
Definition chosen (d : dialog) (c : choice) (s : state) : state :=
  match d with
  | BaseUrlV1 v => match c with Cancel => s | _ => put_inputs (set (u "base_url") v) s end
  | MissingMappings w missing => missing_answered w missing c s
  end.

Definition step (s : state) (e : event) : state :=
  let r := now s in
  match e with
  | Show id shown => show id shown s
  | Field name v => handleInputChange r name v s
  | OtherSetting key v => handleChannelOtherSettingsChange r key v s
  | Groups text => groups_changed r text s
  | AutoBan b => auto_ban_changed b s
  | Enterprise b => handleInputChange r "is_enterprise_account" (VBool b) (on_view (setIsEnterpriseAccount b) s)
  | CustomModel text => on_view (λ v, setTyped (trim text) (modelSearchValue v) v) s
  | SearchModel text => on_view (λ v, setTyped (customModel v) text v) s
  | AddCustomModels => addCustomModels r s
  | CopyModels => copy_models r s
  | FetchList => fetchUpstreamModelList r false Plain s
  | MappingModal pairKey v => openModelMappingValueModal r pairKey v s
  | CloseMapping => on_view (λ v, let m := modelMappingModal v in
      setMapping (mk_mapping false (mm_models m) (mm_key m) (mm_selected m)) v) s
  | ChooseMapping selected => mapping_chosen r selected s
  | ChooseModels selected =>
      on_view (λ v, setFetched false (fetchedModels v) v)
        (emit (ShowSuccess (t (u "模型列表已更新"))) (handleInputChange r "models" selected s))
  | CloseModels => on_view (λ v, setFetched false (fetchedModels v) v) s
  | Codex => handleRefreshCodexCredential r s
  | Ionet => handleOpenIonetDeployment r s
  | ToggleAdvanced => on_view (λ v, setAdvancedSettingsOpen (negb (advancedSettingsOpen v)) v) s
  | Save => submit r s
  | Choose i c =>
      match dialogs s !! i with
      | Some d => chosen d c (with_dialogs (delete i (dialogs s)) s)
      | None => s
      end
  | Risk confirmed => resolveStatusCodeRiskConfirm confirmed s
  | Answer i res => match calls s !! i with Some w => answered w res (take_call i s) | None => s end
  | Failure i error => match calls s !! i with Some w => failed w error (take_call i s) | None => s end
  end.

Definition run (s : state) (es : list event) : state := fold_left step es s.

Definition first_view (id : value) : view :=
  mk_view id false originInputs (negb (is_undef id)) true false [] (VArr []) [] (VArr []) [] [] false []
    (mk_mapping false [] [] []) None false None false.

(** The dialog is there before it is shown. *)
Definition init (id : value) (first_form : props) (cache : option value) (store : storage) : state :=
  let s := mk_state (first_view id) first_form [] (VStr []) (VStr []) None cache store [] [] [] in
  forget_channel (visibility_changed (channel_changed (now s) (forget_deployment s))).
End dialog.
