(* ===== verification/ChannelModalLaws.v ===== *)
(** * The dialog of a channel: laws
    What is written has been checked; an answer that comes late, and a switch whose
    value is not kept. *)

From Stdlib Require Import SpecFloat.
From stdpp Require Import base numbers option strings sets list.
From S2P Require Import Prelude JsString JsNumber JsValue Json JsOps Session StatusCodeRisk OAuth ChannelForm ChannelFormLaws ChannelModal.

(** ** What is written *)

(** The status codes of a save that may be written when it is confirmed, and of one
    that needs no confirmation. *)
Definition valid_codes (o : props) : Prop :=
  collectInvalidStatusCodeEntries (prop (u "status_code_mapping") o) = Some [].
Definition no_new_risk (s : state) (o : props) : Prop :=
  collectNewDisallowedStatusCodeRedirects (initialStatusCodeMapping s) (prop (u "status_code_mapping") o) = [].

(** The inputs of a request that writes a channel. *)
Definition written (e : effect) : option props :=
  match e with
  | Put _ (VObj o) => Some o
  | Post _ (VObj o) => match prop (u "channel") o with VObj c => Some c | _ => None end
  | _ => None
  end.
Definition writes (s : state) : list props := omap written (log s).

(** Every save that waits has valid codes. *)
Definition pending_ok (s : state) : Prop := ∀ w, riskResolver s = Some w → valid_codes (sv_inputs w).

Lemma prop_set_ne k k' v o : u k' ≠ u k → prop (u k) (set (u k') v o) = prop (u k) o.
Proof. intros H. by rewrite prop_set, decide_False. Qed.
Lemma prop_del_ne k k' o : u k' ≠ u k → prop (u k) (del (u k') o) = prop (u k) o.
Proof. intros H. by rewrite prop_del, decide_False. Qed.

(** Writing keeps the status codes. *)
Lemma payload_codes groups models o o' :
  channel_payload groups models o = Some o' →
  prop (u "status_code_mapping") o' = prop (u "status_code_mapping") o.
Proof.
  unfold channel_payload. intros H.
  match type of H with (?x ≫= _) = _ => destruct x as [o1|] eqn:E1; [|done] end. cbn [mbind option_bind] in H.
  assert (prop (u "status_code_mapping") o1 = prop (u "status_code_mapping") o) as F1.
  { destruct (truthy _); [|by simplify_eq]. destruct (prop (u "base_url") o) as [| | | |s| |]; try done.
    destruct (ends_with s _); simplify_eq; [|done]. apply prop_set_ne. by vm_compute. }
  rewrite <- F1. clear E1 F1. set (o2 := if _ && _ then _ else o1) in H.
  assert (prop (u "status_code_mapping") o2 = prop (u "status_code_mapping") o1) as <-.
  { unfold o2. case_match; [|done]. apply prop_set_ne. by vm_compute. }
  clearbody o2. destruct (settings_text o2) as [settings|]; [|done]. cbn [mbind option_bind] in H.
  destruct (setting_text _) as [setting|]; [|done]. cbn [mbind option_bind] in H.
  match type of H with (?x ≫= _) = _ => destruct x as [group|]; [|done] end. cbn [mbind option_bind] in H.
  injection H as <-. unfold set_all, form_only. cbn [fold_left].
  repeat first [rewrite prop_set_ne by (vm_compute; discriminate) | rewrite prop_del_ne by (vm_compute; discriminate)].
  done.
Qed.

Lemma request_codes r models o e :
  save_request r models o = Some e →
  ∃ o', written e = Some o' ∧ prop (u "status_code_mapping") o' = prop (u "status_code_mapping") o.
Proof.
  unfold save_request. destruct (channel_payload (input "groups" r) models o) as [o1|] eqn:E; [|done].
  apply payload_codes in E. rewrite <- E. cbn [mbind option_bind]. cbv zeta. destruct (isEdit r).
  - destruct (to_string (channelId r)); [|done]. intros [= <-]. eexists. split; [done|].
    rewrite prop_set_ne by (vm_compute; discriminate). unfold edited_key.
    destruct (trim _); [apply prop_del_ne | apply prop_set_ne]; by vm_compute.
  - destruct (new_key _ _) as [mode key]. intros [= <-]. eexists. split; [reflexivity|].
    apply prop_set_ne. by vm_compute.
Qed.

Section laws.
Context (t : jsstr → jsstr) (engine_error : value).
Context (set_values : props → props → props) (set_value : jsstr → value → props → props) (after_reset : props).
Local Abbreviation step := (step t engine_error set_values set_value after_reset).
Local Abbreviation run := (run t engine_error set_values set_value after_reset).
Local Abbreviation init := (init engine_error set_values after_reset).
Local Abbreviation handleInputChange := (handleInputChange engine_error set_values set_value).

(** Nothing is written, and the question and the loaded codes are as before. *)
Definition quiet (s s' : state) : Prop :=
  writes s' = writes s ∧ riskResolver s' = riskResolver s ∧ initialStatusCodeMapping s' = initialStatusCodeMapping s.
(** Nothing is written, and no other save waits. *)
Definition still (s s' : state) : Prop :=
  writes s' = writes s ∧ (riskResolver s' = riskResolver s ∨ riskResolver s' = None).

Lemma quiet_trans s1 s2 s3 : quiet s1 s2 → quiet s2 s3 → quiet s1 s3.
Proof. intros (H1 & H2 & H3) (H4 & H5 & H6). unfold quiet. by rewrite H4, H5, H6. Qed.
Lemma quiet_still s s' : quiet s s' → still s s'.
Proof. intros (H1 & H2 & _). split; [done | by left]. Qed.
Lemma still_trans s1 s2 s3 : still s1 s2 → still s2 s3 → still s1 s3.
Proof. intros (H1 & H2) (H3 & H4). split; [congruence|]. destruct H2, H4; (left; congruence) || (right; congruence). Qed.

Lemma quiet_models_of type s models s' : models_of type s = Some (models, s') → quiet s s'.
Proof.
  unfold models_of. destruct (to_string type) as [k|]; [|done]. cbn [mbind option_bind].
  destruct (getChannelModels k _ _) as [[m c]|]; [|done]. cbn [mbind option_bind]. by intros [= <- <-].
Qed.

Lemma quiet_type_changed r type s : quiet s (type_changed engine_error set_values r type s).
Proof.
  unfold type_changed. destruct (fixed_models type) as [m|]; [repeat case_match; done|].
  destruct (models_of type s) as [[m s']|] eqn:E; [|done]. apply quiet_models_of in E.
  destruct (is_empty (input "models" r)) as [[]|]; (eapply quiet_trans; [exact E|done]).
Qed.

Lemma quiet_input r name v s : quiet s (handleInputChange r name v s).
Proof.
  unfold ChannelModal.handleInputChange. case_match; [done|]. cbv zeta. destruct (input_value name v) as [v'|]; [|done].
  destruct (decide (name = "base_url"%string)); [repeat case_match; done|].
  destruct (decide (name = "type"%string)); [|done].
  match goal with |- quiet _ (type_changed _ _ _ _ ?s1) => exact (quiet_type_changed r v' s1) end.
Qed.

Lemma quiet_setting r key v s : quiet s (handleChannelOtherSettingsChange engine_error set_values set_value r key v s).
Proof.
  unfold handleChannelOtherSettingsChange. cbv zeta. case_match; [|done].
  match goal with |- quiet _ (ChannelModal.handleInputChange _ _ _ _ _ _ ?s1) => exact (quiet_input r "settings" _ s1) end.
Qed.

Lemma quiet_custom r s : quiet s (addCustomModels t engine_error set_values set_value r s).
Proof.
  unfold addCustomModels. destruct (trim _); [done|]. destruct (input "models" r); try done. cbv zeta.
  match goal with |- quiet _ (emit _ (ChannelModal.handleInputChange _ _ _ _ _ ?v ?s1)) =>
    pose proof (quiet_input r "models" v s1) as H end.
  case_match; exact H.
Qed.

Lemma quiet_show_mapping models key v s : quiet s (show_mapping t engine_error models key v s).
Proof. unfold show_mapping. destruct models; [done|]. cbv zeta. repeat case_match; done. Qed.

Lemma quiet_fetched r k models s : quiet s (models_fetched t engine_error r k models s).
Proof. destruct k; [done|]. apply quiet_show_mapping. Qed.

Lemma quiet_fetch r silent k s : quiet s (fetchUpstreamModelList t engine_error r silent k s).
Proof.
  unfold fetchUpstreamModelList. destruct (trim_value _) as [[|c key]|]; [|done..].
  destruct (isEdit r); [by case_match|].
  match goal with |- quiet _ (models_fetched _ _ _ _ _ ?s1) => exact (quiet_fetched r k None s1) end.
Qed.

Lemma quiet_upstream silent r k res s : quiet s (upstream_answered t engine_error silent r k res s).
Proof.
  unfold upstream_answered. cbv zeta. destruct (truthy _).
  - destruct (opt_read _ (opt_read _ _)); try done.
    match goal with |- quiet _ (models_fetched _ _ _ _ ?m ?s1) => exact (quiet_fetched r k m s1) end.
  - match goal with |- quiet _ (models_fetched _ _ _ _ ?m ?s1) => exact (quiet_fetched r k m s1) end.
Qed.

Lemma quiet_mapping r pairKey v s : quiet s (openModelMappingValueModal t engine_error r pairKey v s).
Proof.
  unfold openModelMappingValueModal. destruct (match pairKey with VUndef | VNull => Some [] | _ => to_string pairKey end); [|done].
  destruct (trim _); [done|]. destruct (negb _); [done|]. destruct (fetchedModels r); [apply quiet_fetch | apply quiet_show_mapping].
Qed.

Lemma quiet_mapping_chosen r v s : quiet s (mapping_chosen t engine_error set_values set_value r v s).
Proof.
  unfold mapping_chosen. destruct (match v with VUndef | VNull => Some [] | _ => to_string v end); [|done].
  destruct (trim _); [done|]. cbv zeta. destruct (trim _); [done|].
  match goal with |- quiet _ (on_view _ (with_form _ (ChannelModal.handleInputChange _ _ _ _ _ ?v ?s1))) =>
    exact (quiet_input r "model_mapping" v s1) end.
Qed.

Lemma quiet_listed res s : quiet s (models_listed engine_error res s).
Proof. unfold models_listed. repeat case_match; done. Qed.

Lemma still_show_channel data s : still s (show_channel engine_error set_values data s).
Proof.
  unfold show_channel. cbv zeta.
  match goal with |- context [models_of _ ?s1] => assert (still s s1) as H by (split; [done | by left]);
    destruct (models_of (prop (u "type") data) s1) as [[m s2]|] eqn:E; [|exact H] end.
  apply quiet_models_of, quiet_still in E. pose proof (still_trans _ _ _ H E) as [H1 H2].
  repeat case_match; (split; [exact H1 | exact H2]).
Qed.

Lemma still_channel_answered res s : still s (channel_answered engine_error set_values res s).
Proof.
  unfold channel_answered. destruct (is_undef res); [by apply quiet_still|].
  destruct (_ ≫= _) as [[data ok]|]; [|by apply quiet_still]. destruct (truthy ok); [|by apply quiet_still].
  destruct (_ ≫= _); [apply still_show_channel | by apply quiet_still].
Qed.

Lemma quiet_saved b res s : quiet s (saved t engine_error set_values b res s).
Proof. unfold saved. destruct (_ ≫= _) as [[data ok]|]; [|done]. destruct (truthy ok); [|done]. by destruct b. Qed.

Lemma quiet_refresh r s : quiet s (handleRefreshCodexCredential t engine_error r s).
Proof. unfold handleRefreshCodexCredential. repeat case_match; done. Qed.

Lemma quiet_codex res s : quiet s (codex_answered t res s).
Proof. unfold codex_answered. by case_match. Qed.

Lemma quiet_groups_listed res s : quiet s (groups_listed res s).
Proof. unfold groups_listed. by case_match. Qed.

Lemma quiet_ionet r s : quiet s (handleOpenIonetDeployment engine_error r s).
Proof. unfold handleOpenIonetDeployment. repeat case_match; done. Qed.

Lemma quiet_copy r s : quiet s (copy_models t r s).
Proof. unfold copy_models. repeat case_match; done. Qed.

Lemma quiet_groups_changed r text s : quiet s (groups_changed engine_error set_values set_value r text s).
Proof. unfold groups_changed. cbv zeta. eapply quiet_trans; apply quiet_input. Qed.

(** *** Opening and closing *)

Lemma still_channel_changed r s : still s (channel_changed engine_error set_values r s).
Proof.
  unfold channel_changed. cbv zeta. destruct (isEdit r); [by apply quiet_still|].
  match goal with |- still _ (match models_of _ ?s1 with _ => _ end) =>
    destruct (models_of (input "type" r) s1) as [[m s2]|] eqn:E; [|by apply quiet_still] end.
  apply quiet_models_of in E. apply quiet_still. exact E.
Qed.

Lemma quiet_load s : quiet s (loadChannel engine_error s).
Proof. unfold loadChannel. cbv zeta. by destruct (to_string _). Qed.

Lemma still_visibility s : still s (visibility_changed engine_error set_values after_reset s).
Proof.
  unfold visibility_changed. cbv zeta. destruct (visible _).
  - destruct (isEdit _); [|by apply quiet_still]. apply quiet_still.
    match goal with |- quiet _ (fetchModelGroups (loadChannel _ ?s1)) => exact (quiet_load s1) end.
  - unfold resetModalState, resolveStatusCodeRiskConfirm. cbv zeta.
    split; [|right]; simpl; by destruct (riskResolver s).
Qed.

Lemma still_forget s : still s (forget_channel s).
Proof. unfold forget_channel. destruct (isEdit _); (split; [done | by left]). Qed.
Lemma still_deployment s : still s (forget_deployment s).
Proof. unfold forget_deployment. by destruct (isEdit _); apply quiet_still. Qed.

(** An effect that may not run. *)
Lemma still_then (b : bool) f s s' : (∀ s0, still s0 (f s0)) → still s s' → still s (if b then f s' else s').
Proof. intros Hf H. destruct b; [|done]. by eapply still_trans. Qed.
Lemma still_else (b : bool) f s s' : (∀ s0, still s0 (f s0)) → still s s' → still s (if b then s' else f s').
Proof. intros Hf H. destruct b; [done|]. by eapply still_trans. Qed.

Lemma still_show id shown s : still s (show engine_error set_values after_reset id shown s).
Proof.
  unfold show. cbv zeta. apply still_then; [apply still_forget|].
  apply still_else; [apply still_visibility|].
  match goal with |- still _ (if _ then ?s1 else _) => set (s2 := s1) end.
  apply (still_else _ (λ s0, channel_changed engine_error set_values (now s2) s0)); [intros s0; apply still_channel_changed|].
  apply still_then; [apply still_deployment | by apply quiet_still].
Qed.

(** *** Saving *)

(** From [s] with the loaded status codes of [s0]: nothing is written, or inputs that
    were asked about or need no question. *)
Definition guarded (asked : Prop) (s s' : state) : Prop :=
  (writes s' = writes s ∨ ∃ o, writes s' = o :: writes s ∧ valid_codes o ∧ (asked ∨ no_new_risk s o)) ∧
  (pending_ok s → pending_ok s').

Lemma still_guarded asked s s' : still s s' → guarded asked s s'.
Proof.
  intros [H1 H2]. split; [by left|]. intros Hp w Hw. destruct H2 as [H2|H2]; rewrite H2 in Hw; [by apply Hp | done].
Qed.
Lemma quiet_guarded asked s s' : quiet s s' → guarded asked s s'.
Proof. intros. by apply still_guarded, quiet_still. Qed.
Lemma guarded_after asked s s1 s2 : quiet s s1 → guarded asked s1 s2 → guarded asked s s2.
Proof.
  unfold quiet, guarded, pending_ok, no_new_risk. intros (H1 & H2 & H3) [Hw Hp]. rewrite H1, H2, H3 in *. by split.
Qed.

Lemma guarded_write asked w s :
  valid_codes (sv_inputs w) → asked ∨ no_new_risk s (sv_inputs w) → guarded asked s (write engine_error w s).
Proof.
  intros Hv Hr. unfold write. destruct (save_request _ _ _) as [e|] eqn:E; [|by apply quiet_guarded].
  apply request_codes in E as (o & He & Ho). split; [right; exists o | done].
  unfold valid_codes, no_new_risk in *. rewrite Ho. split_and!; [|done..].
  unfold writes. simpl. by rewrite He.
Qed.

Lemma guarded_status asked w s : guarded asked s (check_status_codes t engine_error w s).
Proof.
  unfold check_status_codes. cbv zeta. destruct (collectInvalidStatusCodeEntries _) as [[|e l]|] eqn:E;
    [|by apply quiet_guarded..].
  destruct (collectNewDisallowedStatusCodeRedirects _ _) eqn:R; [apply guarded_write; [done | by right]|].
  split; [by left|]. intros _ w' [= <-]. done.
Qed.

Lemma guarded_choice asked w missing c s :
  guarded asked s (missing_answered t engine_error set_values set_value w missing c s).
Proof.
  destruct c; unfold missing_answered; [by apply quiet_guarded | apply guarded_status|].
  eapply guarded_after; [apply quiet_input | apply guarded_status].
Qed.

Lemma guarded_models asked w parsed s : guarded asked s (check_models t engine_error w parsed s).
Proof.
  unfold check_models. destruct (missing_models _ _); [apply guarded_status|].
  destruct (hasModelConfigChanged _ _ _ _) as [[]|]; [by apply quiet_guarded | apply guarded_status | by apply quiet_guarded].
Qed.

Lemma guarded_submit asked r s : guarded asked s (submit t engine_error r s).
Proof.
  unfold submit. cbv zeta. destruct (displayToParamOverride _); [|by apply quiet_guarded].
  repeat (case_match; [by apply quiet_guarded|]). case_match; [|by apply quiet_guarded].
  case_match; [apply guarded_models | by apply quiet_guarded].
Qed.

Lemma guarded_risk confirmed s :
  pending_ok s → guarded (confirmed = true ∧ is_Some (riskResolver s)) s (resolveStatusCodeRiskConfirm engine_error confirmed s).
Proof.
  intros Hp. unfold resolveStatusCodeRiskConfirm. cbv zeta.
  set (s1 := with_resolver None _). assert (still s s1) as H1 by (split; [done | by right]).
  destruct (riskResolver s) as [w|] eqn:E; [|by apply still_guarded].
  destruct confirmed; [|by apply still_guarded].
  destruct (guarded_write True w s1 (Hp w E) (or_introl I)) as [[Hw|(o & Hw & Hv & _)] Hp1]; destruct H1 as [H1 _].
  - split; [left; congruence|]. intros _. apply Hp1. by intros w'.
  - split; [right; exists o|].
    + rewrite Hw, H1. split_and!; [done..|]. left. by split.
    + intros _. apply Hp1. by intros w'.
Qed.

Lemma guarded_answer asked w res s :
  guarded asked s (answered t engine_error set_values w res s).
Proof.
  destruct w; simpl; [apply still_guarded, still_channel_answered | apply quiet_guarded..].
  - apply quiet_listed.
  - apply quiet_groups_listed.
  - apply quiet_upstream.
  - apply quiet_codex.
  - apply quiet_saved.
Qed.

Lemma guarded_step s e :
  pending_ok s → guarded (e = Risk true ∧ is_Some (riskResolver s)) s (step s e).
Proof.
  intros Hp. destruct e; simpl.
  - apply still_guarded, still_show.
  - apply quiet_guarded, quiet_input.
  - apply quiet_guarded, quiet_setting.
  - apply quiet_guarded, quiet_groups_changed.
  - by apply quiet_guarded.
  - apply quiet_guarded. match goal with |- quiet _ (ChannelModal.handleInputChange _ _ _ _ _ ?v ?s1) => exact (quiet_input (now s) "is_enterprise_account" v s1) end.
  - by apply quiet_guarded.
  - by apply quiet_guarded.
  - apply quiet_guarded, quiet_custom.
  - apply quiet_guarded, quiet_copy.
  - apply quiet_guarded, quiet_fetch.
  - apply quiet_guarded, quiet_mapping.
  - by apply quiet_guarded.
  - apply quiet_guarded, quiet_mapping_chosen.
  - apply quiet_guarded. exact (quiet_input (now s) "models" selected s).
  - by apply quiet_guarded.
  - apply quiet_guarded, quiet_refresh.
  - apply quiet_guarded, quiet_ionet.
  - by apply quiet_guarded.
  - apply guarded_submit.
  - destruct (dialogs s !! i) as [d|]; [|by apply quiet_guarded].
    apply (guarded_after _ _ (with_dialogs (delete i (dialogs s)) s)); [done|].
    destruct d; simpl; [destruct c; by apply quiet_guarded | apply guarded_choice].
  - destruct (guarded_risk confirmed s Hp) as [[H|(o & H & Hv & Hr)] H2]; (split; [|exact H2]); [by left | right; exists o].
    split_and!; [done..|]. destruct Hr as [[-> ?]|]; [by left | by right].
  - destruct (calls s !! i) as [w|]; [|by apply quiet_guarded].
    apply (guarded_after _ _ (take_call i s)); [done | apply guarded_answer].
  - destruct (calls s !! i) as [w|]; [|by apply quiet_guarded]. by destruct w; apply quiet_guarded.
Qed.

Lemma pending_run es s : pending_ok s → pending_ok (run s es).
Proof.
  unfold ChannelModal.run. induction es as [|e es IH] in s |- *; [done|]. intros H. apply IH. by apply guarded_step.
Qed.

Lemma pending_init id f cache store : pending_ok (init id f cache store).
Proof.
  unfold ChannelModal.init. cbv zeta. set (s0 := mk_state _ _ _ _ _ _ _ _ _ _ _).
  enough (still s0 (forget_channel (visibility_changed engine_error set_values after_reset
    (channel_changed engine_error set_values (now s0) (forget_deployment s0))))) as H.
  { by apply (still_guarded True) in H as [_ H]; apply H; intros w. }
  eapply still_trans; [|apply still_forget]. eapply still_trans; [|apply still_visibility].
  eapply still_trans; [apply still_deployment | apply still_channel_changed].
Qed.

(** C6: in every state the dialog comes to, an event writes at most one channel, its
    status codes are valid, and it is the confirmation of the question that waits,
    unless the codes have no new redirect that is not allowed. *)
Theorem saves_are_checked id f cache store es e :
  let s := run (init id f cache store) es in
  writes (step s e) = writes s ∨
  ∃ o, writes (step s e) = o :: writes s ∧ valid_codes o ∧
    ((e = Risk true ∧ is_Some (riskResolver s)) ∨ no_new_risk s o).
Proof. intros s. apply guarded_step, pending_run, pending_init. Qed.

(** ** An answer that comes late *)

(** The channel of an answer of [loadChannel]. *)
Definition loaded (res : value) : option props :=
  data ← read (u "data") res; success ← read (u "success") data;
  if truthy success then as_object (opt_read (u "data") data) ≫= channel_inputs else None.

Lemma models_of_view type s models s' :
  models_of type s = Some (models, s') → now s' = now s ∧ form s' = form s ∧ calls s' = calls s.
Proof.
  unfold models_of. destruct (to_string type) as [k|]; [|done]. cbn [mbind option_bind].
  destruct (getChannelModels k _ _) as [[m c]|]; [|done]. cbn [mbind option_bind]. by intros [= <- <-].
Qed.

Lemma show_channel_inputs data s :
  let s' := show_channel engine_error set_values data s in
  inputs (now s') = data ∧ channelId (now s') = channelId (now s) ∧ form s' = set_values data (set_values data (form s)).
Proof.
  unfold show_channel. cbv zeta.
  match goal with |- context [models_of _ ?s1] =>
    destruct (models_of (prop (u "type") data) s1) as [[m s2]|] eqn:E; [|by split_and!] end.
  apply models_of_view in E as (E1 & E2 & _). repeat case_match; simpl in *; by rewrite E1, E2.
Qed.

Lemma request_of_edit r models o e id :
  isEdit r = true → to_string (channelId r) = Some id → save_request r models o = Some e →
  ∃ o', e = Put (u "/api/channel/") (VObj o') ∧ prop (u "id") o' = VNum (parse_int_text id).
Proof.
  intros He Hid. unfold save_request. destruct (channel_payload _ _ _) as [o1|]; [|done].
  cbn [mbind option_bind]. cbv zeta. rewrite He, Hid. cbn [mbind option_bind]. intros [= <-]. eexists. split; [done|].
  by rewrite prop_set, decide_True.
Qed.

(** a channel that is loaded is shown, and is what the form has, also when the
    dialog is open for another one by then: a save writes it to the other one. *)
Theorem late_channel_shown s i res data id :
  calls s !! i = Some LoadChannel → loaded res = Some data →
  isEdit (now s) = true → to_string (channelId (now s)) = Some id →
  let s' := step s (Answer i res) in
  inputs (now s') = data ∧ form s' = set_values data (set_values data (form s)) ∧
  ∀ models e, save_request (now s') models (form s') = Some e →
    ∃ o, e = Put (u "/api/channel/") (VObj o) ∧ prop (u "id") o = VNum (parse_int_text id).
Proof.
  intros Hc Hl He Hid. cbv zeta. simpl. rewrite Hc. simpl. unfold channel_answered.
  assert (is_undef res = false) as -> by (by destruct res).
  unfold loaded in Hl. destruct (read (u "data") res) as [d|]; [|done]. cbn [mbind option_bind] in *.
  destruct (read (u "success") d) as [ok|]; [|done]. cbn [mbind option_bind] in *.
  destruct (truthy ok); [|done]. rewrite Hl.
  destruct (show_channel_inputs data (take_call i s)) as (H1 & H2 & H3). split_and!; [done | exact H3|].
  intros models e. apply request_of_edit; [|by rewrite H2]. unfold isEdit. by rewrite H2.
Qed.

(** ** A switch whose value is not kept *)

(** the switch that bans a channel by itself writes only the form.  A field changed
    after it writes the inputs to the form, and the value the switch had before with
    them, while the switch shows the new one. *)
Theorem auto_ban_forgotten s b name v :
  (∀ o f k, k ∈ keys o → prop k (set_values o f) = prop k o) →
  name ∉ ["auto_ban"; "base_url"; "type"; "models"]%string → u "auto_ban" ∈ keys (inputs (now s)) → u name ≠ u "auto_ban" →
  let s' := run s [AutoBan b; Field name v] in
  autoBan (now s') = b ∧ prop (u "auto_ban") (form s') = prop (u "auto_ban") (inputs (now s)).
Proof.
  intros Hform Hname Hin Hne.
  assert (name ≠ "base_url" ∧ name ≠ "type" ∧ name ≠ "models")%string as (N1 & N2 & N3)
    by (repeat split; intros ->; apply Hname; set_solver).
  unfold ChannelModal.run. cbn [fold_left ChannelModal.step]. unfold ChannelModal.handleInputChange.
  assert (bool_decide (name ∈ ["type"; "base_url"]%string) = false) as -> by (apply bool_decide_eq_false; set_solver).
  rewrite andb_false_r. cbv zeta. unfold input_value.
  rewrite (decide_False (P := name = "models"%string)) by done.
  assert ((match v with VArr _ => Some v | _ => Some v end) = Some v) as -> by by destruct v.
  rewrite !decide_False by done. split; [done|]. simpl. rewrite Hform.
  - by rewrite prop_set_ne.
  - apply keys_set. by right.
Qed.
End laws.

(** *** A form that shows what it is given *)

Lemma prop_app_keys k (o f : props) : k ∈ keys o → prop k (o ++ f) = prop k o.
Proof.
  intros Hk. unfold prop. enough (get k (o ++ f) = get k o) as -> by done.
  induction o as [|[k' v] o IH]; simpl in *; [by apply not_elem_of_nil in Hk|].
  case_decide as Hne; [done|]. apply IH. by apply elem_of_cons in Hk as [->|].
Qed.

(** The server's answer for a channel of this name. *)
Definition channel_named (name : string) : value :=
  VObj [(u "data", VObj [(u "success", VBool true); (u "data", VObj [(u "type", n 1); (u "name", VStr (u name));
    (u "models", VStr []); (u "group", VStr []); (u "model_mapping", VStr [])])])].

(** The dialog for channel 1, then for channel 2, whose answer is there. *)
Definition second_channel : state :=
  run (λ x, x) VUndef (λ o f, o ++ f) (λ k v o, set k v o) []
    (init VUndef (λ o f, o ++ f) [] (n 1) [] (Some (VObj [])) [])
    [Show (n 1) true; Show (n 2) true; Answer 4 (channel_named "b")].

(** The late answer for channel 1: its name would be written to channel 2. *)
Lemma late_channel_shown_witness :
  let s' := step (λ x, x) VUndef (λ o f, o ++ f) (λ k v o, set k v o) [] second_channel (Answer 1 (channel_named "a")) in
  prop (u "name") (inputs (now s')) = VStr (u "a") ∧
  ∀ models e, save_request (now s') models (form s') = Some e →
    ∃ o, e = Put (u "/api/channel/") (VObj o) ∧ prop (u "id") o = VNum (parse_int_text (u "2")).
Proof.
  cbv zeta. destruct (late_channel_shown (λ x, x) VUndef (λ o f, o ++ f) (λ k v o, set k v o) [] second_channel 1
    (channel_named "a") (default [] (loaded (channel_named "a"))) (u "2")) as (H1 & _ & H3).
  - vm_compute. reflexivity.
  - vm_compute. reflexivity.
  - vm_compute. reflexivity.
  - vm_compute. reflexivity.
  - split; [rewrite H1; vm_compute; reflexivity | exact H3].
Defined.

(** A channel that is banned by itself: the switch is put off, then its name changed. *)
Lemma auto_ban_forgotten_witness :
  let s' := run (λ x, x) VUndef (λ o f, o ++ f) (λ k v o, set k v o) []
    (init VUndef (λ o f, o ++ f) [] (n 1) [] (Some (VObj [])) []) [AutoBan false; Field "name" (VStr (u "c"))] in
  autoBan (now s') = false ∧ prop (u "auto_ban") (form s') = n 1.
Proof.
  cbv zeta. destruct (auto_ban_forgotten (λ x, x) VUndef (λ o f, o ++ f) (λ k v o, set k v o) []
    (init VUndef (λ o f, o ++ f) [] (n 1) [] (Some (VObj [])) []) false "name" (VStr (u "c"))) as [H1 H2].
  - intros o f k. apply prop_app_keys.
  - apply (bool_decide_unpack _). vm_compute. exact I.
  - apply (bool_decide_unpack _). vm_compute. exact I.
  - by vm_compute.
  - split; [exact H1 | rewrite H2; vm_compute; reflexivity].
Defined.
