(* ===== verification/ParamRules.v ===== *)
(** * The rules of a channel
    [src/web/src/components/common/ui/ParamOverrideEditor.jsx]: the redirection of
    parameters as rules "if a field is ..., then change a field", or as text.  It is
    the editor that the dialog of channels shows; what it tells the dialog goes into the
    inputs and the form there. *)

From Stdlib Require Import SpecFloat.
From stdpp Require Import base numbers option strings sets list.
From S2P Require Import Prelude JsString JsNumber JsValue Json JsOps ParamOverride ChannelForm ChannelFormLaws.

(** ** Paths and scalars *)

(** Unlike that of the dialog, an empty path stays empty. *)
Definition formatBodyPath (path : value) : option jsstr :=
  text ← to_string (value_or path (VStr []));
  let p := trim text in
  Some match p with
  | [] => []
  | _ => if is_body p || has_body_prefix p then p else u "body." ++ p
  end.

Definition all_digits (s : jsstr) : bool := str_truthy s && forallb is_digit s.

(** [/^-?\d+$/] and [/^-?\d+\.\d+$/] *)
Definition unsigned (s : jsstr) : jsstr := match s with 45%N :: s' => s' | _ => s end.
Definition is_integer_text (s : jsstr) : bool := all_digits (unsigned s).
Definition is_decimal_text (s : jsstr) : bool :=
  match index_of 46 (unsigned s) with
  | Some i => all_digits (take i (unsigned s)) && all_digits (drop (S i) (unsigned s))
  | None => false
  end.

Definition framed (a b : N) (s : jsstr) : bool := starts_with s [a] && ends_with s [b].
Definition quoted (s : jsstr) : bool := (framed 34 34 s || framed 39 39 s) && (2 <=? length s)%nat.

Definition parseScalar (raw : jsstr) : value :=
  let s := trim raw in
  if decide (s = []) then VStr []
  else if decide (s = u "true") then VBool true
  else if decide (s = u "false") then VBool false
  else if decide (s = u "null") then VNull
  else if is_integer_text s || is_decimal_text s then VNum (str_to_num s)
  else if framed 123 125 s || framed 91 93 s then default (VStr s) (json_parse s)
  else if quoted s then VStr (take (length s - 2) (drop 1 s))
  else VStr s.

(** [JSON.stringify] and [String] of what JSON holds. *)
Definition formatScalar (v : value) : jsstr :=
  match v with
  | VUndef | VNull => []
  | VArr _ | VObj _ => ser [] [] v
  | _ => default [] (to_string v)
  end.

(** ** Rules *)

Inductive cond_op := Eq | Neq | Contains | Prefix | Suffix | Gt | Gte | Lt | Lte | Always.
Inductive action := SetValue | Copy | Delete | Replace.

#[export] Instance cond_op_eq_dec : EqDecision cond_op.
Proof. solve_decision. Defined.

#[export] Instance action_eq_dec : EqDecision action.
Proof. solve_decision. Defined.

Record rule := mk_rule {
  id : nat; condOp : cond_op; condPath : jsstr; condValue : jsstr; act : action;
  targetPath : jsstr; setValue : jsstr; fromPath : jsstr; replaceFrom : jsstr; replaceTo : jsstr;
}.

Definition emptyRule (i : nat) : rule := mk_rule i Eq [] [] SetValue [] [] [] [] [].

Definition mode_texts : list (cond_op * string) :=
  [(Contains, "contains"); (Prefix, "prefix"); (Suffix, "suffix"); (Gt, "gt"); (Gte, "gte"); (Lt, "lt"); (Lte, "lte")]%string.
Definition action_texts : list (action * string) :=
  [(SetValue, "set"); (Copy, "copy"); (Delete, "delete"); (Replace, "replace")]%string.

(** [MODE_TO_COND[mode]]; what the lookup finds on [Object.prototype] ([constructor],
    [__proto__]) is left out. *)
Definition cond_of_mode (mode : jsstr) : option cond_op :=
  if decide (mode = u "full") then Some Eq
  else fst <$> List.find (λ kv, bool_decide (u kv.2 = mode)) mode_texts.
Definition mode_of_cond (c : cond_op) : jsstr :=
  match List.find (λ kv, bool_decide (kv.1 = c)) mode_texts with Some kv => u kv.2 | None => u "full" end.

Definition action_of (mode : value) : option action :=
  match mode with VStr m => fst <$> List.find (λ kv, bool_decide (u kv.2 = m)) action_texts | _ => None end.
Definition mode_of_action (a : action) : jsstr :=
  match a with SetValue => u "set" | Copy => u "copy" | Delete => u "delete" | Replace => u "replace" end.

(** What happens: it throws, there is no rule for it, or there is one. *)
Inductive outcome (A : Type) := Throws | NoRule | Rule (x : A).
Arguments Throws {A}.
Arguments NoRule {A}.
Arguments Rule {A}.

Definition of_text {A} (x : option jsstr) (k : jsstr → outcome A) : outcome A := match x with Some s => k s | None => Throws end.

(** The operator, path and value of the condition. *)
Definition conditionToRuleFields (conditions : value) : outcome (cond_op * jsstr * jsstr) :=
  match conditions with
  | VUndef | VNull | VArr [] | VStr [] => Rule (Always, [], [])
  | VArr [c] =>
      let cond := value_or c (VObj []) in
      of_text (to_string (value_or (opt_read (u "mode") cond) (VStr (u "full")))) (λ mode,
        match cond_of_mode (ascii_lower mode) with
        | None => NoRule
        | Some op =>
            let fields op := of_text (formatBodyPath (opt_read (u "path") cond)) (λ path,
              Rule (op, path, formatScalar (opt_read (u "value") cond))) in
            if truthy (opt_read (u "invert") cond)
            then (if decide (op = Eq) then fields Neq else NoRule)
            else fields op
        end)
  | VObj o => if strict_eq (prop (u "length") o) (n 0) then Rule (Always, [], []) else NoRule
  | _ => NoRule
  end.

Definition text_or_empty (v : value) : option jsstr := match v with VUndef | VNull => Some [] | _ => to_string v end.

(** A rule for an operation, with the given identifier. *)
Definition operationToRule (i : nat) (op : value) : outcome rule :=
  match action_of (opt_read (u "mode") op) with
  | None => NoRule
  | Some a =>
      match conditionToRuleFields (opt_read (u "conditions") op) with
      | Throws => Throws
      | NoRule => NoRule
      | Rule (c, path, v) =>
          let make target value from rfrom rto := Rule (mk_rule i c path v a target value from rfrom rto) in
          match a with
          | SetValue => of_text (formatBodyPath (opt_read (u "path") op)) (λ target,
              make target (formatScalar (opt_read (u "value") op)) [] [] [])
          | Copy => of_text (formatBodyPath (opt_read (u "from") op)) (λ from,
              of_text (formatBodyPath (opt_read (u "to") op)) (λ target, make target [] from [] []))
          | Delete => of_text (formatBodyPath (opt_read (u "path") op)) (λ target, make target [] [] [] [])
          | Replace => of_text (formatBodyPath (opt_read (u "path") op)) (λ target,
              of_text (text_or_empty (opt_read (u "from") op)) (λ rfrom,
              of_text (text_or_empty (opt_read (u "to") op)) (λ rto, make target [] [] rfrom rto)))
          end
      end
  end.

(** All rules of a list, or that one of the operations has none. *)
Fixpoint rules_of (i : nat) (ops : list value) : outcome (list rule) :=
  match ops with
  | [] => Rule []
  | op :: ops' =>
      match operationToRule i op, rules_of (S i) ops' with
      | Throws, _ | _, Throws => Throws
      | Rule r, Rule l => Rule (r :: l)
      | _, _ => NoRule
      end
  end.

Record parsed_rules := mk_parsed { p_rules : list rule; p_visual : bool; p_text : jsstr }.

(** A line [to = from] of the text. *)
Definition line_rule (i : nat) (line : jsstr) : option rule :=
  eq ← index_of 61 line;
  let to := trim (take eq line) in
  let from := trim (drop (S eq) line) in
  if (0 <? eq)%nat && str_truthy to && str_truthy from then
    target ← formatBodyPath (VStr to); source ← formatBodyPath (VStr from);
    Some (mk_rule i Always [] [] Copy target [] source [] [])
  else None.

Definition pretty (v : value) : jsstr := ser gap2 [] v.

(** A member of an object that is no list of operations. *)
Definition member_rule (i : nat) (kv : jsstr * value) : option rule :=
  target ← formatBodyPath (VStr kv.1); Some (mk_rule i Always [] [] SetValue target (formatScalar kv.2) [] [] []).

(** [None] throws; the identifiers of the rules are new ones from [i] on.  Those that are
    drawn for a text that has no rules in the end are not counted. *)
Definition parseToRules (i : nat) (raw : value) : option parsed_rules :=
  let none := Some (mk_parsed [] true []) in
  match raw with
  | VUndef | VNull => none
  | _ =>
      let text := match raw with VStr s => trim s | _ => pretty raw end in
      let fail text' := Some (mk_parsed [] false (str_or text' text)) in
      if decide (text = [] ∨ text = u "{}") then none
      else if negb (json_like text) then
        let lines := List.filter (λ l, str_truthy l && negb (starts_with l [35%N])) (map trim (split_on 10 text)) in
        match mapM (λ x, x) (imap (λ j l, line_rule (i + j) l) lines) with
        | Some rules => Some (mk_parsed rules true text)
        | None => fail text
        end
      else
        let of_operations parsed ops shown :=
          match rules_of i ops with
          | Throws => None
          | NoRule => fail (pretty parsed)
          | Rule rules => Some (mk_parsed rules true (pretty shown))
          end in
        match (if is_object_type raw then Some raw else json_parse text) with
        | None => fail text
        | Some (VArr ops) => of_operations (VArr ops) ops (VObj [(u "operations", VArr ops)])
        | Some (VObj o) =>
            match prop (u "operations") o with
            | VArr ops =>
                match List.filter (λ k, negb (bool_decide (k = u "operations"))) (keys o) with
                | [] => of_operations (VObj o) ops (VObj o)
                | _ => fail (pretty (VObj o))
                end
            | _ => rules ← mapM (λ x, x) (imap (λ j kv, member_rule (i + j) kv) o); Some (mk_parsed rules true (pretty (VObj o)))
            end
        | Some _ => fail text
        end
  end.

(** ** Operations *)

Definition condition_of (r : rule) (path : jsstr) : value :=
  VObj ([(u "path", VStr path); (u "mode", VStr (mode_of_cond (condOp r))); (u "value", parseScalar (condValue r))] ++
    if decide (condOp r = Neq) then [(u "invert", VBool true)] else []).

(** The part that the action writes; [None]: a field is missing. *)
Definition action_fields (r : rule) : option props :=
  let target := stripBodyPrefix (str_or (targetPath r) (condPath r)) in
  match act r with
  | SetValue => if str_truthy target then Some [(u "path", VStr target); (u "value", parseScalar (setValue r))] else None
  | Copy =>
      let from := stripBodyPrefix (fromPath r) in
      if str_truthy from && str_truthy target then Some [(u "from", VStr from); (u "to", VStr target)] else None
  | Delete => if str_truthy target then Some [(u "path", VStr target)] else None
  | Replace =>
      if str_truthy target && str_truthy (replaceFrom r)
      then Some [(u "path", VStr target); (u "from", VStr (replaceFrom r)); (u "to", VStr (replaceTo r))] else None
  end.

Definition ruleToOperation (r : rule) : option value :=
  fields ← action_fields r;
  let op := (u "mode", VStr (mode_of_action (act r))) :: fields in
  if decide (condOp r = Always) then Some (VObj op)
  else
    match stripBodyPrefix (condPath r) with
    | [] => None
    | path => Some (VObj (op ++ [(u "conditions", VArr [condition_of r path]); (u "logic", VStr (u "AND"))]))
    end.

(** Rules that miss a field are left out. *)
Definition rulesToJson (rules : list rule) : jsstr :=
  match omap ruleToOperation rules with
  | [] => []
  | ops => pretty (VObj [(u "operations", VArr ops)])
  end.

(** ** The editor *)

Record state := mk_state {
  value_prop : value; lastEmitted : jsstr; visual : bool; rules : list rule; jsonText : jsstr; jsonError : value;
  ruleSeq : nat; emitted : list jsstr; thrown : nat;
}.

Definition setRules l s := mk_state (value_prop s) (lastEmitted s) (visual s) l (jsonText s) (jsonError s) (ruleSeq s) (emitted s) (thrown s).
Definition setMode b s := mk_state (value_prop s) (lastEmitted s) b (rules s) (jsonText s) (jsonError s) (ruleSeq s) (emitted s) (thrown s).
Definition setJson text error s := mk_state (value_prop s) (lastEmitted s) (visual s) (rules s) text error (ruleSeq s) (emitted s) (thrown s).
Definition with_value v s := mk_state v (lastEmitted s) (visual s) (rules s) (jsonText s) (jsonError s) (ruleSeq s) (emitted s) (thrown s).
Definition with_last x s := mk_state (value_prop s) x (visual s) (rules s) (jsonText s) (jsonError s) (ruleSeq s) (emitted s) (thrown s).
Definition with_seq k s := mk_state (value_prop s) (lastEmitted s) (visual s) (rules s) (jsonText s) (jsonError s) k (emitted s) (thrown s).
Definition throws s := mk_state (value_prop s) (lastEmitted s) (visual s) (rules s) (jsonText s) (jsonError s) (ruleSeq s) (emitted s) (S (thrown s)).

(** [onChange] and the form get the text. *)
Definition emit (next : jsstr) (s : state) : state :=
  mk_state (value_prop s) next (visual s) (rules s) (jsonText s) (jsonError s) (ruleSeq s) (next :: emitted s) (thrown s).

Section editor.
(** [parse_error text]: the message of [JSON.parse]. *)
Context (t : jsstr → jsstr) (parse_error : jsstr → jsstr).

Definition updateRules (next : list rule) (s : state) : state := emit (rulesToJson next) (setRules next s).

(** The field that is patched. *)
Inductive field := CondOp (c : cond_op) | CondPath (x : jsstr) | CondValue (x : jsstr) | Action (a : action)
  | TargetPath (x : jsstr) | NewValue (x : jsstr) | FromPath (x : jsstr) | ReplaceFrom (x : jsstr) | ReplaceTo (x : jsstr).

Definition patched (f : field) (r : rule) : rule :=
  let '(mk_rule i c p v a tp sv fp rf rt) := r in
  match f with
  | CondOp c => mk_rule i c p v a tp sv fp rf rt
  | CondPath p' => mk_rule i c p' v a (if negb (str_truthy tp) || bool_decide (tp = p) then p' else tp) sv fp rf rt
  | CondValue v => mk_rule i c p v a tp sv fp rf rt
  | Action a => mk_rule i c p v a tp sv fp rf rt
  | TargetPath tp => mk_rule i c p v a tp sv fp rf rt
  | NewValue sv => mk_rule i c p v a tp sv fp rf rt
  | FromPath fp => mk_rule i c p v a tp sv fp rf rt
  | ReplaceFrom rf => mk_rule i c p v a tp sv fp rf rt
  | ReplaceTo rt => mk_rule i c p v a tp sv fp rf rt
  end.

Definition patchRule (i : nat) (f : field) (s : state) : state :=
  updateRules (map (λ r, if bool_decide (id r = i) then patched f r else r) (rules s)) s.

Definition handleJsonChange (text : jsstr) (s : state) : state :=
  match trim text with
  | [] => emit [] (setJson text (VStr []) s)
  | trimmed =>
      if json_like trimmed then
        match json_parse trimmed with
        | Some _ => emit trimmed (setJson text (VStr []) s)
        | None => setJson text (VStr (parse_error trimmed)) s
        end
      else emit trimmed (setJson text (VStr []) s)
  end.

(** The rules of a text, with new identifiers. *)
Definition parse_new (v : value) (s : state) : option (parsed_rules * state) :=
  next ← parseToRules (ruleSeq s) v; Some (next, with_seq (ruleSeq s + length (p_rules next)) s).

Definition switchMode (to_json : bool) (s : state) : state :=
  if to_json then setMode false (setJson (str_or (rulesToJson (rules s)) (jsonText s)) (jsonError s) s)
  else
    match parse_new (match jsonText s with [] => value_prop s | text => VStr text end) s with
    | None => throws s
    | Some (next, s) =>
        if p_visual next
        then emit (rulesToJson (p_rules next)) (setMode true (setRules (p_rules next) (setJson (jsonText s) (VStr []) s)))
        else setJson (jsonText s) (VStr (t (u "当前规则含可视化不支持的操作，请用 JSON 编辑"))) s
    end.

(** The effect on the value. *)
Definition value_changed (s : state) : state :=
  let incoming := string_or_empty (value_prop s) in
  if decide (incoming = lastEmitted s) then s
  else
    let s := with_last incoming s in
    match parse_new (value_prop s) s with
    | None => throws s
    | Some (next, s) => setMode (p_visual next) (setJson (p_text next) (VStr []) (setRules (p_rules next) s))
    end.

(** [Value]: a render with another value, or for another channel. *)
Inductive event :=
  | Value (v : value)
  | Add
  | Remove (i : nat)
  | Patch (i : nat) (f : field)
  | Text (text : jsstr)
  | Toggle.

Definition step (s : state) (e : event) : state :=
  match e with
  | Value v => value_changed (with_value v s)
  | Add => let s' := with_seq (S (ruleSeq s)) s in updateRules (rules s ++ [emptyRule (ruleSeq s)]) s'
  | Remove i => updateRules (List.filter (λ r, negb (bool_decide (id r = i))) (rules s)) s
  | Patch i f => patchRule i f s
  | Text text => handleJsonChange text s
  | Toggle => switchMode (visual s) s
  end.

Definition run (s : state) (es : list event) : state := fold_left step es s.

(** The first render parses the value three times, for the mode, for the rules and for the
    text, with new identifiers each time; [None]: it throws. *)
Definition init (v : value) (seq : nat) : option state :=
  p ← parseToRules seq v;
  let n := length (p_rules p) in
  p' ← parseToRules (seq + n) v;
  Some (mk_state v (string_or_empty v) (p_visual p) (p_rules p') (p_text p) (VStr []) (seq + 3 * n) [] 0).
End editor.

(** * The rules of a channel: laws
    Rules come back from the text they are written as, those that are complete as they were;
    what a rule does not show is lost, and a quoted number becomes a number. *)

(** ** Rules that come back *)

(** A path without its prefix. *)
Record plain_path (p : jsstr) : Prop := {
  plain_trimmed : trimmed p;
  plain_nonempty : p ≠ [];
  plain_no_prefix : has_body_prefix p = false;
  plain_no_body : is_body p = false;
}.

Definition shown_path (x : jsstr) : Prop := ∃ p, plain_path p ∧ x = body ++ p.

(** A text that is written as it is read. *)
Definition stable_text (x : jsstr) : Prop := formatScalar (parseScalar x) = x ∧ json_ok (parseScalar x) = true.

(** A rule that is complete, with nothing in the fields that its action does not show. *)
Record complete (r : rule) : Prop := {
  complete_condition : condOp r = Always ∧ condPath r = [] ∧ condValue r = [] ∨
    condOp r ≠ Always ∧ shown_path (condPath r) ∧ stable_text (condValue r);
  complete_target : shown_path (targetPath r);
  complete_value : if decide (act r = SetValue) then stable_text (setValue r) else setValue r = [];
  complete_from : if decide (act r = Copy) then shown_path (fromPath r) else fromPath r = [];
  complete_replace : if decide (act r = Replace) then replaceFrom r ≠ [] else replaceFrom r = [] ∧ replaceTo r = [];
}.

Definition with_id (i : nat) (r : rule) : rule :=
  mk_rule i (condOp r) (condPath r) (condValue r) (act r) (targetPath r) (setValue r) (fromPath r) (replaceFrom r) (replaceTo r).

(** What the editor shows of a path that is written without its prefix. *)
Definition body_path (p : jsstr) : jsstr :=
  match trim p with
  | [] => []
  | q => if is_body q || has_body_prefix q then q else body ++ q
  end.

Lemma format_text p : formatBodyPath (VStr p) = Some (body_path p).
Proof.
  destruct p as [|c p]; [done|]. unfold formatBodyPath, value_or, body_path. cbn [truthy str_truthy to_string mbind option_bind].
  by destruct (trim (c :: p)).
Qed.

Lemma body_path_shown p : plain_path p → body_path p = body ++ p.
Proof.
  intros [H1 H2 H3 H4]. unfold body_path. unfold trimmed in H1. rewrite H1. destruct p as [|c p]; [done|]. by rewrite H3, H4.
Qed.

Lemma strip_shown p : plain_path p → stripBodyPrefix (body ++ p) = p.
Proof.
  intros [H1 H2 _ _]. unfold stripBodyPrefix. rewrite (trim_framed body p) by done. by rewrite body_prefixed.
Qed.

Lemma shown_again_path x : shown_path x → body_path (stripBodyPrefix x) = x.
Proof. intros (p & Hp & ->). by rewrite strip_shown, body_path_shown. Qed.

(** What is shown of a rule once it has been written and read: its paths with the prefix,
    its values as they are read, and nothing in the fields that its action does not use. *)
Definition shown_again (r : rule) : rule :=
  let always := bool_decide (condOp r = Always) in
  let only (a : action) (x : jsstr) : jsstr := if decide (act r = a) then x else [] in
  mk_rule (id r) (condOp r) (if always then [] else body_path (stripBodyPrefix (condPath r)))
    (if always then [] else formatScalar (parseScalar (condValue r)))
    (act r) (body_path (stripBodyPrefix (str_or (targetPath r) (condPath r))))
    (only SetValue (formatScalar (parseScalar (setValue r)))) (only Copy (body_path (stripBodyPrefix (fromPath r))))
    (only Replace (replaceFrom r)) (only Replace (replaceTo r)).

(** The values that a rule writes are ones that JSON text can hold (no number beyond all
    bounds, no -0). *)
Definition scalars_ok (r : rule) : bool :=
  (bool_decide (condOp r = Always) || json_ok (parseScalar (condValue r))) &&
  (negb (bool_decide (act r = SetValue)) || json_ok (parseScalar (setValue r))).

Lemma shown_nonempty x : shown_path x → str_truthy x = true.
Proof. by intros (p & _ & ->). Qed.

Lemma mode_back c : cond_of_mode (ascii_lower (mode_of_cond c)) = Some (if decide (c = Neq) then Eq else if decide (c = Always) then Eq else c).
Proof. destruct c; vm_compute; reflexivity. Qed.

(** The condition of an operation. *)
Definition conditions_of (r : rule) (p : jsstr) : value := VArr [condition_of r p].

Lemma condition_back r p :
  condOp r ≠ Always → json_ok (parseScalar (condValue r)) = true →
  conditionToRuleFields (conditions_of r p) = Rule (condOp r, body_path p, formatScalar (parseScalar (condValue r))) ∧
  json_ok (conditions_of r p) = true.
Proof.
  intros Hc Hj. unfold conditions_of, condition_of. pose proof (mode_back (condOp r)) as Hm. split.
  - unfold conditionToRuleFields. set (invert := if decide (condOp r = Neq) then _ else _).
    match goal with |- context [value_or (VObj ?o) _] => change (value_or (VObj o) (VObj [])) with (VObj o); set (o1 := o) end.
    assert (opt_read (u "mode") (VObj o1) = VStr (mode_of_cond (condOp r))) as -> by reflexivity.
    assert (opt_read (u "path") (VObj o1) = VStr p) as -> by reflexivity.
    assert (opt_read (u "value") (VObj o1) = parseScalar (condValue r)) as -> by reflexivity.
    assert (value_or (VStr (mode_of_cond (condOp r))) (VStr (u "full")) = VStr (mode_of_cond (condOp r))) as -> by by destruct (condOp r).
    cbn [to_string of_text]. rewrite Hm, format_text. cbn [of_text].
    unfold o1, invert. by destruct (condOp r).
  - destruct (condOp r); simpl; rewrite Hj; done.
Qed.

(** An operation with the fields of its action. *)
Definition plain_op (r : rule) (fields : props) : props := (u "mode", VStr (mode_of_action (act r))) :: fields.
Definition conditional_op (r : rule) (fields : props) (p : jsstr) : props :=
  plain_op r fields ++ [(u "conditions", conditions_of r p); (u "logic", VStr (u "AND"))].

(** What is read of an operation, whose members are known. *)
Ltac reads k v := match goal with |- context [opt_read (u k) ?o] => change (opt_read (u k) o) with v end.

(** An operation is JSON when its members are. *)
Ltac op_ok Htail :=
  destruct Htail as [->|(? & ? & ->)]; rewrite json_ok_obj; apply andb_true_iff; (split; [by vm_compute|]); simpl;
  repeat match goal with H : json_ok _ = true |- _ => rewrite H end; done.

Definition condition_tail (tail : props) : Prop :=
  tail = [] ∨ ∃ c, json_ok c = true ∧ tail = [(u "conditions", c); (u "logic", VStr (u "AND"))].

(** The fields of a rule, and how they read back. *)
Lemma fields_back r tail fields :
  scalars_ok r = true → condition_tail tail → action_fields r = Some fields →
  json_ok (VObj (plain_op r fields ++ tail)) = true ∧
  ∀ i c path v, conditionToRuleFields (prop (u "conditions") tail) = Rule (c, path, v) →
    operationToRule i (VObj (plain_op r fields ++ tail)) =
    let r' := shown_again r in Rule (mk_rule i c path v (act r') (targetPath r') (setValue r') (fromPath r') (replaceFrom r') (replaceTo r')).
Proof.
  intros [_ Hok]%andb_true_iff Htail. unfold action_fields, plain_op, operationToRule, shown_again.
  cbn [act targetPath setValue fromPath replaceFrom replaceTo].
  set (p := stripBodyPrefix (str_or (targetPath r) (condPath r))).
  destruct (act r) eqn:Ea; simpl decide; cbv iota.
  - apply orb_true_iff in Hok as [Hok|Hok]; [done|].
    destruct (str_truthy p); [|done]. intros [= <-]. split; [op_ok Htail|].
    intros i c path v Hcond. cbn [app]. reads "mode" (VStr (u "set")). reads "path" (VStr p). reads "value" (parseScalar (setValue r)).
    reads "conditions" (prop (u "conditions") tail). rewrite Hcond. change (action_of (VStr (u "set"))) with (Some SetValue). cbv iota.
    by rewrite format_text.
  - destruct (str_truthy (stripBodyPrefix (fromPath r)) && str_truthy p); [|done]. intros [= <-]. split; [op_ok Htail|].
    intros i c path v Hcond. cbn [app]. reads "mode" (VStr (u "copy")). reads "from" (VStr (stripBodyPrefix (fromPath r))). reads "to" (VStr p).
    reads "conditions" (prop (u "conditions") tail). rewrite Hcond. change (action_of (VStr (u "copy"))) with (Some Copy). cbv iota.
    by rewrite !format_text.
  - destruct (str_truthy p); [|done]. intros [= <-]. split; [op_ok Htail|].
    intros i c path v Hcond. cbn [app]. reads "mode" (VStr (u "delete")). reads "path" (VStr p).
    reads "conditions" (prop (u "conditions") tail). rewrite Hcond. change (action_of (VStr (u "delete"))) with (Some Delete). cbv iota.
    by rewrite format_text.
  - destruct (str_truthy p && str_truthy (replaceFrom r)); [|done]. intros [= <-]. split; [op_ok Htail|].
    intros i c path v Hcond. cbn [app]. reads "mode" (VStr (u "replace")). reads "path" (VStr p).
    reads "from" (VStr (replaceFrom r)). reads "to" (VStr (replaceTo r)).
    reads "conditions" (prop (u "conditions") tail). rewrite Hcond. change (action_of (VStr (u "replace"))) with (Some Replace). cbv iota.
    by rewrite format_text.
Qed.

Lemma operation_back r op :
  scalars_ok r = true → ruleToOperation r = Some op →
  json_ok op = true ∧ ∀ i, operationToRule i op = Rule (with_id i (shown_again r)).
Proof.
  intros Hr. pose proof Hr as [Hc _]%andb_true_iff. unfold ruleToOperation.
  destruct (action_fields r) as [fields|] eqn:Ef; [|done]. cbn [mbind option_bind].
  destruct (decide (condOp r = Always)) as [Ha|Ha].
  - destruct (fields_back r [] fields Hr (or_introl eq_refl) Ef) as [Hok Hback]. rewrite app_nil_r in Hok, Hback.
    intros [= <-]. split; [exact Hok|]. intros i. unfold plain_op in Hback. rewrite (Hback i Always [] []) by done.
    unfold with_id, shown_again. cbn. by rewrite (bool_decide_true _ Ha), Ha.
  - rewrite (bool_decide_false _ Ha) in Hc. cbn [orb] in Hc.
    destruct (stripBodyPrefix (condPath r)) as [|x p] eqn:Ep; [done|]. intros [= <-].
    destruct (condition_back r (x :: p) Ha Hc) as [Hcond Hj].
    destruct (fields_back r [(u "conditions", conditions_of r (x :: p)); (u "logic", VStr (u "AND"))] fields Hr) as [Hok Hback];
      [right; by exists (conditions_of r (x :: p))|done|].
    split; [exact Hok|]. intros i. etransitivity; [exact (Hback i _ _ _ Hcond)|]. unfold with_id, shown_again. cbn [condOp condPath condValue].
    by rewrite (bool_decide_false _ Ha), Ep.
Qed.

Definition renumbered (i : nat) (rules : list rule) : list rule := imap (λ j r, with_id (i + j) r) rules.

Lemma renumbered_length i rules : length (renumbered i rules) = length rules.
Proof. apply length_imap. Qed.

(** The rules that are written: those that miss no field. *)
Definition is_written (r : rule) : bool := bool_decide (is_Some (ruleToOperation r)).
Definition written (rules : list rule) : list rule := List.filter is_written rules.

Lemma rules_back rules :
  Forall (λ r, scalars_ok r = true) rules →
  Forall (λ op, json_ok op = true) (omap ruleToOperation rules) ∧
  length (omap ruleToOperation rules) = length (written rules) ∧
  ∀ i, rules_of i (omap ruleToOperation rules) = Rule (renumbered i (map shown_again (written rules))).
Proof.
  induction 1 as [|r rules Hr _ (IH1 & IH2 & IH3)]; [by repeat split; constructor|].
  unfold written, is_written in *. simpl. destruct (ruleToOperation r) as [op|] eqn:E; [|done].
  rewrite bool_decide_true by by eexists.
  destruct (operation_back r op Hr E) as (Hok & Hback). split; [by constructor|]. split; [exact (f_equal S IH2)|].
  intros i. simpl. rewrite Hback, IH3. unfold renumbered. simpl. rewrite Nat.add_0_r. do 2 f_equal.
  apply imap_ext. intros j x _. simpl. by rewrite Nat.add_succ_r.
Qed.

(** A complete rule is written, and shown as it was. *)
Lemma complete_again r : complete r → is_written r = true ∧ shown_again r = r.
Proof.
  intros [Hc Ht Hval Hfrom Hrep]. pose proof (shown_nonempty _ Ht) as Hte.
  assert (∀ x, shown_path x → str_truthy (stripBodyPrefix x) = true) as Hs.
  { intros x (p & Hp & ->). rewrite strip_shown by done. destruct Hp as [_ H _ _]. by destruct p. }
  assert (str_or (targetPath r) (condPath r) = targetPath r) as Ho by by destruct (targetPath r).
  assert (is_Some (action_fields r)) as [fields Ef].
  { unfold action_fields. rewrite Ho, (Hs _ Ht). destruct (act r); [by eexists| |by eexists|].
    - simpl in Hfrom. rewrite (Hs _ Hfrom). by eexists.
    - simpl in Hrep. destruct (replaceFrom r); [done|]. by eexists. }
  split.
  - unfold is_written. apply bool_decide_eq_true. unfold ruleToOperation. rewrite Ef. cbn [mbind option_bind].
    destruct Hc as [(Hc & _)|(Hc & Hp & _)]; [rewrite decide_True by done; by eexists|].
    rewrite decide_False by done. pose proof (Hs _ Hp). destruct (stripBodyPrefix (condPath r)); [done|by eexists].
  - unfold shown_again. rewrite Ho, (shown_again_path _ Ht). destruct r as [i c cp cv a tp sv fp rf rt]. simpl in *.
    assert (∀ x, shown_path x → body_path (stripBodyPrefix x) = x) as Hb by apply shown_again_path.
    f_equal; try (destruct Hc as [(-> & -> & ->)|(Hc & Hp & Hv & _)]; [done|rewrite bool_decide_false by done; by auto]);
      destruct a; simpl in *; try done; try (by destruct Hval); try (by destruct Hrep); by auto.
Qed.

Lemma written_complete rules : Forall complete rules → map shown_again (written rules) = rules.
Proof.
  unfold written. induction 1 as [|r rules Hr _ IH]; [done|]. simpl. destruct (complete_again r Hr) as [-> Es].
  simpl. by rewrite Es, IH.
Qed.

(** The text of a list of operations, read again. *)
Lemma parse_operations i ops :
  Forall (λ op, json_ok op = true) ops →
  let text := pretty (VObj [(u "operations", VArr ops)]) in
  text ≠ [] ∧ parseToRules i (VStr text) =
  match rules_of i ops with
  | Throws => None | NoRule => Some (mk_parsed [] false text) | Rule rules => Some (mk_parsed rules true text)
  end.
Proof.
  intros Hok. set (o := [(u "operations", VArr ops)]). cbv zeta. assert (json_ok (VObj o) = true) as Ho.
  { unfold o. rewrite json_ok_obj. apply andb_true_iff. split; [by vm_compute|].
    change (forallb json_ok ops && true = true). rewrite andb_true_r. apply forallb_forall. intros x Hx.
    rewrite Forall_forall in Hok. by apply Hok, list_elem_of_In. }
  unfold parseToRules, pretty. rewrite (ser_object_trim gap2 [] (VObj o)) by (right; by eexists).
  pose proof (json_parse_ser gap2 _ ltac:(apply (bool_decide_unpack _); by vm_compute) Ho) as Hp.
  assert (json_like (ser gap2 [] (VObj o)) = true) as Hj.
  { rewrite ser_obj. edestruct (brackets_head gap2 123 125 []) as [t ->]. unfold json_like. simpl. by destruct t. }
  assert (ser gap2 [] (VObj o) ≠ u "{}") as Hne2.
  { intros E2. rewrite E2 in Hp. assert (json_parse (u "{}") = Some (VObj [])) as E3 by by vm_compute. rewrite E3 in Hp. done. }
  assert (ser gap2 [] (VObj o) ≠ []) as Hne3 by (intros E2; by rewrite E2 in Hj). split; [done|].
  rewrite decide_False by tauto. rewrite Hj. cbn [negb is_object_type]. rewrite Hp.
  change (prop (u "operations") o) with (VArr ops). change (keys o) with [u "operations"]. cbn [List.filter].
  rewrite bool_decide_true by done. cbn [negb]. destruct (rules_of i ops); [done| |done].
  destruct (ser gap2 [] (VObj o)); done.
Qed.


(** Two rules: a condition with a value, and a copy. *)
Definition two_rules : list rule :=
  [mk_rule 7 Eq (u "body.model") (u "gpt-4") SetValue (u "body.temperature") (u "0.2") [] [] [];
   mk_rule 9 Always [] [] Copy (u "body.top_k") [] (u "body.top_p") [] []].

Lemma shown_of (x : string) :
  bool_decide (trim (u x) = u x) && str_truthy (u x) && negb (has_body_prefix (u x)) && negb (is_body (u x)) = true →
  shown_path (body ++ u x).
Proof.
  intros H. bool_simp. exists (u x). split; [|done]. split; [done | by destruct (u x) | done..].
Qed.

(** A rule that is changed: a quoted number, a number with a zero, no prefix, and a source
    that its action does not use. *)
Definition changed_rule : rule :=
  mk_rule 3 Gt (u "max_tokens") [34; 53; 34]%N SetValue [] (u "1.50") (u "body.x") [] [].


(** ** What a rule does not show *)

(** Operations that agree on what rules are made of; they may differ in anything else,
    such as [keep_origin], [description] or [logic]. *)
Definition shown_keys : list jsstr := [u "mode"; u "path"; u "value"; u "from"; u "to"; u "conditions"].
Definition alike (op op' : value) : Prop := Forall (λ k, opt_read k op = opt_read k op') shown_keys.

Lemma rule_alike i op op' : alike op op' → operationToRule i op = operationToRule i op'.
Proof.
  unfold alike, shown_keys. rewrite !Forall_cons. intros (E1 & E2 & E3 & E4 & E5 & E6 & _). unfold operationToRule.
  by rewrite E1, E2, E3, E4, E5, E6.
Qed.

Lemma rules_alike i ops ops' : Forall2 alike ops ops' → rules_of i ops = rules_of i ops'.
Proof. intros H. revert i. induction H as [|op op' ops ops' Ho _ IH]; intros i; [done|]. simpl. by rewrite (rule_alike i _ _ Ho), IH. Qed.

(** Two editors that show the same rules and told their dialogs the same. *)
Record same_rules (s s' : state) : Prop := {
  same_list : rules s = rules s';
  same_mode : visual s = visual s';
  same_seq : ruleSeq s = ruleSeq s';
  same_emitted : emitted s = emitted s';
}.

Section edits.
Context (t : jsstr → jsstr) (parse_error : jsstr → jsstr).

(** An event on the rules, after which the dialog renders the editor with what it was told. *)
Definition edited (s : state) (e : event) : state :=
  let s := step t parse_error s e in step t parse_error s (Value (VStr (lastEmitted s))).
Definition edits (s : state) (es : list event) : state := fold_left edited es s.

Definition on_rules (e : event) : Prop := match e with Add | Remove _ | Patch _ _ => True | _ => False end.

Lemma told_value s : step t parse_error s (Value (VStr (lastEmitted s))) = with_value (VStr (lastEmitted s)) s.
Proof. simpl. unfold value_changed. simpl. by rewrite decide_True. Qed.

Lemma same_edited s s' e : on_rules e → same_rules s s' → same_rules (edited s e) (edited s' e).
Proof.
  intros He [H1 H2 H3 H4]. unfold edited. rewrite !told_value.
  destruct e; try done; split; simpl; unfold patchRule; simpl; congruence.
Qed.

Lemma same_edits s s' es : Forall on_rules es → same_rules s s' → same_rules (edits s es) (edits s' es).
Proof. intros H. revert s s'. induction H as [|e es He _ IH]; intros s s' Hs; [done|]. apply IH. by apply same_edited. Qed.

(** Editors of two lists of operations that agree on what rules are made of. *)
Lemma init_alike i ops ops' :
  Forall (λ op, json_ok op = true) ops → Forall (λ op, json_ok op = true) ops' → Forall2 alike ops ops' →
  let text ops := pretty (VObj [(u "operations", VArr ops)]) in
  init (VStr (text ops)) i = None ∧ init (VStr (text ops')) i = None ∨
  ∃ s s', init (VStr (text ops)) i = Some s ∧ init (VStr (text ops')) i = Some s' ∧ visual s = visual s' ∧
    (visual s = true → same_rules s s' ∧ visual s' = true).
Proof.
  intros Hok Hok' Ha. cbv zeta. unfold init.
  assert (∀ j, parseToRules j (VStr (pretty (VObj [(u "operations", VArr ops)]))) =
    match rules_of j ops with Throws => None | NoRule => Some (mk_parsed [] false (pretty (VObj [(u "operations", VArr ops)])))
    | Rule l => Some (mk_parsed l true (pretty (VObj [(u "operations", VArr ops)]))) end) as E1
    by (intros j; apply (parse_operations j ops Hok)).
  assert (∀ j, parseToRules j (VStr (pretty (VObj [(u "operations", VArr ops')]))) =
    match rules_of j ops with Throws => None | NoRule => Some (mk_parsed [] false (pretty (VObj [(u "operations", VArr ops')])))
    | Rule l => Some (mk_parsed l true (pretty (VObj [(u "operations", VArr ops')]))) end) as E2
    by (intros j; rewrite (rules_alike j ops ops' Ha); apply (parse_operations j ops' Hok')).
  rewrite E1, E2. destruct (rules_of i ops) as [| |l]; cbn [mbind option_bind p_rules p_visual p_text]; [by left|..];
    rewrite E1, E2; (destruct (rules_of _ ops) as [| |l']; cbn [mbind option_bind p_rules p_visual p_text]; [by left|..]);
    right; eexists _, _; (split; [done|]; split; [done|]; split; [done|]); by repeat split.
Qed.

(** what the rules do not show is lost as soon as one of them is edited: two channels
    whose operations differ only in members such as [keep_origin] or [description] are
    shown the same rules, and the same edits write the same text for both. *)
Theorem unshown_members_lost ops ops' i es s :
  Forall (λ op, json_ok op = true) ops → Forall (λ op, json_ok op = true) ops' → Forall2 alike ops ops' →
  Forall on_rules es →
  init (VStr (pretty (VObj [(u "operations", VArr ops)]))) i = Some s → visual s = true →
  ∃ s', init (VStr (pretty (VObj [(u "operations", VArr ops')]))) i = Some s' ∧ visual s' = true ∧
    rules (edits s es) = rules (edits s' es) ∧ emitted (edits s es) = emitted (edits s' es).
Proof.
  intros Hok Hok' Ha Hes. destruct (init_alike i ops ops' Hok Hok' Ha) as [[-> ->]|(s1 & s2 & -> & -> & Hm & Hv)]; [done|].
  intros [= <-] Hs. exists s2. split; [done|]. destruct (Hv Hs) as [Hl Hs2]. split; [done|].
  by destruct (same_edits s1 s2 es Hes Hl).
Qed.
End edits.

(** A number that only is set when the request has none. *)
Definition keeping_op : value :=
  VObj [(u "mode", VStr (u "set")); (u "path", VStr (u "top_k")); (u "value", n 5); (u "keep_origin", VBool true)].
Definition overriding_op : value := VObj [(u "mode", VStr (u "set")); (u "path", VStr (u "top_k")); (u "value", n 5)].

Definition opened (op : value) : state :=
  default (mk_state VUndef [] false [] [] VUndef 0 [] 0) (init (VStr (pretty (VObj [(u "operations", VArr [op])]))) 0).

Lemma unshown_members_lost_witness :
  ∃ s', init (VStr (pretty (VObj [(u "operations", VArr [overriding_op])]))) 0 = Some s' ∧ visual s' = true ∧
    rules (edits (λ x, x) (λ x, x) (opened keeping_op) [Add]) = rules (edits (λ x, x) (λ x, x) s' [Add]) ∧
    emitted (edits (λ x, x) (λ x, x) (opened keeping_op) [Add]) = emitted (edits (λ x, x) (λ x, x) s' [Add]).
Proof.
  apply (unshown_members_lost (λ x, x) (λ x, x) [keeping_op] [overriding_op] 0 [Add] (opened keeping_op)).
  - apply Forall_singleton. vm_compute. reflexivity.
  - apply Forall_singleton. vm_compute. reflexivity.
  - constructor; [|constructor]. unfold alike, shown_keys. repeat (apply Forall_cons_2; [reflexivity|]). apply Forall_nil_2.
  - apply Forall_singleton. exact I.
  - vm_compute. reflexivity.
  - vm_compute. reflexivity.
Defined.

(** A quoted number is a text in the first text that is written, and a number in the next. *)
Example quoted_number_retyped :
  let r := mk_rule 0 Always [] [] SetValue (u "body.seed") [34; 53; 34]%N [] [] [] in
  (op ← ruleToOperation r; Some (opt_read (u "value") op)) = Some (VStr (u "5")) ∧
  (op ← ruleToOperation r;
   match operationToRule 1 op with Rule r' => op' ← ruleToOperation r'; Some (opt_read (u "value") op') | _ => None end) = Some (n 5).
Proof. split; vm_compute; reflexivity. Qed.
