(* ===== verification/JsonEditor.v ===== *)
(** * The editor of JSON objects
    [src/web/src/components/common/ui/JSONEditor.jsx]: an object as a list of names and
    values, or as text.  The dialog of channels edits the redirects of models, the mapping
    of status codes and the regions with it; what it tells the dialog comes back as its
    value. *)

From Stdlib Require Import SpecFloat.
From stdpp Require Import base numbers option strings sets list.
From S2P Require Import Prelude JsString JsNumber JsValue Json JsSame JsOps.

(** A name and a value, with the key under which React knows the row. *)
Record pair := mk_pair { id : nat; key : jsstr; val : value }.

(** ** Objects and pairs *)

(** What every object inherits: an assignment to [__proto__] makes no member, and a
    count under an inherited name starts with a function. *)
Definition inherited : list jsstr :=
  map u ["constructor"; "hasOwnProperty"; "isPrototypeOf"; "propertyIsEnumerable"; "toLocaleString"; "toString"; "valueOf";
    "__defineGetter__"; "__defineSetter__"; "__lookupGetter__"; "__lookupSetter__"; "__proto__"]%string.

Definition member_name (k : jsstr) : bool := str_truthy k && negb (bool_decide (k = u "__proto__")).

(** The pairs of the members, from the counter on; a pair at the same place with the same
    name keeps its key. *)
Fixpoint pairs_of (counter : nat) (o : props) (prev : list pair) : list pair * nat :=
  match o with
  | [] => ([], counter)
  | (k, v) :: o' =>
      match prev with
      | p :: prev' =>
          if decide (key p = k)
          then let '(l, c) := pairs_of counter o' prev' in (mk_pair (id p) k v :: l, c)
          else let '(l, c) := pairs_of (S counter) o' prev' in (mk_pair counter k v :: l, c)
      | [] => let '(l, c) := pairs_of (S counter) o' [] in (mk_pair counter k v :: l, c)
      end
  end.

Definition objectToKeyValueArray (counter : nat) (obj : value) (prev : list pair) : list pair * nat :=
  match obj with VObj _ | VArr _ => pairs_of counter (own_entries obj) prev | _ => ([], counter) end.

Definition keyValueArrayToObject (arr : list pair) : props :=
  fold_left (λ result item, if member_name (key item) then set (key item) (val item) result else result) arr [].

(** The text of the members, or nothing. *)
Definition members_text (arr : list pair) : jsstr :=
  match keyValueArrayToObject arr with [] => [] | o => ser gap2 [] (VObj o) end.

(** The names that the warning lists, in the order in which they are found again. *)
Definition count_key (acc : list jsstr * list jsstr) (p : pair) : list jsstr * list jsstr :=
  let '(seen, duplicates) := acc in
  if str_truthy (key p) && bool_decide (key p ∉ inherited) then
    if decide (key p ∈ seen)
    then (seen, if decide (key p ∈ duplicates) then duplicates else duplicates ++ [key p])
    else (key p :: seen, duplicates)
  else acc.
Definition duplicateKeys (l : list pair) : list jsstr := (fold_left count_key l ([], [])).2.

Definition isDuplicate (l : list pair) (p : pair) : bool := bool_decide (key p ∈ duplicateKeys l).
(** Of the pair at an index. *)
Definition isLastDuplicate (l : list pair) (i : nat) (p : pair) : bool :=
  isDuplicate l p && forallb (λ q, negb (bool_decide (key q = key p))) (drop (S i) l).

(** ** Values typed *)

(** What a text in the field of a value becomes. *)
Definition typed_value (s : jsstr) : value :=
  if decide (s = u "true") then VBool true
  else if decide (s = u "false") then VBool false
  else if negb (is_nan (str_to_num s)) && str_truthy s && is_integer (str_to_num s) then VNum (str_to_num s)
  else VStr s.

(** What a text in the area of an object becomes; [None] is ignored. *)
Definition area_value (txt : jsstr) : option value := if str_truthy (trim txt) then json_parse txt else Some (VObj []).

(** ** New names *)

Definition field_name (i : nat) : jsstr := u "field_" ++ dec_N (N.of_nat i).

(** The counter of the loop, which starts at 1; the fuel bounds its turns. *)
Fixpoint fresh_from (fuel counter : nat) (existing : list jsstr) : option nat :=
  if decide (field_name counter ∈ existing) then
    match fuel with 0 => None | S fuel' => fresh_from fuel' (S counter) existing end
  else Some counter.

Definition new_key (existing : list jsstr) : option jsstr := field_name <$> fresh_from (length existing) 1 existing.

(** ** The editor *)

(** What is told: the form, and [onChange]. *)
Inductive effect := SetForm (text : jsstr) | OnChange (text : jsstr).

Record state := mk_state {
  value_prop : value; keyValuePairs : list pair; manualText : jsstr; manual : bool; jsonError : jsstr;
  counter : nat; log : list effect; stuck : nat;
}.

Definition with_value v s := mk_state v (keyValuePairs s) (manualText s) (manual s) (jsonError s) (counter s) (log s) (stuck s).
Definition setKeyValuePairs l s := mk_state (value_prop s) l (manualText s) (manual s) (jsonError s) (counter s) (log s) (stuck s).
Definition setManualText x s := mk_state (value_prop s) (keyValuePairs s) x (manual s) (jsonError s) (counter s) (log s) (stuck s).
Definition setEditMode b s := mk_state (value_prop s) (keyValuePairs s) (manualText s) b (jsonError s) (counter s) (log s) (stuck s).
Definition setJsonError x s := mk_state (value_prop s) (keyValuePairs s) (manualText s) (manual s) x (counter s) (log s) (stuck s).
Definition with_counter c s := mk_state (value_prop s) (keyValuePairs s) (manualText s) (manual s) (jsonError s) c (log s) (stuck s).
Definition emit e s := mk_state (value_prop s) (keyValuePairs s) (manualText s) (manual s) (jsonError s) (counter s) (e :: log s) (stuck s).
(** A loop that would not end. *)
Definition loops s := mk_state (value_prop s) (keyValuePairs s) (manualText s) (manual s) (jsonError s) (counter s) (log s) (S (stuck s)).

Section editor.
(** Whether there is a form, the template, and the message of [JSON.parse]. *)
Context (has_form : bool) (template : value) (parse_error : jsstr → jsstr).

(** The value as JSON: [inr] is the message. *)
Definition parsed_value (v : value) : value + jsstr :=
  match v with
  | VStr s => if str_truthy (trim s) then match json_parse s with Some x => inl x | None => inr (parse_error s) end else inl (VObj [])
  | VObj _ | VArr _ => inl v
  | _ => inl (VObj [])
  end.

(** The pairs of a parsed value, with new keys where needed. *)
Definition set_pairs_of (parsed : value) (s : state) : state :=
  let '(l, c) := objectToKeyValueArray (counter s) parsed (keyValuePairs s) in setKeyValuePairs l (with_counter c s).

(** [JSON.stringify] of a parsed value. *)
Definition compact (v : value) : jsstr := ser [] [] v.

(** The two effects of a render with another value. *)
Definition sync_pairs (s : state) : state :=
  match parsed_value (value_prop s) with
  | inr message => setJsonError message s
  | inl parsed =>
      let currentObj := VObj (keyValueArrayToObject (keyValuePairs s)) in
      setJsonError [] (if bool_decide (compact parsed = compact currentObj) then s else set_pairs_of parsed s)
  end.

Definition manual_text_of (v : value) : jsstr :=
  match v with VStr s => s | VObj _ | VArr _ => ser gap2 [] v | _ => [] end.

Definition sync_text (s : state) : state := if manual s then s else setManualText (manual_text_of (value_prop s)) s.

Definition value_changed (s : state) : state := sync_text (sync_pairs s).

(** More than ten members, or a text that is no object, open as text. *)
Definition opens_manual (v : value) : bool :=
  match v with
  | VStr s =>
      str_truthy (trim s) &&
      match json_parse s with
      | None | Some VNull => true
      | Some parsed => (10 <? length (own_entries parsed))%nat
      end
  | _ => false
  end.

Definition handleVisualChange (newPairs : list pair) (s : state) : state :=
  let jsonString := members_text newPairs in
  let s := setJsonError [] (setKeyValuePairs newPairs s) in
  emit (OnChange jsonString) (if has_form then emit (SetForm jsonString) s else s).

Definition handleManualChange (newValue : jsstr) (s : state) : state :=
  let s := setManualText newValue s in
  if str_truthy (trim newValue) then
    match json_parse newValue with
    | Some parsed => emit (OnChange newValue) (setJsonError [] (set_pairs_of parsed s))
    | None => setJsonError (parse_error newValue) s
    end
  else emit (OnChange []) (setJsonError [] (setKeyValuePairs [] s)).

Definition toggleEditMode (s : state) : state :=
  if manual s then
    let source := if str_truthy (trim (manualText s)) then VStr (manualText s) else value_prop s in
    match parsed_value source with
    | inl parsed => sync_text (setEditMode false (setJsonError [] (set_pairs_of parsed s)))
    | inr message => setJsonError message s
    end
  else setEditMode true (setManualText (members_text (keyValuePairs s)) s).

Definition addKeyValue (s : state) : state :=
  match new_key (map key (keyValuePairs s)) with
  | Some newKey => handleVisualChange (keyValuePairs s ++ [mk_pair (counter s) newKey (VStr [])]) (with_counter (S (counter s)) s)
  | None => loops s
  end.

Definition removeKeyValue (i : nat) (s : state) : state :=
  handleVisualChange (List.filter (λ p, negb (bool_decide (id p = i))) (keyValuePairs s)) s.

Definition updateKey (i : nat) (newKey : jsstr) (s : state) : state :=
  handleVisualChange (map (λ p, if bool_decide (id p = i) then mk_pair (id p) newKey (val p) else p) (keyValuePairs s)) s.

Definition updateValue (i : nat) (newValue : value) (s : state) : state :=
  handleVisualChange (map (λ p, if bool_decide (id p = i) then mk_pair (id p) (key p) newValue else p) (keyValuePairs s)) s.

Definition fillTemplate (s : state) : state :=
  if truthy template then
    let templateString := ser gap2 [] template in
    let s := if has_form then emit (SetForm templateString) s else s in
    setJsonError [] (emit (OnChange templateString) (set_pairs_of template (setManualText templateString s)))
  else s.

(** The field of the region that all models share. *)
Definition default_region (v : value) (s : state) : state :=
  match List.find (λ p, bool_decide (key p = u "default")) (keyValuePairs s) with
  | Some p => updateValue (id p) v s
  | None =>
      handleVisualChange (keyValuePairs s ++ [mk_pair (counter s) (u "default") v]) (with_counter (S (counter s)) s)
  end.

(** [Value]: a render with a value; [Elsewhere]: another editor takes a key. *)
Inductive event :=
  | Value (v : value)
  | Elsewhere
  | AddPair
  | RemovePair (i : nat)
  | Key (i : nat) (k : jsstr)
  | Change (i : nat) (v : value)
  | Typed (i : nat) (s : jsstr)
  | Area (i : nat) (txt : jsstr)
  | Region (v : value)
  | Manual (txt : jsstr)
  | Tab (to_manual : bool)
  | Template.

Definition same_value (a b : value) : bool := match a, b with VObj _, _ | VArr _, _ => false | _, _ => strict_eq a b end.

Definition step (s : state) (e : event) : state :=
  match e with
  | Value v => if same_value v (value_prop s) then with_value v s else value_changed (with_value v s)
  | Elsewhere => with_counter (S (counter s)) s
  | AddPair => addKeyValue s
  | RemovePair i => removeKeyValue i s
  | Key i k => updateKey i k s
  | Change i v => updateValue i v s
  | Typed i x => updateValue i (typed_value x) s
  | Area i txt => match area_value txt with Some v => updateValue i v s | None => s end
  | Region v => default_region v s
  | Manual txt => handleManualChange txt s
  | Tab to_manual => if to_manual then setEditMode true s else if manual s then toggleEditMode s else s
  | Template => fillTemplate s
  end.

Definition run (s : state) (es : list event) : state := fold_left step es s.

(** The first render, and its effects. *)
Definition init (v : value) (first : nat) : state :=
  let parsed := match v with
                | VStr s => if str_truthy (trim s) then default VUndef (json_parse s) else VUndef
                | _ => v
                end in
  let '(l, c) := objectToKeyValueArray first parsed [] in
  value_changed (mk_state v l (manual_text_of v) (opens_manual v) [] c [] 0).
End editor.

(** * The editor of JSON objects: laws
    New names are found; the marks of duplicate names tell which value is written; what
    the dialog gives back leaves the rows as they were edited. *)

Local Abbreviation n z := (VNum (num_of_Z z)).

(** ** New names *)

Lemma field_name_inj i j : field_name i = field_name j → i = j.
Proof. unfold field_name. intros H. apply app_inv_head, dec_N_inj in H. lia. Qed.

Lemma fresh_from_spec fuel c existing :
  match fresh_from fuel c existing with
  | Some k => c ≤ k ∧ field_name k ∉ existing ∧ ∀ i, c ≤ i < k → field_name i ∈ existing
  | None => ∀ i, c ≤ i ≤ c + fuel → field_name i ∈ existing
  end.
Proof.
  revert c. induction fuel as [|fuel IH]; intros c; simpl; destruct (decide (field_name c ∈ existing)) as [Hin|Hout].
  - intros i Hi. by replace i with c by lia.
  - split; [lia|]. split; [done|]. lia.
  - specialize (IH (S c)). destruct (fresh_from fuel (S c) existing) as [k|].
    + destruct IH as (H1 & H2 & H3). split; [lia|]. split; [done|]. intros i Hi.
      destruct (decide (i = c)) as [->|]; [done | apply H3; lia].
    + intros i Hi. destruct (decide (i = c)) as [->|]; [done | apply IH; lia].
  - split; [lia|]. split; [done|]. lia.
Qed.

Lemma fresh_from_enough existing : ∃ k, fresh_from (length existing) 1 existing = Some k.
Proof.
  pose proof (fresh_from_spec (length existing) 1 existing) as H. destruct (fresh_from _ _ _) as [k|]; [by exists k|]. exfalso.
  assert (NoDup (map field_name (seq 1 (S (length existing))))) as Hnd.
  { apply (NoDup_fmap_2_strong field_name); [|apply NoDup_seq]. intros x y _ _. apply field_name_inj. }
  assert (map field_name (seq 1 (S (length existing))) ⊆+ existing) as Hs.
  { apply NoDup_submseteq; [done|]. intros x (i & -> & Hi)%list_elem_of_fmap. apply H. apply elem_of_seq in Hi. lia. }
  apply submseteq_length in Hs. rewrite length_map, length_seq in Hs. lia.
Qed.

(** ** The object of the pairs *)

Definition assign_pair (o : props) (p : pair) : props := if member_name (key p) then set (key p) (val p) o else o.

Lemma to_object_snoc l p : keyValueArrayToObject (l ++ [p]) = assign_pair (keyValueArrayToObject l) p.
Proof. unfold keyValueArrayToObject. by rewrite fold_left_app. Qed.

(** The last value under a name. *)
Definition last_value (k : jsstr) (l : list pair) : option value :=
  val <$> last (List.filter (λ p, bool_decide (key p = k)) l).

Lemma get_to_object k l : get k (keyValueArrayToObject l) = if member_name k then last_value k l else None.
Proof.
  unfold last_value. induction l as [|p l IH] using rev_ind; [by destruct (member_name k)|].
  rewrite to_object_snoc, List.filter_app. unfold assign_pair. simpl.
  destruct (decide (key p = k)) as [<-|Hne].
  - rewrite bool_decide_true by done. destruct (member_name (key p)); [|done]. by rewrite last_snoc, get_set_eq.
  - rewrite bool_decide_false by done. rewrite app_nil_r, <- IH. destruct (member_name (key p)); [|done]. by rewrite get_set_ne.
Qed.

Lemma to_object_sorted l : props_sorted (keyValueArrayToObject l).
Proof.
  induction l as [|p l IH] using rev_ind; [done|]. rewrite to_object_snoc. unfold assign_pair.
  destruct (member_name (key p)); [by apply props_sorted_set | done].
Qed.

Definition values_ok (l : list pair) : Prop := Forall (λ p, json_ok (val p) = true) l.

Lemma to_object_ok l : values_ok l → json_ok (VObj (keyValueArrayToObject l)) = true.
Proof.
  intros H. rewrite json_ok_obj. rewrite bool_decide_true by apply to_object_sorted. simpl.
  induction l as [|p l IH] using rev_ind; [done|]. apply Forall_app in H as [Hl Hp]. rewrite Forall_singleton in Hp.
  rewrite to_object_snoc. unfold assign_pair. destruct (member_name (key p)); [|by apply IH]. apply members_ok_set; [done | by apply IH].
Qed.

(** ** Duplicates *)

Definition countable (k : jsstr) : bool := str_truthy k && bool_decide (k ∉ inherited).

Lemma countable_member k : countable k = true → member_name k = true.
Proof.
  unfold countable, member_name. rewrite !andb_true_iff, bool_decide_eq_true, negb_true_iff, bool_decide_eq_false.
  intros [H1 H2]. split; [done|]. intros ->. apply H2. apply (bool_decide_unpack _). by vm_compute.
Qed.

Definition occurrences (k : jsstr) (l : list pair) : nat := length (List.filter (λ p, bool_decide (key p = k)) l).

Lemma occurrences_snoc k l p : occurrences k (l ++ [p]) = occurrences k l + if decide (key p = k) then 1 else 0.
Proof.
  unfold occurrences. rewrite List.filter_app, length_app. simpl. destruct (decide (key p = k)).
  - by rewrite bool_decide_true.
  - by rewrite bool_decide_false.
Qed.

Lemma counted l :
  let '(seen, duplicates) := fold_left count_key l ([], []) in
  ∀ k, (k ∈ seen ↔ countable k = true ∧ 0 < occurrences k l) ∧ (k ∈ duplicates ↔ countable k = true ∧ 1 < occurrences k l).
Proof.
  induction l as [|p l IH] using rev_ind.
  { simpl. unfold occurrences. simpl. intros k. split; (split; [by intros ?%not_elem_of_nil | lia]). }
  rewrite fold_left_app. destruct (fold_left count_key l ([], [])) as [seen dups]. simpl.
  fold (countable (key p)). destruct (countable (key p)) eqn:Ec.
  - destruct (decide (key p ∈ seen)) as [Hs|Hs].
    + pose proof (proj1 (proj1 (IH (key p))) Hs) as [_ Hpos].
      assert (∀ k, (k ∈ (if decide (key p ∈ dups) then dups else dups ++ [key p]) ↔ k ∈ dups ∨ k = key p)) as Hd.
      { intros k. destruct (decide (key p ∈ dups)); [set_solver|]. rewrite elem_of_app, list_elem_of_singleton. done. }
      intros k. rewrite Hd, occurrences_snoc. destruct (IH k) as [-> ->].
      destruct (decide (key p = k)) as [<-|]; [|assert (k ≠ key p) by congruence]; split; split; intros; intuition (try lia; try congruence).
    + assert (occurrences (key p) l = 0) as Hz by (destruct (decide (occurrences (key p) l = 0)); [done|]; exfalso; apply Hs, (proj1 (IH (key p))); split; [done|lia]).
      intros k. rewrite elem_of_cons, occurrences_snoc. destruct (IH k) as [-> ->].
      destruct (decide (key p = k)) as [<-|]; [|assert (k ≠ key p) by congruence]; split; split; intros; intuition (try lia; try congruence).
  - intros k. rewrite occurrences_snoc. destruct (IH k) as [-> ->]. destruct (decide (key p = k)) as [<-|]; [|by rewrite Nat.add_0_r].
    split; split; intros [? ?]; congruence.
Qed.

Lemma duplicate_iff k l : k ∈ duplicateKeys l ↔ countable k = true ∧ 1 < occurrences k l.
Proof. unfold duplicateKeys. pose proof (counted l) as H. destruct (fold_left _ _ _) as [seen dups]. apply H. Qed.

(** What the row at an index shows about its name. *)
Lemma marked_last l i p :
  l !! i = Some p → isLastDuplicate l i p = true ↔ isDuplicate l p = true ∧ Forall (λ q, key q ≠ key p) (drop (S i) l).
Proof.
  intros _. unfold isLastDuplicate. rewrite andb_true_iff, forallb_forall, Forall_forall. apply and_iff_compat_l.
  split; intros H q Hq; specialize (H q).
  - apply list_elem_of_In in Hq. specialize (H Hq). by apply negb_true_iff, bool_decide_eq_false in H.
  - apply negb_true_iff, bool_decide_eq_false, H, list_elem_of_In, Hq.
Qed.

Lemma filter_none k l : Forall (λ q, key q ≠ k) l → List.filter (λ p, bool_decide (key p = k)) l = [].
Proof. induction 1 as [|q l Hq _ IH]; [done|]. simpl. by rewrite bool_decide_false. Qed.

Lemma filter_some k l : List.filter (λ p, bool_decide (key p = k)) l = [] → Forall (λ q, key q ≠ k) l.
Proof.
  induction l as [|q l IH]; [constructor|]. simpl. destruct (decide (key q = k)) as [E|E].
  - by rewrite bool_decide_true.
  - rewrite bool_decide_false by done. constructor; auto.
Qed.

(** The value of a row is the last under its name when no later row has the name. *)
Lemma last_value_row l i p :
  l !! i = Some p → Forall (λ q, key q ≠ key p) (drop (S i) l) → last_value (key p) l = Some (val p).
Proof.
  intros Hi Hd. rewrite <- (take_drop_middle l i p Hi). unfold last_value. rewrite List.filter_app. simpl.
  rewrite bool_decide_true by done. rewrite (filter_none (key p) _ Hd). by rewrite last_snoc.
Qed.

Lemma single_last l i p : l !! i = Some p → occurrences (key p) l ≤ 1 → Forall (λ q, key q ≠ key p) (drop (S i) l).
Proof.
  intros Hi H. rewrite <- (take_drop_middle l i p Hi) in H. unfold occurrences in H. rewrite List.filter_app, length_app in H. simpl in H.
  rewrite bool_decide_true in H by done. apply filter_some. destruct (List.filter _ (drop (S i) l)); [done|]. simpl in H. lia.
Qed.

(** Objects with the same names in the same order and the same values. *)
Lemma object_ext (o o' : props) : NoDup (keys o) → keys o = keys o' → (∀ k, get k o = get k o') → o = o'.
Proof.
  revert o'. induction o as [|[k v] o IH]; intros [|[k' v'] o']; try done. simpl.
  intros [Hk Hnd]%NoDup_cons [= <- Hkeys] Hget. pose proof (Hget k) as H. simpl in H. rewrite !decide_True in H by done. simplify_eq.
  f_equal. apply IH; [done..|]. intros k'. specialize (Hget k'). simpl in Hget. destruct (decide (k = k')) as [<-|]; [|done].
  rewrite (proj2 (get_None k o)) by done. symmetry. apply get_None. by rewrite <- Hkeys.
Qed.

Lemma keys_fresh k (v v' : value) o o' : keys o = keys o' → keys (insert_fresh k v o) = keys (insert_fresh k v' o').
Proof.
  revert o'. induction o as [|[k1 v1] o IH]; intros [|[k2 v2] o']; try done. simpl. intros [= <- H].
  destruct (key_before k k1); simpl; [by rewrite H | by rewrite (IH o' H)].
Qed.

Lemma keys_set_same k (v v' : value) o o' : keys o = keys o' → keys (set k v o) = keys (set k v' o').
Proof.
  intros H. unfold set. destruct (get k o) eqn:E, (get k o') eqn:E'.
  - by rewrite !keys_set_existing.
  - apply get_None in E'. rewrite <- H in E'. apply get_None in E'. congruence.
  - apply get_None in E. rewrite H in E. apply get_None in E. congruence.
  - by apply keys_fresh.
Qed.

Lemma keys_to_object l l' : map key l = map key l' → keys (keyValueArrayToObject l) = keys (keyValueArrayToObject l').
Proof.
  revert l'. induction l as [|p l IH] using rev_ind; intros l' H.
  { symmetry in H. by apply map_eq_nil in H as ->. }
  destruct l' as [|p' l' _] using rev_ind; [by rewrite map_app in H; destruct (map key l)|].
  rewrite !map_app in H. apply app_inj_tail in H as [H Hk]. simpl in Hk. rewrite !to_object_snoc. unfold assign_pair. rewrite <- Hk.
  destruct (member_name (key p)); [by apply keys_set_same, IH | by apply IH].
Qed.

Lemma alter_keys v i l : map key (alter (λ q, mk_pair (id q) (key q) v) i l) = map key l.
Proof. revert i. induction l as [|q l IH]; intros [|i]; simpl; try done. f_equal. apply IH. Qed.

(** A value that a later row overwrites. *)
Lemma last_value_alter v i l p k :
  l !! i = Some p → ¬ Forall (λ q, key q ≠ key p) (drop (S i) l) →
  last_value k (alter (λ q, mk_pair (id q) (key q) v) i l) = last_value k l.
Proof.
  unfold last_value. intros Hi Hd. f_equal. revert i Hi Hd. induction l as [|q l IH]; intros [|i] Hi Hd; try done.
  - simpl in *. simplify_eq. destruct (decide (key p = k)) as [<-|E].
    + rewrite !bool_decide_true by done. destruct (List.filter _ l) eqn:E; [by apply filter_some in E | done].
    + by rewrite !bool_decide_false.
  - simpl in *. specialize (IH i Hi Hd). change (list_alter (λ q, mk_pair (id q) (key q) v) i l) with (alter (λ q, mk_pair (id q) (key q) v) i l).
    destruct (bool_decide (key q = k)); [|exact IH]. by rewrite !last_cons, IH.
Qed.

(** the marks of a row tell what is written: under a name that has one row, or whose
    marked row is the last of several, the object has the value of that row; the value of
    a row that is marked as overwritten is not looked at. *)
Theorem marks_meaning l i p :
  l !! i = Some p → countable (key p) = true →
  (isDuplicate l p = false ∨ isLastDuplicate l i p = true → get (key p) (keyValueArrayToObject l) = Some (val p)) ∧
  (isDuplicate l p = true → isLastDuplicate l i p = false →
    ∀ v, keyValueArrayToObject (alter (λ q, mk_pair (id q) (key q) v) i l) = keyValueArrayToObject l).

Proof.
  intros Hi Hc. unfold isDuplicate. split.
  - intros H. rewrite get_to_object, (countable_member _ Hc). apply (last_value_row l i p Hi). destruct H as [H|H].
    + apply (single_last l i p Hi). apply bool_decide_eq_false in H. rewrite duplicate_iff in H.
      destruct (decide (occurrences (key p) l ≤ 1)); [done|]. destruct H. split; [done|lia].
    + by apply marked_last in H as [_ H].
  - intros Hd Hl v. apply object_ext.
    + apply sorted_keys_NoDup, to_object_sorted.
    + apply keys_to_object, alter_keys.
    + intros k. rewrite !get_to_object. destruct (member_name k); [|done]. apply (last_value_alter v i l p k Hi).
      intros Hf. assert (isLastDuplicate l i p = true) as Ht by (by apply (marked_last l i p Hi)). congruence.
Qed.

(** Three rows, two of which have the same name. *)
Definition three_rows : list pair := [mk_pair 0 (u "a") (n 1); mk_pair 1 (u "b") (n 2); mk_pair 2 (u "a") (n 3)].

Lemma marks_meaning_witness :
  get (u "a") (keyValueArrayToObject three_rows) = Some (n 3) ∧
  ∀ v, keyValueArrayToObject (alter (λ q, mk_pair (id q) (key q) v) 0 three_rows) = keyValueArrayToObject three_rows.
Proof.
  split.
  - apply (marks_meaning three_rows 2 (mk_pair 2 (u "a") (n 3))); [reflexivity | vm_compute; reflexivity|]. right. vm_compute. reflexivity.
  - apply (marks_meaning three_rows 0 (mk_pair 0 (u "a") (n 1))); [reflexivity | vm_compute; reflexivity..].
Defined.

(** ** Rows have keys of their own *)

Definition ids (s : state) : list nat := map id (keyValuePairs s).

Definition keyed (c : nat) (l : list pair) : Prop := NoDup (map id l) ∧ Forall (λ p, id p < c) l.

(** The keys that are kept are those of the rows before, at their places. *)
Lemma pairs_of_spec c o prev :
  keyed c prev → let '(l, c') := pairs_of c o prev in
  c ≤ c' ∧ keyed c' l ∧ Forall (λ p, id p ∈ map id prev ∨ c ≤ id p) l ∧ map (λ p, (key p, val p)) l = o.
Proof.
  revert c prev. induction o as [|[k v] o IH]; intros c prev [Hnd Hlt]; simpl; [repeat split; constructor|].
  destruct prev as [|p prev].
  - specialize (IH (S c) [] ltac:(split; constructor)). destruct (pairs_of (S c) o []) as [l c']. destruct IH as (H1 & [H2 H3] & H4 & H5).
    split; [lia|]. split; [split|split].
    + simpl. apply NoDup_cons. split; [|done]. intros (q & Hq & Hin)%list_elem_of_fmap. rewrite Forall_forall in H4.
      destruct (H4 q Hin) as [[]%not_elem_of_nil|]. lia.
    + constructor; [simpl; lia | done].
    + constructor; [right; simpl; lia|]. eapply Forall_impl; [exact H4|]. intros q [[]%not_elem_of_nil|]; right; lia.
    + simpl. by rewrite H5.
  - simpl in Hnd. apply NoDup_cons in Hnd as [Hp Hnd]. apply Forall_cons in Hlt as [Hpc Hlt]. destruct (decide (key p = k)) as [E|E].
    + specialize (IH c prev ltac:(done)). destruct (pairs_of c o prev) as [l c']. destruct IH as (H1 & [H2 H3] & H4 & H5).
      split; [lia|]. split; [split|split].
      * simpl. apply NoDup_cons. split; [|done]. intros (q & Hq & Hin)%list_elem_of_fmap. rewrite Forall_forall in H4.
        destruct (H4 q Hin); [congruence | lia].
      * constructor; [simpl; lia | done].
      * constructor; [left; simpl; set_solver|]. eapply Forall_impl; [exact H4|]. intros q [|]; [left; set_solver | by right].
      * simpl. by rewrite H5.
    + specialize (IH (S c) prev ltac:(split; [done|]; eapply Forall_impl; [exact Hlt|]; simpl; intros; lia)).
      destruct (pairs_of (S c) o prev) as [l c']. destruct IH as (H1 & [H2 H3] & H4 & H5). split; [lia|]. split; [split|split].
      * simpl. apply NoDup_cons. split; [|done]. intros (q & Hq & Hin)%list_elem_of_fmap. rewrite Forall_forall in H4.
        destruct (H4 q Hin) as [Hq'|]; [|lia]. apply list_elem_of_fmap in Hq' as (r & Hr & Hr'). rewrite Forall_forall in Hlt.
        specialize (Hlt r Hr'). simpl in Hq, Hlt. lia.
      * constructor; [simpl; lia | done].
      * constructor; [right; simpl; lia|]. eapply Forall_impl; [exact H4|]. intros q [|]; [left; set_solver | right; lia].
      * simpl. by rewrite H5.
Qed.

Section laws.
Context (has_form : bool) (template : value) (parse_error : jsstr → jsstr).

Definition wf (s : state) : Prop := keyed (counter s) (keyValuePairs s) ∧ stuck s = 0.

Lemma keyed_set_pairs v s : wf s → wf (set_pairs_of v s).
Proof.
  intros [H1 H2]. unfold set_pairs_of, objectToKeyValueArray. destruct v as [| | | | |l|o]; try (split; [split; constructor | exact H2]).
  - pose proof (pairs_of_spec (counter s) (own_entries (VArr l)) _ H1) as H. destruct (pairs_of _ _ _). destruct H as (_ & H & _). by split.
  - pose proof (pairs_of_spec (counter s) (own_entries (VObj o)) _ H1) as H. destruct (pairs_of _ _ _). destruct H as (_ & H & _). by split.
Qed.

Lemma keyed_sync s : wf s → wf (value_changed parse_error s).
Proof.
  intros H. unfold value_changed, sync_text. assert (wf (sync_pairs parse_error s)) as Hs; [|by destruct (manual _)].
  unfold sync_pairs. destruct (parsed_value _ _) as [v|]; [|done]. destruct (bool_decide _); [done|]. exact (keyed_set_pairs v s H).
Qed.

Lemma keyed_visual l s : keyed (counter s) l → stuck s = 0 → wf (handleVisualChange has_form l s).
Proof. intros. unfold handleVisualChange. by destruct has_form. Qed.

Lemma keyed_append s k v : wf s → keyed (S (counter s)) (keyValuePairs s ++ [mk_pair (counter s) k v]).
Proof.
  intros [[H1 H2] _]. split.
  - rewrite map_app. apply NoDup_app. split; [done|]. split; [|apply NoDup_singleton].
    intros x (p & -> & Hp)%list_elem_of_fmap. rewrite Forall_forall in H2. specialize (H2 p Hp). simpl. rewrite list_elem_of_singleton. lia.
  - apply Forall_app. split; [|by repeat constructor]. eapply Forall_impl; [exact H2|]. simpl. lia.
Qed.

(** Rows that keep their keys. *)
Lemma keyed_map c f l : (∀ p, id (f p) = id p) → keyed c l → keyed c (map f l).
Proof.
  intros Hf [H1 H2]. split.
  - rewrite map_map. erewrite map_ext; [exact H1 | done].
  - apply Forall_map. eapply Forall_impl; [exact H2|]. simpl. intros p. by rewrite Hf.
Qed.

Lemma keyed_filter c (f : pair → bool) l : keyed c l → keyed c (List.filter f l).
Proof.
  intros [H1 H2]. induction l as [|p l IH]; [done|]. simpl in *. apply NoDup_cons in H1 as [Hp H1]. apply Forall_cons in H2 as [Hc H2].
  destruct (IH H1 H2) as [IH1 IH2]. destruct (f p); [|done]. split; simpl; [|by constructor]. apply NoDup_cons. split; [|done].
  intros (q & Hq & Hin)%list_elem_of_fmap. apply Hp. rewrite Hq. apply list_elem_of_fmap_2. apply list_elem_of_In, filter_In in Hin.
  apply list_elem_of_In. tauto.
Qed.

Lemma new_key_found existing : ∃ k, new_key existing = Some k ∧ k ∉ existing.
Proof.
  unfold new_key. destruct (fresh_from_enough existing) as [i Hi]. pose proof (fresh_from_spec (length existing) 1 existing) as H.
  rewrite Hi in *. exists (field_name i). by destruct H as (_ & H & _).
Qed.

Lemma keyed_step s e : wf s → wf (step has_form template parse_error s e).
Proof.
  intros H. pose proof H as [Hk Hs]. destruct e; simpl.
  - destruct (same_value v (value_prop s)); [done|]. by apply keyed_sync.
  - split; [|done]. destruct Hk as [H1 H2]. split; [done|]. eapply Forall_impl; [exact H2|]. simpl. lia.
  - unfold addKeyValue. destruct (new_key_found (map key (keyValuePairs s))) as (k & -> & _). by apply keyed_visual; [apply keyed_append|].
  - apply keyed_visual; [by apply keyed_filter | done].
  - apply keyed_visual; [|done]. apply keyed_map; [|done]. intros p. by case_bool_decide.
  - apply keyed_visual; [|done]. apply keyed_map; [|done]. intros p. by case_bool_decide.
  - apply keyed_visual; [|done]. apply keyed_map; [|done]. intros p. by case_bool_decide.
  - destruct (area_value txt); [|done]. apply keyed_visual; [|done]. apply keyed_map; [|done]. intros p. by case_bool_decide.
  - unfold default_region. destruct (List.find _ _).
    + apply keyed_visual; [|done]. apply keyed_map; [|done]. intros q. by case_bool_decide.
    + by apply keyed_visual; [apply keyed_append|].
  - unfold handleManualChange. destruct (str_truthy _); [|split; [split; constructor | exact Hs]].
    destruct (json_parse txt) as [v|]; [|done]. by apply (keyed_set_pairs v (setManualText txt s)).
  - destruct to_manual; [done|]. destruct (manual s) eqn:Em; [|done]. unfold toggleEditMode. rewrite Em.
    destruct (parsed_value _ _) as [v|]; [|done]. by apply (keyed_set_pairs v s).
  - unfold fillTemplate. destruct (truthy template); [|done]. set (text := ser gap2 [] template).
    destruct has_form; [exact (keyed_set_pairs template (setManualText text (emit (SetForm text) s)) H) | exact (keyed_set_pairs template (setManualText text s) H)].
Qed.

Lemma keyed_init v first : wf (init parse_error v first).
Proof.
  unfold init. set (parsed := match v with VStr _ => _ | _ => _ end). assert (keyed first []) as H0 by (split; constructor).
  assert (wf (mk_state v [] (manual_text_of v) (opens_manual v) [] first [] 0)) as H1 by done.
  apply (keyed_set_pairs parsed) in H1. unfold set_pairs_of in H1. simpl in H1. destruct (objectToKeyValueArray first parsed []). by apply keyed_sync.
Qed.

Lemma keyed_run s es : wf s → wf (run has_form template parse_error s es).
Proof. revert s. induction es as [|e es IH]; intros s H; [done|]. apply IH. by apply keyed_step. Qed.

(** ** What the dialog gives back *)

(** An event, after which the dialog renders the editor with what it was told. *)
Definition rendered (s : state) (e : event) : state :=
  let s := step has_form template parse_error s e in
  match log s with OnChange text :: _ => step has_form template parse_error s (Value (VStr text)) | _ => s end.

Definition shows (s : state) (l : list pair) : Prop :=
  keyValuePairs s = l ∧ value_prop s = VStr (members_text l) ∧ jsonError s = [].

Lemma parsed_members l : values_ok l → parsed_value parse_error (VStr (members_text l)) = inl (VObj (keyValueArrayToObject l)).
Proof.
  intros H. unfold members_text. pose proof (to_object_ok l H) as Hok. destruct (keyValueArrayToObject l) as [|kv o] eqn:E; [done|].
  unfold parsed_value. pose proof (ser_nonblank gap2 [] _ Hok) as Ht. apply str_truthy_true in Ht. rewrite Ht.
  by rewrite (json_parse_ser gap2 _ gap2_ws Hok).
Qed.

Lemma given_back l s :
  values_ok l → shows (step has_form template parse_error (handleVisualChange has_form l s) (Value (VStr (members_text l)))) l.
Proof.
  intros H. assert (∃ s', handleVisualChange has_form l s = s' ∧ keyValuePairs s' = l ∧ jsonError s' = []) as (s' & -> & Hl & He).
  { eexists. split; [done|]. unfold handleVisualChange. by destruct has_form. }
  unfold step. destruct (same_value _ _); [by split|]. unfold value_changed, sync_text, sync_pairs. simpl value_prop.
  rewrite (parsed_members l H). simpl keyValuePairs. rewrite Hl, bool_decide_true by done. simpl. by destruct (manual s').
Qed.

Lemma rendered_visual s e l s0 :
  step has_form template parse_error s e = handleVisualChange has_form l s0 → values_ok l → shows (rendered s e) l.
Proof. intros E H. unfold rendered. rewrite E. unfold handleVisualChange at 1. simpl. by apply given_back. Qed.

Lemma values_ok_insert l j p k v : values_ok l → json_ok v = true → values_ok (<[j := mk_pair (id p) k v]> l).
Proof. intros. by apply Forall_insert. Qed.

(** An edit of the rows with a key, when the keys are distinct. *)
Lemma map_row f l j p :
  NoDup (map id l) → l !! j = Some p → map (λ q, if bool_decide (id q = id p) then f q else q) l = <[j := f p]> l.
Proof.
  revert j. induction l as [|q l IH]; intros [|j] Hnd Hj; try done; simpl in *; apply NoDup_cons in Hnd as [Hq Hnd].
  - simplify_eq. rewrite bool_decide_true by done. f_equal. erewrite map_ext_in; [apply map_id|]. intros q Hin. simpl.
    rewrite bool_decide_false; [done|]. intros E. apply Hq. rewrite <- E. apply list_elem_of_fmap_2, list_elem_of_In, Hin.
  - rewrite bool_decide_false; [by rewrite (IH j)|]. intros E. apply Hq. rewrite E. apply list_elem_of_fmap_2, (list_elem_of_lookup_2 _ _ _ Hj).
Qed.

Lemma filter_row l j p :
  NoDup (map id l) → l !! j = Some p → List.filter (λ q, negb (bool_decide (id q = id p))) l = delete j l.
Proof.
  revert j. induction l as [|q l IH]; intros [|j] Hnd Hj; try done; simpl in *; apply NoDup_cons in Hnd as [Hq Hnd].
  - simplify_eq. rewrite bool_decide_true by done. simpl. clear IH. induction l as [|q l IH]; [done|]. simpl in *.
    apply NoDup_cons in Hnd as [_ Hnd]. rewrite bool_decide_false by set_solver. simpl. by rewrite IH by set_solver.
  - rewrite bool_decide_false; [simpl; by rewrite (IH j)|]. intros E. apply Hq. rewrite E. apply list_elem_of_fmap_2, (list_elem_of_lookup_2 _ _ _ Hj).
Qed.

(** in every reachable state an edit changes its row and no other, also when names
    are doubled or missing, and the text that the dialog gives back leaves the rows and
    their keys as they were edited; a new row has a name that no other row has. *)
Theorem rows_stay v first es j p s :
  s = run has_form template parse_error (init parse_error v first) es → keyValuePairs s !! j = Some p → values_ok (keyValuePairs s) →
  (∀ v', json_ok v' = true → shows (rendered s (Change (id p) v')) (<[j := mk_pair (id p) (key p) v']> (keyValuePairs s))) ∧
  (∀ k, shows (rendered s (Key (id p) k)) (<[j := mk_pair (id p) k (val p)]> (keyValuePairs s))) ∧
  shows (rendered s (RemovePair (id p))) (delete j (keyValuePairs s)) ∧
  ∃ k, k ∉ map key (keyValuePairs s) ∧ shows (rendered s AddPair) (keyValuePairs s ++ [mk_pair (counter s) k (VStr [])]).
Proof.
  intros Hs Hj Hok. assert (wf s) as [[Hnd _] _] by (rewrite Hs; apply keyed_run, keyed_init).
  assert (json_ok (val p) = true) as Hp by (unfold values_ok in Hok; rewrite Forall_forall in Hok; exact (Hok p (list_elem_of_lookup_2 _ _ _ Hj))).
  split; [|split; [|split]].
  - intros v' Hv. eapply rendered_visual; [|by apply values_ok_insert]. simpl. unfold updateValue.
    by rewrite (map_row (λ q, mk_pair (id q) (key q) v') _ j p Hnd Hj).
  - intros k. eapply rendered_visual; [|by apply values_ok_insert]. simpl. unfold updateKey.
    by rewrite (map_row (λ q, mk_pair (id q) k (val q)) _ j p Hnd Hj).
  - eapply rendered_visual; [|by apply Forall_delete]. simpl. unfold removeKeyValue. by rewrite (filter_row _ j p Hnd Hj).
  - destruct (new_key_found (map key (keyValuePairs s))) as (k & E & Hk). exists k. split; [done|].
    eapply rendered_visual; [simpl; unfold addKeyValue; by rewrite E|]. apply Forall_app. by split; [|apply Forall_singleton].
Qed.
End laws.

(** A doubled name that is given another name. *)
Definition doubled : state :=
  run true VUndef (λ x, x) (init (λ x, x) (VStr (j "{`gpt-4`: `gpt-4o`, `gpt-4o`: `gpt-5`}")) 0) [Key 1 (u "gpt-4")].

Lemma rows_stay_witness :
  shows (rendered true VUndef (λ x, x) doubled (Key 1 (u "gpt-4-turbo")))
    [mk_pair 0 (u "gpt-4") (VStr (u "gpt-4o")); mk_pair 1 (u "gpt-4-turbo") (VStr (u "gpt-5"))].
Proof.
  apply (rows_stay true VUndef (λ x, x) (VStr (j "{`gpt-4`: `gpt-4o`, `gpt-4o`: `gpt-5`}")) 0 [Key 1 (u "gpt-4")] 1
    (mk_pair 1 (u "gpt-4") (VStr (u "gpt-5"))) doubled).
  - reflexivity.
  - vm_compute. reflexivity.
  - apply (bool_decide_unpack _). vm_compute. exact I.
Defined.

(** ** Texts *)

(** A text that is no JSON is told to nobody: the rows and the value stay those of the
    last text that is. *)
Lemma bad_text_kept has_form template parse_error s text :
  trim text ≠ [] → json_parse text = None →
  step has_form template parse_error s (Manual text) = setJsonError (parse_error text) (setManualText text s).
Proof. intros Ht Hp. simpl. unfold handleManualChange. apply str_truthy_true in Ht. by rewrite Ht, Hp. Qed.

(** A digit, a blank and a number before its decimals become numbers while they are typed. *)
Example typed_numbers :
  map typed_value [u "3"; u " "; u "1."; u "0x10"; u "1.5"; u "gpt"] = [n 3; n 0; n 1; n 16; VStr (u "1.5"); VStr (u "gpt")].
Proof. vm_compute. reflexivity. Qed.
