(* ===== verification/Deployments.v ===== *)
(** * Deployments
    [src/web/src/hooks/model-deployments/useDeploymentsData.jsx]: the table of rented
    machines, its numbered loads, the operations on a deployment and the channel made
    from one, which the dialog of channels then knows again. *)

From Stdlib Require Import SpecFloat.
From stdpp Require Import base numbers option strings sets list.
From S2P Require Import Prelude JsString JsNumber JsValue Json JsOps StatusCodeRisk Session OAuth ChannelForm ChannelModal.

(** ** [URLSearchParams] *)

(** Lone surrogates become U+FFFD. *)
Fixpoint well_formed_text (s : jsstr) : jsstr :=
  match s with
  | [] => []
  | c :: s' =>
      if (55296 <=? c)%N && (c <=? 56319)%N then
        match s' with
        | d :: s'' => if (56320 <=? d)%N && (d <=? 57343)%N then c :: d :: well_formed_text s'' else 65533%N :: well_formed_text s'
        | [] => [65533%N]
        end
      else (if (56320 <=? c)%N && (c <=? 57343)%N then 65533%N else c) :: well_formed_text s'
  end.

(** The units that are kept, with the space, which becomes a plus. *)
Definition form_kept (c : N) : bool :=
  is_digit c || ((65 <=? c)%N && (c <=? 90)%N) || ((97 <=? c)%N && (c <=? 122)%N) || existsb (N.eqb c) [32; 42; 45; 46; 95]%N.
Definition form_encode (s : jsstr) : jsstr := replace_unit 32 43 (default [] (encode_units form_kept (well_formed_text s))).
Definition search_params (l : list (string * jsstr)) : jsstr :=
  join (u "&") (map (λ kv, form_encode (u kv.1) ++ u "=" ++ form_encode kv.2) l).

(** ** State *)

Definition ITEMS_PER_PAGE : value := n 10.

Record terms := mk_terms { keyword : jsstr; status : jsstr }.

Record view := mk_view {
  deployments : list props; loading : bool; activePage : value; pageSize : value; searching : bool;
  deploymentCount : value; query : terms; showEdit : bool; editingDeployment : value; selectedKeys : list value;
  visibleColumns : props; showColumnSelector : bool;
}.

Inductive operation := Start | Restart | Remove.

Inductive effect :=
  | Get (url : jsstr)
  | Post (url : jsstr) (body : value)
  | Put (url : jsstr) (body : value)
  | DeleteUrl (url : jsstr)
  | ShowError (v : value)
  | ShowSuccess (text : jsstr)
  | Renamed (done : bool)
  | Unhandled (v : value).

(** A load has its number and the page it asked for; [renaming]: a rename waits for it. *)
Inductive waiting :=
  | Load (seq : nat) (page : value) (search renaming : bool)
  | Operate (op : operation) (r : view)
  | Rename (r : view)
  | BatchDelete (r : view)
  | Containers (deployment : value)
  | CreateChannel.

Record state := mk_state {
  now : view; form : option props; requestSeq : nat; timers : nat; draws : nat; local_storage : storage;
  calls : list waiting; log : list effect;
}.

Definition with_view v s := mk_state v (form s) (requestSeq s) (timers s) (draws s) (local_storage s) (calls s) (log s).
Definition with_form f s := mk_state (now s) f (requestSeq s) (timers s) (draws s) (local_storage s) (calls s) (log s).
Definition with_seq x s := mk_state (now s) (form s) x (timers s) (draws s) (local_storage s) (calls s) (log s).
Definition with_timers x s := mk_state (now s) (form s) (requestSeq s) x (draws s) (local_storage s) (calls s) (log s).
Definition with_draws x s := mk_state (now s) (form s) (requestSeq s) (timers s) x (local_storage s) (calls s) (log s).
Definition with_storage x s := mk_state (now s) (form s) (requestSeq s) (timers s) (draws s) x (calls s) (log s).
Definition with_calls l s := mk_state (now s) (form s) (requestSeq s) (timers s) (draws s) (local_storage s) l (log s).
Definition emit e s := mk_state (now s) (form s) (requestSeq s) (timers s) (draws s) (local_storage s) (calls s) (e :: log s).
Definition suspend (w : waiting) (s : state) : state := with_calls (calls s ++ [w]) s.
Definition on_view (f : view → view) (s : state) : state := with_view (f (now s)) s.

Definition setDeployments x v := mk_view x (loading v) (activePage v) (pageSize v) (searching v) (deploymentCount v) (query v) (showEdit v) (editingDeployment v) (selectedKeys v) (visibleColumns v) (showColumnSelector v).
Definition setFlags load search v := mk_view (deployments v) load (activePage v) (pageSize v) search (deploymentCount v) (query v) (showEdit v) (editingDeployment v) (selectedKeys v) (visibleColumns v) (showColumnSelector v).
Definition setActivePage x v := mk_view (deployments v) (loading v) x (pageSize v) (searching v) (deploymentCount v) (query v) (showEdit v) (editingDeployment v) (selectedKeys v) (visibleColumns v) (showColumnSelector v).
Definition setPageSize x v := mk_view (deployments v) (loading v) (activePage v) x (searching v) (deploymentCount v) (query v) (showEdit v) (editingDeployment v) (selectedKeys v) (visibleColumns v) (showColumnSelector v).
Definition setDeploymentCount x v := mk_view (deployments v) (loading v) (activePage v) (pageSize v) (searching v) x (query v) (showEdit v) (editingDeployment v) (selectedKeys v) (visibleColumns v) (showColumnSelector v).
Definition setQuery x v := mk_view (deployments v) (loading v) (activePage v) (pageSize v) (searching v) (deploymentCount v) x (showEdit v) (editingDeployment v) (selectedKeys v) (visibleColumns v) (showColumnSelector v).
Definition setEdit shown d v := mk_view (deployments v) (loading v) (activePage v) (pageSize v) (searching v) (deploymentCount v) (query v) shown d (selectedKeys v) (visibleColumns v) (showColumnSelector v).
Definition setSelectedKeys x v := mk_view (deployments v) (loading v) (activePage v) (pageSize v) (searching v) (deploymentCount v) (query v) (showEdit v) (editingDeployment v) x (visibleColumns v) (showColumnSelector v).
Definition setColumns columns shown v := mk_view (deployments v) (loading v) (activePage v) (pageSize v) (searching v) (deploymentCount v) (query v) (showEdit v) (editingDeployment v) (selectedKeys v) columns shown.

Definition no_deployment : value := VObj [(u "id", VUndef)].

(** ** Columns *)

Definition ensureRequiredColumns (columns : props) : props :=
  let o := set (u "actions") (VBool true) (set (u "container_name") (VBool true) columns) in
  if is_undef (prop (u "provider") o) then set (u "provider") (VBool true) o else o.

Definition default_columns : props :=
  map (λ kv : string * bool, (u kv.1, VBool kv.2))
    [("container_name", true); ("status", true); ("provider", true); ("time_remaining", true); ("hardware_info", true);
     ("created_at", true); ("actions", true); ("deployment_name", false); ("model_name", false);
     ("instance_count", false); ("resource_config", false); ("updated_at", false)]%string.

Definition saved_columns (s : storage) : props :=
  ensureRequiredColumns
    match getItem "deployments_visible_columns" s with
    | Some ((_ :: _) as text) => match json_parse text with Some parsed => own_entries parsed | None => default_columns end
    | _ => default_columns
    end.

Section deployments_hook.
(** [randomUUID i], [random36 i]: what the [i]-th call of [crypto.randomUUID] gives, or
    [None] without one, and the digits of the [i]-th random number. *)
Context (t : jsstr → jsstr) (engine_error : value) (randomUUID : nat → option jsstr) (random36 : nat → jsstr).

Definition throws (s : state) : state := emit (Unhandled engine_error) s.
Definition fails (text : string) (s : state) : state := emit (ShowError (VStr (t (u text)))) s.

Definition saveColumnVisibility (columns : props) (s : state) : state :=
  let normalized := ensureRequiredColumns columns in
  on_view (λ v, setColumns normalized (showColumnSelector v) v)
    (with_storage (setJson "deployments_visible_columns" (VObj normalized) (local_storage s)) s).

(** ** Loading *)

Definition extractItems (payload : value) : list value :=
  match value_or (value_or (opt_read (u "items") payload) payload) (VArr []) with VArr l => l | _ => [] end.

(** [{ ...deployment, key: deployment.id }] *)
Definition keyed (deployment : value) : option props :=
  id ← read (u "id") deployment; Some (set (u "key") id (own_entries deployment)).

Definition nullish_or (a b : value) : value := match a with VUndef | VNull => b | _ => a end.

(** Page, count and selection are set before an item can throw: the boolean tells. *)
Definition applyDeploymentsData (data page : value) (s : state) : state * bool :=
  let items := extractItems data in
  let s := on_view (λ v, setSelectedKeys []
    (setDeploymentCount (nullish_or (opt_read (u "total") data) (n (Z.of_nat (length items))))
      (setActivePage (nullish_or (opt_read (u "page") data) page) v))) s in
  match mapM keyed items with
  | Some rows => (on_view (setDeployments rows) s, true)
  | None => (s, false)
  end.

Definition load_done (renaming : bool) (s : state) : state := if renaming then emit (Renamed true) s else s.
Definition clear_rows (s : state) : state := on_view (λ v, setDeploymentCount (n 0) (setDeployments [] v)) s.

(** The [catch] and the [finally] of a load that is the latest. *)
Definition load_ended (renaming : bool) (s : state) : state := load_done renaming (on_view (setFlags false false) s).
Definition load_thrown (search renaming : bool) (s : state) : state :=
  load_ended renaming (clear_rows (fails (if search then "搜索失败" else "获取部署列表失败") s)).

Definition load_url (page size : value) (q : terms) : option jsstr :=
  p ← to_string page; z ← to_string size;
  match keyword q, status q with
  | [], [] => Some (u "/api/deployments/?p=" ++ p ++ u "&page_size=" ++ z)
  | k, x =>
      let given (key : string) (text : jsstr) : list (string * jsstr) := match text with [] => [] | _ => [(key, text)] end in
      Some (u "/api/deployments/search?" ++
        search_params ([("p"%string, p); ("page_size"%string, z)] ++ given "keyword"%string k ++ given "status"%string x))
  end.

Definition is_search (q : terms) : bool := str_truthy (keyword q) || str_truthy (status q).

Definition fetchDeployments (page size : value) (q : terms) (renaming : bool) (s : state) : state :=
  let seq := S (requestSeq s) in
  let search := is_search q in
  let s := on_view (λ v, if search then setFlags (loading v) true v else setFlags true (searching v) v) (with_seq seq s) in
  match load_url page size q with
  | Some url => suspend (Load seq page search renaming) (emit (Get url) s)
  | None => load_thrown search renaming s
  end.

Definition load_answered (seq : nat) (page : value) (search renaming : bool) (res : value) (s : state) : state :=
  if negb (bool_decide (seq = requestSeq s)) then load_done renaming s
  else
    match read (u "data") res ≫= λ data, success ← read (u "success") data; Some (data, success) with
    | None => load_thrown search renaming s
    | Some (data, success) =>
        if truthy success then
          let '(s, done) := applyDeploymentsData (opt_read (u "data") data) page s in
          if (done : bool) then load_ended renaming s else load_thrown search renaming s
        else load_ended renaming (clear_rows (emit (ShowError (opt_read (u "message") data)) s))
    end.

Definition load_failed (seq : nat) (search renaming : bool) (s : state) : state :=
  if bool_decide (seq = requestSeq s) then load_thrown search renaming s else load_done renaming s.

Definition refresh (r : view) (page : option value) (renaming : bool) : state → state :=
  fetchDeployments (default (activePage r) page) (pageSize r) (query r) renaming.

Definition handlePageChange (r : view) (page : value) (s : state) : state :=
  fetchDeployments page (pageSize r) (query r) false (on_view (setActivePage page) s).

Definition handlePageSizeChange (r : view) (size : value) (s : state) : state :=
  fetchDeployments (n 1) size (query r) false (on_view (λ v, setActivePage (n 1) (setPageSize size v)) s).

Definition loadDeployments (r : view) (page size : option value) : state → state :=
  fetchDeployments (default (n 1) page) (default (pageSize r) size) (query r) false.

(** [(v ?? '').trim()]; [None] when it is no text. *)
Definition trimmed_term (v : value) : option jsstr :=
  match v with VUndef | VNull => Some [] | VStr s => Some (trim s) | _ => None end.

Definition normalizeQuery (v : value) : option terms :=
  k ← trimmed_term (opt_read (u "searchKeyword") v); x ← trimmed_term (opt_read (u "searchStatus") v); Some (mk_terms k x).

Definition searchDeployments (r : view) (searchTerms : value) (s : state) : state :=
  match normalizeQuery searchTerms with
  | Some q => fetchDeployments (n 1) (pageSize r) q false (on_view (λ v, setActivePage (n 1) (setQuery q v)) s)
  | None => throws s
  end.

(** ** Operations *)

Definition operation_failed (op : operation) : string :=
  match op with Start => "启动部署失败" | Restart => "重启部署失败" | Remove => "删除部署失败" end.
Definition operation_done (op : operation) : string :=
  match op with Start => "部署启动成功" | Restart => "部署重启成功" | Remove => "部署删除成功" end.

Definition operation_request (op : operation) (id : jsstr) : effect :=
  match op with
  | Start => Post (u "/api/deployments/" ++ id ++ u "/start") VUndef
  | Restart => Post (u "/api/deployments/" ++ id ++ u "/restart") VUndef
  | Remove => DeleteUrl (u "/api/deployments/" ++ id)
  end.

Definition operate (r : view) (op : operation) (deploymentId : value) (s : state) : state :=
  match to_string deploymentId with
  | Some id => suspend (Operate op r) (emit (operation_request op id) s)
  | None => fails (operation_failed op) s
  end.

Definition updateDeploymentName (r : view) (deploymentId newName : value) (s : state) : state :=
  match to_string deploymentId with
  | Some id => suspend (Rename r) (emit (Put (u "/api/deployments/" ++ id ++ u "/name") (VObj [(u "name", newName)])) s)
  | None => emit (Renamed false) (fails "更新部署名称失败" s)
  end.

Definition batchDeleteDeployments (r : view) (s : state) : state :=
  match selectedKeys r with
  | [] => s
  | rows =>
      match mapM (read (u "id")) rows with
      | Some ids => suspend (BatchDelete r) (emit (Post (u "/api/deployments/batch_delete") (VObj [(u "ids", VArr ids)])) s)
      | None => fails "批量删除失败" s
      end
  end.

(** [res.data.success] and [res.data.message]; [None] when reading them throws. *)
Definition outcome (res : value) : option (bool * value) :=
  data ← read (u "data") res; success ← read (u "success") data; Some (truthy success, opt_read (u "message") data).

Definition operated (op : operation) (r : view) (res : value) (s : state) : state :=
  match outcome res with
  | Some (true, _) => refresh r None false (emit (ShowSuccess (t (u (operation_done op)))) s)
  | Some (false, message) => emit (ShowError message) s
  | None => fails (operation_failed op) s
  end.

Definition renamed (r : view) (res : value) (s : state) : state :=
  match outcome res with
  | Some (true, _) => refresh r None true (emit (ShowSuccess (t (u "部署名称更新成功"))) s)
  | Some (false, message) => emit (Renamed false) (emit (ShowError message) s)
  | None => emit (Renamed false) (fails "更新部署名称失败" s)
  end.

Definition batch_deleted (r : view) (res : value) (s : state) : state :=
  match outcome res with
  | Some (true, _) => refresh r None false (on_view (setSelectedKeys []) (emit (ShowSuccess (t (u "批量删除成功"))) s))
  | Some (false, message) => emit (ShowError message) s
  | None => fails "批量删除失败" s
  end.

(** ** The channel of a deployment *)

Definition syncDeploymentToChannel (deployment : value) (s : state) : state :=
  let id := opt_read (u "id") deployment in
  if negb (truthy id) then fails "同步渠道失败：缺少部署信息" s
  else match to_string id with
       | Some x => suspend (Containers deployment) (emit (Get (u "/api/deployments/" ++ x ++ u "/containers")) s)
       | None => fails "同步渠道失败" s
       end.

(** [s.replace(/\/+$/, '')] *)
Definition drop_slashes (s : jsstr) : jsstr := rev (drop_while (N.eqb 47) (rev s)).

Definition random_key (i : nat) : jsstr :=
  u "ionet-" ++ match randomUUID i with Some uuid => remove_unit 45 uuid | None => random36 i ++ random36 (S i) end.

Definition base_name (deployment : value) : value :=
  let field k := opt_read (u k) deployment in
  value_or (value_or (value_or (value_or (field "container_name"%string) (field "deployment_name"%string)) (field "name"%string))
    (field "id"%string)) (VStr (u "ionet")).

Definition otherInfo (id container : value) (name url : jsstr) : props :=
  [(u "source", VStr (u "ionet")); (u "deployment_id", id); (u "deployment_name", VStr name);
   (u "container_id", value_or (opt_read (u "container_id") container) VNull); (u "public_url", VStr url)].

Definition channel_of (deployment container : value) (name url key : jsstr) (id : jsstr) : value :=
  VObj [(u "mode", VStr (u "single")); (u "channel", VObj [
    (u "name", VStr (u "[IO.NET] " ++ name)); (u "type", n 4); (u "key", VStr key); (u "base_url", VStr url);
    (u "group", VStr (u "default")); (u "tag", VStr (u "ionet"));
    (u "remark", VStr (u "[IO.NET] Auto-synced from deployment " ++ id));
    (u "other_info", VStr (ser [] [] (VObj (otherInfo (opt_read (u "id") deployment) container name url))))])].

Definition first_public (containers : value) : option value :=
  match containers with VArr l => Some (default VUndef (List.find (λ c, truthy (opt_read (u "public_url") c)) l)) | _ => None end.

(** The channel is asked for when a container has an address. *)
Definition channel_request (deployment container : value) (s : state) : state :=
  let id := opt_read (u "id") deployment in
  match to_string (opt_read (u "public_url") container) with
  | None => fails "同步渠道失败" s
  | Some raw =>
      match drop_slashes (trim raw) with
      | [] => fails "容器访问地址无效" s
      | url =>
          match to_string (base_name deployment), to_string id with
          | Some name, Some id =>
              suspend CreateChannel (emit (Post (u "/api/channel/")
                (channel_of deployment container (take 60 name) url (random_key (draws s)) id))
                (with_draws (S (S (draws s))) s))
          | _, _ => fails "同步渠道失败" s
          end
      end
  end.

Definition containers_answered (deployment res : value) (s : state) : state :=
  match read (u "data") res with
  | None => fails "同步渠道失败" s
  | Some data =>
      if negb (truthy (opt_read (u "success") data))
      then emit (ShowError (value_or (opt_read (u "message") data) (VStr (t (u "获取容器信息失败"))))) s
      else match first_public (value_or (opt_read (u "containers") (opt_read (u "data") data)) (VArr [])) with
           | None => fails "同步渠道失败" s
           | Some container =>
               if truthy (opt_read (u "public_url") container) then channel_request deployment container s
               else fails "未找到可用的容器访问地址" s
           end
  end.

Definition channel_created (res : value) (s : state) : state :=
  match read (u "data") res with
  | None => fails "同步渠道失败" s
  | Some data =>
      if truthy (opt_read (u "success") data) then emit (ShowSuccess (t (u "已同步到渠道"))) s
      else emit (ShowError (value_or (opt_read (u "message") data) (VStr (t (u "同步渠道失败"))))) s
  end.

(** ** Steps *)

Inductive event :=
  | Form (f : option props)
  | Refresh (page : option value)
  | LoadPage (page size : option value)
  | Search (searchTerms : value)
  | PageChange (page : value)
  | PageSizeChange (size : value)
  | Select (rows : list value)
  | OpenEdit (deployment : value)
  | CloseEdit
  | Timer
  | Columns (columns : props)
  | ColumnSelector (shown : bool)
  | Operation (op : operation) (deploymentId : value)
  | NewName (deploymentId newName : value)
  | DeleteSelected
  | Sync (deployment : value)
  | Answer (i : nat) (res : value)
  | Failure (i : nat).

Definition closeEdit (s : state) : state :=
  with_timers (S (timers s)) (on_view (λ v, setEdit false (editingDeployment v) v) s).

Definition timer_fired (s : state) : state :=
  match timers s with
  | O => s
  | S k => with_timers k (on_view (λ v, setEdit (showEdit v) no_deployment v) s)
  end.

Definition formInitValues : props := [(u "searchKeyword", VStr []); (u "searchStatus", VStr [])].
Definition getFormValues (s : state) : value := VObj (default formInitValues (form s)).

Definition take_call (i : nat) (s : state) : state := with_calls (delete i (calls s)) s.

Definition answered (w : waiting) (res : value) (s : state) : state :=
  match w with
  | Load seq page search renaming => load_answered seq page search renaming res s
  | Operate op r => operated op r res s
  | Rename r => renamed r res s
  | BatchDelete r => batch_deleted r res s
  | Containers deployment => containers_answered deployment res s
  | CreateChannel => channel_created res s
  end.

Definition failed (w : waiting) (s : state) : state :=
  match w with
  | Load seq page search renaming => load_failed seq search renaming s
  | Operate op _ => fails (operation_failed op) s
  | Rename _ => emit (Renamed false) (fails "更新部署名称失败" s)
  | BatchDelete _ => fails "批量删除失败" s
  | Containers _ | CreateChannel => fails "同步渠道失败" s
  end.

Definition step (s : state) (e : event) : state :=
  let r := now s in
  match e with
  | Form f => with_form f s
  | Refresh page => refresh r page false s
  | LoadPage page size => loadDeployments r page size s
  | Search searchTerms => searchDeployments r searchTerms s
  | PageChange page => handlePageChange r page s
  | PageSizeChange size => handlePageSizeChange r size s
  | Select rows => on_view (setSelectedKeys rows) s
  | OpenEdit deployment => on_view (setEdit true deployment) s
  | CloseEdit => closeEdit s
  | Timer => timer_fired s
  | Columns columns => saveColumnVisibility columns s
  | ColumnSelector shown => on_view (λ v, setColumns (visibleColumns v) shown v) s
  | Operation op deploymentId => operate r op deploymentId s
  | NewName deploymentId newName => updateDeploymentName r deploymentId newName s
  | DeleteSelected => batchDeleteDeployments r s
  | Sync deployment => syncDeploymentToChannel deployment s
  | Answer i res => match calls s !! i with Some w => answered w res (take_call i s) | None => s end
  | Failure i => match calls s !! i with Some w => failed w (take_call i s) | None => s end
  end.

Definition run (s : state) (es : list event) : state := fold_left step es s.

Definition first_view (store : storage) : view :=
  mk_view [] true (n 1) ITEMS_PER_PAGE false (n 0) (mk_terms [] []) false no_deployment [] (saved_columns store) false.

Definition init (store : storage) : state :=
  let r := first_view store in
  loadDeployments r None None (mk_state r None 0 0 0 store [] []).
End deployments_hook.

(** * Deployments: laws
    The table says that it loads while the latest load is in flight, and a channel
    made from a deployment is known again by the dialog of channels. *)

(** ** Loads in flight *)

Definition load_seq (w : Deployments.waiting) : option nat := match w with Load seq _ _ _ => Some seq | _ => None end.
Definition seqs (l : list Deployments.waiting) : list nat := omap load_seq l.

(** The numbers of the loads: each once, none later than the last. *)
Definition numbered (s : Deployments.state) : Prop :=
  Forall (λ k, k ≤ requestSeq s) (seqs (calls s)) ∧ NoDup (seqs (calls s)).
Definition busy (s : Deployments.state) : bool := loading (now s) || searching (now s).
Definition always_shown (s : Deployments.state) : Prop :=
  ∀ k, k ∈ ["container_name"; "actions"]%string → prop (u k) (visibleColumns (now s)) = VBool true.

Record wf (s : Deployments.state) : Prop := {
  dep_numbered : numbered s;
  dep_busy : busy s = bool_decide (requestSeq s ∈ seqs (calls s));
  dep_columns : always_shown s;
}.

Lemma required_shown o k :
  k ∈ ["container_name"; "actions"]%string → prop (u k) (ensureRequiredColumns o) = VBool true.
Proof.
  intros Hk. unfold ensureRequiredColumns. case_match; rewrite !prop_set;
    (apply elem_of_cons in Hk as [->|Hk]; [by vm_compute | apply list_elem_of_singleton in Hk as ->; by vm_compute]).
Qed.

(** Taking a call from those in flight. *)
Lemma seqs_delete l i w : l !! i = Some w → seqs l ≡ₚ match load_seq w with Some k => [k] | None => [] end ++ seqs (delete i l).
Proof.
  intros H. unfold seqs. rewrite (delete_Permutation l i w H) at 1. simpl. by destruct (load_seq w).
Qed.

Lemma seqs_suspend w s : load_seq w = None → seqs (calls (suspend w s)) = seqs (calls s).
Proof. intros H. unfold seqs. simpl. rewrite omap_app. simpl. by rewrite H, app_nil_r. Qed.

Lemma numbered_take i w s : calls s !! i = Some w → numbered s → numbered (take_call i s).
Proof.
  intros Hw [H1 H2]. pose proof (seqs_delete _ _ _ Hw) as P. rewrite P in H1, H2. unfold numbered. simpl.
  apply Forall_app in H1 as [_ H1]. by apply NoDup_app in H2 as (_ & _ & H2).
Qed.

(** Answering what is no load leaves those in flight. *)
Lemma dep_take i w s : calls s !! i = Some w → load_seq w = None → wf s → wf (take_call i s).
Proof.
  intros Hw Hn [H1 H2 H3]. split; [by eapply numbered_take | | done].
  pose proof (seqs_delete _ _ _ Hw) as P. rewrite Hn in P. simpl in P.
  transitivity (busy s); [done|]. rewrite H2. apply bool_decide_ext. by rewrite P.
Qed.

Lemma dep_suspend w s : load_seq w = None → wf s → wf (suspend w s).
Proof.
  intros Hn [[H1 H2] H3 H4]. pose proof (seqs_suspend w s Hn) as E.
  split; [split; by rewrite E | by rewrite E | done].
Qed.

Section laws.
Context (t : jsstr → jsstr) (engine_error : value) (randomUUID : nat → option jsstr) (random36 : nat → jsstr).
Local Abbreviation step := (Deployments.step t engine_error randomUUID random36).
Local Abbreviation run := (Deployments.run t engine_error randomUUID random36).
Local Abbreviation init := (Deployments.init t).

(** The end of the latest load, which is no longer among those in flight. *)
Lemma dep_ended renaming s : numbered s → requestSeq s ∉ seqs (calls s) → always_shown s → wf (load_ended renaming s).
Proof. intros H1 H2 H3. destruct renaming; (split; [exact H1 | by rewrite bool_decide_false | exact H3]). Qed.

Lemma dep_thrown search renaming s :
  numbered s → requestSeq s ∉ seqs (calls s) → always_shown s → wf (load_thrown t search renaming s).
Proof. intros. by apply dep_ended. Qed.

Lemma dep_fetch page size q renaming s : numbered s → always_shown s → wf (fetchDeployments t page size q renaming s).
Proof.
  intros [H1 H2] H3. unfold fetchDeployments. cbv zeta.
  assert (S (requestSeq s) ∉ seqs (calls s)) as Hnew.
  { intros Hin. rewrite Forall_forall in H1. apply H1 in Hin. lia. }
  assert (Forall (λ k, k ≤ S (requestSeq s)) (seqs (calls s))) as H1' by (eapply Forall_impl; [exact H1|]; simpl; lia).
  destruct (load_url page size q) as [url|].
  - assert (seqs (calls s ++ [Load (S (requestSeq s)) page (is_search q) renaming]) = seqs (calls s) ++ [S (requestSeq s)]) as E
      by (unfold seqs; rewrite omap_app; done).
    split; [split| |by destruct (is_search q)]; simpl; rewrite ?E.
    + apply Forall_app. split; [done | by apply Forall_singleton].
    + apply NoDup_app. split_and!; [done| |apply NoDup_singleton]. intros x Hx ->%list_elem_of_singleton. done.
    + rewrite bool_decide_true by set_solver. destruct (is_search q); [apply orb_true_r | done].
  - apply dep_thrown; [by split | done | by destruct (is_search q)].
Qed.

Lemma dep_stale renaming s : wf s → wf (load_done renaming s).
Proof. destruct renaming; [intros [H1 H2 H3]; by split | done]. Qed.

Lemma dep_load i seq page search renaming s :
  calls s !! i = Some (Load seq page search renaming) → wf s →
  (seq ≠ requestSeq s → wf (take_call i s)) ∧
  (seq = requestSeq s → numbered (take_call i s) ∧ requestSeq s ∉ seqs (calls (take_call i s))).
Proof.
  intros Hi [H1 H2 H3]. pose proof (numbered_take i _ s Hi H1) as Hn. pose proof (seqs_delete _ _ _ Hi) as P. simpl in P.
  split; intros Hseq.
  - split; [done| |done]. transitivity (busy s); [done|]. rewrite H2. apply bool_decide_ext. rewrite P. set_solver.
  - split; [done|]. destruct H1 as [_ Hd]. rewrite P in Hd. subst seq. by apply NoDup_cons in Hd as [Hd _].
Qed.

Lemma dep_load_answered i seq page search renaming res s :
  calls s !! i = Some (Load seq page search renaming) → wf s →
  wf (load_answered t seq page search renaming res (take_call i s)).
Proof.
  intros Hi Hs. destruct (dep_load _ _ _ _ _ _ Hi Hs) as [Hold Hnew]. unfold load_answered.
  change (requestSeq (take_call i s)) with (requestSeq s).
  destruct (bool_decide (seq = requestSeq s)) eqn:E; simpl negb; cbv iota.
  - apply bool_decide_eq_true in E. destruct (Hnew E) as [H1 H2]. pose proof (dep_columns _ Hs) as H3.
    destruct (_ ≫= _) as [[data ok]|]; [|by apply dep_thrown]. destruct (truthy ok); [|by apply dep_ended].
    unfold applyDeploymentsData. cbv zeta. destruct (mapM keyed _); [by apply dep_ended | by apply dep_thrown].
  - apply bool_decide_eq_false in E. by apply dep_stale, Hold.
Qed.

Lemma dep_load_failed i seq page search renaming s :
  calls s !! i = Some (Load seq page search renaming) → wf s →
  wf (load_failed t seq search renaming (take_call i s)).
Proof.
  intros Hi Hs. destruct (dep_load _ _ _ _ _ _ Hi Hs) as [Hold Hnew]. unfold load_failed.
  change (requestSeq (take_call i s)) with (requestSeq s). case_bool_decide as E.
  - destruct (Hnew E) as [H1 H2]. apply dep_thrown; [done.. | exact (dep_columns _ Hs)].
  - by apply dep_stale, Hold.
Qed.

Lemma dep_refresh r page renaming s : wf s → wf (refresh t r page renaming s).
Proof. intros [H1 _ H3]. by apply dep_fetch. Qed.

(** What changes neither the loads nor the columns keeps the invariant. *)
Lemma dep_same s s' :
  wf s → calls s' = calls s → requestSeq s' = requestSeq s → busy s' = busy s →
  visibleColumns (now s') = visibleColumns (now s) → wf s'.
Proof.
  intros [H1 H2 H3] E1 E2 E3 E4. unfold numbered, always_shown in *. split; unfold numbered, always_shown; by rewrite ?E1, ?E2, ?E3, ?E4.
Qed.
Ltac same := eapply dep_same; [eassumption | reflexivity..].

Lemma dep_containers deployment res s : wf s → wf (containers_answered t randomUUID random36 deployment res s).
Proof.
  intros H. unfold containers_answered. destruct (read (u "data") res) as [data|]; [|same]. case_match; [same|].
  case_match; [|same]. case_match; [|same]. unfold channel_request. cbv zeta.
  destruct (to_string (opt_read (u "public_url") _)); [|same]. destruct (drop_slashes _); [same|].
  repeat (case_match; [|same]). apply dep_suspend; [done|]. same.
Qed.

Lemma dep_answered i w res s : calls s !! i = Some w → wf s → wf (answered t randomUUID random36 w res (take_call i s)).
Proof.
  intros Hi H. destruct w; simpl; [by eapply dep_load_answered|..];
    pose proof (dep_take _ _ _ Hi eq_refl H) as H'; clear H Hi.
  - unfold operated. destruct (outcome res) as [[[] m]|]; [apply dep_refresh; same | same..].
  - unfold renamed. destruct (outcome res) as [[[] m]|]; [apply dep_refresh; same | same..].
  - unfold batch_deleted. destruct (outcome res) as [[[] m]|]; [apply dep_refresh; same | same..].
  - by apply dep_containers.
  - unfold channel_created. destruct (read _ res); [case_match|]; same.
Qed.

Lemma dep_failed i w s : calls s !! i = Some w → wf s → wf (failed t w (take_call i s)).
Proof.
  intros Hi H. destruct w; simpl; [by eapply dep_load_failed|..]; pose proof (dep_take _ _ _ Hi eq_refl H) as H'; clear H; same.
Qed.

Lemma dep_step s e : wf s → wf (step s e).
Proof.
  intros H. pose proof H as [H1 H2 H3]. destruct e; simpl.
  - same.
  - by apply dep_refresh.
  - by apply dep_fetch.
  - unfold searchDeployments. destruct (normalizeQuery _); [by apply dep_fetch | same].
  - by apply dep_fetch.
  - by apply dep_fetch.
  - same.
  - same.
  - same.
  - unfold timer_fired. case_match; [done | same].
  - split; [exact H1 | exact H2 | exact (required_shown columns)].
  - same.
  - unfold operate. destruct (to_string _); [apply dep_suspend; [done | same] | same].
  - unfold updateDeploymentName. destruct (to_string _); [apply dep_suspend; [done | same] | same].
  - unfold batchDeleteDeployments. destruct (selectedKeys _); [done|].
    destruct (mapM _ _); [apply dep_suspend; [done | same] | same].
  - unfold syncDeploymentToChannel. cbv zeta. case_match; [same|].
    destruct (to_string _); [apply dep_suspend; [done | same] | same].
  - destruct (calls s !! i) as [w|] eqn:E; [by apply dep_answered | done].
  - destruct (calls s !! i) as [w|] eqn:E; [by apply dep_failed | done].
Qed.

Lemma dep_run es s : wf s → wf (run s es).
Proof. unfold Deployments.run. revert s. induction es as [|e es IH]; [done|]. intros s H. by apply IH, dep_step. Qed.

Lemma dep_init store : wf (init store).
Proof.
  apply dep_fetch; [split; simpl; [by apply Forall_nil_2 | by apply NoDup_nil] | exact (required_shown _)].
Qed.

(** in every state the table comes to it says that it loads, or searches, exactly
    while the latest load is in flight; the loads in flight have numbers of their own,
    an earlier one changes nothing when it is answered or fails, and the names and the
    actions of the deployments are never hidden. *)
Theorem deployments_loading store es :
  let s := run (init store) es in
  (loading (now s) || searching (now s) = true ↔
    ∃ page search renaming, Load (requestSeq s) page search renaming ∈ calls s) ∧
  NoDup (seqs (calls s)) ∧
  (∀ i seq page search renaming res, calls s !! i = Some (Load seq page search renaming) → seq ≠ requestSeq s →
    now (step s (Answer i res)) = now s ∧ now (step s (Failure i)) = now s) ∧
  always_shown s.
Proof.
  intros s. destruct (dep_run es _ (dep_init store)) as [[H1 H2] H3 H4]. fold s in H1, H2, H3, H4. split_and!; [|done| |done].
  - unfold busy in H3. rewrite H3, bool_decide_eq_true. unfold seqs. rewrite list_elem_of_omap. split.
    + intros (w & Hw & Hk). destruct w; try done. injection Hk as <-. eauto.
    + intros (page & search & renaming & Hw). by eexists.
  - intros i seq page search renaming res Hi Hseq. simpl. rewrite Hi. simpl. unfold load_answered, load_failed.
    change (requestSeq (take_call i s)) with (requestSeq s). rewrite bool_decide_false by done. simpl. by destruct renaming.
Qed.
End laws.

(** ** The channel of a deployment *)

Lemma member_json k v : json_ok v = true → truthy (opt_read k v) = true → json_ok (opt_read k v) = true.
Proof.
  destruct v as [| | | | | |o]; try done. intros Hv Ht. apply member_ok; [done|]. intros E.
  unfold opt_read, read, prop in Ht. by rewrite E in Ht.
Qed.

Lemma find_member {A} (f : A → bool) l c : List.find f l = Some c → In c l.
Proof. intros H. by apply find_some in H as [H _]. Qed.

(** The containers of an answer are JSON. *)
Lemma public_json l c :
  json_ok l = true → first_public l = Some c → truthy (opt_read (u "public_url") c) = true → json_ok c = true.
Proof.
  destruct l as [| | | | |l|]; try done. intros Hl. unfold first_public. intros [= <-].
  destruct (List.find _ l) as [c|] eqn:E; [|done]. intros _. apply find_member in E.
  simpl in Hl. by apply (proj1 (forallb_forall _ _) Hl).
Qed.

Lemma drop_slashes_end s : ends_with (drop_slashes s) (u "/") = false.
Proof.
  unfold ends_with, drop_slashes. rewrite rev_involutive. pose proof (drop_while_head (N.eqb 47) (rev s)) as H.
  destruct (drop_while _ _) as [|c l]; [done|]. unfold head_out in H.
  change (rev (u "/")) with [47%N]. cbn [starts_with]. by rewrite H.
Qed.

(** The text of [otherInfo] read back. *)
Lemma other_info_back id container name url :
  json_ok id = true → json_ok container = true →
  ionet_metadata (VStr (ser [] [] (VObj (otherInfo id container name url)))) = Some (VObj (otherInfo id container name url)).
Proof.
  intros Hid Hc. assert (json_ok (VObj (otherInfo id container name url)) = true) as Hok.
  { rewrite json_ok_obj. unfold otherInfo. apply andb_true_iff. split; [by vm_compute|]. unfold members_ok. simpl.
    rewrite Hid. simpl. unfold value_or. case_match; [|done]. by rewrite member_json. }
  pose proof (json_parse_ser [] _ ltac:(constructor) Hok) as Hp.
  unfold ionet_metadata. assert (truthy (VStr (ser [] [] (VObj (otherInfo id container name url)))) = true) as ->.
  { destruct (ser [] [] _); [discriminate Hp | done]. }
  unfold parse_text. cbn [to_string mbind option_bind]. rewrite Hp. done.
Qed.

Section sync.
Context (t : jsstr → jsstr) (engine_error : value) (randomUUID : nat → option jsstr) (random36 : nat → jsstr).
Context (set_values : props → props → props) (set_value : jsstr → value → props → props).

(** The channel that a body creates. *)
Definition created (body : value) : value := opt_read (u "channel") body.

(** when the containers of a deployment are known and a channel is made from it,
    its address is not empty and ends with no slash, and the dialog of channels knows
    the deployment from what the channel was made with: it refuses to change the type
    and the address of the channel, and its button opens the deployment. *)
Theorem synced_channel_known deployment res body s :
  json_ok (opt_read (u "id") deployment) = true → json_ok res = true → truthy (opt_read (u "id") deployment) = true →
  Deployments.log (containers_answered t randomUUID random36 deployment res s) = Deployments.Post (u "/api/channel/") body :: Deployments.log s →
  ∃ url meta id, opt_read (u "base_url") (created body) = VStr url ∧ url ≠ [] ∧ ends_with url (u "/") = false ∧
    to_string (opt_read (u "id") deployment) = Some id ∧
    ionet_metadata (opt_read (u "other_info") (created body)) = Some meta ∧
    ∀ r d, ionetMetadata r = Some meta → isEdit r = true →
      (∀ name v, name ∈ ["type"; "base_url"]%string → handleInputChange engine_error set_values set_value r name v d = d) ∧
      handleOpenIonetDeployment engine_error r d = ChannelModal.emit (OpenWindow (u "/console/deployment?deployment_id=" ++ id)) d.
Proof.
  intros Hid Hres Ht. unfold containers_answered.
  destruct (read (u "data") res) as [data|] eqn:Ed; [|by intros [=]].
  destruct (truthy (opt_read (u "success") data)) eqn:Es; [|by intros [=]]. cbn [negb].
  set (l := value_or _ _). destruct (first_public l) as [c|] eqn:Ec; [|by intros [=]].
  destruct (truthy (opt_read (u "public_url") c)) eqn:Eu; [|by intros [=]].
  unfold channel_request. cbv zeta. destruct (to_string (opt_read (u "public_url") c)) as [raw|]; [|by intros [=]].
  pose proof (drop_slashes_end (trim raw)) as Hend. destruct (drop_slashes (trim raw)) as [|x url]; [by intros [=]|].
  destruct (to_string (base_name deployment)) as [name|]; [|by intros [=]].
  destruct (to_string (opt_read (u "id") deployment)) as [id|] eqn:Eid; [|by intros [=]].
  intros [= <-]. assert (json_ok c = true) as Hc.
  { assert (json_ok l = true) as Hl; [|by eapply public_json].
    unfold l, value_or. destruct (truthy (opt_read (u "containers") _)) eqn:E1; [|done]. apply member_json; [|done].
    assert (truthy (opt_read (u "data") data) = true) as E2 by (destruct (opt_read (u "data") data); try done; by destruct o).
    apply member_json; [|done]. assert (data = opt_read (u "data") res) as -> by (unfold opt_read; by rewrite Ed).
    apply member_json; [done|]. destruct (opt_read (u "data") res); try done. }
  exists (x :: url), (VObj (otherInfo (opt_read (u "id") deployment) c (take 60 name) (x :: url))), id.
  split_and!; [done..| |].
  - exact (other_info_back _ _ _ _ Hid Hc).
  - intros r d Hr He. split.
    + intros k v Hk. unfold handleInputChange. rewrite Hr, He, !bool_decide_true by done. done.
    + unfold handleOpenIonetDeployment. rewrite Hr.
      change (opt_read (u "deployment_id") (VObj (otherInfo (opt_read (u "id") deployment) c (take 60 name) (x :: url))))
        with (opt_read (u "id") deployment). by rewrite Ht, Eid.
Qed.
End sync.

(** A deployment with one container, whose address ends with a slash. *)
Lemma synced_channel_known_witness :
  let deployment := VObj [(u "id", VStr (u "d1")); (u "container_name", VStr (u "box"))] in
  let res := VObj [(u "data", VObj [(u "success", VBool true); (u "data",
    VObj [(u "containers", VArr [VObj [(u "public_url", VStr (u "https://h.example/"))]])])])] in
  let s := Deployments.init (λ x, x) [] in
  ∃ meta, ionet_metadata (opt_read (u "other_info") (created (channel_of deployment
      (VObj [(u "public_url", VStr (u "https://h.example/"))]) (u "box") (u "https://h.example") (u "ionet-k") (u "d1")))) = Some meta ∧
    ∀ r d, ionetMetadata r = Some meta → isEdit r = true →
      handleOpenIonetDeployment VUndef r d =
      ChannelModal.emit (OpenWindow (u "/console/deployment?deployment_id=" ++ u "d1")) d.
Proof.
  intros deployment res s.
  destruct (synced_channel_known (λ x, x) VUndef (λ _, Some (u "k")) (λ _, []) (λ o f, o ++ f) (λ k v o, set k v o)
    deployment res (channel_of deployment (VObj [(u "public_url", VStr (u "https://h.example/"))]) (u "box")
      (u "https://h.example") (u "ionet-k") (u "d1")) s) as (url & meta & id & _ & _ & _ & Hid & Hm & H).
  - vm_compute. reflexivity.
  - vm_compute. reflexivity.
  - vm_compute. reflexivity.
  - vm_compute. reflexivity.
  - exists meta. split; [exact Hm|]. intros r d Hr He. destruct (H r d Hr He) as [_ H2]. rewrite H2.
    assert (Some id = Some (u "d1")) as [= ->] by (rewrite <- Hid; vm_compute; reflexivity). reflexivity.
Defined.
