(* ===== verification/NewDeployment.v ===== *)
(** * A new deployment
    [src/web/src/components/table/model-deployments/modals/CreateDeploymentModal.jsx]: the
    dialog in which a machine is rented.  Its state is kept in order by eleven effects,
    each run after a render that changed what it depends on; their settings cause renders
    that run effects again. *)

From Stdlib Require Import SpecFloat.
From stdpp Require Import base numbers option strings sets list.
From S2P Require Import Prelude JsString JsNumber JsValue Json JsSame JsOps ChannelForm Deployments.

(** ** State *)

Record location := mk_location {
  id : value; name : jsstr; iso2 : jsstr; region : value; country : value; code : value; available : num;
}.

(** What is chosen; arrays have a stamp that tells a new one from an old one. *)
Record choice := mk_choice {
  hardwareId : value; locationIds : list value; chosen_stamp : nat; gpus : value; duration : value; replicas : value; currency : jsstr;
}.

(** What the server told. *)
Record resources := mk_resources {
  hardwareTypes : list props; types_stamp : nat; hardwareTotal : value; locations : list location; locations_stamp : nat;
  locationTotal : value; price : value; loadingHardware : bool; loadingReplicas : bool; loadingPrice : bool;
}.

(** The container; an environment variable is its name and its value. *)
Record container := mk_container {
  envVariables : list (jsstr * jsstr); secretEnvVariables : list (jsstr * jsstr); entrypoint : list jsstr; args : list jsstr;
  builtin : bool; autoOllamaKey : jsstr;
}.

Record view := mk_view {
  visible : bool; submitting : bool; formApi : option nat; chosen : choice; told : resources; made : container; formDefaults : props;
}.

Record refs := mk_refs {
  customSecretEnv : list (jsstr * jsstr); customEnv : list (jsstr * jsstr); customImage : value; customTrafficPort : value;
  prevBuiltin : bool; replicaRequestId : Z;
}.

Inductive effect :=
  | Get (url : jsstr)
  | Post (url : jsstr) (body : value)
  | ShowError (v : value)
  | ShowSuccess (text : jsstr)
  | CopyText (text : jsstr)
  | Created (data : value)
  | Cancelled.

Inductive waiting := Hardware | Replicas (requestId : Z) | Price | Submitted | Copying.

(** [last]: the view of the last render whose effects have run; the form has the number
    of its mount and its values. *)
Record state := mk_state {
  now : view; last : view; refs_of : refs; form : nat * props; mounts : nat; draws : nat; clock : Z;
  calls : list waiting; log : list effect;
}.

Definition with_view v s := mk_state v (last s) (refs_of s) (form s) (mounts s) (draws s) (clock s) (calls s) (log s).
Definition with_last v s := mk_state (now s) v (refs_of s) (form s) (mounts s) (draws s) (clock s) (calls s) (log s).
Definition with_refs x s := mk_state (now s) (last s) x (form s) (mounts s) (draws s) (clock s) (calls s) (log s).
Definition with_form x k s := mk_state (now s) (last s) (refs_of s) x k (draws s) (clock s) (calls s) (log s).
Definition with_draws k s := mk_state (now s) (last s) (refs_of s) (form s) (mounts s) k (clock s) (calls s) (log s).
Definition with_clock z s := mk_state (now s) (last s) (refs_of s) (form s) (mounts s) (draws s) z (calls s) (log s).
Definition with_calls l s := mk_state (now s) (last s) (refs_of s) (form s) (mounts s) (draws s) (clock s) l (log s).
Definition emit e s := mk_state (now s) (last s) (refs_of s) (form s) (mounts s) (draws s) (clock s) (calls s) (e :: log s).
Definition suspend (w : waiting) (s : state) : state := with_calls (calls s ++ [w]) s.

Definition setVisible b v := mk_view b (submitting v) (formApi v) (chosen v) (told v) (made v) (formDefaults v).
Definition setSubmitting b v := mk_view (visible v) b (formApi v) (chosen v) (told v) (made v) (formDefaults v).
Definition setFormApi x v := mk_view (visible v) (submitting v) x (chosen v) (told v) (made v) (formDefaults v).
Definition setChosen x v := mk_view (visible v) (submitting v) (formApi v) x (told v) (made v) (formDefaults v).
Definition setTold x v := mk_view (visible v) (submitting v) (formApi v) (chosen v) x (made v) (formDefaults v).
Definition setMade x v := mk_view (visible v) (submitting v) (formApi v) (chosen v) (told v) x (formDefaults v).
Definition setFormDefaults x v := mk_view (visible v) (submitting v) (formApi v) (chosen v) (told v) (made v) x.

Definition on_view f s := with_view (f (now s)) s.
Definition on_chosen f := on_view (λ v, setChosen (f (chosen v)) v).
Definition on_told f := on_view (λ v, setTold (f (told v)) v).
Definition on_made f := on_view (λ v, setMade (f (made v)) v).
Definition on_refs f s := with_refs (f (refs_of s)) s.

Definition setSelectedHardwareId x := on_chosen (λ c, mk_choice x (locationIds c) (chosen_stamp c) (gpus c) (duration c) (replicas c) (currency c)).
Definition setSelectedLocationIds l := on_chosen (λ c, mk_choice (hardwareId c) l (S (chosen_stamp c)) (gpus c) (duration c) (replicas c) (currency c)).
Definition setGpusPerContainer x := on_chosen (λ c, mk_choice (hardwareId c) (locationIds c) (chosen_stamp c) x (duration c) (replicas c) (currency c)).
Definition setDurationHours x := on_chosen (λ c, mk_choice (hardwareId c) (locationIds c) (chosen_stamp c) (gpus c) x (replicas c) (currency c)).
Definition setReplicaCount x := on_chosen (λ c, mk_choice (hardwareId c) (locationIds c) (chosen_stamp c) (gpus c) (duration c) x (currency c)).
Definition setPriceCurrency x := on_chosen (λ c, mk_choice (hardwareId c) (locationIds c) (chosen_stamp c) (gpus c) (duration c) (replicas c) x).

Definition setHardwareTypes l := on_told (λ d, mk_resources l (S (types_stamp d)) (hardwareTotal d) (locations d) (locations_stamp d) (locationTotal d) (price d) (loadingHardware d) (loadingReplicas d) (loadingPrice d)).
Definition setHardwareTotal x := on_told (λ d, mk_resources (hardwareTypes d) (types_stamp d) x (locations d) (locations_stamp d) (locationTotal d) (price d) (loadingHardware d) (loadingReplicas d) (loadingPrice d)).
Definition setLocations l := on_told (λ d, mk_resources (hardwareTypes d) (types_stamp d) (hardwareTotal d) l (S (locations_stamp d)) (locationTotal d) (price d) (loadingHardware d) (loadingReplicas d) (loadingPrice d)).
Definition setLocationTotal x := on_told (λ d, mk_resources (hardwareTypes d) (types_stamp d) (hardwareTotal d) (locations d) (locations_stamp d) x (price d) (loadingHardware d) (loadingReplicas d) (loadingPrice d)).
Definition setPriceEstimation x := on_told (λ d, mk_resources (hardwareTypes d) (types_stamp d) (hardwareTotal d) (locations d) (locations_stamp d) (locationTotal d) x (loadingHardware d) (loadingReplicas d) (loadingPrice d)).
Definition setLoadingHardware b := on_told (λ d, mk_resources (hardwareTypes d) (types_stamp d) (hardwareTotal d) (locations d) (locations_stamp d) (locationTotal d) (price d) b (loadingReplicas d) (loadingPrice d)).
Definition setLoadingReplicas b := on_told (λ d, mk_resources (hardwareTypes d) (types_stamp d) (hardwareTotal d) (locations d) (locations_stamp d) (locationTotal d) (price d) (loadingHardware d) b (loadingPrice d)).
Definition setLoadingPrice b := on_told (λ d, mk_resources (hardwareTypes d) (types_stamp d) (hardwareTotal d) (locations d) (locations_stamp d) (locationTotal d) (price d) (loadingHardware d) (loadingReplicas d) b).

Definition setEnvVariables l := on_made (λ m, mk_container l (secretEnvVariables m) (entrypoint m) (args m) (builtin m) (autoOllamaKey m)).
Definition setSecretEnvVariables l := on_made (λ m, mk_container (envVariables m) l (entrypoint m) (args m) (builtin m) (autoOllamaKey m)).
Definition setEntrypoint l := on_made (λ m, mk_container (envVariables m) (secretEnvVariables m) l (args m) (builtin m) (autoOllamaKey m)).
Definition setArgs l := on_made (λ m, mk_container (envVariables m) (secretEnvVariables m) (entrypoint m) l (builtin m) (autoOllamaKey m)).
Definition setImageMode b := on_made (λ m, mk_container (envVariables m) (secretEnvVariables m) (entrypoint m) (args m) b (autoOllamaKey m)).
Definition setAutoOllamaKey x := on_made (λ m, mk_container (envVariables m) (secretEnvVariables m) (entrypoint m) (args m) (builtin m) x).

(** ** Derived values *)

Definition BUILTIN_IMAGE : jsstr := u "ollama/ollama:latest".
Definition DEFAULT_TRAFFIC_PORT : value := n 11434.
Definition no_variable : list (jsstr * jsstr) := [([], [])].

Definition number_or (d : num) (v : value) : num := default d (to_number v).
Definition positive_number (v : value) : bool := nltb (num_of_Z 0) (number_or NaN v).

Definition getHardwareMaxGpus (r : view) (hardware : value) : value :=
  if negb (truthy hardware) then n 1
  else
    let found := List.find (λ h, strict_eq (prop (u "id") h) hardware) (hardwareTypes (told r)) in
    let maxGpus := number_or NaN (match found with Some h => prop (u "max_gpus") h | None => VUndef end) in
    if is_finite maxGpus && nltb (num_of_Z 0) maxGpus then VNum maxGpus else n 1.

Definition some_available (l : location) : bool := nltb (num_of_Z 0) (available l).
Definition valid_ids (r : view) : list value := map id (List.filter some_available (locations (told r))).
Definition includes_value (l : list value) (v : value) : bool := existsb (strict_eq v) l.

Definition maxAvailableReplicas (r : view) : num :=
  let ids := locationIds (chosen r) in
  match ids with
  | [] => num_of_Z 0
  | _ => fold_left (λ total l, nadd total (if is_nan (available l) then num_of_Z 0 else available l))
           (List.filter (λ l, includes_value ids (id l)) (locations (told r))) (num_of_Z 0)
  end.

Definition isPriceReady (r : view) : bool :=
  let c := chosen r in
  truthy (hardwareId c) && (0 <? length (locationIds c))%nat && positive_number (gpus c) && positive_number (duration c) &&
  positive_number (replicas c).

Definition totalGpuHours (r : view) : num :=
  let number v := number_or NaN (value_or v (n 0)) in
  let c := chosen r in nmul (nmul (number (gpus c)) (number (replicas c))) (number (duration c)).

(** [Object.is]; an object is not replaced by another one with the same data. *)
Definition object_is (a b : value) : bool := bool_decide (a = b).

Section new_deployment.
(** [randomUUID], [random36]: as for the channels of deployments; [lower], [upper]: the
    cases of texts; [engine_error]: what the engine throws. *)
Context (t : jsstr → jsstr) (engine_error : value) (randomUUID : nat → option jsstr) (random36 : nat → jsstr).
Context (lower upper : jsstr → jsstr).

(** [t(text) + v]; [None] throws. *)
Definition say_with (text : string) (v : value) (s : state) : option state :=
  x ← js_add (VStr (t (u text))) v; Some (emit (ShowError x) s).
Definition told_error (text : string) (error : value) (s : state) : state := default s (say_with text (opt_read (u "message") error) s).

Definition generateRandomKey (s : state) : jsstr * state :=
  (Deployments.random_key randomUUID random36 (draws s), with_draws (S (S (draws s))) s).

(** The form of the render is written; a form that is no longer mounted is not seen. *)
Definition form_set (r : view) (field : string) (v : value) (s : state) : state :=
  match formApi r with
  | Some k => if (k =? (form s).1)%nat then with_form (k, set (u field) v (form s).2) (mounts s) s else s
  | None => s
  end.
Definition form_get (field : string) (s : state) : value := prop (u field) (form s).2.

(** ** Requests *)

Definition loadHardwareTypes (s : state) : state :=
  suspend Hardware (emit (Get (u "/api/deployments/hardware-types")) (setLoadingHardware true s)).

Definition loadAvailableReplicas (hardware count : value) (s : state) : state :=
  if negb (truthy hardware) || negb (truthy count) then setLoadingReplicas false (setLocationTotal VNull (setLocations [] s))
  else
    let requestId := clock s in
    let s := on_refs (λ x, mk_refs (customSecretEnv x) (customEnv x) (customImage x) (customTrafficPort x) (prevBuiltin x) requestId) s in
    let s := setLocationTotal VNull (setLocations [] (setLoadingReplicas true s)) in
    match to_string hardware, to_string count with
    | Some h, Some c =>
        suspend (Replicas requestId)
          (emit (Get (u "/api/deployments/available-replicas?hardware_id=" ++ h ++ u "&gpu_count=" ++ c)) s)
    | _, _ => setLoadingReplicas false (setLocationTotal VNull s)
    end.

Definition currency_text (r : view) : jsstr := str_or (lower (currency (chosen r))) (currency (chosen r)).

Definition price_request (r : view) : value :=
  let c := chosen r in
  VObj [(u "location_ids", VArr (locationIds c)); (u "hardware_id", hardwareId c); (u "gpus_per_container", gpus c);
    (u "duration_hours", duration c); (u "replica_count", replicas c); (u "currency", VStr (currency_text r));
    (u "duration_type", VStr (u "hour")); (u "duration_qty", duration c); (u "hardware_qty", gpus c)].

Definition calculatePrice (r : view) (s : state) : state :=
  suspend Price (emit (Post (u "/api/deployments/price-estimation") (price_request r)) (setLoadingPrice true s)).

Definition resetFormState (s : state) : state :=
  let randomName := u "deployment-" ++ take 6 (random36 (draws s)) in
  let '(generatedKey, s) := generateRandomKey (with_draws (S (draws s)) s) in
  let s := on_chosen (λ c, mk_choice VNull [] (S (chosen_stamp c)) (n 1) (n 1) (n 1) (u "usdc")) s in
  let s := setHardwareTotal VNull (setLocationTotal VNull (setLocations [] (setPriceEstimation VNull s))) in
  let s := on_made (λ _, mk_container no_variable [(u "OLLAMA_API_KEY", generatedKey)] [[]] [[]] true generatedKey) s in
  let s := on_refs (λ x, mk_refs [] [] (VStr []) DEFAULT_TRAFFIC_PORT true (replicaRequestId x)) s in
  on_view (setFormDefaults
    [(u "resource_private_name", VStr randomName); (u "image_url", VStr BUILTIN_IMAGE); (u "gpus_per_container", n 1);
     (u "replica_count", n 1); (u "duration_hours", n 1); (u "traffic_port", DEFAULT_TRAFFIC_PORT); (u "location_ids", VArr [])]) s.

(** ** Effects, of the render [r], in the order of the source *)

Definition gpus_effect (r : view) (s : state) : state :=
  let c := chosen r in
  if negb (truthy (hardwareId c)) then s
  else
    let nextMaxGpus := getHardwareMaxGpus r (hardwareId c) in
    form_set r "gpus_per_container" nextMaxGpus
      (if strict_eq (gpus c) nextMaxGpus then s else setGpusPerContainer nextMaxGpus s).

Definition open_effect (r : view) (s : state) : state := if visible r then resetFormState (loadHardwareTypes s) else s.

Definition replicas_effect (r : view) (s : state) : state :=
  let c := chosen r in
  if visible r && truthy (hardwareId c) && positive_number (gpus c) then loadAvailableReplicas (hardwareId c) (gpus c) s else s.

Definition price_effect (r : view) (s : state) : state :=
  if negb (visible r) then s else if isPriceReady r then calculatePrice r s else setPriceEstimation VNull s.

Definition or_no_variable (l : list (jsstr * jsstr)) : list (jsstr * jsstr) := match l with [] => no_variable | _ => l end.

(** The image that is built in needs a key; what a custom one has is kept for later. *)
Definition mode_effect (r : view) (s : state) : state :=
  let x := refs_of s in
  let mode := builtin (made r) in
  if negb (visible r) || eqb (prevBuiltin x) mode then s
  else
    let s :=
      if mode then
        let s :=
          let kept := match formApi r with
                      | Some _ => (value_or (form_get "image_url" s) (customImage x), nullish_or (form_get "traffic_port" s) (customTrafficPort x))
                      | None => (customImage x, customTrafficPort x)
                      end in
          on_refs (λ x, mk_refs (secretEnvVariables (made r)) (envVariables (made r)) kept.1 kept.2 (prevBuiltin x) (replicaRequestId x)) s in
        let '(newKey, s) := generateRandomKey s in
        let s := setEnvVariables no_variable (setSecretEnvVariables [(u "OLLAMA_API_KEY", newKey)] (setAutoOllamaKey newKey s)) in
        form_set r "traffic_port" DEFAULT_TRAFFIC_PORT (form_set r "image_url" (VStr BUILTIN_IMAGE) s)
      else
        let s := setEnvVariables (or_no_variable (customEnv x)) (setSecretEnvVariables (or_no_variable (customSecretEnv x)) s) in
        let s := form_set r "image_url" (value_or (customImage x) (VStr [])) s in
        if truthy (customTrafficPort x) then form_set r "traffic_port" (customTrafficPort x) s else s
    in
    on_refs (λ x, mk_refs (customSecretEnv x) (customEnv x) (customImage x) (customTrafficPort x) mode (replicaRequestId x)) s.

Definition image_effect (r : view) (s : state) : state :=
  if visible r && builtin (made r) then form_set r "image_url" (VStr BUILTIN_IMAGE) s else s.

Definition hardware_effect (r : view) (s : state) : state :=
  match hardwareId (chosen r) with VNull | VUndef => s | x => form_set r "hardware_id" x s end.

Definition locations_effect (r : view) (s : state) : state := form_set r "location_ids" (VArr (locationIds (chosen r))) s.

Definition forget_effect (r : view) (s : state) : state :=
  if negb (visible r) || truthy (hardwareId (chosen r)) then s
  else
    let s := setLoadingReplicas false (setLocationTotal VNull (setSelectedLocationIds [] (setLocations [] s))) in
    form_set r "location_ids" (VArr [])
      (on_refs (λ x, mk_refs (customSecretEnv x) (customEnv x) (customImage x) (customTrafficPort x) (prevBuiltin x) 0) s).

Definition choose_locations (r : view) (l : list value) (s : state) : state :=
  form_set r "location_ids" (VArr l) (setSelectedLocationIds l s).

(** Locations that are not available any more are taken from those chosen. *)
Definition filter_effect (r : view) (s : state) : state :=
  let ids := locationIds (chosen r) in
  if negb (visible r) then s
  else if negb (truthy (hardwareId (chosen r))) || bool_decide (valid_ids r = [])
  then (match ids with [] => s | _ => choose_locations r [] s end)
  else
    let filteredSelection := List.filter (includes_value (valid_ids r)) ids in
    if (length ids =? length filteredSelection)%nat then s else choose_locations r filteredSelection s.

Definition limit_effect (r : view) (s : state) : state :=
  let most := maxAvailableReplicas r in
  match formApi r with
  | Some _ =>
      if visible r && nltb (num_of_Z 0) most && nltb most (number_or NaN (replicas (chosen r)))
      then form_set r "replica_count" (VNum most) (setReplicaCount (VNum most) s)
      else s
  | None => s
  end.

(** ** Renders *)

Definition hardware_same (a b : view) : bool := object_is (hardwareId (chosen a)) (hardwareId (chosen b)).
Definition gpus_same (a b : view) : bool := object_is (gpus (chosen a)) (gpus (chosen b)).
Definition ids_same (a b : view) : bool := (chosen_stamp (chosen a) =? chosen_stamp (chosen b))%nat.
Definition replicas_same (a b : view) : bool := object_is (replicas (chosen a)) (replicas (chosen b)).
Definition visible_same (a b : view) : bool := eqb (visible a) (visible b).
Definition api_same (a b : view) : bool := bool_decide (formApi a = formApi b).
Definition types_same (a b : view) : bool := (types_stamp (told a) =? types_stamp (told b))%nat.
Definition locations_same (a b : view) : bool := (locations_stamp (told a) =? locations_stamp (told b))%nat.
Definition duration_same (a b : view) : bool := object_is (duration (chosen a)) (duration (chosen b)).
Definition currency_same (a b : view) : bool := bool_decide (currency (chosen a) = currency (chosen b)).
Definition mode_same (a b : view) : bool := eqb (builtin (made a)) (builtin (made b)).
Definition most_same (a b : view) : bool := bool_decide (maxAvailableReplicas a = maxAvailableReplicas b).

(** Whether the dependencies of an effect are the same; that of the mode depends on the
    variables too, but does nothing while mode and visibility stay. *)
Definition gpus_deps (a b : view) : bool := hardware_same a b && types_same a b && api_same a b && gpus_same a b.
Definition replicas_deps (a b : view) : bool := hardware_same a b && gpus_same a b && visible_same a b.
Definition price_deps (a b : view) : bool :=
  hardware_same a b && ids_same a b && gpus_same a b && duration_same a b && replicas_same a b && currency_same a b && visible_same a b.
Definition mode_deps (a b : view) : bool := mode_same a b && visible_same a b && api_same a b.
Definition hardware_deps (a b : view) : bool := api_same a b && hardware_same a b.
Definition locations_deps (a b : view) : bool := api_same a b && ids_same a b.
Definition forget_deps (a b : view) : bool := hardware_same a b && visible_same a b && api_same a b.
Definition filter_deps (a b : view) : bool := locations_same a b && hardware_same a b && ids_same a b && visible_same a b && api_same a b.
Definition limit_deps (a b : view) : bool := most_same a b && replicas_same a b && visible_same a b && api_same a b.

Definition effects : list ((view → view → bool) * (view → state → state)) :=
  [(gpus_deps, gpus_effect); (visible_same, open_effect); (replicas_deps, replicas_effect); (price_deps, price_effect);
   (mode_deps, mode_effect); (mode_deps, image_effect); (hardware_deps, hardware_effect); (locations_deps, locations_effect);
   (forget_deps, forget_effect); (filter_deps, filter_effect); (limit_deps, limit_effect)].

(** The effects of the render of [r] after that of [before]. *)
Definition run_effects (before r : view) (s : state) : state :=
  fold_left (λ (s : state) (e : (view → view → bool) * (view → state → state)), if e.1 before r then s else e.2 r s) effects s.

Definition settled (s : state) : bool := forallb (λ e : (view → view → bool) * (view → state → state), e.1 (last s) (now s)) effects.

(** A render and its effects. *)
Definition render (s : state) : state := run_effects (last s) (now s) (with_last (now s) s).

Fixpoint settle (fuel : nat) (s : state) : state :=
  if settled s then s else match fuel with O => s | S fuel' => settle fuel' (render s) end.

(** As many renders as are ever needed. *)
Definition rounds : nat := 6.

(** ** Answers *)

Definition normalized_hardware (h : value) : option props :=
  count ← read (u "available_count") h;
  number ← to_number count;
  let availableCount := if is_nan number then num_of_Z 0 else number in
  let shown := match opt_read (u "available") h with VBool b => b | _ => nltb (num_of_Z 0) availableCount end in
  Some (set (u "available_count") (VNum availableCount) (set (u "available") (VBool shown) (own_entries h))).

Definition count_of (h : props) : num := match prop (u "available_count") h with VNum x => x | _ => num_of_Z 0 end.

Definition provided_total (v : value) : option (option num) :=
  match v with
  | VUndef | VNull | VStr [] => Some None
  | _ => x ← to_number v; Some (if is_nan x then None else Some x)
  end.

Definition hardware_data (data : value) : option (list props * num) :=
  let data := value_or data (VObj []) in
  l ← (match opt_read (u "hardware_types") data with VArr l => Some l | VUndef => Some [] | _ => None end);
  types ← mapM normalized_hardware l;
  provided ← provided_total (opt_read (u "total_available") data);
  Some (types, default (fold_left (λ acc h, nadd acc (count_of h)) types (num_of_Z 0)) provided).

Definition hardware_failed (error : value) (s : state) : state := setLoadingHardware false (told_error "获取硬件类型失败: " error s).

Definition success_of (res : value) : option (value * bool) :=
  answer ← read (u "data") res; success ← read (u "success") answer; Some (answer, truthy success).

Definition hardware_answered (res : value) (s : state) : state :=
  match success_of res with
  | None => hardware_failed engine_error s
  | Some (answer, true) =>
      match hardware_data (opt_read (u "data") answer) with
      | Some (types, total) => setLoadingHardware false (setHardwareTotal (VNum total) (setHardwareTypes types s))
      | None => hardware_failed engine_error s
      end
  | Some (answer, false) =>
      match say_with "获取硬件类型失败: " (opt_read (u "message") answer) s with
      | Some s => setLoadingHardware false s
      | None => hardware_failed engine_error s
      end
  end.

Fixpoint first_of (l : list value) : value :=
  match l with [] => VUndef | [x] => x | x :: l' => nullish_or x (first_of l') end.

(** The replicas at one place are one location, under the text of its identifier. *)
Definition add_replica (acc : list (jsstr * location)) (replica : value) : option (list (jsstr * location)) :=
  let field k := opt_read (u k) replica in
  let place k := opt_read (u k) (opt_read (u "location") replica) in
  match first_of [field "location_id"%string; place "id"%string] with
  | VUndef | VNull => Some acc
  | rawId =>
      mapKey ← to_string rawId;
      let rawIso2 := first_of [field "iso2"%string; field "location_iso2"%string; place "iso2"%string] in
      iso ← (if truthy rawIso2 then x ← to_string rawIso2; Some (upper x) else Some []);
      count ← to_number (field "available_count"%string);
      let count := if num_truthy count then count else num_of_Z 0 in
      match get mapKey acc with
      | Some l =>
          Some (set_existing mapKey (mk_location (id l) (name l) (iso2 l) (region l) (country l) (code l) (nadd (available l) count)) acc)
      | None =>
          text ← to_string (first_of [field "location_name"%string; place "name"%string; field "name"%string; rawId]);
          Some (acc ++ [(mapKey, mk_location rawId text iso
            (first_of [field "region"%string; field "location_region"%string; place "region"%string])
            (first_of [field "country"%string; field "location_country"%string; place "country"%string])
            (first_of [field "code"%string; field "location_code"%string; place "code"%string]) count)])
      end
  end.

Definition locations_of (data : value) : option (list location) :=
  match value_or (opt_read (u "replicas") data) (VArr []) with
  | VArr l => acc ← foldl (λ acc x, acc ← acc; add_replica acc x) (Some []) l; Some (map snd acc)
  | _ => None
  end.

Definition total_available (l : list location) : num :=
  fold_left (λ total x, nadd total (if num_truthy (available x) then available x else num_of_Z 0)) l (num_of_Z 0).

Definition is_latest (requestId : Z) (s : state) : bool := (replicaRequestId (refs_of s) =? requestId)%Z.
Definition replicas_failed (requestId : Z) (s : state) : state :=
  if is_latest requestId s then setLoadingReplicas false (setLocationTotal VNull s) else s.

Definition replicas_answered (requestId : Z) (res : value) (s : state) : state :=
  if negb (is_latest requestId s) then s
  else match success_of res with
       | None => replicas_failed requestId s
       | Some (answer, true) =>
           match locations_of (opt_read (u "data") answer) with
           | Some l => setLoadingReplicas false (setLocationTotal (VNum (total_available l)) (setLocations l s))
           | None => replicas_failed requestId s
           end
       | Some (answer, false) =>
           match say_with "获取可用资源失败: " (opt_read (u "message") answer) s with
           | Some s => setLoadingReplicas false (setLocationTotal VNull s)
           | None => replicas_failed requestId s
           end
       end.

Definition price_failed (s : state) : state := setLoadingPrice false (setPriceEstimation VNull s).

Definition price_answered (res : value) (s : state) : state :=
  match success_of res with
  | None => price_failed s
  | Some (answer, true) => setLoadingPrice false (setPriceEstimation (opt_read (u "data") answer) s)
  | Some (answer, false) => price_failed (default s (say_with "价格计算失败: " (opt_read (u "message") answer) s))
  end.

(** ** Submission *)

Definition env_object (l : list (jsstr * jsstr)) : props :=
  fold_left (λ o kv, if str_truthy kv.1 && str_truthy kv.2 then set kv.1 (VStr kv.2) o else o) l [].

Definition clean_lines (l : list jsstr) : value :=
  match List.filter (λ x, str_truthy (trim x)) l with [] => VUndef | l' => VArr (map VStr l') end.

Definition submit_request (r : view) (values : props) (secrets : props) : value :=
  let field k := prop (u k) values in
  let m := made r in
  VObj [(u "resource_private_name", field "resource_private_name"%string); (u "duration_hours", field "duration_hours"%string);
    (u "gpus_per_container", gpus (chosen r)); (u "hardware_id", field "hardware_id"%string);
    (u "location_ids", field "location_ids"%string);
    (u "container_config", VObj [(u "replica_count", field "replica_count"%string);
       (u "env_variables", VObj (env_object (envVariables m))); (u "secret_env_variables", VObj secrets);
       (u "entrypoint", clean_lines (entrypoint m)); (u "args", clean_lines (args m));
       (u "traffic_port", value_or (field "traffic_port"%string) (if builtin m then DEFAULT_TRAFFIC_PORT else VUndef))]);
    (u "registry_config", VObj [(u "image_url", if builtin m then VStr BUILTIN_IMAGE else field "image_url"%string);
       (u "registry_username", value_or (field "registry_username"%string) VUndef);
       (u "registry_secret", value_or (field "registry_secret"%string) VUndef)])].

Definition handleSubmit (r : view) (values : props) (s : state) : state :=
  let s := on_view (setSubmitting true) s in
  let m := made r in
  let secrets := env_object (secretEnvVariables m) in
  let '(secrets, s) :=
    if builtin m && negb (truthy (prop (u "OLLAMA_API_KEY") secrets)) then
      let '(ensuredKey, s) := match autoOllamaKey m with [] => generateRandomKey s | key => (key, s) end in
      (set (u "OLLAMA_API_KEY") (VStr ensuredKey) secrets, setAutoOllamaKey ensuredKey s)
    else (secrets, s) in
  suspend Submitted (emit (Post (u "/api/deployments") (submit_request r values secrets)) s).

Definition submit_failed (error : value) (s : state) : state := on_view (setSubmitting false) (told_error "容器创建失败: " error s).

Definition submitted (res : value) (s : state) : state :=
  match success_of res with
  | None => submit_failed engine_error s
  | Some (answer, true) =>
      on_view (setSubmitting false) (emit Cancelled (emit (Created (opt_read (u "data") answer)) (emit (ShowSuccess (t (u "容器创建成功"))) s)))
  | Some (answer, false) =>
      match say_with "容器创建失败: " (opt_read (u "message") answer) s with
      | Some s => on_view (setSubmitting false) s
      | None => submit_failed engine_error s
      end
  end.

(** ** Steps *)

(** [Visible]: a render with the property; [Mount]: the form is mounted, as its key
    changed or the dialog was shown; [Field]: a field whose changes only the form sees. *)
Inductive field := PrivateName | TrafficPort | RegistryUsername | RegistrySecret.
Definition field_name (f : field) : string :=
  match f with
  | PrivateName => "resource_private_name" | TrafficPort => "traffic_port"
  | RegistryUsername => "registry_username" | RegistrySecret => "registry_secret"
  end.

Inductive event :=
  | Visible (b : bool)
  | Mount
  | Field (f : field) (v : value)
  | Image (v : value)
  | HardwareChosen (v : value)
  | LocationsChosen (l : list value)
  | ReplicasTyped (v : value)
  | DurationTyped (v : value)
  | Currency (v : value)
  | Mode (to_builtin : bool)
  | EnvAdd (secret : bool)
  | EnvRemove (secret : bool) (i : nat)
  | EnvName (secret : bool) (i : nat) (text : jsstr)
  | EnvValue (secret : bool) (i : nat) (text : jsstr)
  | LineAdd (to_args : bool)
  | LineRemove (to_args : bool) (i : nat)
  | LineTyped (to_args : bool) (i : nat) (text : jsstr)
  | CopyKey
  | Submit
  | Tick (z : Z)
  | Answer (i : nat) (res : value)
  | Failure (i : nat) (error : value).

(** The form changes its own field before it tells. *)
Definition form_typed (field : string) (v : value) (s : state) : state :=
  with_form ((form s).1, set (u field) v (form s).2) (mounts s) s.

Definition mount (s : state) : state :=
  on_view (setFormApi (Some (S (mounts s)))) (with_form (S (mounts s), formDefaults (now s)) (S (mounts s)) s).

Definition hardware_chosen (r : view) (v : value) (s : state) : state :=
  let nextMaxGpus := getHardwareMaxGpus r v in
  form_set r "gpus_per_container" nextMaxGpus
    (form_set r "location_ids" (VArr []) (setSelectedLocationIds [] (setGpusPerContainer nextMaxGpus (setSelectedHardwareId v s)))).

Definition image_typed (r : view) (v : value) (s : state) : state :=
  if builtin (made r) then s
  else on_refs (λ x, mk_refs (customSecretEnv x) (customEnv x) v (customTrafficPort x) (prevBuiltin x) (replicaRequestId x)) s.

Definition normalizeCurrencyValue (v : value) : jsstr :=
  match v with
  | VStr x => lower x
  | _ =>
      match opt_read (u "value") v with
      | VStr x => lower x
      | _ => match opt_read (u "value") (opt_read (u "target") v) with VStr x => lower x | _ => u "usdc" end
      end
  end.

Definition env_rows (secret : bool) (r : view) : list (jsstr * jsstr) := if secret then secretEnvVariables (made r) else envVariables (made r).
Definition set_env (secret : bool) l (s : state) : state := if secret then setSecretEnvVariables l s else setEnvVariables l s.
Definition lines (to_args : bool) (r : view) : list jsstr := if to_args then args (made r) else entrypoint (made r).
Definition set_lines (to_args : bool) l (s : state) : state := if to_args then setArgs l s else setEntrypoint l s.
Definition or_line (l : list jsstr) : list jsstr := match l with [] => [[]] | _ => l end.

Definition handle (s : state) (e : event) : state :=
  let r := now s in
  match e with
  | Visible b => on_view (setVisible b) s
  | Mount => mount s
  | Field f v => form_typed (field_name f) v s
  | Image v => image_typed r v (form_typed "image_url" v s)
  | HardwareChosen v => hardware_chosen r v (form_typed "hardware_id" v s)
  | LocationsChosen l => setSelectedLocationIds l (form_typed "location_ids" (VArr l) s)
  | ReplicasTyped v => setReplicaCount v (form_typed "replica_count" v s)
  | DurationTyped v => setDurationHours v (form_typed "duration_hours" v s)
  | Currency v => setPriceCurrency (normalizeCurrencyValue v) s
  | Mode to_builtin => setImageMode to_builtin s
  | EnvAdd secret => set_env secret (env_rows secret r ++ [([], [])]) s
  | EnvRemove secret i => set_env secret (or_no_variable (delete i (env_rows secret r))) s
  | EnvName secret i text => set_env secret (alter (λ kv, (text, kv.2)) i (env_rows secret r)) s
  | EnvValue secret i text => set_env secret (alter (λ kv, (kv.1, text)) i (env_rows secret r)) s
  | LineAdd to_args => set_lines to_args (lines to_args r ++ [[]]) s
  | LineRemove to_args i => set_lines to_args (or_line (delete i (lines to_args r))) s
  | LineTyped to_args i text => set_lines to_args (<[i := text]> (lines to_args r)) s
  | CopyKey => match autoOllamaKey (made r) with [] => s | key => suspend Copying (emit (CopyText key) s) end
  | Submit => handleSubmit r (form s).2 s
  | Tick z => with_clock (clock s + Z.max 0 z)%Z s
  | Answer i res =>
      match calls s !! i with
      | Some w =>
          let s := with_calls (delete i (calls s)) s in
          match w with
          | Hardware => hardware_answered res s
          | Replicas requestId => replicas_answered requestId res s
          | Price => price_answered res s
          | Submitted => submitted res s
          | Copying => if truthy res then emit (ShowSuccess (t (u "已复制自动生成的 API Key"))) s
                       else emit (ShowError (VStr (t (u "复制失败，请手动选择文本复制")))) s
          end
      | None => s
      end
  | Failure i error =>
      match calls s !! i with
      | Some w =>
          let s := with_calls (delete i (calls s)) s in
          match w with
          | Hardware => hardware_failed error s
          | Replicas requestId => replicas_failed requestId s
          | Price => price_failed s
          | Submitted => submit_failed error s
          | Copying => s
          end
      | None => s
      end
  end.

Definition step (s : state) (e : event) : state := settle rounds (handle s e).
Definition run (s : state) (es : list event) : state := fold_left step es s.

Definition first_view : view :=
  mk_view false false None
    (mk_choice VNull [] 0 (n 1) (n 1) (n 1) (u "usdc"))
    (mk_resources [] 0 VNull [] 0 VNull VNull false false false)
    (mk_container no_variable no_variable [[]] [[]] true [])
    [(u "resource_private_name", VStr []); (u "image_url", VStr BUILTIN_IMAGE); (u "gpus_per_container", n 1);
     (u "replica_count", n 1); (u "duration_hours", n 1); (u "traffic_port", DEFAULT_TRAFFIC_PORT); (u "location_ids", VArr [])].

(** The dialog is rendered closed; its effects do nothing then. *)
Definition init (z : Z) : state :=
  mk_state first_view first_view (mk_refs [] [] (VStr []) VNull true 0) (0, []) 0 0 z [] [].
End new_deployment.
