(* ===== verification/NewDeploymentLaws.v ===== *)
(** * A new deployment: laws
    The effects of the dialog settle, whatever has changed, and leave only locations that
    can be had, in the form as in the state; a price for an older choice can be shown. *)

From Stdlib Require Import SpecFloat.
From stdpp Require Import base numbers option strings sets list.
From S2P Require Import Prelude JsString JsNumber JsValue Json JsSame JsOps ChannelForm Deployments NewDeployment.

(** ** What effects depend on *)

Definition core (v : view) := (visible v, formApi v, (hardwareTypes (told v), types_stamp (told v))).
Definition base (v : view) := (hardwareId (chosen v), duration (chosen v), (currency (chosen v), builtin (made v))).
Definition per_container (v : view) := gpus (chosen v).
Definition places (v : view) := (locations (told v), locations_stamp (told v)).
Definition picked (v : view) := (locationIds (chosen v), chosen_stamp (chosen v)).
Definition copies_of (v : view) := replicas (chosen v).

(** The locations that are taken instead of those chosen. *)
Definition wanted (r : view) : option (list value) :=
  let ids := locationIds (chosen r) in
  if negb (visible r) then None
  else if negb (truthy (hardwareId (chosen r))) || bool_decide (valid_ids r = []) then (match ids with [] => None | _ => Some [] end)
  else
    let l := List.filter (includes_value (valid_ids r)) ids in if (length ids =? length l)%nat then None else Some l.

(** More replicas than can be had. *)
Definition over (r : view) : bool :=
  let most := maxAvailableReplicas r in
  bool_decide (formApi r ≠ None) && visible r && nltb (num_of_Z 0) most && nltb most (number_or NaN (replicas (chosen r))).

(** Arrays with the same stamp are the same; stamps grow. *)
Definition newer {A} (p q : A * nat) : Prop := p.2 < q.2 ∨ p = q.
Definition aged (a b : view) : Prop := newer (picked a) (picked b) ∧ newer (places a) (places b).

#[export] Instance newer_preorder {A} : PreOrder (@newer A).
Proof. split; [by right|]. intros p q r [H|<-] [H'|<-]; [left; lia | by left | by left | by right]. Qed.
#[export] Instance aged_preorder : PreOrder aged.
Proof. split; [by intros a|]. intros a b c [H1 H2] [H3 H4]. split; by etransitivity. Qed.

(** The last render showed what is there now. *)
Definition kept {A} (P : view → A) (s : state) : Prop := P (last s) = P (now s).

Lemma filter_twice {A} (f : A → bool) l : List.filter f (List.filter f l) = List.filter f l.
Proof. induction l as [|x l IH]; [done|]. simpl. destruct (f x) eqn:E; simpl; [by rewrite E, IH | exact IH]. Qed.

Section laws.
Context (t : jsstr → jsstr) (engine_error : value) (randomUUID : nat → option jsstr) (random36 : nat → jsstr).
Context (lower upper : jsstr → jsstr).
Local Abbreviation effects := (NewDeployment.effects randomUUID random36 lower).
Local Abbreviation run_effects := (NewDeployment.run_effects randomUUID random36 lower).
Local Abbreviation render := (NewDeployment.render randomUUID random36 lower).
Local Abbreviation settled := (NewDeployment.settled randomUUID random36 lower).
Local Abbreviation settle := (NewDeployment.settle randomUUID random36 lower).

Lemma form_now r field v s : now (form_set r field v s) = now s.
Proof. unfold form_set. destruct (formApi r); [|done]. by destruct (_ =? _). Qed.

Lemma form_last r field v s : last (form_set r field v s) = last s.
Proof. unfold form_set. destruct (formApi r); [|done]. by destruct (_ =? _). Qed.

(** What effects leave as it is. *)
Definition each := ((view → view → bool) * (view → state → state))%type.
Lemma keeps {A} (P : state → A) before r (l : list each) s :
  Forall (λ e : each, e.1 before r = true ∨ ∀ s, P (e.2 r s) = P s) l →
  P (fold_left (λ s (e : each), if e.1 before r then s else e.2 r s) l s) = P s.
Proof.
  revert s. induction l as [|e l IH]; intros s H; [done|]. apply Forall_cons in H as [He H]. simpl. rewrite (IH _ H).
  destruct (e.1 before r) eqn:E; [done|]. destruct He as [He|He]; [congruence | apply He].
Qed.

Lemma keeps_but {A} (P : state → A) before r (l1 l2 : list each) (e : each) s :
  Forall (λ e : each, e.1 before r = true ∨ ∀ s, P (e.2 r s) = P s) l1 →
  Forall (λ e : each, e.1 before r = true ∨ ∀ s, P (e.2 r s) = P s) l2 →
  ∃ s1, P s1 = P s ∧
    P (fold_left (λ s (e : each), if e.1 before r then s else e.2 r s) (l1 ++ e :: l2) s) = P (if e.1 before r then s1 else e.2 r s1).
Proof.
  intros H1 H2. rewrite fold_left_app. simpl. rewrite (keeps P before r l2) by done. eexists. split; [|reflexivity]. by apply keeps.
Qed.

(** An effect that leaves a part of the view. *)
Ltac leaves :=
  intros ?;
  unfold gpus_effect, open_effect, replicas_effect, price_effect, mode_effect, image_effect, hardware_effect, locations_effect,
    forget_effect, filter_effect, limit_effect, choose_locations, calculatePrice, loadAvailableReplicas, loadHardwareTypes, resetFormState,
    generateRandomKey;
  repeat first [rewrite form_now | rewrite form_last | progress simpl | case_match]; reflexivity.

Lemma last_render s : last (render s) = now s.
Proof.
  apply (keeps last (last s) (now s) effects (with_last (now s) s)).
  unfold NewDeployment.effects. repeat (apply Forall_cons_2; [right; leaves|]). apply Forall_nil_2.
Qed.

(** A part that no effect of a render changes, those that are skipped apart. *)
Lemma kept_render {A} (P : view → A) s :
  Forall (λ e : each, e.1 (last s) (now s) = true ∨ ∀ s', P (now (e.2 (now s) s')) = P (now s')) effects → kept P (render s).
Proof.
  intros H. unfold kept. rewrite last_render. symmetry.
  exact (keeps (λ s, P (now s)) (last s) (now s) effects (with_last (now s) s) H).
Qed.
Ltac skip_or_leave := unfold NewDeployment.effects; repeat (apply Forall_cons_2; [first [by left | right; leaves]|]); apply Forall_nil_2.

Lemma core_kept s : kept core (render s).
Proof. apply kept_render. skip_or_leave. Qed.

Lemma same_visible s : kept core s → visible_same (last s) (now s) = true.
Proof. intros [= E _ _ _]. unfold visible_same. rewrite E. apply eqb_reflx. Qed.

Lemma base_kept s : kept core s → kept base (render s).
Proof. intros H. pose proof (same_visible s H) as Hv. apply kept_render. skip_or_leave. Qed.

(** What a render sees that changed nothing. *)
Lemma same_core s : kept core s → types_same (last s) (now s) = true ∧ api_same (last s) (now s) = true ∧ visible_same (last s) (now s) = true.
Proof.
  intros H. pose proof (same_visible s H) as Hv. injection H as E1 E2 E3 E4. unfold types_same, api_same.
  rewrite E4, Nat.eqb_refl, bool_decide_true by done. done.
Qed.

Lemma same_base s :
  kept base s → hardware_same (last s) (now s) = true ∧ duration_same (last s) (now s) = true ∧
    currency_same (last s) (now s) = true ∧ mode_same (last s) (now s) = true.
Proof.
  intros [= E1 E2 E3 E4]. unfold hardware_same, duration_same, currency_same, mode_same, object_is.
  rewrite !bool_decide_true by done. rewrite E4. by rewrite eqb_reflx.
Qed.

Lemma same_gpus s : kept per_container s → gpus_same (last s) (now s) = true.
Proof. intros E. unfold gpus_same, object_is. by apply bool_decide_true. Qed.

Lemma same_places s : kept places s → locations_same (last s) (now s) = true.
Proof. intros [= _ E]. unfold locations_same. by rewrite E, Nat.eqb_refl. Qed.

Lemma same_picked s : kept picked s → ids_same (last s) (now s) = true.
Proof. intros [= _ E]. unfold ids_same. by rewrite E, Nat.eqb_refl. Qed.

Lemma same_most s : kept places s → kept picked s → most_same (last s) (now s) = true.
Proof.
  intros [= E1 _] [= E2 _]. unfold most_same. apply bool_decide_true. unfold maxAvailableReplicas. by rewrite E1, E2.
Qed.

Lemma same_copies s : kept copies_of s → replicas_same (last s) (now s) = true.
Proof. intros E. unfold replicas_same, object_is. by apply bool_decide_true. Qed.

(** The conditions under which effects are skipped, as far as they are known. *)
Ltac known :=
  repeat match goal with
  | H : kept core _ |- _ => destruct (same_core _ H) as (? & ? & ?); clear H
  | H : kept base _ |- _ => destruct (same_base _ H) as (? & ? & ? & ?); clear H
  | H : kept per_container _ |- _ => apply same_gpus in H
  | H : kept places _, H' : kept picked _ |- _ => pose proof (same_most _ H H'); apply same_places in H; apply same_picked in H'
  | H : kept places _ |- _ => apply same_places in H
  | H : kept picked _ |- _ => apply same_picked in H
  | H : kept copies_of _ |- _ => apply same_copies in H
  end;
  cbn [fst snd]; unfold gpus_deps, replicas_deps, price_deps, mode_deps, hardware_deps, locations_deps, forget_deps, filter_deps, limit_deps;
  repeat match goal with H : _ = true |- _ => rewrite H end; reflexivity.

Ltac skip_known := unfold NewDeployment.effects; cbn [app]; repeat (apply Forall_cons_2; [first [left; known | right; leaves]|]); apply Forall_nil_2.

(** ** The number of processors *)

Lemma gpus_rule s :
  kept core s → per_container (now (render s)) = per_container (now s) ∨
    truthy (hardwareId (chosen (now s))) = true ∧
    per_container (now (render s)) = getHardwareMaxGpus (now s) (hardwareId (chosen (now s))).
Proof.
  intros H. destruct (keeps_but (λ s, per_container (now s)) (last s) (now s) [] (tl effects) (gpus_deps, gpus_effect) (with_last (now s) s))
    as (s1 & E1 & E2); [apply Forall_nil_2 | cbn [NewDeployment.effects tl]; skip_known|].
  change (per_container (now (render s)) = per_container (now (if gpus_deps (last s) (now s) then s1 else gpus_effect (now s) s1))) in E2.
  rewrite E2. simpl in E1. destruct (gpus_deps _ _); [by left|]. unfold gpus_effect.
  destruct (truthy (hardwareId (chosen (now s)))); simpl negb; cbv iota; [|by left]. rewrite form_now.
  destruct (strict_eq _ _); [by left|]. by right.
Qed.

Definition gpus_wait (s : state) : Prop :=
  kept per_container s ∨ per_container (now s) = getHardwareMaxGpus (last s) (hardwareId (chosen (last s))).

Lemma gpus_waits s : kept core s → gpus_wait (render s).
Proof. intros H. unfold gpus_wait, kept. rewrite last_render. destruct (gpus_rule s H) as [E|[_ E]]; [by left | by right]. Qed.

Lemma gpus_kept s : kept core s → kept base s → gpus_wait s → kept per_container (render s).
Proof.
  intros Hc Hb [Hg|Hg]; [by apply kept_render; skip_known|]. unfold kept. rewrite last_render.
  destruct (gpus_rule s Hc) as [E|[_ E]]; [done|]. rewrite E, Hg. injection Hc as _ _ E1 _. injection Hb as E2 _ _ _.
  unfold getHardwareMaxGpus. by rewrite E1, E2.
Qed.

Lemma places_kept s : kept core s → kept base s → kept per_container s → kept places (render s).
Proof. intros Hc Hb Hg. apply kept_render. skip_known. Qed.

(** ** The locations chosen *)

Lemma filter_wanted r s : filter_effect r s = match wanted r with Some l => choose_locations r l s | None => s end.
Proof. unfold filter_effect, wanted. repeat case_match; congruence. Qed.

(** The locations that are taken are not replaced again. *)
Lemma wanted_once r r' l :
  wanted r = Some l → visible r' = visible r → hardwareId (chosen r') = hardwareId (chosen r) →
  locations (told r') = locations (told r) → locationIds (chosen r') = l → wanted r' = None.
Proof.
  intros Hw Hv Hh Hl Hi. unfold wanted in *. assert (valid_ids r' = valid_ids r) as Hval by (unfold valid_ids; by rewrite Hl).
  rewrite Hv, Hh, Hval, Hi. destruct (negb (visible r)); [done|]. destruct (negb (truthy _) || _).
  - destruct (locationIds (chosen r)); [done|]. injection Hw as <-. done.
  - destruct (_ =? _); [done|]. injection Hw as <-. by rewrite filter_twice, Nat.eqb_refl.
Qed.

Lemma picked_rule s :
  kept core s → kept base s →
  picked (now (render s)) = picked (now s) ∨ wanted (now s) = Some (locationIds (chosen (now (render s)))).
Proof.
  intros Hc Hb. destruct (keeps_but (λ s, picked (now s)) (last s) (now s) (take 9 effects) (drop 10 effects) (filter_deps, filter_effect) (with_last (now s) s))
    as (s1 & E1 & E2); [cbn [NewDeployment.effects take]; skip_known | cbn [NewDeployment.effects drop]; skip_known|].
  change (picked (now (render s)) = picked (now (if filter_deps (last s) (now s) then s1 else filter_effect (now s) s1))) in E2.
  rewrite E2. destruct (filter_deps _ _); [by left|]. rewrite filter_wanted in *. destruct (wanted (now s)); [|by left].
  right. unfold choose_locations in E2. rewrite form_now in E2. injection E2 as -> _. done.
Qed.

Definition picked_wait (s : state) : Prop := kept picked s ∨ wanted (now s) = None.

Lemma picked_waits s : kept core s → kept base s → kept per_container s → picked_wait (render s).
Proof.
  intros Hc Hb Hg. unfold picked_wait, kept. rewrite last_render. destruct (picked_rule s Hc Hb) as [E|E]; [by left|]. right.
  pose proof (core_kept s) as Hc'. pose proof (base_kept s Hc) as Hb'. pose proof (places_kept s Hc Hb Hg) as Hp'.
  unfold kept in Hc', Hb', Hp'. rewrite last_render in Hc', Hb', Hp'. injection Hc' as Ev _ _ _. injection Hb' as Eh _ _ _. injection Hp' as El _.
  by apply (wanted_once (now s) _ _ E).
Qed.

Lemma picked_kept s : kept core s → kept base s → kept per_container s → kept places s → picked_wait s → kept picked (render s).
Proof.
  intros Hc Hb Hg Hp [Hi|Hw]; [apply kept_render; skip_known|]. unfold kept. rewrite last_render.
  destruct (picked_rule s Hc Hb) as [E|E]; [done | congruence].
Qed.

(** ** The number of replicas *)

Lemma copies_rule s :
  kept core s → copies_of (now (render s)) = copies_of (now s) ∨ copies_of (now (render s)) = VNum (maxAvailableReplicas (now s)).
Proof.
  intros Hc. destruct (keeps_but (λ s, copies_of (now s)) (last s) (now s) (take 10 effects) [] (limit_deps, limit_effect) (with_last (now s) s))
    as (s1 & E1 & E2); [cbn [NewDeployment.effects take]; skip_known | apply Forall_nil_2|].
  change (copies_of (now (render s)) = copies_of (now (if limit_deps (last s) (now s) then s1 else limit_effect (now s) s1))) in E2.
  rewrite E2. destruct (limit_deps _ _); [by left|]. unfold limit_effect. destruct (formApi (now s)); [|by left].
  destruct (_ && _); [|by left]. rewrite form_now. by right.
Qed.

Definition copies_wait (s : state) : Prop := kept copies_of s ∨ copies_of (now s) = VNum (maxAvailableReplicas (last s)).

Lemma copies_waits s : kept core s → copies_wait (render s).
Proof. intros H. unfold copies_wait, kept. rewrite last_render. destruct (copies_rule s H) as [E|E]; [by left | by right]. Qed.

Lemma copies_kept s :
  kept core s → kept base s → kept per_container s → kept places s → kept picked s → copies_wait s → kept copies_of (render s).
Proof.
  intros Hc Hb Hg Hp Hi [Hr|Hr]; [apply kept_render; skip_known|]. unfold kept. rewrite last_render.
  destruct (copies_rule s Hc) as [E|E]; [done|]. rewrite E, Hr. injection Hp as El _. injection Hi as Ei _.
  unfold maxAvailableReplicas. by rewrite El, Ei.
Qed.

(** ** Settling *)

Lemma settled_kept s :
  kept core s → kept base s → kept per_container s → kept places s → kept picked s → kept copies_of s → settled s = true.
Proof.
  intros Hc Hb Hg Hp Hi Hr. apply forallb_forall. intros e He. apply list_elem_of_In in He. revert e He. apply Forall_forall.
  unfold NewDeployment.effects. repeat (apply Forall_cons_2; [known|]). apply Forall_nil_2.
Qed.

Lemma settle_iter k s : settled (Nat.iter k render s) = true → settled (settle k s) = true.
Proof.
  revert s. induction k as [|k IH]; intros s H; simpl; destruct (settled s) eqn:E; [done | simpl in H; congruence | done|].
  apply IH. by rewrite <- Nat.iter_succ_r.
Qed.

(** whatever was changed, six renders are enough until no effect has anything to do:
    the settings of the effects never make the dialog render forever. *)
Theorem effects_settle s : settled (settle rounds s) = true.
Proof.
  apply settle_iter. change (Nat.iter rounds render s) with (render (render (render (render (render (render s)))))).
  pose proof (core_kept s) as C1. set (s1 := render s) in *. pose proof (core_kept s1) as C2. pose proof (base_kept s1 C1) as B2.
  pose proof (gpus_waits s1 C1) as G2. set (s2 := render s1) in *. pose proof (core_kept s2) as C3. pose proof (base_kept s2 C2) as B3.
  pose proof (gpus_kept s2 C2 B2 G2) as G3. set (s3 := render s2) in *. pose proof (core_kept s3) as C4. pose proof (base_kept s3 C3) as B4.
  pose proof (gpus_kept s3 C3 B3 (or_introl G3)) as G4. pose proof (places_kept s3 C3 B3 G3) as L4. pose proof (picked_waits s3 C3 B3 G3) as I4.
  set (s4 := render s3) in *. pose proof (core_kept s4) as C5. pose proof (base_kept s4 C4) as B5.
  pose proof (gpus_kept s4 C4 B4 (or_introl G4)) as G5. pose proof (places_kept s4 C4 B4 G4) as L5. pose proof (picked_kept s4 C4 B4 G4 L4 I4) as I5.
  pose proof (copies_waits s4 C4) as R5. set (s5 := render s4) in *. apply settled_kept.
  - apply core_kept.
  - by apply base_kept.
  - apply gpus_kept; [done..|]. by left.
  - by apply places_kept.
  - apply picked_kept; [done..|]. by left.
  - by apply copies_kept.
Qed.

(** ** What holds when the effects have settled *)

Lemma aged_effect (e : each) r s : e ∈ effects → aged (now s) (now (e.2 r s)).
Proof.
  revert e. apply Forall_forall. unfold NewDeployment.effects.
  repeat (apply Forall_cons_2; [cbn [snd]; unfold gpus_effect, open_effect, replicas_effect, price_effect, mode_effect, image_effect, hardware_effect,
    locations_effect, forget_effect, filter_effect, limit_effect, choose_locations, calculatePrice, loadAvailableReplicas, loadHardwareTypes,
    resetFormState, generateRandomKey; repeat first [rewrite form_now | progress simpl | case_match]; split; first [by right | left; simpl; lia]|]).
  apply Forall_nil_2.
Qed.

Lemma take_effects k : take k effects ⊆ effects.
Proof. intros e He. rewrite <- (take_drop k effects). apply elem_of_app. by left. Qed.

Lemma drop_effects k : drop k effects ⊆ effects.
Proof. intros e He. rewrite <- (take_drop k effects). apply elem_of_app. by right. Qed.

Lemma aged_run before r (l : list each) s :
  l ⊆ effects → aged (now s) (now (fold_left (λ s (e : each), if e.1 before r then s else e.2 r s) l s)).
Proof.
  revert s. induction l as [|e l IH]; intros s H; [reflexivity|]. simpl. etransitivity; [|apply IH; set_solver].
  destruct (e.1 before r); [reflexivity | apply aged_effect; set_solver].
Qed.

Lemma aged_render s : aged (now s) (now (render s)).
Proof. apply (aged_run (last s) (now s) effects (with_last (now s) s)). done. Qed.

(** Dependencies that are the same, between views of which one is newer. *)
Lemma filter_deps_same a b :
  aged a b → filter_deps a b = true →
  visible b = visible a ∧ hardwareId (chosen b) = hardwareId (chosen a) ∧ places b = places a ∧ picked b = picked a ∧ formApi b = formApi a.
Proof.
  intros [Hi Hl] H. unfold filter_deps, locations_same, hardware_same, ids_same, visible_same, api_same, object_is in H.
  rewrite !andb_true_iff, !Nat.eqb_eq, !bool_decide_eq_true, eqb_true_iff in H. destruct H as ((((E1 & E2) & E3) & E4) & E5).
  destruct Hi as [Hi|Hi]; [simpl in Hi; lia|]. destruct Hl as [Hl|Hl]; [simpl in Hl; lia|]. by rewrite E2, E4, E5, Hi, Hl.
Qed.

Lemma wanted_same a b :
  visible b = visible a → hardwareId (chosen b) = hardwareId (chosen a) → places b = places a → picked b = picked a → wanted b = wanted a.
Proof. intros E1 E2 [= E3 _] [= E4 _]. unfold wanted, valid_ids. by rewrite E1, E2, E3, E4. Qed.

Lemma limit_deps_same a b :
  limit_deps a b = true →
  maxAvailableReplicas b = maxAvailableReplicas a ∧ copies_of b = copies_of a ∧ visible b = visible a ∧ formApi b = formApi a.
Proof.
  unfold copies_of, limit_deps, most_same, replicas_same, visible_same, api_same, object_is. rewrite !andb_true_iff, !bool_decide_eq_true, eqb_true_iff.
  by intros (((-> & ->) & ->) & ->).
Qed.

Lemma over_same a b : limit_deps a b = true → over b = over a.
Proof. intros H. destruct (limit_deps_same _ _ H) as (E1 & E2 & E3 & E4). unfold over. unfold copies_of in E2. by rewrite E1, E2, E3, E4. Qed.

(** What the last render saw is in order, unless it has changed since. *)
Record inv (s : state) : Prop := {
  inv_aged : aged (last s) (now s);
  inv_filter : filter_deps (last s) (now s) = true → wanted (now s) = None;
  inv_limit : limit_deps (last s) (now s) = true → over (now s) = false;
}.

Lemma filter_ran s :
  filter_deps (last s) (now s) = false → chosen_stamp (chosen (now (render s))) = chosen_stamp (chosen (now s)) → wanted (now s) = None.
Proof.
  intros Hd Hs. destruct (wanted (now s)) as [l|] eqn:Hw; [|done]. exfalso.
  set (s1 := fold_left (λ s' (e : each), if e.1 (last s) (now s) then s' else e.2 (now s) s') (take 9 effects) (with_last (now s) s)).
  set (s2 := filter_effect (now s) s1).
  assert (now (render s) = now (fold_left (λ s' (e : each), if e.1 (last s) (now s) then s' else e.2 (now s) s') (drop 10 effects) s2)) as E.
  { change (render s) with (fold_left (λ s' (e : each), if e.1 (last s) (now s) then s' else e.2 (now s) s') (take 9 effects ++ (filter_deps, filter_effect) :: drop 10 effects) (with_last (now s) s)).
    rewrite fold_left_app. fold s1. cbn [fold_left fst snd]. by rewrite Hd. }
  assert (aged (now s) (now s1)) as [A1 _] by (apply (aged_run (last s) (now s) (take 9 effects) (with_last (now s) s)), take_effects).
  assert (aged (now s2) (now (render s))) as [A2 _] by (rewrite E; apply aged_run, drop_effects).
  assert (chosen_stamp (chosen (now s2)) = S (chosen_stamp (chosen (now s1)))) as E2.
  { unfold s2. rewrite filter_wanted, Hw. unfold choose_locations. by rewrite form_now. }
  assert (∀ a b : view, newer (picked a) (picked b) → chosen_stamp (chosen a) ≤ chosen_stamp (chosen b)) as Hle
    by (intros a b [H|H]; [simpl in H; lia | injection H; lia]).
  apply Hle in A1, A2. lia.
Qed.

Lemma inv_render s : inv s → inv (render s).
Proof.
  intros [H1 H2 H3]. pose proof (aged_render s) as Ha. split; rewrite last_render; [done| |].
  - intros Hd. destruct (filter_deps_same _ _ Ha Hd) as (E1 & E2 & E3 & E4 & _). rewrite (wanted_same (now s)) by done.
    destruct (filter_deps (last s) (now s)) eqn:E; [auto|]. apply (filter_ran s E). by injection E4.
  - intros Hd. rewrite (over_same _ _ Hd). destruct (limit_deps (last s) (now s)) eqn:E; [auto|].
    destruct (over (now s)) eqn:Ho; [|done]. exfalso.
    set (s1 := fold_left (λ s' (e : each), if e.1 (last s) (now s) then s' else e.2 (now s) s') (take 10 effects) (with_last (now s) s)).
    assert (now (render s) = now (limit_effect (now s) s1)) as Er.
    { change (render s) with (fold_left (λ s' (e : each), if e.1 (last s) (now s) then s' else e.2 (now s) s') (take 10 effects ++ [(limit_deps, limit_effect)]) (with_last (now s) s)).
      rewrite fold_left_app. fold s1. cbn [fold_left fst snd]. by rewrite E. }
    unfold over in Ho. cbv zeta in Ho. rewrite !andb_true_iff, bool_decide_eq_true in Ho. destruct Ho as (((Hf & Hv) & Hm) & Hr). destruct (limit_deps_same _ _ Hd) as (_ & Ec & _ & _). rewrite Er in Ec. unfold limit_effect in Ec.
    destruct (formApi (now s)); [|done]. cbv zeta in Ec. rewrite Hv, Hm, Hr in Ec. cbn [andb] in Ec. rewrite form_now in Ec.
    unfold copies_of in Ec. simpl in Ec. rewrite <- Ec in Hr. by rewrite nltb_irrefl in Hr.
Qed.

Local Abbreviation handle := (NewDeployment.handle t engine_error randomUUID random36 lower upper).
Local Abbreviation step := (NewDeployment.step t engine_error randomUUID random36 lower upper).
Local Abbreviation run := (NewDeployment.run t engine_error randomUUID random36 lower upper).

(** What an operation of the dialog may change. *)
Definition stays (s s' : state) : Prop := aged (now s) (now s') ∧ last s' = last s.
Ltac grows := split; [split; first [by right | left; simpl; lia] | reflexivity].

Lemma say_stays text v s s' : say_with t text v s = Some s' → now s' = now s ∧ last s' = last s.
Proof. unfold say_with. destruct (js_add _ v); [|done]. cbn [mbind option_bind]. by intros [= <-]. Qed.

Lemma told_error_stays text error s : now (told_error t text error s) = now s ∧ last (told_error t text error s) = last s.
Proof. unfold told_error. destruct (say_with _ _ _ s) as [s'|] eqn:E; [|done]. by apply say_stays in E. Qed.

Lemma stays_view s s' f : now s' = now s ∧ last s' = last s → newer (picked (now s)) (picked (f (now s))) →
  newer (places (now s)) (places (f (now s))) → stays s (on_view f s').
Proof. intros [E1 E2] H1 H2. split; [|done]. unfold on_view, with_view. simpl. rewrite E1. by split. Qed.

Lemma stays_hardware_failed error s : stays s (hardware_failed t error s).
Proof. apply stays_view; [apply told_error_stays | by right..]. Qed.

Lemma stays_hardware res s : stays s (hardware_answered t engine_error res s).
Proof.
  unfold hardware_answered. destruct (success_of res) as [[answer []]|]; [| |apply stays_hardware_failed].
  - destruct (hardware_data _) as [[types total]|]; [grows | apply stays_hardware_failed].
  - destruct (say_with _ _ _ s) as [s'|] eqn:E; [|apply stays_hardware_failed]. apply stays_view; [exact (say_stays _ _ _ _ E) | by right..].
Qed.

Lemma stays_replicas_failed requestId s : stays s (replicas_failed requestId s).
Proof. unfold replicas_failed. destruct (is_latest _ s); grows. Qed.

Lemma stays_replicas requestId res s : stays s (replicas_answered t upper requestId res s).
Proof.
  unfold replicas_answered. destruct (negb _); [grows|]. destruct (success_of res) as [[answer []]|]; [| |apply stays_replicas_failed].
  - destruct (locations_of _ _) as [l|]; [grows | apply stays_replicas_failed].
  - destruct (say_with _ _ _ s) as [s'|] eqn:E; [|apply stays_replicas_failed]. apply say_stays in E as [E1 E2].
    split; [|exact E2]. unfold setLoadingReplicas, setLocationTotal, on_told, on_view, with_view. simpl. rewrite E1. by split; right.
Qed.

Lemma stays_price res s : stays s (price_answered t res s).
Proof.
  unfold price_answered. destruct (success_of res) as [[answer []]|]; [grows| |grows].
  assert (now (default s (say_with t "价格计算失败: " (opt_read (u "message") answer) s)) = now s ∧
    last (default s (say_with t "价格计算失败: " (opt_read (u "message") answer) s)) = last s) as [E1 E2].
  { destruct (say_with _ _ _ s) as [s'|] eqn:E; [exact (say_stays _ _ _ _ E) | done]. }
  split; [|exact E2]. unfold price_failed, setLoadingPrice, setPriceEstimation, on_told, on_view, with_view. simpl. rewrite E1. by split; right.
Qed.

Lemma stays_submit_failed error s : stays s (submit_failed t error s).
Proof. apply stays_view; [apply told_error_stays | by right..]. Qed.

Lemma stays_submitted res s : stays s (submitted t engine_error res s).
Proof.
  unfold submitted. destruct (success_of res) as [[answer []]|]; [grows| |apply stays_submit_failed].
  destruct (say_with _ _ _ s) as [s'|] eqn:E; [|apply stays_submit_failed]. apply stays_view; [exact (say_stays _ _ _ _ E) | by right..].
Qed.

Lemma stays_submit r values s : stays s (handleSubmit randomUUID random36 r values s).
Proof. unfold handleSubmit. cbv zeta. destruct (_ && _); [destruct (autoOllamaKey (made r))|]; grows. Qed.

Lemma stays_handle s e : stays s (handle s e).
Proof.
  destruct e; simpl; try grows.
  - unfold image_typed. destruct (builtin _); grows.
  - unfold hardware_chosen. split; [rewrite !form_now | rewrite !form_last; done]. split; [left; simpl; lia | by right].
  - destruct secret; grows.
  - destruct secret; grows.
  - destruct secret; grows.
  - destruct secret; grows.
  - destruct to_args; grows.
  - destruct to_args; grows.
  - destruct to_args; grows.
  - destruct (autoOllamaKey _); grows.
  - apply stays_submit.
  - destruct (calls s !! i) as [w|]; [|grows]. set (s' := with_calls _ s). destruct w.
    + exact (stays_hardware res s').
    + exact (stays_replicas requestId res s').
    + exact (stays_price res s').
    + exact (stays_submitted res s').
    + destruct (truthy res); grows.
  - destruct (calls s !! i) as [w|]; [|grows]. set (s' := with_calls _ s). destruct w.
    + exact (stays_hardware_failed error s').
    + exact (stays_replicas_failed requestId s').
    + grows.
    + exact (stays_submit_failed error s').
    + grows.
Qed.

Lemma inv_handle s e : settled s = true → inv s → inv (handle s e).
Proof.
  intros Hset [H1 H2 H3]. destruct (stays_handle s e) as [Ha El]. 
  assert (filter_deps (last s) (now s) = true) as Hf by (unfold NewDeployment.settled in Hset; rewrite forallb_forall in Hset; exact (Hset (filter_deps, filter_effect) ltac:(cbn; tauto))).
  assert (limit_deps (last s) (now s) = true) as Hl by (unfold NewDeployment.settled in Hset; rewrite forallb_forall in Hset; exact (Hset (limit_deps, limit_effect) ltac:(cbn; tauto))).
  split; rewrite El.
  - by transitivity (now s).
  - intros Hd. destruct (filter_deps_same _ _ H1 Hf) as (A1 & A2 & A3 & A4 & _).
    destruct (filter_deps_same (last s) (now (handle s e)) ltac:(by transitivity (now s)) Hd) as (B1 & B2 & B3 & B4 & _).
    rewrite (wanted_same (now s)); [auto | congruence..].
  - intros Hd. rewrite (over_same _ _ Hd), <- (over_same _ _ Hl). auto.
Qed.

Lemma inv_settle k s : inv s → inv (settle k s).
Proof.
  revert s. induction k as [|k IH]; intros s H; simpl; destruct (settled s); try done. by apply IH, inv_render.
Qed.

Lemma reachable_settled z es : settled (run (init z) es) = true ∧ inv (run (init z) es).
Proof.
  assert (settled (init z) = true ∧ inv (init z)) as H0.
  { split; [by vm_compute|]. by split. }
  unfold run. revert H0. generalize (init z). induction es as [|e es IH]; intros s [H1 H2]; [done|]. apply IH. split.
  - apply effects_settle.
  - by apply inv_settle, inv_handle.
Qed.

(** C23: after every event, with the effects run, no location is chosen without a machine,
    every chosen location can be had, and there are at most as many replicas as can be had
    there. *)
Theorem choice_can_be_had z es :
  let r := now (run (init z) es) in
  visible r = true →
  (truthy (hardwareId (chosen r)) = false → locationIds (chosen r) = []) ∧
  Forall (λ v, includes_value (valid_ids r) v = true) (locationIds (chosen r)) ∧
  (is_Some (formApi r) → nltb (num_of_Z 0) (maxAvailableReplicas r) = true →
    nltb (maxAvailableReplicas r) (number_or NaN (replicas (chosen r))) = false).
Proof.
  intros r Hv. destruct (reachable_settled z es) as [Hs [_ H1 H2]].
  unfold NewDeployment.settled in Hs. rewrite forallb_forall in Hs.
  specialize (H1 (Hs (filter_deps, filter_effect) ltac:(cbn; tauto))). specialize (H2 (Hs (limit_deps, limit_effect) ltac:(cbn; tauto))).
  fold r in H1, H2. split; [|split].
  - intros Hh. unfold wanted in H1. rewrite Hv, Hh in H1. simpl in H1. by destruct (locationIds (chosen r)).
  - unfold wanted in H1. rewrite Hv in H1. simpl in H1. destruct (_ || _); [by destruct (locationIds (chosen r))|].
    destruct (_ =? _) eqn:E; [|done]. apply Nat.eqb_eq in E. clear H1. revert E. induction (locationIds (chosen r)) as [|v l IH]; [done|].
    simpl. destruct (includes_value (valid_ids r) v) eqn:Ev; simpl; intros E.
    + constructor; [done|]. apply IH. lia.
    + pose proof (List.filter_length_le (includes_value (valid_ids r)) l). lia.
  - intros [k Hk] Hm. unfold over in H2. cbv zeta in H2. rewrite Hv, Hm, Hk in H2. by rewrite bool_decide_true in H2.
Qed.
End laws.

(** ** A machine with two replicas at one place *)

Definition answer (data : value) : value := VObj [(u "data", VObj [(u "success", VBool true); (u "data", data)])].
Definition types_answer : value :=
  answer (VObj [(u "hardware_types", VArr [VObj [(u "id", n 7); (u "name", VStr (u "A100")); (u "max_gpus", n 8); (u "available_count", n 3)]])]).
Definition places_answer : value :=
  answer (VObj [(u "replicas", VArr [VObj [(u "location_id", n 1); (u "location_name", VStr (u "Oslo")); (u "available_count", n 2)]])]).
Definition renting : list event :=
  [Visible true; Mount; Answer 0 types_answer; HardwareChosen (n 7); Answer 0 places_answer; ReplicasTyped (n 5); LocationsChosen [n 1]].
Definition after_events (es : list event) : state := NewDeployment.run (λ x, x) VUndef (λ _, None) (λ _, u "abcdefgh") (λ x, x) (λ x, x) (NewDeployment.init 1) es.

Lemma choice_can_be_had_witness :
  (truthy (n 7) = false → [n 1] = []) ∧ Forall (λ v, includes_value [n 1] v = true) [n 1] ∧
  (is_Some (Some 1) → nltb (num_of_Z 0) (num_of_Z 2) = true → nltb (num_of_Z 2) (num_of_Z 2) = false).
Proof.
  apply (choice_can_be_had (λ x, x) VUndef (λ _, None) (λ _, u "abcdefgh") (λ x, x) (λ x, x) 1 renting). vm_compute. reflexivity.
Defined.

(** A dialog that is opened again asks for the price of what was chosen before, and shows
    it although nothing is chosen. *)
Example old_price_shown :
  let s := after_events (renting ++ [Visible false; Visible true; Answer 4 (answer (n 12))]) in
  hardwareId (chosen (now s)) = VNull ∧ isPriceReady (now s) = false ∧ price (told (now s)) = n 12.
Proof. vm_compute. done. Qed.

(** The answers for two choices: the later answer is shown, whichever choice it is for. *)
Example earlier_price_shown :
  let s := after_events (renting ++ [Answer 1 (answer (n 20)); Answer 0 (answer (n 50))]) in
  replicas (chosen (now s)) = n 2 ∧ price (told (now s)) = n 50.
Proof. vm_compute. done. Qed.
