(* ===== verification/Verification.v ===== *)
(** * Secure verification
    [src/web/src/services/secureVerification.js] and
    [src/web/src/hooks/common/useSecureVerification.jsx]: the dialog that asks for a
    second factor before a sensitive call.  The service has no factors left, and the
    hook is modelled over any answer of the service before that is used. *)

From stdpp Require Import base numbers option strings sets list.
From S2P Require Import Prelude JsString JsNumber JsValue Json JsOps OAuth.

(** ** The service *)

Record methods := mk_methods { has2FA : bool; hasPasskey : bool; passkeySupported : bool }.

Definition checkAvailableVerificationMethods : methods := mk_methods false false false.

Definition verify2FA : jsstr := u "两步验证功能已关闭".
Definition verifyPasskey : jsstr := u "Passkey 功能已关闭".

(** The message of the error; [None] would be a verification. *)
Definition verify (method : jsstr) : option jsstr :=
  Some (if decide (method = u "2fa") then verify2FA
        else if decide (method = u "passkey") then verifyPasskey
        else u "不支持的验证方式: " ++ method).

(** [createApiCalls]: the method, the address, the parameters and the body. *)
Inductive http := GET | POST | PUT | DELETE.
Record http_call := mk_http { verb : http; url : jsstr; query : value; body : value }.

Definition viewChannelKey (channelId : jsstr) : http_call :=
  mk_http POST (u "/api/channel/" ++ channelId ++ u "/key") VUndef (VObj []).

(** [upper] is [toUpperCase]; the error is the one thrown. *)
Definition custom (upper : jsstr → jsstr) (url method : jsstr) (extraData : value) : http_call + jsstr :=
  let m := upper method in
  if decide (m = u "GET") then inl (mk_http GET url extraData VUndef)
  else if decide (m = u "POST") then inl (mk_http POST url VUndef extraData)
  else if decide (m = u "PUT") then inl (mk_http PUT url VUndef extraData)
  else if decide (m = u "DELETE") then inl (mk_http DELETE url VUndef extraData)
  else inr (u "不支持的HTTP方法: " ++ method).

(** ** The hook *)

(** A sensitive call, by its number, and the dialog's options. *)
Record options := mk_options { preferredMethod : option jsstr; title : value; description : value }.

Record verification := mk_verification {
  v_method : option jsstr; v_loading : bool; v_code : jsstr; v_apiCall : option nat; v_title : value; v_description : value;
}.

(** [Direct]: [withVerification] awaits the call; [Verified]: [executeVerification] does. *)
Inductive waiting :=
  | Direct (api : nat) (o : options)
  | Verified (api : nat) (method : jsstr).

Inductive effect :=
  | CallApi (api : nat)
  | ShowError (v : value)
  | ShowSuccess (text : jsstr)
  | OnError (v : value)
  | OnSuccess (result : value) (method : jsstr)
  | Returned (result : value)      (** what the caller of the hook's function gets *)
  | Thrown (error : value).

Record state := mk_state {
  verificationMethods : methods; isModalVisible : bool; verificationState : verification;
  calls : list waiting; log : list effect;
}.

Definition no_verification : verification := mk_verification None false [] None VUndef VUndef.

Definition with_methods m s := mk_state m (isModalVisible s) (verificationState s) (calls s) (log s).
Definition with_modal b s := mk_state (verificationMethods s) b (verificationState s) (calls s) (log s).
Definition with_verification v s := mk_state (verificationMethods s) (isModalVisible s) v (calls s) (log s).
Definition with_calls l s := mk_state (verificationMethods s) (isModalVisible s) (verificationState s) l (log s).
Definition emit e s := mk_state (verificationMethods s) (isModalVisible s) (verificationState s) (calls s) (e :: log s).

Definition set_loading (b : bool) (s : state) : state :=
  let v := verificationState s in
  with_verification (mk_verification (v_method v) b (v_code v) (v_apiCall v) (v_title v) (v_description v)) s.

Section hook.
(** [available] and [check_] are the service's functions; the others are the hook's
    parameters: [successMessage], the presence of [onSuccess] and [onError],
    [autoReset]. *)
Context (t : jsstr → jsstr) (available : methods) (check_ : jsstr → option jsstr).
Context (successMessage : jsstr) (onSuccess onError autoReset : bool).

Definition on_error (e : value) (s : state) : state := if onError then emit (OnError e) s else s.

Definition checkVerificationMethods : state → state := with_methods available.

Definition resetState (s : state) : state := with_modal false (with_verification no_verification s).

(** The method shown first: the one preferred, or the one that can be used. *)
Definition default_method (o : options) : option jsstr :=
  match preferredMethod o with
  | Some ((_ :: _) as m) => Some m
  | p =>
      if hasPasskey available && passkeySupported available then Some (u "passkey")
      else if has2FA available then Some (u "2fa") else p
  end.

Definition error_value (message : jsstr) : value := VObj [(u "message", VStr message)].

(** The answer of the service is there before anything else happens. *)
Definition startVerification (api : nat) (o : options) (s : state) : state :=
  let s := checkVerificationMethods s in
  if negb (has2FA available) && negb (hasPasskey available) then
    let message := t (u "当前系统未启用二次验证（功能已移除），无法执行此敏感操作") in
    on_error (error_value message) (emit (ShowError (VStr message)) s)
  else
    let v := verificationState s in
    with_modal true (with_verification
      (mk_verification (default_method o) (v_loading v) (v_code v) (Some api) (title o) (description o)) s).

(** The [catch] and the [finally] of [executeVerification]. *)
Definition verification_failed (error : value) (s : state) : state :=
  let shown := value_or (opt_read (u "message") error) (VStr (t (u "验证失败，请重试"))) in
  emit (Thrown error) (set_loading false (on_error error (emit (ShowError shown) s))).

(** [r] is the render whose closure runs. *)
Definition executeVerification (r : state) (method : jsstr) (s : state) : state :=
  match v_apiCall (verificationState r) with
  | None => emit (Returned VUndef) (emit (ShowError (VStr (t (u "验证配置错误")))) s)
  | Some api =>
      let s := set_loading true s in
      match check_ method with
      | Some message => verification_failed (error_value message) s
      | None => with_calls (calls s ++ [Verified api method]) (emit (CallApi api) s)
      end
  end.

Definition setVerificationCode (code : jsstr) (s : state) : state :=
  let v := verificationState s in
  with_verification (mk_verification (v_method v) (v_loading v) code (v_apiCall v) (v_title v) (v_description v)) s.

Definition switchVerificationMethod (method : option jsstr) (s : state) : state :=
  let v := verificationState s in
  with_verification (mk_verification method (v_loading v) [] (v_apiCall v) (v_title v) (v_description v)) s.

Definition cancelVerification : state → state := resetState.

Definition canUseMethod (s : state) (method : jsstr) : bool :=
  let m := verificationMethods s in
  if decide (method = u "2fa") then has2FA m
  else if decide (method = u "passkey") then hasPasskey m && passkeySupported m else false.

Definition getRecommendedMethod (s : state) : option jsstr :=
  let m := verificationMethods s in
  if hasPasskey m && passkeySupported m then Some (u "passkey")
  else if has2FA m then Some (u "2fa") else None.

Definition hasAnyVerificationMethod (s : state) : bool :=
  has2FA (verificationMethods s) || hasPasskey (verificationMethods s).

Definition withVerification (api : nat) (o : options) (s : state) : state :=
  with_calls (calls s ++ [Direct api o]) (emit (CallApi api) s).

(** The awaited call ends. *)
Definition answered (w : waiting) (result : value) (s : state) : state :=
  match w with
  | Direct _ _ => emit (Returned result) s
  | Verified _ method =>
      let s := match successMessage with [] => s | text => emit (ShowSuccess text) s end in
      let s := if onSuccess then emit (OnSuccess result method) s else s in
      let s := if autoReset then resetState s else s in
      emit (Returned result) (set_loading false s)
  end.

Definition failed (w : waiting) (error : value) (s : state) : state :=
  match w with
  | Direct api o =>
      if isVerificationRequiredError error then emit (Returned VNull) (startVerification api o s)
      else emit (Thrown error) s
  | Verified _ _ => verification_failed error s
  end.

Inductive event :=
  | With (api : nat) (o : options)
  | Start (api : nat) (o : options)
  | Execute (method : jsstr)
  | Code (code : jsstr)
  | Switch (method : option jsstr)
  | Cancel
  | Answer (i : nat) (result : value)
  | Failure (i : nat) (error : value).

Definition take_call (i : nat) (s : state) : state := with_calls (delete i (calls s)) s.

Definition step (s : state) (e : event) : state :=
  match e with
  | With api o => withVerification api o s
  | Start api o => startVerification api o s
  | Execute method => executeVerification s method s
  | Code code => setVerificationCode code s
  | Switch method => switchVerificationMethod method s
  | Cancel => cancelVerification s
  | Answer i result => match calls s !! i with Some w => answered w result (take_call i s) | None => s end
  | Failure i error => match calls s !! i with Some w => failed w error (take_call i s) | None => s end
  end.

Definition run (s : state) (es : list event) : state := fold_left step es s.

(** The first render, and its effect. *)
Definition init : state :=
  checkVerificationMethods (mk_state (mk_methods false false false) false no_verification [] []).

(** ** Laws of the hook, whatever the service offers *)

(** The sensitive calls that were made. *)
Definition api_calls (l : list effect) : list nat :=
  omap (λ e, match e with CallApi api => Some api | _ => None end) l.

(** An open dialog has a call to make; without factors there is never one. *)
Record ok (s : state) : Prop := {
  ok_methods : verificationMethods s = available;
  ok_modal : isModalVisible s = true → v_apiCall (verificationState s) ≠ None;
  ok_closed : has2FA available = false → hasPasskey available = false →
    isModalVisible s = false ∧ v_apiCall (verificationState s) = None ∧
    v_loading (verificationState s) = false ∧
    Forall (λ w, match w with Direct _ _ => True | Verified _ _ => False end) (calls s);
}.

Lemma ok_init : ok init.
Proof. by split. Qed.

Lemma ok_start api o s : ok s → ok (startVerification api o s).
Proof.
  intros [Hm Hv Hc]. unfold startVerification, checkVerificationMethods, on_error. cbv zeta.
  destruct (has2FA available) eqn:E1, (hasPasskey available) eqn:E2; cbn [negb andb];
    try (split; simpl; [done | done | intros; congruence]).
  destruct onError; split; simpl; auto.
Qed.

Lemma ok_failed error s :
  ok s → ok (verification_failed error s).
Proof.
  intros [Hm Hv Hc]. unfold verification_failed, on_error. destruct onError; split; simpl; try done; naive_solver.
Qed.

Lemma ok_take i s : ok s → ok (take_call i s).
Proof.
  intros [Hm Hv Hc]. split; [done..|]. intros H1 H2. destruct (Hc H1 H2) as (? & ? & ? & Hf).
  split_and!; [done..|]. by apply Forall_delete.
Qed.

Lemma ok_step s e : ok s → ok (step s e).
Proof.
  intros H. pose proof H as [Hm Hv Hc]. destruct e as [api o|api o|method|code|method| |i result|i error]; simpl.
  - split; simpl; [done..|]. intros H1 H2. destruct (Hc H1 H2) as (? & ? & ? & Hf). split_and!; [done..|].
    apply Forall_app_2; [done|]. by apply Forall_singleton.
  - by apply ok_start.
  - unfold executeVerification. destruct (v_apiCall _) as [api|] eqn:Ea; [|by destruct H; split].
    destruct (check_ method) as [m|]; [apply ok_failed|]; (split; simpl; [done | by rewrite Ea |]);
      intros H1 H2; by destruct (Hc H1 H2) as (_ & [=] & _).
  - by split.
  - by split.
  - split; simpl; [done..|]. intros H1 H2. by destruct (Hc H1 H2) as (? & ? & ? & Hf).
  - destruct (calls s !! i) as [[api o|api method]|] eqn:Ei; [| |done].
    + pose proof (ok_take i s H) as [? ? ?]. by split.
    + pose proof (ok_take i s H) as [? ? Ht].
      unfold answered. destruct successMessage, onSuccess, autoReset; split; simpl; try done;
        intros H1 H2; destruct (Ht H1 H2) as (? & ? & ? & ?); done.
  - destruct (calls s !! i) as [[api o|api method]|] eqn:Ei; [| |done].
    + simpl. pose proof (ok_take i s H) as Ht. case_match; [|destruct Ht; by split].
      pose proof (ok_start api o _ Ht) as [? ? ?]. by split.
    + by apply ok_failed, ok_take.
Qed.

Lemma ok_run es s : ok s → ok (run s es).
Proof. revert s. induction es as [|e es IH]; intros s H; [done|]. by apply IH, ok_step. Qed.
End hook.

(** ** The hook over the service *)

Section service.
Context (t : jsstr → jsstr) (successMessage : jsstr) (onSuccess onError autoReset : bool).
Local Abbreviation none := checkAvailableVerificationMethods.
Local Abbreviation step := (step t none verify successMessage onSuccess onError autoReset).
Local Abbreviation run := (run t none verify successMessage onSuccess onError autoReset).

(** The sensitive calls asked for. *)
Definition asked (es : list event) : list nat :=
  omap (λ e, match e with With api _ => Some api | _ => None end) es.

Lemma calls_step s e :
  ok none s → api_calls (log (step s e)) = rev (asked [e]) ++ api_calls (log s).
Proof.
  intros [_ _ Hc]. destruct (Hc eq_refl eq_refl) as (_ & Ha & _ & Hf).
  destruct e as [api o|api o|method|code|method| |i result|i error]; simpl; try done.
  - unfold startVerification, on_error. simpl. by destruct onError.
  - unfold executeVerification. by rewrite Ha.
  - destruct (calls s !! i) as [w|] eqn:Ei; [|done]. eapply Forall_lookup_1 in Hf; [|exact Ei]. by destruct w.
  - destruct (calls s !! i) as [w|] eqn:Ei; [|done]. eapply Forall_lookup_1 in Hf; [|exact Ei].
    destruct w; [|done]. simpl. case_match; [|done]. unfold startVerification, on_error. simpl. by destruct onError.
Qed.

(** the dialog is closed for good: whatever the console asks, in any order, it is
    never shown, no factor can be used, and a sensitive call is made exactly when it
    is asked for, never a second time; when the server demands a verification, the
    caller gets null as if the call had succeeded with it, and the operator the
    message that the function was removed. *)
Theorem verification_always_refused es :
  let s := run (init none) es in
  isModalVisible s = false ∧ hasAnyVerificationMethod s = false ∧ getRecommendedMethod s = None ∧
  (∀ m, canUseMethod s m = false) ∧
  api_calls (log s) = rev (asked es) ∧
  ∀ i api o error, calls s !! i = Some (Direct api o) → isVerificationRequiredError error = true →
    let message := t (u "当前系统未启用二次验证（功能已移除），无法执行此敏感操作") in
    log (step s (Failure i error)) = [Returned VNull] ++
      (if onError then [OnError (error_value message)] else []) ++ [ShowError (VStr message)] ++ log s.
Proof.
  intros s. assert (ok none s) as H by apply ok_run, ok_init. destruct H as [Hm _ Hc].
  destruct (Hc eq_refl eq_refl) as (Hv & _ & _). split_and!; [done|..].
  - unfold hasAnyVerificationMethod. by rewrite Hm.
  - unfold getRecommendedMethod. by rewrite Hm.
  - intros m. unfold canUseMethod. rewrite Hm. repeat case_decide; done.
  - unfold s. clear. assert (∀ es s0, ok none s0 → api_calls (log (run s0 es)) = rev (asked es) ++ api_calls (log s0)) as Hr.
    { clear es. induction es as [|e es IH]; intros s0 H0; [done|].
      change (run s0 (e :: es)) with (run (step s0 e) es). rewrite IH by by apply ok_step.
      rewrite calls_step by done. destruct e; simpl; by rewrite <- ?app_assoc. }
    rewrite Hr by apply ok_init. by rewrite app_nil_r.
  - intros i api o error Hi He. simpl. rewrite Hi. simpl. rewrite He. unfold startVerification, on_error. simpl.
    by destruct onError.
Qed.
End service.
