(* ===== verification/Tokens.v ===== *)
(** * API tokens
    [src/web/src/hooks/tokens/useTokensData.jsx] and the row buttons of
    [TokensColumnDefs.jsx]: the table of tokens, its pages and searches, the keys that
    are fetched once for all who ask, and the batch actions.  The rows are objects
    that several arrays share, so they are kept in a store and arrays hold their
    numbers. *)

From Stdlib Require Import SpecFloat.
From stdpp Require Import base numbers option strings sets list.
From S2P Require Import Prelude JsString JsNumber JsValue JsOps OAuth.

Definition num_value (z : Z) : value := VNum (num_of_Z z).
Definition ITEMS_PER_PAGE : value := num_value 10.

(** ** State *)

(** Who waits for a key: [toggleTokenVisibility], [copyTokenKey], an entry of
    [batchCopyTokens], or another page. *)
Inductive key_use :=
  | Toggle (id : jsstr)
  | CopyKey
  | Entry (batch index : nat)
  | Bare (caller : nat).

(** What follows [loadTokens]: nothing, the [catch] of the first load, the end of
    [refresh], and the end of [refresh] inside [batchDeleteTokens]. *)
Inductive after_load := Plain | Initial | Refreshed | Deleted.

(** What follows the answer of [manageToken]: the action, and the row. *)
Inductive token_action := Delete | Enable | Disable.

(** Who puts a text on the clipboard: the button of a row, or a batch. *)
Inductive copier := Button | Batch (b : nat).

(** [KeyShown] is the call of [setShowKeys] that shows a key, [Rejected] the promise of a
    click that nobody catches, [BatchFailed] the error that a batch shows. *)
Inductive effect :=
  | Get (url : jsstr)
  | Post (url : jsstr) (body : value)
  | Put (url : jsstr) (body : value)
  | DeleteUrl (url : jsstr)
  | ShowError (v : value)
  | ShowSuccess (text : jsstr)
  | DeletedCount (count : value)
  | Clipboard (who : copier) (text : jsstr)
  | CopyDialog (text : jsstr)
  | KeyGiven (caller : nat) (key : value + value)
  | KeyShown (id : jsstr)
  | Rejected (w : key_use) (error : value)
  | BatchFailed (b : nat) (v : value)
  | Unhandled (v : value).

(** The values of a render, and what the store holds now. *)
Record view := mk_view {
  tokens : list nat; loading : bool; activePage : value; tokenCount : value; pageSize : value;
  searching : bool; searchMode : bool; selectedKeys : list nat; showEdit : bool; editingToken : value;
  showKeys : props; resolvedTokenKeys : props; loadingTokenKeys : props;
}.

Inductive waiting :=
  | Load (r : view) (k : after_load)
  | Search (r : view)
  | KeyRequest (id : jsstr) (quiet : bool) (waiters : list key_use)
  | Manage (r : view) (a : token_action) (row : nat)
  | BatchDelete (r : view)
  | Copying (text : jsstr).

(** A [batchCopyTokens] that awaits its keys; [None] is one not there yet. *)
Record copying := mk_copying { copy_id : nat; copy_rows : list nat; with_names : bool; copy_keys : list (option value) }.

Inductive timer := CloseEdit | LookBack (r : view).

(** [key_requests]: [keyRequestsRef.current] has a promise for each of them, in the
    calls. *)
Record state := mk_state {
  store : list props; now : view; searchKeyword : jsstr; searchToken : jsstr; keyRequests : list jsstr;
  calls : list waiting; copyings : list copying; next_copy : nat; timers : list timer; log : list effect;
}.

Definition with_store x s := mk_state x (now s) (searchKeyword s) (searchToken s) (keyRequests s) (calls s) (copyings s) (next_copy s) (timers s) (log s).
Definition with_view v s := mk_state (store s) v (searchKeyword s) (searchToken s) (keyRequests s) (calls s) (copyings s) (next_copy s) (timers s) (log s).
Definition with_form a b s := mk_state (store s) (now s) a b (keyRequests s) (calls s) (copyings s) (next_copy s) (timers s) (log s).
Definition with_requests l s := mk_state (store s) (now s) (searchKeyword s) (searchToken s) l (calls s) (copyings s) (next_copy s) (timers s) (log s).
Definition with_calls l s := mk_state (store s) (now s) (searchKeyword s) (searchToken s) (keyRequests s) l (copyings s) (next_copy s) (timers s) (log s).
Definition with_copyings l n s := mk_state (store s) (now s) (searchKeyword s) (searchToken s) (keyRequests s) (calls s) l n (timers s) (log s).
Definition with_timers l s := mk_state (store s) (now s) (searchKeyword s) (searchToken s) (keyRequests s) (calls s) (copyings s) (next_copy s) l (log s).
Definition emit e s := mk_state (store s) (now s) (searchKeyword s) (searchToken s) (keyRequests s) (calls s) (copyings s) (next_copy s) (timers s) (e :: log s).
Definition suspend (w : waiting) (s : state) : state := with_calls (calls s ++ [w]) s.
Definition on_view (f : view → view) (s : state) : state := with_view (f (now s)) s.

Definition setTokens x v := mk_view x (loading v) (activePage v) (tokenCount v) (pageSize v) (searching v) (searchMode v)
  (selectedKeys v) (showEdit v) (editingToken v) (showKeys v) (resolvedTokenKeys v) (loadingTokenKeys v).
Definition setLoading x v := mk_view (tokens v) x (activePage v) (tokenCount v) (pageSize v) (searching v) (searchMode v)
  (selectedKeys v) (showEdit v) (editingToken v) (showKeys v) (resolvedTokenKeys v) (loadingTokenKeys v).
Definition setPages page count size v := mk_view (tokens v) (loading v) page count size (searching v) (searchMode v)
  (selectedKeys v) (showEdit v) (editingToken v) (showKeys v) (resolvedTokenKeys v) (loadingTokenKeys v).
Definition setSearching x v := mk_view (tokens v) (loading v) (activePage v) (tokenCount v) (pageSize v) x (searchMode v)
  (selectedKeys v) (showEdit v) (editingToken v) (showKeys v) (resolvedTokenKeys v) (loadingTokenKeys v).
Definition setSearchMode x v := mk_view (tokens v) (loading v) (activePage v) (tokenCount v) (pageSize v) (searching v) x
  (selectedKeys v) (showEdit v) (editingToken v) (showKeys v) (resolvedTokenKeys v) (loadingTokenKeys v).
Definition setSelectedKeys x v := mk_view (tokens v) (loading v) (activePage v) (tokenCount v) (pageSize v) (searching v)
  (searchMode v) x (showEdit v) (editingToken v) (showKeys v) (resolvedTokenKeys v) (loadingTokenKeys v).
Definition setEdit shown token v := mk_view (tokens v) (loading v) (activePage v) (tokenCount v) (pageSize v) (searching v)
  (searchMode v) (selectedKeys v) shown token (showKeys v) (resolvedTokenKeys v) (loadingTokenKeys v).
Definition setKeys shown resolved asked v := mk_view (tokens v) (loading v) (activePage v) (tokenCount v) (pageSize v)
  (searching v) (searchMode v) (selectedKeys v) (showEdit v) (editingToken v) shown resolved asked.
Definition setShowKeys x v := setKeys x (resolvedTokenKeys v) (loadingTokenKeys v) v.
Definition setPageSize x v := setPages (activePage v) (tokenCount v) x v.

Definition no_token : value := VObj [(u "id", VUndef)].

Definition row_of (s : state) (i : nat) : props := default [] (store s !! i).

Section tokens_hook.
(** [before a b]: [a.localeCompare(b) <= 0]. *)
Context (t : jsstr → jsstr) (engine_error : value) (before : jsstr → jsstr → bool).

Definition throws (s : state) : state := emit (Unhandled engine_error) s.

(** *** Pages *)

(** The rows of an answer become new objects. *)
Definition new_rows (rows : list props) (s : state) : list nat := seq (length (store s)) (length rows).

(** The items as objects; [None] when [payload.items] is not a list of objects, which
    the table cannot show. *)
Definition items_of (v : value) : option (list props) :=
  match v with
  | VArr l => mapM (λ x, match x with VObj o => Some o | _ => None end) l
  | _ => None
  end.

(** [syncPageData] of the render [r]; [None]: [payload] is nothing. *)
Definition syncPageData (r : view) (payload : value) (s : state) : option state :=
  items ← read (u "items") payload;
  rows ← items_of (value_or items (VArr []));
  Some (with_store (store s ++ rows) (on_view (λ v, setShowKeys []
    (setPages (value_or (opt_read (u "page") payload) (num_value 1))
      (value_or (opt_read (u "total") payload) (num_value 0))
      (value_or (opt_read (u "page_size") payload) (pageSize r))
      (setTokens (new_rows rows s) v))) s)).

(** What becomes of an error after the load: nobody shows it, the first load and the
    batch do. *)
Definition load_failed (k : after_load) (error : value) (s : state) : state :=
  match k with
  | Plain | Refreshed => emit (Unhandled error) s
  | Initial => emit (ShowError error) s
  | Deleted => on_view (setLoading false) (emit (ShowError (opt_read (u "message") error)) s)
  end.

(** [batchDeleteTokens] looks at the tokens of its own render. *)
Definition load_ended (r : view) (k : after_load) (s : state) : state :=
  match k with
  | Plain | Initial => s
  | Refreshed => on_view (setSelectedKeys []) s
  | Deleted =>
      let s := on_view (setSelectedKeys []) s in
      on_view (setLoading false) (with_timers (timers s ++ [LookBack r]) s)
  end.

Definition load_url (page size : value) : option jsstr :=
  p ← to_string page; z ← to_string size; Some (u "/api/token/?p=" ++ p ++ u "&size=" ++ z).

Definition loadTokens (r : view) (k : after_load) (page size : value) (s : state) : state :=
  let s := on_view (λ v, setSearchMode false (setLoading true v)) s in
  match load_url page size with
  | Some url => suspend (Load r k) (emit (Get url) s)
  | None => load_failed k engine_error s
  end.

Definition refresh (r : view) (k : after_load) (page : value) : state → state := loadTokens r k page (pageSize r).

(** The answer of a page: [None] when it throws. *)
Definition page_answered (r : view) (searched : bool) (res : value) (s : state) : option state :=
  data ← read (u "data") res; success ← read (u "success") data;
  if truthy success then
    syncPageData r (opt_read (u "data") data) (if searched then on_view (setSearchMode true) s else s)
  else Some (emit (ShowError (opt_read (u "message") data)) s).

Definition load_answered (r : view) (k : after_load) (res : value) (s : state) : state :=
  match page_answered r false res s with
  | Some s => load_ended r k (on_view (setLoading false) s)
  | None => load_failed k engine_error s
  end.

Definition search_answered (r : view) (res : value) (s : state) : state :=
  match page_answered r true res s with
  | Some s => on_view (setSearching false) s
  | None => throws (match read (u "data") res ≫= read (u "success") with
                    | Some ok => if truthy ok then on_view (setSearchMode true) s else s
                    | None => s end)
  end.

(** [Number.isInteger(x) && x > 0 ? x : d] *)
Definition natural_or (d v : value) : value :=
  match v with VNum x => if is_integer x && nltb (num_of_Z 0) x then v else d | _ => d end.

Definition search_url (keyword token : jsstr) (page size : value) : option jsstr :=
  k ← encodeURIComponent (VStr keyword); x ← encodeURIComponent (VStr token);
  p ← to_string page; z ← to_string size;
  Some (u "/api/token/search?keyword=" ++ k ++ u "&token=" ++ x ++ u "&p=" ++ p ++ u "&size=" ++ z).

Definition has_search (s : state) : bool := str_truthy (searchKeyword s) || str_truthy (searchToken s).

Definition searchTokens (r : view) (page size : value) (s : state) : state :=
  let page := natural_or (num_value 1) page in
  let size := natural_or (pageSize r) size in
  if negb (has_search s) then loadTokens r Plain (num_value 1) (pageSize r) (on_view (setSearchMode false) s)
  else
    let s := on_view (setSearching true) s in
    match search_url (searchKeyword s) (searchToken s) page size with
    | Some url => suspend (Search r) (emit (Get url) s)
    | None => throws s
    end.

Definition handlePageChange (r : view) (page : value) : state → state :=
  if searchMode r then searchTokens r page (pageSize r) else loadTokens r Plain page (pageSize r).

Definition handlePageSizeChange (r : view) (size : value) (s : state) : state :=
  let s := on_view (setPageSize size) s in
  if searchMode r then searchTokens r (num_value 1) size s else loadTokens r Plain (num_value 1) size s.

(** [('' + a[key]).localeCompare(b[key])], stably; the order is turned round when the
    first row stays first.  Comparing needs two rows. *)
Definition sortToken (r : view) (key : jsstr) (s : state) : state :=
  match tokens r with
  | [] => s
  | first :: _ =>
      let s := on_view (setLoading true) s in
      let text i := to_string (prop key (row_of s i)) in
      if (1 <? length (tokens r))%nat && negb (forallb (λ i, bool_decide (is_Some (text i))) (tokens r)) then throws s
      else
        let sorted := sort (λ i j, before (default [] (text i)) (default [] (text j))) (tokens r) in
        let same := match sorted with
          | i :: _ => strict_eq (prop (u "id") (row_of s i)) (prop (u "id") (row_of s first))
          | [] => true end in
        on_view (λ v, setLoading false (setTokens (if same then reverse sorted else sorted) v)) s
  end.

(** A row that is not enabled is shaded. *)
Definition handleRow (record : props) : bool := negb (strict_eq (prop (u "status") record) (num_value 1)).

(** *** Copying *)

Definition copyText (who : copier) (text : jsstr) (s : state) : state :=
  suspend (Copying text) (emit (Clipboard who text) s).

Definition copied (text : jsstr) (okay : bool) (s : state) : state :=
  emit (if okay then ShowSuccess (t (u "已复制到剪贴板！")) else CopyDialog text) s.

(** *** Keys *)

Definition error_value (message : value) : value := VObj [(u "message", message)].

(** A line of [batchCopyTokens]. *)
Definition copy_line (s : state) (names : bool) (row : nat) (key : value) : option jsstr :=
  k ← to_string key;
  let line := u "sk-" ++ k ++ [10%N] in
  if names then n ← to_string (prop (u "name") (row_of s row)); Some (n ++ u "    " ++ line) else Some line.

Definition copy_failed (b : nat) (error : value) (s : state) : state :=
  emit (BatchFailed b (value_or (opt_read (u "message") error) (VStr (t (u "复制令牌失败"))))) s.

Definition find_copying (b : nat) (s : state) : option copying := head (filter (λ c, copy_id c = b) (copyings s)).
Definition drop_copying (b : nat) (s : state) : state := with_copyings (filter (λ c, copy_id c ≠ b) (copyings s)) (next_copy s) s.

(** [Promise.all] has all its keys. *)
Definition copy_all (c : copying) (s : state) : state :=
  match mapM id (copy_keys c) with
  | None => s
  | Some keys =>
      let s := drop_copying (copy_id c) s in
      match mapM (λ rk, copy_line s (with_names c) rk.1 rk.2) (zip (copy_rows c) keys) with
      | Some lines => copyText (Batch (copy_id c)) (concat lines) s
      | None => copy_failed (copy_id c) engine_error s
      end
  end.

Definition show_key (id : jsstr) (s : state) : state :=
  emit (KeyShown id) (on_view (λ v, setShowKeys (set id (VBool true) (showKeys v)) v) s).

(** One who waits for a key gets it, or the error. *)
Definition give_key (w : key_use) (key : value + value) (s : state) : state :=
  match w, key with
  | Toggle id, inl k => if truthy k then show_key id s else s
  | CopyKey, inl k =>
      match to_string k with
      | Some x => copyText Button (u "sk-" ++ x) s
      | None => emit (Rejected CopyKey engine_error) s
      end
  | Toggle _, inr e | CopyKey, inr e => emit (Rejected w e) s
  | Entry b i, inl k =>
      match find_copying b s with
      | Some c =>
          let c := mk_copying b (copy_rows c) (with_names c) (<[i := Some k]> (copy_keys c)) in
          copy_all c (with_copyings (map (λ c', if decide (copy_id c' = b) then c else c') (copyings s)) (next_copy s) s)
      | None => s
      end
  | Entry b _, inr e =>
      match find_copying b s with Some _ => copy_failed b e (drop_copying b s) | None => s end
  | Bare caller, key => emit (KeyGiven caller key) s
  end.

Definition set_asked (id : jsstr) (b : bool) (v : view) : view :=
  setKeys (showKeys v) (resolvedTokenKeys v)
    (if b then set id (VBool true) (loadingTokenKeys v) else del id (loadingTokenKeys v)) v.
Definition set_resolved (id : jsstr) (key : value) (v : view) : view :=
  setKeys (showKeys v) (set id key (resolvedTokenKeys v)) (loadingTokenKeys v) v.

(** The request of a key that is in flight gets one more waiter. *)
Definition join_waiter (id : jsstr) (w : key_use) (c : waiting) : waiting :=
  match c with
  | KeyRequest id' quiet ws => if decide (id' = id) then KeyRequest id' quiet (ws ++ [w]) else c
  | _ => c
  end.

(** [typeof tokenOrId === 'object' ? tokenOrId?.id : Number(tokenOrId)] *)
Definition token_id (tokenOrId : value) : option value :=
  if is_object_type tokenOrId then Some (opt_read (u "id") tokenOrId) else VNum <$> to_number tokenOrId.

Definition fetchTokenKey (r : view) (tokenOrId : value) (suppressError : bool) (w : key_use) (s : state) : state :=
  match token_id tokenOrId with
  | None => give_key w (inr engine_error) s
  | Some id =>
      if negb (truthy id) then
        let message := VStr (t (u "令牌不存在")) in
        give_key w (inr (error_value message)) (if suppressError then s else emit (ShowError message) s)
      else match to_string id with
      | None => give_key w (inr engine_error) s
      | Some key =>
          let known := prop key (resolvedTokenKeys r) in
          if truthy known then give_key w (inl known) s
          else if decide (key ∈ keyRequests s) then with_calls (map (join_waiter key w) (calls s)) s
          else
            with_requests (key :: keyRequests s) (suspend (KeyRequest key suppressError [w])
              (emit (Post (u "/api/token/" ++ key ++ u "/key") VUndef) (on_view (set_asked key true) s)))
      end
  end.

(** The request ends: those who wait go on, in turn. *)
Definition key_ended (id : jsstr) (ws : list key_use) (key : value + value) (s : state) : state :=
  let s := with_requests (filter (λ k, k ≠ id) (keyRequests s)) (on_view (set_asked id false) s) in
  fold_left (λ s w, give_key w key s) ws s.

Definition key_failed (id : jsstr) (quiet : bool) (ws : list key_use) (message : value) (s : state) : state :=
  let message := value_or message (VStr (t (u "获取令牌密钥失败"))) in
  key_ended id ws (inr (error_value message)) (if quiet then s else emit (ShowError message) s).

Definition key_answered (id : jsstr) (quiet : bool) (ws : list key_use) (res : value) (s : state) : state :=
  match OAuth.fetchTokenKey res with
  | Some (Key k) => key_ended id ws (inl k) (on_view (set_resolved id k) s)
  | Some (NoKey message) => key_failed id quiet ws message s
  | None => key_failed id quiet ws (opt_read (u "message") engine_error) s
  end.

Definition toggleTokenVisibility (r : view) (record : value) (s : state) : state :=
  let id := opt_read (u "id") record in
  if negb (truthy id) then s
  else match to_string id with
       | None => throws s
       | Some key =>
           if truthy (prop key (showKeys r))
           then on_view (λ v, setShowKeys (set key (VBool false) (showKeys v)) v) s
           else fetchTokenKey r record false (Toggle key) s
       end.

Definition copyTokenKey (r : view) (record : value) : state → state := fetchTokenKey r record false CopyKey.

(** *** Actions on one token, followed by [refresh] *)

Definition manageToken (r : view) (a : token_action) (row : nat) (s : state) : state :=
  let id := prop (u "id") (row_of s row) in
  let s := on_view (setLoading true) s in
  let put (status : Z) := emit (Put (u "/api/token/?status_only=true")
    (VObj [(u "id", id); (u "status", num_value status)])) s in
  match a with
  | Delete => match to_string id with
              | Some x => suspend (Manage r a row) (emit (DeleteUrl (u "/api/token/" ++ x ++ u "/")) s)
              | None => throws s
              end
  | Enable => suspend (Manage r a row) (put 1%Z)
  | Disable => suspend (Manage r a row) (put 2%Z)
  end.

(** [record.status = token.status] writes to the object of the row. *)
Definition manage_answered (r : view) (a : token_action) (row : nat) (res : value) (s : state) : state :=
  match read (u "data") res ≫= λ d, x ← read (u "success") d; Some (d, x) with
  | None => throws s
  | Some (data, success) =>
      let next s := refresh r Refreshed (activePage r) (on_view (setLoading false) s) in
      if truthy success then
        let s := emit (ShowSuccess (t (u "操作成功完成！"))) s in
        match a with
        | Delete => next (on_view (setTokens (tokens r)) s)
        | _ =>
            match read (u "status") (opt_read (u "data") data) with
            | Some status =>
                next (on_view (setTokens (tokens r)) (with_store (alter (set (u "status") status) row (store s)) s))
            | None => throws s
            end
        end
      else next (emit (ShowError (opt_read (u "message") data)) s)
  end.

(** *** Batches *)

Definition batchDeleteTokens (r : view) (s : state) : state :=
  match selectedKeys r with
  | [] => emit (ShowError (VStr (t (u "请先选择要删除的令牌！")))) s
  | rows =>
      suspend (BatchDelete r) (emit (Post (u "/api/token/batch")
        (VObj [(u "ids", VArr (map (λ i, prop (u "id") (row_of s i)) rows))])) (on_view (setLoading true) s))
  end.

Definition batch_answered (r : view) (res : value) (s : state) : state :=
  let data := opt_read (u "data") res in
  if truthy (opt_read (u "success") data) then
    refresh r Deleted (activePage r)
      (emit (DeletedCount (value_or (opt_read (u "data") data) (num_value 0))) s)
  else on_view (setLoading false)
    (emit (ShowError (value_or (opt_read (u "message") data) (VStr (t (u "删除失败"))))) s).

(** The timer of a batch: the tokens and the page are those of its render. *)
Definition look_back (r : view) (s : state) : state :=
  match tokens r, activePage r with
  | [], VNum p => if nltb (num_of_Z 1) p then refresh r Refreshed (VNum (nsub p (num_of_Z 1))) s else s
  | _, _ => s
  end.

Definition batchCopyTokens (r : view) (names : bool) (s : state) : state :=
  match selectedKeys r with
  | [] => emit (ShowError (VStr (t (u "请至少选择一个令牌！")))) s
  | rows =>
      let b := next_copy s in
      let c := mk_copying b rows names (map (λ _, None) rows) in
      let s := with_copyings (copyings s ++ [c]) (S b) s in
      fold_left (λ s ir, fetchTokenKey r (VObj (row_of s ir.2)) true (Entry b ir.1) s)
        (zip (seq 0 (length rows)) rows) s
  end.

(** *** Editing *)

Definition closeEdit (s : state) : state :=
  on_view (λ v, setEdit false (editingToken v) v) (with_timers (timers s ++ [CloseEdit]) s).

(** *** Steps *)

Inductive event :=
  | PageChange (page : value)
  | PageSizeChange (size : value)
  | SearchSubmit
  | Reload (page : option value)
  | Form (keyword token : jsstr)
  | SortBy (key : jsstr)
  | Select (rows : list nat)
  | ToggleKey (row : nat)
  | CopyTokenKey (row : nat)
  | FetchKey (tokenOrId : value) (suppressError : bool) (caller : nat)
  | ManageToken (a : token_action) (row : nat)
  | DeleteSelected
  | CopySelected (names : bool)
  | Edit (token : value)
  | CloseEditor
  | Answer (i : nat) (res : value)
  | Failure (i : nat) (error : value)
  | CopyDone (i : nat) (okay : bool)
  | Timer (i : nat).

Definition take_call (i : nat) (s : state) : state := with_calls (delete i (calls s)) s.

Definition answered (w : waiting) (res : value) (s : state) : state :=
  match w with
  | Load r k => load_answered r k res s
  | Search r => search_answered r res s
  | KeyRequest id quiet ws => key_answered id quiet ws res s
  | Manage r a row => manage_answered r a row res s
  | BatchDelete r => batch_answered r res s
  | Copying _ => s
  end.

Definition failed (w : waiting) (error : value) (s : state) : state :=
  match w with
  | Load _ k => load_failed k error s
  | Search _ | Manage _ _ _ => emit (Unhandled error) s
  | KeyRequest id quiet ws => key_failed id quiet ws (opt_read (u "message") error) s
  | BatchDelete _ => on_view (setLoading false) (emit (ShowError (opt_read (u "message") error)) s)
  | Copying text => copied text false s
  end.

Definition handle (s : state) (e : event) : state :=
  let r := now s in
  match e with
  | PageChange page => handlePageChange r page s
  | PageSizeChange size => handlePageSizeChange r size s
  | SearchSubmit => searchTokens r (num_value 1) (pageSize r) s
  | Reload page => refresh r Refreshed (default (activePage r) page) s
  | Form keyword token => with_form keyword token s
  | SortBy key => sortToken r key s
  | Select rows => on_view (setSelectedKeys rows) s
  | ToggleKey row => toggleTokenVisibility r (VObj (row_of s row)) s
  | CopyTokenKey row => copyTokenKey r (VObj (row_of s row)) s
  | FetchKey tokenOrId suppressError caller => fetchTokenKey r tokenOrId suppressError (Bare caller) s
  | ManageToken a row => manageToken r a row s
  | DeleteSelected => batchDeleteTokens r s
  | CopySelected names => batchCopyTokens r names s
  | Edit token => on_view (setEdit true token) s
  | CloseEditor => closeEdit s
  | Answer i res => match calls s !! i with Some w => answered w res (take_call i s) | None => s end
  | Failure i error => match calls s !! i with Some w => failed w error (take_call i s) | None => s end
  | CopyDone i okay =>
      match calls s !! i with Some (Copying text) => copied text okay (take_call i s) | _ => s end
  | Timer i =>
      match timers s !! i with
      | Some CloseEdit => on_view (λ v, setEdit (showEdit v) no_token v) (with_timers (delete i (timers s)) s)
      | Some (LookBack r) => look_back r (with_timers (delete i (timers s)) s)
      | None => s
      end
  end.

(** The effect of a render with a new page size loads the first page. *)
Definition settle (before_ : view) (s : state) : state :=
  if strict_eq (pageSize before_) (pageSize (now s)) then s
  else loadTokens (now s) Initial (num_value 1) (pageSize (now s)) s.

Definition step (s : state) (e : event) : state := settle (now s) (handle s e).

Definition run (s : state) (es : list event) : state := fold_left step es s.

Definition first_view : view :=
  mk_view [] true (num_value 1) (num_value 0) ITEMS_PER_PAGE false false [] false no_token [] [] [].

(** The first render, and its effect. *)
Definition init : state :=
  loadTokens first_view Initial (num_value 1) ITEMS_PER_PAGE (mk_state [] first_view [] [] [] [] [] 0 [] []).
End tokens_hook.

(** * API tokens: laws
    Keys are requested once for all who ask and everyone hears once, buttons, pages and
    batches; a new page size loses the search. *)

(** ** The requests of keys *)

Definition key_call (c : waiting) : option (jsstr * list key_use) :=
  match c with KeyRequest id _ ws => Some (id, ws) | _ => None end.
Definition key_calls (l : list waiting) : list (jsstr * list key_use) := omap key_call l.

(** Who waits; an entry of a batch waits for the batch. *)
Definition own (w : key_use) : list key_use := match w with Entry _ _ => [] | _ => [w] end.
Definition waiting_uses (l : list waiting) : list key_use := concat (map snd (key_calls l)).

(** Who has heard of a key, and the batches that have come to their end. *)
Definition told (l : list effect) : list key_use :=
  omap (λ e, match e with
    | KeyGiven c _ => Some (Bare c) | KeyShown id => Some (Toggle id) | Clipboard Button _ => Some CopyKey
    | Rejected w _ => Some w | _ => None end) l.
Definition ended (l : list effect) : list nat :=
  omap (λ e, match e with Clipboard (Batch b) _ | BatchFailed b _ => Some b | _ => None end) l.

(** One request for each token that has one, and it is in the map. *)
Definition wf (s : state) : Prop :=
  NoDup (keyRequests s) ∧ keyRequests s ≡ₚ map fst (key_calls (calls s)).

(** Every batch has ended or awaits keys, and a key that it awaits is one that it waits for;
    [more] are those who wait and are in hand. *)
Record batches (more : list key_use) (s : state) : Prop := {
  b_ids : ended (log s) ++ map copy_id (copyings s) ≡ₚ seq 0 (next_copy s);
  b_open : ∀ c, c ∈ copyings s → mapM id (copy_keys c) = None;
  b_slots : ∀ c i, c ∈ copyings s → copy_keys c !! i = Some None → Entry (copy_id c) i ∈ more ++ waiting_uses (calls s);
}.

(** What concerns the keys is as before. *)
Definition kept (s s' : state) : Prop :=
  keyRequests s' = keyRequests s ∧ key_calls (calls s') = key_calls (calls s) ∧ told (log s') = told (log s) ∧
  ended (log s') = ended (log s) ∧ copyings s' = copyings s ∧ next_copy s' = next_copy s.

(** Those of [more] have heard or wait, besides those that did. *)
Definition heard (more : list key_use) (s s' : state) : Prop :=
  told (log s') ++ (waiting_uses (calls s') ≫= own) ≡ₚ more ++ told (log s) ++ (waiting_uses (calls s) ≫= own).

Lemma kept_refl s : kept s s.
Proof. done. Qed.
Lemma kept_trans s1 s2 s3 : kept s1 s2 → kept s2 s3 → kept s1 s3.
Proof. unfold kept. intros (H1 & H2 & H3 & H4 & H5 & H6) (-> & -> & -> & -> & -> & ->). done. Qed.

Lemma kept_wf s s' : kept s s' → wf s → wf s'.
Proof. intros (H1 & H2 & _). unfold wf. by rewrite H1, H2. Qed.
Lemma kept_heard s s' : kept s s' → heard [] s s'.
Proof. intros (_ & H2 & H3 & _). unfold heard, waiting_uses. by rewrite H2, H3. Qed.
Lemma kept_batches more s s' : kept s s' → batches more s → batches more s'.
Proof.
  intros (_ & H2 & _ & H4 & H5 & H6) [B1 B2 B3]. split; unfold waiting_uses in *; by rewrite ?H2, ?H4, ?H5, ?H6.
Qed.

Lemma heard_trans m1 m2 s1 s2 s3 : heard m1 s1 s2 → heard m2 s2 s3 → heard (m2 ++ m1) s1 s3.
Proof. unfold heard. intros H1 H2. by rewrite H2, H1, app_assoc. Qed.

(** A call that asks for no key. *)
Lemma key_calls_suspend w s : key_call w = None → key_calls (calls (suspend w s)) = key_calls (calls s).
Proof. intros Hw. unfold key_calls. simpl. rewrite omap_app. simpl. by rewrite Hw, app_nil_r. Qed.

Lemma kept_suspend w s s' : key_call w = None → kept s s' → kept s (suspend w s').
Proof. intros Hw (H1 & H2 & H3 & H4). unfold kept. by rewrite key_calls_suspend. Qed.

Lemma kept_take i c s : calls s !! i = Some c → key_call c = None → kept s (take_call i s).
Proof.
  intros Hi Hc. split; [done|]. split; [|done]. unfold key_calls. simpl.
  rewrite <- (take_drop_middle _ _ _ Hi) at 2. rewrite delete_take_drop, !omap_app. simpl. by rewrite Hc.
Qed.

(** *** Batches *)

Lemma batch_ids_nodup more s : batches more s → NoDup (map copy_id (copyings s)).
Proof. intros [H _ _]. pose proof (NoDup_seq 0 (next_copy s)) as Hn. rewrite <- H in Hn. by apply NoDup_app in Hn as (_ & _ & Hn). Qed.

Lemma find_copying_spec b s :
  match find_copying b s with
  | Some c => c ∈ copyings s ∧ copy_id c = b
  | None => ∀ c, c ∈ copyings s → copy_id c ≠ b
  end.
Proof.
  unfold find_copying. destruct (filter (λ c, copy_id c = b) (copyings s)) as [|c l] eqn:E; simpl.
  - intros c Hc Hb. assert (c ∈ filter (λ c, copy_id c = b) (copyings s)) as H by by apply list_elem_of_filter.
    rewrite E in H. by apply elem_of_nil in H.
  - assert (c ∈ filter (λ c, copy_id c = b) (copyings s)) as H by (rewrite E; by left).
    apply list_elem_of_filter in H. naive_solver.
Qed.

(** A batch that leaves the list. *)
Lemma dropped_ids b l : NoDup (map copy_id l) → b ∈ map copy_id l →
  map copy_id l ≡ₚ b :: map copy_id (filter (λ c, copy_id c ≠ b) l).
Proof.
  assert (∀ l, b ∉ map copy_id l → filter (λ c, copy_id c ≠ b) l = l) as Hno.
  { induction l0 as [|c l0 IH]; [done|]. simpl. intros H. apply not_elem_of_cons in H as [H1 H2].
    rewrite filter_cons_True by congruence. by rewrite IH. }
  induction l as [|c l IH]; simpl; intros Hn Hb; [by apply elem_of_nil in Hb|].
  apply NoDup_cons in Hn as [Hn1 Hn2]. destruct (decide (copy_id c = b)) as [E|E].
  - rewrite filter_cons_False by naive_solver. rewrite Hno by congruence. by rewrite E.
  - rewrite filter_cons_True by done. simpl. apply elem_of_cons in Hb as [Hb|Hb]; [congruence|].
    rewrite (IH Hn2 Hb) at 1. apply perm_swap.
Qed.

(** A batch ends: it is told of, and awaits nothing. *)
Lemma batch_comes_to_end more b i s s' :
  batches (Entry b i :: more) s → b ∈ map copy_id (copyings s) →
  copyings s' = filter (λ c, copy_id c ≠ b) (copyings s) → next_copy s' = next_copy s →
  ended (log s') = b :: ended (log s) → waiting_uses (calls s') = waiting_uses (calls s) → batches more s'.
Proof.
  intros Hs Hb Hc Hn He Hw. pose proof (batch_ids_nodup _ _ Hs) as Hd. destruct Hs as [B1 B2 B3]. split.
  - rewrite He, Hc, Hn, <- B1, (dropped_ids b (copyings s)) by done. simpl. by rewrite Permutation_middle.
  - rewrite Hc. intros c [_ Hin]%list_elem_of_filter. by apply B2.
  - rewrite Hc, Hw. intros c j [Hne Hin]%list_elem_of_filter Hj. pose proof (B3 c j Hin Hj) as H.
    simpl in H. apply elem_of_cons in H as [[= E _]|H]; [by subst|done].
Qed.

(** A batch gets a key and awaits others. *)
Lemma batch_goes_on more b i k c s s' :
  batches (Entry b i :: more) s → c ∈ copyings s → copy_id c = b →
  let c' := mk_copying b (copy_rows c) (with_names c) (<[i := Some k]> (copy_keys c)) in
  mapM id (copy_keys c') = None → copyings s' = map (λ x, if decide (copy_id x = b) then c' else x) (copyings s) →
  next_copy s' = next_copy s → ended (log s') = ended (log s) → waiting_uses (calls s') = waiting_uses (calls s) →
  batches more s'.
Proof.
  intros [B1 B2 B3] Hin Hb c' Hopen Hc Hn He Hw. split.
  - rewrite He, Hn, <- B1, Hc, map_map. f_equiv.
    rewrite (map_ext _ copy_id); [done|]. intros x. by destruct (decide (copy_id x = b)).
  - rewrite Hc. intros x (y & -> & Hy)%list_elem_of_fmap. destruct (decide _); [done|by apply B2].
  - rewrite Hc, Hw. intros x j (y & -> & Hy)%list_elem_of_fmap. destruct (decide (copy_id y = b)) as [E|E].
    + cbn [copy_id copy_keys c']. intros Hj. destruct (decide (i = j)) as [->|Hij].
      * apply list_lookup_insert_Some in Hj as [(_ & Hj & _)|[Hj _]]; done.
      * rewrite list_lookup_insert_ne in Hj by done. rewrite <- Hb in *. pose proof (B3 c j Hin Hj) as H.
        simpl in H. apply elem_of_cons in H as [[= E']|H]; [by subst|done].
    + intros Hj. pose proof (B3 y j Hy Hj) as H. simpl in H. apply elem_of_cons in H as [[= E' _]|H]; [by subst|done].
Qed.

(** An entry of a batch that has ended. *)
Lemma batches_gone w more s :
  batches (w :: more) s → (∀ c i, c ∈ copyings s → Entry (copy_id c) i ≠ w) → batches more s.
Proof.
  intros [B1 B2 B3] Hw. split; [done|done|]. intros c i Hin Hi. pose proof (B3 c i Hin Hi) as H. simpl in H.
  apply elem_of_cons in H as [H|H]; [by apply Hw in H|done].
Qed.

Lemma replaced_filter b (c : copying) l : copy_id c = b →
  filter (λ x, copy_id x ≠ b) (map (λ x, if decide (copy_id x = b) then c else x) l) = filter (λ x, copy_id x ≠ b) l.
Proof.
  intros Hc. induction l as [|x l IH]; [done|]. simpl. destruct (decide (copy_id x = b)) as [E|E].
  - rewrite !filter_cons_False by naive_solver. done.
  - rewrite !filter_cons_True by done. by rewrite IH.
Qed.

(** A batch that lacks a key. *)
Lemma lacks_one {A} (l : list (option A)) : mapM id l = None → ∃ i, l !! i = Some None.
Proof.
  induction l as [|x l IH]; [done|]. destruct x as [x|]; [|by exists 0]. simpl. intros H.
  destruct IH as [i Hi]; [by destruct (mapM id l)|]. by exists (S i).
Qed.

(** One in hand who is no batch's. *)
Lemma batches_own w more s s' :
  batches (w :: more) s → own w = [w] → copyings s' = copyings s → next_copy s' = next_copy s →
  ended (log s') = ended (log s) → waiting_uses (calls s') = waiting_uses (calls s) → batches more s'.
Proof.
  intros [B1 B2 B3] Hw Hc Hn He Hu. split; rewrite ?Hc, ?Hn, ?He, ?Hu; try done.
  intros c i Hin Hi. pose proof (B3 c i Hin Hi) as H. simpl in H. by apply elem_of_cons in H as [<-|H].
Qed.

Section laws.
Context (t : jsstr → jsstr) (engine_error : value) (before : jsstr → jsstr → bool).
Local Abbreviation step := (step t engine_error before).
Local Abbreviation run := (run t engine_error before).

Lemma kept_load_failed k error s : kept s (load_failed k error s).
Proof. by destruct k. Qed.

Lemma kept_load r k page size s : kept s (loadTokens engine_error r k page size s).
Proof.
  unfold loadTokens. cbv zeta. case_match.
  - by apply (kept_suspend (Load r k)).
  - apply (kept_load_failed k engine_error (on_view _ s)).
Qed.

Lemma kept_search r page size s : kept s (searchTokens engine_error r page size s).
Proof.
  unfold searchTokens. cbv zeta. case_match; [apply (kept_load r Plain _ _ (on_view _ s))|].
  case_match; [|done]. by apply (kept_suspend (Search r)).
Qed.

(** [Promise.all] of a batch. *)
Lemma copy_all_spec c s : let s' := copy_all t engine_error c s in
  keyRequests s' = keyRequests s ∧ key_calls (calls s') = key_calls (calls s) ∧ told (log s') = told (log s) ∧
  next_copy s' = next_copy s ∧
  match mapM id (copy_keys c) with
  | None => s' = s
  | Some _ => copyings s' = filter (λ x, copy_id x ≠ copy_id c) (copyings s) ∧ ended (log s') = copy_id c :: ended (log s)
  end.
Proof.
  cbv zeta. unfold copy_all. destruct (mapM id (copy_keys c)) as [keys|]; [|done]. cbv zeta.
  destruct (mapM _ _) as [lines|]; [|done]. unfold copyText. rewrite key_calls_suspend by done. done.
Qed.

(** A key that is given is one. *)
Definition good (key : value + value) : Prop := match key with inl k => truthy k = true | inr _ => True end.

(** An entry of a batch gets its key, or the error. *)
Lemma give_entry b i key more s : batches (Entry b i :: more) s → let s' := give_key t engine_error (Entry b i) key s in
  keyRequests s' = keyRequests s ∧ key_calls (calls s') = key_calls (calls s) ∧ told (log s') = told (log s) ∧
  batches more s'.
Proof.
  intros Hs. cbv zeta. pose proof (find_copying_spec b s) as Hf. cbn [give_key].
  destruct (find_copying b s) as [c|].
  - destruct Hf as [Hin Hb]. assert (b ∈ map copy_id (copyings s)) as Hb' by (rewrite <- Hb; by apply list_elem_of_fmap_2).
    destruct key as [k|e]; [|split; [done|]; split; [done|]; split; [done|]; by eapply batch_comes_to_end].
    set (c' := mk_copying b _ _ _). set (s1 := with_copyings _ _ _).
    destruct (copy_all_spec c' s1) as (H1 & H2 & H3 & H4 & H5). split; [done|]. split; [done|]. split; [done|].
    destruct (mapM id (copy_keys c')) as [keys|] eqn:E.
    + destruct H5 as [H5 H6]. eapply batch_comes_to_end; [exact Hs|exact Hb'| |exact H4|exact H6|unfold waiting_uses; by rewrite H2].
      rewrite H5. by apply replaced_filter.
    + rewrite H5. by eapply (batch_goes_on more b i k c s s1).
  - assert (batches more s) as Hg by (eapply batches_gone; [exact Hs|]; by intros c j Hc [= E _]; apply Hf in E).
    by destruct key.
Qed.

(** Giving a key concerns no request; who gets it hears of it. *)
Lemma give_key_spec w key more s : good key → batches (w :: more) s → let s' := give_key t engine_error w key s in
  keyRequests s' = keyRequests s ∧ key_calls (calls s') = key_calls (calls s) ∧ told (log s') = own w ++ told (log s) ∧
  batches more s'.
Proof.
  intros Hk Hs. cbv zeta. destruct w as [id| |b i|c]; [| |by apply give_entry|].
  - destruct key as [k|e]; simpl in *; [rewrite Hk|]; (split; [done|]; split; [done|]; split; [done|]; by eapply batches_own).
  - destruct key as [k|e]; simpl; [destruct (to_string k)|].
    1: unfold copyText; rewrite key_calls_suspend by done; split; [done|]; split; [done|]; split; [done|];
      eapply batches_own; try done; unfold waiting_uses; by rewrite key_calls_suspend.
    all: split; [done|]; split; [done|]; split; [done|]; by eapply batches_own.
  - split; [done|]. split; [done|]. split; [done|]. by eapply batches_own.
Qed.

Lemma give_keys_spec ws key more s : good key → batches (ws ++ more) s →
  let s' := fold_left (λ s w, give_key t engine_error w key s) ws s in
  keyRequests s' = keyRequests s ∧ key_calls (calls s') = key_calls (calls s) ∧
  told (log s') ≡ₚ (ws ≫= own) ++ told (log s) ∧ batches more s'.
Proof.
  intros Hk. revert s. induction ws as [|w ws IH]; intros s Hs; simpl; [done|].
  destruct (give_key_spec w key (ws ++ more) s Hk Hs) as (G1 & G2 & G3 & G4).
  destruct (IH _ G4) as (H1 & H2 & H3 & H4). rewrite H1, H2, H3, G1, G2, G3. split_and!; [done..| |done].
  rewrite !app_assoc. by rewrite (Permutation_app_comm (ws ≫= own)).
Qed.

(** One more who waits for a request in flight. *)
Lemma join_spec id w l :
  NoDup (map fst (key_calls l)) → id ∈ map fst (key_calls l) →
  map fst (key_calls (map (join_waiter id w) l)) = map fst (key_calls l) ∧
  waiting_uses (map (join_waiter id w) l) ≡ₚ w :: waiting_uses l.
Proof.
  intros Hn Hin. split.
  - clear. induction l as [|c l IH]; [done|]. destruct c; simpl; try exact IH.
    case_decide; simpl; by rewrite IH.
  - revert Hn Hin. unfold waiting_uses.
    assert (∀ l, id ∉ map fst (key_calls l) → key_calls (map (join_waiter id w) l) = key_calls l) as Hno.
    { clear. induction l as [|c l IH]; intros H; [done|]. destruct c as [| |id' q ws| | |]; simpl in *; try by apply IH.
      apply not_elem_of_cons in H as [H1 H2]. rewrite decide_False by congruence. simpl. by rewrite IH. }
    induction l as [|c l IH]; intros Hn Hin; [by apply elem_of_nil in Hin|].
    destruct c as [| |id' q ws| | |]; simpl in *; try by apply IH.
    apply NoDup_cons in Hn as [Hn1 Hn2]. case_decide as E; simpl.
    + subst. rewrite Hno by done. rewrite <- app_assoc. simpl. by rewrite <- Permutation_middle.
    + apply elem_of_cons in Hin as [->|Hin]; [done|]. rewrite IH by done. by rewrite <- Permutation_middle.
Qed.

Lemma own_app l1 l2 : (l1 ++ l2) ≫= own = (l1 ≫= own) ++ (l2 ≫= own).
Proof. apply bind_app. Qed.

(** What [fetchTokenKey] does with one more who asks. *)
Record asked_one (w : key_use) (more : list key_use) (s s' : state) : Prop := {
  a_wf : wf s';
  a_heard : heard (own w) s s';
  a_batches : batches more s';
}.

Lemma fetch_given w key more s s' :
  good key → wf s → batches (w :: more) s → kept s s' → asked_one w more s (give_key t engine_error w key s').
Proof.
  intros Hg Hs Hb Hk. destruct (give_key_spec w key more s' Hg (kept_batches _ _ _ Hk Hb)) as (H1 & H2 & H3 & H4).
  split; [|..|done].
  - unfold wf. rewrite H1, H2. by eapply kept_wf.
  - unfold heard, waiting_uses. rewrite H2, H3, <- app_assoc. f_equiv. destruct Hk as (_ & -> & -> & _). done.
Qed.

Lemma fetch_joined key w more s :
  wf s → batches (w :: more) s → key ∈ keyRequests s → asked_one w more s (with_calls (map (join_waiter key w) (calls s)) s).
Proof.
  intros [Hn Hp] [B1 B2 B3] Hin.
  destruct (join_spec key w (calls s)) as [H1 H2]; [by rewrite <- Hp..|]. split.
  - unfold wf. simpl. by rewrite H1.
  - unfold heard. simpl. rewrite H2. simpl. rewrite !app_assoc. by rewrite (Permutation_app_comm (own w)).
  - split; [done|done|]. intros c i Hc Hi. simpl. rewrite H2. rewrite <- Permutation_middle. by apply B3.
Qed.

Lemma fetch_requested key quiet w more s :
  wf s → batches (w :: more) s → key ∉ keyRequests s →
  asked_one w more s (with_requests (key :: keyRequests s) (suspend (KeyRequest key quiet [w])
    (emit (Post (u "/api/token/" ++ key ++ u "/key") VUndef) (on_view (set_asked key true) s)))).
Proof.
  intros [Hn Hp] [B1 B2 B3] Hin.
  assert (∀ l, waiting_uses (l ++ [KeyRequest key quiet [w]]) = waiting_uses l ++ [w]) as Hu.
  { intros l. unfold waiting_uses, key_calls. rewrite omap_app. simpl. rewrite map_app, concat_app. done. }
  split.
  - unfold wf, key_calls. simpl. rewrite omap_app, map_app. simpl. split; [by apply NoDup_cons|].
    rewrite <- Permutation_cons_append. by f_equiv.
  - unfold heard. simpl. rewrite Hu, own_app. simpl. rewrite app_nil_r, app_assoc. apply Permutation_app_comm.
  - split; [done|done|]. intros c i Hc Hi. simpl. rewrite Hu, app_assoc, <- Permutation_cons_append. by apply B3.
Qed.

Lemma fetch_spec r v quiet w more s :
  wf s → batches (w :: more) s → asked_one w more s (fetchTokenKey t engine_error r v quiet w s).
Proof.
  intros Hs Hb. unfold fetchTokenKey. destruct (token_id v) as [id|]; [|by apply fetch_given]. cbv zeta.
  destruct (truthy id); cbn [negb]; [|apply fetch_given; try done; by destruct quiet].
  destruct (to_string id) as [key|]; [|by apply fetch_given].
  destruct (truthy (prop key (resolvedTokenKeys r))) eqn:E; [by apply fetch_given|].
  case_decide; [by apply fetch_joined|by apply fetch_requested].
Qed.

(** *** The end of a request *)

Lemma ended_spec i id quiet ws key s s' :
  good key → wf s → batches [] s → calls s !! i = Some (KeyRequest id quiet ws) → kept (take_call i s) s' →
  let s2 := key_ended t engine_error id ws key s' in wf s2 ∧ heard [] s s2 ∧ batches [] s2.
Proof.
  intros Hg [Hn Hp] [B1 B2 B3] Hi (K1 & K2 & K3 & K4 & K5 & K6). cbv zeta. unfold key_ended. cbv zeta.
  set (s0 := with_requests _ _).
  assert (key_calls (calls s) ≡ₚ (id, ws) :: key_calls (calls s')) as Hc.
  { rewrite K2. unfold key_calls. simpl. rewrite (delete_Permutation _ _ _ Hi) at 1. done. }
  assert (waiting_uses (calls s) ≡ₚ ws ++ waiting_uses (calls s')) as Hu.
  { unfold waiting_uses. by rewrite Hc. }
  assert (keyRequests s' = keyRequests s) as Hr by by rewrite K1.
  assert (batches (ws ++ []) s0) as Hb.
  { rewrite app_nil_r. split; cbn [s0 log copyings next_copy calls with_requests on_view with_view]; rewrite ?K4, ?K5, ?K6; try done.
    intros c j Hin Hj. rewrite <- Hu. by apply B3. }
  destruct (give_keys_spec ws key [] s0 Hg Hb) as (H1 & H2 & H3 & H4). split; [|split; [|done]].
  - unfold wf. rewrite H1, H2. unfold s0. simpl. rewrite Hr. split; [by apply NoDup_filter|].
    rewrite Hp, Hc. simpl. rewrite filter_cons_False by naive_solver.
    rewrite Hp, Hc in Hn. simpl in Hn. apply NoDup_cons in Hn as [Hn _].
    revert Hn. generalize (map fst (key_calls (calls s'))) as l. induction l as [|x l IH]; intros Hn; [done|].
    apply not_elem_of_cons in Hn as [Hx Hn]. rewrite filter_cons_True by congruence. by rewrite IH.
  - unfold heard. rewrite Hu, own_app. unfold waiting_uses. rewrite H2, H3. unfold s0. simpl. rewrite K3. simpl.
    rewrite !app_assoc. by rewrite (Permutation_app_comm (ws ≫= own)).
Qed.

Lemma failed_spec i id quiet ws message s :
  wf s → batches [] s → calls s !! i = Some (KeyRequest id quiet ws) →
  let s2 := key_failed t engine_error id quiet ws message (take_call i s) in wf s2 ∧ heard [] s s2 ∧ batches [] s2.
Proof. intros Hs Hb Hi. unfold key_failed. cbv zeta. eapply ended_spec; [done..|]. by destruct quiet. Qed.

(** The key of an answer is one. *)
Lemma answered_key_good res k : OAuth.fetchTokenKey res = Some (Key k) → good (inl k).
Proof.
  unfold OAuth.fetchTokenKey. destruct (read (u "data") res) as [d|]; [|done]. cbn [mbind option_bind]. cbv zeta.
  destruct (truthy (opt_read (u "success") _) && truthy _) eqn:E; [|done]. intros [= <-]. by apply andb_true_iff in E as [_ E].
Qed.

(** *** The other handlers *)

Lemma kept_sort r key s : kept s (sortToken engine_error before r key s).
Proof.
  unfold sortToken. destruct (tokens r); [done|]. cbv zeta.
  match goal with |- context [if ?b then _ else _] => destruct b end; [done|]. done.
Qed.

Lemma kept_manage r a row s : kept s (manageToken engine_error r a row s).
Proof.
  unfold manageToken. cbv zeta. destruct a; [case_match; [|done]|..]; by apply (kept_suspend (Manage r _ row)).
Qed.

Lemma kept_sync r payload s s' : syncPageData r payload s = Some s' → kept s s'.
Proof.
  unfold syncPageData. intros H. destruct (read (u "items") payload) as [items|]; [|done].
  cbn [mbind option_bind] in H. destruct (items_of (value_or items (VArr []))); [|done].
  cbn [mbind option_bind] in H. by injection H as <-.
Qed.

Lemma kept_page_answered r b res s s' : page_answered r b res s = Some s' → kept s s'.
Proof.
  unfold page_answered. intros H. destruct (read (u "data") res) as [data|]; [|done]. cbn [mbind option_bind] in H.
  destruct (read (u "success") data) as [ok|]; [|done]. cbn [mbind option_bind] in H.
  destruct (truthy ok); [|by simplify_eq]. apply kept_sync in H. by destruct b.
Qed.

Lemma kept_load_answered r k res s : kept s (load_answered engine_error r k res s).
Proof.
  unfold load_answered. destruct (page_answered r false res s) as [s'|] eqn:E.
  - apply kept_page_answered in E. eapply kept_trans; [exact E|]. by destruct k.
  - apply kept_load_failed.
Qed.

Lemma kept_search_answered r res s : kept s (search_answered engine_error r res s).
Proof.
  unfold search_answered. destruct (page_answered r true res s) as [s'|] eqn:E; [by apply kept_page_answered in E|].
  repeat case_match; done.
Qed.

Lemma kept_refresh r k page s s' : kept s s' → kept s (refresh engine_error r k page s').
Proof. intros H. eapply kept_trans; [exact H|]. apply kept_load. Qed.

Lemma kept_manage_answered r a row res s : kept s (manage_answered t engine_error r a row res s).
Proof.
  unfold manage_answered. destruct (_ ≫= _) as [[data ok]|]; [|done]. cbv zeta.
  destruct (truthy ok); [|by apply kept_refresh].
  destruct a; [by apply kept_refresh|..]; (case_match; [by apply kept_refresh|done]).
Qed.

Lemma kept_batch_answered r res s : kept s (batch_answered t engine_error r res s).
Proof. unfold batch_answered. cbv zeta. case_match; [by apply kept_refresh|done]. Qed.

Lemma kept_look_back r s : kept s (look_back engine_error r s).
Proof.
  unfold look_back. destruct (tokens r), (activePage r); try done. case_match; [by apply kept_refresh|done].
Qed.

Lemma kept_settle r s : kept s (settle engine_error r s).
Proof. unfold settle. case_match; [done|]. apply kept_load. Qed.

(** Who asks for a key in an event.  A key that is shown is hidden without one. *)
Definition asks (s : state) (e : event) : list key_use :=
  match e with
  | FetchKey _ _ c => [Bare c]
  | CopyTokenKey _ => [CopyKey]
  | ToggleKey row =>
      let id := prop (u "id") (row_of s row) in
      match to_string id with
      | Some key => if truthy id && negb (truthy (prop key (showKeys (now s)))) then [Toggle key] else []
      | None => []
      end
  | _ => []
  end.

(** Who asks while some events happen. *)
Fixpoint asked (s : state) (es : list event) : list key_use :=
  match es with [] => [] | e :: es => asks s e ++ asked (step s e) es end.

(** What an event does for those of [more], and what it keeps. *)
Record served (more : list key_use) (s s' : state) : Prop := {
  v_wf : wf s';
  v_heard : heard more s s';
  v_batches : batches [] s';
}.

Lemma served_kept s s' : wf s → batches [] s → kept s s' → served [] s s'.
Proof. intros H Hb Hk. split; [by eapply kept_wf|by apply kept_heard|by eapply kept_batches]. Qed.

Lemma served_fetch r v quiet w s : own w = [w] → wf s → batches [] s → served [w] s (fetchTokenKey t engine_error r v quiet w s).
Proof.
  intros Hw Hs [B1 B2 B3]. destruct (fetch_spec r v quiet w [] s Hs) as [H1 H2 H3].
  - split; [done|done|]. intros c i Hc Hi. right. by apply B3.
  - split; [done| |done]. by rewrite <- Hw.
Qed.

Lemma batch_copy_spec r b (rows : list (nat * nat)) s :
  wf s → batches (map (λ ir, Entry b ir.1) rows) s →
  served [] s (fold_left (λ s ir, fetchTokenKey t engine_error r (VObj (row_of s ir.2)) true (Entry b ir.1) s) rows s).
Proof.
  revert s. induction rows as [|[i row] rows IH]; intros s Hs Hb; simpl; [by apply served_kept|].
  destruct (fetch_spec r (VObj (row_of s row)) true (Entry b i) _ s Hs Hb) as [H1 H2 H3].
  destruct (IH _ H1 H3) as [H4 H5 H6]. split; [done| |done]. exact (heard_trans _ _ _ _ _ H2 H5).
Qed.

(** A batch that begins awaits all its keys. *)
Lemma batch_begins rows names s : rows ≠ [] → batches [] s →
  batches (map (λ ir, Entry (next_copy s) ir.1) (zip (seq 0 (length rows)) rows))
    (with_copyings (copyings s ++ [mk_copying (next_copy s) rows names (map (λ _, None) rows)]) (S (next_copy s)) s).
Proof.
  intros Hr [B1 B2 B3]. set (c0 := mk_copying _ _ _ _). split; cbn [log copyings next_copy calls with_copyings].
  - rewrite map_app, app_assoc, B1. rewrite seq_S. done.
  - intros c [Hc| ->%list_elem_of_singleton]%elem_of_app; [by apply B2|]. by destruct rows.
  - intros c i [Hc| ->%list_elem_of_singleton]%elem_of_app Hi; apply elem_of_app; [right; by apply B3|left].
    apply list_elem_of_fmap. simpl in Hi. rewrite list_lookup_fmap in Hi. destruct (rows !! i) as [row|] eqn:Er; [|done].
    exists (i, row). split; [done|]. apply list_elem_of_lookup. exists i. apply lookup_zip_with_Some.
    exists i, row. split; [done|]. split; [|done]. apply lookup_seq. split; [done|]. by eapply lookup_lt_Some.
Qed.

(** The answers of calls that are no request of a key. *)
Lemma served_call i w s s' : wf s → batches [] s → calls s !! i = Some w → key_call w = None →
  kept (take_call i s) s' → served [] s s'.
Proof. intros Hs Hb Hi Hw Hk. apply served_kept; [done..|]. eapply kept_trans; [by eapply kept_take|exact Hk]. Qed.

Lemma answered_served i w res s : wf s → batches [] s → calls s !! i = Some w →
  served [] s (answered t engine_error w res (take_call i s)).
Proof.
  intros Hs Hb Hi. destruct w as [r k|r|id quiet ws|r a row|r|text]; cbn [answered]; try (eapply served_call; [done..|]).
  - apply kept_load_answered.
  - apply kept_search_answered.
  - unfold key_answered. destruct (OAuth.fetchTokenKey res) as [[k|m]|] eqn:E.
    + apply answered_key_good in E.
      destruct (ended_spec i id quiet ws (inl k) s (on_view (set_resolved id k) (take_call i s))) as (H1 & H2 & H3); done.
    + destruct (failed_spec i id quiet ws m s) as (H1 & H2 & H3); done.
    + destruct (failed_spec i id quiet ws (opt_read (u "message") engine_error) s) as (H1 & H2 & H3); done.
  - apply kept_manage_answered.
  - apply kept_batch_answered.
  - done.
Qed.

Lemma failed_served i w error s : wf s → batches [] s → calls s !! i = Some w →
  served [] s (failed t engine_error w error (take_call i s)).
Proof.
  intros Hs Hb Hi. destruct w as [r k|r|id quiet ws|r a row|r|text]; cbn [failed]; try (eapply served_call; [done..|]); try done.
  - apply kept_load_failed.
  - destruct (failed_spec i id quiet ws (opt_read (u "message") error) s) as (H1 & H2 & H3); done.
Qed.

Lemma handle_served s e : wf s → batches [] s → served (asks s e) s (handle t engine_error before s e).
Proof.
  intros Hs Hb. pose proof (λ s', served_kept s s' Hs Hb) as K.
  destruct e as [page|size| |page|a b|key|rows|row|row|v quiet c|a row| |names|tok| |i res|i error|i okay|i]; cbn [handle asks].
  - apply K. unfold handlePageChange. case_match; [apply kept_search | apply kept_load].
  - apply K. unfold handlePageSizeChange. cbv zeta.
    case_match; [apply (kept_search _ _ _ (on_view _ s)) | apply (kept_load _ _ _ _ (on_view _ s))].
  - apply K, kept_search.
  - by apply K, kept_refresh.
  - by apply K.
  - apply K, kept_sort.
  - by apply K.
  - unfold toggleTokenVisibility. cbv zeta. change (opt_read (u "id") (VObj (row_of s row))) with (prop (u "id") (row_of s row)).
    destruct (to_string (prop (u "id") (row_of s row))) as [key|]; destruct (truthy (prop (u "id") (row_of s row))); cbn [negb andb];
      try by apply K.
    destruct (truthy (prop key (showKeys (now s)))); [by apply K|]. by apply served_fetch.
  - by apply served_fetch.
  - by apply served_fetch.
  - apply K, kept_manage.
  - apply K. unfold batchDeleteTokens. case_match; [done|]. by apply (kept_suspend (BatchDelete _)).
  - unfold batchCopyTokens. destruct (selectedKeys (now s)) as [|row rows] eqn:Er; [by apply K|]. cbv zeta.
    pose proof (batch_begins (row :: rows) names s ltac:(done) Hb) as Hbegin.
    match type of Hbegin with batches _ ?s1 =>
      destruct (batch_copy_spec (now s) (next_copy s) _ s1 Hs Hbegin) as [H1 H2 H3] end.
    by split.
  - by apply K.
  - by apply K.
  - destruct (calls s !! i) as [w|] eqn:Hi; [by apply answered_served|by apply K].
  - destruct (calls s !! i) as [w|] eqn:Hi; [by apply failed_served|by apply K].
  - destruct (calls s !! i) as [w|] eqn:Hi; [|by apply K].
    destruct w; try by apply K. eapply served_call; [done..|]. by destruct okay.
  - destruct (timers s !! i) as [[|r]|]; [by apply K| |by apply K]. apply K, (kept_look_back r (with_timers _ s)).
Qed.

Lemma step_served s e : wf s → batches [] s → served (asks s e) s (step s e).
Proof.
  intros H Hb. destruct (handle_served s e H Hb) as [H1 H2 H3]. unfold Tokens.step.
  pose proof (kept_settle (now s) (handle t engine_error before s e)) as Hk.
  split; [by eapply kept_wf| |by eapply kept_batches]. exact (heard_trans _ _ _ _ _ H2 (kept_heard _ _ Hk)).
Qed.

Lemma run_served es s : wf s → batches [] s → served (asked s es) s (run s es).
Proof.
  revert s. induction es as [|e es IH]; intros s Hs Hb; [by apply served_kept|].
  destruct (step_served s e Hs Hb) as [H1 H2 H3]. destruct (IH _ H1 H3) as [H4 H5 H6].
  split; [done| |done]. cbn [asked]. unfold heard. rewrite (Permutation_app_comm (asks s e)).
  exact (heard_trans _ _ _ _ _ H2 H5).
Qed.


(** *** A new page size during a search *)

Lemma settle_same r s : strict_eq (pageSize r) (pageSize (now s)) = true → settle engine_error r s = s.
Proof. unfold settle. by intros ->. Qed.

Lemma pageSize_settle r s : pageSize (now (settle engine_error r s)) = pageSize (now s).
Proof. unfold settle, loadTokens. cbv zeta. repeat case_match; done. Qed.

Lemma sync_frame r payload s s' :
  syncPageData r payload s = Some s' →
  calls s' = calls s ∧ searchKeyword s' = searchKeyword s ∧ searchToken s' = searchToken s.
Proof.
  unfold syncPageData. intros H. destruct (read (u "items") payload) as [items|]; [|done].
  cbn [mbind option_bind] in H. destruct (items_of (value_or items (VArr []))); [|done].
  cbn [mbind option_bind] in H. by injection H as <-.
Qed.

Lemma search_answered_frame r res s :
  let s' := search_answered engine_error r res s in
  calls s' = calls s ∧ searchKeyword s' = searchKeyword s ∧ searchToken s' = searchToken s.
Proof.
  cbv zeta. unfold search_answered. destruct (page_answered r true res s) as [s'|] eqn:E.
  - unfold page_answered in E. destruct (read (u "data") res) as [data|]; [|done]. cbn [mbind option_bind] in E.
    destruct (read (u "success") data) as [ok|]; [|done]. cbn [mbind option_bind] in E.
    destruct (truthy ok); [|by injection E as <-]. by apply sync_frame in E.
  - repeat case_match; done.
Qed.

Lemma items_of_objects items : items_of (VArr (map VObj items)) = Some items.
Proof. simpl. induction items as [|o items IH]; simpl; [done|]. by rewrite IH. Qed.

Lemma new_rows_read rows st :
  map (λ i, default ([] : props) ((st ++ rows) !! i)) (seq (length st) (length rows)) = rows.
Proof.
  apply list_eq. intros i. rewrite list_lookup_fmap. destruct (rows !! i) as [o|] eqn:Ei.
  - rewrite lookup_seq_lt by by eapply lookup_lt_Some. simpl.
    rewrite lookup_app_r by lia. replace (length st + i - length st) with i by lia. by rewrite Ei.
  - apply lookup_ge_None in Ei. by rewrite lookup_seq_ge.
Qed.

(** The answer of a page of good rows. *)
Definition page_of (items : list props) (total page size : value) : value :=
  VObj [(u "data", VObj [(u "success", VBool true); (u "data", VObj [
    (u "items", VArr (map VObj items)); (u "total", total); (u "page", page); (u "page_size", size)])])].

Lemma load_answered_page r k items total page size s :
  truthy page = true → truthy total = true → truthy size = true →
  load_answered engine_error r k (page_of items total page size) s =
  load_ended r k (on_view (setLoading false) (with_store (store s ++ items) (on_view (λ v, setShowKeys []
    (setPages page total size (setTokens (new_rows items s) v))) s))).
Proof.
  intros Hp Ht Hz. unfold load_answered, page_answered. set (res := page_of _ _ _ _).
  set (data := opt_read (u "data") res). set (payload := opt_read (u "data") data).
  change (read (u "data") res) with (Some data). cbn [mbind option_bind].
  change (read (u "success") data) with (Some (VBool true)). cbn [mbind option_bind truthy].
  fold payload. unfold syncPageData. change (read (u "items") payload) with (Some (VArr (map VObj items))).
  change (opt_read (u "page") payload) with page. change (opt_read (u "total") payload) with total.
  change (opt_read (u "page_size") payload) with size. cbn [mbind option_bind].
  change (value_or (VArr (map VObj items)) (VArr [])) with (VArr (map VObj items)).
  rewrite items_of_objects. cbn [mbind option_bind]. unfold value_or. by rewrite Hp, Ht, Hz.
Qed.

(** a new page size loses the search: besides the search with the new size, the
    effect on the size loads the first page of all tokens and leaves the search
    mode; answered last, that load fills the table with tokens that the search still
    in the form does not ask for, and turning the page then loads all tokens. *)
Theorem page_size_loses_search s size items total page url url' found :
  searchMode (now s) = true → has_search s = true → strict_eq (pageSize (now s)) size = false →
  strict_eq size size = true → natural_or (pageSize (now s)) size = size →
  search_url (searchKeyword s) (searchToken s) (num_value 1) size = Some url →
  load_url (num_value 1) size = Some url' →
  Forall (λ v, truthy v = true) [page; total; size] →
  let s1 := step s (PageSizeChange size) in
  let s2 := step s1 (Answer (length (calls s)) found) in
  let s3 := step s2 (Answer (length (calls s)) (page_of items total page size)) in
  log s1 = Get url' :: Get url :: log s ∧ searchMode (now s1) = false ∧
  (pageSize (now s2) = size →
    map (row_of s3) (tokens (now s3)) = items ∧ tokenCount (now s3) = total ∧ has_search s3 = true).
Proof.
  intros Hm Hs Hne Heq Hnat Hurl Hurl' Hok s1 s2 s3. rewrite !Forall_cons in Hok.
  destruct Hok as (Hp & Ht & Hz & _).
  assert (∃ r, s1 = suspend (Load r Initial) (emit (Get url') (on_view (λ v, setSearchMode false (setLoading true v))
    (suspend (Search (now s)) (emit (Get url) (on_view (setSearching true) (on_view (setPageSize size) s))))))) as [r E].
  { eexists. unfold s1, Tokens.step. simpl handle. unfold handlePageSizeChange. cbv zeta. rewrite Hm.
    unfold searchTokens. cbv zeta. change (natural_or (num_value 1) (num_value 1)) with (num_value 1).
    rewrite Hnat. change (has_search (on_view (setPageSize size) s)) with (has_search s). rewrite Hs. simpl negb. cbv iota.
    change (searchKeyword (on_view _ _)) with (searchKeyword s). change (searchToken (on_view _ _)) with (searchToken s).
    rewrite Hurl. unfold settle. simpl pageSize. rewrite Hne. unfold loadTokens. cbv zeta. by rewrite Hurl'. }
  split; [by rewrite E|]. split; [by rewrite E|]. intros Hsize.
  assert (∃ s2', s2 = settle engine_error (now s1) s2' ∧ calls s2' = calls s ++ [Load r Initial] ∧
    has_search s2' = true ∧ pageSize (now s1) = size) as (s2' & E2 & Hc & Hf & Hz1).
  { eexists. split; [unfold s2, Tokens.step; reflexivity|]. rewrite E. simpl.
    rewrite <- app_assoc. simpl. rewrite list_lookup_middle by done. simpl.
    match goal with |- context [search_answered _ ?r0 ?res0 ?s0] =>
      destruct (search_answered_frame r0 res0 s0) as (F1 & F2 & F3) end.
    unfold has_search. rewrite F1, F2, F3. simpl. split_and!; [|exact Hs|done].
    rewrite <- app_assoc. simpl. by rewrite delete_middle. }
  assert (s2 = s2') as ->.
  { rewrite E2. apply settle_same. rewrite E2, pageSize_settle in Hsize. by rewrite Hz1, Hsize. }
  unfold s3, Tokens.step. simpl. rewrite Hc, list_lookup_middle by done. simpl.
  rewrite load_answered_page by done. simpl. rewrite settle_same by (simpl; by rewrite Hsize).
  simpl. split_and!; [|done|exact Hf].
  unfold row_of. simpl. apply new_rows_read.
Qed.
End laws.

(** A search for a name, its answer, and a page size of 20. *)
Definition demo_row (id : Z) (name : string) : props := [(u "id", num_value id); (u "name", VStr (u name))].
Definition demo : state :=
  let one_page rows := page_of rows (num_value 2) (num_value 1) (num_value 10) in
  run id VNull (λ _ _, true) (init VNull)
    [Answer 0 (one_page [demo_row 1 "a"; demo_row 2 "b"]); Form (u "a") []; SearchSubmit; Answer 0 (one_page [demo_row 1 "a"])].

(** A row shows its key, another button copies it and a batch copies both: one request for
    each token, and each of them hears. *)
Example one_request_for_all :
  let load := VObj [(u "data", VObj [(u "success", VBool true); (u "data", VObj [
    (u "items", VArr [VObj (demo_row 1 "a"); VObj (demo_row 2 "b")])])])] in
  let key k := VObj [(u "data", VObj [(u "success", VBool true); (u "data", VObj [(u "key", VStr (u k))])])] in
  let refused := VObj [(u "data", VObj [(u "success", VBool false); (u "message", VStr (u "gone"))])] in
  let clicks := [Answer 0 load; Select [0; 1]; ToggleKey 0; CopySelected false; CopyTokenKey 1] in
  let run := run id VNull (λ _ _, true) (init VNull) in
  (take 2 (log (run clicks)),
   firstn 3 (log (run (clicks ++ [Answer 0 (key "A"); Answer 0 (key "B")]))),
   firstn 3 (log (run (clicks ++ [Answer 0 (key "A"); Answer 0 refused])))) =
  ([Post (u "/api/token/2/key") VUndef; Post (u "/api/token/1/key") VUndef],
   [Clipboard Button (u "sk-B"); Clipboard (Batch 0) (u "sk-A" ++ [10%N] ++ u "sk-B" ++ [10%N]); KeyShown (u "1")],
   [Rejected CopyKey (error_value (VStr (u "gone"))); BatchFailed 0 (VStr (u "gone")); KeyShown (u "1")]).
Proof. vm_compute. reflexivity. Qed.

Lemma page_size_loses_search_witness :
  let items := [demo_row 1 "a"; demo_row 2 "b"] in
  let found := page_of [demo_row 1 "a"] (num_value 1) (num_value 1) (num_value 20) in
  let s2 := step id VNull (λ _ _, true) (step id VNull (λ _ _, true) demo (PageSizeChange (num_value 20))) (Answer 0 found) in
  let s3 := step id VNull (λ _ _, true) s2 (Answer 0 (page_of items (num_value 2) (num_value 1) (num_value 20))) in
  map (row_of s3) (tokens (now s3)) = items ∧ tokenCount (now s3) = num_value 2 ∧ has_search s3 = true.
Proof.
  cbv zeta. refine (proj2 (proj2 (page_size_loses_search id VNull (λ _ _, true) demo (num_value 20)
    [demo_row 1 "a"; demo_row 2 "b"] (num_value 2) (num_value 1) _ _
    (page_of [demo_row 1 "a"] (num_value 1) (num_value 1) (num_value 20)) _ _ _ _ _ _ _ _)) _).
  - vm_compute. reflexivity.
  - vm_compute. reflexivity.
  - vm_compute. reflexivity.
  - vm_compute. reflexivity.
  - vm_compute. reflexivity.
  - vm_compute. reflexivity.
  - vm_compute. reflexivity.
  - apply Forall_cons_2; [reflexivity|]. apply Forall_cons_2; [reflexivity|]. apply Forall_cons_2; [reflexivity|].
    apply Forall_nil_2.
  - vm_compute. reflexivity.
Defined.
