(* ===== verification/OptionForms.v ===== *)
(** * Forms over the options of the server
    What the forms of the settings share: [compareObjects] of
    [src/web/src/helpers/utils.jsx], the requests that save what was changed and the
    [Promise.all] that waits for them, and how the pages
    [src/web/src/components/settings/OperationSetting.jsx] and [PerformanceSetting.jsx]
    read the list of options. *)

From Stdlib Require Import SpecFloat.
From stdpp Require Import base numbers option strings sets list.
From S2P Require Import Prelude JsString JsNumber JsValue JsSame JsOps Session.

(** ** What was changed *)

Record change := mk_change { key : jsstr; oldValue : value; newValue : value }.

(** The properties that both objects have with values that differ; an array or object
    of one is never that of the other. *)
Definition compareObjects (oldObject newObject : props) : list change :=
  omap (λ kv,
    new ← get kv.1 newObject;
    if strict_eq kv.2 new then None else Some (mk_change kv.1 kv.2 new)) oldObject.

Definition is_boolean (v : value) : bool := match v with VBool _ => true | _ => false end.
Definition is_number (v : value) : bool := match v with VNum _ => true | _ => false end.

(** Booleans are sent as texts, other values as they are. *)
Definition plain_value (v : value) : value :=
  match v with VBool b => VStr (if b then u "true" else u "false") | _ => v end.

(** What a click on save asks for: nothing was changed, an error, or requests. *)
Inductive submission := Unchanged | Refused (text : jsstr) | Puts (requests : list (jsstr * value)).

Definition submission_of (changes : list change) (value_of : jsstr → value) : submission :=
  match changes with
  | [] => Unchanged
  | _ => Puts (map (λ c, (key c, value_of (key c))) changes)
  end.

(** ** A form *)

Record form := mk_form { loading : bool; inputs : props; inputsRow : props }.

Definition setLoading b (f : form) : form := mk_form b (inputs f) (inputsRow f).
Definition setInputs x (f : form) : form := mk_form (loading f) x (inputsRow f).
Definition setField k v (f : form) : form := setInputs (set k v (inputs f)) f.

(** The effect of other options: what is shown and what changes are compared with. *)
Definition show_options (current : props) (f : form) : form := mk_form (loading f) current current.

(** [for (let key in options) if (Object.keys(inputs).includes(key))]: the options of a
    form are those that it shows already. *)
Definition pick (shown options : props) : props :=
  fold_left (λ acc kv, match get kv.1 shown with Some _ => set kv.1 kv.2 acc | None => acc end) options [].

(** ** Requests that are sent together *)

(** The answers of [Promise.all], once each request has one. *)
Definition all_answers (got : list (option value)) : option (list value) := mapM (λ x, x) got.

Inductive outcome := Silent | Partly | Saved.

(** [res.includes(undefined)], for one request and for more. *)
Definition outcome_of (res : list value) : outcome :=
  if existsb is_undef res then match res with [_] => Silent | _ => Partly end else Saved.

(** ** The options of a page *)

(** [success], [message] and [data] of an answer; [None] is a TypeError. *)
Definition parts_of (res : value) : option (bool * value * value) :=
  body ← read (u "data") res;
  match body with
  | VUndef | VNull => None
  | _ => Some (truthy (opt_read (u "success") body), opt_read (u "message") body, opt_read (u "data") body)
  end.

(** One item of the list, where [shown] are the options of the render that asked. *)
Definition take_option (lower : jsstr → jsstr) (shown acc : props) (item : value) : option props :=
  k ← read (u "key") item; k ← to_string k;
  let v := opt_read (u "value") item in
  Some (set k (if is_boolean (prop k shown) then VBool (toBoolean lower v) else v) acc).

(** [data.forEach(...)]; [None] when it throws. *)
Definition read_options (lower : jsstr → jsstr) (shown : props) (data : value) : option props :=
  match data with
  | VArr l => fold_left (λ acc item, o ← acc; take_option lower shown o item) l (Some [])
  | _ => None
  end.

Example compare_ex :
  map key (compareObjects [(u "a", VBool true); (u "b", VStr (u "x")); (u "c", VNull)] [(u "a", VBool false); (u "b", VStr (u "x"))]) = [u "a"].
Proof. reflexivity. Qed.
Example options_ex :
  read_options (λ s, s) [(u "on", VBool false)]
    (VArr [VObj [(u "key", VStr (u "on")); (u "value", VStr (u "1"))]; VObj [(u "key", VStr (u "n")); (u "value", VStr (u "5"))]]) =
  Some [(u "on", VBool true); (u "n", VStr (u "5"))].
Proof. reflexivity. Qed.

(** * Laws of the forms over options
    What [compareObjects] finds, what the forms take of the options, and when the requests
    of a save have all been answered. *)

(** ** Objects with distinct keys *)

Lemma get_In {V} k (v : V) o : NoDup (keys o) → (k, v) ∈ o ↔ get k o = Some v.
Proof.
  unfold keys. induction o as [|[k' v'] o IH]; intros Hn; simpl; [set_solver|].
  apply NoDup_cons in Hn as [Hk Hn]. rewrite elem_of_cons, IH by done. case_decide as E; [subst k'|naive_solver].
  split; [|intros [= ->]; by left]. intros [[= ->]|H]; [done|]. exfalso. apply Hk. apply IH in H; [|done].
  apply list_elem_of_fmap. by exists (k, v).
Qed.

Lemma get_In_keys {V} k (o : list (jsstr * V)) : is_Some (get k o) ↔ k ∈ keys o.
Proof.
  rewrite <- not_eq_None_Some, get_None. split; [|tauto]. apply dec_stable.
Qed.

Lemma get_spread {V} k (a b : list (jsstr * V)) :
  NoDup (keys b) → get k (spread a b) = match get k b with Some v => Some v | None => get k a end.
Proof. apply get_assign. Qed.

(** ** Changes *)

Lemma compare_spec c a b :
  NoDup (keys a) →
  c ∈ compareObjects a b ↔
  get (key c) a = Some (oldValue c) ∧ get (key c) b = Some (newValue c) ∧ strict_eq (oldValue c) (newValue c) = false.
Proof.
  intros Hn. unfold compareObjects. rewrite list_elem_of_omap. split.
  - intros ([k v] & Hin & Hc). simpl in Hc. destruct (get k b) as [w|] eqn:Hb; [|done]. simpl in Hc.
    destruct (strict_eq v w) eqn:E; simplify_eq. simpl. split_and!; [by apply get_In|done..].
  - destruct c as [k v w]. simpl. intros (Ha & Hb & E). exists (k, v). split; [by apply get_In|]. simpl. rewrite Hb. simpl. by rewrite E.
Qed.

Lemma compare_nil a b :
  (∀ k v w, get k a = Some v → get k b = Some w → strict_eq v w = true) → NoDup (keys a) → compareObjects a b = [].
Proof.
  intros H Hn. apply elem_of_nil_inv. intros c Hc. apply compare_spec in Hc as (Ha & Hb & E); [|done].
  by rewrite (H _ _ _ Ha Hb) in E.
Qed.

Lemma compare_keys_NoDup a b : NoDup (keys a) → NoDup (map key (compareObjects a b)).
Proof.
  unfold keys. induction a as [|[k v] a IH]; intros Hn; [constructor|]. apply NoDup_cons in Hn as [Hk Hn].
  unfold compareObjects. simpl. destruct (get k b) as [w|]; simpl; [|by apply IH].
  destruct (strict_eq v w); simpl; [by apply IH|]. apply NoDup_cons. split; [|by apply IH].
  intros (c & -> & Hc)%list_elem_of_fmap. apply list_elem_of_omap in Hc as ([k' v'] & Hin & Hc). simpl in Hc.
  destruct (get k' b) as [w'|]; simpl in Hc; [|done]. destruct (strict_eq v' w'); simplify_eq. apply Hk. simpl.
  apply list_elem_of_fmap. by exists (k', v').
Qed.

(** What is requested: the changed keys, each once, with the values that [value_of]
    gives. *)
Lemma submission_requests changes value_of rs k v :
  submission_of changes value_of = Puts rs →
  (k, v) ∈ rs ↔ v = value_of k ∧ ∃ c, c ∈ changes ∧ key c = k.
Proof.
  unfold submission_of. destruct changes as [|c l]; [done|]. intros [= <-].
  rewrite <- (map_cons (λ c, (key c, value_of (key c))) c l). rewrite list_elem_of_fmap. naive_solver.
Qed.

Lemma submission_keys changes value_of rs : submission_of changes value_of = Puts rs → map fst rs = map key changes.
Proof. unfold submission_of. destruct changes; [done|]. intros [= <-]. simpl. f_equal. by rewrite map_map. Qed.

(** ** Options *)

Lemma pick_from (shown options acc : props) k :
  NoDup (keys options) →
  get k (fold_left (λ acc kv, match get kv.1 shown with Some _ => set kv.1 kv.2 acc | None => acc end) options acc) =
  match get k shown, get k options with Some _, Some v => Some v | _, _ => get k acc end.
Proof.
  unfold keys. revert acc. induction options as [|[k' v'] o IH]; intros acc Hn; simpl; [by destruct (get k shown)|].
  apply NoDup_cons in Hn as [Hk Hn]. simpl in Hk. rewrite IH by done.
  case_decide as E; [subst k'|].
  - assert (get k o = None) as -> by (by apply get_None). destruct (get k shown) eqn:Es; [|done]. by rewrite get_set_eq.
  - destruct (get k shown), (get k o); try done; destruct (get k' shown); rewrite ?get_set_ne; done.
Qed.

Lemma get_pick shown options k :
  NoDup (keys options) → get k (pick shown options) = match get k shown with Some _ => get k options | None => None end.
Proof. intros Hn. unfold pick. rewrite pick_from by done. by destruct (get k shown), (get k options). Qed.

Lemma pick_sorted shown options : props_sorted (pick shown options).
Proof.
  unfold pick. generalize (I : props_sorted (@nil (jsstr * value))). generalize (@nil (jsstr * value)).
  induction options as [|[k v] o IH]; intros acc H; simpl; [done|]. apply IH. destruct (get k shown); auto with js.
Qed.

Lemma take_option_sorted lower shown acc item o :
  props_sorted acc → take_option lower shown acc item = Some o → props_sorted o.
Proof.
  intros Hs. unfold take_option. destruct (read _ item) as [k|]; [|done]. simpl. destruct (to_string k); [|done].
  intros [= <-]. by apply props_sorted_set.
Qed.

Lemma read_options_sorted lower shown data o : read_options lower shown data = Some o → props_sorted o.
Proof.
  destruct data; try done. simpl. assert (props_sorted (@nil (jsstr * value))) as H by done. revert H. generalize (@nil (jsstr * value)).
  induction l as [|x l IH]; intros acc H; simpl; [by intros [= <-]|].
  destruct (take_option lower shown acc x) as [acc'|] eqn:E.
  - simpl. apply IH. by eapply take_option_sorted.
  - simpl. clear. intros E. exfalso. revert E. induction l as [|y l IH]; [done|]. simpl. done.
Qed.

(** ** Answers of several requests *)

Lemma all_answers_Some got l : all_answers got = Some l ↔ got = map Some l.
Proof.
  unfold all_answers. rewrite mapM_Some. split.
  - induction 1; simpl; congruence.
  - intros ->. induction l; simpl; by constructor.
Qed.

Lemma outcome_defined res : Forall (λ r, r ≠ VUndef) res → outcome_of res = Saved.
Proof.
  intros H. unfold outcome_of. assert (existsb is_undef res = false) as ->; [|done].
  induction H as [|r l Hr Hl IH]; simpl; [done|]. rewrite IH. by destruct r.
Qed.
