(* ===== verification/OperationSettings.v ===== *)
(** * Operation settings
    [src/web/src/components/settings/OperationSetting.jsx]: a page of the server's options
    with five forms of [src/web/src/pages/Setting/Operation]: [SettingsGeneral.jsx],
    [SettingsLog.jsx], [SettingsMonitoring.jsx], [SettingsChannelAffinityQuick.jsx] and
    [SettingsCreditLimit.jsx].  Each form keeps what it shows and what it was shown from;
    saving sends what differs, and then the page asks for the options again. *)

From Stdlib Require Import SpecFloat.
From stdpp Require Import base numbers option strings functions sets list.
From S2P Require Import Prelude JsString JsNumber JsValue Json JsOps Session StatusCodeRules OptionForms.

(** ** The forms *)

Inductive form_name := General | Log | Monitoring | Affinity | Credit.
#[export] Instance form_name_eq_dec : EqDecision form_name.
Proof. solve_decision. Defined.

Definition texts (l : list string) : list jsstr := map (λ s, u s) l.

(** [SettingsGeneral] shows each of its fields, with a value of its own for the options
    that are not listed. *)
Definition formFieldKeys : list jsstr := texts
  ["RetryTimes"; "SystemName"; "ServerAddress"; "RegisterEnabled"; "UniversalPassword"; "SMTPServer"; "SMTPPort";
   "SMTPAccount"; "SMTPFrom"; "SMTPToken"; "SMTPSSLEnabled"].

Definition general_default (k : jsstr) : value :=
  if decide (k ∈ texts ["SMTPSSLEnabled"; "RegisterEnabled"]) then VBool false else VStr [].

Definition general_options (options : props) : props :=
  fold_left (λ acc k, set k (default (general_default k) (get k options)) acc) formFieldKeys [].

Definition general_first : props :=
  [(u "RetryTimes", VStr []); (u "SystemName", VStr (u "API")); (u "ServerAddress", VStr [])].

Definition changes_of (f : form) : list change := compareObjects (inputs f) (inputsRow f).

Definition general_submission (f : form) : submission :=
  submission_of (changes_of f) (λ k, plain_value (prop k (inputs f))).

(** [SettingsLog]; its date is a field of the page's state below. *)
Definition log_first : props := [(u "LogConsumeEnabled", VBool false)].

Definition log_load (options : props) (f : form) : form :=
  let current := pick (inputs f) options in
  mk_form (loading f) (spread (inputs f) current) current.

Definition log_submission (f : form) : submission :=
  submission_of (filter (λ c, key c ≠ u "historyTimestamp") (changes_of f)) (λ k, plain_value (prop k (inputs f))).

(** [SettingsMonitoring]; [None] where the rules cannot be read, which throws in the
    render. *)
Definition retry_codes : jsstr := u "100-199,300-399,401-407,409-499,500-503,505-523,525-599".

Definition monitoring_first : props :=
  [(u "AutomaticDisableChannelEnabled", VBool false); (u "AutomaticDisableKeywords", VStr []);
   (u "AutomaticDisableStatusCodes", VStr (u "401")); (u "AutomaticRetryStatusCodes", VStr retry_codes)].

Definition parsed_codes (k : string) (f : form) : option parse_result :=
  parseHttpStatusCodeRules (value_or (prop (u k) (inputs f)) (VStr [])).

Definition invalid_details (p : parse_result) : jsstr :=
  match invalidTokens p with [] => [] | l => u ": " ++ join (u ", ") l end.

Definition monitoring_value (disable retry : parse_result) (f : form) (k : jsstr) : value :=
  let v := prop k (inputs f) in
  if is_boolean v then plain_value v
  else if decide (k = u "AutomaticDisableStatusCodes") then VStr (normalized disable)
  else if decide (k = u "AutomaticRetryStatusCodes") then VStr (normalized retry)
  else v.

Definition monitoring_submission (t : jsstr → jsstr) (f : form) : option submission :=
  disable ← parsed_codes "AutomaticDisableStatusCodes" f; retry ← parsed_codes "AutomaticRetryStatusCodes" f;
  Some (match changes_of f with
  | [] => Unchanged
  | changes =>
      if negb (ok disable) then Refused (t (u "自动禁用状态码格式不正确") ++ invalid_details disable)
      else if negb (ok retry) then Refused (t (u "自动重试状态码格式不正确") ++ invalid_details retry)
      else submission_of changes (monitoring_value disable retry f)
  end).

(** [SettingsCreditLimit] *)
Definition quota_keys : list jsstr := texts ["QuotaForNewUser"; "PreConsumedQuota"; "QuotaForInviter"; "QuotaForInvitee"].
Definition pre_consume_key : jsstr := u "quota_setting.enable_free_model_pre_consume".
Definition credit_first : props := map (λ k, (k, VStr [])) quota_keys ++ [(pre_consume_key, VBool true)].
Definition credit_submission (f : form) : submission :=
  submission_of (changes_of f) (λ k, plain_value (prop k (inputs f))).

(** Monitoring and credit take the options that they show. *)
Definition pick_load (options : props) (f : form) : form := show_options (pick (inputs f) options) f.

(** ** Rules of the channel affinity *)

Definition KEY_ENABLED : jsstr := u "channel_affinity_setting.enabled".
Definition KEY_RULES : jsstr := u "channel_affinity_setting.rules".
Definition no_rules : value := VStr (u "[]").
Definition affinity_first : props := [(KEY_ENABLED, VBool false); (KEY_RULES, no_rules)].

(** [None] when the name cannot be trimmed. *)
Definition rule_of (index : nat) (rule : value) : option props :=
  match value_or (opt_read (u "name") rule) (VStr []) with
  | VStr text =>
      let name := str_or (trim text) (u "rule-" ++ dec_N (N.of_nat (S index))) in
      Some (set (u "skip_retry_on_failure") (VBool (truthy (opt_read (u "skip_retry_on_failure") rule)))
        (set (u "name") (VStr name) (spread [] (own_entries (value_or rule (VObj []))))))
  | _ => None
  end.

Definition parseRules (jsonString : value) : list props :=
  match to_string (value_or jsonString no_rules) ≫= json_parse with
  | Some (VArr l) => default [] (mapM (λ x, x) (imap rule_of l))
  | _ => []
  end.

Definition serializeRules (rules : list props) : jsstr := ser [] [] (VArr (map (λ r, VObj (del (u "id") r)) rules)).

Definition skips (rule : props) : bool := truthy (prop (u "skip_retry_on_failure") rule).
Definition skipRetryCount (rules : list props) : nat := length (List.filter skips rules).

Definition set_skip (b : bool) (rule : props) : props := set (u "skip_retry_on_failure") (VBool b) rule.
Definition toggled (name : value) (b : bool) (rules : list props) : list props :=
  map (λ r, if strict_eq (prop (u "name") r) name then set_skip b r else r) rules.

Definition affinity_option (lower : jsstr → jsstr) (acc : props) (kv : jsstr * value) : props :=
  if decide (kv.1 = KEY_ENABLED) then set kv.1 (VBool (toBoolean lower kv.2)) acc
  else if decide (kv.1 = KEY_RULES) then set kv.1 (value_or kv.2 no_rules) acc
  else acc.

Definition affinity_load (lower : jsstr → jsstr) (options : props) (f : form) : form :=
  show_options (fold_left (affinity_option lower) options (inputs f)) f.

Definition compact_rules (f : form) : option jsstr :=
  text ← to_string (value_or (prop KEY_RULES (inputs f)) no_rules); v ← json_parse text; Some (ser [] [] v).

(** The other field is a boolean. *)
Definition affinity_value (compact : jsstr) (f : form) (k : jsstr) : value :=
  if decide (k = KEY_RULES) then VStr compact else plain_value (prop k (inputs f)).

Definition affinity_submission (t : jsstr → jsstr) (f : form) : submission :=
  match changes_of f with
  | [] => Unchanged
  | changes =>
      match compact_rules f with
      | None => Refused (t (u "规则 JSON 格式不正确"))
      | Some compact => submission_of changes (affinity_value compact f)
      end
  end.

(** ** The page *)

Record view := mk_view {
  options : props; page_loading : bool; forms : form_name → form;
  rules : list props; historyTimestamp : option Z; cleaning : bool;
}.

Inductive effect :=
  | GetOptions
  | Put (key : jsstr) (v : value)
  | DeleteLogs (url : jsstr)
  | AskClean (currentTime targetTime : jsstr) (days : option Z)
  | SetValues (n : form_name) (values : props)
  | SetValue (key : jsstr) (text : jsstr)
  | ShowError (v : value)
  | ShowWarning (text : jsstr)
  | ShowSuccess (text : jsstr).

(** Requests and the dialog of the deletion; [shown] are the options of the render that
    asked. *)
Inductive waiting :=
  | Saving (n : form_name) (shown : props) (got : list (option value))
  | Refreshing (shown : props)
  | Asked (target : Z)
  | Cleaning.

Record state := mk_state { now : view; calls : list waiting; log : list effect }.

Definition emit e s := mk_state (now s) (calls s) (e :: log s).
Definition with_calls l s := mk_state (now s) l (log s).
Definition suspend (w : waiting) (s : state) : state := with_calls (calls s ++ [w]) s.
Definition on_view (f : view → view) (s : state) : state := mk_state (f (now s)) (calls s) (log s).

Definition setPageLoading b v := mk_view (options v) b (forms v) (rules v) (historyTimestamp v) (cleaning v).
Definition setForm n (f : form → form) v := mk_view (options v) (page_loading v) (<[n := f (forms v n)]> (forms v)) (rules v) (historyTimestamp v) (cleaning v).
Definition setRules x v := mk_view (options v) (page_loading v) (forms v) x (historyTimestamp v) (cleaning v).
Definition setHistory x v := mk_view (options v) (page_loading v) (forms v) (rules v) x (cleaning v).
Definition setCleaning b v := mk_view (options v) (page_loading v) (forms v) (rules v) (historyTimestamp v) b.

Section operation_settings.
(** [lower]: [toLowerCase]; [format] and [diff_days]: the texts and the distance of dates
    of dayjs; [engine_error]: the text of what the engine throws. *)
Context (t lower : jsstr → jsstr) (format : Z → jsstr) (diff_days : Z → Z → Z) (engine_error : value).

Definition fails (text : string) (s : state) : state := emit (ShowError (VStr (t (u text)))) s.
Definition tells (text : string) (s : state) : state := emit (ShowSuccess (t (u text))) s.
Definition warns (text : jsstr) (s : state) : state := emit (ShowWarning (t text)) s.

(** The effects of the forms when the page has other options. *)
Definition load_form (n : form_name) (options : props) (f : form) : form :=
  match n with
  | General => show_options (general_options options) f
  | Log => log_load options f
  | Monitoring | Credit => pick_load options f
  | Affinity => affinity_load lower options f
  end.

Definition form_names : list form_name := [General; Log; Monitoring; Affinity; Credit].

(** The form that is shown gets the values of the options it took. *)
Definition values_shown (v : view) : list effect := map (λ n, SetValues n (inputsRow (forms v n))) form_names.

Definition apply_options (new : props) (v : view) : view :=
  let forms' := λ n, load_form n new (forms v n) in
  mk_view new (page_loading v) forms' (parseRules (prop KEY_RULES (inputs (forms' Affinity)))) (historyTimestamp v) (cleaning v).

Definition options_changed (new : props) (s : state) : state :=
  let v := apply_options new (now s) in
  mk_state v (calls s) (rev (values_shown v) ++ log s).

(** [onRefresh] with the options of a render. *)
Definition onRefresh (shown : props) (s : state) : state :=
  suspend (Refreshing shown) (emit GetOptions (on_view (setPageLoading true) s)).

Definition refresh_failed (s : state) : state := on_view (setPageLoading false) (emit (ShowError (VStr (u "刷新失败"))) s).

Definition refreshed (shown : props) (res : value) (s : state) : state :=
  match parts_of res with
  | None => refresh_failed s
  | Some (true, _, data) =>
      match read_options lower shown data with
      | None => refresh_failed s
      | Some new => on_view (setPageLoading false) (options_changed new s)
      end
  | Some (false, message, _) => on_view (setPageLoading false) (emit (ShowError message) s)
  end.

(** *** Saving *)

Definition submission_of_form (n : form_name) (f : form) : option submission :=
  match n with
  | General => Some (general_submission f)
  | Log => Some (log_submission f)
  | Monitoring => monitoring_submission t f
  | Affinity => Some (affinity_submission t f)
  | Credit => Some (credit_submission f)
  end.

Definition send (requests : list (jsstr * value)) (s : state) : state :=
  fold_left (λ s r, emit (Put r.1 r.2) s) requests s.

Definition onSubmit (n : form_name) (s : state) : state :=
  match submission_of_form n (forms (now s) n) with
  | None => s
  | Some Unchanged => warns (u "你似乎并没有修改什么") s
  | Some (Refused text) => emit (ShowError (VStr text)) s
  | Some (Puts requests) =>
      suspend (Saving n (options (now s)) (map (λ _, None) requests)) (on_view (setForm n (setLoading true)) (send requests s))
  end.

Definition all_saved (n : form_name) (shown : props) (res : list value) (s : state) : state :=
  on_view (setForm n (setLoading false))
    match outcome_of res with
    | Silent => s
    | Partly => fails "部分保存失败，请重试" s
    | Saved => onRefresh shown (tells "保存成功" s)
    end.

Definition save_failed (n : form_name) (s : state) : state :=
  on_view (setForm n (setLoading false)) (fails "保存失败，请重试" s).

(** *** Deleting old logs *)

Definition days_shown (current target : Z) : option Z :=
  let d := diff_days current target in if (0 <? d)%Z then Some d else None.

Definition onCleanHistoryLog (current : Z) (s : state) : state :=
  match historyTimestamp (now s) with
  | None => fails "请选择日志记录时间" s
  | Some target => suspend (Asked target) (emit (AskClean (format current) (format target) (days_shown current target)) s)
  end.

(** [Date.parse] reads the text of the date, which has whole seconds. *)
Definition clean_url (target : Z) : jsstr := u "/api/log/?target_timestamp=" ++ dec_Z (target / 1000).

Definition clean_confirmed (target : Z) (s : state) : state :=
  suspend Cleaning (emit (DeleteLogs (clean_url target)) (on_view (setCleaning true) s)).

Definition clean_failed (message : value) (s : state) : state :=
  on_view (setCleaning false) (emit (ShowError message) s).

Definition cleaned (res : value) (s : state) : state :=
  match parts_of res with
  | None => clean_failed engine_error s
  | Some (true, _, data) =>
      match to_string data with
      | Some count => on_view (setCleaning false) (emit (ShowSuccess (count ++ u " " ++ t (u "条日志已清理！"))) s)
      | None => clean_failed engine_error s
      end
  | Some (false, message, _) =>
      match to_string message with
      | Some text => clean_failed (VStr (t (u "日志清理失败：") ++ text)) s
      | None => clean_failed engine_error s
      end
  end.

(** *** Rules *)

Definition updateRulesState (nextRules : list props) (s : state) : state :=
  let text := serializeRules nextRules in
  emit (SetValue KEY_RULES text) (on_view (λ v, setForm Affinity (setField KEY_RULES (VStr text)) (setRules nextRules v)) s).

Definition toggleRuleSkipRetry (name : value) (b : bool) (s : state) : state :=
  updateRulesState (toggled name b (rules (now s))) s.

Definition allowRetryForAllRules (s : state) : state :=
  match skipRetryCount (rules (now s)) with
  | O => warns (j "没有规则启用`失败后不重试`，无需操作") s
  | _ => emit (ShowSuccess (t (j "已为全部规则关闭`失败后不重试`，请点击下方`保存`以生效")))
           (updateRulesState (map (set_skip false) (rules (now s))) s)
  end.

(** ** Steps *)

(** What the change of a field sets; [None] is no field of the form, or a value without a
    text. *)
Definition field_value (n : form_name) (k : jsstr) (v : value) : option value :=
  match n with
  | General => if decide (k ∈ formFieldKeys) then Some v else None
  | Log => if decide (k = u "LogConsumeEnabled") then Some v else None
  | Monitoring => if decide (k ∈ keys monitoring_first) then Some v else None
  | Affinity => if decide (k = KEY_ENABLED) then Some v else None
  | Credit => if decide (k ∈ quota_keys) then VStr <$> to_string v
              else if decide (k = pre_consume_key) then Some v else None
  end.

Inductive event :=
  | Edit (n : form_name) (k : jsstr) (v : value)
  | PickHistory (target : option Z)
  | Submit (n : form_name)
  | CleanHistory (current : Z)
  | Confirm (i : nat)
  | Cancel (i : nat)
  | Toggle (name : value) (b : bool)
  | AllowAll
  | Answer (i : nat) (res : value)
  | PutAnswer (i k : nat) (res : value)
  | Failure (i : nat) (error : value).

Definition take_call (i : nat) (s : state) : state := with_calls (delete i (calls s)) s.

Definition failed (w : waiting) (error : value) (s : state) : state :=
  match w with
  | Saving n _ _ => save_failed n s
  | Refreshing _ => refresh_failed s
  | Cleaning => clean_failed (opt_read (u "message") error) s
  | Asked _ => s
  end.

Definition put_answered (i k : nat) (res : value) (s : state) : state :=
  match calls s !! i with
  | Some (Saving n shown got) =>
      match got !! k with
      | Some None =>
          let got := <[k := Some res]> got in
          match all_answers got with
          | Some answers => all_saved n shown answers (take_call i s)
          | None => with_calls (<[i := Saving n shown got]> (calls s)) s
          end
      | _ => s
      end
  | _ => s
  end.

Definition step (s : state) (e : event) : state :=
  match e with
  | Edit n k v => match field_value n k v with Some v => on_view (setForm n (setField k v)) s | None => s end
  | PickHistory target => on_view (setHistory target) s
  | Submit n => onSubmit n s
  | CleanHistory current => onCleanHistoryLog current s
  | Confirm i => match calls s !! i with Some (Asked target) => clean_confirmed target (take_call i s) | _ => s end
  | Cancel i => match calls s !! i with Some (Asked _) => take_call i s | _ => s end
  | Toggle name b => toggleRuleSkipRetry name b s
  | AllowAll => allowRetryForAllRules s
  | Answer i res =>
      match calls s !! i with
      | Some (Refreshing shown) => refreshed shown res (take_call i s)
      | Some Cleaning => cleaned res (take_call i s)
      | _ => s
      end
  | PutAnswer i k res => put_answered i k res s
  | Failure i error =>
      match calls s !! i with
      | Some (Asked _) | None => s
      | Some w => failed w error (take_call i s)
      end
  end.

Definition run (s : state) (es : list event) : state := fold_left step es s.

(** The options that the page starts with. *)
Definition zero : value := VNum (num_of_Z 0).
Definition first_options : props :=
  [(u "QuotaForNewUser", zero); (u "PreConsumedQuota", zero); (u "QuotaForInviter", zero); (u "QuotaForInvitee", zero);
   (pre_consume_key, VBool true); (u "TopUpLink", VStr []); (u "QuotaPerUnit", zero); (u "USDExchangeRate", zero);
   (u "RetryTimes", zero); (u "general_setting.quota_display_type", VStr (u "USD")); (u "DisplayTokenStatEnabled", VBool false);
   (u "DefaultCollapseSidebar", VBool false); (u "DemoSiteEnabled", VBool false); (u "ServerAddress", VStr []);
   (u "LogConsumeEnabled", VBool false); (u "QuotaRemindThreshold", zero); (u "AutomaticDisableChannelEnabled", VBool false);
   (u "AutomaticDisableKeywords", VStr []); (u "AutomaticDisableStatusCodes", VStr (u "401"));
   (u "AutomaticRetryStatusCodes", VStr retry_codes); (KEY_ENABLED, VBool true); (KEY_RULES, no_rules);
   (u "token_setting.max_user_tokens", VNum (num_of_Z 1000)); (u "RegisterEnabled", VBool true); (u "UniversalPassword", VStr []);
   (u "SMTPServer", VStr []); (u "SMTPPort", VStr []); (u "SMTPAccount", VStr []); (u "SMTPFrom", VStr []); (u "SMTPToken", VStr []);
   (u "SMTPSSLEnabled", VBool false)].

Definition first_form (n : form_name) : form :=
  let x := match n with General => general_first | Log => log_first | Monitoring => monitoring_first | Affinity => affinity_first | Credit => credit_first end in
  mk_form false x x.

(** The first render with its effects, those of the forms first; [month_ago] is the date
    that the form of the logs starts with. *)
Definition init (month_ago : Z) : state :=
  onRefresh first_options
    (options_changed first_options (mk_state (mk_view first_options false first_form [] (Some month_ago) false) [] [])).
End operation_settings.

Example parse_rules_ex :
  parseRules (VStr (j "[{`name`:` a `,`id`:1},{`skip_retry_on_failure`:1}]")) =
  [[(u "name", VStr (u "a")); (u "id", VNum (num_of_Z 1)); (u "skip_retry_on_failure", VBool false)];
   [(u "skip_retry_on_failure", VBool true); (u "name", VStr (u "rule-2"))]].
Proof. vm_compute. reflexivity. Qed.
Example no_texts_no_rules : parseRules (VStr (j "[{`name`:`a`},{`name`:1}]")) = [].
Proof. vm_compute. reflexivity. Qed.
