(* ===== verification/OperationLaws.v ===== *)
(** * Laws of the operation settings
    Every form keeps to its own options; what a save sends and what it tells; what a
    refresh does to the forms; and rules that are saved come back. *)

From Stdlib Require Import SpecFloat.
From stdpp Require Import base numbers option strings functions sets list.
From S2P Require Import Prelude JsString JsNumber JsValue Json JsSame JsOps StatusCodeRules Session OptionForms OperationSettings.

#[local] Opaque u.

(** ** Well-formed forms *)

Definition fields (n : form_name) : list jsstr :=
  match n with
  | General => formFieldKeys
  | Log => keys log_first
  | Monitoring => keys monitoring_first
  | Affinity => keys affinity_first
  | Credit => keys credit_first
  end.

Definition shows_fields (n : form_name) (o : props) : Prop := props_sorted o ∧ keys o ⊆ fields n.
Definition form_wf (n : form_name) (f : form) : Prop := shows_fields n (inputs f) ∧ shows_fields n (inputsRow f).

(** A rule of the list has a name that is trimmed, and says whether it skips. *)
Definition rule_named (r : props) : Prop :=
  props_sorted r ∧ (∃ s, get (u "name") r = Some (VStr s) ∧ s ≠ [] ∧ trimmed s) ∧ ∃ b, get (u "skip_retry_on_failure") r = Some (VBool b).

Record view_wf (v : view) : Prop := {
  wf_forms : ∀ n, form_wf n (forms v n);
  wf_rules : Forall rule_named (rules v);
}.

Lemma shows_set n k v o : shows_fields n o → k ∈ fields n → shows_fields n (set k v o).
Proof. intros [Hs Hk] H. split; [by apply props_sorted_set|]. intros x [->|?]%keys_set; auto. Qed.

Lemma shows_pick n o options : shows_fields n o → shows_fields n (pick o options).
Proof.
  intros [Hs Hk]. split; [apply pick_sorted|]. revert Hk. unfold pick. generalize (list_subseteq_nil (fields n)).
  change (@nil jsstr) with (keys (@nil (jsstr * value))) at 1. generalize (@nil (jsstr * value)).
  induction options as [|[k v] l IH]; intros acc Ha Hk; simpl; [done|]. apply IH; [|done].
  destruct (get k o) eqn:E; [|done]. intros x [->|?]%keys_set; [|auto]. apply Hk, get_In_keys. by exists v0.
Qed.

Lemma shows_each n (value_of : jsstr → value) l o :
  shows_fields n o → l ⊆ fields n → shows_fields n (fold_left (λ acc k, set k (value_of k) acc) l o).
Proof.
  revert o. induction l as [|k l IH]; intros o Ho Hl; cbn [fold_left]; [done|].
  apply IH; [apply shows_set; [done|]|intros x Hx]; apply Hl; [left|by right].
Qed.

Lemma shows_nil n : shows_fields n [].
Proof. split; [done|apply list_subseteq_nil]. Qed.

Lemma shows_general options : shows_fields General (general_options options).
Proof. unfold general_options. apply shows_each; [apply shows_nil|]. intros x Hx. exact Hx. Qed.

Lemma affinity_fields : KEY_ENABLED ∈ fields Affinity ∧ KEY_RULES ∈ fields Affinity.
Proof. split; [left|right; left]. Qed.

Lemma shows_affinity lower options o : shows_fields Affinity o → shows_fields Affinity (fold_left (affinity_option lower) options o).
Proof.
  revert o. induction options as [|[k v] l IH]; intros o Ho; cbn [fold_left]; [exact Ho|]. apply IH.
  unfold affinity_option. cbn [fst snd].
  case_decide as E; [subst k; apply shows_set; [exact Ho|exact (proj1 affinity_fields)]|].
  case_decide as E'; [subst k; apply shows_set; [exact Ho|exact (proj2 affinity_fields)]|exact Ho].
Qed.

Lemma shows_spread n a b : shows_fields n a → shows_fields n b → shows_fields n (spread a b).
Proof.
  intros Ha [_ Hb]. unfold spread. revert a Ha. induction b as [|[k v] b IH]; intros a Ha; cbn [fold_left]; [done|].
  apply IH; [intros x Hx; apply Hb; by right|]. apply shows_set; [done|]. apply Hb. left.
Qed.

Lemma load_form_wf lower n options f : form_wf n f → form_wf n (load_form lower n options f).
Proof.
  intros [Hi Hr]. destruct n; simpl; unfold pick_load, affinity_load, show_options, log_load; split; simpl;
    auto using shows_general, shows_pick, shows_affinity, shows_spread.
Qed.

Lemma first_form_wf n : form_wf n (first_form n).
Proof.
  assert (shows_fields n (inputs (first_form n))) as H; [|by split; [|destruct n]].
  destruct n; split; apply (bool_decide_unpack _); vm_compute; exact I.
Qed.

(** ** Rules with names *)

Lemma name_skip_differ : u "skip_retry_on_failure" ≠ u "name" ∧ u "name" ≠ u "skip_retry_on_failure" ∧
  u "id" ≠ u "name" ∧ u "id" ≠ u "skip_retry_on_failure".
Proof. split_and!; keys_differ. Qed.

Lemma digit_not_ws c : is_digit c = true → is_ws c = false.
Proof.
  unfold is_digit, is_ws. rewrite andb_true_iff, !N.leb_le. intros H. apply not_true_iff_false. intros (x & Hx & E)%existsb_exists.
  apply N.eqb_eq in E. subst x. simpl in Hx. lia.
Qed.

Lemma numbered_trimmed i : trimmed (u "rule-" ++ dec_N i).
Proof.
  apply trim_id; [by vm_compute|]. rewrite rev_app_distr. pose proof (dec_N_digits i) as Hd. pose proof (dec_N_nonnil i) as Hn.
  apply head_out_app; [intros E; apply Hn; by rewrite <- (rev_involutive (dec_N i)), E|].
  apply Forall_reverse in Hd. unfold reverse in Hd. rewrite <- rev_alt in Hd.
  destruct Hd as [|c l Hc _]; simpl; [done|]. by apply digit_not_ws.
Qed.

Lemma rule_of_named i x r : rule_of i x = Some r → rule_named r.
Proof.
  unfold rule_of. destruct (value_or _ _) as [| | | |text| |]; try done. intros [= <-].
  destruct name_skip_differ as (D1 & D2 & _). split_and!.
  - apply props_sorted_set, props_sorted_set, props_sorted_spread. done.
  - eexists. rewrite get_set_ne by done. rewrite get_set_eq. split; [done|].
    destruct (trim text) as [|c l] eqn:E; simpl.
    + split; [|apply numbered_trimmed]. intros H. apply (f_equal length) in H. rewrite length_app in H. by vm_compute in H.
    + split; [done|]. rewrite <- E. apply trimmed_trim.
  - eexists. by rewrite get_set_eq.
Qed.

Lemma parseRules_named v : Forall rule_named (parseRules v).
Proof.
  unfold parseRules. destruct (_ ≫= _) as [[| | | | |l|]|]; try constructor.
  destruct (mapM (λ x, x) (imap rule_of l)) as [rs|] eqn:E; simpl; [|constructor].
  apply mapM_Some in E. apply Forall_forall. intros r (i & Hr)%list_elem_of_lookup.
  destruct (Forall2_lookup_r _ _ _ _ _ E Hr) as (x & Hx & ->). rewrite list_lookup_imap in Hx.
  destruct (l !! i) as [y|]; [|done]. injection Hx as Hx. by eapply rule_of_named.
Qed.

Lemma set_skip_named b r : rule_named r → rule_named (set_skip b r).
Proof.
  intros (Hs & (s & Hn & Ht) & _). destruct name_skip_differ as (D & _). unfold set_skip. split_and!.
  - by apply props_sorted_set.
  - exists s. by rewrite get_set_ne.
  - exists b. apply get_set_eq.
Qed.

Lemma toggled_named name b rs : Forall rule_named rs → Forall rule_named (toggled name b rs).
Proof. intros H. apply Forall_fmap. apply (Forall_impl _ _ _ H). intros r Hr. simpl. case_match; [by apply set_skip_named|done]. Qed.

(** ** Reachable states *)

Definition waits (w : waiting) : Prop := match w with Saving _ _ got => None ∈ got | _ => True end.

Record state_wf (s : state) : Prop := {
  wf_view : view_wf (now s);
  wf_calls : Forall waits (calls s);
}.

Section reachable.
Context (t lower : jsstr → jsstr) (format : Z → jsstr) (diff_days : Z → Z → Z) (engine_error : value).
Local Abbreviation step := (step t lower format diff_days engine_error).
Local Abbreviation run := (run t lower format diff_days engine_error).
Local Abbreviation init := (init lower).

Lemma wf_emit e s : state_wf s → state_wf (emit e s).
Proof. by intros []. Qed.

Lemma wf_suspend w s : waits w → state_wf s → state_wf (suspend w s).
Proof. intros Hw [? Hc]. constructor; [done|]. apply Forall_app. by repeat constructor. Qed.

Lemma wf_take_call i s : state_wf s → state_wf (take_call i s).
Proof. intros [? Hc]. constructor; [done|]. by apply Forall_delete. Qed.

Lemma wf_on_view f s : (view_wf (now s) → view_wf (f (now s))) → state_wf s → state_wf (on_view f s).
Proof. intros Hf [Hv ?]. constructor; [by apply Hf|done]. Qed.

Lemma wf_plain f s :
  (∀ v, forms (f v) = forms v ∧ rules (f v) = rules v) → state_wf s → state_wf (on_view f s).
Proof. intros Hf. apply wf_on_view. intros [Hv Hr]. destruct (Hf (now s)) as [E1 E2]. constructor; [by rewrite E1|by rewrite E2]. Qed.

Lemma wf_setForm n f s : (∀ x, form_wf n x → form_wf n (f x)) → state_wf s → state_wf (on_view (setForm n f) s).
Proof.
  intros Hf. apply wf_on_view. intros [Hv Hr]. constructor; [|done]. intros m. simpl.
  destruct (decide (n = m)) as [<-|]; [rewrite fn_lookup_insert; by apply Hf|by rewrite fn_lookup_insert_ne].
Qed.

Lemma wf_setLoading n b s : state_wf s → state_wf (on_view (setForm n (setLoading b)) s).
Proof. by apply wf_setForm. Qed.

Lemma wf_apply new s : state_wf s → state_wf (options_changed lower new s).
Proof.
  intros [[Hf Hr] Hc]. constructor; [constructor|done]; simpl.
  - intros n. by apply load_form_wf.
  - apply parseRules_named.
Qed.
Lemma wf_send rs s : state_wf s → state_wf (send rs s).
Proof. unfold send. revert s. induction rs as [|r rs IH]; intros s H; simpl; [done|]. by apply IH, wf_emit. Qed.

Lemma wf_onRefresh shown s : state_wf s → state_wf (onRefresh shown s).
Proof. intros H. apply wf_suspend; [done|]. apply wf_emit. by apply wf_plain. Qed.

Lemma wf_end_refresh s : state_wf s → state_wf (on_view (setPageLoading false) s).
Proof. by apply wf_plain. Qed.

Lemma wf_refreshed shown res s : state_wf s → state_wf (refreshed lower shown res s).
Proof.
  intros H. unfold refreshed, refresh_failed. destruct (parts_of res) as [[[[] message] data]|]; [destruct (read_options _ _ _)|..];
    apply wf_end_refresh; try apply wf_apply; by try apply wf_emit.
Qed.

Lemma requests_wait rs c cs value_of : submission_of (c :: cs) value_of = Puts rs → None ∈ map (λ _ : jsstr * value, @None value) rs.
Proof. intros [= <-]. left. Qed.

(** A save asks for something. *)
Lemma submission_some n f rs : submission_of_form t n f = Some (Puts rs) → None ∈ map (λ _ : jsstr * value, @None value) rs.
Proof.
  assert (∀ cs value_of, submission_of cs value_of = Puts rs → None ∈ map (λ _ : jsstr * value, @None value) rs) as H
    by (intros [|c cs] value_of Hs; [done|by eapply requests_wait]).
  destruct n; cbn [submission_of_form]; try by intros [= E]; eapply H.
  - unfold monitoring_submission. destruct (parsed_codes "AutomaticDisableStatusCodes" f) as [p|]; [|discriminate].
    destruct (parsed_codes "AutomaticRetryStatusCodes" f) as [q|]; [|discriminate]. cbn [mbind option_bind].
    destruct (changes_of f) as [|c cs]; [discriminate|]. destruct (ok p); [|discriminate]. destruct (ok q); [|discriminate].
    cbn [negb]. intros E. apply (H (c :: cs) (monitoring_value p q f)). congruence.
  - unfold affinity_submission. destruct (changes_of f) as [|c cs]; [discriminate|]. destruct (compact_rules f); [|discriminate].
    intros E. eapply (H (c :: cs)). by apply (inj Some).
Qed.

Lemma wf_onSubmit n s : state_wf s → state_wf (onSubmit t n s).
Proof.
  intros H. unfold onSubmit, warns. destruct (submission_of_form t n _) as [[| |rs]|] eqn:E; try done; try by apply wf_emit.
  apply wf_suspend; [by eapply submission_some|]. apply wf_setLoading. by apply wf_send.
Qed.

Lemma wf_all_saved n shown res s : state_wf s → state_wf (all_saved t n shown res s).
Proof. intros H. apply wf_setLoading. case_match; [done|by apply wf_emit|]. apply wf_onRefresh. by apply wf_emit. Qed.

Lemma all_answers_None got : all_answers got = None → None ∈ got.
Proof.
  intros H. apply mapM_None in H. apply Exists_exists in H as (x & Hx & ->). done.
Qed.

Lemma wf_put_answered i k res s : state_wf s → state_wf (put_answered t i k res s).
Proof.
  intros H. unfold put_answered. destruct (calls s !! i) as [[n shown got| | |]|]; try done.
  destruct (got !! k) as [[|]|]; try done. destruct (all_answers _) eqn:E.
  - by apply wf_all_saved, wf_take_call.
  - destruct H as [Hv Hc]. constructor; [done|]. apply Forall_insert; [done|]. by apply all_answers_None.
Qed.

Lemma wf_rules_state rs s : Forall rule_named rs → state_wf s → state_wf (updateRulesState rs s).
Proof.
  intros Hr H. apply wf_emit. revert H. apply wf_on_view. intros [Hf _]. constructor; [|done]. intros m. simpl.
  destruct (decide (Affinity = m)) as [<-|]; [rewrite fn_lookup_insert|rewrite fn_lookup_insert_ne; done].
  destruct (Hf Affinity) as [Hi Hw]. split; [|done]. apply shows_set; [done|]. apply affinity_fields.
Qed.

Lemma wf_clean_failed message s : state_wf s → state_wf (clean_failed message s).
Proof. intros H. apply wf_plain; [done|]. by apply wf_emit. Qed.

Lemma wf_cleaned res s : state_wf s → state_wf (cleaned t engine_error res s).
Proof.
  intros H. unfold cleaned. destruct (parts_of res) as [[[[] message] data]|]; [destruct (to_string data)|destruct (to_string message)|];
    try (by apply wf_clean_failed). apply wf_plain; [done|]. by apply wf_emit.
Qed.

Lemma credit_fields : pre_consume_key :: quota_keys ⊆ fields Credit.
Proof. apply (bool_decide_unpack _). vm_compute. exact I. Qed.

Lemma field_value_fields n k v w : field_value n k v = Some w → k ∈ fields n.
Proof.
  unfold field_value, fields. destruct n; repeat case_decide; try done; intros _; subst.
  - left.
  - exact (proj1 affinity_fields).
  - apply credit_fields. by right.
  - apply credit_fields. by left.
Qed.

Lemma state_wf_step s e : state_wf s → state_wf (step s e).
Proof.
  intros H. destruct e as [n k v|target|n|current|i|i|name b| |i res|i k res|i error]; unfold step; cbn [OperationSettings.step].
  - destruct (field_value n k v) as [w|] eqn:E; [|done]. revert H. apply wf_setForm. intros f [Hi Hw].
    split; [|done]. apply shows_set; [done|]. by eapply field_value_fields.
  - by apply wf_plain.
  - by apply wf_onSubmit.
  - unfold onCleanHistoryLog. destruct (historyTimestamp _); [|by apply wf_emit]. apply wf_suspend; [done|]. by apply wf_emit.
  - destruct (calls s !! i) as [[]|]; try done. apply wf_suspend; [done|]. apply wf_emit, wf_plain; [done|]. by apply wf_take_call.
  - destruct (calls s !! i) as [[]|]; try done. by apply wf_take_call.
  - apply wf_rules_state; [|done]. apply toggled_named, H.
  - unfold allowRetryForAllRules. destruct (skipRetryCount _); [by apply wf_emit|]. apply wf_emit, wf_rules_state; [|done].
    apply Forall_fmap. destruct H as [[_ Hr] _]. apply (Forall_impl _ _ _ Hr). intros r. apply set_skip_named.
  - destruct (calls s !! i) as [[]|]; try done; [by apply wf_refreshed, wf_take_call|by apply wf_cleaned, wf_take_call].
  - by apply wf_put_answered.
  - destruct (calls s !! i) as [[]|]; try done; apply (wf_take_call i) in H; cbn [failed].
    + apply wf_setLoading. by apply wf_emit.
    + apply wf_end_refresh. by apply wf_emit.
    + by apply wf_clean_failed.
Qed.

Lemma state_wf_init month_ago : state_wf (init month_ago).
Proof. apply wf_onRefresh, wf_apply. constructor; [|done]. constructor; [|done]. apply first_form_wf. Qed.

Lemma state_wf_run month_ago es : state_wf (run (init month_ago) es).
Proof.
  assert (∀ s, state_wf s → state_wf (run s es)) as H; [|apply H, state_wf_init].
  induction es as [|e es IH]; intros s Hs; [done|]. apply IH. by apply state_wf_step.
Qed.
(** ** What is sent *)

Definition code_keys : list string := ["AutomaticDisableStatusCodes"; "AutomaticRetryStatusCodes"].

(** The value that is sent for a field: the normalised text of valid codes, the rules
    without spaces, booleans as texts, the others as they are. *)
Definition sent_as (n : form_name) (f : form) (k : jsstr) (v : value) : Prop :=
  match n with
  | Monitoring =>
      if is_boolean (prop k (inputs f)) then v = plain_value (prop k (inputs f))
      else (∃ key p, key ∈ code_keys ∧ k = u key ∧ parsed_codes key f = Some p ∧ ok p = true ∧ v = VStr (normalized p)) ∨
           k ∉ texts code_keys ∧ v = prop k (inputs f)
  | Affinity =>
      if decide (k = KEY_RULES)
      then ∃ text w, to_string (value_or (prop k (inputs f)) no_rules) = Some text ∧ json_parse text = Some w ∧ v = VStr (ser [] [] w)
      else v = plain_value (prop k (inputs f))
  | _ => v = plain_value (prop k (inputs f))
  end.

Definition changed (f : form) (k : jsstr) : Prop :=
  ∃ v w, get k (inputs f) = Some v ∧ get k (inputsRow f) = Some w ∧ strict_eq v w = false.

Lemma log_changes f : form_wf Log f → filter (λ c, key c ≠ u "historyTimestamp") (changes_of f) = changes_of f.
Proof.
  intros [[Hs Hk] _]. apply filter_all. intros c Hc.
  apply compare_spec in Hc as (Hc & _); [|by apply sorted_keys_NoDup].
  intros E. assert (key c ∈ keys (inputs f)) as Hin by (apply get_In_keys; eauto). apply Hk in Hin.
  rewrite E in Hin. apply list_elem_of_singleton in Hin. revert Hin. keys_differ.
Qed.

Lemma monitoring_sent disable retry f k :
  parsed_codes "AutomaticDisableStatusCodes" f = Some disable → parsed_codes "AutomaticRetryStatusCodes" f = Some retry →
  ok disable = true → ok retry = true → sent_as Monitoring f k (monitoring_value disable retry f k).
Proof.
  intros Hd Hr Od Or. unfold sent_as, monitoring_value. destruct (is_boolean (prop k (inputs f))) eqn:Eb.
  { done. }
  case_decide as E1; [|case_decide as E2; [|right]].
  - left. exists "AutomaticDisableStatusCodes"%string, disable. refine (conj _ (conj E1 (conj Hd (conj Od eq_refl)))). left.
  - left. exists "AutomaticRetryStatusCodes"%string, retry. refine (conj _ (conj E2 (conj Hr (conj Or eq_refl)))). right; left.
  - refine (conj _ eq_refl). unfold texts, code_keys. cbn [map]. rewrite !not_elem_of_cons.
    exact (conj E1 (conj E2 (not_elem_of_nil k))).
Qed.

Lemma submission_sent n f rs :
  form_wf n f → submission_of_form t n f = Some (Puts rs) →
  ∃ value_of, submission_of (changes_of f) value_of = Puts rs ∧ ∀ k, sent_as n f k (value_of k).
Proof.
  intros Hf. destruct n; cbn [submission_of_form].
  - intros E%(inj Some). by eexists.
  - intros E%(inj Some). unfold log_submission in E. rewrite log_changes in E by done. by eexists.
  - unfold monitoring_submission. destruct (parsed_codes "AutomaticDisableStatusCodes" f) as [p|] eqn:Ep; [|discriminate].
    destruct (parsed_codes "AutomaticRetryStatusCodes" f) as [q|] eqn:Eq; [|discriminate]. cbn [mbind option_bind].
    destruct (changes_of f) as [|c cs] eqn:Ec; [discriminate|]. destruct (ok p) eqn:Op; [|discriminate].
    destruct (ok q) eqn:Oq; [|discriminate]. intros E%(inj Some). eexists. split; [exact E|].
    intros k. by apply monitoring_sent.
  - unfold affinity_submission. destruct (changes_of f) as [|c cs] eqn:Ec; [discriminate|].
    destruct (compact_rules f) as [text|] eqn:Er; [|discriminate]. intros E%(inj Some). eexists. split; [exact E|].
    intros k. unfold sent_as, affinity_value. case_decide as E'; [subst k|done]. unfold compact_rules in Er.
    destruct (to_string _) as [raw|]; [|discriminate]. cbn [mbind option_bind] in Er.
    destruct (json_parse raw) as [w|] eqn:Ew; [|discriminate]. injection Er as <-. by exists raw, w.
  - intros E%(inj Some). by eexists.
Qed.

Lemma log_send rs s : log (send rs s) = rev (map (λ r, Put r.1 r.2) rs) ++ log s.
Proof.
  unfold send. revert s. induction rs as [|r rs IH]; intros s; [done|]. cbn [fold_left map rev]. rewrite IH.
  rewrite <- app_assoc. done.
Qed.

(** C13: Whatever was done before, a save sends the options of its form whose value differs
    from the one that was shown, each once, and nothing else; status codes are sent
    valid and normalised, rules as JSON. *)
Theorem only_changes_sent month_ago es n rs :
  let s := run (init month_ago) es in
  let f := forms (now s) n in
  submission_of_form t n f = Some (Puts rs) →
  NoDup (map fst rs) ∧ (∀ k, k ∈ map fst rs ↔ changed f k) ∧ map fst rs ⊆ fields n ∧
  (∀ k v, (k, v) ∈ rs → sent_as n f k v) ∧
  log (step s (Submit n)) = rev (map (λ r, Put r.1 r.2) rs) ++ log s.
Proof.
  intros s f Hp. assert (form_wf n f) as Hf by apply (state_wf_run month_ago es). pose proof Hf as [[Hs Hk] _].
  apply sorted_keys_NoDup in Hs. destruct (submission_sent n f rs Hf Hp) as (value_of & E & Hsent).
  assert (∀ k, k ∈ map fst rs ↔ changed f k) as Hc.
  { intros k. rewrite (submission_keys _ _ _ E), list_elem_of_fmap. split.
    - intros (c & -> & Hc). apply compare_spec in Hc as (H1 & H2 & H3); [|done]. by exists (oldValue c), (newValue c).
    - intros (v & w & H1 & H2 & H3). exists (mk_change k v w). split; [done|]. by apply compare_spec. }
  split_and!.
  - rewrite (submission_keys _ _ _ E). by apply compare_keys_NoDup.
  - done.
  - intros k (v & w & Hv & _)%Hc. apply Hk, get_In_keys. eauto.
  - intros k v Hin. apply (submission_requests _ _ _ _ _ E) in Hin as [-> _]. apply Hsent.
  - cbn [OperationSettings.step]. unfold onSubmit. fold f. rewrite Hp. apply log_send.
Qed.
(** ** What is told *)

Lemma delete_of_insert {A} (i : nat) (x : A) (l : list A) : delete i (<[i := x]> l) = delete i l.
Proof. revert i. induction l as [|y l IH]; intros [|i]; simpl; [done..|]. f_equal. apply IH. Qed.

(** The answers of a save may come in any order: the last one ends it, with the answers
    in the order of the requests. *)
Lemma answers_gathered n shown i (answers : nat → value) order : ∀ s got,
  calls s !! i = Some (Saving n shown got) → NoDup order → order ≠ [] → (∀ k, k ∈ order ↔ got !! k = Some None) →
  run s (map (λ k, PutAnswer i k (answers k)) order) =
  all_saved t n shown (imap (λ k x, default (answers k) x) got) (take_call i s).
Proof.
  induction order as [|k order IH]; intros s got Hi Hn Hne Hg; [done|]. apply NoDup_cons in Hn as [Hk Hn].
  assert (got !! k = Some None) as Hgk by (apply Hg; left).
  assert (imap (λ k x, default (answers k) x) (<[k := Some (answers k)]> got) = imap (λ k x, default (answers k) x) got) as Himap.
  { apply list_eq. intros j. rewrite !list_lookup_imap. destruct (decide (j = k)) as [->|Hj];
      [|by rewrite list_lookup_insert_ne]. rewrite list_lookup_insert_eq by (by apply lookup_lt_is_Some; eexists). by rewrite Hgk. }
  assert (∀ j, j ∈ order ↔ <[k := Some (answers k)]> got !! j = Some None) as Hg'.
  { intros j. destruct (decide (j = k)) as [->|Hj].
    - rewrite list_lookup_insert_eq by (by apply lookup_lt_is_Some; eexists). naive_solver.
    - rewrite list_lookup_insert_ne by done. rewrite <- Hg, elem_of_cons. naive_solver. }
  change (run (put_answered t i k (answers k) s) (map (λ k, PutAnswer i k (answers k)) order) =
    all_saved t n shown (imap (λ k x, default (answers k) x) got) (take_call i s)).
  unfold put_answered. rewrite Hi, Hgk. cbn zeta.
  destruct order as [|k' order].
  - assert (all_answers (<[k := Some (answers k)]> got) = Some (imap (λ k x, default (answers k) x) got)) as ->; [|done].
    apply all_answers_Some. rewrite <- Himap. apply list_eq. intros j. rewrite list_lookup_fmap, list_lookup_imap.
    destruct (<[k := Some (answers k)]> got !! j) as [[v|]|] eqn:E; [done| |done]. apply Hg' in E. set_solver.
  - destruct (all_answers _) as [l|] eqn:E.
    + apply all_answers_Some in E. assert (<[k := Some (answers k)]> got !! k' = Some None) as H by (apply Hg'; left).
      rewrite E, list_lookup_fmap in H. by destruct (l !! k').
    + rewrite (IH _ (<[k := Some (answers k)]> got)); [|simpl; rewrite list_lookup_insert_eq; [done|by apply lookup_lt_is_Some; eexists]|done..].
      rewrite Himap. unfold take_call, with_calls. simpl. by rewrite delete_of_insert.
Qed.
(** The answers to a save are not looked at: once all its requests have been answered, in
    whatever order and with whatever answers, refusals too, the form says that it was
    saved and the options are asked for again. *)
Theorem refused_told_saved s n rs order (answers : nat → value) :
  submission_of_form t n (forms (now s) n) = Some (Puts rs) →
  order ≡ₚ seq 0 (length rs) → (∀ k, answers k ≠ VUndef) →
  let s' := run s (Submit n :: map (λ k, PutAnswer (length (calls s)) k (answers k)) order) in
  log s' = GetOptions :: ShowSuccess (t (u "保存成功")) :: rev (map (λ r, Put r.1 r.2) rs) ++ log s ∧
  loading (forms (now s') n) = false ∧ calls s' = calls s ++ [Refreshing (options (now s))].
Proof.
  intros Hp Ho Ha s'.
  set (s1 := suspend (Saving n (options (now s)) (map (λ _, None) rs)) (on_view (setForm n (setLoading true)) (send rs s))).
  assert (run s [Submit n] = s1) as E1 by (cbn; unfold onSubmit; by rewrite Hp).
  assert (calls (send rs s) = calls s ∧ options (now (send rs s)) = options (now s)) as [Ec _].
  { unfold send. clear. revert s. induction rs as [|r rs IH]; intros s; [done|]. apply (IH (emit (Put r.1 r.2) s)). }
  assert (s' = run s1 (map (λ k, PutAnswer (length (calls s)) k (answers k)) order)) as -> by (unfold s'; by rewrite <- E1).
  rewrite (answers_gathered n (options (now s)) (length (calls s)) answers order s1 (map (λ _, None) rs)).
  - unfold all_saved. rewrite outcome_defined.
    + cbn. rewrite fn_lookup_insert, Ec, log_send. split_and!; [done..|]. f_equal.
      rewrite delete_take_drop, take_app_length, drop_ge by (rewrite length_app; simpl; lia). by rewrite app_nil_r.
    + apply Forall_forall. intros x (k & Hk)%list_elem_of_lookup. rewrite list_lookup_imap, list_lookup_fmap in Hk.
      destruct (rs !! k); [|done]. injection Hk as <-. apply Ha.
  - cbn. rewrite Ec. by rewrite list_lookup_middle.
  - rewrite Ho. apply NoDup_ListNoDup, seq_NoDup.
  - intros ->. apply submission_some in Hp. apply Permutation_nil_l in Ho. destruct rs; [|done]. by apply not_elem_of_nil in Hp.
  - intros k. rewrite Ho, elem_of_seq, list_lookup_fmap. split.
    + intros Hk. destruct (lookup_lt_is_Some_2 rs k) as [r ->]; [lia|done].
    + destruct (rs !! k) as [r|] eqn:E; [|done]. intros _. apply lookup_lt_Some in E. lia.
Qed.
(** ** What a refresh shows *)

Lemma get_each (value_of : jsstr → value) l o k :
  get k (fold_left (λ acc k, set k (value_of k) acc) l o) = if decide (k ∈ l) then Some (value_of k) else get k o.
Proof.
  revert o. induction l as [|k' l IH]; intros o; cbn [fold_left]; [by rewrite decide_False by apply not_elem_of_nil|].
  rewrite IH, get_set. destruct (decide (k ∈ l)) as [H|H]; [by rewrite decide_True by (by right)|].
  destruct (decide (k' = k)) as [->|Hne]; [by rewrite decide_True by left|]. rewrite decide_False; [done|].
  intros [->|?]%elem_of_cons; done.
Qed.

Lemma get_general options k :
  get k (general_options options) =
  if decide (k ∈ formFieldKeys) then Some (default (general_default k) (get k options)) else None.
Proof. apply get_each. Qed.

#[local] Opaque general_options formFieldKeys.

(** The value that a field shows of its option. *)
Definition shown_as (n : form_name) (k : jsstr) (v : value) : value :=
  match n with
  | Affinity => if decide (k = KEY_ENABLED) then VBool (toBoolean lower v) else value_or v no_rules
  | _ => v
  end.

Lemma get_affinity k options o :
  NoDup (keys options) → k ∈ fields Affinity →
  get k (fold_left (affinity_option lower) options o) =
  match get k options with Some v => Some (shown_as Affinity k v) | None => get k o end.
Proof.
  intros Hn Hk. unfold keys in Hn. revert o. induction options as [|[k' v] l IH]; intros o; cbn [fold_left]; [done|].
  apply NoDup_cons in Hn as [Hk' Hn]. rewrite IH by done. clear IH. cbn [get].
  assert (k = KEY_ENABLED ∨ k = KEY_RULES) as Hkk.
  { change (k ∈ [KEY_ENABLED; KEY_RULES]) in Hk. rewrite elem_of_cons, list_elem_of_singleton in Hk. exact Hk. }
  assert (k' ≠ k → get k (affinity_option lower o (k', v)) = get k o) as Hother.
  { intros Hne. unfold affinity_option. cbn [fst snd]. case_decide; [by apply get_set_ne|]. case_decide; [by apply get_set_ne|done]. }
  destruct (decide (k' = k)) as [->|Hne]; [|by rewrite Hother]. simpl in Hk'.
  assert (get k l = None) as -> by (by apply get_None). unfold affinity_option, shown_as. cbn [fst snd].
  case_decide as E1; [by rewrite get_set_eq|]. rewrite decide_True by (destruct Hkk; [contradiction|assumption]). by rewrite get_set_eq.
Qed.

Lemma loaded_field n new f k v :
  NoDup (keys new) → form_wf n f → get k new = Some v → k ∈ keys (inputs f) →
  get k (inputs (load_form lower n new f)) = Some (shown_as n k v).
Proof.
  intros Hn [[Hs Hk] _] Hv Hin. pose proof (Hk _ Hin) as Hf. apply get_In_keys in Hin as [x Hx].
  destruct n; cbn [load_form pick_load affinity_load show_options inputs shown_as]; unfold log_load; cbn [inputs].
  - rewrite get_general, decide_True by exact Hf. by rewrite Hv.
  - rewrite get_spread by (apply sorted_keys_NoDup, pick_sorted). by rewrite get_pick, Hx, Hv.
  - by rewrite get_pick, Hx, Hv.
  - rewrite get_affinity by done. by rewrite Hv.
  - by rewrite get_pick, Hx, Hv.
Qed.

Definition scalar (v : value) : Prop := strict_eq v v = true.

Lemma loaded_unchanged n new f :
  NoDup (keys new) → form_wf n f →
  (∀ k v, get k new = Some v ∨ get k (inputs f) = Some v → scalar v) → changes_of (load_form lower n new f) = [].
Proof.
  intros Hn Hf Hv. pose proof (load_form_wf lower n new f Hf) as [[Hs' _] [Hr' _]]. destruct Hf as [[Hs Hk] _].
  apply compare_nil; [|by apply sorted_keys_NoDup].
  assert (∀ k v, get k (inputsRow (load_form lower n new f)) = Some v → scalar v) as Hrow.
  { intros k v. destruct n; cbn [load_form pick_load affinity_load show_options inputsRow]; unfold log_load; cbn [inputsRow].
    - rewrite get_general. case_decide; [|done]. destruct (get k new) as [w|] eqn:E; simpl; intros [= <-]; [by eapply Hv; left|].
      unfold general_default. by case_decide.
    - rewrite get_pick by done. destruct (get k (inputs f)); [|done]. intros ?. eapply Hv; by left.
    - rewrite get_pick by done. destruct (get k (inputs f)); [|done]. intros ?. eapply Hv; by left.
    - intros Hg. assert (k ∈ fields Affinity) as Hka.
      { apply (shows_affinity lower new (inputs f)); [done|]. apply get_In_keys. by exists v. }
      rewrite get_affinity in Hg by done. destruct (get k new) as [w|] eqn:E; [|by eapply Hv; right]. injection Hg as <-.
      unfold shown_as. case_decide; [by unfold scalar; simpl; destruct (toBoolean lower w)|]. unfold value_or.
      destruct (truthy w); [by eapply Hv; left|]. unfold scalar, no_rules. rewrite strict_eq_str. by apply bool_decide_true.
    - rewrite get_pick by done. destruct (get k (inputs f)); [|done]. intros ?. eapply Hv; by left. }
  intros k v w Hi Hw. assert (v = w) as ->; [|by eapply Hrow].
  destruct n; cbn [load_form pick_load affinity_load show_options inputs inputsRow] in *; try congruence.
  unfold log_load in Hi, Hw. cbn [inputs inputsRow] in Hi, Hw. rewrite get_spread in Hi by (apply sorted_keys_NoDup, pick_sorted).
  rewrite Hw in Hi. congruence.
Qed.

(** C17: When the options arrive that a save asked for, every form shows them, the others too:
    each field that it shows has the value of the option, whatever was typed, and nothing
    is left to be saved. *)
Theorem refresh_resets_forms month_ago es i shown res message data new :
  let s := run (init month_ago) es in
  calls s !! i = Some (Refreshing shown) → parts_of res = Some (true, message, data) →
  read_options lower shown data = Some new →
  let s' := step s (Answer i res) in
  ∀ n,
  (∀ k v, get k new = Some v → k ∈ keys (inputs (forms (now s) n)) →
     get k (inputs (forms (now s') n)) = Some (shown_as n k v)) ∧
  ((∀ k v, get k new = Some v ∨ get k (inputs (forms (now s) n)) = Some v → scalar v) → changes_of (forms (now s') n) = []).
Proof.
  intros s Hi Hp Hr s' n. assert (form_wf n (forms (now s) n)) as Hf by apply (state_wf_run month_ago es).
  pose proof (sorted_keys_NoDup _ (read_options_sorted _ _ _ _ Hr)) as Hn.
  assert (forms (now s') n = load_form lower n new (forms (now s) n)) as ->.
  { unfold s'. cbn [OperationSettings.step]. rewrite Hi. unfold refreshed. rewrite Hp, Hr. done. }
  split; [intros k v; by apply loaded_field|by apply loaded_unchanged].
Qed.
(** A text that the server does not list, such as the password for all accounts, is shown
    empty, and emptying its field again is never sent: what the server has stays. *)
Theorem unlisted_never_cleared new f edits k rs v :
  get k new = None → k ∈ formFieldKeys → general_default k = VStr [] →
  let f' := fold_left (λ f kv, setField kv.1 kv.2 f) edits (load_form lower General new f) in
  get k (inputs f') = Some (VStr []) → general_submission f' = Puts rs → (k, v) ∉ rs.
Proof.
  intros Hk Hf Hd f' Hi Hp Hin.
  assert (props_sorted (inputs f') ∧ inputsRow f' = general_options new) as [Hs Hr].
  { unfold f'. assert (props_sorted (inputs (load_form lower General new f)) ∧ inputsRow (load_form lower General new f) = general_options new) as H
      by exact (conj (proj1 (shows_general new)) eq_refl).
    revert H. generalize (load_form lower General new f). clear. induction edits as [|[k v] edits IH]; intros f [H1 H2]; cbn [fold_left]; [exact (conj H1 H2)|].
    apply IH. exact (conj (props_sorted_set _ _ _ H1) H2). }
  unfold general_submission in Hp. apply (submission_requests _ _ _ _ _ Hp) in Hin as [_ (c & Hc & <-)].
  apply compare_spec in Hc as (H1 & H2 & H3); [|by apply sorted_keys_NoDup].
  rewrite Hr, get_general, decide_True in H2 by exact Hf. rewrite Hk in H2. cbn [default] in H2.
  rewrite Hd in H2. rewrite Hi in H1. rewrite <- (inj Some _ _ H1), <- (inj Some _ _ H2) in H3. discriminate H3.
Qed.

(** ** Rules come back *)

Lemma set_here {V} k (v : V) o : get k o = Some v → set k v o = o.
Proof.
  intros H. unfold set. rewrite H. revert H. induction o as [|[k' v'] o IH]; simpl; [done|].
  case_decide as E; [by intros [= ->]|]. intros H. by rewrite IH.
Qed.

Lemma rule_back i r :
  rule_named r → rule_of i (VObj (del (u "id") r)) = Some (del (u "id") r).
Proof.
  intros (Hs & (s & Hn & Hne & Ht) & b & Hb). destruct name_skip_differ as (_ & _ & D1 & D2).
  assert (get (u "name") (del (u "id") r) = Some (VStr s)) as En by (by rewrite get_del, decide_False).
  assert (get (u "skip_retry_on_failure") (del (u "id") r) = Some (VBool b)) as Es by (by rewrite get_del, decide_False).
  unfold rule_of, opt_read, read, prop. rewrite En, Es. unfold value_or. cbn [truthy].
  rewrite (proj2 (str_truthy_true s)) by done. cbv iota beta zeta. rewrite Ht.
  assert (∀ d, str_or s d = s) as -> by (by destruct s). cbn [own_entries].
  rewrite spread_nil_sorted by (by apply sorted_del). cbn [app]. rewrite (set_here (u "name") (VStr s)) by exact En. by rewrite set_here by exact Es.
Qed.

Lemma text_truthy rs : truthy (VStr (serializeRules rs)) = true.
Proof. unfold serializeRules. by destruct rs. Qed.

Lemma affinity_rules_back rs :
  Forall rule_named rs → Forall (λ r, json_ok (VObj r) = true) rs →
  json_parse (serializeRules rs) = Some (VArr (map (λ r, VObj (del (u "id") r)) rs)) ∧
  parseRules (VStr (serializeRules rs)) = map (del (u "id")) rs.
Proof.
  intros Hn Hj. assert (json_parse (serializeRules rs) = Some (VArr (map (λ r, VObj (del (u "id") r)) rs))) as E.
  { apply json_parse_ser; [constructor|]. cbn [json_ok]. apply forallb_forall. intros v Hv. apply list_elem_of_In in Hv.
    apply list_elem_of_fmap in Hv as (r & -> & Hr). apply json_ok_del. rewrite Forall_forall in Hj. by apply Hj. }
  split; [done|]. unfold parseRules, value_or. rewrite text_truthy. cbn [to_string mbind option_bind]. rewrite E.
  assert (mapM (λ x, x) (imap rule_of (map (λ r, VObj (del (u "id") r)) rs)) = Some (map (del (u "id")) rs)) as ->; [|done].
  apply mapM_Some. apply Forall2_same_length_lookup_2; [by rewrite length_imap, !length_map|]. intros i x r Hx Hr.
  rewrite list_lookup_imap, list_lookup_fmap in Hx. rewrite list_lookup_fmap in Hr.
  destruct (rs !! i) as [r0|] eqn:E0; [|done]. injection Hx as <-. injection Hr as <-. apply rule_back.
  rewrite Forall_forall in Hn. apply Hn. by eapply list_elem_of_lookup_2.
Qed.

(** In every reachable state, the rules that are shown after a switch of one of them are
    the text of the form; this is the text that is sent, and a page that is shown it
    again has the same rules, without the identifiers that they came with. *)
Theorem affinity_rules_come_back month_ago es name b f :
  let s := run (init month_ago) es in
  let s' := step s (Toggle name b) in
  forallb (λ r, json_ok (VObj r)) (rules (now s)) = true →
  ∃ text, get KEY_RULES (inputs (forms (now s') Affinity)) = Some (VStr text) ∧
    rules (now s') = toggled name b (rules (now s)) ∧
    compact_rules (forms (now s') Affinity) = Some text ∧
    (∀ new, get KEY_RULES new = Some (VStr text) → NoDup (keys new) →
       parseRules (prop KEY_RULES (inputs (load_form lower Affinity new f))) = map (del (u "id")) (rules (now s'))).
Proof.
  intros s s' Hf. assert (Forall (λ r, json_ok (VObj r) = true) (rules (now s))) as Hj.
  { apply Forall_forall. intros r Hr. rewrite forallb_forall in Hf. apply Hf. by apply list_elem_of_In. }
  assert (Forall rule_named (rules (now s))) as Hn by apply (state_wf_run month_ago es).
  assert (rules (now s') = toggled name b (rules (now s))) as Er by done.
  assert (Forall (λ r, json_ok (VObj r) = true) (rules (now s'))) as Hj'.
  { rewrite Er. apply Forall_fmap. apply (Forall_impl _ _ _ Hj). intros r Hr. cbn. case_match; [|done]. by apply json_ok_set. }
  destruct (affinity_rules_back (rules (now s'))) as [Ej Eb]; [by rewrite Er; apply toggled_named|done|].
  assert (get KEY_RULES (inputs (forms (now s') Affinity)) = Some (VStr (serializeRules (rules (now s'))))) as Ei.
  { unfold s'. cbn. rewrite fn_lookup_insert. cbn. apply get_set_eq. }
  exists (serializeRules (rules (now s'))). split_and!; [exact Ei|exact Er| |].
  - unfold compact_rules, prop. rewrite Ei. unfold value_or.
    rewrite text_truthy.
    cbn [to_string mbind option_bind]. rewrite Ej. done.
  - intros new Hg Hd. cbn [load_form affinity_load show_options inputs]. unfold affinity_load, show_options. cbn [inputs].
    unfold prop. rewrite get_affinity by (done || exact (proj2 affinity_fields)). rewrite Hg. unfold shown_as.
    rewrite decide_False by keys_differ. unfold value_or.
    by rewrite text_truthy.
Qed.
End reachable.

(** ** Witnesses *)

Definition same_text (x : jsstr) : jsstr := x.
Definition no_date (_ : Z) : jsstr := [].
Definition no_days (_ _ : Z) : Z := 0%Z.
Local Abbreviation run := (OperationSettings.run same_text same_text no_date no_days VUndef).
Local Abbreviation step := (OperationSettings.step same_text same_text no_date no_days VUndef).
Local Abbreviation start := (OperationSettings.init same_text 0).

(** A page whose site name was typed. *)
Definition name_change : event := Edit General (u "SystemName") (VStr (u "X")).
Definition name_request : list (jsstr * value) := [(u "SystemName", VStr (u "X"))].

Lemma only_changes_sent_witness :
  log (step (run start [name_change]) (Submit General)) = Put (u "SystemName") (VStr (u "X")) :: log (run start [name_change]).
Proof.
  pose proof (only_changes_sent same_text same_text no_date no_days VUndef 0 [name_change] General name_request
    ltac:(vm_compute; reflexivity)) as (_ & _ & _ & _ & H). exact H.
Defined.

(** The server refuses the name. *)
Lemma refused_told_saved_witness :
  log (run (run start [name_change]) [Submit General; PutAnswer 1 0 (VObj [(u "data", VObj [(u "success", VBool false)])])]) =
  GetOptions :: ShowSuccess (u "保存成功") :: Put (u "SystemName") (VStr (u "X")) :: log (run start [name_change]).
Proof.
  pose proof (refused_told_saved same_text same_text no_date no_days VUndef (run start [name_change]) General name_request [0%nat]
    (λ _, VObj [(u "data", VObj [(u "success", VBool false)])])
    ltac:(vm_compute; reflexivity) ltac:(reflexivity) ltac:(discriminate)) as (H & _). exact H.
Defined.

Definition listed : value := VObj [(u "data", VObj [(u "success", VBool true); (u "data",
  VArr [VObj [(u "key", VStr (u "SystemName")); (u "value", VStr (u "Y"))];
        VObj [(u "key", VStr KEY_RULES); (u "value", VStr (j "[{`name`:`a`}]"))]])])].

(** The name that the server has is shown, not the one that was typed. *)
Lemma refresh_resets_forms_witness :
  get (u "SystemName") (inputs (forms (now (step (run start [name_change]) (Answer 0 listed))) General)) = Some (VStr (u "Y")).
Proof.
  apply (refresh_resets_forms same_text same_text no_date no_days VUndef 0 [name_change] 0 first_options listed VUndef
    (opt_read (u "data") (opt_read (u "data") listed))
    [(u "SystemName", VStr (u "Y")); (KEY_RULES, VStr (j "[{`name`:`a`}]"))]
    ltac:(vm_compute; reflexivity) ltac:(vm_compute; reflexivity) ltac:(vm_compute; reflexivity) General).
  - vm_compute. reflexivity.
  - apply (bool_decide_unpack _). vm_compute. exact I.
Defined.

(** The password was typed and emptied again, and the name changed. *)
Lemma unlisted_never_cleared_witness :
  (u "UniversalPassword", VStr []) ∉ name_request.
Proof.
  apply (unlisted_never_cleared same_text [] (mk_form false [] [])
    [(u "UniversalPassword", VStr (u "p")); (u "UniversalPassword", VStr []); (u "SystemName", VStr (u "X"))]).
  - reflexivity.
  - apply (bool_decide_unpack _). vm_compute. exact I.
  - vm_compute. reflexivity.
  - vm_compute. reflexivity.
  - vm_compute. reflexivity.
Defined.

(** The rule a is switched. *)
Lemma affinity_rules_come_back_witness :
  ∃ text, get KEY_RULES (inputs (forms (now (step (run start [Answer 0 listed]) (Toggle (VStr (u "a")) true))) Affinity)) = Some (VStr text) ∧
    text = j "[{`name`:`a`,`skip_retry_on_failure`:true}]".
Proof.
  pose proof (affinity_rules_come_back same_text same_text no_date no_days VUndef 0 [Answer 0 listed] (VStr (u "a")) true (mk_form false [] [])
    ltac:(vm_compute; reflexivity)) as (text & H & _).
  exists text. split; [exact H|]. vm_compute in H. injection H as <-. vm_compute. reflexivity.
Defined.
