(* ===== verification/PerformanceSettings.v ===== *)
(** * Performance settings
    [src/web/src/components/settings/PerformanceSetting.jsx] and the form
    [src/web/src/pages/Setting/Performance/SettingsPerformance.jsx]: options with numbers,
    statistics of the server, and the deletion of its log files. *)

From Stdlib Require Import SpecFloat.
From stdpp Require Import base numbers option strings sets list.
From S2P Require Import Prelude JsString JsNumber JsValue JsSame JsOps Session OptionForms.

(** ** Sizes

    [log] is [Math.log], which the engines approximate. *)

Definition byte_units : list jsstr := [u "Bytes"; u "KB"; u "MB"; u "GB"; u "TB"].

Section sizes.
Context (log : num → num).

(** [Math.floor(Math.log(x) / Math.log(1024))]; infinities and NaN are no index. *)
Definition unit_index (x : num) : option Z :=
  let q := ndiv (log x) (log (num_of_Z 1024)) in
  z ← num_to_Z (num_trunc q); Some (if nltb q (num_of_Z z) then z - 1 else z)%Z.

(** The size of a number above 0, or that is no number to compare with 0; [text] is the
    text of the value. *)
Definition positive_size (text : jsstr) (x : num) : jsstr :=
  match unit_index x with
  | Some i =>
      if ((i <? 0) || (5 <=? i))%Z then text ++ u " Bytes"
      else num_to_string (parse_float (to_fixed (ndiv x (num_of_Z (1024 ^ i))) 2)) ++ u " " ++ nth (Z.to_nat i) byte_units []
  | None => text ++ u " Bytes"
  end.

(** [formatBytes(bytes)]; [None] when the value cannot be converted. *)
Definition formatBytes (bytes : value) : option jsstr :=
  match bytes with
  | VUndef | VNull => Some (u "0 Bytes")
  | _ =>
      x ← to_number bytes; text ← to_string bytes;
      Some (if is_nan x then u "0 Bytes"
      else if strict_eq bytes (VNum (num_of_Z 0)) then u "0 Bytes"
      else if nltb x (num_of_Z 0) then u "-" ++ positive_size (num_to_string (SFopp x)) (SFopp x)
      else positive_size text x)
  end.
End sizes.

(** ** The form *)

Definition performance_key (name : string) : jsstr := u "performance_setting." ++ u name.

Definition performance_first : props :=
  [(performance_key "disk_cache_enabled", VBool false); (performance_key "disk_cache_threshold_mb", VNum (num_of_Z 10));
   (performance_key "disk_cache_max_size_mb", VNum (num_of_Z 1024)); (performance_key "disk_cache_path", VStr []);
   (performance_key "monitor_enabled", VBool false); (performance_key "monitor_cpu_threshold", VNum (num_of_Z 90));
   (performance_key "monitor_memory_threshold", VNum (num_of_Z 90)); (performance_key "monitor_disk_threshold", VNum (num_of_Z 95))].

(** What a field that shows [shown] takes of its option; [None] when it cannot be
    converted. *)
Definition field_option (shown listed : value) : option value :=
  if is_boolean shown then Some (VBool (strict_eq listed (VStr (u "true")) || is_true_value listed))
  else if is_number shown then text ← to_string listed; let x := parse_int_text text in Some (if num_truthy x then VNum x else shown)
  else Some listed.

Definition current_option (inputs acc : props) (kv : jsstr * value) : option props :=
  match get kv.1 inputs with
  | Some shown => v ← field_option shown kv.2; Some (set kv.1 v acc)
  | None => Some acc
  end.

Definition current_options (inputs options : props) : option props :=
  fold_left (λ acc kv, o ← acc; current_option inputs o kv) options (Some []).

Definition performance_load (options : props) (f : form) : option form :=
  current ← current_options (inputs f) options; Some (show_options (spread (inputs f) current) f).

(** Every value is sent as a text; [None] when one has none. *)
Definition performance_submission (f : form) : option submission :=
  match compareObjects (inputs f) (inputsRow f) with
  | [] => Some Unchanged
  | changes => requests ← mapM (λ c, text ← to_string (prop (key c) (inputs f)); Some (key c, VStr text)) changes; Some (Puts requests)
  end.

(** ** The page *)

Record view := mk_view {
  options : props; page_loading : bool; settings : form;
  stats : value; statsLoading : bool; logInfo : value;
  logCleanupMode : jsstr; logCleanupValue : value; logCleanupLoading : bool;
}.

Inductive request :=
  | GetOptions
  | Put (key : jsstr) (v : value)
  | GetStats
  | DeleteCache
  | ResetStats
  | ForceGC
  | GetLogs
  | DeleteLogs (url : jsstr).

Inductive effect :=
  | Ask (r : request)
  | SetValues (values : props)
  | ShowError (v : value)
  | ShowWarning (text : jsstr)
  | ShowSuccess (text : jsstr)
  | ShowCleaned (count : value) (size : jsstr).

Inductive waiting :=
  | Saving (shown : props) (got : list (option value))
  | Refreshing (shown : props)
  | Waiting (r : request).

Record state := mk_state { now : view; calls : list waiting; log : list effect }.

Definition emit e s := mk_state (now s) (calls s) (e :: log s).
Definition with_calls l s := mk_state (now s) l (log s).
Definition suspend (w : waiting) (s : state) : state := with_calls (calls s ++ [w]) s.
Definition on_view (f : view → view) (s : state) : state := mk_state (f (now s)) (calls s) (log s).
Definition ask (r : request) (s : state) : state := suspend (Waiting r) (emit (Ask r) s).

Definition setOptions x v := mk_view x (page_loading v) (settings v) (stats v) (statsLoading v) (logInfo v) (logCleanupMode v) (logCleanupValue v) (logCleanupLoading v).
Definition setPageLoading b v := mk_view (options v) b (settings v) (stats v) (statsLoading v) (logInfo v) (logCleanupMode v) (logCleanupValue v) (logCleanupLoading v).
Definition setSettings f v := mk_view (options v) (page_loading v) f (stats v) (statsLoading v) (logInfo v) (logCleanupMode v) (logCleanupValue v) (logCleanupLoading v).
Definition setStats x v := mk_view (options v) (page_loading v) (settings v) x (statsLoading v) (logInfo v) (logCleanupMode v) (logCleanupValue v) (logCleanupLoading v).
Definition setStatsLoading b v := mk_view (options v) (page_loading v) (settings v) (stats v) b (logInfo v) (logCleanupMode v) (logCleanupValue v) (logCleanupLoading v).
Definition setLogInfo x v := mk_view (options v) (page_loading v) (settings v) (stats v) (statsLoading v) x (logCleanupMode v) (logCleanupValue v) (logCleanupLoading v).
Definition setCleanup mode x v := mk_view (options v) (page_loading v) (settings v) (stats v) (statsLoading v) (logInfo v) mode x (logCleanupLoading v).
Definition setCleanupLoading b v := mk_view (options v) (page_loading v) (settings v) (stats v) (statsLoading v) (logInfo v) (logCleanupMode v) (logCleanupValue v) b.
Definition on_form (f : form → form) v := setSettings (f (settings v)) v.

Section performance.
(** [size] is [formatBytes] with the engine's [Math.log]. *)
Context (t lower : jsstr → jsstr) (size : value → option jsstr).

Definition fails (text : string) (s : state) : state := emit (ShowError (VStr (t (u text)))) s.
Definition tells (text : string) (s : state) : state := emit (ShowSuccess (t (u text))) s.

Definition fetchStats (s : state) : state := ask GetStats (on_view (setStatsLoading true) s).
Definition fetchLogInfo (s : state) : state := ask GetLogs s.

(** The effect of other options: all of it, or nothing where it throws. *)
Definition options_changed (new : props) (s : state) : state :=
  let s := on_view (setOptions new) s in
  match performance_load new (settings (now s)) with
  | Some f => fetchLogInfo (fetchStats (emit (SetValues (inputs f)) (on_view (setSettings f) s)))
  | None => s
  end.

Definition onRefresh (shown : props) (s : state) : state :=
  suspend (Refreshing shown) (emit (Ask GetOptions) (on_view (setPageLoading true) s)).

Definition refresh_failed (s : state) : state := on_view (setPageLoading false) (emit (ShowError (VStr (u "刷新失败"))) s).

Definition refreshed (shown : props) (res : value) (s : state) : state :=
  match parts_of res with
  | None => refresh_failed s
  | Some (true, _, data) =>
      match read_options lower shown data with
      | None => refresh_failed s
      | Some new => on_view (setPageLoading false) (options_changed new s)
      end
  | Some (false, message, _) => on_view (setPageLoading false) (emit (ShowError message) s)
  end.

Definition send (requests : list (jsstr * value)) (s : state) : state :=
  fold_left (λ s r, emit (Ask (Put r.1 r.2)) s) requests s.

Definition onSubmit (s : state) : state :=
  match performance_submission (settings (now s)) with
  | None => s
  | Some (Puts requests) =>
      suspend (Saving (options (now s)) (map (λ _, None) requests)) (on_view (on_form (setLoading true)) (send requests s))
  | Some _ => emit (ShowWarning (t (u "你似乎并没有修改什么"))) s
  end.

Definition all_saved (shown : props) (res : list value) (s : state) : state :=
  on_view (on_form (setLoading false))
    match outcome_of res with
    | Silent => s
    | Partly => fails "部分保存失败，请重试" s
    | Saved => fetchStats (onRefresh shown (tells "保存成功" s))
    end.

Definition save_failed (s : state) : state := on_view (on_form (setLoading false)) (fails "保存失败，请重试" s).

(** [res.data.success]; [None] is a TypeError. *)
Definition body_of (res : value) : option value := body ← read (u "data") res; _ ← read (u "success") body; Some body.
Definition succeeded (body : value) : bool := truthy (opt_read (u "success") body).
Definition refusal (body : value) (text : string) : value := value_or (opt_read (u "message") body) (VStr (t (u text))).

(** [isNaN(v)] and [v < 1], where [v] is not null: [None] is a TypeError. *)
Definition valid_count (v : value) : option bool :=
  match v with
  | VUndef | VNull => Some false
  | _ => x ← to_number v; Some (negb (is_nan x || nltb x (num_of_Z 1)))
  end.

Definition cleanupLogFiles (s : state) : state :=
  let v := now s in
  match valid_count (logCleanupValue v), to_string (logCleanupValue v) with
  | Some true, Some text =>
      ask (DeleteLogs (u "/api/performance/logs?mode=" ++ logCleanupMode v ++ u "&value=" ++ text)) (on_view (setCleanupLoading true) s)
  | Some false, _ => fails "请输入有效的数值" s
  | _, _ => s
  end.

Definition cleanup_ended (s : state) : state := on_view (setCleanupLoading false) s.

Definition cleaned (res : value) (s : state) : state :=
  match body_of res with
  | None => cleanup_ended (fails "清理失败" s)
  | Some body =>
      if succeeded body then
        let data := opt_read (u "data") body in
        match read (u "deleted_count") data, size (opt_read (u "freed_bytes") data) with
        | Some count, Some freed => cleanup_ended (fetchLogInfo (emit (ShowCleaned count freed) s))
        | _, _ => cleanup_ended (fails "清理失败" s)
        end
      else cleanup_ended (fetchLogInfo (emit (ShowError (refusal body "清理失败")) s))
  end.

(** The answers to the other requests. *)
Definition stats_ended (s : state) : state := on_view (setStatsLoading false) s.

Definition stats_answered (res : value) (s : state) : state :=
  stats_ended
    match body_of res with
    | Some body => if succeeded body then on_view (setStats (opt_read (u "data") body)) s else s
    | None => s
    end.

Definition logs_answered (res : value) (s : state) : state :=
  match body_of res with
  | Some body => if succeeded body then on_view (setLogInfo (opt_read (u "data") body)) s else s
  | None => s
  end.

Definition cache_cleared (res : value) (s : state) : state :=
  match body_of res with
  | Some body => if succeeded body then fetchStats (tells "磁盘缓存已清理" s) else emit (ShowError (refusal body "清理失败")) s
  | None => fails "清理失败" s
  end.

(** A refusal of the last two is not told. *)
Definition done_or_silent (done failure : string) (res : value) (s : state) : state :=
  match body_of res with
  | Some body => if succeeded body then fetchStats (tells done s) else s
  | None => fails failure s
  end.

Definition answered (r : request) (res : value) (s : state) : state :=
  match r with
  | GetStats => stats_answered res s
  | DeleteCache => cache_cleared res s
  | ResetStats => done_or_silent "统计已重置" "重置失败" res s
  | ForceGC => done_or_silent "GC 已执行" "GC 执行失败" res s
  | GetLogs => logs_answered res s
  | DeleteLogs _ => cleaned res s
  | GetOptions | Put _ _ => s
  end.

Definition request_failed (r : request) (s : state) : state :=
  match r with
  | GetStats => stats_ended s
  | DeleteCache => fails "清理失败" s
  | ResetStats => fails "重置失败" s
  | ForceGC => fails "GC 执行失败" s
  | DeleteLogs _ => cleanup_ended (fails "清理失败" s)
  | GetLogs | GetOptions | Put _ _ => s
  end.

(** ** Steps *)

Inductive event :=
  | Edit (k : jsstr) (v : value)
  | Submit
  | CleanupMode (mode : jsstr)
  | CleanupValue (v : value)
  | Cleanup
  | Click (r : request)
  | Answer (i : nat) (res : value)
  | PutAnswer (i k : nat) (res : value)
  | Failure (i : nat).

Definition take_call (i : nat) (s : state) : state := with_calls (delete i (calls s)) s.

Definition put_answered (i k : nat) (res : value) (s : state) : state :=
  match calls s !! i with
  | Some (Saving shown got) =>
      match got !! k with
      | Some None =>
          let got := <[k := Some res]> got in
          match all_answers got with
          | Some answers => all_saved shown answers (take_call i s)
          | None => with_calls (<[i := Saving shown got]> (calls s)) s
          end
      | _ => s
      end
  | _ => s
  end.

(** The buttons: statistics, cache and collection. *)
Definition click (r : request) (s : state) : state :=
  match r with
  | GetStats => fetchStats s
  | DeleteCache | ResetStats | ForceGC => ask r s
  | _ => s
  end.

Definition step (s : state) (e : event) : state :=
  match e with
  | Edit k v => if decide (k ∈ keys performance_first) then on_view (on_form (setField k v)) s else s
  | Submit => onSubmit s
  | CleanupMode mode => on_view (λ v, setCleanup mode (logCleanupValue v) v) s
  | CleanupValue x => on_view (λ v, setCleanup (logCleanupMode v) x v) s
  | Cleanup => cleanupLogFiles s
  | Click r => click r s
  | Answer i res =>
      match calls s !! i with
      | Some (Refreshing shown) => refreshed shown res (take_call i s)
      | Some (Waiting r) => answered r res (take_call i s)
      | _ => s
      end
  | PutAnswer i k res => put_answered i k res s
  | Failure i =>
      match calls s !! i with
      | Some (Saving _ _) => save_failed (take_call i s)
      | Some (Refreshing _) => refresh_failed (take_call i s)
      | Some (Waiting r) => request_failed r (take_call i s)
      | None => s
      end
  end.

Definition run (s : state) (es : list event) : state := fold_left step es s.

Definition first_options : props := take 4 performance_first.

Definition init : state :=
  onRefresh first_options (options_changed first_options
    (mk_state (mk_view first_options false (mk_form false performance_first performance_first) VNull false VNull (u "by_count") (VNum (num_of_Z 10)) false) [] [])).
End performance.

(** The share of the cache's room that is used, with one digit, or the number 0. *)
Definition diskCacheUsagePercent (stats : value) : option jsstr :=
  let cache := opt_read (u "cache_stats") stats in
  limit ← to_number (opt_read (u "disk_cache_max_bytes") cache);
  if nltb (num_of_Z 0) limit then
    used ← to_number (opt_read (u "current_disk_usage_bytes") cache);
    Some (to_fixed (nmul (ndiv used limit) (num_of_Z 100)) 1)
  else Some (u "0").

(** [log2] in the place of a logarithm. *)
Example sizes_ex :
  let log x := if nltb x (num_of_Z 1024) then num_of_Z 9 else num_of_Z 10 in
  map (formatBytes log) [VNull; VNum (num_of_Z 0); VNum (num_of_Z 1536); VNum (num_of_Z (-512))] =
  [Some (u "0 Bytes"); Some (u "0 Bytes"); Some (u "1.5 KB"); Some (u "-512 Bytes")].
Proof. vm_compute. reflexivity. Qed.

(** * Laws of the performance settings
    What the form takes of the options; a number of 0 that the server has is neither
    shown nor can it be replaced by the number that is shown. *)

#[local] Opaque u performance_first.

Lemma current_None inputs options : fold_left (λ acc kv, o ← acc; current_option inputs o kv) options None = None.
Proof. by induction options. Qed.

(** The options that are taken are those of the fields, converted. *)
Lemma get_current_from inputs options acc cur k :
  NoDup (keys options) → fold_left (λ acc kv, o ← acc; current_option inputs o kv) options (Some acc) = Some cur →
  get k cur =
  match get k inputs, get k options with Some shown, Some v => field_option shown v | _, _ => get k acc end.
Proof.
  unfold keys. revert acc. induction options as [|[k' v] l IH]; intros acc Hn; cbn [fold_left].
  { intros [= ->]. by destruct (get k inputs). }
  apply NoDup_cons in Hn as [Hk Hn]. cbn [fst] in Hk. cbn [mbind option_bind]. unfold current_option at 2. cbn [fst snd].
  assert (k' = k → get k l = None) as Hl by (intros <-; by apply get_None).
  destruct (get k' inputs) as [shown|] eqn:Ei.
  - destruct (field_option shown v) as [w|] eqn:Ef; cbn [mbind option_bind]; [|by rewrite current_None].
    intros H. apply IH in H; [|done]. rewrite H. cbn [get]. case_decide as E.
    + subst k'. rewrite Ei, Hl by done. by rewrite get_set_eq, Ef.
    + by rewrite get_set_ne.
  - intros H. apply IH in H; [|done]. rewrite H. cbn [get]. case_decide as E; [|done]. subst k'. by rewrite Ei.
Qed.

Lemma current_sorted_from inputs options acc cur :
  props_sorted acc → fold_left (λ acc kv, o ← acc; current_option inputs o kv) options (Some acc) = Some cur → props_sorted cur.
Proof.
  revert acc. induction options as [|[k v] l IH]; intros acc Ha; cbn [fold_left]; [by intros [= <-]|].
  cbn [mbind option_bind]. unfold current_option at 2. cbn [fst snd]. destruct (get k inputs) as [shown|]; [|by apply IH].
  destruct (field_option shown v); cbn [mbind option_bind]; [|by rewrite current_None]. apply IH. by apply props_sorted_set.
Qed.

(** A field that is listed shows its option, the others stay, and both objects agree. *)
Lemma loaded_fields options f f' :
  NoDup (keys options) → performance_load options f = Some f' →
  inputsRow f' = inputs f' ∧
  ∀ k shown, get k (inputs f) = Some shown →
    get k (inputs f') = match get k options with Some v => field_option shown v | None => Some shown end.
Proof.
  intros Hn. unfold performance_load, current_options. destruct (fold_left _ _ _) as [cur|] eqn:E; [|done]. intros [= <-].
  split; [done|]. intros k shown Hs. cbn [inputs show_options]. rewrite get_spread by (by eapply sorted_keys_NoDup, current_sorted_from, E).
  rewrite (get_current_from _ _ _ _ k Hn E), Hs. destruct (get k options) as [v|] eqn:Ev; [|done].
  destruct (field_option shown v) eqn:Ef; [done|]. exfalso. revert E Ev Ef Hs. clear. generalize (@nil (jsstr * value)).
  induction options as [|[k' v'] l IH]; intros acc; cbn [fold_left]; [done|]. cbn [mbind option_bind]. unfold current_option at 2.
  cbn [fst snd get]. intros E Ev Ef Hs. destruct (decide (k' = k)) as [->|].
  - rewrite Hs in E. injection Ev as ->. rewrite Ef in E. cbn in E. by rewrite current_None in E.
  - destruct (get k' (inputs f)) as [w|]; [|by eapply IH]. destruct (field_option w v'); cbn in E; [by eapply IH|by rewrite current_None in E].
Qed.

Lemma neqb_refl x : is_nan x = false → neqb x x = true.
Proof.
  destruct x as [[]|[]| |[] m e]; try done; intros _; unfold neqb, SFeqb, SFcompare; rewrite Z.compare_refl, ?Pos.compare_cont_refl; done.
Qed.

(** ** Reachable states *)

Definition sorted (s : state) : Prop := props_sorted (inputs (settings (now s))).

Section reachable.
Context (t lower : jsstr → jsstr) (size : value → option jsstr).

Lemma sorted_options new s : sorted s → sorted (options_changed new s).
Proof.
  intros H. unfold options_changed, performance_load. cbn [now on_view setOptions settings].
  destruct (current_options _ _); cbn [mbind option_bind]; [|exact H]. exact (props_sorted_spread _ _ H).
Qed.

Lemma sorted_send rs s : sorted s → sorted (send rs s).
Proof. revert s. induction rs as [|r rs IH]; intros s H; [done|]. by apply IH. Qed.

Lemma sorted_step s e : sorted s → sorted (step t lower size s e).
Proof.
  intros H. destruct e as [k v| |mode|x| |r|i res|i k res|i]; cbn [step].
  - case_decide; [|done]. exact (props_sorted_set _ _ _ H).
  - unfold onSubmit. destruct (performance_submission _) as [[| |rs]|]; try done. exact (sorted_send _ _ H).
  - done.
  - done.
  - unfold cleanupLogFiles. destruct (valid_count _) as [[]|]; try done. by destruct (to_string _).
  - by destruct r.
  - destruct (calls s !! i) as [[shown got|shown|r]|]; try done.
    + unfold refreshed. destruct (parts_of res) as [[[[] message] data]|]; try done.
      destruct (read_options _ _ _); [|done]. by apply sorted_options.
    + destruct r; try done; cbn [answered]; unfold stats_answered, cache_cleared, done_or_silent, logs_answered, cleaned;
        destruct (body_of res) as [body|]; try done; destruct (succeeded body); try done.
      destruct (read _ _); [|done]. by destruct (size _).
  - unfold put_answered. destruct (calls s !! i) as [[shown got| |]|]; try done. destruct (got !! k) as [[|]|]; try done.
    destruct (all_answers _) as [res'|]; [|done]. unfold all_saved. by destruct (outcome_of res').
  - destruct (calls s !! i) as [[shown got|shown|r]|]; try done. by destruct r.
Qed.

Lemma sorted_run es : sorted (run t lower size init es).
Proof.
  assert (∀ s, sorted s → sorted (run t lower size s es)) as H.
  { induction es as [|e es IH]; intros s Hs; [done|]. apply IH. by apply sorted_step. }
  apply H. unfold sorted. apply (bool_decide_unpack _). vm_compute. exact I.
Qed.
End reachable.

Definition zero_text (listed : value) : Prop :=
  ∃ text, to_string listed = Some text ∧ num_truthy (parse_int_text text) = false.

Lemma zero_stays x listed : zero_text listed → field_option (VNum x) listed = Some (VNum x).
Proof. intros (text & Ht & Hz). unfold field_option. cbn. rewrite Ht. cbn. by rewrite Hz. Qed.

Lemma mapM_In {A B} (f : A → option B) l l' y : mapM f l = Some l' → y ∈ l' → ∃ x, x ∈ l ∧ f x = Some y.
Proof.
  intros H (i & Hi)%list_elem_of_lookup. apply mapM_Some in H. destruct (Forall2_lookup_r _ _ _ _ _ H Hi) as (x & Hx & Hf).
  exists x. split; [by eapply list_elem_of_lookup_2|done].
Qed.

Lemma submission_changes f rs k v :
  performance_submission f = Some (Puts rs) → (k, v) ∈ rs → ∃ c, c ∈ compareObjects (inputs f) (inputsRow f) ∧ key c = k.
Proof.
  unfold performance_submission. destruct (compareObjects _ _) as [|c l]; [done|].
  destruct (mapM _ (c :: l)) as [l'|] eqn:E; [|done]. intros [= <-] Hin. destruct (mapM_In _ _ _ _ E Hin) as (c' & Hc & Hf).
  exists c'. split; [done|]. destruct (to_string _); [|done]. by injection Hf as -> _.
Qed.

(** A number of 0 of the server, such as a threshold that switches a check off, is not
    shown: the field keeps the number it showed before, and as long as that number stays
    there, saving sends nothing for the field, whatever else was changed. *)
Theorem zero_not_shown t lower size es i shown res message data new k x listed edits rs v :
  let s := run t lower size init es in
  calls s !! i = Some (Refreshing shown) → parts_of res = Some (true, message, data) →
  read_options lower shown data = Some new →
  get k (inputs (settings (now s))) = Some (VNum x) → is_nan x = false →
  get k new = Some listed → zero_text listed → is_Some (performance_load new (settings (now s))) →
  Forall (λ kv, kv.1 ∈ keys performance_first ∧ kv.1 ≠ k) edits →
  let s' := run t lower size (step t lower size s (Answer i res)) (map (λ kv, Edit kv.1 kv.2) edits) in
  get k (inputs (settings (now s'))) = Some (VNum x) ∧
  (performance_submission (settings (now s')) = Some (Puts rs) → (k, v) ∉ rs).
Proof.
  intros s Hi Hp Hr Hk Hx Hn Hz [f' Hf] He s'. pose proof (sorted_run t lower size es) as Hs. fold s in Hs. pose proof (sorted_keys_NoDup _ (read_options_sorted _ _ _ _ Hr)) as Hd.
  destruct (loaded_fields _ _ _ Hd Hf) as [Hrow Hget]. pose proof (Hget k _ Hk) as Hk'. rewrite Hn, (zero_stays x) in Hk' by done.
  assert (settings (now (step t lower size s (Answer i res))) = f') as E1.
  { cbn [step]. rewrite Hi. unfold refreshed. rewrite Hp, Hr. unfold options_changed. cbn [on_view now setOptions settings take_call with_calls].
    rewrite Hf. done. }
  assert (props_sorted (inputs f')) as Hs'.
  { unfold performance_load in Hf. destruct (current_options _ _); [|done]. injection Hf as <-. by apply props_sorted_spread. }
  assert (∀ s1, props_sorted (inputs (settings (now s1))) → get k (inputs (settings (now s1))) = Some (VNum x) →
    let s2 := run t lower size s1 (map (λ kv, Edit kv.1 kv.2) edits) in
    props_sorted (inputs (settings (now s2))) ∧ get k (inputs (settings (now s2))) = Some (VNum x) ∧
    inputsRow (settings (now s2)) = inputsRow (settings (now s1))) as Hrun.
  { clear -He. induction He as [|[k' w] edits [Hin Hne] He IH]; intros s1 H1 H2; [done|].
    cbn [fst] in Hin, Hne. cbn [map run fold_left].
    change (fold_left (step t lower size) ?l ?a) with (run t lower size a l). cbn [step fst snd].
    rewrite decide_True by exact Hin. destruct (IH (on_view (on_form (setField k' w)) s1)) as (? & ? & ?);
      cbn [on_view on_form now settings setSettings setField inputs setInputs]; [by apply props_sorted_set|by rewrite get_set_ne|by split_and!]. }
  rewrite <- E1 in Hs', Hk', Hrow. destruct (Hrun _ Hs' Hk') as (H1 & H2 & H3). fold s' in H1, H2, H3.
  split; [exact H2|]. intros Hsub Hin. destruct (submission_changes _ _ _ _ Hsub Hin) as (c & Hc & <-).
  apply compare_spec in Hc as (Ha & Hb & Hne); [|by apply sorted_keys_NoDup].
  rewrite H3, Hrow, Hk' in Hb. rewrite H2 in Ha. rewrite <- (inj Some _ _ Ha), <- (inj Some _ _ Hb) in Hne.
  cbn in Hne. by rewrite neqb_refl in Hne.
Qed.

(** The server checks the processor from 0 on; the form says 90. *)
Definition cpu_key : jsstr := performance_key "monitor_cpu_threshold".
Definition zero_listed : value := VObj [(u "data", VObj [(u "success", VBool true);
  (u "data", VArr [VObj [(u "key", VStr cpu_key); (u "value", VStr (u "0"))]])])].
Definition monitor_edit : list (jsstr * value) := [(performance_key "monitor_enabled", VBool true)].

Lemma zero_not_shown_witness :
  let s := run (λ x, x) (λ x, x) (λ _, None) init [Answer 2 zero_listed; Edit (performance_key "monitor_enabled") (VBool true)] in
  get cpu_key (inputs (settings (now s))) = Some (VNum (num_of_Z 90)) ∧
  (cpu_key, VStr (u "90")) ∉ [(performance_key "monitor_enabled", VStr (u "true"))].
Proof.
  pose proof (zero_not_shown (λ x, x) (λ x, x) (λ _, None) [] 2 first_options zero_listed VUndef
    (VArr [VObj [(u "key", VStr cpu_key); (u "value", VStr (u "0"))]]) [(cpu_key, VStr (u "0"))] cpu_key (num_of_Z 90) (VStr (u "0"))
    monitor_edit [(performance_key "monitor_enabled", VStr (u "true"))] (VStr (u "90"))
    ltac:(vm_compute; reflexivity) ltac:(vm_compute; reflexivity) ltac:(vm_compute; reflexivity) ltac:(vm_compute; reflexivity)
    ltac:(vm_compute; reflexivity) ltac:(vm_compute; reflexivity) ltac:(exists (u "0"); split; vm_compute; reflexivity)
    ltac:(eexists; vm_compute; reflexivity)
    ltac:(constructor; [split; [apply (bool_decide_unpack _); vm_compute; exact I|keys_differ]|constructor])) as [H1 H2].
  split; [exact H1|]. apply H2. vm_compute. reflexivity.
Defined.
