(* ===== verification/PaymentSettings.v ===== *)
(** * Payment settings
    [src/web/src/components/settings/PaymentSetting.jsx] with its two forms of
    [src/web/src/pages/Setting/Payment], [SettingsPaymentGatewayAlipay.jsx] and
    [SettingsPaymentGatewayEpay.jsx].
    Keys are never shown: a form starts with empty keys and knows whether there are any. *)

From Stdlib Require Import SpecFloat.
From stdpp Require Import base numbers option strings sets list.
From S2P Require Import Prelude JsString JsNumber JsValue JsOps OptionForms.

Definition payment_key (name : string) : jsstr := u "payment_setting." ++ u name.
Definition or_empty (v : value) : value := value_or v (VStr []).

(** [(v || '').trim()]; [None] is a TypeError. *)
Definition trimmed_text (v : value) : option jsstr := match or_empty v with VStr s => Some (trim s) | _ => None end.

(** [v.length > 0] *)
Definition has_length (v : value) : bool :=
  match v with
  | VStr s => str_truthy s
  | VArr l => negb (Nat.eqb (length l) 0)
  | VObj o => match to_number (prop (u "length") o) with Some x => nltb (num_of_Z 0) x | None => false end
  | _ => false
  end.

(** ** Alipay *)

Definition DEFAULT_GATEWAY : jsstr := u "https://openapi.alipay.com/gateway.do".

Record alipay := mk_alipay {
  a_loading : bool; a_inputs : props; originApp : value; originGateway : value; privateSaved : bool; publicSaved : bool;
}.

Definition alipay_first : alipay :=
  mk_alipay false [(u "alipay_app_id", VStr []); (u "alipay_private_key", VStr []); (u "alipay_public_key", VStr []);
                   (u "alipay_gateway", VStr DEFAULT_GATEWAY)] (VStr []) (VStr []) false false.

Definition a_setLoading b (a : alipay) : alipay := mk_alipay b (a_inputs a) (originApp a) (originGateway a) (privateSaved a) (publicSaved a).
Definition a_setInputs x (a : alipay) : alipay := mk_alipay (a_loading a) x (originApp a) (originGateway a) (privateSaved a) (publicSaved a).

Definition alipay_inputs (opt : props) : props :=
  [(u "alipay_app_id", or_empty (prop (payment_key "alipay_app_id") opt)); (u "alipay_private_key", VStr []);
   (u "alipay_public_key", VStr []);
   (u "alipay_gateway", value_or (prop (payment_key "alipay_gateway") opt) (VStr DEFAULT_GATEWAY))].

Definition alipay_load (opt : props) (a : alipay) : alipay :=
  let x := alipay_inputs opt in
  mk_alipay (a_loading a) x (prop (u "alipay_app_id") x) (prop (u "alipay_gateway") x)
    (has_length (or_empty (prop (payment_key "alipay_private_key") opt)))
    (has_length (or_empty (prop (payment_key "alipay_public_key") opt))).

(** What a click on save does: nothing to update, an error, or requests with the texts of
    the two keys. *)
Inductive key_submission := NothingNew | Missing (text : string) | Throws | Send (requests : list (jsstr * value)) (priv pub : jsstr).

Definition changed_option (name : string) (k : string) (origin : value) (x : props) : list (jsstr * value) :=
  let v := prop (u k) x in if strict_eq v (or_empty origin) then [] else [(payment_key name, v)].
Definition typed_key (name : string) (text : jsstr) : list (jsstr * value) :=
  match text with [] => [] | _ => [(payment_key name, VStr text)] end.

Definition alipay_submission (a : alipay) : key_submission :=
  let x := a_inputs a in
  match trimmed_text (prop (u "alipay_private_key") x), trimmed_text (prop (u "alipay_public_key") x) with
  | Some priv, Some pub =>
      if negb (privateSaved a) && negb (str_truthy priv) then Missing "请填写应用私钥"
      else if negb (publicSaved a) && negb (str_truthy pub) then Missing "请填写支付宝公钥"
      else
        match changed_option "alipay_app_id" "alipay_app_id" (originApp a) x ++
              changed_option "alipay_gateway" "alipay_gateway" (originGateway a) x ++
              typed_key "alipay_private_key" priv ++ typed_key "alipay_public_key" pub with
        | [] => NothingNew
        | requests => Send requests priv pub
        end
  | _, _ => Throws
  end.

(** ** Epay *)

Record epay := mk_epay { e_loading : bool; e_inputs : props; keySaved : bool }.

Definition epay_first : epay :=
  mk_epay false [(u "epay_enabled", VBool false); (u "epay_api_url", VStr []); (u "epay_pid", VStr []); (u "epay_key", VStr []);
                 (u "epay_pay_types", VStr (u "alipay,wxpay"))] false.

Definition epay_inputs (opt : props) : props :=
  let v k := prop (payment_key k) opt in
  [(u "epay_enabled", VBool (strict_eq (v "epay_enabled"%string) (VStr (u "true")) || is_true_value (v "epay_enabled"%string)));
   (u "epay_api_url", or_empty (v "epay_api_url"%string)); (u "epay_pid", or_empty (v "epay_pid"%string)); (u "epay_key", VStr []);
   (u "epay_pay_types", value_or (v "epay_pay_types"%string) (VStr (u "alipay,wxpay")))].

Definition epay_load (opt : props) (e : epay) : epay :=
  mk_epay (e_loading e) (epay_inputs opt) (truthy (prop (payment_key "epay_key") opt)).

Definition epay_submission (e : epay) : key_submission :=
  let x k := prop (u k) (e_inputs e) in
  let enabled := truthy (x "epay_enabled"%string) in
  match trimmed_text (x "epay_key"%string) with
  | None => Throws
  | Some text =>
      if negb (str_truthy text) && (enabled && negb (keySaved e)) then Missing "请填写易支付商户密钥"
      else Send ([(payment_key "epay_enabled", VStr (if enabled then u "true" else u "false"));
                  (payment_key "epay_api_url", or_empty (x "epay_api_url"%string)); (payment_key "epay_pid", or_empty (x "epay_pid"%string));
                  (payment_key "epay_pay_types", or_empty (x "epay_pay_types"%string))] ++ typed_key "epay_key" text) text []
  end.

(** ** The page *)

Inductive gateway := Alipay | Epay.
#[export] Instance gateway_eq_dec : EqDecision gateway.
Proof. solve_decision. Defined.

(** [frame]: what the next frame shows in each form. *)
Record view := mk_view {
  options : props; page_loading : bool; on_alipay : alipay; on_epay : epay; alipay_frame : option props; epay_frame : option props;
}.

Inductive effect :=
  | GetOptions
  | Put (key : jsstr) (v : value)
  | SetValues (g : gateway) (values : props)
  | ShowError (v : value)
  | ShowSuccess (text : jsstr).

(** A save keeps the inputs of its click and the texts of the keys. *)
Inductive waiting :=
  | Saving (g : gateway) (shown : props) (priv pub : jsstr) (got : list (option value))
  | Refreshing.

Record state := mk_state { now : view; calls : list waiting; log : list effect }.

Definition emit e s := mk_state (now s) (calls s) (e :: log s).
Definition with_calls l s := mk_state (now s) l (log s).
Definition suspend (w : waiting) (s : state) : state := with_calls (calls s ++ [w]) s.
Definition on_view (f : view → view) (s : state) : state := mk_state (f (now s)) (calls s) (log s).

Definition setPageLoading b v := mk_view (options v) b (on_alipay v) (on_epay v) (alipay_frame v) (epay_frame v).
Definition setAlipay a v := mk_view (options v) (page_loading v) a (on_epay v) (alipay_frame v) (epay_frame v).
Definition setEpay e v := mk_view (options v) (page_loading v) (on_alipay v) e (alipay_frame v) (epay_frame v).
Definition setFrames a e v := mk_view (options v) (page_loading v) (on_alipay v) (on_epay v) a e.

Definition setGatewayLoading (g : gateway) (b : bool) (v : view) : view :=
  match g with
  | Alipay => setAlipay (a_setLoading b (on_alipay v)) v
  | Epay => setEpay (mk_epay b (e_inputs (on_epay v)) (keySaved (on_epay v))) v
  end.

(** The effects of other options: a frame that was waiting is cancelled. *)
Definition apply_options (new : props) (v : view) : view :=
  mk_view new (page_loading v) (alipay_load new (on_alipay v)) (epay_load new (on_epay v)) (Some (alipay_inputs new)) (Some (epay_inputs new)).

(** The items whose key is one of these forms; [None] is a TypeError. *)
Definition payment_option (acc : props) (item : value) : option props :=
  k ← read (u "key") item;
  match k with
  | VStr k =>
      Some (if starts_with k (payment_key "alipay_") || starts_with k (payment_key "epay_") then set k (opt_read (u "value") item) acc else acc)
  | _ => None
  end.
Definition payment_options (data : value) : option props :=
  match data with
  | VArr l => fold_left (λ acc item, o ← acc; payment_option o item) l (Some [])
  | _ => None
  end.

Section payment.
(** [t_value]: the translation of what the server says. *)
Context (t : jsstr → jsstr) (t_value : value → value).

Definition fails (text : string) (s : state) : state := emit (ShowError (VStr (t (u text)))) s.
Definition tells (text : string) (s : state) : state := emit (ShowSuccess (t (u text))) s.

Definition onRefresh (s : state) : state := suspend Refreshing (emit GetOptions (on_view (setPageLoading true) s)).
Definition refresh_failed (s : state) : state := on_view (setPageLoading false) (fails "刷新失败" s).

Definition refreshed (res : value) (s : state) : state :=
  match parts_of res with
  | None => refresh_failed s
  | Some (true, _, data) =>
      match payment_options data with
      | None => refresh_failed s
      | Some new => on_view (λ v, setPageLoading false (apply_options new v)) s
      end
  | Some (false, message, _) => on_view (setPageLoading false) (emit (ShowError (t_value message)) s)
  end.

(** *** Saving *)

Definition send (requests : list (jsstr * value)) (s : state) : state :=
  fold_left (λ s r, emit (Put r.1 r.2) s) requests s.

Definition submission_of_gateway (g : gateway) (v : view) : key_submission :=
  match g with Alipay => alipay_submission (on_alipay v) | Epay => epay_submission (on_epay v) end.

Definition inputs_of (g : gateway) (v : view) : props :=
  match g with Alipay => a_inputs (on_alipay v) | Epay => e_inputs (on_epay v) end.

Definition submit (g : gateway) (s : state) : state :=
  let end_with s := on_view (setGatewayLoading g false) s in
  match submission_of_gateway g (now s) with
  | Throws => end_with (fails "更新失败" s)
  | Missing text => end_with (fails text s)
  | NothingNew => end_with (tells "没有需要更新的配置" s)
  | Send requests priv pub =>
      suspend (Saving g (inputs_of g (now s)) priv pub (map (λ _, None) requests)) (on_view (setGatewayLoading g true) (send requests s))
  end.

(** [!res.data.success] with the message of a refusal; [None] is a TypeError. *)
Definition refusal_of (res : value) : option (option value) :=
  body ← read (u "data") res; ok ← read (u "success") body;
  Some (if truthy ok then None else Some (opt_read (u "message") body)).

Definition refusals (results : list value) : option (list value) := omap id <$> mapM refusal_of results.

(** What a form keeps of a save that was accepted. *)
Definition saved_view (g : gateway) (shown : props) (priv pub : jsstr) (v : view) : view :=
  match g with
  | Alipay =>
      let a := on_alipay v in
      setAlipay (mk_alipay (a_loading a) (a_inputs a) (prop (u "alipay_app_id") shown) (prop (u "alipay_gateway") shown)
        (str_truthy priv || privateSaved a) (str_truthy pub || publicSaved a)) v
  | Epay => let e := on_epay v in setEpay (mk_epay (e_loading e) (e_inputs e) (str_truthy priv || keySaved e)) v
  end.

Definition save_failed (g : gateway) (s : state) : state := on_view (setGatewayLoading g false) (fails "更新失败" s).

Definition all_saved (g : gateway) (shown : props) (priv pub : jsstr) (results : list value) (s : state) : state :=
  match refusals results with
  | None => save_failed g s
  | Some [] => on_view (setGatewayLoading g false) (onRefresh (on_view (saved_view g shown priv pub) (tells "更新成功" s)))
  | Some messages => on_view (setGatewayLoading g false) (fold_left (λ s m, emit (ShowError m) s) messages s)
  end.

(** ** Steps *)

Inductive event :=
  | FormChange (g : gateway) (values : props)
  | Submit (g : gateway)
  | Frame (g : gateway)
  | Answer (i : nat) (res : value)
  | PutAnswer (i k : nat) (res : value)
  | Failure (i : nat).

Definition take_call (i : nat) (s : state) : state := with_calls (delete i (calls s)) s.

Definition form_changed (g : gateway) (values : props) (v : view) : view :=
  match g with
  | Alipay => setAlipay (a_setInputs values (on_alipay v)) v
  | Epay => setEpay (mk_epay (e_loading (on_epay v)) values (keySaved (on_epay v))) v
  end.

Definition frame (g : gateway) (s : state) : state :=
  let v := now s in
  match g with
  | Alipay => match alipay_frame v with Some x => emit (SetValues Alipay x) (on_view (setFrames None (epay_frame v)) s) | None => s end
  | Epay => match epay_frame v with Some x => emit (SetValues Epay x) (on_view (setFrames (alipay_frame v) None) s) | None => s end
  end.

Definition put_answered (i k : nat) (res : value) (s : state) : state :=
  match calls s !! i with
  | Some (Saving g shown priv pub got) =>
      match got !! k with
      | Some None =>
          let got := <[k := Some res]> got in
          match all_answers got with
          | Some results => all_saved g shown priv pub results (take_call i s)
          | None => with_calls (<[i := Saving g shown priv pub got]> (calls s)) s
          end
      | _ => s
      end
  | _ => s
  end.

Definition step (s : state) (e : event) : state :=
  match e with
  | FormChange g values => on_view (form_changed g values) s
  | Submit g => submit g s
  | Frame g => frame g s
  | Answer i res => match calls s !! i with Some Refreshing => refreshed res (take_call i s) | _ => s end
  | PutAnswer i k res => put_answered i k res s
  | Failure i =>
      match calls s !! i with
      | Some (Saving g _ _ _ _) => save_failed g (take_call i s)
      | Some Refreshing => refresh_failed (take_call i s)
      | None => s
      end
  end.

Definition run (s : state) (es : list event) : state := fold_left step es s.

Definition init : state := onRefresh (mk_state (apply_options [] (mk_view [] false alipay_first epay_first None None)) [] []).
End payment.

(** * Laws of the payment settings
    Keys are sent only when they were typed, and never blank; what the server refuses is
    told, and a second try sends the same, unless the options were loaded again
    meanwhile. *)

#[local] Opaque u.

(** ** What is sent *)

Definition names (rs : list (jsstr * value)) : list jsstr := map fst rs.

Lemma trimmed_text_spec v s : trimmed_text v = Some s → trimmed s.
Proof. unfold trimmed_text. destruct (or_empty v); try done. intros [= <-]. apply trimmed_trim. Qed.

Lemma typed_key_In name text k v : (k, v) ∈ typed_key name text ↔ k = payment_key name ∧ v = VStr text ∧ text ≠ [].
Proof.
  unfold typed_key. destruct text as [|c s].
  - split; [by intros ?%elem_of_nil|by intros (_ & _ & ?)].
  - rewrite list_elem_of_singleton. split; [by intros [= -> ->]|by intros (-> & -> & _)].
Qed.

Lemma changed_option_In name k0 origin x k v :
  (k, v) ∈ changed_option name k0 origin x ↔
  k = payment_key name ∧ v = prop (u k0) x ∧ strict_eq v (or_empty origin) = false.
Proof.
  unfold changed_option. destruct (strict_eq _ _) eqn:E.
  - split; [by intros ?%elem_of_nil|]. intros (_ & -> & H). congruence.
  - rewrite list_elem_of_singleton. split; [by intros [= -> ->]|by intros (-> & -> & _)].
Qed.

Lemma alipay_names_differ :
  NoDup (map payment_key ["alipay_app_id"; "alipay_gateway"; "alipay_private_key"; "alipay_public_key"]%string).
Proof. apply (bool_decide_unpack _). vm_compute. exact I. Qed.

(** A save of the Alipay form sends what was typed and nothing else: each key that is sent
    is a text without blanks around it that is not empty, a key that the server does not
    have is always sent, and the identifier and the address exactly when they differ from
    those that were shown. *)
Theorem alipay_save_meaning a rs priv pub :
  alipay_submission a = Send rs priv pub →
  let x := a_inputs a in
  rs ≠ [] ∧ trimmed priv ∧ trimmed pub ∧ (privateSaved a = false → priv ≠ []) ∧ (publicSaved a = false → pub ≠ []) ∧
  ∀ k v, (k, v) ∈ rs ↔
    k = payment_key "alipay_app_id" ∧ v = prop (u "alipay_app_id") x ∧ strict_eq v (or_empty (originApp a)) = false ∨
    k = payment_key "alipay_gateway" ∧ v = prop (u "alipay_gateway") x ∧ strict_eq v (or_empty (originGateway a)) = false ∨
    k = payment_key "alipay_private_key" ∧ v = VStr priv ∧ priv ≠ [] ∨
    k = payment_key "alipay_public_key" ∧ v = VStr pub ∧ pub ≠ [].
Proof.
  unfold alipay_submission. destruct (trimmed_text (prop (u "alipay_private_key") (a_inputs a))) as [p|] eqn:Ep; [|done].
  destruct (trimmed_text (prop (u "alipay_public_key") (a_inputs a))) as [q|] eqn:Eq; [|done].
  destruct (negb (privateSaved a) && negb (str_truthy p)) eqn:Mp; [done|].
  destruct (negb (publicSaved a) && negb (str_truthy q)) eqn:Mq; [done|].
  match goal with |- match ?l with _ => _ end = _ → _ => destruct l as [|r l'] eqn:El; [done|] end.
  intros [= <- <- <-]. split_and!; [done|by eapply trimmed_text_spec|by eapply trimmed_text_spec|..].
  - intros E. rewrite E in Mp. by destruct p.
  - intros E. rewrite E in Mq. by destruct q.
  - intros k v. rewrite <- El, !elem_of_app, !changed_option_In, !typed_key_In. done.
Qed.

Definition typed_alipay : alipay :=
  a_setInputs [(u "alipay_app_id", VStr (u "2021")); (u "alipay_private_key", VStr (u " k ")); (u "alipay_public_key", VStr [])]
    (mk_alipay false [] (VStr []) VUndef false true).

Lemma alipay_save_meaning_witness :
  (payment_key "alipay_private_key", VStr (u "k")) ∈
    [(payment_key "alipay_app_id", VStr (u "2021")); (payment_key "alipay_gateway", VUndef); (payment_key "alipay_private_key", VStr (u "k"))].
Proof.
  pose proof (alipay_save_meaning typed_alipay
    [(payment_key "alipay_app_id", VStr (u "2021")); (payment_key "alipay_gateway", VUndef); (payment_key "alipay_private_key", VStr (u "k"))]
    (u "k") [] ltac:(vm_compute; reflexivity)) as (_ & _ & _ & Hp & _ & H).
  apply H. right; right; left. split; [reflexivity|]. split; [reflexivity|]. by apply Hp.
Defined.

(** ** What is told *)

Lemma refusals_Some results :
  Forall (λ r, is_Some (refusal_of r)) results → refusals results = Some (omap (λ r, mjoin (refusal_of r)) results).
Proof.
  unfold refusals. induction 1 as [|r results [x Hr] _ IH]; [done|]. simpl. rewrite Hr. simpl.
  destruct (mapM refusal_of results) as [l|]; [|done]. injection IH as IH. destruct x; simpl; do 2 f_equal; exact IH.
Qed.

Lemma log_messages messages s :
  log (fold_left (λ s m, emit (ShowError m) s) messages s) = rev (map ShowError messages) ++ log s ∧
  now (fold_left (λ s m, emit (ShowError m) s) messages s) = now s.
Proof.
  revert s. induction messages as [|m l IH]; intros s; [done|]. cbn [fold_left map rev]. destruct (IH (emit (ShowError m) s)) as [-> ->].
  by rewrite <- app_assoc.
Qed.

Lemma log_requests requests s : let s' := send requests s in
  log s' = rev (map (λ r, Put r.1 r.2) requests) ++ log s ∧ now s' = now s ∧ calls s' = calls s.
Proof.
  cbv zeta. unfold send. revert s. induction requests as [|r l IH]; intros s; [done|]. cbn [fold_left map rev].
  destruct (IH (emit (Put r.1 r.2) s)) as (-> & -> & ->). by rewrite <- app_assoc.
Qed.

(** *** From the click to the last answer *)

Definition is_saving (g : gateway) (w : waiting) : bool :=
  match w with Saving g' _ _ _ _ => bool_decide (g' = g) | Refreshing => false end.
Definition saves (g : gateway) (l : list waiting) : nat := length (List.filter (is_saving g) l).

(** The options arrive. *)
Definition accepted (res : value) : bool :=
  match parts_of res with Some (true, _, data) => bool_decide (is_Some (payment_options data)) | _ => false end.

(** Neither does the user type or click in the form, nor do the options arrive. *)
Definition leaves (g : gateway) (e : event) : bool :=
  match e with
  | FormChange g' _ | Submit g' => negb (bool_decide (g' = g))
  | Answer _ res => negb (accepted res)
  | _ => true
  end.

Lemma saves_app g l l' : saves g (l ++ l') = saves g l + saves g l'.
Proof. unfold saves. by rewrite List.filter_app, length_app. Qed.

Lemma saves_delete g i l w : l !! i = Some w → saves g l = saves g (delete i l) + one (is_saving g w).
Proof.
  intros H. rewrite <- (take_drop_middle l i w H) at 1. rewrite delete_take_drop, !saves_app.
  change (w :: drop (S i) l) with ([w] ++ drop (S i) l). rewrite saves_app. unfold saves at 2. simpl.
  destruct (is_saving g w); simpl; lia.
Qed.

Lemma saves_insert g i l w w' : l !! i = Some w → is_saving g w' = is_saving g w → saves g (<[i := w']> l) = saves g l.
Proof.
  intros H E. rewrite <- (take_drop_middle l i w H) at 2. rewrite insert_take_drop by (by eapply lookup_lt_Some).
  rewrite !saves_app. f_equal. unfold saves. simpl. rewrite E. by destruct (is_saving g w).
Qed.

(** Flags are no part of what is sent, nor are the fields of the other form. *)
Lemma submission_loading g g' b v : submission_of_gateway g (setGatewayLoading g' b v) = submission_of_gateway g v.
Proof. by destruct g, g'. Qed.
Lemma submission_saved g g' shown priv pub v : g' ≠ g →
  submission_of_gateway g (saved_view g' shown priv pub v) = submission_of_gateway g v.
Proof. by destruct g, g'. Qed.
Lemma submission_changed g g' values v : g' ≠ g →
  submission_of_gateway g (form_changed g' values v) = submission_of_gateway g v.
Proof. by destruct g, g'. Qed.

Section try_again.
Context (t : jsstr → jsstr) (t_value : value → value) (g : gateway) (n : nat) (sub : key_submission).
Abbreviation step := (step t t_value).
Abbreviation run := (run t t_value).

(** While a save of the form goes on, it would be sent the same again. *)
Record going (s : state) : Prop := {
  go_one : saves g (calls s) ≤ 1;
  go_same : saves g (calls s) = 1 → submission_of_gateway g (now s) = sub;
  go_length : ∀ shown priv pub got, Saving g shown priv pub got ∈ calls s → length got = n;
}.

(** What neither adds a save of the form nor touches what it sends. *)
Lemma going_less s s' :
  going s → saves g (calls s') ≤ saves g (calls s) →
  (saves g (calls s') = 1 → submission_of_gateway g (now s') = submission_of_gateway g (now s)) →
  (∀ shown priv pub got, Saving g shown priv pub got ∈ calls s' → length got = n) → going s'.
Proof.
  intros [G1 G2 G3] Hc Hs Hl. split; [lia| |done]. intros H. rewrite Hs by done. apply G2. lia.
Qed.

Lemma going_other s w s' :
  going s → is_saving g w = false → calls s' = calls s ++ [w] →
  submission_of_gateway g (now s') = submission_of_gateway g (now s) → going s'.
Proof.
  intros Hs Hw Hc Hn. apply (going_less s); [done| |done|].
  - rewrite Hc, saves_app. unfold saves at 2. simpl. rewrite Hw. simpl. lia.
  - rewrite Hc. intros shown priv pub got [H|H%list_elem_of_singleton]%elem_of_app; [by eapply (go_length s Hs)|].
    subst w. simpl in Hw. by rewrite bool_decide_true in Hw.
Qed.

Lemma going_same s s' : going s → calls s' = calls s →
  submission_of_gateway g (now s') = submission_of_gateway g (now s) → going s'.
Proof. intros Hs Hc Hn. apply (going_less s); rewrite ?Hc; [done|done|done|apply (go_length s Hs)]. Qed.

(** A call that comes to its end. *)
Lemma going_take i w s : going s → calls s !! i = Some w → going (take_call i s) ∧
  (is_saving g w = true → saves g (calls (take_call i s)) = 0).
Proof.
  intros Hs Hi. pose proof (saves_delete g i _ w Hi) as Hd. split.
  - apply (going_less s); [done|cbn [take_call with_calls calls]; lia|done|].
    intros shown priv pub got H. eapply (go_length s Hs). rewrite (delete_Permutation _ _ _ Hi). right. exact H.
  - intros Hw. rewrite Hw in Hd. pose proof (go_one s Hs). cbn [one] in Hd. cbn [take_call with_calls calls]. lia.
Qed.

(** The end of a save: of this form, after which none goes on, or of the other. *)
Lemma going_saved i g' shown priv pub got s s' :
  going s → calls s !! i = Some (Saving g' shown priv pub got) →
  calls s' = calls (take_call i s) ∨ calls s' = calls (take_call i s) ++ [Refreshing] →
  (g' ≠ g → submission_of_gateway g (now s') = submission_of_gateway g (now s)) → going s'.
Proof.
  intros Hs Hi Hc Hn. destruct (going_take i _ s Hs Hi) as [Ht H0].
  assert (saves g (calls s') = saves g (calls (take_call i s))) as E.
  { destruct Hc as [->| ->]; [done|]. rewrite saves_app. unfold saves at 2. simpl. lia. }
  apply (going_less (take_call i s)); [done|lia|..].
  - intros H1. apply Hn. intros ->. rewrite E, H0 in H1; [done|]. simpl. by rewrite bool_decide_true.
  - intros sh p q l H. apply (go_length _ Ht sh p q l). destruct Hc as [Hc|Hc]; rewrite Hc in H; [done|].
    by apply elem_of_app in H as [H|H%list_elem_of_singleton].
Qed.

Lemma going_all_saved i g' shown priv pub got results s :
  going s → calls s !! i = Some (Saving g' shown priv pub got) → going (all_saved t g' shown priv pub results (take_call i s)).
Proof.
  intros Hs Hi. unfold all_saved. destruct (refusals results) as [[|m l]|].
  - eapply going_saved; [done..|by right|]. intros Hg. cbn [now on_view onRefresh suspend with_calls emit tells].
    rewrite submission_loading. change (submission_of_gateway g (setPageLoading true ?v)) with (submission_of_gateway g v).
    by rewrite submission_saved.
  - destruct (log_messages (m :: l) (take_call i s)) as [_ E].
    assert (∀ ms s0, calls (fold_left (λ s m, emit (ShowError m) s) ms s0) = calls s0) as Ec.
    { induction ms as [|x ms IH]; intros s0; [done|]. simpl. by rewrite IH. }
    eapply going_saved; [done..|left; cbn [on_view calls]; by rewrite Ec|]. intros _. cbn [now on_view]. rewrite submission_loading.
    by rewrite E.
  - eapply going_saved; [done..|by left|]. intros _. cbn [now on_view save_failed fails emit]. by rewrite submission_loading.
Qed.

Lemma going_put_answered i k res s : going s → going (put_answered t i k res s).
Proof.
  intros Hs. unfold put_answered. destruct (calls s !! i) as [[g' shown priv pub got|]|] eqn:Ei; [|done..].
  destruct (got !! k) as [[]|]; [done| |done]. cbv zeta. destruct (all_answers _) as [results|]; [by eapply going_all_saved|].
  apply (going_less s); [done| |done|]; cbn [calls with_calls].
  - by rewrite (saves_insert g i _ _ _ Ei).
  - intros sh p q l [j Hj]%list_elem_of_lookup. apply list_lookup_insert_Some in Hj as [(<- & E & _)|[_ Hj]].
    + injection E as -> <- <- <- <-. rewrite length_insert. eapply (go_length s Hs), list_elem_of_lookup_2, Ei.
    + by eapply (go_length s Hs), list_elem_of_lookup_2.
Qed.

Lemma going_refreshed i res s : going s → accepted res = false → calls s !! i = Some Refreshing →
  going (refreshed t t_value res (take_call i s)).
Proof.
  intros Hs Ha Hi. destruct (going_take i _ s Hs Hi) as [Ht _]. unfold accepted in Ha. unfold refreshed.
  destruct (parts_of res) as [[[[] m] data]|]; [|by eapply going_same..].
  apply bool_decide_eq_false in Ha. destruct (payment_options data); [by destruct Ha; eexists|by eapply going_same].
Qed.

Lemma going_submit g' s : g' ≠ g → going s → going (submit t g' s).
Proof.
  intros Hg Hs. unfold submit. cbv zeta.
  destruct (submission_of_gateway g' (now s)) as [|text| |requests priv pub];
    [by apply (going_same s); [..|apply submission_loading]..|].
  destruct (log_requests requests s) as (_ & E1 & E2).
  eapply (going_other s); [done| |by cbn [calls suspend with_calls on_view]; rewrite E2|].
  - simpl. by rewrite bool_decide_false.
  - cbn [now suspend with_calls on_view]. by rewrite submission_loading, E1.
Qed.

Lemma going_step s e : going s → leaves g e = true → going (step s e).
Proof.
  intros Hs He. destruct e as [g' values|g'|g'|i res|i k res|i]; cbn [PaymentSettings.step leaves] in *.
  - apply negb_true_iff, bool_decide_eq_false in He. by apply (going_same s); [..|apply submission_changed].
  - apply negb_true_iff, bool_decide_eq_false in He. by apply going_submit.
  - unfold frame. destruct g', (alipay_frame (now s)), (epay_frame (now s)); by apply (going_same s); [..|destruct g].
  - destruct (calls s !! i) as [[]|] eqn:Ei; [done| |done]. apply negb_true_iff in He. by apply going_refreshed.
  - by apply going_put_answered.
  - destruct (calls s !! i) as [[g' shown priv pub got|]|] eqn:Ei; [| |done].
    + eapply going_saved; [done..|by left|]. intros _. cbn [now on_view save_failed fails emit]. by rewrite submission_loading.
    + destruct (going_take i _ s Hs Ei) as [Ht _]. by eapply going_same.
Qed.

Lemma going_run l s : going s → forallb (leaves g) l = true → going (run s l).
Proof.
  revert s. induction l as [|e l IH]; intros s Hs Hl; [done|]. simpl in Hl. apply andb_true_iff in Hl as [He Hl].
  apply IH; [|done]. by apply going_step.
Qed.
End try_again.

(** C36: What a save that was clicked comes to, when no other save of its form goes on and
    the user leaves the form alone and no options arrive until all its requests have been
    answered: if the server accepted every one this is said and the options are asked for
    again; if it refused any, exactly its messages are shown, in the order of the requests,
    and a second click sends the requests of the first one again. *)
Theorem payment_refusals_told t t_value s0 g requests priv pub l i shown priv' pub' got k res results :
  submission_of_gateway g (now s0) = Send requests priv pub → saves g (calls s0) = 0 →
  forallb (leaves g) l = true →
  let puts := rev (map (λ r, Put r.1 r.2) requests) in
  let s1 := step t t_value s0 (Submit g) in
  let s := run t t_value s1 l in
  calls s !! i = Some (Saving g shown priv' pub' got) → got !! k = Some None →
  all_answers (<[k := Some res]> got) = Some results → Forall (λ r, is_Some (refusal_of r)) results →
  let s2 := step t t_value s (PutAnswer i k res) in
  let messages := omap (λ r, mjoin (refusal_of r)) results in
  log s1 = puts ++ log s0 ∧ length results = length requests ∧
  (messages = [] → log s2 = GetOptions :: ShowSuccess (t (u "更新成功")) :: log s) ∧
  (messages ≠ [] → log s2 = rev (map ShowError messages) ++ log s ∧
     log (step t t_value s2 (Submit g)) = puts ++ log s2).
Proof.
  intros Hsub H0 Hl puts s1 s Hi Hk Ha Hr s2 messages.
  assert (∀ x, submission_of_gateway g (now x) = Send requests priv pub → log (step t t_value x (Submit g)) = puts ++ log x) as Hsend.
  { intros x Hx. cbn [step]. unfold submit. rewrite Hx. cbn [log suspend with_calls on_view].
    by destruct (log_requests requests x) as (-> & _ & _). }
  assert (going g (length requests) (Send requests priv pub) s) as [G1 G2 G3].
  { apply going_run; [|done]. unfold s1. cbn [step]. unfold submit. rewrite Hsub.
    destruct (log_requests requests s0) as (_ & E1 & E2). split; cbn [calls suspend with_calls on_view now]; rewrite E2.
    - rewrite saves_app, H0. unfold saves. simpl. rewrite bool_decide_true by done. simpl. lia.
    - intros _. by rewrite submission_loading, E1.
    - intros sh p q x [H|H%list_elem_of_singleton]%elem_of_app; [|injection H as _ _ _ ->; by rewrite length_map].
      exfalso. apply list_elem_of_lookup in H as [j Hj]. pose proof (saves_delete g j _ _ Hj) as Hd. simpl in Hd.
      rewrite bool_decide_true in Hd by done. simpl in Hd. lia. }
  split; [by apply Hsend|]. split.
  { rewrite <- (G3 _ _ _ _ (list_elem_of_lookup_2 _ _ _ Hi)). apply all_answers_Some, (f_equal length) in Ha.
    by rewrite length_insert, length_map in Ha. }
  assert (s2 = all_saved t g shown priv' pub' results (take_call i s)) as ->.
  { unfold s2. cbn [step]. unfold put_answered. rewrite Hi, Hk. cbv zeta. by rewrite Ha. }
  assert (saves g (calls s) = 1) as H1.
  { pose proof (saves_delete g i _ _ Hi) as Hd. simpl in Hd. rewrite bool_decide_true in Hd by done. simpl in Hd. lia. }
  unfold all_saved. rewrite (refusals_Some results Hr). fold messages. destruct messages as [|m ms].
  - split; [|done]. intros _. by destruct g.
  - split; [done|]. intros _. destruct (log_messages (m :: ms) (take_call i s)) as [E1 E2]. split; [exact E1|].
    apply Hsend. cbn [now on_view]. rewrite submission_loading, E2. apply G2, H1.
Qed.

Definition accepted_answer : value := VObj [(u "data", VObj [(u "success", VBool true)])].
Definition refused_answer (m : string) : value := VObj [(u "data", VObj [(u "success", VBool false); (u "message", VStr (u m))])].
Definition filled_state : state := mk_state (mk_view [] false typed_alipay epay_first None None) [] [].

(** Three requests are sent; the first and the last are refused, in the other order. *)
Lemma payment_refusals_told_witness :
  let s := run (λ x, x) (λ x, x) filled_state
    [Submit Alipay; FormChange Epay []; PutAnswer 0 2 (refused_answer "b"); Frame Epay; PutAnswer 0 1 accepted_answer] in
  let s' := step (λ x, x) (λ x, x) s (PutAnswer 0 0 (refused_answer "a")) in
  log s' = [ShowError (VStr (u "b")); ShowError (VStr (u "a"))] ++ log s ∧
  log (step (λ x, x) (λ x, x) s' (Submit Alipay)) = log s ++ log s'.
Proof.
  intros s s'.
  assert (submission_of_gateway Alipay (now filled_state) = Send [(payment_key "alipay_app_id", VStr (u "2021"));
    (payment_key "alipay_gateway", VUndef); (payment_key "alipay_private_key", VStr (u "k"))] (u "k") []) as H1 by (vm_compute; reflexivity).
  assert (calls s !! 0 = Some (Saving Alipay (a_inputs typed_alipay) (u "k") []
    [None; Some accepted_answer; Some (refused_answer "b")])) as H2 by (vm_compute; reflexivity).
  assert (Forall (λ r, is_Some (refusal_of r)) [refused_answer "a"; accepted_answer; refused_answer "b"]) as H3.
  { repeat apply Forall_cons_2; [..|apply Forall_nil_2]; eexists; vm_compute; reflexivity. }
  destruct (payment_refusals_told (λ x, x) (λ x, x) filled_state Alipay _ _ _
    [FormChange Epay []; PutAnswer 0 2 (refused_answer "b"); Frame Epay; PutAnswer 0 1 accepted_answer]
    0 _ _ _ _ 0 (refused_answer "a") [refused_answer "a"; accepted_answer; refused_answer "b"] H1 eq_refl eq_refl H2 eq_refl eq_refl H3)
    as (_ & _ & _ & H4).
  destruct H4 as [H4 H5]; [vm_compute; discriminate|]. split; [etransitivity; [exact H4|vm_compute; reflexivity]|].
  etransitivity; [exact H5|]. vm_compute. reflexivity.
Defined.

(** Where the other form is saved meanwhile, the options that arrive empty this one: a click
    after the refusal sends nothing of what was typed. *)
Example refresh_empties_the_other :
  let options := VObj [(u "data", VObj [(u "success", VBool true); (u "data", VArr [
    VObj [(u "key", VStr (payment_key "alipay_private_key")); (u "value", VStr (u "***"))];
    VObj [(u "key", VStr (payment_key "alipay_public_key")); (u "value", VStr (u "***"))]])])] in
  let s := run (λ x, x) (λ x, x) filled_state
    [Submit Alipay; Submit Epay; PutAnswer 1 0 accepted_answer; PutAnswer 1 1 accepted_answer; PutAnswer 1 2 accepted_answer;
     PutAnswer 1 3 accepted_answer; Answer 1 options; PutAnswer 0 0 accepted_answer; PutAnswer 0 1 accepted_answer;
     PutAnswer 0 2 (refused_answer "no")] in
  (head (log s), submission_of_gateway Alipay (now s)) = (Some (ShowError (VStr (u "no"))), NothingNew).
Proof. vm_compute. reflexivity. Qed.
