(* ===== verification/ClawdSettings.v ===== *)
(** * Settings of the agent
    [src/web/src/pages/Setting/Operation/SettingsClawd.jsx]: the address, the model and the
    key of the agent; the key is never shown. *)

From Stdlib Require Import SpecFloat.
From stdpp Require Import base numbers option strings sets list.
From S2P Require Import Prelude JsString JsNumber JsValue JsOps OptionForms PaymentSettings.

Record view := mk_view {
  loading : bool; saving : bool; baseUrl : value; model : value; keyInput : jsstr; hasKey : bool; showKey : bool;
}.

Inductive effect := GetSetting | PutSetting (payload : value) | ShowError (v : value) | ShowSuccess (text : jsstr).
Inductive waiting := Loading | Saving.
Record state := mk_state { now : view; calls : list waiting; log : list effect }.

Definition emit e s := mk_state (now s) (calls s) (e :: log s).
Definition with_calls l s := mk_state (now s) l (log s).
Definition suspend (w : waiting) (s : state) : state := with_calls (calls s ++ [w]) s.
Definition on_view (f : view → view) (s : state) : state := mk_state (f (now s)) (calls s) (log s).

Definition setLoading b v := mk_view b (saving v) (baseUrl v) (model v) (keyInput v) (hasKey v) (showKey v).
Definition setSaving b v := mk_view (loading v) b (baseUrl v) (model v) (keyInput v) (hasKey v) (showKey v).
Definition setLoaded url m has v := mk_view (loading v) (saving v) url m (keyInput v) has (showKey v).
Definition setKeyInput text v := mk_view (loading v) (saving v) (baseUrl v) (model v) text (hasKey v) (showKey v).
Definition setShowKey b v := mk_view (loading v) (saving v) (baseUrl v) (model v) (keyInput v) (hasKey v) b.

Section clawd.
Context (t : jsstr → jsstr) (engine_error : value).

Definition loadSettings (s : state) : state := suspend Loading (emit GetSetting (on_view (setLoading true) s)).

Definition load_failed (error : value) (s : state) : state := on_view (setLoading false) (emit (ShowError error) s).

Definition loaded (res : value) (s : state) : state :=
  match parts_of res with
  | None => load_failed engine_error s
  | Some (success, _, data) =>
      let d := value_or data (VObj []) in
      on_view (λ v, setLoading false
        (if success then setLoaded (or_empty (opt_read (u "agent_base_url") d)) (or_empty (opt_read (u "agent_model") d))
                           (truthy (opt_read (u "agent_api_key") d)) v
         else v)) s
  end.

Definition payload (v : view) : value :=
  VObj ([(u "agent_base_url", baseUrl v); (u "agent_model", model v)] ++
    match keyInput v with [] => [] | text => [(u "agent_api_key", VStr text)] end).

Definition handleSave (s : state) : state := suspend Saving (emit (PutSetting (payload (now s))) (on_view (setSaving true) s)).

(** The answer is not looked at. *)
Definition saved (s : state) : state :=
  on_view (setSaving false) (loadSettings (on_view (setKeyInput []) (emit (ShowSuccess (t (u "保存成功"))) s))).
Definition save_failed (error : value) (s : state) : state := on_view (setSaving false) (emit (ShowError error) s).

Inductive event :=
  | Url (text : jsstr)
  | Model (text : jsstr)
  | Key (text : jsstr)
  | ShowKey
  | Save
  | Answer (i : nat) (res : value)
  | Failure (i : nat) (error : value).

Definition take_call (i : nat) (s : state) : state := with_calls (delete i (calls s)) s.

Definition step (s : state) (e : event) : state :=
  match e with
  | Url text => on_view (λ v, setLoaded (VStr text) (model v) (hasKey v) v) s
  | Model text => on_view (λ v, setLoaded (baseUrl v) (VStr text) (hasKey v) v) s
  | Key text => on_view (setKeyInput text) s
  | ShowKey => on_view (λ v, setShowKey (negb (showKey v)) v) s
  | Save => handleSave s
  | Answer i res =>
      match calls s !! i with
      | Some Loading => loaded res (take_call i s)
      | Some Saving => saved (take_call i s)
      | None => s
      end
  | Failure i error =>
      match calls s !! i with
      | Some Loading => load_failed error (take_call i s)
      | Some Saving => save_failed error (take_call i s)
      | None => s
      end
  end.

Definition run (s : state) (es : list event) : state := fold_left step es s.
Definition init : state := loadSettings (mk_state (mk_view false false (VStr []) (VStr []) [] false false) [] []).
End clawd.

Definition refusal : value := VObj [(u "data", VObj [(u "success", VBool false)])].

(** A save of the agent that the server refuses is told as saved, and the key that was
    typed is gone. *)
Theorem agent_refusal_told_saved t engine_error s i res :
  calls s !! i = Some Saving →
  let s' := step t engine_error s (Answer i res) in
  log s' = GetSetting :: ShowSuccess (t (u "保存成功")) :: log s ∧ keyInput (now s') = [].
Proof. intros Hi. cbn [step]. by rewrite Hi. Qed.

Lemma agent_refusal_told_saved_witness :
  keyInput (now (run (λ x, x) VUndef init [Key (u "sk"); Save; Answer 1 refusal])) = [].
Proof.
  pose proof (agent_refusal_told_saved (λ x, x) VUndef (run (λ x, x) VUndef init [Key (u "sk"); Save]) 1
    refusal eq_refl) as [_ H]. exact H.
Defined.
