(* ===== verification/ClawdStream.v ===== *)
(** * The answer of the agent as it arrives
    The loop of [handleSend] in [src/web/src/components/common/ClawdChatPanel.jsx]: chunks
    of text are cut into lines, the lines that hold events are read into a text, a
    reasoning and calls of tools, and what has been read is shown.  The loop waits for a
    timer after a piece of text or of reasoning, and its [break] at the end of an answer
    leaves the lines of one chunk only.

    [read_stream] reads lines at once, and [said] a stream of chunks: of the lines that a
    chunk completes, those up to the end of an answer.  The answer does not depend on how
    the stream is cut, as long as no event follows the end. *)

From Stdlib Require Import SpecFloat.
From stdpp Require Import base numbers option strings sets list.
From S2P Require Import Prelude JsString JsNumber JsValue Json JsOps.

(** ** What is read *)

Record call := mk_call {
  name : value; status : value; result : value; error : value; args : value;
}.

(** The variables of the handler. *)
Record answer := mk_answer { fullText : jsstr; reasoningAcc : jsstr; toolCallsAcc : list call }.
Definition no_answer : answer := mk_answer [] [] [].

(** The states of the panel that show them. *)
Record preview := mk_preview {
  streamingText : jsstr; streamingReasoning : jsstr; streamingToolCalls : list call;
  toolCallInfo : value; toolCallStatus : value;
}.
Definition no_preview : preview := mk_preview [] [] [] (VStr []) (VStr []).

(** [s += v] where [s] is a text. *)
Definition append (s : jsstr) (v : value) : option jsstr := text ← to_string v; Some (s ++ text).

Definition or_text (v : value) (s : string) : value := value_or v (VStr (u s)).

(** The first call of that name is changed, or one is added. *)
Fixpoint note_call (c : call) (l : list call) : list call :=
  match l with
  | [] => [c]
  | t :: l' =>
      if strict_eq (name t) (name c)
      then mk_call (name t) (status c) (value_or (result c) (result t)) (value_or (error c) (error t))
             (value_or (args c) (args t)) :: l'
      else t :: note_call c l'
  end.

Definition call_of (data : value) : call :=
  mk_call (or_text (opt_read (u "tool_name") data) "tool") (or_text (opt_read (u "subtype") data) "started")
    (or_text (opt_read (u "result") data) "") (or_text (opt_read (u "error") data) "")
    (or_text (opt_read (u "tool_args") data) "").

(** How the loop goes on after a line. *)
Inductive outcome := Goes | Waits | Breaks.

(** A time stamp is printed with its difference to the clock, which can throw. *)
Definition printable (ts : value) : bool := negb (truthy ts) || bool_decide (is_Some (to_number ts)).

(** An event; whatever throws is caught and skipped. *)
Definition read_event (data : value) (a : answer) (v : preview) : answer * preview * outcome :=
  let is_type s := strict_eq (opt_read (u "type") data) (VStr (u s)) in
  let content := opt_read (u "content") data in
  if is_type "content" then
    match (if printable (opt_read (u "ts") data) then append (fullText a) (or_text content "") else None) with
    | Some t => (mk_answer t (reasoningAcc a) (toolCallsAcc a),
                 mk_preview t (streamingReasoning v) (streamingToolCalls v) (toolCallInfo v) (toolCallStatus v), Waits)
    | None => (a, v, Goes)
    end
  else if is_type "reasoning" then
    match append (reasoningAcc a) (or_text content "") with
    | Some t => (mk_answer (fullText a) t (toolCallsAcc a),
                 mk_preview (streamingText v) t (streamingToolCalls v) (toolCallInfo v) (toolCallStatus v), Waits)
    | None => (a, v, Goes)
    end
  else if is_type "tool_call" then
    let c := call_of data in
    let l := note_call c (toolCallsAcc a) in
    (mk_answer (fullText a) (reasoningAcc a) l,
     mk_preview (streamingText v) (streamingReasoning v) l (name c) (status c), Goes)
  else if is_type "error" then
    match append (fullText a ++ if str_truthy (fullText a) then [10; 10]%N else []) (or_text content "未知错误") with
    | Some t => (mk_answer t (reasoningAcc a) (toolCallsAcc a),
                 mk_preview t (streamingReasoning v) (streamingToolCalls v) (toolCallInfo v) (toolCallStatus v), Goes)
    | None => (a, v, Goes)
    end
  else if is_type "done" then (a, v, Breaks)
  else (a, v, Goes).

(** The event of a line, if it holds one that can be parsed. *)
Definition event_of (line : jsstr) : option value :=
  if starts_with line (u "data: ") then
    match trim (drop 6 line) with [] => None | text => json_parse text end
  else None.

Definition read_line (line : jsstr) (a : answer) (v : preview) : answer * preview * outcome :=
  match event_of line with
  | Some VNull | None => (a, v, Goes)
  | Some data => read_event data a v
  end.

(** The lines of a chunk up to the first wait: those left, or [None] at the end. *)
Fixpoint read_lines (lines : list jsstr) (a : answer) (v : preview) : answer * preview * option (list jsstr) :=
  match lines with
  | [] => (a, v, None)
  | line :: rest =>
      match read_line line a v with
      | (a', v', Goes) => read_lines rest a' v'
      | (a', v', Waits) => (a', v', Some rest)
      | (a', v', Breaks) => (a', v', None)
      end
  end.

(** ** The loop *)

(** Where it waits: for the next chunk, or for the timer with lines to come. *)
Inductive point := AtRead | AtTimer (rest : list jsstr).

#[export] Instance point_eq_dec : EqDecision point.
Proof. solve_decision. Defined.

Record reading := mk_reading { got : answer; buffer : jsstr; where_at : point }.
Definition start_reading : reading := mk_reading no_answer [] AtRead.

Definition go_on (lines : list jsstr) (a : answer) (b : jsstr) (v : preview) : reading * preview :=
  match read_lines lines a v with
  | (a', v', Some rest) => (mk_reading a' b (AtTimer rest), v')
  | (a', v', None) => (mk_reading a' b AtRead, v')
  end.

(** A chunk, once decoded. *)
Definition take_chunk (chunk : jsstr) (r : reading) (v : preview) : reading * preview :=
  match where_at r with
  | AtRead =>
      let lines := split_on 10%N (buffer r ++ chunk) in
      go_on (removelast lines) (got r) (List.last lines []) v
  | AtTimer _ => (r, v)
  end.

Definition timer (r : reading) (v : preview) : reading * preview :=
  match where_at r with AtTimer rest => go_on rest (got r) (buffer r) v | AtRead => (r, v) end.

(** All the timers of a chunk. *)
Definition settle_chunk (r : reading) (v : preview) : reading * preview :=
  match where_at r with
  | AtTimer rest => Nat.iter (S (length rest)) (λ p, timer p.1 p.2) (r, v)
  | AtRead => (r, v)
  end.

(** ** The stream as a whole *)

(** The answer of complete lines, up to the event that ends it. *)
Fixpoint read_stream (lines : list jsstr) (a : answer) : answer :=
  match lines with
  | [] => a
  | line :: rest =>
      match read_line line a no_preview with
      | (a', _, Breaks) => a'
      | (a', _, _) => read_stream rest a'
      end
  end.

(** A chunk completes the line that was begun before it. *)
Definition say_chunk (p : answer * jsstr) (chunk : jsstr) : answer * jsstr :=
  let lines := split_on 10%N (p.2 ++ chunk) in (read_stream (removelast lines) p.1, List.last lines []).
Definition said (chunks : list jsstr) : answer := (fold_left say_chunk chunks (no_answer, [])).1.

(** The lines of a text that are complete: what follows the last line feed is not. *)
Definition complete_lines (text : jsstr) : list jsstr := removelast (split_on 10%N text).

Definition ends (line : jsstr) : bool :=
  match event_of line with
  | Some data => strict_eq (opt_read (u "type") data) (VStr (u "done"))
  | None => false
  end.

(** A line that adds nothing: no event, or one of another type. *)
Definition silent (line : jsstr) : bool :=
  match event_of line with
  | Some data =>
      negb (existsb (λ s, strict_eq (opt_read (u "type") data) (VStr (u s))) ["content"; "reasoning"; "tool_call"; "error"]%string)
  | None => true
  end.

(** Nothing is said after the end. *)
Fixpoint ends_quietly (lines : list jsstr) : bool :=
  match lines with
  | [] => true
  | line :: rest => if ends line then forallb silent rest else ends_quietly rest
  end.

(** ** Lemmas on lines *)

Lemma read_line_answer line a v v' : (read_line line a v).1.1 = (read_line line a v').1.1.
Proof.
  unfold read_line, read_event. destruct (event_of line) as [[]|]; [..|done]; try done;
    repeat case_match; simplify_eq; done.
Qed.

Lemma read_line_outcome line a v v' : (read_line line a v).2 = (read_line line a v').2.
Proof.
  unfold read_line, read_event. destruct (event_of line) as [[]|]; [..|done]; try done;
    repeat case_match; simplify_eq; done.
Qed.

Lemma strict_eq_text t s : strict_eq t (VStr s) = true → t = VStr s.
Proof. destruct t; simpl; try done. intros H. apply bool_decide_eq_true in H. by subst. Qed.

(** The end of an answer changes nothing and is the only line that breaks. *)
Lemma read_line_end line a v : ends line = true → read_line line a v = (a, v, Breaks).
Proof.
  unfold ends, read_line, read_event. destruct (event_of line) as [data|]; [|done].
  intros E. apply strict_eq_text in E. rewrite E. by destruct data.
Qed.

Lemma read_line_goes line a v : ends line = false → (read_line line a v).2 ≠ Breaks.
Proof.
  unfold ends, read_line, read_event. destruct (event_of line) as [data|]; [|done].
  intros E. destruct data; try done; rewrite E; repeat case_match; done.
Qed.

Lemma read_line_silent line a v : silent line = true → (read_line line a v).1 = (a, v).
Proof.
  unfold silent, read_line, read_event. destruct (event_of line) as [data|]; [|done].
  intros E. apply negb_true_iff in E. cbn [existsb] in E. rewrite !orb_false_iff in E.
  destruct E as (E1 & E2 & E3 & E4 & _). destruct data; try done; rewrite E1, E2, E3, E4; by case_match.
Qed.

(** All lines are read, whatever they say. *)
Definition read_all (lines : list jsstr) (a : answer) : answer :=
  fold_left (λ a line, (read_line line a no_preview).1.1) lines a.

Lemma read_all_app l1 l2 a : read_all (l1 ++ l2) a = read_all l2 (read_all l1 a).
Proof. apply fold_left_app. Qed.

Lemma read_all_silent lines a : forallb silent lines = true → read_all lines a = a.
Proof.
  revert a. induction lines as [|line lines IH]; intros a H; [done|].
  simpl in H. apply andb_true_iff in H as [H1 H2]. simpl. rewrite read_line_silent by done. by apply IH.
Qed.

Lemma ends_quietly_silent lines : forallb silent lines = true → ends_quietly lines = true.
Proof.
  induction lines as [|line lines IH]; [done|]. simpl. intros [_ H]%andb_true_iff. case_match; auto.
Qed.

Lemma ends_quietly_app l1 l2 :
  ends_quietly (l1 ++ l2) = true → ends_quietly l1 = true ∧ ends_quietly l2 = true.
Proof.
  induction l1 as [|line l1 IH]; [done|]. simpl. case_match; [|apply IH].
  rewrite forallb_app, andb_true_iff. intros [H1 H2]. split; [done|]. by apply ends_quietly_silent.
Qed.

Lemma read_stream_all lines a : ends_quietly lines = true → read_stream lines a = read_all lines a.
Proof.
  revert a. induction lines as [|line lines IH]; intros a H; [done|]. simpl in *.
  destruct (ends line) eqn:E.
  - rewrite read_line_end by done. simpl. by rewrite read_all_silent.
  - pose proof (read_line_goes line a no_preview E).
    destruct (read_line line a no_preview) as [[a' v'] []] eqn:R; simpl in *; [| |done]; by apply IH.
Qed.

(** What the loop reads of some lines, and what is left. *)
Lemma read_lines_spec lines a v :
  let '(a', _, todo) := read_lines lines a v in read_stream lines a = read_stream (default [] todo) a'.
Proof.
  revert a v. induction lines as [|line lines IH]; intros a v; [done|]. simpl.
  pose proof (read_line_answer line a v no_preview) as Ha. pose proof (read_line_outcome line a v no_preview) as Ho.
  destruct (read_line line a v) as [[a' v'] o], (read_line line a no_preview) as [[a2 v2] o2].
  simpl in Ha, Ho. subst a2 o2. destruct o; [apply IH|done|done].
Qed.

Lemma split_on_app c s t :
  split_on c (s ++ t) = removelast (split_on c s) ++ split_on c (List.last (split_on c s) [] ++ t).
Proof.
  induction s as [|x s IH]; [done|]. cbn [split_on app].
  pose proof (split_on_nonnil c s) as Hs.
  destruct (x =? c)%N eqn:Ex.
  - rewrite IH. by destruct (split_on c s) as [|w ws].
  - rewrite IH. destruct (split_on c s) as [|w [|w' ws]]; [done| |done].
    cbn [removelast List.last app split_on]. rewrite Ex. by destruct (split_on c (w ++ t)).
Qed.

Lemma last_app_nonnil {A} (l1 l2 : list A) d : l2 ≠ [] → List.last (l1 ++ l2) d = List.last l2 d.
Proof.
  induction l1 as [|x l1 IH]; intros H; [done|]. simpl. rewrite IH by done. by destruct l1, l2.
Qed.

Lemma complete_lines_app s t :
  complete_lines (s ++ t) = complete_lines s ++ complete_lines (List.last (split_on 10%N s) [] ++ t) ∧
  List.last (split_on 10%N (s ++ t)) [] = List.last (split_on 10%N (List.last (split_on 10%N s) [] ++ t)) [].
Proof.
  pose proof (split_on_nonnil 10%N (List.last (split_on 10%N s) [] ++ t)) as Hn.
  unfold complete_lines. rewrite split_on_app. split; [by rewrite removelast_app|by rewrite last_app_nonnil].
Qed.

(** ** The loop in time *)

Definition left_of (r : reading) : list jsstr := match where_at r with AtTimer rest => rest | AtRead => [] end.

(** What has arrived when: chunks are taken when the loop waits for them, timers run
    out, and the panel may change what it shows meanwhile. *)
Inductive arrives : list jsstr → reading → preview → Prop :=
  | arrives_start v : arrives [] start_reading v
  | arrives_chunk chunks r v chunk :
      arrives chunks r v → where_at r = AtRead →
      arrives (chunks ++ [chunk]) (take_chunk chunk r v).1 (take_chunk chunk r v).2
  | arrives_timer chunks r v : arrives chunks r v → arrives chunks (timer r v).1 (timer r v).2
  | arrives_shown chunks r v v' : arrives chunks r v → arrives chunks r v'.

Lemma go_on_spec lines a b v :
  let r := (go_on lines a b v).1 in read_stream lines a = read_stream (left_of r) (got r) ∧ buffer r = b.
Proof.
  pose proof (read_lines_spec lines a v) as S. unfold go_on, left_of.
  by destruct (read_lines lines a v) as [[a' v'] [rest|]].
Qed.

Lemma arrives_spec chunks r v :
  arrives chunks r v → fold_left say_chunk chunks (no_answer, []) = (read_stream (left_of r) (got r), buffer r).
Proof.
  induction 1 as [v|chunks r v chunk _ IH Hw|chunks r v _ IH|chunks r v v' _ IH]; [done|..|done].
  - rewrite fold_left_app. simpl. rewrite IH. unfold say_chunk, take_chunk. rewrite Hw. cbn [fst snd].
    assert (left_of r = []) as -> by (unfold left_of; by rewrite Hw). cbn [read_stream].
    by destruct (go_on_spec (removelast (split_on 10%N (buffer r ++ chunk))) (got r)
      (List.last (split_on 10%N (buffer r ++ chunk)) []) v) as [-> ->].
  - unfold timer, left_of in *. destruct (where_at r) as [|rest] eqn:Hw; [by rewrite IH; simpl; rewrite Hw|].
    rewrite IH. by destruct (go_on_spec rest (got r) (buffer r) v) as [-> ->].
Qed.

(** However the timers of the loop and the panel's own changes fall between the chunks, it
    has read what they say. *)
Lemma answers_read chunks r v : arrives chunks r v → where_at r = AtRead → got r = said chunks.
Proof. intros Ha Hw. unfold said. rewrite (arrives_spec _ _ _ Ha). unfold left_of. by rewrite Hw. Qed.

(** The cuts make no difference where nothing is said after the end. *)
Lemma said_together chunks : let text := concat chunks in
  ends_quietly (complete_lines text) = true → said chunks = read_stream (complete_lines text) no_answer.
Proof.
  cbv zeta.
  assert (ends_quietly (complete_lines (concat chunks)) = true →
    fold_left say_chunk chunks (no_answer, []) =
    (read_all (complete_lines (concat chunks)) no_answer, List.last (split_on 10%N (concat chunks)) [])) as H.
  { induction chunks as [|chunk chunks IH] using rev_ind; [done|].
    rewrite concat_app, fold_left_app. cbn [concat fold_left]. rewrite app_nil_r.
    destruct (complete_lines_app (concat chunks) chunk) as [-> ->]. intros [H1 H2]%ends_quietly_app.
    rewrite IH by done. unfold say_chunk. cbn [fst snd]. fold (complete_lines (List.last (split_on 10%N (concat chunks)) [] ++ chunk)).
    by rewrite read_stream_all, read_all_app. }
  intros Hq. unfold said. by rewrite (H Hq), read_stream_all.
Qed.

(** Every wait for a timer ends: each timer leaves fewer lines. *)
Lemma read_lines_fewer lines a v :
  match (read_lines lines a v).2 with Some rest => length rest < length lines | None => True end.
Proof.
  revert a v. induction lines as [|line lines IH]; intros a v; [done|]. simpl.
  destruct (read_line line a v) as [[a' v'] []]; simpl; [|lia|done].
  specialize (IH a' v'). case_match; [lia|done].
Qed.

Lemma timer_at_read r v : where_at r = AtRead → timer r v = (r, v).
Proof. unfold timer. by intros ->. Qed.

Lemma timer_fewer r v : where_at r ≠ AtRead → length (left_of (timer r v).1) < S (length (left_of r)) ∧
  (where_at (timer r v).1 = AtRead ∨ length (left_of (timer r v).1) < length (left_of r)).
Proof.
  unfold timer, left_of, go_on. destruct (where_at r) as [|rest]; [done|]. intros _.
  pose proof (read_lines_fewer rest (got r) v) as H.
  destruct (read_lines rest (got r) v) as [[a' v'] [l|]]; simpl in *; split; try lia; auto.
Qed.

Lemma timers_stay n p : where_at p.1 = AtRead → Nat.iter n (λ p, timer p.1 p.2) p = p.
Proof.
  destruct p as [r v]. intros H. induction n as [|n IH]; [done|]. cbn [Nat.iter nat_rect] in *.
  etransitivity; [exact (f_equal (λ p, timer p.1 p.2) IH)|]. by apply timer_at_read.
Qed.

Lemma timers_end n r v :
  length (left_of r) < n → where_at (Nat.iter n (λ p, timer p.1 p.2) (r, v)).1 = AtRead.
Proof.
  revert r v. induction n as [|n IH]; intros r v H; [lia|]. rewrite Nat.iter_succ_r. cbn [fst snd].
  destruct (decide (where_at r = AtRead)) as [Hw|Hw]; [by rewrite timer_at_read, timers_stay|].
  destruct (timer_fewer r v Hw) as [_ Hf]. destruct (timer r v) as [r' v']. cbn [fst] in Hf.
  destruct Hf as [Hf|Hf]; [by rewrite timers_stay|]. apply IH. lia.
Qed.

(** After a chunk the loop waits for the next one: it reads it to the end. *)
Theorem chunk_is_read chunk r v :
  where_at (let '(r', v') := take_chunk chunk r v in settle_chunk r' v').1 = AtRead.
Proof.
  destruct (take_chunk chunk r v) as [r' v']. unfold settle_chunk.
  destruct (where_at r') as [|rest] eqn:Hw; [done|]. apply timers_end. unfold left_of. rewrite Hw. lia.
Qed.
