(* ===== verification/ClawdChat.v ===== *)
(** * The agent's chat
    [src/web/src/components/common/ClawdMascot.jsx], the crab that opens the chat and shows
    that an answer has come, and [ClawdChatPanel.jsx]: the messages, the answer that
    streams in, stopping and starting anew, the width of the panel, and the previews of
    charts.

    An answer is a handler suspended in a [turn] with the texts of the render of its
    click; the server's answers, the timers and the user's actions are events. *)

From Stdlib Require Import SpecFloat.
From stdpp Require Import base numbers option strings sets list.
From S2P Require Import Prelude JsString JsNumber NumberOrder JsValue Json JsOps Session ClawdStream.

(** ** Identifiers *)

(** [s.slice(a, b)] where [0 <= a <= b] *)
Definition slice (a b : nat) (s : jsstr) : jsstr := take (b - a) (drop a s).

(** The clock and the random number of the moment, as texts in base 36. *)
Definition genSessionId (stamp random : jsstr) : jsstr := u "cl-" ++ stamp ++ u "-" ++ slice 2 8 random.

(** ** The panel *)

Inductive message :=
  | Asked (content : jsstr)
  | Answered (content : value) (toolCalls : list call) (reasoning : jsstr).

Inductive stage := Fetching | Reading (r : reading).

(** A call of [handleSend] that goes on, with [streamingText] and [streamingReasoning]
    as its closure holds them. *)
Record turn := mk_turn { stage_of : stage; closureText : jsstr; closureReasoning : jsstr }.

Record panel := mk_panel {
  messages : list message; input : jsstr; loading : bool; sessionId : jsstr;
  shown : preview; loadingHintIndex : nat; panelWidth : num; visible : bool;
  abortRef : bool; sending : option turn;
  (** where the pointer and the width were when each resize began *)
  drags : list (num * num);
}.

Inductive effect :=
  | Fetches (headers : props) (body : option jsstr)
  | Aborts
  | ShowError (text : jsstr)
  | NewResponse.

(** The panel, the storage it keeps its width in, and what it did last. *)
Record world := mk_world { panel_of : panel; store : storage; log : list effect }.

Definition with_messages l p :=
  mk_panel l (input p) (loading p) (sessionId p) (shown p) (loadingHintIndex p) (panelWidth p) (visible p)
    (abortRef p) (sending p) (drags p).
Definition with_input t p :=
  mk_panel (messages p) t (loading p) (sessionId p) (shown p) (loadingHintIndex p) (panelWidth p) (visible p)
    (abortRef p) (sending p) (drags p).
Definition with_shown v p :=
  mk_panel (messages p) (input p) (loading p) (sessionId p) v (loadingHintIndex p) (panelWidth p) (visible p)
    (abortRef p) (sending p) (drags p).
Definition with_width n p :=
  mk_panel (messages p) (input p) (loading p) (sessionId p) (shown p) (loadingHintIndex p) n (visible p)
    (abortRef p) (sending p) (drags p).
Definition with_drags l p :=
  mk_panel (messages p) (input p) (loading p) (sessionId p) (shown p) (loadingHintIndex p) (panelWidth p) (visible p)
    (abortRef p) (sending p) l.
Definition with_visible b p :=
  mk_panel (messages p) (input p) (loading p) (sessionId p) (shown p) (loadingHintIndex p) (panelWidth p) b
    (abortRef p) (sending p) (drags p).
Definition with_hint n p :=
  mk_panel (messages p) (input p) (loading p) (sessionId p) (shown p) n (panelWidth p) (visible p)
    (abortRef p) (sending p) (drags p).
Definition with_turn t p :=
  mk_panel (messages p) (input p) (loading p) (sessionId p) (shown p) (loadingHintIndex p) (panelWidth p) (visible p)
    (abortRef p) t (drags p).

Definition say (m : message) (p : panel) : panel := with_messages (messages p ++ [m]) p.

Definition on_panel (f : panel → panel) (w : world) : world := mk_world (f (panel_of w)) (store w) (log w).
Definition emit (e : effect) (w : world) : world := mk_world (panel_of w) (store w) (e :: log w).

(** ** The width of the panel *)

Definition PANEL_MIN : num := num_of_Z 480.
Definition PANEL_MAX : num := num_of_Z 1200.

(** [Math.max] and [Math.min] of two Numbers, zeros aside. *)
Definition math_max (x y : num) : num := if is_nan x || is_nan y then NaN else if nltb x y then y else x.
Definition math_min (x y : num) : num := if is_nan x || is_nan y then NaN else if nltb y x then y else x.

(** [parseInt(s, 10)] *)
Definition parse_int_10 (s : jsstr) : num :=
  let t := trim_start s in
  let '(neg, t) := match t with 45%N :: r => (true, r) | 43%N :: r => (false, r) | _ => (false, t) end in
  match digits_run 10 None t with
  | None => NaN
  | Some n => if neg then (if (n =? 0)%N then S754_zero true else num_of_Z (- Z.of_N n)) else num_of_Z (Z.of_N n)
  end.

Definition default_width (innerWidth : Z) : num :=
  math_min (num_of_Z 680) (math_max PANEL_MIN (num_of_Z (innerWidth - 80))).

Definition initial_width (innerWidth : Z) (s : storage) : num :=
  match stored "clawd_panel_width" s with
  | Some saved =>
      let n := parse_int_10 saved in
      if negb (is_nan n) && nleb PANEL_MIN n && nleb n PANEL_MAX then n else default_width innerWidth
  | None => default_width innerWidth
  end.

Definition startResize (clientX : num) (p : panel) : panel := with_drags (drags p ++ [(clientX, panelWidth p)]) p.

(** One listener of a move; writing to the storage may fail. *)
Definition onMove (writable : bool) (clientX : num) (w : world) (drag : num * num) : world :=
  let next := math_max PANEL_MIN (math_min PANEL_MAX (nadd drag.2 (nsub drag.1 clientX))) in
  mk_world (with_width next (panel_of w))
    (if writable then setItem "clawd_panel_width" (num_to_string next) (store w) else store w) (log w).

Definition move (writable : bool) (clientX : num) (w : world) : world :=
  fold_left (onMove writable clientX) (drags (panel_of w)) w.

(** The release of the button ends every resize. *)
Definition onUp (p : panel) : panel := with_drags [] p.

Definition resetWidth (writable : bool) (innerWidth : Z) (w : world) : world :=
  mk_world (with_width (default_width innerWidth) (panel_of w))
    (if writable then removeItem "clawd_panel_width" (store w) else store w) (log w).

(** ** The turn *)

Definition LOADING_HINTS : list jsstr :=
  [u "Clawd智能体努力检索中～"; u "可以先去做别的事哦！完成后马上通知你 🎉"; u "🍵 稍等一下下～ (｡･ω･｡)"].

(** The [finally] block: whoever does not see the panel is told. *)
Definition finish (w : world) : world :=
  let p := panel_of w in
  let p' := mk_panel (messages p) (input p) false (sessionId p) no_preview (loadingHintIndex p) (panelWidth p)
    (visible p) false None (drags p) in
  mk_world p' (store w) (if visible p then log w else NewResponse :: log w).

Inductive failure := AbortError | OtherError (message : jsstr).

Definition calls_of (t : turn) : list call :=
  match stage_of t with Reading r => toolCallsAcc (got r) | Fetching => [] end.

(** The [catch] block of a turn. *)
Definition catch (e : failure) (t : turn) (w : world) : world :=
  match e with
  | AbortError =>
      if str_truthy (closureText t) || str_truthy (closureReasoning t)
      then on_panel (say (Answered (VStr (closureText t ++ [10; 10]%N ++ u "_(已中断)_")) (calls_of t) (closureReasoning t))) w
      else w
  | OtherError m =>
      let msg := str_or m (u "网络错误") in
      on_panel (say (Answered (VStr (u "⚠️ " ++ msg)) (calls_of t) [])) (emit (ShowError msg) w)
  end.

Definition rejected (e : failure) (t : turn) (w : world) : world := finish (catch e t w).

(** The message of an answer that is no success; a body that is not JSON is none. *)
Definition refusal (status : Z) (body : option value) : value :=
  let http := VStr (u "HTTP " ++ dec_Z status) in
  match body with
  | Some b => match read (u "message") b with Some m => value_or m http | None => http end
  | None => http
  end.

Definition request_headers (s : storage) : option props :=
  id ← getUserIdFromLocalStorage s; text ← to_string id; auth ← authHeader s;
  Some (spread [(u "Content-Type", VStr (u "application/json")); (u "New-API-User", VStr text)] auth).

Definition request_body (text session : jsstr) : option jsstr :=
  json_stringify [] (VObj [(u "message", VStr text); (u "session_id", VStr session)]).

(** What the end of the stream leaves in the conversation. *)
Definition keep_answer (a : answer) (p : panel) : panel :=
  if str_truthy (fullText a) || negb (bool_decide (toolCallsAcc a = [])) || str_truthy (reasoningAcc a)
  then say (Answered (VStr (fullText a)) (toolCallsAcc a) (reasoningAcc a)) p else p.

(** ** Events *)

Inductive event :=
  | Typed (text : jsstr)
  | Send
  | Refused (status : Z) (body : option value)
  | Accepted
  | Chunk (text : jsstr)
  | Timer
  | Ended
  | Rejected (e : failure)
  | NewSession (stamp random : jsstr)
  | Stop
  | HintTick
  | StartResize (clientX : num)
  | Move (writable : bool) (clientX : num)
  | Release
  | ResetWidth (writable : bool) (innerWidth : Z)
  | Shows (b : bool)
  | StorageIs (s : storage).

Section Chat.
(** The engine's message for what reading the user throws. *)
Context (thrown : storage → jsstr).

Definition handleSend (w : world) : world :=
  let p := panel_of w in
  let text := trim (input p) in
  if negb (str_truthy text) || loading p then w else
  let t := mk_turn Fetching (streamingText (shown p)) (streamingReasoning (shown p)) in
  let p' := mk_panel (messages p ++ [Asked text]) [] true (sessionId p) no_preview (loadingHintIndex p) (panelWidth p)
    (visible p) true (Some t) (drags p) in
  let w' := mk_world p' (store w) (log w) in
  match request_headers (store w) with
  | Some h => emit (Fetches h (request_body text (sessionId p))) w'
  | None => rejected (OtherError (thrown (store w))) t w'
  end.

Definition handleNewSession (stamp random : jsstr) (w : world) : world :=
  let p := panel_of w in
  let p' := mk_panel [] (input p) (loading p) (genSessionId stamp random) no_preview (loadingHintIndex p) (panelWidth p)
    (visible p) false (sending p) (drags p) in
  mk_world p' (store w) (if abortRef p then Aborts :: log w else log w).

Definition handleStop (w : world) : world := if abortRef (panel_of w) then emit Aborts w else w.

(** What the turn does when the server or a timer calls it back. *)
Definition answered (e : event) (t : turn) (w : world) : world :=
  let reads f :=
    match stage_of t with
    | Reading r =>
        let '(r', v') := f r (shown (panel_of w)) in
        on_panel (λ p, with_turn (Some (mk_turn (Reading r') (closureText t) (closureReasoning t))) (with_shown v' p)) w
    | Fetching => w
    end in
  match e, stage_of t with
  | Refused status body, Fetching => finish (on_panel (say (Answered (refusal status body) [] [])) w)
  | Accepted, Fetching =>
      on_panel (with_turn (Some (mk_turn (Reading start_reading) (closureText t) (closureReasoning t)))) w
  | Chunk text, Reading r => reads (take_chunk text)
  | Timer, Reading r => reads timer
  | Ended, Reading r =>
      if decide (where_at r = AtRead) then finish (on_panel (keep_answer (got r)) w) else w
  | Rejected e, Fetching => rejected e t w
  | Rejected e, Reading r => if decide (where_at r = AtRead) then rejected e t w else w
  | _, _ => w
  end.

Definition handle (e : event) (w : world) : world :=
  let p := panel_of w in
  match e with
  | Typed text => if loading p && negb (str_truthy (streamingText (shown p))) then w else on_panel (with_input text) w
  | Send => handleSend w
  | Refused _ _ | Accepted | Chunk _ | Timer | Ended | Rejected _ =>
      match sending p with Some t => answered e t w | None => w end
  | NewSession stamp random => handleNewSession stamp random w
  | Stop => if loading p then handleStop w else w
  | HintTick =>
      if loading p then on_panel (with_hint (S (loadingHintIndex p) mod length LOADING_HINTS)) w else w
  | StartResize x => on_panel (startResize x) w
  | Move writable x => move writable x w
  | Release => on_panel onUp w
  | ResetWidth writable iw => resetWidth writable iw w
  | Shows b => on_panel (with_visible b) w
  | StorageIs s => mk_world p s (log w)
  end.

(** The hint starts anew whenever [loading] has changed. *)
Definition hint_effect (before after : world) : world :=
  if eqb (loading (panel_of before)) (loading (panel_of after)) then after else on_panel (with_hint 0) after.

Definition step (w : world) (e : event) : world := hint_effect w (handle e w).
Definition run (w : world) (l : list event) : world := fold_left step l w.

End Chat.

(** The panel as it is mounted. *)
Definition mounted (stamp random : jsstr) (innerWidth : Z) (isVisible : bool) (s : storage) : world :=
  mk_world (mk_panel [] [] false (genSessionId stamp random) no_preview 0 (initial_width innerWidth s) isVisible
    false None []) s [].

(** ** What the panel shows *)

Definition welcomes (p : panel) : bool :=
  bool_decide (messages p = []) && negb (str_truthy (streamingText (shown p))) && negb (loading p).
Definition shows_loading (p : panel) : bool := loading p && negb (str_truthy (streamingText (shown p))).
Definition input_disabled : panel → bool := shows_loading.

(** The hint, or the tools called so far. *)
Inductive loading_row := Hint (text : jsstr) | Tools (calls : list call) | OneTool (text : jsstr).

Definition loading_text (p : panel) : option loading_row :=
  let v := shown p in
  if shows_loading p then
    match streamingToolCalls v with
    | _ :: _ => Some (Tools (streamingToolCalls v))
    | [] =>
        if truthy (toolCallInfo v) then
          info ← to_string (toolCallInfo v);
          Some (OneTool (if strict_eq (toolCallStatus v) (VStr (u "error")) then info ++ u " 调用失败"
                else if strict_eq (toolCallStatus v) (VStr (u "completed")) then info ++ u " 调用完成"
                else u "正在调用 " ++ info ++ u "..."))
        else Some (Hint (nth (loadingHintIndex p) LOADING_HINTS []))
    end
  else None.

(** [ToolCallChips] *)
Definition chip_color (c : call) : jsstr :=
  if strict_eq (status c) (VStr (u "error")) then u "#e57373"
  else if strict_eq (status c) (VStr (u "completed")) then u "#7cb342" else u "#DE886D".
Definition chip_icon (c : call) : jsstr :=
  if strict_eq (status c) (VStr (u "completed")) then u "✓"
  else if strict_eq (status c) (VStr (u "error")) then u "✗" else u "⟳".
Definition chip_detail (c : call) : option (jsstr * value) :=
  let detail := value_or (error c) (value_or (result c) (value_or (args c) (VStr []))) in
  if truthy detail then Some (if truthy (error c) then u "错误详情" else u "返回结果", detail) else None.

(** [ReasoningBlock] *)
Definition reasoning_shown (text : jsstr) : option jsstr := match trim text with [] => None | _ => Some text end.

(** * Properties of the agent's chat
    The invariant of every state of the panel; a turn records what its stream says,
    whatever happens meanwhile; an answer that is stopped is lost; the width stays in
    its bounds and comes back. *)

(** ** The width *)

Definition width_ok (x : num) : bool := nleb PANEL_MIN x && nleb x PANEL_MAX.

Lemma nleb_width_finite x : width_ok x = true → is_finite x = true.
Proof. destruct x as [| | |]; try done. by destruct s. Qed.

Lemma clamp_ok x : is_nan x = false → width_ok (math_max PANEL_MIN (math_min PANEL_MAX x)) = true.
Proof.
  intros Hx. unfold math_min. rewrite Hx. replace (is_nan PANEL_MAX) with false by done. cbn [orb].
  destruct (nltb x PANEL_MAX) eqn:E1; [|by vm_compute].
  unfold math_max. rewrite Hx. replace (is_nan PANEL_MIN) with false by done. cbn [orb].
  destruct (nltb PANEL_MIN x) eqn:E2; [|by vm_compute].
  unfold width_ok. by rewrite !nltb_nleb.
Qed.

(** Below one number and so below a larger one. *)
Lemma below_680 x : nltb x (num_of_Z 680) = true → nleb x PANEL_MAX = true.
Proof.
  replace (num_of_Z 680) with (S754_finite false 5981343255101440 (-43)) by (vm_compute; reflexivity).
  replace PANEL_MAX with (S754_finite false 5277655813324800 (-42)) by (vm_compute; reflexivity).
  unfold nltb, nleb, SFltb, SFleb, SFcompare. destruct x as [[]|[]| |[] m e]; try done.
  destruct (e ?= -43)%Z eqn:E.
  - apply Z.compare_eq in E as ->. done.
  - intros _. assert ((e ?= -42)%Z = Lt) as -> by (rewrite Z.compare_lt_iff in E |- *; lia). done.
  - done.
Qed.

Lemma default_width_ok iw : width_ok (default_width iw) = true.
Proof.
  unfold default_width, math_max. rewrite num_of_Z_number. replace (is_nan PANEL_MIN) with false by done. cbn [orb].
  destruct (nltb PANEL_MIN (num_of_Z (iw - 80))) eqn:E; [|by vm_compute].
  unfold math_min. rewrite !num_of_Z_number. cbn [orb].
  destruct (nltb (num_of_Z (iw - 80)) (num_of_Z 680)) eqn:E2; [|by vm_compute].
  unfold width_ok. by rewrite (nltb_nleb _ _ E), below_680.
Qed.

Lemma initial_width_ok iw s : width_ok (initial_width iw s) = true.
Proof.
  unfold initial_width. case_match; [|apply default_width_ok]. case_match eqn:E; [|apply default_width_ok].
  rewrite !andb_true_iff in E. unfold width_ok. by destruct E as [[_ ->] ->].
Qed.

(** Every whole width in the bounds is read back from its text. *)
Definition comes_back (n : nat) : bool :=
  match num_to_string (num_of_Z (Z.of_nat n)) with
  | [] => false
  | text => bool_decide (parse_int_10 text = num_of_Z (Z.of_nat n)) && width_ok (num_of_Z (Z.of_nat n))
  end.

Lemma widths_come_back : forallb comes_back (seq 480 721) = true.
Proof. vm_compute. reflexivity. Qed.

Lemma width_comes_back z iw s :
  (480 ≤ z ≤ 1200)%Z → initial_width iw (setItem "clawd_panel_width" (num_to_string (num_of_Z z)) s) = num_of_Z z.
Proof.
  intros Hz. pose proof (proj1 (forallb_forall _ _) widths_come_back (Z.to_nat z)) as H.
  specialize (H ltac:(apply in_seq; lia)). unfold comes_back in H. rewrite Z2Nat.id in H by lia.
  unfold initial_width, stored, getItem, setItem. rewrite get_set_eq.
  destruct (num_to_string (num_of_Z z)) as [|c text]; [done|].
  apply andb_true_iff in H as [H1 H2]. apply bool_decide_eq_true in H1. rewrite H1, num_of_Z_number.
  apply andb_true_iff in H2 as [H2 H3]. by rewrite H2, H3.
Qed.

(** ** The invariant *)

Record sound (p : panel) : Prop := mk_sound {
  sound_loading : loading p = bool_decide (is_Some (sending p));
  sound_abort : abortRef p = true → loading p = true;
  sound_idle : loading p = false → shown p = no_preview;
  sound_closure : ∀ t, sending p = Some t → closureText t = [] ∧ closureReasoning t = [];
  sound_hint : loadingHintIndex p < length LOADING_HINTS;
  sound_width : width_ok (panelWidth p) = true;
  sound_drags : Forall (λ d, is_finite d.1 = true ∧ width_ok d.2 = true) (drags p);
}.

(** The pointer is somewhere on the screen. *)
Definition pointer_ok (e : event) : Prop :=
  match e with StartResize x | Move _ x => is_finite x = true | _ => True end.

Section Chat.
Context (thrown : storage → jsstr).
Abbreviation handle := (handle thrown).
Abbreviation step := (step thrown).
Abbreviation run := (run thrown).

Lemma sound_messages l p : sound p → sound (with_messages l p).
Proof. by intros []. Qed.

Lemma sound_finish w : sound (panel_of w) → sound (panel_of (finish w)).
Proof. by intros []. Qed.

Lemma sound_catch e t w : sound (panel_of w) → sound (panel_of (catch e t w)).
Proof. intros H. unfold catch. destruct e; [case_match; [by apply sound_messages|done]|by apply sound_messages]. Qed.

Lemma sound_rejected e t w : sound (panel_of w) → sound (panel_of (rejected e t w)).
Proof. intros H. by apply sound_finish, sound_catch. Qed.

Lemma sound_send w : sound (panel_of w) → sound (panel_of (handleSend thrown w)).
Proof.
  intros H. unfold handleSend. destruct (_ || _) eqn:E; [done|].
  apply orb_false_iff in E as [_ E]. pose proof (sound_idle _ H E) as Hs. rewrite Hs.
  match goal with |- context [mk_world ?p _ _] => assert (sound p) as Hp end.
  { destruct H. constructor; simpl; try done. by intros ? [= <-]. }
  destruct (request_headers _); [done|]. by apply sound_rejected.
Qed.

Lemma sound_answered e t w :
  sound (panel_of w) → sending (panel_of w) = Some t → sound (panel_of (answered e t w)).
Proof.
  intros H Ht. pose proof (sound_closure _ H t Ht) as Hc.
  assert (∀ v t', closureText t' = closureText t → closureReasoning t' = closureReasoning t →
    loading (panel_of w) = true → sound (with_turn (Some t') (with_shown v (panel_of w)))) as Ht'.
  { intros v t' H1 H2 Hl. destruct H. constructor; simpl; try done; [congruence|]. intros ? [= <-]. by rewrite H1, H2. }
  assert (loading (panel_of w) = true) as Hl by (by rewrite (sound_loading _ H), Ht).
  unfold answered. destruct e, (stage_of t) as [|r] eqn:Es; try done.
  - by apply sound_finish, sound_messages.
  - destruct H. constructor; simpl; try done. by intros ? [= <-].
  - destruct (take_chunk text r _). by apply Ht'.
  - destruct (timer r _). by apply Ht'.
  - case_decide; [|done]. apply sound_finish. simpl. unfold keep_answer. case_match; [by apply sound_messages|done].
  - by apply sound_rejected.
  - case_decide; [|done]. by apply sound_rejected.
Qed.

Lemma sound_with_width n p : width_ok n = true → sound p → sound (with_width n p).
Proof. by intros ? []. Qed.

Lemma sound_moves writable x l w :
  is_finite x = true → Forall (λ d, is_finite d.1 = true ∧ width_ok d.2 = true) l →
  sound (panel_of w) → sound (panel_of (fold_left (onMove writable x) l w)).
Proof.
  intros Hx Hl. revert w. induction Hl as [|[a b] l [Ha Hb] Hl IH]; intros w H; [done|]. simpl. apply IH.
  apply sound_with_width, H. apply clamp_ok. apply nadd_number; [by apply nleb_width_finite|]. by apply nsub_number.
Qed.

Lemma sound_handle e w : pointer_ok e → sound (panel_of w) → sound (panel_of (handle e w)).
Proof.
  intros He H.
  assert (∀ e', sound (panel_of (match sending (panel_of w) with Some t => answered e' t w | None => w end))) as Ha.
  { intros e'. destruct (sending (panel_of w)) eqn:Ht; [by apply sound_answered|done]. }
  destruct e; cbn [ClawdChat.handle]; try apply Ha.
  - destruct (_ && _); [done|]. destruct H; by constructor.
  - by apply sound_send.
  - unfold handleNewSession. destruct H. constructor; simpl; try done.
  - unfold handleStop. by repeat case_match.
  - destruct (loading (panel_of w)); [|done]. destruct H. constructor; try done.
    apply Nat.mod_upper_bound. done.
  - destruct H. constructor; simpl; try done. apply Forall_app. split; [done|]. by repeat constructor.
  - by apply sound_moves; [|apply sound_drags|].
  - destruct H. by constructor.
  - apply sound_with_width; [apply default_width_ok|done].
  - by destruct H.
  - done.
Qed.

(** The hint is the first one when nothing is awaited. *)
Lemma hint_idle e w :
  sound (panel_of w) → (loading (panel_of w) = false → loadingHintIndex (panel_of w) = 0) →
  loading (panel_of (step w e)) = false → loadingHintIndex (panel_of (step w e)) = 0.
Proof.
  intros Hs H. unfold step, hint_effect. destruct (eqb _ _) eqn:E; [|done]. apply eqb_prop in E.
  rewrite <- E. intros Hl. specialize (H Hl).
  assert (sending (panel_of w) = None) as Hn.
  { rewrite (sound_loading _ Hs) in Hl. by destruct (sending (panel_of w)). }
  destruct e; cbn [ClawdChat.handle]; rewrite ?Hn, ?Hl; try done.
  - unfold handleSend. destruct (_ || _); [done|]. destruct (request_headers _); done.
  - simpl. unfold move. generalize (drags (panel_of w)). intros l. clear -H. revert w H.
    induction l as [|d l IH]; [done|]. intros w H. simpl. by apply IH.
Qed.

Inductive reachable : world → Prop :=
  | reachable_mounted stamp random iw b s : reachable (mounted stamp random iw b s)
  | reachable_step w e : reachable w → pointer_ok e → reachable (step w e).

Lemma sound_step e w : pointer_ok e → sound (panel_of w) → sound (panel_of (step w e)).
Proof.
  intros He H. unfold step, hint_effect. pose proof (sound_handle e w He H) as [].
  case_match; constructor; simpl; try done. lia.
Qed.

Lemma reachable_sound w :
  reachable w → sound (panel_of w) ∧ (loading (panel_of w) = false → loadingHintIndex (panel_of w) = 0).
Proof.
  induction 1 as [stamp random iw b s|w e _ [Hs Hh] He].
  - split; [|done]. constructor; simpl; try done; [lia|apply initial_width_ok].
  - split; [by apply sound_step|by apply hint_idle].
Qed.

(** C22: In every state that the panel reaches, an answer is awaited exactly when a call of
    [handleSend] goes on, only such a call can be aborted, nothing is previewed and the
    hint is the first one when none goes on, there is a hint of that number, and the panel
    is at least 480 and at most 1200 wide, however the pointer has moved. *)
Theorem chat_invariant w :
  reachable w →
  let p := panel_of w in
  loading p = bool_decide (is_Some (sending p)) ∧
  (abortRef p = true → loading p = true) ∧
  (loading p = false → shown p = no_preview ∧ loadingHintIndex p = 0) ∧
  loadingHintIndex p < length LOADING_HINTS ∧
  nleb PANEL_MIN (panelWidth p) = true ∧ nleb (panelWidth p) PANEL_MAX = true.
Proof.
  intros H. destruct (reachable_sound w H) as [Hs Hh].
  pose proof (sound_width _ Hs) as Hw. apply andb_true_iff in Hw. destruct Hs. naive_solver.
Qed.

(** C19: An answer that is interrupted is lost: when the call is aborted, nothing of what
    had come and was shown stays, because the handler looks at the texts of the render in
    which it was started, where there were none. *)
Theorem interrupted_answer_lost w t :
  reachable w → sending (panel_of w) = Some t →
  match stage_of t with Fetching => True | Reading r => where_at r = AtRead end →
  let w' := step w (Rejected AbortError) in
  messages (panel_of w') = messages (panel_of w) ∧ shown (panel_of w') = no_preview ∧ sending (panel_of w') = None.
Proof.
  intros H Ht Hst. destruct (reachable_sound w H) as [Hs _].
  destruct (sound_closure _ Hs t Ht) as [Hc Hr].
  assert (answered (Rejected AbortError) t w = finish w) as Ha.
  { unfold answered, rejected, catch. rewrite Hc, Hr. destruct (stage_of t); [done|]. by rewrite decide_True. }
  cbv zeta. unfold step, hint_effect. cbn [ClawdChat.handle]. rewrite Ht, Ha. by destruct (eqb _ _).
Qed.

(** The width that a move has left and the storage has taken is the width of the next
    panel, where it is a whole one. *)
Theorem moved_width_comes_back w x z iw :
  drags (panel_of w) ≠ [] → (480 ≤ z ≤ 1200)%Z →
  let w' := step w (Move true x) in
  panelWidth (panel_of w') = num_of_Z z → initial_width iw (store w') = num_of_Z z.
Proof.
  intros Hd Hz. cbv zeta.
  assert (∀ l v, store v = setItem "clawd_panel_width" (num_to_string (panelWidth (panel_of v))) (store v) ∨ l ≠ [] →
    ∃ s, store (fold_left (onMove true x) l v) = setItem "clawd_panel_width"
      (num_to_string (panelWidth (panel_of (fold_left (onMove true x) l v)))) s) as Hl.
  { induction l as [|d l IH]; intros v Hv; simpl; [destruct Hv as [->|?]; [by eexists|done]|].
    destruct l as [|d' l]; [by eexists|]. apply IH. by right. }
  destruct (Hl (drags (panel_of w)) w (or_intror Hd)) as [s Hs].
  assert (step w (Move true x) = move true x w ∨ step w (Move true x) = on_panel (with_hint 0) (move true x w)) as [->| ->].
  { unfold step, hint_effect. cbn [ClawdChat.handle]. destruct (eqb _ _); auto. }
  all: intros Hp; unfold move in *; cbn [store on_panel panel_of panelWidth with_hint] in *; rewrite Hs, Hp; by apply width_comes_back.
Qed.

(** ** A turn from the click to the end of the stream *)

(** What the user and the page can do meanwhile, apart from starting anew. *)
Definition ordinary (e : event) : bool :=
  match e with
  | Refused _ _ | Accepted | Chunk _ | Timer | Ended | Rejected _ | NewSession _ _ => false
  | _ => true
  end.
Definition streams (e : event) : bool := match e with Chunk _ | Timer => true | _ => ordinary e end.

Definition reading_of (w : world) : option reading :=
  match sending (panel_of w) with
  | Some t => match stage_of t with Reading r => Some r | Fetching => None end
  | None => None
  end.

(** The chunks that the loop was waiting for. *)
Definition taken_now (w : world) (e : event) : list jsstr :=
  match e, reading_of w with
  | Chunk text, Some r => match where_at r with AtRead => [text] | AtTimer _ => [] end
  | _, _ => []
  end.
Fixpoint taken (w : world) (l : list event) : list jsstr :=
  match l with [] => [] | e :: l' => taken_now w e ++ taken (step w e) l' end.

Definition kept (a : answer) : list message :=
  if str_truthy (fullText a) || negb (bool_decide (toolCallsAcc a = [])) || str_truthy (reasoningAcc a)
  then [Answered (VStr (fullText a)) (toolCallsAcc a) (reasoningAcc a)] else [].

Lemma messages_keep_answer a p : messages (keep_answer a p) = messages p ++ kept a.
Proof. unfold keep_answer, kept. case_match; simpl; [done|]. by rewrite app_nil_r. Qed.

(** What a turn sees of a panel. *)
Definition seen (w : world) := (messages (panel_of w), sending (panel_of w), shown (panel_of w), loading (panel_of w)).

Lemma seen_hint_effect w w' : seen (hint_effect w w') = seen w'.
Proof. unfold hint_effect. by case_match. Qed.

Lemma seen_ordinary w e : loading (panel_of w) = true → ordinary e = true → seen (step w e) = seen w.
Proof.
  intros Hl He. unfold step. rewrite seen_hint_effect. destruct e; try done; cbn [ClawdChat.handle]; rewrite ?Hl; try done.
  - by destruct (true && _).
  - unfold handleSend. by rewrite Hl, orb_true_r.
  - unfold handleStop. by case_match.
  - unfold move. generalize (drags (panel_of w)). intros l. clear -l. revert w.
    induction l as [|d l IH]; intros w; [done|]. simpl. by rewrite IH.
Qed.

Definition in_stream (msgs : list message) (text : list jsstr) (w : world) : Prop :=
  loading (panel_of w) = true ∧ messages (panel_of w) = msgs ∧
  ∃ r, reading_of w = Some r ∧ arrives text r (shown (panel_of w)).

Lemma in_stream_seen msgs text w w' : seen w' = seen w → in_stream msgs text w → in_stream msgs text w'.
Proof. unfold seen, in_stream, reading_of. intros [= -> -> -> ->]. done. Qed.

Lemma in_stream_step msgs text w e :
  in_stream msgs text w → streams e = true → in_stream msgs (text ++ taken_now w e) (step w e).
Proof.
  intros Hw He.
  assert (ordinary e = true → in_stream msgs (text ++ taken_now w e) (step w e)) as Hord.
  { intros Ho. assert (taken_now w e = []) as -> by by destruct e. rewrite app_nil_r.
    eapply in_stream_seen, Hw. apply seen_ordinary; [apply Hw|done]. }
  destruct e; try done; try (by apply Hord); clear Hord; destruct Hw as (Hl & Hm & r & Hr & Ha);
    (eapply in_stream_seen; [apply seen_hint_effect|]); cbn [ClawdChat.handle];
    unfold reading_of in Hr; destruct (sending (panel_of w)) as [t|] eqn:Ht; try done;
    destruct (stage_of t) as [|r'] eqn:Es; try done; injection Hr as ->; unfold answered; rewrite Es.
  - unfold taken_now, reading_of. rewrite Ht, Es. destruct (where_at r) eqn:Hw.
    + pose proof (arrives_chunk _ _ _ text0 Ha Hw) as Hn. destruct (take_chunk text0 r _) as [r' v'].
      split; [done|]. split; [done|]. by exists r'.
    + unfold take_chunk. rewrite Hw, app_nil_r. split; [done|]. split; [done|]. by exists r.
  - unfold taken_now. rewrite app_nil_r.
    pose proof (arrives_timer _ _ _ Ha) as Hn. destruct (timer r _) as [r' v'].
    split; [done|]. split; [done|]. by exists r'.
Qed.

Lemma in_stream_run msgs text w l :
  in_stream msgs text w → forallb streams l = true → in_stream msgs (text ++ taken w l) (run w l).
Proof.
  revert text w. induction l as [|e l IH]; intros text w Hw Hl; simpl; [by rewrite app_nil_r|].
  simpl in Hl. apply andb_true_iff in Hl as [He Hl]. rewrite app_assoc. apply IH; [|done]. by apply in_stream_step.
Qed.

(** The text of the question is in the conversation at once, and a fetch is awaited. *)
Lemma send_starts w h :
  sound (panel_of w) → loading (panel_of w) = false → trim (input (panel_of w)) ≠ [] → request_headers (store w) = Some h →
  seen (step w Send) =
    (messages (panel_of w) ++ [Asked (trim (input (panel_of w)))], Some (mk_turn Fetching [] []), no_preview, true).
Proof.
  intros Hs Hl Ht Hh. unfold step. rewrite seen_hint_effect. cbn [ClawdChat.handle]. unfold handleSend.
  rewrite Hl, Hh, (sound_idle _ Hs Hl). by destruct (trim (input (panel_of w))).
Qed.

Lemma seen_run_ordinary w l : loading (panel_of w) = true → forallb ordinary l = true → seen (run w l) = seen w.
Proof.
  revert w. induction l as [|e l IH]; intros w Hl Ho; [done|]. simpl in *. apply andb_true_iff in Ho as [He Ho].
  pose proof (seen_ordinary w e Hl He) as Hs. rewrite IH; [done| |done]. by injection Hs as _ _ _ ->.
Qed.

(** C21: A question is asked and its answer streams in; meanwhile the user types, resizes,
    hides the panel or asks again.  At the end of the stream the conversation has got the
    question and what the chunks say: of the lines that each of them completes, in turn,
    those up to the end of an answer, whenever the timers ran out.  Where nothing is said
    after the end of the answer, that is what the complete lines of the stream say, read at
    once, whatever its chunks were. *)
Theorem turn_records_stream w h before during r :
  reachable w → loading (panel_of w) = false → trim (input (panel_of w)) ≠ [] →
  request_headers (store w) = Some h → forallb ordinary before = true → forallb streams during = true →
  let w1 := run (step w Send) (before ++ [Accepted]) in
  let chunks := taken w1 during in
  let lines := complete_lines (concat chunks) in
  reading_of (run w1 during) = Some r → where_at r = AtRead →
  let w2 := step (run w1 during) Ended in
  messages (panel_of w2) =
    messages (panel_of w) ++ [Asked (trim (input (panel_of w)))] ++ kept (said chunks) ∧
  loading (panel_of w2) = false ∧ sending (panel_of w2) = None ∧ shown (panel_of w2) = no_preview ∧
  (ends_quietly lines = true → said chunks = read_stream lines no_answer).
Proof.
  intros Hw Hl Ht Hh Hb Hd. cbv zeta. intros Hr Hat.
  destruct (reachable_sound w Hw) as [Hs _]. pose proof (send_starts w h Hs Hl Ht Hh) as Hsend.
  set (msgs := messages (panel_of w) ++ [Asked (trim (input (panel_of w)))]) in *.
  assert (in_stream msgs [] (run (step w Send) (before ++ [Accepted]))) as Hi.
  { unfold run. rewrite fold_left_app. fold (run (step w Send) before). cbn [fold_left].
    assert (seen (run (step w Send) before) = seen (step w Send)) as Hrun.
    { apply seen_run_ordinary; [|done]. by injection Hsend as _ _ _ ->. }
    rewrite Hsend in Hrun. eapply in_stream_seen; [apply seen_hint_effect|].
    unfold seen in Hrun. injection Hrun as Hm Hse Hsh Hlo. cbn [ClawdChat.handle]. rewrite Hse. cbn.
    split; [done|]. split; [done|]. exists start_reading. split; [done|constructor]. }
  destruct (in_stream_run _ _ _ during Hi Hd) as (Hlo & Hm & r' & Hr' & Ha).
  rewrite Hr in Hr'. injection Hr' as <-. simpl in Ha.
  pose proof (answers_read _ _ _ Ha Hat) as Hg.
  set (w3 := run (run (step w Send) (before ++ [Accepted])) during) in *.
  assert (seen (step w3 Ended) = (msgs ++ kept (got r), None, no_preview, false)) as He.
  { unfold step. rewrite seen_hint_effect. cbn [ClawdChat.handle]. unfold reading_of in Hr.
    destruct (sending (panel_of w3)) as [t|]; [|done]. destruct (stage_of t) as [|r'] eqn:Es; [done|].
    injection Hr as ->. unfold answered. rewrite Es, decide_True by done. unfold seen. simpl.
    by rewrite messages_keep_answer, Hm. }
  rewrite Hg in He. unfold seen in He. injection He as -> -> -> ->. unfold msgs. rewrite <- app_assoc.
  split_and!; [done..|]. apply said_together.
Qed.
End Chat.

(** ** Witnesses *)

Definition no_text (s : storage) : jsstr := [].

(** A panel with a question typed. *)
Definition ready : world := run no_text (mounted (u "m1x") (u "0.k3j8s0q2w") 1600 true []) [Typed (u " hello ")].

Lemma reachable_run thrown w l : reachable thrown w → Forall pointer_ok l → reachable thrown (run thrown w l).
Proof.
  intros Hw Hl. revert w Hw. induction Hl as [|e l He Hl IH]; intros w Hw; [done|]. apply IH. by constructor.
Qed.

(** A stream of three events, cut within the second. *)
Definition first_half : jsstr :=
  j "data: {`type`:`content`,`content`:`Hel`}" ++ [10%N] ++ j "data: {`type`:`tool_call`,`tool".
Definition second_half : jsstr :=
  j "_name`:`search`}" ++ [10%N; 10%N] ++ j "data: {`type`:`content`,`content`:`lo`}" ++ [10%N] ++
  j "data: {`type`:`done`}" ++ [10%N].

Definition streamed : list event := [Chunk first_half; Typed (u "next"); Timer; Chunk second_half; Shows false; Timer].
Definition asked : world := run no_text (step no_text ready Send) [HintTick; Accepted].

Lemma chat_invariant_witness :
  let p := panel_of (run no_text asked streamed) in
  reachable no_text (run no_text asked streamed) ∧ loading p = bool_decide (is_Some (sending p)).
Proof.
  assert (reachable no_text (run no_text asked streamed)) as H.
  { unfold asked, ready. repeat (apply reachable_run; [|by repeat constructor]).
    apply (reachable_step no_text _ Send); [|exact I].
    apply reachable_run; [|by repeat constructor]. apply reachable_mounted. }
  split; [exact H|exact (proj1 (chat_invariant no_text _ H))].
Defined.

(** The user saw a text, and it is gone. *)
Lemma interrupted_answer_lost_witness :
  let w := run no_text asked [Chunk first_half; Timer; Stop] in
  streamingText (shown (panel_of w)) = u "Hel" ∧
  messages (panel_of (step no_text w (Rejected AbortError))) = [Asked (u "hello")].
Proof.
  split; [vm_compute; reflexivity|].
  assert (reachable no_text (run no_text asked [Chunk first_half; Timer; Stop])) as H.
  { unfold asked, ready. repeat (apply reachable_run; [|by repeat constructor]).
    apply (reachable_step no_text _ Send); [|exact I].
    apply reachable_run; [|by repeat constructor]. apply reachable_mounted. }
  destruct (sending (panel_of (run no_text asked [Chunk first_half; Timer; Stop]))) as [t|] eqn:Ht;
    [|vm_compute in Ht; discriminate Ht].
  assert (match stage_of t with Fetching => True | Reading r => where_at r = AtRead end) as Hst.
  { vm_compute in Ht. injection Ht as <-. vm_compute. reflexivity. }
  etransitivity; [exact (proj1 (interrupted_answer_lost no_text _ t H Ht Hst))|]. vm_compute. reflexivity.
Defined.

Lemma turn_records_stream_witness :
  messages (panel_of (step no_text (run no_text asked streamed) Ended)) =
    [Asked (u "hello");
     Answered (VStr (u "Hello"))
       [mk_call (VStr (u "search")) (VStr (u "started")) (VStr []) (VStr []) (VStr [])] []] ∧
  said [first_half; second_half] = read_stream (complete_lines (concat [first_half; second_half])) no_answer.
Proof.
  assert (reachable no_text ready) as H.
  { apply reachable_run; [apply reachable_mounted|by repeat constructor]. }
  destruct (request_headers (store ready)) as [h|] eqn:Hh; [|vm_compute in Hh; discriminate Hh].
  destruct (reading_of (run no_text asked streamed)) as [r|] eqn:Hr; [|vm_compute in Hr; discriminate Hr].
  assert (where_at r = AtRead) as Hw by (vm_compute in Hr; injection Hr as <-; reflexivity).
  assert (trim (input (panel_of ready)) ≠ []) as Ht by (vm_compute; discriminate).
  assert (taken no_text (run no_text (step no_text ready Send) ([HintTick] ++ [Accepted])) streamed = [first_half; second_half])
    as Hc by (vm_compute; reflexivity).
  assert (ends_quietly (complete_lines (concat [first_half; second_half])) = true) as Hq by (vm_compute; reflexivity).
  pose proof (turn_records_stream no_text ready h [HintTick] streamed r H eq_refl Ht Hh eq_refl eq_refl Hr Hw)
    as (H1 & _ & _ & _ & H2).
  rewrite Hc in H1, H2. split; [|exact (H2 Hq)].
  etransitivity; [exact H1|]. vm_compute. reflexivity.
Defined.

Lemma moved_width_comes_back_witness :
  let w := step no_text ready (StartResize (num_of_Z 900)) in
  panelWidth (panel_of (step no_text w (Move true (num_of_Z 850)))) = num_of_Z 730 ∧
  initial_width 500 (store (step no_text w (Move true (num_of_Z 850)))) = num_of_Z 730.
Proof.
  split; [vm_compute; reflexivity|].
  apply (moved_width_comes_back no_text _ (num_of_Z 850) 730 500); [vm_compute; discriminate|lia|vm_compute; reflexivity].
Defined.

(** An answer that has come when a new session begins is said in that session. *)
Example late_answer_in_new_session :
  let w := run no_text asked [Chunk first_half; NewSession (u "m1y") (u "0.abcdefgh"); Timer; Ended] in
  (sessionId (panel_of w), messages (panel_of w)) = (u "cl-m1y-abcdef", [Answered (VStr (u "Hel")) [] []]).
Proof. vm_compute. reflexivity. Qed.

(** Events after the end are left out where they come in the same chunk only. *)
Example end_of_one_chunk :
  let e := j "data: {`type`:`done`}" ++ [10%N] in
  let c := j "data: {`type`:`content`,`content`:`x`}" ++ [10%N] in
  let read l := fullText (got (fold_left (λ p chunk, let '(r, v) := take_chunk chunk p.1 p.2 in settle_chunk r v) l
    (start_reading, no_preview)).1) in
  read [e ++ c] = [] ∧ read [e; c] = u "x" ∧
  (fullText (said [e ++ c]), fullText (said [e; c])) = ([], u "x").
Proof. vm_compute. done. Qed.
