(* ===== verification/ClawdMascot.v ===== *)
(** * The crab and the previews of charts
    [src/web/src/components/common/ClawdMascot.jsx]: the crab that walks at the edge of the
    window, opens the chat and carries a red dot when an answer has come unseen, composed
    with the panel of [ClawdChat]; and [SandboxedHtmlPreview] and [detectChartCodeBlock] of
    [ClawdChatPanel.jsx]: which blocks of code are run as charts, and in what frame. *)

From Stdlib Require Import SpecFloat.
From stdpp Require Import base numbers option strings sets list.
From S2P Require Import Prelude JsString JsNumber JsValue Json JsOps Session ClawdStream ClawdChat.

(** ** The crab *)

Definition MASCOT_W : Z := 56.
Definition MASCOT_H : Z := 42.
Definition WALK_RANGE : Z := 120.
Definition IDLE_MARGIN : Z := 14.

(** The window's inner size is a pair of integers. *)
Definition getBasePoint (window : Z * Z) : Z * Z :=
  (IDLE_MARGIN `max` (window.1 - IDLE_MARGIN - MASCOT_W), 0 `max` (window.2 - IDLE_MARGIN - MASCOT_H))%Z.

(** [initTimer] and [closeTimer] are the two timers that start the walk; the panel is
    there once its code has been loaded. *)
Record mascot := mk_mascot {
  window : Z * Z; pos : Z * Z; facingLeft : bool; stepTimer : bool; initTimer : bool; closeTimer : bool;
  chatOpen : bool; chatMounted : bool; hovered : bool; hasNewResponse : bool;
  chat : option panel; local : storage;
}.

Definition with_walk p f t m :=
  mk_mascot (window m) p f t (initTimer m) (closeTimer m) (chatOpen m) (chatMounted m) (hovered m) (hasNewResponse m)
    (chat m) (local m).
Definition with_timers i c m :=
  mk_mascot (window m) (pos m) (facingLeft m) (stepTimer m) i c (chatOpen m) (chatMounted m) (hovered m)
    (hasNewResponse m) (chat m) (local m).
Definition with_window n m :=
  mk_mascot n (pos m) (facingLeft m) (stepTimer m) (initTimer m) (closeTimer m) (chatOpen m) (chatMounted m) (hovered m)
    (hasNewResponse m) (chat m) (local m).
Definition with_hovered b m :=
  mk_mascot (window m) (pos m) (facingLeft m) (stepTimer m) (initTimer m) (closeTimer m) (chatOpen m) (chatMounted m) b
    (hasNewResponse m) (chat m) (local m).
Definition with_chat news c s m :=
  mk_mascot (window m) (pos m) (facingLeft m) (stepTimer m) (initTimer m) (closeTimer m) (chatOpen m) (chatMounted m)
    (hovered m) news c s.

Definition walkStep (m : mascot) : mascot :=
  let base := getBasePoint (window m) in
  let goLeft := negb (facingLeft m) in
  with_walk (if goLeft then IDLE_MARGIN `max` (base.1 - WALK_RANGE) else base.1, base.2)%Z goLeft true m.

Definition startIdle (m : mascot) : mascot := with_walk (getBasePoint (window m)) false true m.

(** [setChatOpen(b)] and, where it changes, the effects of the render: an open chat stops
    the walk, takes the dot away and is mounted for good; closing it starts a timer. *)
Definition setChatOpen (b : bool) (m : mascot) : mascot :=
  if eqb b (chatOpen m) then m else
  mk_mascot (window m) (pos m) (facingLeft m) (if b then false else stepTimer m) (initTimer m) (negb b)
    b (b || chatMounted m) (hovered m) (if b then false else hasNewResponse m)
    (with_visible b <$> chat m) (local m).

(** What the page and the user can do with the panel; its markup is not there while it
    is hidden. *)
Definition on_markup (e : event) : bool :=
  match e with
  | Typed _ | Send | NewSession _ _ | Stop | StartResize _ | ResetWidth _ _ => true
  | _ => false
  end.

Inductive happening :=
  | Walks | InitTimer | CloseTimer
  | Resized (size : Z * Z)
  | ClickMascot | CloseChat | Hovers (b : bool)
  | PanelLoaded (stamp random : jsstr)
  | InPanel (e : event).

Section Mascot.
Context (thrown : storage → jsstr).

(** [onNewResponse] is called by the panel. *)
Definition is_news (e : effect) : bool := match e with NewResponse => true | _ => false end.

Definition in_panel (e : event) (p : panel) (m : mascot) : mascot :=
  let w := step thrown (mk_world p (local m) []) e in
  with_chat (hasNewResponse m || existsb is_news (log w)) (Some (panel_of w)) (store w) m.

Definition happens (m : mascot) (h : happening) : mascot :=
  match h with
  | Walks => if stepTimer m then walkStep m else m
  | InitTimer => if initTimer m then with_timers false (closeTimer m) (startIdle m) else m
  | CloseTimer => if closeTimer m then with_timers (initTimer m) false (startIdle m) else m
  | Resized size => startIdle (with_window size m)
  | ClickMascot => setChatOpen (negb (chatOpen m)) m
  | CloseChat => setChatOpen false m
  | Hovers b => with_hovered b m
  | PanelLoaded stamp random =>
      match chat m with
      | None =>
          if chatMounted m
          then with_chat (hasNewResponse m)
                 (Some (panel_of (mounted stamp random (window m).1 (chatOpen m) (local m)))) (local m) m
          else m
      | Some _ => m
      end
  | InPanel e =>
      match e, chat m with
      | Shows _, _ | _, None => m
      | _, Some p => if on_markup e && negb (visible p) then m else in_panel e p m
      end
  end.

Definition goes (m : mascot) (l : list happening) : mascot := fold_left happens l m.
End Mascot.

(** As it is mounted: the timers of both effects run. *)
Definition appears (size : Z * Z) (s : storage) : mascot :=
  mk_mascot size (getBasePoint size) false false true true false false false false None s.

Definition showHint (m : mascot) : bool := hovered m && negb (chatOpen m).
Definition showRedDot (m : mascot) : bool := hasNewResponse m && negb (chatOpen m).

(** ** The frame of a chart *)

Record frame := mk_frame { code : jsstr; debouncedCode : jsstr; loaded : bool; height : num }.

Definition open_frame (c : jsstr) : frame := mk_frame c c false (num_of_Z 480).

(** A message to the window; [own] says whether it comes from this frame. *)
Definition frame_message (data : value) (own : bool) (f : frame) : option frame :=
  if strict_eq (opt_read (u "type") data) (VStr (u "clawd-html-height")) && own then
    h ← to_number (value_or (opt_read (u "height") data) (VNum (num_of_Z 0)));
    Some (mk_frame (code f) (debouncedCode f) true
      (math_min (nadd (math_max h (num_of_Z 360)) (num_of_Z 16)) (num_of_Z 960)))
  else Some f.

Definition frame_code (c : jsstr) (f : frame) : frame := mk_frame c (debouncedCode f) (loaded f) (height f).

(** The timer of 400 ms since the code last changed. *)
Definition frame_timer (f : frame) : frame :=
  if decide (code f = debouncedCode f) then f else mk_frame (code f) (code f) false (height f).

Definition body_end : jsstr := u "</body>".

Definition resizeScript : jsstr :=
  u "<script>(function(){function h(){parent.postMessage({type:'clawd-html-height',height:document.documentElement.scrollHeight||document.body.scrollHeight},'*')}if(document.readyState==='complete')h();else window.addEventListener('load',h);if(typeof ResizeObserver!=='undefined')new ResizeObserver(h).observe(document.body);setTimeout(h,500);setTimeout(h,2000);})();</script>".

Definition fullCode (f : frame) : jsstr :=
  if includes (debouncedCode f) body_end
  then replace_first (debouncedCode f) body_end (resizeScript ++ body_end)
  else debouncedCode f ++ resizeScript.

(** ** Which blocks of code are charts *)

Definition ascii_lower (c : N) : N := if ((65 <=? c) && (c <=? 90))%N then (c + 32)%N else c.

(** What follows [p] at the beginning of [s]. *)
Fixpoint after (p s : jsstr) : option jsstr :=
  match p, s with
  | [], _ => Some s
  | x :: p', y :: s' => if (x =? y)%N then after p' s' else None
  | _, [] => None
  end.

(** [/echarts(?:\.min)?\.js|echarts\.init\s*\(/i]: the letters of the pattern are ASCII, so
    that its [i] flag is a matter of the letters of ASCII. *)
Definition echarts_here (s : jsstr) : bool :=
  match after (u "echarts") s with
  | None => false
  | Some r =>
      starts_with r (u ".js") || starts_with r (u ".min.js") ||
      match after (u ".init") r with
      | Some r' => starts_with (trim_start r') (u "(")
      | None => false
      end
  end.
Fixpoint mentions_from (s : jsstr) : bool :=
  echarts_here s || match s with [] => false | _ :: s' => mentions_from s' end.
Definition mentions_echarts (s : jsstr) : bool := mentions_from (map ascii_lower s).

Definition elements (v : value) : list value := match v with VArr l => l | _ => [] end.
Definition is_text (key s : string) (v : value) : bool := strict_eq (opt_read (u key) v) (VStr (u s)).

(** A node of the parsed text is an object with [children]; the names of languages that
    count have no letter that another letter has as its lower case. *)
Definition detectChartCodeBlock (node : value) : option jsstr :=
  if negb (truthy node) || negb (truthy (opt_read (u "children") node)) then None else
  codeEl ← List.find (is_text "tagName" "code") (elements (opt_read (u "children") node));
  lang ← List.find (λ c, starts_with (string_or_empty c) (u "language-"))
    (elements (opt_read (u "className") (opt_read (u "properties") codeEl)));
  let name := map ascii_lower (replace_first (string_or_empty lang) (u "language-") []) in
  if existsb (λ s, bool_decide (name = u s)) ["html"; "echarts"; "chart"]%string then
    let text := match List.find (is_text "type" "text") (elements (opt_read (u "children") codeEl)) with
      | Some t => string_or_empty (opt_read (u "value") t)
      | None => []
      end in
    if mentions_echarts text then Some text else None
  else None.

(** ** Laws of the crab *)

(** At the edge of the window, at most [WALK_RANGE] from its base. *)
Definition at_edge (m : mascot) : Prop :=
  pos m = getBasePoint (window m) ∨
  pos m = (IDLE_MARGIN `max` ((getBasePoint (window m)).1 - WALK_RANGE), (getBasePoint (window m)).2)%Z.

Section Laws.
Context (thrown : storage → jsstr).
Abbreviation happens := (happens thrown).
Abbreviation goes := (goes thrown).

Record coherent (m : mascot) : Prop := mk_coherent {
  coherent_edge : at_edge m;
  coherent_dot : chatOpen m = true → hasNewResponse m = false;
  coherent_mounted : chatOpen m = true → chatMounted m = true;
  coherent_close : chatOpen m = true → closeTimer m = false;
  coherent_panel : ∀ p, chat m = Some p → chatMounted m = true ∧ visible p = chatOpen m ∧ sound p;
}.

Lemma coherent_set_open b m : coherent m → coherent (setChatOpen b m).
Proof.
  intros [He Hd Hm Hc Hp]. unfold setChatOpen. destruct (eqb b (chatOpen m)) eqn:E; [done|].
  constructor; simpl; try by destruct b.
  intros p Hq. destruct (chat m) as [p'|]; [|done]. injection Hq as <-. destruct (Hp p' eq_refl) as (Hx & Hv & Hs).
  split; [by destruct b; rewrite ?Hx|]. split; [done|]. by destruct Hs.
Qed.

(** A turn goes on before the step and not after it. *)
Definition turn_over (p : panel) (s : storage) (e : event) : bool :=
  match sending p, sending (panel_of (step thrown (mk_world p s []) e)) with Some _, None => true | _, _ => false end.

(** What the crab sees of a step of the panel. *)
Definition told (w : world) := (visible (panel_of w), sending (panel_of w), existsb is_news (log w)).

Lemma told_hint w w' : told (hint_effect w w') = told w'.
Proof. unfold hint_effect. by destruct (eqb _ _). Qed.

Lemma told_finish w : existsb is_news (log w) = false →
  told (finish w) = (visible (panel_of w), None, negb (visible (panel_of w))).
Proof. intros H. unfold told, finish. simpl. destruct (visible (panel_of w)); simpl; by rewrite ?H. Qed.

Lemma told_rejected e t w : existsb is_news (log w) = false →
  told (rejected e t w) = (visible (panel_of w), None, negb (visible (panel_of w))).
Proof.
  intros H. unfold rejected, catch. destruct e; [|by rewrite told_finish].
  destruct (_ || _); by rewrite told_finish.
Qed.

Lemma visible_keep_answer a p : visible (keep_answer a p) = visible p.
Proof. unfold keep_answer. by destruct (_ || _). Qed.

Lemma told_answered e t p s :
  sending p = Some t →
  let w := answered e t (mk_world p s []) in
  told w = told (mk_world p s []) ∨
  told w = (visible p, None, negb (visible p)) ∨
  ∃ t', told w = (visible p, Some t', false).
Proof.
  intros Ht. cbv zeta. unfold answered.
  destruct e, (stage_of t) as [|r]; try (by left);
    try (case_decide; [|by left]); try (right; left; first [by rewrite told_finish; cbn; rewrite ?visible_keep_answer | by rewrite told_rejected]);
    right; right.
  - by eexists.
  - destruct (take_chunk _ _ _). by eexists.
  - destruct (timer _ _). by eexists.
Qed.

Lemma told_step p s e :
  match e with Shows _ => False | Send => visible p = true | _ => True end →
  visible (panel_of (step thrown (mk_world p s []) e)) = visible p ∧
  existsb is_news (log (step thrown (mk_world p s []) e)) = turn_over p s e && negb (visible p).
Proof.
  intros He. set (w := mk_world p s []).
  assert (∀ w', told w' = told w ∨ told w' = (visible p, None, negb (visible p)) ∧ sending p ≠ None ∨
      (∃ t', told w' = (visible p, Some t', false)) ∨ visible p = true ∧ told w' = (true, None, false) →
    visible (panel_of w') = visible p ∧ existsb is_news (log w') =
      match sending p, sending (panel_of w') with Some _, None => true | _, _ => false end && negb (visible p)) as Hgo.
  { unfold told, w. cbn [panel_of log existsb]. intros w' [H|[[H Hs]|[[t' H]|[Hv H]]]]; injection H as H1 H2 H3;
      rewrite H1, H2, H3; (split; [done|]); destruct (sending p); try done. by rewrite Hv. }
  apply Hgo. unfold step. rewrite told_hint.
  assert (∀ e', let w' := match sending p with Some t => answered e' t w | None => w end in
    told w' = told w ∨ told w' = (visible p, None, negb (visible p)) ∧ sending p ≠ None ∨
    (∃ t', told w' = (visible p, Some t', false)) ∨ visible p = true ∧ told w' = (true, None, false)) as Ha.
  { intros e'. cbv zeta. destruct (sending p) as [t|] eqn:Es; [|by left].
    destruct (told_answered e' t p s Es) as [?|[?|?]]; auto. }
  destruct e; try done; cbn [handle panel_of w]; try apply Ha; try (by left).
  - left. by destruct (_ && _).
  - unfold handleSend. destruct (_ || _); [by left|]. right. right.
    destruct (request_headers _); [left; by eexists|right; split; [done|]]. rewrite told_rejected by done. simpl. by rewrite He.
  - left. unfold told, handleNewSession. simpl. by destruct (abortRef p).
  - left. unfold handleStop. simpl. by destruct (loading p), (abortRef p).
  - left. by destruct (loading p).
  - left. unfold move. generalize (drags (panel_of w)). intros l. clear -l. clearbody w. revert w.
    induction l as [|d l IH]; intros w; [done|]. simpl. by rewrite IH.
Qed.

Definition happening_ok (h : happening) : Prop := match h with InPanel e => pointer_ok e | _ => True end.

Inductive arises : mascot → Prop :=
  | arises_first size s : arises (appears size s)
  | arises_next m h : arises m → happening_ok h → arises (happens m h).

Lemma coherent_in_panel e p m :
  coherent m → chat m = Some p → pointer_ok e →
  match e with Shows _ => False | Send => visible p = true | _ => True end →
  coherent (in_panel thrown e p m).
Proof.
  intros [He Hd Hm Hc Hp] Hq Hpt Hs. destruct (Hp p Hq) as (Hx & Hv & Hsp).
  destruct (told_step p (local m) e Hs) as [Hv' Hn].
  constructor; simpl; try done.
  - intros Ho. unfold in_panel. simpl. rewrite Hn, Hv, Ho, (Hd Ho). by rewrite andb_false_r.
  - intros p' [= <-]. split; [done|]. split; [by rewrite Hv'|]. by apply sound_step.
Qed.

(** Where the panel takes part in a happening. *)
Definition heard (m : mascot) (h : happening) : option (event * panel) :=
  match h, chat m with
  | InPanel e, Some p =>
      match e with
      | Shows _ => None
      | _ => if on_markup e && negb (visible p) then None else Some (e, p)
      end
  | _, _ => None
  end.

Lemma heard_in_panel m h :
  match heard m h with
  | Some (e, p) => h = InPanel e ∧ chat m = Some p ∧ happens m h = in_panel thrown e p m ∧
      match e with Shows _ => False | Send => visible p = true | _ => True end
  | None => ∀ e, h = InPanel e → happens m h = m
  end.
Proof.
  unfold heard. destruct h as [| | | | | | | |e]; try done. destruct (chat m) as [p|] eqn:Ec.
  - destruct e; simpl; rewrite ?Ec; try done; destruct (visible p) eqn:Ev; simpl; try done; by intros ? [= <-].
  - intros ? [= <-]. simpl. rewrite Ec. by destruct e.
Qed.

Lemma coherent_happens h m : happening_ok h → coherent m → coherent (happens m h).
Proof.
  intros Hok H. pose proof (heard_in_panel m h) as Hh. destruct (heard m h) as [[e p]|].
  - destruct Hh as (-> & Hc & -> & He). by apply coherent_in_panel.
  - destruct h as [| | |size| | | |stamp random|e]; [..|by rewrite (Hh e eq_refl)]; clear Hh; simpl.
    + destruct (stepTimer m); [|done]. destruct H. constructor; try done. unfold at_edge. simpl.
      destruct (negb (facingLeft m)); [by right|by left].
    + destruct (initTimer m); [|done]. destruct H. constructor; try done. by left.
    + destruct (closeTimer m); [|done]. destruct H. constructor; try done. by left.
    + destruct H. constructor; try done. by left.
    + by apply coherent_set_open.
    + by apply coherent_set_open.
    + by destruct H.
    + destruct (chat m) as [p|] eqn:Ec; [done|]. destruct (chatMounted m) eqn:Em; [|done].
      destruct H. constructor; simpl; try done. intros p [= <-]. split; [done|]. split; [done|].
      constructor; simpl; try done; [lia|apply initial_width_ok].
Qed.

Lemma arises_coherent m : arises m → coherent m.
Proof.
  induction 1 as [size s|m h _ IH Hok]; [|by apply coherent_happens]. constructor; simpl; try done. by left.
Qed.

(** The crab is seen whole in every window of at least 84 by 56, however the window
    changes and wherever the crab walks; an open chat has its panel mounted and shown,
    and no dot. *)
Theorem crab_and_chat m :
  arises m →
  let '(w, h) := window m in let '(x, y) := pos m in
  (84 ≤ w → 56 ≤ h → 0 ≤ x ∧ x + MASCOT_W ≤ w ∧ 0 ≤ y ∧ y + MASCOT_H ≤ h)%Z ∧
  (chatOpen m = true → hasNewResponse m = false ∧ chatMounted m = true) ∧
  (∀ p, chat m = Some p → visible p = chatOpen m).
Proof.
  intros H. destruct (arises_coherent m H) as [He Hd Hm _ Hp]. destruct (window m) as [w h] eqn:Ew, (pos m) as [x y] eqn:Ep.
  split; [|split; [auto|]; naive_solver].
  unfold at_edge in He. rewrite Ew, Ep in He. unfold getBasePoint, IDLE_MARGIN, MASCOT_W, MASCOT_H, WALK_RANGE in *.
  destruct He as [[= -> ->]|[= -> ->]]; simpl; lia.
Qed.

(** A turn of the panel is over at some point. *)
Fixpoint news (m : mascot) (l : list happening) : bool :=
  match l with
  | [] => false
  | h :: l' =>
      match heard m h with Some (e, p) => turn_over p (local m) e | None => false end || news (happens m h) l'
  end.

Definition opens (h : happening) : bool := match h with ClickMascot => true | _ => false end.

(** C29: As long as the chat stays closed, the red dot is shown exactly if it was before or
    a turn has come to its end meanwhile: with an answer, a refusal or an error. *)
Theorem red_dot_tells_news m l :
  arises m → chatOpen m = false → Forall happening_ok l → existsb opens l = false →
  showRedDot (goes m l) = showRedDot m || news m l.
Proof.
  intros Hm. revert m Hm. induction l as [|h l IH]; intros m Hm Ho Hok Hl; simpl; [by rewrite orb_false_r|].
  apply Forall_cons in Hok as [Hh Hok]. simpl in Hl. apply orb_false_iff in Hl as [Hn Hl].
  pose proof (heard_in_panel m h) as Hp. pose proof (arises_coherent m Hm) as Hc.
  assert (chatOpen (happens m h) = false ∧ showRedDot (happens m h) = showRedDot m ||
    match heard m h with Some (e, p) => turn_over p (local m) e | None => false end) as [Ho' Hs].
  { unfold showRedDot. destruct (heard m h) as [[e p]|].
    - destruct Hp as (_ & Hq & -> & He). destruct (told_step p (local m) e He) as [_ Hw].
      destruct (coherent_panel _ Hc p Hq) as (_ & Hv & _). unfold in_panel. simpl.
      rewrite Hw, Hv, Ho. simpl. by rewrite !andb_true_r.
    - rewrite orb_false_r. destruct h as [| | |size| | | |stamp random|e]; [..|by rewrite (Hp e eq_refl)]; try done; simpl.
      + by destruct (stepTimer m).
      + by destruct (initTimer m).
      + by destruct (closeTimer m).
      + unfold setChatOpen. rewrite Ho. by simpl; rewrite Ho.
      + destruct (chat m); [done|]. by destruct (chatMounted m). }
  rewrite IH; [|by constructor|done..]. by rewrite Hs, orb_assoc.
Qed.
End Laws.

(** ** Laws of the frame *)

Lemma find_first_includes s p : includes s p = true → ∃ b a, find_first s p = Some (b, a) ∧ s = b ++ p ++ a.
Proof.
  induction s as [|c s IH]; simpl; intros H.
  - destruct (starts_with [] p) eqn:E; [|done]. apply starts_with_spec in E as [r Hr]. exists [], [].
    by destruct p.
  - destruct (starts_with (c :: s) p) eqn:E.
    + apply starts_with_spec in E as [r ->]. exists [], r. by rewrite drop_app_length.
    + destruct (IH H) as (b & a & -> & Hs). exists (c :: b), a. by rewrite Hs.
Qed.

Lemma expand_plain matched before after r : 36%N ∉ r → expand matched before after r = r.
Proof.
  induction r as [|c r IH]; [done|]. intros [Hc Hr]%not_elem_of_cons.
  assert (expand matched before after (c :: r) = c :: expand matched before after r) as ->.
  { unfold expand at 1. fold expand. destruct c as [|p]; [done|]. repeat (destruct p as [p|p|]; try done). }
  by rewrite IH.
Qed.

(** The document of the frame is the chart's code with the script that tells its height,
    before the first end of the body, or at the end where there is none. *)
Theorem chart_document f :
  ∃ b a, debouncedCode f = b ++ a ∧ fullCode f = b ++ resizeScript ++ a ∧
    (a = [] ∧ includes (debouncedCode f) body_end = false ∨ starts_with a body_end = true).
Proof.
  unfold fullCode. destruct (includes (debouncedCode f) body_end) eqn:E.
  - destruct (find_first_includes _ _ E) as (b & a & Hf & Hs). unfold replace_first. rewrite Hf.
    exists b, (body_end ++ a). split; [done|]. split; [|right; apply starts_with_spec; by exists a].
    rewrite expand_plain; [by rewrite <- app_assoc|].
    assert (forallb (λ c, negb (c =? 36)%N) (resizeScript ++ body_end) = true) as H by (vm_compute; reflexivity).
    intros Hin. rewrite forallb_forall in H. apply list_elem_of_In in Hin. by apply H in Hin.
  - exists (debouncedCode f), []. rewrite !app_nil_r. auto.
Qed.

Example charts :
  let block lang text := VObj [(u "children", VArr [VObj [(u "tagName", VStr (u "code"));
    (u "properties", VObj [(u "className", VArr [VStr (u "language-" ++ u lang)])]);
    (u "children", VArr [VObj [(u "type", VStr (u "text")); (u "value", VStr (u text))]])]])] in
  (detectChartCodeBlock (block "HTML" "var c = ECharts.init (e)"), detectChartCodeBlock (block "js" "echarts.js"),
   detectChartCodeBlock (block "chart" "echarts.min.mjs")) = (Some (u "var c = ECharts.init (e)"), None, None).
Proof. vm_compute. reflexivity. Qed.

(** ** Witnesses *)

Definition opened : mascot :=
  goes no_text (appears (1600, 900)%Z [])
    [InitTimer; Walks; ClickMascot; PanelLoaded (u "m1x") (u "0.k3j8s0q2w"); InPanel (Typed (u "hello")); InPanel Send;
     InPanel Accepted; CloseChat; Walks].

Definition unseen : list happening :=
  [CloseTimer; InPanel (Chunk (j "data: {`type`:`content`,`content`:`Hi`}" ++ [10%N])); InPanel Timer; Resized (800, 600)%Z;
   InPanel Ended; Walks].

Lemma arises_opened : arises no_text opened.
Proof. unfold opened, goes. cbn [fold_left]. repeat (apply arises_next; [|exact I]). apply arises_first. Qed.

Lemma red_dot_tells_news_witness :
  showRedDot opened = false ∧ showRedDot (goes no_text opened unseen) = true.
Proof.
  split; [vm_compute; reflexivity|].
  rewrite (red_dot_tells_news no_text opened unseen); [vm_compute; reflexivity|apply arises_opened|..].
  - vm_compute; reflexivity.
  - by repeat constructor.
  - reflexivity.
Defined.

Lemma crab_and_chat_witness :
  arises no_text opened ∧ ∀ p, chat opened = Some p → visible p = chatOpen opened.
Proof.
  split; [apply arises_opened|]. pose proof (crab_and_chat no_text opened arises_opened) as H.
  destruct (window opened), (pos opened). exact (proj2 (proj2 H)).
Defined.

(** A resized window sends the crab for a walk while the chat is open. *)
Example walks_beside_the_chat :
  let m := goes no_text (appears (1600, 900)%Z []) [InitTimer; ClickMascot; Resized (1200, 900)%Z; Walks] in
  (chatOpen m, pos m) = (true, (1010, 844)%Z).
Proof. vm_compute. reflexivity. Qed.
