(* ===== verification/Users.v ===== *)
(** * Users
    [src/web/src/hooks/users/useUsersData.jsx]: the table of users, its pages and
    searches, and the actions on one user, whose closure holds the table of its
    render. *)

From Stdlib Require Import SpecFloat.
From stdpp Require Import base numbers option strings sets list.
From S2P Require Import Prelude JsString JsNumber JsValue JsOps.

Definition num_value (z : Z) : value := VNum (num_of_Z z).

(** ** State *)

Inductive effect :=
  | Get (url : jsstr)
  | Post (url : jsstr) (body : value)
  | DeleteUrl (url : jsstr)
  | SetItem (key text : jsstr)
  | ShowError (v : value)
  | ShowSuccess (text : jsstr)
  | Unhandled (v : value).

Record view := mk_view {
  users : list props; loading : bool; activePage : value; pageSize : value; searching : bool; userCount : value;
  showAddUser : bool; showEditUser : bool; editingUser : value;
}.

(** [shown]: the caller shows the error of the load. *)
Inductive waiting :=
  | Load (shown : bool)
  | Search
  | Manage (r : view) (userId : value) (action : jsstr)
  | Remove.

Record state := mk_state { now : view; searchKeyword : jsstr; calls : list waiting; log : list effect }.

Definition with_view v s := mk_state v (searchKeyword s) (calls s) (log s).
Definition with_calls l s := mk_state (now s) (searchKeyword s) l (log s).
Definition emit e s := mk_state (now s) (searchKeyword s) (calls s) (e :: log s).
Definition suspend (w : waiting) (s : state) : state := with_calls (calls s ++ [w]) s.
Definition on_view (f : view → view) (s : state) : state := with_view (f (now s)) s.

Definition setUsers x v := mk_view x (loading v) (activePage v) (pageSize v) (searching v) (userCount v) (showAddUser v) (showEditUser v) (editingUser v).
Definition setLoading x v := mk_view (users v) x (activePage v) (pageSize v) (searching v) (userCount v) (showAddUser v) (showEditUser v) (editingUser v).
Definition setActivePage x v := mk_view (users v) (loading v) x (pageSize v) (searching v) (userCount v) (showAddUser v) (showEditUser v) (editingUser v).
Definition setPageSize x v := mk_view (users v) (loading v) (activePage v) x (searching v) (userCount v) (showAddUser v) (showEditUser v) (editingUser v).
Definition setSearching x v := mk_view (users v) (loading v) (activePage v) (pageSize v) x (userCount v) (showAddUser v) (showEditUser v) (editingUser v).
Definition setUserCount x v := mk_view (users v) (loading v) (activePage v) (pageSize v) (searching v) x (showAddUser v) (showEditUser v) (editingUser v).
Definition setModals add edit user v := mk_view (users v) (loading v) (activePage v) (pageSize v) (searching v) (userCount v) add edit user.

Definition no_user : value := VObj [(u "id", VUndef)].

Section users_hook.
(** [date]: the value of [new Date()], of which only the presence is read. *)
Context (t : jsstr → jsstr) (engine_error date : value).

Definition throws (s : state) : state := emit (Unhandled engine_error) s.

(** Each user gets a key; [None] when an item has no properties. *)
Definition keyed (v : value) : option props :=
  match v with VObj o => Some (set (u "key") (prop (u "id") o) o) | _ => None end.

Definition setUserFormat (items : value) (s : state) : option state :=
  match items with
  | VArr l => us ← mapM keyed l; Some (on_view (setUsers us) s)
  | _ => None
  end.

Definition load_failed (shown : bool) (error : value) (s : state) : state :=
  emit (if shown then ShowError error else Unhandled error) s.

Definition page_url (path : jsstr) (startIdx size : value) : option jsstr :=
  p ← to_string startIdx; z ← to_string size; Some (path ++ u "p=" ++ p ++ u "&page_size=" ++ z).

Definition loadUsers (shown : bool) (startIdx size : value) (s : state) : state :=
  let s := on_view (setLoading true) s in
  match page_url (u "/api/user/?") startIdx size with
  | Some url => suspend (Load shown) (emit (Get url) s)
  | None => load_failed shown engine_error s
  end.

(** The keyword is put into the address as it is. *)
Definition searchUsers (startIdx size : value) (keyword : jsstr) (s : state) : state :=
  match keyword with
  | [] => loadUsers false startIdx size s
  | _ =>
      let s := on_view (setSearching true) s in
      match page_url (u "/api/user/search?keyword=" ++ keyword ++ u "&") startIdx size with
      | Some url => suspend Search (emit (Get url) s)
      | None => throws s
      end
  end.

(** What [loadUsers] and [searchUsers] do with an answer; [None] when it throws. *)
Definition page_answered (res : value) (s : state) : option state :=
  data ← read (u "data") res; success ← read (u "success") data;
  if truthy success then
    let d := opt_read (u "data") data in
    items ← read (u "items") d;
    setUserFormat items (on_view (λ v, setUserCount (opt_read (u "total") d) (setActivePage (opt_read (u "page") d) v)) s)
  else Some (emit (ShowError (opt_read (u "message") data)) s).

(** The page and the count are set before the items are read. *)
Definition page_thrown (res : value) (s : state) : state :=
  let d := opt_read (u "data") (opt_read (u "data") res) in
  match read (u "items") d with
  | Some _ => if truthy (opt_read (u "success") (opt_read (u "data") res))
      then on_view (λ v, setUserCount (opt_read (u "total") d) (setActivePage (opt_read (u "page") d) v)) s else s
  | None => s
  end.

Definition load_answered (shown : bool) (res : value) (s : state) : state :=
  match page_answered res s with
  | Some s => on_view (setLoading false) s
  | None => load_failed shown engine_error (page_thrown res s)
  end.

Definition search_answered (res : value) (s : state) : state :=
  match page_answered res s with
  | Some s => on_view (setSearching false) s
  | None => throws (page_thrown res s)
  end.

(** *** Actions *)

Definition manageUser (r : view) (userId : value) (action : jsstr) (s : state) : state :=
  suspend (Manage r userId action) (emit (Post (u "/api/user/manage")
    (VObj [(u "id", userId); (u "action", VStr action)])) (on_view (setLoading true) s)).

(** [{ ...u, DeletedAt }] or [{ ...u, status, role }]; [None] when the answer has no user. *)
Definition managed (action : jsstr) (user : value) (o : props) : option props :=
  if decide (action = u "delete") then Some (set (u "DeletedAt") date o)
  else status ← read (u "status") user; Some (set (u "role") (opt_read (u "role") user) (set (u "status") status o)).

Definition manage_answered (r : view) (userId : value) (action : jsstr) (res : value) (s : state) : state :=
  match read (u "data") res ≫= λ d, x ← read (u "success") d; Some (d, x) with
  | None => throws s
  | Some (data, success) =>
      if truthy success then
        let s := emit (ShowSuccess (t (u "操作成功完成！"))) s in
        match mapM (λ o, if strict_eq (prop (u "id") o) userId then managed action (opt_read (u "data") data) o
                         else Some o) (users r) with
        | Some us => on_view (λ v, setLoading false (setUsers us v)) s
        | None => throws s
        end
      else on_view (setLoading false) (emit (ShowError (opt_read (u "message") data)) s)
  end.

(** *** Removing for good *)

Definition remove_failed (error : value) (s : state) : state :=
  on_view (setLoading false)
    (emit (ShowError (value_or (opt_read (u "message") error) (VStr (t (u "操作失败，请重试"))))) s).

Definition deleteUser (user : value) (s : state) : state :=
  if negb (truthy user) then s
  else
    let s := on_view (setLoading true) s in
    match to_string (opt_read (u "id") user) with
    | Some id => suspend Remove (emit (DeleteUrl (u "/api/user/" ++ id)) s)
    | None => remove_failed engine_error s
    end.

Definition remove_answered (res : value) (s : state) : state :=
  match read (u "data") res ≫= λ d, x ← read (u "success") d; Some (d, x) with
  | None => remove_failed engine_error s
  | Some (data, success) =>
      on_view (setLoading false)
        (emit (if truthy success then ShowSuccess (t (u "用户已从数据库彻底移除"))
               else ShowError (opt_read (u "message") data)) s)
  end.

(** *** Pages *)

Definition open_page (page size : value) (s : state) : state :=
  match searchKeyword s with
  | [] => loadUsers false page size s
  | keyword => searchUsers page size keyword s
  end.

Definition handlePageChange (r : view) (page : value) (s : state) : state :=
  open_page page (pageSize r) (on_view (setActivePage page) s).

(** The page that is loaded is that of the render, not the first. *)
Definition handlePageSizeChange (r : view) (size : num) (s : state) : state :=
  loadUsers true (activePage r) (VNum size)
    (on_view (λ v, setActivePage (num_value 1) (setPageSize (VNum size) v))
      (emit (SetItem (u "page-size") (num_to_string size)) s)).

Definition refresh (r : view) (page : option value) : state → state := open_page (default (activePage r) page) (pageSize r).

(** A row that is deleted or not enabled is shaded; a missing [DeletedAt] is not null. *)
Definition handleRow (record : props) : bool :=
  negb (strict_eq (prop (u "DeletedAt") record) VNull) || negb (strict_eq (prop (u "status") record) (num_value 1)).

Definition closeAddUser (v : view) : view := setModals false (showEditUser v) (editingUser v) v.
Definition closeEditUser (v : view) : view := setModals (showAddUser v) false no_user v.

(** *** Steps *)

Inductive event :=
  | PageChange (page : value)
  | PageSizeChange (size : num)
  | SearchSubmit
  | Refresh (page : option value)
  | Form (keyword : jsstr)
  | ManageUser (userId : value) (action : jsstr)
  | DeleteUser (user : value)
  | Add
  | Edit (user : value)
  | CloseAdd
  | CloseEdit
  | Answer (i : nat) (res : value)
  | Failure (i : nat) (error : value).

Definition take_call (i : nat) (s : state) : state := with_calls (delete i (calls s)) s.

Definition answered (w : waiting) (res : value) (s : state) : state :=
  match w with
  | Load shown => load_answered shown res s
  | Search => search_answered res s
  | Manage r userId action => manage_answered r userId action res s
  | Remove => remove_answered res s
  end.

Definition failed (w : waiting) (error : value) (s : state) : state :=
  match w with
  | Load shown => load_failed shown error s
  | Search | Manage _ _ _ => emit (Unhandled error) s
  | Remove => remove_failed error s
  end.

Definition step (s : state) (e : event) : state :=
  let r := now s in
  match e with
  | PageChange page => handlePageChange r page s
  | PageSizeChange size => handlePageSizeChange r size s
  | SearchSubmit => searchUsers (num_value 1) (pageSize r) (searchKeyword s) s
  | Refresh page => refresh r page s
  | Form keyword => mk_state (now s) keyword (calls s) (log s)
  | ManageUser userId action => manageUser r userId action s
  | DeleteUser user => deleteUser user s
  | Add => on_view (λ v, setModals true (showEditUser v) (editingUser v) v) s
  | Edit user => on_view (setModals (showAddUser r) true user) s
  | CloseAdd => on_view closeAddUser s
  | CloseEdit => on_view closeEditUser s
  | Answer i res => match calls s !! i with Some w => answered w res (take_call i s) | None => s end
  | Failure i error => match calls s !! i with Some w => failed w error (take_call i s) | None => s end
  end.

Definition run (s : state) (es : list event) : state := fold_left step es s.

Definition first_view : view :=
  mk_view [] true (num_value 1) (num_value 10) false (num_value 0) false false no_user.

Definition init : state := loadUsers true (num_value 0) (num_value 10) (mk_state first_view [] [] []).

(** ** Laws *)

(** A new size shows page 1 and loads the page that was shown. *)
Lemma page_size_keeps_page s size url :
  page_url (u "/api/user/?") (activePage (now s)) (VNum size) = Some url →
  let s' := step s (PageSizeChange size) in
  activePage (now s') = num_value 1 ∧ log s' = Get url :: SetItem (u "page-size") (num_to_string size) :: log s.
Proof. intros H. simpl. unfold handlePageSizeChange, loadUsers. cbv zeta. by rewrite H. Qed.

(** An action that is answered after another page was loaded brings back the users of
    the page it was clicked on. *)
Lemma late_action_restores_users s i r userId action user :
  calls s !! i = Some (Manage r userId action) → action ≠ u "delete" → is_Some (read (u "status") user) →
  let s' := step s (Answer i (VObj [(u "data", VObj [(u "success", VBool true); (u "data", user)])])) in
  map (prop (u "id")) (users (now s')) = map (prop (u "id")) (users r).
Proof.
  intros Hi Ha [status Hs]. simpl. rewrite Hi. cbn [answered]. unfold manage_answered.
  change (read (u "data") (VObj [(u "data", VObj [(u "success", VBool true); (u "data", user)])])) with
    (Some (VObj [(u "success", VBool true); (u "data", user)])). cbn [mbind option_bind].
  change (read (u "success") (VObj [(u "success", VBool true); (u "data", user)])) with (Some (VBool true)).
  cbn [mbind option_bind truthy].
  change (opt_read (u "data") (VObj [(u "success", VBool true); (u "data", user)])) with user.
  assert (∀ o, ∃ o', managed action user o = Some o' ∧ prop (u "id") o' = prop (u "id") o) as Hm.
  { intros o. unfold managed. rewrite decide_False by done. rewrite Hs. cbn [mbind option_bind].
    eexists; split; [done|]. by rewrite !prop_set. }
  assert (∀ us : list props, ∃ us', mapM (λ o, if strict_eq (prop (u "id") o) userId then managed action user o else Some o) us =
    Some us' ∧ map (prop (u "id")) us' = map (prop (u "id")) us) as H.
  { induction us as [|o us (us' & IH1 & IH2)]; [by exists []|]. destruct (Hm o) as (o' & E & Ho). simpl.
    rewrite E. destruct (strict_eq (prop (u "id") o) userId); cbn [mbind option_bind]; rewrite IH1;
      (eexists; split; [done|]; simpl; by rewrite IH2, ?Ho). }
  destruct (H (users r)) as (us' & E & Hids). rewrite E. simpl. exact Hids.
Qed.
End users_hook.
