(* ===== verification/TextRender.v ===== *)
(** * Texts and colours
    [src/web/src/helpers/render.jsx] up to the amounts: the categories and icons of
    models and channels, the colours computed from names with 32-bit hashes, the
    search for the longest text that fits a width, numbers in short form. *)

From Stdlib Require Import SpecFloat.
From stdpp Require Import base numbers option strings sets list.
From S2P Require Import Prelude JsString JsNumber JsValue JsOps.

(** ** Categories of models *)

Inductive name_test := Contains (s : string) | StartsWith (s : string).

Definition test_name (name : jsstr) (t : name_test) : bool :=
  match t with Contains s => includes name (u s) | StartsWith s => starts_with name (u s) end.

(** The categories after [all], in their order, with the tests of their filters. *)
Definition getModelCategories : list (string * list name_test) := [
  ("openai", map Contains ["gpt"; "dall-e"; "whisper"; "tts-1"; "text-embedding-3"; "text-moderation"; "babbage";
    "davinci"; "curie"; "ada"; "o1"; "o3"; "o4"]);
  ("anthropic", [Contains "claude"]);
  ("gemini", [Contains "gemini"; Contains "gemma"; Contains "learnlm"; StartsWith "embedding-";
    Contains "text-embedding-004"; Contains "imagen-4"; Contains "veo-"; Contains "aqa"]);
  ("zhipu", map Contains ["chatglm"; "glm-"; "cogview"; "cogvideo"]);
  ("deepseek", [Contains "deepseek"]);
  ("baidu", [Contains "ernie"]);
  ("xunfei", [Contains "spark"]);
  ("midjourney", [Contains "mj_"]);
  ("cohere", map Contains ["command"; "c4ai-"; "embed-"]);
  ("cloudflare", [Contains "@cf/"]);
  ("ai360", [Contains "360"]);
  ("jina", [Contains "jina"]);
  ("xai", [Contains "grok"]);
  ("llama", [Contains "llama"])]%string.

(** The category whose icon the tag of a model shows. *)
Definition model_category (lower : jsstr → jsstr) (name : jsstr) : option string :=
  fst <$> find (λ c, existsb (test_name (lower name)) c.2) getModelCategories.

Definition CHANNEL_ICON_MAP : list (Z * (string * bool)) := [
  (1, ("OpenAI", false)); (3, ("OpenAI", false)); (57, ("OpenAI", false)); (2, ("Midjourney", false));
  (5, ("Midjourney", false)); (36, ("Suno", false)); (14, ("Claude", true)); (33, ("Claude", true));
  (41, ("Gemini", true)); (34, ("Cohere", true)); (39, ("Cloudflare", true)); (43, ("DeepSeek", true));
  (15, ("Wenxin", true)); (46, ("Wenxin", true)); (18, ("Spark", true)); (16, ("Zhipu", true));
  (26, ("Zhipu", true)); (24, ("Gemini", true)); (11, ("Gemini", true)); (47, ("Xinference", true));
  (20, ("OpenRouter", false)); (19, ("Ai360", true)); (37, ("Dify", true)); (38, ("Jina", false));
  (48, ("XAI", false)); (56, ("Replicate", false)); (22, ("FastGPT", true))]%Z%string.

(** The name of the icon, and whether it is coloured. *)
Definition getChannelIcon (channelType : Z) : option (string * bool) :=
  snd <$> find (λ p, bool_decide (p.1 = channelType)) CHANNEL_ICON_MAP.

(** ** Colours *)

Definition colors : list string := ["amber"; "blue"; "cyan"; "green"; "grey"; "indigo"; "light-blue"; "lime";
  "orange"; "pink"; "purple"; "red"; "teal"; "violet"; "yellow"].
Definition baseColors : list string := ["#1664FF"; "#1AC6FF"; "#FF8A00"; "#3CC780"; "#7442D4"; "#FFC400"; "#304D77";
  "#B48DEB"; "#009488"; "#FF7DDA"].
Definition extendedColors : list string := ["#1664FF"; "#B2CFFF"; "#1AC6FF"; "#94EFFF"; "#FF8A00"; "#FFCE7A";
  "#3CC780"; "#B9EDCD"; "#7442D4"; "#DDC5FA"; "#FFC400"; "#FAE878"; "#304D77"; "#8B959E"; "#B48DEB"; "#EFE3FF";
  "#009488"; "#59BAA8"; "#FF7DDA"; "#FFCFEE"].
Definition groupColors : list string := ["red"; "orange"; "yellow"; "lime"; "green"; "cyan"; "blue"; "indigo";
  "violet"; "purple"; "pink"; "amber"; "grey"].

Definition modelColorMap : list (string * string) := [
  ("dall-e", "rgb(147,112,219)"); ("dall-e-3", "rgb(153,50,204)"); ("gpt-3.5-turbo", "rgb(184,227,167)");
  ("gpt-3.5-turbo-0613", "rgb(60,179,113)"); ("gpt-3.5-turbo-1106", "rgb(32,178,170)");
  ("gpt-3.5-turbo-16k", "rgb(149,252,206)"); ("gpt-3.5-turbo-16k-0613", "rgb(119,255,214)");
  ("gpt-3.5-turbo-instruct", "rgb(175,238,238)"); ("gpt-4", "rgb(135,206,235)"); ("gpt-4-0613", "rgb(100,149,237)");
  ("gpt-4-1106-preview", "rgb(30,144,255)"); ("gpt-4-0125-preview", "rgb(2,177,236)");
  ("gpt-4-turbo-preview", "rgb(2,177,255)"); ("gpt-4-32k", "rgb(104,111,238)"); ("gpt-4-32k-0613", "rgb(61,71,139)");
  ("gpt-4-all", "rgb(65,105,225)"); ("gpt-4-gizmo-*", "rgb(0,0,255)"); ("gpt-4-vision-preview", "rgb(25,25,112)");
  ("text-ada-001", "rgb(255,192,203)"); ("text-babbage-001", "rgb(255,160,122)");
  ("text-curie-001", "rgb(219,112,147)"); ("text-davinci-003", "rgb(219,112,147)");
  ("text-davinci-edit-001", "rgb(255,105,180)"); ("text-embedding-ada-002", "rgb(255,182,193)");
  ("text-embedding-v1", "rgb(255,174,185)"); ("text-moderation-latest", "rgb(255,130,171)");
  ("text-moderation-stable", "rgb(255,160,122)"); ("tts-1", "rgb(255,140,0)"); ("tts-1-1106", "rgb(255,165,0)");
  ("tts-1-hd", "rgb(255,215,0)"); ("tts-1-hd-1106", "rgb(255,223,0)"); ("whisper-1", "rgb(245,245,220)");
  ("claude-3-opus-20240229", "rgb(255,132,31)"); ("claude-3-sonnet-20240229", "rgb(253,135,93)");
  ("claude-3-haiku-20240307", "rgb(255,175,146)")]%string.

(** The integer that a bitwise operator makes of an integer. *)
Definition to_int32 (z : Z) : Z := ((z + 2 ^ 31) mod 2 ^ 32 - 2 ^ 31)%Z.

(** [hash << n] *)
Definition shift_left (hash n : Z) : Z := to_int32 (Z.shiftl (to_int32 hash) n).

(** [hash = (hash << 5) - hash + c; hash = hash & hash] *)
Definition hash32_step (hash : Z) (c : N) : Z := to_int32 (shift_left hash 5 - hash + Z.of_N c)%Z.
Definition hash32 (s : jsstr) : Z := fold_left hash32_step s 0%Z.

(** [hash = c + ((hash << 6) + (hash << 16) - hash)]: the sum is not reduced. *)
Definition sdbm_step (hash : Z) (c : N) : Z := (Z.of_N c + (shift_left hash 6 + shift_left hash 16 - hash))%Z.
Definition sdbm (s : jsstr) : Z := fold_left sdbm_step s 0%Z.

Definition pick (palette : list string) (hash : Z) : option string :=
  palette !! Z.to_nat (Z.abs hash mod Z.of_nat (length palette)).

Definition modelToColor (modelName : jsstr) : option string :=
  match find (λ p, bool_decide (u p.1 = modelName)) modelColorMap with
  | Some p => Some p.2
  | None => pick (if (10 <? length modelName)%nat then extendedColors else baseColors) (hash32 modelName)
  end.

Definition stringToColor (str : jsstr) : option string := pick colors (sdbm str).
Definition groupToColor (str : jsstr) : option string := pick groupColors (hash32 str).

Definition tagColors : list (string * string) := [("vip", "yellow"); ("pro", "yellow"); ("svip", "red"); ("premium", "red")]%string.

(** The colours of the tags of a list of groups, sorted; none for the default tag. *)
Definition renderGroup (group : jsstr) : list (jsstr * option string) :=
  match group with
  | [] => []
  | _ => map (λ g, (g, match find (λ p, bool_decide (u p.1 = g)) tagColors with
                       | Some p => Some p.2 | None => groupToColor g end))
           (sort str_leb (split_on 44 group))
  end.

Definition renderRatio (ratio : num) : string :=
  if nltb (num_of_Z 5) ratio then "red"
  else if nltb (num_of_Z 3) ratio then "orange"
  else if nltb (num_of_Z 1) ratio then "blue" else "green".

(** *** 32-bit arithmetic *)

Lemma to_int32_range z : (- 2 ^ 31 ≤ to_int32 z < 2 ^ 31)%Z.
Proof. unfold to_int32. pose proof (Z.mod_pos_bound (z + 2 ^ 31) (2 ^ 32)). lia. Qed.

Lemma to_int32_mod z : (to_int32 z mod 2 ^ 32 = z mod 2 ^ 32)%Z.
Proof.
  unfold to_int32. rewrite Zminus_mod, Zmod_mod, <- Zminus_mod. f_equal. lia.
Qed.

Lemma to_int32_eq a b : (a mod 2 ^ 32 = b mod 2 ^ 32)%Z → to_int32 a = to_int32 b.
Proof. intros H. unfold to_int32. by rewrite (Zplus_mod a), H, <- Zplus_mod. Qed.

Lemma shift_left_mod h n : (0 ≤ n)%Z → (shift_left h n mod 2 ^ 32 = (h * 2 ^ n) mod 2 ^ 32)%Z.
Proof.
  intros Hn. unfold shift_left. rewrite to_int32_mod, Z.shiftl_mul_pow2 by done.
  by rewrite Zmult_mod, to_int32_mod, <- Zmult_mod.
Qed.

(** The polynomial in 31 whose 32-bit value the hash is. *)
Definition poly31 (s : jsstr) : Z := fold_left (λ h c, 31 * h + Z.of_N c)%Z s 0%Z.

Lemma hash32_poly s : hash32 s = to_int32 (poly31 s).
Proof.
  unfold hash32, poly31.
  assert (∀ a b, a = to_int32 b →
    fold_left hash32_step s a = to_int32 (fold_left (λ h c, 31 * h + Z.of_N c)%Z s b)) as H.
  { induction s as [|c s IH]; intros a b Hab; [done|]. simpl. apply IH. unfold hash32_step. apply to_int32_eq.
    subst a. rewrite Zplus_mod, (Zminus_mod (shift_left _ _)), shift_left_mod by done.
    rewrite (Zmult_mod (to_int32 b)), to_int32_mod, <- Zmult_mod, <- Zminus_mod, <- Zplus_mod.
    f_equal. change (2 ^ 5)%Z with 32%Z. lia. }
  by apply H.
Qed.

Lemma pick_member palette hash :
  palette ≠ [] → ∃ c, pick palette hash = Some c ∧ c ∈ palette.
Proof.
  intros Hp. unfold pick.
  assert (0 < Z.of_nat (length palette))%Z as Hl by (destruct palette; [done | simpl; lia]).
  pose proof (Z.mod_pos_bound (Z.abs hash) _ Hl) as Hb.
  destruct (palette !! Z.to_nat (Z.abs hash mod Z.of_nat (length palette))) as [c|] eqn:E.
  - exists c. split; [done|]. by eapply list_elem_of_lookup_2.
  - apply lookup_ge_None in E. lia.
Qed.

(** The unreduced sum grows by less than [2 ^ 33] at each unit. *)
Lemma sdbm_bound s : Forall (λ c, (c < 2 ^ 16)%N) s → (Z.abs (sdbm s) ≤ 2 ^ 33 * Z.of_nat (length s))%Z.
Proof.
  intros Hs. unfold sdbm.
  assert (∀ a, Z.abs (fold_left sdbm_step s a) ≤ Z.abs a + 2 ^ 33 * Z.of_nat (length s))%Z as H; [|by apply H].
  induction Hs as [|c s Hc _ IH]; intros a; simpl; [lia|]. etrans; [apply IH|].
  unfold sdbm_step. pose proof (to_int32_range (Z.shiftl (to_int32 a) 6)). pose proof (to_int32_range (Z.shiftl (to_int32 a) 16)).
  fold (shift_left a 6) in *. fold (shift_left a 16) in *. lia.
Qed.

(** every name has a colour of its palette, whatever its units, with the hash at its
    32 bits, [-2^31] included: the hash of models and groups is the value of a
    polynomial in 31 reduced to 32 bits; the one of texts is not reduced, but stays
    exact in a double for texts of up to 2^20 units. *)
Theorem colours_from_hashes s :
  (∃ c, modelToColor s = Some c ∧ c ∈ baseColors ++ extendedColors ++ map snd modelColorMap) ∧
  (∃ c, groupToColor s = Some c ∧ c ∈ groupColors) ∧ (∃ c, stringToColor s = Some c ∧ c ∈ colors) ∧
  hash32 s = to_int32 (poly31 s) ∧
  (Forall (λ c, (c < 2 ^ 16)%N) s → (length s ≤ 2 ^ 20)%nat → (Z.abs (sdbm s) ≤ 2 ^ 53)%Z).
Proof.
  split; [|split; [|split; [|split]]].
  - unfold modelToColor. destruct (find _ modelColorMap) as [p|] eqn:E.
    + exists p.2. split; [done|]. rewrite !elem_of_app. right. right.
      apply find_some in E as [Hin _]. apply list_elem_of_fmap_2. by apply list_elem_of_In.
    + destruct (10 <? length s)%nat.
      * destruct (pick_member extendedColors (hash32 s)) as (c & -> & Hc); [done|].
        exists c. split; [done|]. rewrite !elem_of_app. auto.
      * destruct (pick_member baseColors (hash32 s)) as (c & -> & Hc); [done|].
        exists c. split; [done|]. rewrite !elem_of_app. auto.
  - by apply pick_member.
  - by apply pick_member.
  - apply hash32_poly.
  - intros Hs Hl. etrans; [by apply sdbm_bound|].
    assert (Z.of_nat (length s) ≤ 2 ^ 20)%Z; [|lia].
    replace (2 ^ 20)%Z with (Z.of_nat (2 ^ 20)) by (by rewrite Nat2Z.inj_pow). lia.
Qed.

(** ** Cutting texts *)

(** [s.slice(0, k)] *)
Definition slice_to (k : Z) (s : jsstr) : jsstr :=
  take (Z.to_nat (if (k <? 0)%Z then Z.of_nat (length s) + k else k)) s.

Definition dots : jsstr := u "...".

Definition renderText (text : jsstr) (limit : Z) : jsstr :=
  if (limit <? Z.of_nat (length text))%Z then slice_to (limit - 3) text ++ dots else text.

Section truncate.
(** Whether a text is at most [actualMaxWidth] wide on the page. *)
Context (fits : jsstr → bool).

Definition cut (text : jsstr) (mid : Z) : jsstr := slice_to mid text ++ dots.

(** The loop, with the number of its turns; [None] when the fuel is used up. *)
Fixpoint search (fuel : nat) (text : jsstr) (left right : Z) (result : jsstr) : option (jsstr * nat) :=
  if (left <=? right)%Z then
    match fuel with
    | O => None
    | S fuel =>
        let mid := ((left + right) / 2)%Z in
        prod_map id S <$>
          (if fits (cut text mid) then search fuel text (mid + 1) right (cut text mid)
           else search fuel text left (mid - 1) result)
    end
  else Some (result, O).

Definition search_fuel (text : jsstr) : nat := S (S (Nat.log2 (length text))).

(** [truncateText] once it measures. *)
Definition truncate (text : jsstr) : option jsstr :=
  if fits text then Some text
  else fst <$> search (search_fuel text) text 0 (Z.of_nat (length text)) text.

(** The interval of [n] candidates is halved at each turn. *)
Lemma search_ends k : ∀ text left right result,
  (0 ≤ left)%Z → (right - left + 1 < 2 ^ Z.of_nat k)%Z →
  ∃ r n, search k text left right result = Some (r, n) ∧ (n ≤ k)%nat.
Proof.
  induction k as [|k IH]; intros text left right result Hl Hn.
  - simpl in *. rewrite (proj2 (Z.leb_gt _ _)) by lia. eauto.
  - simpl. destruct (Z.leb_spec left right) as [H|H]; [|exists result, 0%nat; split; [done|lia]].
    rewrite Nat2Z.inj_succ, Z.pow_succ_r in Hn by lia. cbv zeta.
    pose proof (Z.div_mod (left + right) 2 ltac:(lia)). pose proof (Z.mod_pos_bound (left + right) 2 ltac:(lia)).
    destruct (fits _).
    + destruct (IH text ((left + right) / 2 + 1) right (cut text ((left + right) / 2)))%Z as (r & n & -> & Hk); [lia..|].
      exists r, (S n). split; [done | lia].
    + destruct (IH text left ((left + right) / 2 - 1) result)%Z as (r & n & -> & Hk); [lia..|].
      exists r, (S n). split; [done | lia].
Qed.

Hypothesis fits_shorter : ∀ text m n,
  (0 ≤ m ≤ n)%Z → (n ≤ Z.of_nat (length text))%Z → fits (cut text n) = true → fits (cut text m) = true.

(** Cuts below [left] fit, those above [right] do not, and the result is the last that
    fitted. *)
Definition searched (text : jsstr) (left right : Z) (result : jsstr) : Prop :=
  (0 ≤ left)%Z ∧ (left ≤ right + 1)%Z ∧ (right ≤ Z.of_nat (length text))%Z ∧
  (left = 0 ∧ result = text ∨ (0 < left)%Z ∧ result = cut text (left - 1) ∧ fits (cut text (left - 1)) = true)%Z ∧
  ∀ m, (right < m ≤ Z.of_nat (length text))%Z → fits (cut text m) = false.

(** What truncating a text that does not fit gives. *)
Definition longest_cut (text result : jsstr) : Prop :=
  (result = text ∧ ∀ m, (0 ≤ m ≤ Z.of_nat (length text))%Z → fits (cut text m) = false) ∨
  ∃ n, (0 ≤ n ≤ Z.of_nat (length text))%Z ∧ result = cut text n ∧ fits result = true ∧
    ∀ m, (n < m ≤ Z.of_nat (length text))%Z → fits (cut text m) = false.

Lemma search_longest k : ∀ text left right result r n,
  searched text left right result → search k text left right result = Some (r, n) → longest_cut text r.
Proof.
  induction k as [|k IH]; intros text left right result r n (H1 & H2 & H3 & H4 & H5) Hs; simpl in Hs;
    destruct (Z.leb_spec left right) as [H|H].
  - done.
  - injection Hs as <- _. destruct H4 as [[-> ->]|(Hl & -> & Hf)].
    + left. split; [done|]. intros m Hm. apply H5. lia.
    + right. exists (left - 1)%Z. repeat (split; [done || lia|]). intros m Hm. apply H5. lia.
  - cbv zeta in Hs.
    pose proof (Z.div_mod (left + right) 2 ltac:(lia)). pose proof (Z.mod_pos_bound (left + right) 2 ltac:(lia)).
    set (mid := ((left + right) / 2)%Z) in *. destruct (fits (cut text mid)) eqn:Ef.
    + destruct (search k text (mid + 1) right (cut text mid)) as [[r' n']|] eqn:E; [|done]. injection Hs as <- _.
      apply (IH _ _ _ _ _ _) in E; [done|]. split; [lia|]. split; [lia|]. split; [lia|]. split; [|done].
      right. replace (mid + 1 - 1)%Z with mid by lia. split; [lia|]. done.
    + destruct (search k text left (mid - 1) result) as [[r' n']|] eqn:E; [|done]. injection Hs as <- _.
      apply (IH _ _ _ _ _ _) in E; [done|]. split; [lia|]. split; [lia|]. split; [lia|]. split; [done|].
      intros m Hm. destruct (fits (cut text m)) eqn:Em; [|done].
      rewrite (fits_shorter text mid m) in Ef; [done|lia|lia|done].
  - injection Hs as <- _. destruct H4 as [[-> ->]|(Hl & -> & Hf)].
    + left. split; [done|]. intros m Hm. apply H5. lia.
    + right. exists (left - 1)%Z. repeat (split; [done || lia|]). intros m Hm. apply H5. lia.
Qed.

(** cutting a text to a width ends after at most [2 + log2 n] measurements and gives
    the text itself when it fits, else its longest beginning that fits with its dots;
    when not even the dots fit, the whole text. *)
Theorem truncate_longest text :
  ∃ result, truncate text = Some result ∧
    (fits text = true ∧ result = text ∨ fits text = false ∧ longest_cut text result) ∧
    ∀ r n, search (search_fuel text) text 0 (Z.of_nat (length text)) text = Some (r, n) →
      (n ≤ 2 + Nat.log2 (length text))%nat.
Proof.
  assert (∃ r n, search (search_fuel text) text 0 (Z.of_nat (length text)) text = Some (r, n) ∧
    (n ≤ search_fuel text)%nat) as (r & n & Hs & Hn).
  { apply search_ends; [lia|]. unfold search_fuel. rewrite !Nat2Z.inj_succ, !Z.pow_succ_r by lia.
    destruct (length text) as [|l] eqn:El; [done|].
    destruct (Nat.log2_spec (S l)) as [_ Hlog]; [lia|]. apply Nat2Z.inj_lt in Hlog. rewrite Nat2Z.inj_pow in Hlog.
    rewrite (Nat2Z.inj_succ (Nat.log2 _)), Z.pow_succ_r in Hlog by lia. change (Z.of_nat 2) with 2%Z in Hlog. lia. }
  unfold truncate. rewrite Hs. destruct (fits text) eqn:Ef.
  - exists text. split; [done|]. split; [by left|]. intros r' n' [= <- <-]. exact Hn.
  - exists r. split; [done|]. split; [right|intros r' n' [= <- <-]; exact Hn]. split; [done|].
    eapply search_longest; [|exact Hs]. split; [lia|]. split; [lia|]. split; [lia|]. split; [by left|].
    intros m Hm. lia.
Qed.
End truncate.

Lemma truncate_longest_witness :
  let fits (s : jsstr) := (length s <=? 5)%nat in
  (∀ text m n, (0 ≤ m ≤ n)%Z → (n ≤ Z.of_nat (length text))%Z →
    fits (cut text n) = true → fits (cut text m) = true) ∧
  ∃ result, truncate fits (u "abcdefgh") = Some result ∧ result = u "ab...".
Proof.
  intros fits.
  assert (∀ text m n, (0 ≤ m ≤ n)%Z → (n ≤ Z.of_nat (length text))%Z →
    fits (cut text n) = true → fits (cut text m) = true) as Hm.
  { intros text m n H1 H2. unfold fits, cut, slice_to. rewrite !length_app, !length_take, !Nat.leb_le.
    rewrite !(proj2 (Z.ltb_ge _ 0)) by lia. lia. }
  split; [exact Hm|]. destruct (truncate_longest fits Hm (u "abcdefgh")) as (r & Hr & _).
  exists r. split; [exact Hr|]. vm_compute in Hr. by injection Hr as <-.
Defined.

(** The text shown, as [truncateText] decides; [maxWidth] is a number of pixels or a
    percentage of the window, [measure] the width of a text and [None] its failure. *)
Definition actualMaxWidth (innerWidth : num) (maxWidth : value) : option num :=
  match maxWidth with
  | VStr s => if ends_with s (u "%") then Some (nmul innerWidth (ndiv (parse_float s) (num_of_Z 100)))
              else Some (str_to_num s)
  | v => to_number v
  end.

Definition truncateText (isMobileScreen : bool) (measure : option (jsstr → Z)) (innerWidth : num) (maxWidth : value)
    (text : jsstr) : option jsstr :=
  if negb isMobileScreen then Some text
  else match text with
  | [] => Some []
  | _ =>
      match measure, actualMaxWidth innerWidth maxWidth with
      | Some width, Some limit => truncate (λ s, nleb (num_of_Z (width s)) limit) text
      | _, _ => Some (if (20 <? length text)%nat then slice_to 17 text ++ dots else text)
      end
  end.

(** ** Short numbers *)

(** A text, or the number itself. *)
Definition renderNumber (x : num) : value :=
  let short (d : Z) (suffix : string) := VStr (to_fixed (ndiv x (num_of_Z d)) 1 ++ u suffix) in
  if nleb (num_of_Z 1000000000) x then short 1000000000%Z "B"%string
  else if nleb (num_of_Z 1000000) x then short 1000000%Z "M"%string
  else if nleb (num_of_Z 10000) x then short 1000%Z "k"%string
  else VNum x.

(** [s.slice(-2)] *)
Definition last_two (s : jsstr) : jsstr := drop (length s - 2) s.

Definition renderNumberWithPoint (x : option num) : jsstr :=
  match x with
  | None => []
  | Some x =>
      let text := to_fixed x 2 in
      if nleb (num_of_Z 100000) (str_to_num text) then
        match index_of 46 text with
        | Some i => take 2 (take i text) ++ u ".." ++ last_two (take i text) ++ drop i text
        | None => take 2 text ++ u ".." ++ last_two text
        end
      else text
  end.

Example render_number_ex :
  (renderNumber (num_of_Z 1234567), renderNumber (num_of_Z 9999), renderNumberWithPoint (Some (num_of_Z 1234567))) =
  (VStr (u "1.2M"), VNum (num_of_Z 9999), u "12..67.00").
Proof. vm_compute. reflexivity. Qed.
