(* ===== verification/Dates.v ===== *)
(** * Dates
    The texts of times in [src/web/src/helpers/utils.jsx]: times of logs, days of
    charts, and how long ago something was published.  The calendar of the engine's
    time zone and its reading of date texts are parameters. *)

From Stdlib Require Import SpecFloat.
From stdpp Require Import base numbers option strings sets list.
From S2P Require Import Prelude JsString JsNumber JsValue JsOps.

Open Scope Z_scope.

(** What the getters of a local date give; [cal_month] is from 0. *)
Record calendar := mk_calendar {
  cal_year : Z; cal_month : Z; cal_day : Z; cal_hour : Z; cal_minute : Z; cal_second : Z;
}.

(** A date holds a whole number of milliseconds, or it is invalid ([None]). *)
Definition time_clip (ms : num) : option Z :=
  z ← num_to_Z (num_trunc ms); if Z.abs z <=? 8640000000000000 then Some z else None.

(** A text of one character gets a zero. *)
Definition pad2 (text : jsstr) : jsstr := match text with [c] => [48%N; c] | _ => text end.

Section dates.
Context (local : Z → calendar).

(** A getter, as a text. *)
Definition field (get_field : calendar → Z) (date : option Z) : jsstr :=
  match date with Some ms => dec_Z (get_field (local ms)) | None => u "NaN" end.
Definition month_text (date : option Z) : jsstr := pad2 (field (λ c, cal_month c + 1) date).
Definition day_text (date : option Z) : jsstr := pad2 (field cal_day date).
Definition hour_text (date : option Z) : jsstr := pad2 (field cal_hour date).
Definition minute_text (date : option Z) : jsstr := pad2 (field cal_minute date).

(** [new Date(timestamp * 1000 + more)]; [None] when [timestamp] cannot be converted. *)
Definition date_of_seconds (timestamp : value) (more : Z) : option (option Z) :=
  x ← to_number timestamp; Some (time_clip (nadd (nmul x (num_of_Z 1000)) (num_of_Z more))).

(** [date.setHours(0, 0, 0, 0)] is the engine's: [midnight]. *)
Definition getTodayStartTimestamp (midnight : Z → Z) (now : Z) : num := num_of_Z (midnight now / 1000).

Definition formatDateString (date : option Z) : jsstr :=
  field cal_year date ++ u "-" ++ month_text date ++ u "-" ++ day_text date.

Definition formatDateTimeString (date : option Z) : jsstr :=
  formatDateString date ++ u " " ++ hour_text date ++ u ":" ++ minute_text date.

Definition timestamp2string (timestamp : value) : option jsstr :=
  date ← date_of_seconds timestamp 0;
  Some (formatDateTimeString date ++ u ":" ++ pad2 (field cal_second date)).

(** Only the hour and the week show more than the day. *)
Definition day_or_date (showYear : bool) (date : option Z) : jsstr :=
  if showYear then formatDateString date else month_text date ++ u "-" ++ day_text date.

Definition timestamp2string1 (timestamp : value) (dataExportDefaultTime : jsstr) (showYear : bool) : option jsstr :=
  date ← date_of_seconds timestamp 0; next ← date_of_seconds timestamp (6 * 24 * 60 * 60 * 1000);
  Some (day_or_date showYear date ++
    (if decide (dataExportDefaultTime = u "hour") then u " " ++ hour_text date ++ u ":00"
     else if decide (dataExportDefaultTime = u "week") then u " - " ++ day_or_date showYear next
     else [])).

(** The set of the years has more than one; invalid dates have the year NaN. *)
Definition isDataCrossYear (timestamps : list value) : option bool :=
  dates ← mapM (λ ts, date_of_seconds ts 0) timestamps;
  Some (1 <? length (set_order (map (field cal_year) dates)))%nat.

(** ** How long ago

    The times are exact in a double, and so are the floors of their quotients. *)

Definition second_ms : Z := 1000.

Inductive relative := Same (v : value) | Text (text : jsstr).

(** [read_date] is [new Date(v)]. *)
Definition getRelativeTime (read_date : value → option Z) (now : Z) (publishDate : value) : relative :=
  if negb (truthy publishDate) then Text []
  else match read_date publishDate with
  | None => Same publishDate
  | Some pubDate =>
      let diffMs := now - pubDate in
      let diffSeconds := diffMs / second_ms in
      let diffMinutes := diffSeconds / 60 in
      let diffHours := diffMinutes / 60 in
      let diffDays := diffHours / 24 in
      let diffWeeks := diffDays / 7 in
      let diffMonths := diffDays / 30 in
      let diffYears := diffDays / 365 in
      Text
        (if diffMs <? 0 then formatDateString (Some pubDate)
         else if diffSeconds <? 60 then u "刚刚"
         else if diffMinutes <? 60 then dec_Z diffMinutes ++ u " 分钟前"
         else if diffHours <? 24 then dec_Z diffHours ++ u " 小时前"
         else if diffDays <? 7 then dec_Z diffDays ++ u " 天前"
         else if diffWeeks <? 4 then dec_Z diffWeeks ++ u " 周前"
         else if diffMonths <? 12 then dec_Z diffMonths ++ u " 个月前"
         else if diffYears <? 2 then u "1 年前"
         else formatDateString (Some pubDate))
  end.

(** ** Laws *)

(** The units: one of them, and how many fit into the time. *)
Definition minute_ms : Z := 60 * 1000.
Definition hour_ms : Z := 60 * minute_ms.
Definition day_ms : Z := 24 * hour_ms.

(** [n] whole [unit]s fit into [t]. *)
Definition fits (n unit t : Z) : Prop := n * unit <= t < (n + 1) * unit.

Lemma fits_div unit t : 0 < unit → fits (t / unit) unit t.
Proof. intros H. unfold fits. pose proof (Z.div_mod t unit ltac:(lia)). pose proof (Z.mod_pos_bound t unit H). lia. Qed.

Lemma nested_div a b c : 0 < b → 0 < c → a / b / c = a / (b * c).
Proof. intros. by rewrite Z.div_div by lia. Qed.
End dates.

(** Four weeks and a day are called no months. *)
Example zero_months local :
  getRelativeTime local (λ _, Some 0) (28 * day_ms) (VStr (u "1970-01-01")) = Text (u "0 个月前").
Proof. reflexivity. Qed.

(** how long ago is told in the largest unit of minutes, hours, days and weeks that
    the time has, with the whole number of them that fit; from four weeks on the
    number of thirty days, which is 0 for the first two days, then one year up to
    two, and then the date.  Times to come are dates. *)
Theorem relative_time_meaning local read_date now v pub :
  truthy v = true → read_date v = Some pub →
  let diff := now - pub in
  ∃ text, getRelativeTime local read_date now v = Text text ∧
  (diff < 0 ∧ text = formatDateString local (Some pub) ∨
   0 <= diff < minute_ms ∧ text = u "刚刚" ∨
   (∃ n, 1 <= n < 60 ∧ fits n minute_ms diff ∧ text = dec_Z n ++ u " 分钟前") ∨
   (∃ n, 1 <= n < 24 ∧ fits n hour_ms diff ∧ text = dec_Z n ++ u " 小时前") ∨
   (∃ n, 1 <= n < 7 ∧ fits n day_ms diff ∧ text = dec_Z n ++ u " 天前") ∨
   (∃ n, 1 <= n < 4 ∧ fits n (7 * day_ms) diff ∧ text = dec_Z n ++ u " 周前") ∨
   (∃ n, 0 <= n < 12 ∧ fits n (30 * day_ms) diff ∧ (n = 0 ↔ diff < 30 * day_ms) ∧
      28 * day_ms <= diff ∧ text = dec_Z n ++ u " 个月前") ∨
   360 * day_ms <= diff < 730 * day_ms ∧ text = u "1 年前" ∨
   730 * day_ms <= diff ∧ text = formatDateString local (Some pub)).
Proof.
  intros Hv Hp diff. unfold getRelativeTime. rewrite Hv, Hp. simpl negb. cbv iota zeta. fold diff.
  eexists. split; [reflexivity|]. unfold second_ms. rewrite !nested_div by lia.
  pose proof (fits_div 1000 diff ltac:(lia)) as F1. pose proof (fits_div minute_ms diff ltac:(done)) as F2.
  pose proof (fits_div hour_ms diff ltac:(done)) as F3. pose proof (fits_div day_ms diff ltac:(done)) as F4.
  pose proof (fits_div (7 * day_ms) diff ltac:(done)) as F5. pose proof (fits_div (30 * day_ms) diff ltac:(done)) as F6.
  pose proof (fits_div (365 * day_ms) diff ltac:(done)) as F7. unfold fits in *.
  change (1000 * 60) with minute_ms in *. change (minute_ms * 60) with hour_ms in *. change (hour_ms * 24) with day_ms in *.
  change (day_ms * 7) with (7 * day_ms) in *. change (day_ms * 30) with (30 * day_ms) in *. change (day_ms * 365) with (365 * day_ms) in *.
  assert (minute_ms = 60000) as E2 by done. assert (hour_ms = 3600000) as E3 by done. assert (day_ms = 86400000) as E4 by done.
  destruct (Z.ltb_spec diff 0); [left; split; [done|done]|right].
  destruct (Z.ltb_spec (diff / 1000) 60); [left; split; [lia|done]|right].
  destruct (Z.ltb_spec (diff / minute_ms) 60); [left; eexists; split_and!; [..|done]; lia|right].
  destruct (Z.ltb_spec (diff / hour_ms) 24); [left; eexists; split_and!; [..|done]; lia|right].
  destruct (Z.ltb_spec (diff / day_ms) 7); [left; eexists; split_and!; [..|done]; lia|right].
  destruct (Z.ltb_spec (diff / (7 * day_ms)) 4); [left; eexists; split_and!; [..|done]; lia|right].
  destruct (Z.ltb_spec (diff / (30 * day_ms)) 12); [left; eexists; split_and!; [..|done]; lia|right].
  destruct (Z.ltb_spec (diff / (365 * day_ms)) 2); [left; split; [lia|done]|right; split; [lia|done]].
Qed.

(** Five weeks after the first of January 1970. *)
Lemma relative_time_meaning_witness :
  ∃ text, getRelativeTime (λ _, mk_calendar 1970 0 1 0 0 0) (λ _, Some 0) (35 * day_ms) (VStr (u "1970-01-01")) = Text text ∧
    text = u "1 个月前".
Proof.
  destruct (relative_time_meaning (λ _, mk_calendar 1970 0 1 0 0 0) (λ _, Some 0) (35 * day_ms) (VStr (u "1970-01-01")) 0
    eq_refl eq_refl) as (text & H & _).
  exists text. split; [exact H|]. vm_compute in H. by injection H as <-.
Defined.
