(* ===== verification/LogTable.v ===== *)
(** * Tables of logs
    What [src/web/src/hooks/usage-logs/useUsageLogsData.jsx] and
    [src/web/src/hooks/task-logs/useTaskLogsData.js] share: the columns with those that
    only administrators see, their text in the storage, the queries and the times of
    their forms.  Each hook gives its columns. *)

From Stdlib Require Import SpecFloat.
From stdpp Require Import base numbers option strings sets list.
From S2P Require Import Prelude JsString JsNumber JsValue Json JsOps Session Dates.

(** ** Columns *)

Section columns.
Context (column_keys admin_only : list string) (isAdminUser : bool).

Definition admin_column (k : string) : bool := bool_decide (k ∈ admin_only).

Definition columns_of (f : string → bool) : props :=
  fold_left (λ o k, set (u k) (VBool (f k)) o) column_keys [].

Definition getDefaultColumnVisibility : props :=
  columns_of (λ k, if admin_column k then isAdminUser else true).

(** The columns of [handleSelectAll]. *)
Definition all_columns (checked : bool) : props :=
  columns_of (λ k, if admin_column k && negb isAdminUser then false else checked).

Definition hide_admin_columns (o : props) : props :=
  if isAdminUser then o else fold_left (λ o k, set (u k) (VBool false) o) admin_only o.

(** The columns of the storage; [None] without a text or when it cannot be parsed. *)
Definition saved_columns (saved : option jsstr) : option props :=
  match saved with
  | Some ((_ :: _) as text) =>
      parsed ← json_parse text;
      Some (hide_admin_columns (spread getDefaultColumnVisibility (own_entries parsed)))
  | _ => None
  end.
End columns.

(** The effect that writes the columns when they have changed. *)
Definition persist (key : string) (columns : props) (s : storage) : storage :=
  match columns with [] => s | _ => setJson key (VObj columns) s end.

(** ** Forms and queries *)

(** [form.k || ''] *)
Definition form_value (k : string) (form : props) : value := value_or (prop (u k) form) (VStr []).

(** The range of the form, or the given one. *)
Definition date_range (form : props) (given : value * value) : value * value :=
  match prop (u "dateRange") form with VArr [a; b] => (a, b) | _ => given end.

(** [path?k=v&...] in a template; [None] when a value has no text. *)
Definition query (path : string) (params : list (string * value)) : option jsstr :=
  parts ← mapM (λ kv : string * value, x ← to_string kv.2; Some (u kv.1 ++ u "=" ++ x)) params;
  Some (u path ++ u "?" ++ join (u "&") parts).

(** [parseInt(localStorage.getItem(key)) || d] *)
Definition saved_size (key : string) (d : value) (s : storage) : value :=
  let x := parse_int_text (default (u "null") (getItem key s)) in
  if num_truthy x then VNum x else d.

(** ** Laws of the columns *)

(** Setting some keys to a value. *)
Lemma prop_set_all (v : value) ks k o :
  prop k (fold_left (λ o k', set (u k') v o) ks o) = if decide (k ∈ map u ks) then v else prop k o.
Proof.
  revert o. induction ks as [|k1 ks IH]; intros o; [done|]. simpl. rewrite IH, prop_set.
  repeat case_decide; set_solver.
Qed.

Lemma prop_hidden admin_only isAdminUser k o :
  prop k (hide_admin_columns admin_only isAdminUser o) =
  if negb isAdminUser && bool_decide (k ∈ map u admin_only) then VBool false else prop k o.
Proof.
  unfold hide_admin_columns. destruct isAdminUser; [done|]. rewrite prop_set_all. simpl.
  by case_decide; [rewrite bool_decide_true | rewrite bool_decide_false].
Qed.

(** The properties of the second object hide those of the first. *)
Lemma prop_spread a b k :
  NoDup (keys b) → prop k (spread a b) = if decide (k ∈ keys b) then prop k b else prop k a.
Proof.
  unfold spread. revert a. induction b as [|[k1 v1] b IH]; intros a Hn; [done|].
  apply NoDup_cons in Hn as [H1 Hn]. simpl. rewrite IH, prop_set by done.
  unfold prop. simpl. unfold keys in *. simpl.
  destruct (decide (k ∈ map fst b)) as [Hb|Hb].
  - rewrite decide_True by set_solver. rewrite decide_False; [done|]. intros ->. done.
  - destruct (decide (k1 = k)) as [->|]; [by rewrite decide_True by set_solver|]. by rewrite decide_False by set_solver.
Qed.

(** the columns that were chosen come back when the page is opened again: each has
    the value it was written with, those added to the console meanwhile have their
    default, and for a user who is no administrator the columns of administrators
    are hidden whatever was written. *)
Theorem columns_come_back column_keys admin_only isAdminUser key o s :
  o ≠ [] → json_ok (VObj o) = true →
  ∃ o', saved_columns column_keys admin_only isAdminUser (getItem key (persist key o s)) = Some o' ∧
  ∀ k, prop k o' =
    if negb isAdminUser && bool_decide (k ∈ map u admin_only) then VBool false
    else if decide (k ∈ keys o) then prop k o
    else prop k (getDefaultColumnVisibility column_keys admin_only isAdminUser).
Proof.
  intros Ho Hok. assert (getItem key (persist key o s) = Some (ser [] [] (VObj o))) as E.
  { unfold persist, setJson, setItem, getItem. destruct o; [done|]. apply get_set_eq. }
  rewrite E. pose proof (json_parse_ser [] (VObj o) ltac:(constructor) Hok) as Hp.
  unfold saved_columns. destruct (ser [] [] (VObj o)) as [|c text]; [done|]. rewrite Hp. cbn [mbind option_bind own_entries].
  eexists. split; [done|]. intros k. rewrite prop_hidden. case_match; [done|]. apply prop_spread, sorted_keys_NoDup.
  rewrite json_ok_obj in Hok. apply andb_prop in Hok as [Hok _]. by apply bool_decide_eq_true in Hok.
Qed.

Lemma columns_come_back_witness :
  let o := [(u "time", VBool false); (u "channel", VBool true)] in
  ∃ o', saved_columns ["time"; "channel"; "ip"] ["channel"] false
      (getItem "columns" (persist "columns" o [])) = Some o' ∧
    prop (u "time") o' = VBool false ∧ prop (u "channel") o' = VBool false ∧ prop (u "ip") o' = VBool true.
Proof.
  intros o. destruct (columns_come_back ["time"; "channel"; "ip"] ["channel"] false "columns" o [] ltac:(discriminate) eq_refl)
    as (o' & E & H).
  exists o'. split; [exact E|]. rewrite !H. repeat split; vm_compute; reflexivity.
Defined.
