(* ===== verification/Amounts.v ===== *)
(** * Amounts
    [src/web/src/helpers/quota.js] and the amounts of [render.jsx]: the display type
    and its cache, quotas and prices as texts, the lines of a bill. *)

From Stdlib Require Import SpecFloat.
From stdpp Require Import base numbers option strings sets list.
From S2P Require Import Prelude JsString JsNumber JsValue Json JsOps Session TextRender.

(** ** The cache of the local storage *)

(** [localStorageCache]: what was read, missing items included. *)
Abbreviation item_cache := (list (jsstr * option jsstr)).

Definition cachedGetItem (key : string) (c : item_cache) (s : storage) : option jsstr * item_cache :=
  match get (u key) c with
  | Some item => (item, c)
  | None => (getItem key s, set (u key) (getItem key s) c)
  end.

(** The event of another page's write. *)
Definition on_storage (s : storage) (c : item_cache) : item_cache := map (λ kv, (kv.1, get kv.1 s)) c.

Definition quota_keys : list jsstr := map u ["quota_display_type"; "quota_per_unit"; "status"]%string.

(** Also what a change of the language does. *)
Definition invalidateQuotaCache (c : item_cache) : item_cache := fold_left (λ c k, del k c) quota_keys c.

(** ** Currency *)

(** The display type and the status that the functions below read. *)
Record display := mk_display { display_type : option jsstr; status : option jsstr }.

Definition current_display (c : item_cache) (s : storage) : display :=
  mk_display (cachedGetItem "quota_display_type" c s).1 (cachedGetItem "status" c s).1.

Definition getQuotaDisplayType (d : display) : jsstr :=
  match display_type d with Some ((_ :: _) as t) => t | _ => u "USD" end.

Definition is_type (t : string) (d : display) : bool := bool_decide (getQuotaDisplayType d = u t).

(** The parsed status; [None] when there is none or it is no JSON text. *)
Definition parsed_status (d : display) : option value :=
  match status d with Some ((_ :: _) as t) => json_parse t | _ => None end.

Record currency := mk_currency { symbol : value; rate : value }.

Definition getCurrencyConfig (d : display) : currency :=
  let text s := VStr (u s) in
  let one := VNum (num_of_Z 1) in
  if is_type "CNY" d then
    mk_currency (text "¥"%string)
      match parsed_status d with
      | Some s => value_or (opt_read (u "usd_exchange_rate") s) (VNum (num_of_Z 7))
      | None => one
      end
  else if is_type "CUSTOM" d then
    match parsed_status d with
    | Some s => mk_currency (value_or (opt_read (u "custom_currency_symbol") s) (text "¤"%string))
                  (value_or (opt_read (u "custom_currency_exchange_rate") s) one)
    | None => mk_currency (text "$"%string) one
    end
  else mk_currency (text "$"%string) one.

(** [symbol + text] *)
Definition with_symbol (sym : value) (text : jsstr) : option jsstr := s ← to_string sym; Some (s ++ text).

(** *** Quotas: microdollars in the data, amounts on the page *)

Definition getMicrodollarsPerDollar : num := num_of_Z 1000000.

(** [Number(v || 0)] when it is finite and not 0. *)
Definition finite_amount (v : value) : option (option num) :=
  x ← to_number (value_or v (VNum (num_of_Z 0)));
  Some (if is_finite x && negb (neqb x (num_of_Z 0)) then Some x else None).

(** [rate || 1] as a number. *)
Definition rate_number (d : display) : option num :=
  to_number (value_or (rate (getCurrencyConfig d)) (VNum (num_of_Z 1))).

(** [None] when a conversion throws. *)
Definition quotaToDisplayAmount (d : display) (quota : value) : option num :=
  q ← finite_amount quota;
  match q with
  | None => Some (num_of_Z 0)
  | Some q =>
      if is_type "TOKENS" d then Some q
      else
        let usd := ndiv q getMicrodollarsPerDollar in
        if is_type "USD" d then Some usd else r ← rate_number d; Some (nmul usd r)
  end.

(** [Math.round] *)
Definition math_round (x : num) : num :=
  match x with
  | S754_finite neg m e =>
      let '(n, den) := ratio m e in
      let z := ((2 * (if neg then - n else n) + den) / (2 * den))%Z in
      if (neg && (z =? 0)%Z) then S754_zero true else num_of_Z z
  | _ => x
  end.

Definition displayAmountToQuota (d : display) (amount : value) : option num :=
  v ← finite_amount amount;
  match v with
  | None => Some (num_of_Z 0)
  | Some v =>
      if is_type "TOKENS" d then Some (math_round v)
      else if is_type "USD" d then Some (math_round (nmul v getMicrodollarsPerDollar))
      else r ← rate_number d; Some (math_round (nmul (ndiv v r) getMicrodollarsPerDollar))
  end.

Definition formatDollarAmount (d : display) (quota : value) : option jsstr :=
  amount ← quotaToDisplayAmount d quota;
  if neqb amount (num_of_Z 0) then Some (u "$0.000000")
  else if is_type "TOKENS" d then Some (num_to_string amount)
  else if is_type "CNY" d then Some (u "¥" ++ to_fixed amount 6)
  else if is_type "CUSTOM" d then with_symbol (symbol (getCurrencyConfig d)) (to_fixed amount 6)
  else Some (u "$" ++ to_fixed amount 6).

Definition renderUnitWithQuota : display → value → option num := quotaToDisplayAmount.

Definition getQuotaWithUnit (d : display) (quota : value) (digits : Z) : option jsstr :=
  amount ← quotaToDisplayAmount d quota; Some (to_fixed amount digits).

(** [num >= n] and the like, of a value. *)
Definition render_number_value (v : value) : option value :=
  x ← to_number v;
  match v with
  | VNum x => Some (renderNumber x)
  | _ => Some match renderNumber x with VNum _ => v | text => text end
  end.

(** The symbol of the custom currency where '¤' is the default even without a status. *)
Definition custom_symbol (d : display) : value :=
  match parsed_status d with
  | Some s => value_or (opt_read (u "custom_currency_symbol") s) (VStr (u "¤"))
  | None => VStr (u "¤")
  end.

Definition renderQuotaWithAmount (d : display) (amount : value) (digits : Z) : option value :=
  if is_type "TOKENS" d then renderNumber <$> renderUnitWithQuota d amount
  else
    numeric ← to_number amount;
    text ← (if is_finite numeric then Some (to_fixed numeric digits) else to_string amount);
    VStr <$> (if is_type "CNY" d then Some (u "¥" ++ text)
              else if is_type "CUSTOM" d then with_symbol (custom_symbol d) text
              else Some (u "$" ++ text)).

Definition renderQuotaNumberWithDigit (d : display) (v : value) (digits : Z) : option value :=
  match v with
  | VNum x =>
      if is_nan x then Some (VNum (num_of_Z 0))
      else
        let text := to_fixed x digits in
        VStr <$> (if is_type "CNY" d then Some (u "¥" ++ text)
                  else if is_type "USD" d then Some (u "$" ++ text)
                  else if is_type "CUSTOM" d then with_symbol (custom_symbol d) text
                  else Some text)
  | _ => Some (VNum (num_of_Z 0))
  end.

(** The least amount that [digits] show; a quota that rounds to nothing shows it. *)
Definition least_amount (digits : Z) : jsstr := to_fixed (num_of_dec false 1 (- digits)) digits.

Definition renderQuota (d : display) (quota : value) (digits : Z) : option value :=
  if is_type "TOKENS" d then render_number_value quota
  else
    amount ← quotaToDisplayAmount d quota;
    q ← to_number quota;
    let text := to_fixed amount digits in
    let shown := if neqb (parse_float text) (num_of_Z 0) && nltb (num_of_Z 0) q && nltb (num_of_Z 0) amount
                 then least_amount digits else text in
    VStr <$> with_symbol (symbol (getCurrencyConfig d)) shown.

Example quota_ex :
  let usd := mk_display None None in
  let cny := mk_display (Some (u "CNY")) (Some (u "{}")) in
  (renderQuota usd (VNum (num_of_Z 1234567)) 2, renderQuota usd (VNum (num_of_Z 1)) 2,
   renderQuota cny (VNum (num_of_Z 1000000)) 6, quotaToDisplayAmount cny (VNum (num_of_Z 2000000)),
   displayAmountToQuota cny (VNum (num_of_Z 14))) =
  (Some (VStr (u "$1.23")), Some (VStr (u "$0.01")), Some (VStr (u "¥7.000000")),
   Some (num_of_Z 14), Some (num_of_Z 2000000)).
Proof. vm_compute. reflexivity. Qed.
