(* ===== verification/MultiKeys.v ===== *)
(** * The keys of a channel
    [src/web/src/components/table/channels/modals/MultiKeyManageModal.jsx]: pages of the
    keys with their states, operations on one key or on all of them, and the dialogs that
    show, replace and add keys.  The handlers keep the channel, the page and the filter of
    the render of the click. *)

From Stdlib Require Import SpecFloat.
From stdpp Require Import base numbers option strings sets list.
From S2P Require Import Prelude JsString JsNumber JsValue Json JsOps ChannelForm Amounts.

(** ** State *)

Record table := mk_table {
  keyStatusList : value; currentPage : value; pageSize : value; total : value; totalPages : value;
  enabledCount : value; manualDisabledCount : value; autoDisabledCount : value;
}.

Record view := mk_view {
  visible : bool; channel : value; loading : bool; keys_of : table; operationLoading : props; statusFilter : value;
  viewKeyVisible : bool; viewKeyValue : value; viewKeyIndex : value;
  editKeyVisible : bool; editKeyIndex : value; editKeyValue : jsstr; editKeyLoading : bool;
  addKeysVisible : bool; addKeysValue : jsstr; addKeysLoading : bool; addMultiKeyMode : value;
  keyTestResults : props;
}.

Inductive operation :=
  | Disable (keyIndex : value)
  | Enable (keyIndex : value)
  | EnableAll
  | DisableAll
  | DeleteDisabled
  | TestKey (keyIndex : value)
  | DeleteKey (keyIndex : value)
  | ViewKey (keyIndex : value).

Inductive effect :=
  | Manage (body : value)
  | ShowError (v : value)
  | ShowSuccess (v : value)
  | Refreshed
  | ModelTest (channel keyIndex : value)
  | Clipboard (v : value)
  | Unhandled (v : value).

(** What goes on when a load has ended. *)
Inductive after := Nothing | EndOperation (id : jsstr) | EndEdit | EndAdd.

Inductive waiting :=
  | Load (r : view) (k : after)
  | Operate (op : operation) (id : jsstr) (r : view)
  | UpdateKey (r : view)
  | AddKeys (r : view)
  | Copying.

Record state := mk_state { now : view; calls : list waiting; log : list effect }.

Definition with_view v s := mk_state v (calls s) (log s).
Definition with_calls l s := mk_state (now s) l (log s).
Definition emit e s := mk_state (now s) (calls s) (e :: log s).
Definition suspend (w : waiting) (s : state) : state := with_calls (calls s ++ [w]) s.
Definition on_view (f : view → view) (s : state) : state := with_view (f (now s)) s.

Definition setProps shown c v := mk_view shown c (loading v) (keys_of v) (operationLoading v) (statusFilter v) (viewKeyVisible v) (viewKeyValue v) (viewKeyIndex v) (editKeyVisible v) (editKeyIndex v) (editKeyValue v) (editKeyLoading v) (addKeysVisible v) (addKeysValue v) (addKeysLoading v) (addMultiKeyMode v) (keyTestResults v).
Definition setLoading b v := mk_view (visible v) (channel v) b (keys_of v) (operationLoading v) (statusFilter v) (viewKeyVisible v) (viewKeyValue v) (viewKeyIndex v) (editKeyVisible v) (editKeyIndex v) (editKeyValue v) (editKeyLoading v) (addKeysVisible v) (addKeysValue v) (addKeysLoading v) (addMultiKeyMode v) (keyTestResults v).
Definition setTable x v := mk_view (visible v) (channel v) (loading v) x (operationLoading v) (statusFilter v) (viewKeyVisible v) (viewKeyValue v) (viewKeyIndex v) (editKeyVisible v) (editKeyIndex v) (editKeyValue v) (editKeyLoading v) (addKeysVisible v) (addKeysValue v) (addKeysLoading v) (addMultiKeyMode v) (keyTestResults v).
Definition setOperationLoading id b v := mk_view (visible v) (channel v) (loading v) (keys_of v) (set id (VBool b) (operationLoading v)) (statusFilter v) (viewKeyVisible v) (viewKeyValue v) (viewKeyIndex v) (editKeyVisible v) (editKeyIndex v) (editKeyValue v) (editKeyLoading v) (addKeysVisible v) (addKeysValue v) (addKeysLoading v) (addMultiKeyMode v) (keyTestResults v).
Definition setStatusFilter x v := mk_view (visible v) (channel v) (loading v) (keys_of v) (operationLoading v) x (viewKeyVisible v) (viewKeyValue v) (viewKeyIndex v) (editKeyVisible v) (editKeyIndex v) (editKeyValue v) (editKeyLoading v) (addKeysVisible v) (addKeysValue v) (addKeysLoading v) (addMultiKeyMode v) (keyTestResults v).
Definition setViewKey shown text index v := mk_view (visible v) (channel v) (loading v) (keys_of v) (operationLoading v) (statusFilter v) shown text index (editKeyVisible v) (editKeyIndex v) (editKeyValue v) (editKeyLoading v) (addKeysVisible v) (addKeysValue v) (addKeysLoading v) (addMultiKeyMode v) (keyTestResults v).
Definition setEditKey shown index text v := mk_view (visible v) (channel v) (loading v) (keys_of v) (operationLoading v) (statusFilter v) (viewKeyVisible v) (viewKeyValue v) (viewKeyIndex v) shown index text (editKeyLoading v) (addKeysVisible v) (addKeysValue v) (addKeysLoading v) (addMultiKeyMode v) (keyTestResults v).
Definition setEditKeyLoading b v := mk_view (visible v) (channel v) (loading v) (keys_of v) (operationLoading v) (statusFilter v) (viewKeyVisible v) (viewKeyValue v) (viewKeyIndex v) (editKeyVisible v) (editKeyIndex v) (editKeyValue v) b (addKeysVisible v) (addKeysValue v) (addKeysLoading v) (addMultiKeyMode v) (keyTestResults v).
Definition setAddKeys shown text mode v := mk_view (visible v) (channel v) (loading v) (keys_of v) (operationLoading v) (statusFilter v) (viewKeyVisible v) (viewKeyValue v) (viewKeyIndex v) (editKeyVisible v) (editKeyIndex v) (editKeyValue v) (editKeyLoading v) shown text (addKeysLoading v) mode (keyTestResults v).
Definition setAddKeysLoading b v := mk_view (visible v) (channel v) (loading v) (keys_of v) (operationLoading v) (statusFilter v) (viewKeyVisible v) (viewKeyValue v) (viewKeyIndex v) (editKeyVisible v) (editKeyIndex v) (editKeyValue v) (editKeyLoading v) (addKeysVisible v) (addKeysValue v) b (addMultiKeyMode v) (keyTestResults v).
Definition setKeyTestResults x v := mk_view (visible v) (channel v) (loading v) (keys_of v) (operationLoading v) (statusFilter v) (viewKeyVisible v) (viewKeyValue v) (viewKeyIndex v) (editKeyVisible v) (editKeyIndex v) (editKeyValue v) (editKeyLoading v) (addKeysVisible v) (addKeysValue v) (addKeysLoading v) (addMultiKeyMode v) x.

Definition setCurrentPage x v :=
  let k := keys_of v in
  setTable (mk_table (keyStatusList k) x (pageSize k) (total k) (totalPages k) (enabledCount k) (manualDisabledCount k) (autoDisabledCount k)) v.
Definition setPageSize x v :=
  let k := keys_of v in
  setTable (mk_table (keyStatusList k) (currentPage k) x (total k) (totalPages k) (enabledCount k) (manualDisabledCount k) (autoDisabledCount k)) v.

(** The flag that a row or a button shows. *)
Definition flag (id : jsstr) (v : view) : bool := truthy (prop id (operationLoading v)).

Definition isMultiKey (v : view) : value := opt_read (u "is_multi_key") (opt_read (u "channel_info") (channel v)).

Section multi_keys.
(** [engine_error]: what the engine throws when a property of nothing is read. *)
Context (t : jsstr → jsstr) (engine_error : value).

Definition says (text : string) : value := VStr (t (u text)).
Definition fails (text : string) (s : state) : state := emit (ShowError (says text)) s.

(** ** Loading *)

(** The [finally] of what waited for a load. *)
Definition continue (k : after) (s : state) : state :=
  match k with
  | Nothing => s
  | EndOperation id => on_view (setOperationLoading id false) (emit Refreshed s)
  | EndEdit => on_view (setEditKeyLoading false) (emit Refreshed s)
  | EndAdd => on_view (λ v, setAddKeysLoading false (setAddKeys false [] (addMultiKeyMode v) v)) (emit Refreshed s)
  end.

Definition loadKeyStatus (r : view) (page size status : value) (k : after) (s : state) : state :=
  if negb (truthy (opt_read (u "id") (channel r))) then continue k s
  else
    suspend (Load r k) (emit (Manage (VObj (
      [(u "channel_id", opt_read (u "id") (channel r)); (u "action", VStr (u "get_key_status")); (u "page", page); (u "page_size", size)] ++
      match status with VNull => [] | _ => [(u "status", status)] end))) (on_view (setLoading true) s)).

Definition load_ended (k : after) (s : state) : state := continue k (on_view (setLoading false) s).
Definition load_thrown (k : after) (s : state) : state := load_ended k (fails "获取密钥状态失败" s).

Definition table_of (data : value) : table :=
  let field k d := value_or (opt_read (u k) data) d in
  mk_table (field "keys"%string (VArr [])) (field "page"%string (n 1)) (field "page_size"%string (n 10)) (field "total"%string (n 0))
    (field "total_pages"%string (n 0)) (field "enabled_count"%string (n 0)) (field "manual_disabled_count"%string (n 0))
    (field "auto_disabled_count"%string (n 0)).

(** [res.data] when [success] can be read of it. *)
Definition answer_of (res : value) : option value := data ← read (u "data") res; _ ← read (u "success") data; Some data.
Definition succeeded (data : value) : bool := truthy (opt_read (u "success") data).
Definition message_of (data : value) : value := opt_read (u "message") data.

Definition load_answered (k : after) (res : value) (s : state) : state :=
  match answer_of res with
  | None => load_thrown k s
  | Some answer =>
      if succeeded answer then
        match opt_read (u "data") answer with
        | VUndef | VNull => load_thrown k s
        | data => load_ended k (on_view (setTable (table_of data)) s)
        end
      else load_ended k (emit (ShowError (message_of answer)) s)
  end.

(** ** Operations *)

Definition operation_id (op : operation) : option jsstr :=
  let with_index prefix i := x ← to_string i; Some (u prefix ++ x) in
  match op with
  | Disable i => with_index "disable_"%string i
  | Enable i => with_index "enable_"%string i
  | EnableAll => Some (u "enable_all")
  | DisableAll => Some (u "disable_all")
  | DeleteDisabled => Some (u "delete_disabled")
  | TestKey i => with_index "test_"%string i
  | DeleteKey i => with_index "delete_"%string i
  | ViewKey i => with_index "view_"%string i
  end.

Definition action (op : operation) : string :=
  match op with
  | Disable _ => "disable_key" | Enable _ => "enable_key" | EnableAll => "enable_all_keys" | DisableAll => "disable_all_keys"
  | DeleteDisabled => "delete_disabled_keys" | TestKey _ => "test_key" | DeleteKey _ => "delete_key" | ViewKey _ => "view_key"
  end.

Definition key_index (op : operation) : list (jsstr * value) :=
  match op with
  | Disable i | Enable i | TestKey i | DeleteKey i | ViewKey i => [(u "key_index", i)]
  | EnableAll | DisableAll | DeleteDisabled => []
  end.

Definition failure_text (op : operation) : string :=
  match op with
  | Disable _ => "禁用密钥失败" | Enable _ => "启用密钥失败" | EnableAll => "启用所有密钥失败" | DisableAll => "禁用所有密钥失败"
  | DeleteDisabled => "删除禁用密钥失败" | TestKey _ => "密钥测试失败" | DeleteKey _ => "删除密钥失败" | ViewKey _ => "获取密钥失败"
  end.

(** The message of an operation that changed keys. *)
Definition done_text (op : operation) (answer : value) : value :=
  match op with
  | Disable _ => says "密钥已禁用"
  | Enable _ => says "密钥已启用"
  | DeleteKey _ => says "密钥已删除"
  | EnableAll => value_or (message_of answer) (says "已启用所有密钥")
  | DisableAll => value_or (message_of answer) (says "已禁用所有密钥")
  | _ => message_of answer
  end.

Definition reload_first (op : operation) : bool := match op with EnableAll | DisableAll | DeleteDisabled => true | _ => false end.

Definition tested (i : value) (success : bool) (message : value) (s : state) : state :=
  match to_string i with
  | Some x =>
      on_view (λ v, setKeyTestResults (set x (VObj [(u "success", VBool success); (u "message", message)]) (keyTestResults v)) v) s
  | None => s
  end.

Definition operation_ended (id : jsstr) : state → state := on_view (setOperationLoading id false).

(** The [catch] and the [finally]. *)
Definition operation_thrown (op : operation) (id : jsstr) (error : value) (s : state) : state :=
  let s := match op with TestKey i => tested i false (value_or (opt_read (u "message") error) (says "密钥测试失败")) s | _ => s end in
  operation_ended id (fails (failure_text op) s).

Definition operate (r : view) (op : operation) (s : state) : state :=
  match operation_id op with
  | None => emit (Unhandled engine_error) s
  | Some id =>
      let s := on_view (setOperationLoading id true) s in
      match read (u "id") (channel r) with
      | None => operation_thrown op id engine_error s
      | Some channel_id =>
          suspend (Operate op id r)
            (emit (Manage (VObj ([(u "channel_id", channel_id); (u "action", VStr (u (action op)))] ++ key_index op))) s)
      end
  end.

Definition operated (op : operation) (id : jsstr) (r : view) (res : value) (s : state) : state :=
  match answer_of res with
  | None => operation_thrown op id engine_error s
  | Some answer =>
      match op, succeeded answer with
      | TestKey i, true =>
          let msg := value_or (message_of answer) (says "密钥测试成功") in operation_ended id (emit (ShowSuccess msg) (tested i true msg s))
      | TestKey i, false =>
          let msg := value_or (message_of answer) (says "密钥测试失败") in operation_ended id (emit (ShowError msg) (tested i false msg s))
      | ViewKey i, true =>
          operation_ended id (on_view (setViewKey true (value_or (opt_read (u "key") (opt_read (u "data") answer)) (VStr [])) i) s)
      | _, true =>
          let s := emit (ShowSuccess (done_text op answer)) s in
          if reload_first op
          then loadKeyStatus r (n 1) (pageSize (keys_of r)) (statusFilter r) (EndOperation id) (on_view (setCurrentPage (n 1)) s)
          else loadKeyStatus r (currentPage (keys_of r)) (pageSize (keys_of r)) (statusFilter r) (EndOperation id) s
      | _, false => operation_ended id (emit (ShowError (message_of answer)) s)
      end
  end.

(** ** The dialogs of a key and of new keys *)

Definition handleOpenEditKey (keyIndex : value) (s : state) : state := on_view (setEditKey true keyIndex []) s.

Definition edit_ended (s : state) : state := on_view (setEditKeyLoading false) s.
Definition edit_thrown (s : state) : state := edit_ended (fails "更新密钥失败" s).

Definition handleSaveEditKey (r : view) (s : state) : state :=
  match trim (editKeyValue r) with
  | [] => fails "密钥不能为空" s
  | trimmed =>
      let s := on_view (setEditKeyLoading true) s in
      match read (u "id") (channel r) with
      | None => edit_thrown s
      | Some channel_id =>
          suspend (UpdateKey r) (emit (Manage (VObj [(u "channel_id", channel_id); (u "action", VStr (u "update_key"));
            (u "key_index", editKeyIndex r); (u "new_key_value", VStr trimmed)])) s)
      end
  end.

Definition key_updated (r : view) (res : value) (s : state) : state :=
  match answer_of res with
  | None => edit_thrown s
  | Some answer =>
      if succeeded answer then
        loadKeyStatus r (currentPage (keys_of r)) (pageSize (keys_of r)) (statusFilter r) EndEdit
          (on_view (λ v, setEditKey false (editKeyIndex v) [] v) (emit (ShowSuccess (says "密钥已更新")) s))
      else edit_ended (emit (ShowError (message_of answer)) s)
  end.

Definition add_ended (s : state) : state := on_view (setAddKeysLoading false) s.
Definition add_thrown (s : state) : state := add_ended (fails "添加密钥失败" s).

Definition handleAddKeys (r : view) (s : state) : state :=
  match trim (addKeysValue r) with
  | [] => fails "请输入要添加的密钥" s
  | trimmed =>
      let s := on_view (setAddKeysLoading true) s in
      match read (u "id") (channel r) with
      | None => add_thrown s
      | Some channel_id =>
          suspend (AddKeys r) (emit (Manage (VObj [(u "channel_id", channel_id); (u "action", VStr (u "add_keys"));
            (u "new_key_value", VStr trimmed); (u "multi_key_mode", addMultiKeyMode r)])) s)
      end
  end.

Definition keys_added (r : view) (res : value) (s : state) : state :=
  match answer_of res with
  | None => add_thrown s
  | Some answer =>
      if succeeded answer then
        loadKeyStatus r (n 1) (pageSize (keys_of r)) (statusFilter r) EndAdd
          (on_view (setCurrentPage (n 1)) (emit (ShowSuccess (value_or (message_of answer) (says "密钥已添加"))) s))
      else add_ended (emit (ShowError (message_of answer)) s)
  end.

(** ** Renders *)

Definition empty_table (page size : value) : table := mk_table (VArr []) page size (n 0) (n 0) (n 0) (n 0) (n 0).

(** The two effects of a render with other properties. *)
Definition opened (s : state) : state :=
  let r := now s in
  if visible r && truthy (opt_read (u "id") (channel r))
  then loadKeyStatus r (n 1) (pageSize (keys_of r)) (statusFilter r) Nothing (on_view (setCurrentPage (n 1)) s)
  else s.

Definition closed (s : state) : state :=
  if visible (now s) then s
  else on_view (λ v, setKeyTestResults [] (setStatusFilter VNull (setTable (empty_table (n 1) (pageSize (keys_of v))) v))) s.

Definition rendered (shown : bool) (c : value) (s : state) : state :=
  let r := now s in
  let s := on_view (setProps shown c) s in
  let same_visible := eqb shown (visible r) in
  let same_id := strict_eq (opt_read (u "id") c) (opt_read (u "id") (channel r)) in
  let s := if same_visible && same_id then s else opened s in
  if same_visible then s else closed s.

(** The share of a count in the bars. *)
Definition percent (count whole : num) : num :=
  if nltb (num_of_Z 0) whole then math_round (nmul (ndiv count whole) (num_of_Z 100)) else num_of_Z 0.

(** ** Steps *)

Inductive event :=
  | Render (shown : bool) (c : value)
  | Reload
  | PageChange (page size : value)
  | PageSizeChange (size : value)
  | StatusFilter (status : value)
  | Operation (op : operation)
  | OpenEdit (keyIndex : value)
  | EditText (text : jsstr)
  | CloseEdit
  | SaveEdit
  | OpenAdd
  | AddText (text : jsstr)
  | AddMode (mode : value)
  | CloseAdd
  | SaveAdd
  | CloseView
  | Copy
  | OpenTest (keyIndex : value)
  | Answer (i : nat) (res : value)
  | Failure (i : nat) (error : value).

Definition handlePageSizeChange (r : view) (size : value) (s : state) : state :=
  loadKeyStatus r (n 1) size (statusFilter r) Nothing (on_view (λ v, setCurrentPage (n 1) (setPageSize size v)) s).

Definition handleStatusFilterChange (r : view) (status : value) (s : state) : state :=
  loadKeyStatus r (n 1) (pageSize (keys_of r)) (match status with VUndef => statusFilter r | _ => status end) Nothing
    (on_view (λ v, setCurrentPage (n 1) (setStatusFilter status v)) s).

Definition take_call (i : nat) (s : state) : state := with_calls (delete i (calls s)) s.

Definition answered (w : waiting) (res : value) (s : state) : state :=
  match w with
  | Load _ k => load_answered k res s
  | Operate op id r => operated op id r res s
  | UpdateKey r => key_updated r res s
  | AddKeys r => keys_added r res s
  | Copying => emit (ShowSuccess (says "复制成功")) s
  end.

Definition failed (w : waiting) (error : value) (s : state) : state :=
  match w with
  | Load _ k => load_thrown k s
  | Operate op id _ => operation_thrown op id error s
  | UpdateKey _ => edit_thrown s
  | AddKeys _ => add_thrown s
  | Copying => fails "复制失败" s
  end.

Definition step (s : state) (e : event) : state :=
  let r := now s in
  match e with
  | Render shown c => rendered shown c s
  | Reload => loadKeyStatus r (currentPage (keys_of r)) (pageSize (keys_of r)) (statusFilter r) Nothing s
  | PageChange page size => loadKeyStatus r page size (statusFilter r) Nothing (on_view (setCurrentPage page) s)
  | PageSizeChange size => handlePageSizeChange r size (on_view (setCurrentPage (n 1)) s)
  | StatusFilter status => handleStatusFilterChange r status s
  | Operation op => operate r op s
  | OpenEdit keyIndex => handleOpenEditKey keyIndex s
  | EditText text => on_view (λ v, setEditKey (editKeyVisible v) (editKeyIndex v) text v) s
  | CloseEdit => on_view (λ v, setEditKey false (editKeyIndex v) [] v) s
  | SaveEdit => handleSaveEditKey r s
  | OpenAdd => on_view (setAddKeys true [] (value_or (opt_read (u "multi_key_mode") (opt_read (u "channel_info") (channel r))) (VStr (u "random")))) s
  | AddText text => on_view (λ v, setAddKeys (addKeysVisible v) text (addMultiKeyMode v) v) s
  | AddMode mode => on_view (λ v, setAddKeys (addKeysVisible v) (addKeysValue v) mode v) s
  | CloseAdd => on_view (λ v, setAddKeys false [] (addMultiKeyMode v) v) s
  | SaveAdd => handleAddKeys r s
  | CloseView => on_view (λ v, setViewKey false (VStr []) (viewKeyIndex v) v) s
  | Copy => suspend Copying (emit (Clipboard (viewKeyValue r)) s)
  | OpenTest keyIndex => emit (ModelTest (channel r) keyIndex) s
  | Answer i res => match calls s !! i with Some w => answered w res (take_call i s) | None => s end
  | Failure i error => match calls s !! i with Some w => failed w error (take_call i s) | None => s end
  end.

Definition run (s : state) (es : list event) : state := fold_left step es s.

Definition first_view : view :=
  mk_view false VNull false (empty_table (n 1) (n 10)) [] VNull false (VStr []) VNull false VNull [] false false [] false
    (VStr (u "random")) [].

(** The first render with its effects. *)
Definition init (shown : bool) (c : value) : state := closed (opened (mk_state (setProps shown c first_view) [] [])).
End multi_keys.

(** * The keys of a channel: laws
    Every flag that a button or the table shows is released by a call in flight; the keys
    of a channel that was shown before can be shown for the next. *)

(** ** Flags and the calls that release them *)

Inductive mark := Loading | Busy (id : jsstr) | Editing | Adding.

Definition marked (m : mark) (v : view) : bool :=
  match m with Loading => loading v | Busy id => flag id v | Editing => editKeyLoading v | Adding => addKeysLoading v end.

Definition continues (k : after) (m : mark) : Prop :=
  match k with Nothing => False | EndOperation id => m = Busy id | EndEdit => m = Editing | EndAdd => m = Adding end.

Definition holds (w : waiting) (m : mark) : Prop :=
  match w with
  | Load _ k => m = Loading ∨ continues k m
  | Operate _ id _ => m = Busy id
  | UpdateKey _ => m = Editing
  | AddKeys _ => m = Adding
  | Copying => False
  end.

(** Every mark is of [P] or has its call. *)
Definition owed (P : mark → Prop) (s : state) : Prop :=
  ∀ m, marked m (now s) = true → P m ∨ ∃ w, w ∈ calls s ∧ holds w m.
Definition wf (s : state) : Prop := owed (λ _, False) s.

(** How a state came to have marks of [Q] only. *)
Lemma owed_view P Q f s :
  owed P s → (∀ m, marked m (f (now s)) = true → Q m ∨ marked m (now s) = true ∧ (P m → Q m)) → owed Q (on_view f s).
Proof. intros H Hf m Hm. destruct (Hf m Hm) as [|[Hs HPQ]]; [by left|]. destruct (H m Hs) as [|]; [left; auto | by right]. Qed.

Lemma owed_same P f s : owed P s → (∀ m, marked m (f (now s)) = marked m (now s)) → owed P (on_view f s).
Proof. intros H Hf. apply (owed_view P); [done|]. intros m. rewrite Hf. by right. Qed.

Lemma owed_emit P e s : owed P s → owed P (emit e s).
Proof. done. Qed.

Lemma owed_weaken P Q s : owed P s → (∀ m, P m → Q m) → owed Q s.
Proof. intros H HPQ m Hm. destruct (H m Hm); [left; auto | by right]. Qed.

Lemma owed_suspend P Q w s : owed P s → (∀ m, P m → holds w m ∨ Q m) → owed Q (suspend w s).
Proof.
  intros H Hw m Hm. destruct (H m Hm) as [HP|(w' & Hin & Hh)].
  - destruct (Hw m HP); [|by left]. right. exists w. split; [|done]. simpl. set_solver.
  - right. exists w'. split; [|done]. simpl. set_solver.
Qed.

(** Taking a call leaves what it held. *)
Lemma owed_take i w s : calls s !! i = Some w → wf s → owed (holds w) (take_call i s).
Proof.
  intros Hi H m Hm. destruct (H m Hm) as [[]|(w' & Hin & Hh)]. pose proof (delete_Permutation _ _ _ Hi) as P. rewrite P in Hin.
  apply elem_of_cons in Hin as [->|Hin]; [by left | right; by exists w'].
Qed.

Lemma busy_set id b id' v : flag id' (setOperationLoading id b v) = if decide (id = id') then b else flag id' v.
Proof. unfold flag. simpl. rewrite prop_set. by destruct (decide (id = id')); [destruct b|]. Qed.

(** A flag that is set is owed. *)
Lemma owed_busy id s : wf s → owed (λ m, m = Busy id) (on_view (setOperationLoading id true) s).
Proof.
  intros H. eapply owed_view; [exact H|]. intros [|x| |] Hm; try (by right). simpl in *. rewrite busy_set in Hm.
  destruct (decide (id = x)) as [->|]; [by left | by right].
Qed.

Lemma held_released id s : owed (λ m, m = Busy id) s → wf (on_view (setOperationLoading id false) s).
Proof.
  intros H. eapply owed_view; [exact H|]. intros [|x| |] Hm; right; (split; [|]); try done; simpl in Hm; rewrite busy_set in Hm.
  - by destruct (decide (id = x)).
  - intros [= ->]. by rewrite decide_True in Hm.
Qed.

Lemma held_edited s : owed (λ m, m = Editing) s → wf (on_view (setEditKeyLoading false) s).
Proof. intros H. eapply owed_view; [exact H|]. intros [|x| |] Hm; right; done. Qed.

Lemma held_added s : owed (λ m, m = Adding) s → wf (on_view (setAddKeysLoading false) s).
Proof. intros H. eapply owed_view; [exact H|]. intros [|x| |] Hm; right; done. Qed.

Section laws.
Context (t : jsstr → jsstr) (engine_error : value).
Local Abbreviation step := (MultiKeys.step t engine_error).
Local Abbreviation run := (MultiKeys.run t engine_error).

Lemma held_continue k s : owed (continues k) s → wf (continue k s).
Proof.
  intros H. destruct k; simpl.
  - done.
  - by apply held_released.
  - by apply held_edited.
  - eapply owed_view; [exact H|]. intros [|x| |] Hm; right; done.
Qed.

Lemma held_load r page size status k s : owed (continues k) s → wf (loadKeyStatus r page size status k s).
Proof.
  intros H. unfold loadKeyStatus. destruct (negb _); [by apply held_continue|].
  apply (owed_suspend (λ m, m = Loading ∨ continues k m)); [|by left]. apply owed_emit. eapply owed_view; [exact H|].
  intros [|x| |] Hm; [by left; left | right; split; [done | by right]..].
Qed.

Lemma held_load_ended k s : owed (λ m, m = Loading ∨ continues k m) s → wf (load_ended k s).
Proof.
  intros H. apply held_continue. eapply owed_view; [exact H|]. intros [|x| |] Hm; [done | right; split; [done | by intros [|]]..].
Qed.

Lemma held_load_answered k res s : owed (λ m, m = Loading ∨ continues k m) s → wf (load_answered t k res s).
Proof.
  intros H. unfold load_answered, load_thrown. destruct (answer_of res) as [answer|]; [|by apply held_load_ended].
  destruct (succeeded answer); [|by apply held_load_ended].
  destruct (opt_read (u "data") answer); by apply held_load_ended; try apply owed_same.
Qed.

Lemma held_thrown op id error s : owed (λ m, m = Busy id) s → wf (operation_thrown t op id error s).
Proof.
  intros H. unfold operation_thrown. apply held_released, owed_emit. destruct op; try done.
  unfold tested. destruct (to_string keyIndex); [by apply owed_same | done].
Qed.

Lemma held_tested i b msg e id s : owed (λ m, m = Busy id) s → wf (operation_ended id (emit e (tested i b msg s))).
Proof. intros H. apply held_released, owed_emit. unfold tested. destruct (to_string i); [by apply owed_same | done]. Qed.

Lemma held_operated op id r res s : owed (λ m, m = Busy id) s → wf (operated t engine_error op id r res s).
Proof.
  intros H. unfold operated. destruct (answer_of res) as [answer|]; [|by apply held_thrown].
  assert (∀ e, wf (operation_ended id (emit e s))) as Hend by (intros e; by apply held_released).
  assert (∀ e, wf (loadKeyStatus r (currentPage (keys_of r)) (pageSize (keys_of r)) (statusFilter r) (EndOperation id) (emit e s))) as Hl1
    by (intros e; by apply held_load).
  assert (∀ e, wf (loadKeyStatus r (n 1) (pageSize (keys_of r)) (statusFilter r) (EndOperation id) (on_view (setCurrentPage (n 1)) (emit e s)))) as Hl2
    by (intros e; by apply held_load, owed_same).
  destruct op, (succeeded answer); simpl; auto using held_tested. by apply held_released, owed_same.
Qed.

Lemma held_operate r op s : wf s → wf (operate t engine_error r op s).
Proof.
  intros H. unfold operate. destruct (operation_id op) as [id|]; [|done]. pose proof (owed_busy id s H) as Hb. cbv zeta.
  destruct (read (u "id") (channel r)); [|by apply held_thrown]. eapply owed_suspend; [by apply owed_emit | by left].
Qed.

Lemma held_key_updated r res s : owed (λ m, m = Editing) s → wf (key_updated t r res s).
Proof.
  intros H. unfold key_updated, edit_thrown, edit_ended. destruct (answer_of res) as [answer|]; [|by apply held_edited].
  destruct (succeeded answer); [by apply held_load, owed_same | by apply held_edited].
Qed.

Lemma held_keys_added r res s : owed (λ m, m = Adding) s → wf (keys_added t r res s).
Proof.
  intros H. unfold keys_added, add_thrown, add_ended. destruct (answer_of res) as [answer|]; [|by apply held_added].
  destruct (succeeded answer); [by apply held_load, owed_same | by apply held_added].
Qed.

Lemma held_save_edit r s : wf s → wf (handleSaveEditKey t r s).
Proof.
  intros H. unfold handleSaveEditKey. destruct (trim (editKeyValue r)); [done|]. cbv zeta.
  assert (owed (λ m, m = Editing) (on_view (setEditKeyLoading true) s)) as He
    by (eapply owed_view; [exact H|]; intros [|x| |] Hm; [by right | by right | by left | by right]).
  destruct (read (u "id") (channel r)); [|by apply held_edited]. eapply owed_suspend; [by apply owed_emit | by left].
Qed.

Lemma held_save_add r s : wf s → wf (handleAddKeys t r s).
Proof.
  intros H. unfold handleAddKeys. destruct (trim (addKeysValue r)); [done|]. cbv zeta.
  assert (owed (λ m, m = Adding) (on_view (setAddKeysLoading true) s)) as He
    by (eapply owed_view; [exact H|]; intros [|x| |] Hm; [by right | by right | by right | by left]).
  destruct (read (u "id") (channel r)); [|by apply held_added]. eapply owed_suspend; [by apply owed_emit | by left].
Qed.

Lemma held_plain f s : wf s → (∀ m, marked m (f (now s)) = marked m (now s)) → wf (on_view f s).
Proof. apply owed_same. Qed.

Lemma held_opened s : wf s → wf (opened s).
Proof. intros H. unfold opened. destruct (_ && _); [by apply held_load, held_plain | done]. Qed.

Lemma held_closed s : wf s → wf (closed s).
Proof. intros H. unfold closed. destruct (visible _); [done | by apply held_plain]. Qed.

Lemma held_rendered shown c s : wf s → wf (rendered shown c s).
Proof.
  intros H. unfold rendered. cbv zeta. assert (wf (on_view (setProps shown c) s)) as H1 by by apply held_plain.
  destruct (eqb _ _); simpl; [destruct (strict_eq _ _) | apply held_closed]; by try apply held_opened.
Qed.

Lemma held_answered i w res s : calls s !! i = Some w → wf s → wf (answered t engine_error w res (take_call i s)).
Proof.
  intros Hi H. pose proof (owed_take i w s Hi H) as Ho. destruct w; simpl in *.
  - by apply held_load_answered.
  - by apply held_operated.
  - by apply held_key_updated.
  - by apply held_keys_added.
  - exact Ho.
Qed.

Lemma held_failed i w error s : calls s !! i = Some w → wf s → wf (failed t w error (take_call i s)).
Proof.
  intros Hi H. pose proof (owed_take i w s Hi H) as Ho. destruct w; simpl in *.
  - by apply held_load_ended.
  - by apply held_thrown.
  - by apply held_edited.
  - by apply held_added.
  - exact Ho.
Qed.

Lemma held_step s e : wf s → wf (step s e).
Proof.
  intros H. destruct e; simpl; try (by apply held_plain).
  - by apply held_rendered.
  - by apply held_load.
  - by apply held_load, held_plain.
  - apply held_load, held_plain; [by apply held_plain | done].
  - by apply held_load, held_plain.
  - by apply held_operate.
  - by apply held_save_edit.
  - by apply held_save_add.
  - eapply owed_suspend; [by apply owed_emit | by intros m []].
  - done.
  - destruct (calls s !! i) eqn:Hi; [by apply held_answered | done].
  - destruct (calls s !! i) eqn:Hi; [by apply held_failed | done].
Qed.

Lemma held_init shown c : wf (init shown c).
Proof. apply held_closed, held_opened. by intros []. Qed.

Lemma held_run s es : wf s → wf (run s es).
Proof. revert s. induction es as [|e es IH]; intros s H; [done|]. apply IH. by apply held_step. Qed.

(** ** Calls end *)

Definition weight (w : waiting) : nat := match w with Load _ _ | Copying => 1 | _ => 2 end.
Definition load (s : state) : nat := sum_list_with weight (calls s).

Lemma load_take i w s : calls s !! i = Some w → load s = weight w + load (take_call i s).
Proof. intros Hi. unfold load. simpl. by rewrite (delete_Permutation _ _ _ Hi) at 1. Qed.

Lemma load_continue k s : load (continue k s) = load s.
Proof. by destruct k. Qed.

Lemma load_reload r page size status k s : load (loadKeyStatus r page size status k s) ≤ S (load s).
Proof.
  unfold loadKeyStatus. destruct (negb _); [rewrite load_continue; lia|]. unfold load. simpl. rewrite sum_list_with_app. simpl. lia.
Qed.

Lemma load_tested i b msg s : load (tested i b msg s) = load s.
Proof. unfold tested. by destruct (to_string i). Qed.

Lemma load_operation_thrown op id error s : load (operation_thrown t op id error s) = load s.
Proof. destruct op; try done. exact (load_tested _ _ _ s). Qed.

Lemma load_answered_le w res s : load (answered t engine_error w res s) ≤ pred (weight w) + load s.
Proof.
  destruct w; simpl.
  - unfold load_answered, load_thrown, load_ended. repeat case_match; by rewrite load_continue.
  - unfold operated. destruct (answer_of res) as [answer|]; [|rewrite load_operation_thrown; lia].
    destruct op, (succeeded answer); simpl; try apply Nat.le_succ_diag_r;
      lazymatch goal with
      | |- load (loadKeyStatus ?r ?p ?z ?x ?k ?s') ≤ _ => exact (load_reload r p z x k s')
      | |- load (operation_ended _ (emit _ (tested ?i ?b ?m ?s'))) ≤ _ => pose proof (load_tested i b m s') as E; unfold load in *; simpl in *; lia
      end.
  - unfold key_updated. repeat case_match; try apply Nat.le_succ_diag_r.
    match goal with |- load (loadKeyStatus ?r ?p ?z ?x ?k ?s') ≤ _ => exact (load_reload r p z x k s') end.
  - unfold keys_added. repeat case_match; try apply Nat.le_succ_diag_r.
    match goal with |- load (loadKeyStatus ?r ?p ?z ?x ?k ?s') ≤ _ => exact (load_reload r p z x k s') end.
  - done.
Qed.

Lemma load_failed_le w error s : load (failed t w error s) ≤ pred (weight w) + load s.
Proof.
  destruct w; simpl; try apply Nat.le_succ_diag_r; [|rewrite load_operation_thrown; lia|done].
  unfold load_thrown, load_ended. by rewrite load_continue.
Qed.

(** in every reachable state each flag that the table or a button shows has a call in
    flight that releases it; each answer or failure brings the calls closer to their end,
    and when none is left nothing shows that it loads. *)
Theorem flags_released shown c es :
  let s := run (init shown c) es in
  (∀ m, marked m (now s) = true → ∃ w, w ∈ calls s ∧ holds w m) ∧
  (∀ i w, calls s !! i = Some w → (∀ res, load (step s (Answer i res)) < load s) ∧ (∀ error, load (step s (Failure i error)) < load s)) ∧
  (load s = 0 → ∀ m, marked m (now s) = false).
Proof.
  intros s. assert (wf s) as H by (apply held_run, held_init). split; [|split].
  - intros m Hm. by destruct (H m Hm) as [[]|].
  - intros i w Hi. assert (1 ≤ weight w) as Hw by (destruct w; simpl; lia). pose proof (load_take i w s Hi) as Hl.
    split; intros x; simpl; rewrite Hi.
    + pose proof (load_answered_le w x (take_call i s)). lia.
    + pose proof (load_failed_le w x (take_call i s)). lia.
  - intros Hl m. destruct (marked m (now s)) eqn:Hm; [|done]. destruct (H m Hm) as [[]|(w & Hin & _)]. exfalso.
    apply list_elem_of_lookup_1 in Hin as [i Hi]. pose proof (load_take i w s Hi). destruct w; simpl in *; lia.
Qed.

(** ** Keys of another channel *)

(** The channel is opened and closed, and another one opened. *)
Lemma two_loads a b :
  truthy (opt_read (u "id") a) = true → truthy (opt_read (u "id") b) = true →
  let s := run (init true a) [Render false a; Render true b] in
  ∃ ra rb, calls s = [Load ra Nothing; Load rb Nothing] ∧ channel (now s) = b.
Proof.
  intros Ha Hb. unfold run, fold_left, init, opened, loadKeyStatus. simpl. rewrite Ha. simpl. unfold rendered. simpl.
  unfold opened, closed, loadKeyStatus. simpl. rewrite Hb. simpl. by eexists _, _.
Qed.

Lemma load_answered_channel res s :
  calls (load_answered t Nothing res s) = calls s ∧ channel (now (load_answered t Nothing res s)) = channel (now s).
Proof. unfold load_answered. by repeat case_match. Qed.

Lemma load_answered_shown res answer s :
  answer_of res = Some answer → succeeded answer = true → truthy (opt_read (u "data") answer) = true →
  keys_of (now (load_answered t Nothing res s)) = table_of (opt_read (u "data") answer).
Proof. intros H1 H2 H3. unfold load_answered. rewrite H1, H2. by destruct (opt_read (u "data") answer). Qed.

Lemma read_truthy k v : truthy (opt_read k v) = true → read k v = Some (opt_read k v).
Proof. unfold opt_read. by destruct (read k v). Qed.

(** The keys of a channel whose answer is late are shown for the channel that was
    opened meanwhile; an operation on one of these rows is made on the other channel, on
    the key that has the same index there. *)
Theorem late_keys_shown a b ansA resA resB i s :
  truthy (opt_read (u "id") a) = true → truthy (opt_read (u "id") b) = true →
  answer_of resA = Some ansA → succeeded ansA = true → truthy (opt_read (u "data") ansA) = true →
  is_Some (operation_id (DeleteKey i)) →
  s = run (init true a) [Render false a; Render true b; Answer 1 resB; Answer 0 resA] →
  channel (now s) = b ∧ keys_of (now s) = table_of (opt_read (u "data") ansA) ∧
  ∃ s', step s (Operation (DeleteKey i)) = suspend (Operate (DeleteKey i) (default [] (operation_id (DeleteKey i))) (now s)) s' ∧
    head (log s') = Some (Manage (VObj [(u "channel_id", opt_read (u "id") b); (u "action", VStr (u "delete_key")); (u "key_index", i)])).
Proof.
  intros Ha Hb HA HsA HdA [id Hid] ->. destruct (two_loads a b Ha Hb) as (ra & rb & Hc & Hch).
  change (run (init true a) [Render false a; Render true b; Answer 1 resB; Answer 0 resA])
    with (run (run (init true a) [Render false a; Render true b]) [Answer 1 resB; Answer 0 resA]).
  set (s := run (init true a) _) in *. clearbody s.
  assert (∀ i w s res, calls s !! i = Some w → step s (Answer i res) = answered t engine_error w res (take_call i s)) as Hans
    by (intros i' w s' res Hi; unfold MultiKeys.step; by rewrite Hi).
  set (s1 := load_answered t Nothing resB (take_call 1 s)).
  destruct (load_answered_channel resB (take_call 1 s)) as [E1 E2]. destruct (load_answered_channel resA (take_call 0 s1)) as [_ E3].
  pose proof (load_answered_shown resA ansA (take_call 0 s1) HA HsA HdA) as E4. fold s1 in E1, E2. simpl in E1. rewrite Hc in E1.
  assert (run s [Answer 1 resB; Answer 0 resA] = load_answered t Nothing resA (take_call 0 s1)) as ->.
  { unfold run, fold_left. rewrite (Hans 1 (Load rb Nothing)) by by rewrite Hc. apply (Hans 0 (Load ra Nothing)). exact (f_equal (λ l, l !! 0) E1). }
  set (s2 := load_answered t Nothing resA _) in *. clearbody s2. assert (channel (now s2) = b) as E5 by (rewrite E3; simpl; by rewrite E2).
  split; [done|]. split; [done|]. simpl step. unfold operate. rewrite Hid, E5, (read_truthy _ _ Hb). eexists. split; [reflexivity|]. done.
Qed.
End laws.

Definition channel_named (i : Z) : value := VObj [(u "id", n i)].
Definition keys_answer (name : string) : value :=
  VObj [(u "data", VObj [(u "success", VBool true); (u "data", VObj [(u "keys", VArr [VObj [(u "index", n 0); (u "key_preview", VStr (u name))]])])])].
Definition late : state :=
  run (λ x, x) VUndef (init true (channel_named 1))
    [Render false (channel_named 1); Render true (channel_named 2); Answer 1 (keys_answer "second"); Answer 0 (keys_answer "first")].

Lemma late_keys_shown_witness :
  channel (now late) = channel_named 2 ∧
  keys_of (now late) = table_of (opt_read (u "data") (opt_read (u "data") (keys_answer "first"))) ∧
  ∃ s', step (λ x, x) VUndef late (Operation (DeleteKey (n 0))) = suspend (Operate (DeleteKey (n 0)) (u "delete_0") (now late)) s' ∧
    head (log s') = Some (Manage (VObj [(u "channel_id", n 2); (u "action", VStr (u "delete_key")); (u "key_index", n 0)])).
Proof.
  apply (late_keys_shown (λ x, x) VUndef (channel_named 1) (channel_named 2) (opt_read (u "data") (keys_answer "first"))
    (keys_answer "first") (keys_answer "second") (n 0) late).
  - vm_compute. reflexivity.
  - vm_compute. reflexivity.
  - vm_compute. reflexivity.
  - vm_compute. reflexivity.
  - vm_compute. reflexivity.
  - exists (u "delete_0"). vm_compute. reflexivity.
  - reflexivity.
Defined.
