(* ===== verification/UserEditor.v ===== *)
(** * The editor of a user
    [src/web/src/components/table/users/modals/EditUserModal.jsx]: the dialog that loads the
    user of its property and sends what was edited: the fields of its form, a change of the
    balance and the ratios of groups.  The form is a component of a library: it keeps the
    fields that it has of the values it is told ([kept]). *)

From Stdlib Require Import SpecFloat.
From stdpp Require Import base numbers option strings sets list.
From S2P Require Import Prelude JsString JsNumber JsValue Json JsOps Session OptionForms Amounts.

Definition num_value (z : Z) : value := VNum (num_of_Z z).

(** [Number(x.toFixed(2))] *)
Definition cents (x : num) : num := str_to_num (to_fixed x 2).

(** ** State *)

Record group := mk_group { group_id : jsstr; name : jsstr; ratio : num }.

Record view := mk_view {
  visible : bool; userId : value; loading : bool; addQuotaModalOpen : bool; addAmountLocal : value;
  pendingQuotaDelta : num; quotaDisplay : num; advancedOpen : bool;
  groupOverrides : props; groupList : list group; availableGroups : value;
  form : props;
}.

Inductive effect :=
  | Get (url : jsstr)
  | Put (url : jsstr) (body : value)
  | ShowError (v : value)
  | ShowSuccess (text : jsstr)
  | Login (user : value)
  | Refresh
  | Unhandled (v : value).

(** Where a call goes on: a load with the user of its render, a save with the user and
    the identifier of the account of its render. *)
Inductive waiting :=
  | LoadGroups (id : value)
  | LoadUser (id : value)
  | Save (id selfId : value)
  | LoadSelf
  | Refreshing.

Record state := mk_state { now : view; calls : list waiting; log : list effect }.

Definition emit e s := mk_state (now s) (calls s) (e :: log s).
Definition with_calls l s := mk_state (now s) l (log s).
Definition suspend (w : waiting) (s : state) : state := with_calls (calls s ++ [w]) s.
Definition on_view (f : view → view) (s : state) : state := mk_state (f (now s)) (calls s) (log s).

Definition setProps b id v := mk_view b id (loading v) (addQuotaModalOpen v) (addAmountLocal v) (pendingQuotaDelta v)
  (quotaDisplay v) (advancedOpen v) (groupOverrides v) (groupList v) (availableGroups v) (form v).
Definition setLoading b v := mk_view (visible v) (userId v) b (addQuotaModalOpen v) (addAmountLocal v) (pendingQuotaDelta v)
  (quotaDisplay v) (advancedOpen v) (groupOverrides v) (groupList v) (availableGroups v) (form v).
Definition setAdding b x v := mk_view (visible v) (userId v) (loading v) b x (pendingQuotaDelta v)
  (quotaDisplay v) (advancedOpen v) (groupOverrides v) (groupList v) (availableGroups v) (form v).
Definition setQuota delta display v := mk_view (visible v) (userId v) (loading v) (addQuotaModalOpen v) (addAmountLocal v) delta
  display (advancedOpen v) (groupOverrides v) (groupList v) (availableGroups v) (form v).
Definition setAdvancedOpen b v := mk_view (visible v) (userId v) (loading v) (addQuotaModalOpen v) (addAmountLocal v)
  (pendingQuotaDelta v) (quotaDisplay v) b (groupOverrides v) (groupList v) (availableGroups v) (form v).
Definition setGroups l o v := mk_view (visible v) (userId v) (loading v) (addQuotaModalOpen v) (addAmountLocal v)
  (pendingQuotaDelta v) (quotaDisplay v) (advancedOpen v) o l (availableGroups v) (form v).
Definition setAvailable x v := mk_view (visible v) (userId v) (loading v) (addQuotaModalOpen v) (addAmountLocal v)
  (pendingQuotaDelta v) (quotaDisplay v) (advancedOpen v) (groupOverrides v) (groupList v) x (form v).
Definition setForm f v := mk_view (visible v) (userId v) (loading v) (addQuotaModalOpen v) (addAmountLocal v)
  (pendingQuotaDelta v) (quotaDisplay v) (advancedOpen v) (groupOverrides v) (groupList v) (availableGroups v) f.

Definition initValues : props :=
  [(u "username", VStr []); (u "display_name", VStr []); (u "password", VStr []); (u "email", VStr []);
   (u "quota", num_value 0); (u "remark", VStr [])].

Section editor.
(** The translation, what the engine throws, the display currency, whether the account is
    an admin's ([None] where reading it throws), and the form. *)
Context (t : jsstr → jsstr) (engine_error : value) (d : display) (isAdmin : option bool) (kept : props → props).

Definition throws (s : state) : state := emit (Unhandled engine_error) s.

(** [formApiRef.current?.setValues(values)]: the form is there while the dialog is. *)
Definition setValues (values : props) (v : view) : view := if visible v then setForm (kept values) v else v.

(** *** Loading *)

Definition loadUser (s : state) : state :=
  suspend (LoadGroups (userId (now s))) (emit (Get (u "/api/group/")) (on_view (setLoading true) s)).

Definition url_of (id : value) : option jsstr :=
  if truthy id then text ← to_string id; Some (u "/api/user/" ++ text) else Some (u "/api/user/self").

(** After the groups, or without them. *)
Definition askUser (id : value) (s : state) : state :=
  match url_of id with
  | Some url => suspend (LoadUser id) (emit (Get url) s)
  | None => throws s
  end.

Definition groups_answered (id res : value) (s : state) : state :=
  let body := opt_read (u "data") res in
  askUser id (if truthy (opt_read (u "success") body)
              then on_view (setAvailable (value_or (opt_read (u "data") body) (VArr []))) s else s).

(** The ratios of a user: numbers to two digits, and 1 for whatever is no number. *)
Definition ratio_of (v : value) : num := match v with VNum x => cents x | _ => num_of_Z 1 end.

Definition entry_of (i : nat) (kv : jsstr * value) : group :=
  mk_group (u "existing-" ++ dec_N (N.of_nat i)) kv.1 (ratio_of kv.2).

(** [None] where the text is no JSON or there is nothing to enumerate, which is caught. *)
Definition parsed_ratios (v : value) : option props :=
  match (match v with VStr text => json_parse text | _ => Some v end) with
  | Some VNull | Some VUndef | None => None
  | Some parsed => Some (own_entries parsed)
  end.

Definition group_entries (data : props) : list group :=
  let v := prop (u "group_ratio") data in
  if truthy v then match parsed_ratios v with Some o => imap entry_of o | None => [] end else [].

Definition overrides_of (l : list group) : props := fold_left (λ o g, set (name g) (VNum (ratio g)) o) l [].

Definition loaded (data : props) (q : num) (v : view) : view :=
  let data := set (u "quota") (VNum q) (set (u "password") (VStr []) data) in
  let l := group_entries data in
  setValues (spread initValues data)
    (setAdvancedOpen (negb (bool_decide (length l = 0)))
      (setGroups l (overrides_of l) (setQuota (num_of_Z 0) q v))).

Definition user_answered (res : value) (s : state) : state :=
  match parts_of res with
  | None => throws s
  | Some (true, _, VObj data) =>
      match quotaToDisplayAmount d (value_or (prop (u "quota") data) (num_value 0)) with
      | Some q => on_view (λ v, setLoading false (loaded data q v)) s
      | None => throws s
      end
  | Some (true, _, _) => throws s
  | Some (false, message, _) => on_view (setLoading false) (emit (ShowError message) s)
  end.

(** A render with other properties: another identifier loads, and the form is made anew
    when the dialog opens. *)
Definition rendered (b : bool) (id : value) (s : state) : state :=
  let v := now s in
  let s' := on_view (λ v, let v' := setProps b id v in if b && negb (visible v) then setForm (kept initValues) v' else v') s in
  if strict_eq id (userId v) then s' else loadUser s'.

(** *** Saving *)

(** The ratios as they are sent: names that are blank are left out. *)
Definition full_ratios (l : list group) : props :=
  fold_left (λ o g, match trim (name g) with [] => o | n => set n (VNum (cents (ratio g))) o end) l [].

Definition put_delta (v : view) (p : props) : option props :=
  if neqb (pendingQuotaDelta v) (num_of_Z 0) then Some p
  else delta ← displayAmountToQuota d (VNum (pendingQuotaDelta v)); Some (set (u "quota_delta") (VNum delta) p).

Definition put_ratios (v : view) (p : props) : option props :=
  match isAdmin with
  | Some true =>
      text ← json_stringify [] (VObj (full_ratios (groupList v))); Some (set (u "group_ratio") (VStr text) p)
  | Some false => Some p
  | None => None
  end.

Definition payload (v : view) : option props :=
  quota ← displayAmountToQuota d (VNum (quotaDisplay v));
  let p := set (u "quota") (VNum quota) (form v) in
  if truthy (userId v) then
    match to_string (userId v) with
    | Some id => put_delta v (set (u "id") (VNum (parse_int_text id)) p) ≫= put_ratios v
    | None => None
    end
  else Some p.

Definition save_url (id : value) : jsstr := if truthy id then u "/api/user/" else u "/api/user/self".

(** The form calls it with its values once the name is there. *)
Definition submit (selfId : value) (s : state) : state :=
  let v := now s in
  let s := on_view (setLoading true) s in
  match payload v with
  | Some body => suspend (Save (userId v) selfId) (emit (Put (save_url (userId v)) (VObj body)) s)
  | None => throws s
  end.

Definition refreshes (s : state) : state := suspend Refreshing (emit Refresh s).

Definition is_self (id selfId : value) : bool :=
  negb (truthy id) || bool_decide (to_string id = to_string selfId).

Definition save_answered (id selfId res : value) (s : state) : state :=
  match parts_of res with
  | None => throws s
  | Some (true, _, _) =>
      let s := emit (ShowSuccess (t (u "用户信息更新成功！"))) s in
      if is_self id selfId then suspend LoadSelf (emit (Get (u "/api/user/self")) s) else refreshes s
  | Some (false, message, _) => on_view (setLoading false) (emit (ShowError message) s)
  end.

Definition self_answered (res : value) (s : state) : state :=
  let body := opt_read (u "data") res in
  refreshes (if truthy (opt_read (u "success") body) then emit (Login (opt_read (u "data") body)) s else s).

(** The page closes the dialog: its user is none from then on. *)
Definition handleClose : state → state := rendered false VUndef.

Definition refresh_ended (s : state) : state := handleClose (on_view (setLoading false) s).

(** *** The balance and the ratios *)

Definition delta_of (amount : value) : num :=
  match to_string amount with
  | Some text => let x := parse_float text in if num_truthy x then x else num_of_Z 0
  | None => num_of_Z 0
  end.

Definition addLocalQuota (v : view) : view :=
  let delta := delta_of (addAmountLocal v) in
  if num_truthy delta
  then setQuota (nadd (pendingQuotaDelta v) delta) (cents (nadd (quotaDisplay v) delta)) v
  else v.

Definition addGroup (g : jsstr) (v : view) : view :=
  if str_truthy g && negb (truthy (prop g (groupOverrides v)))
  then setGroups (groupList v ++ [mk_group (u "channel-" ++ g) g (num_of_Z 1)])
         (set g (num_value 1) (groupOverrides v)) v
  else v.

Definition offered (v : view) : list value :=
  match availableGroups v with
  | VArr l => List.filter (λ g, match g with VStr n => negb (truthy (prop n (groupOverrides v))) | _ => true end) l
  | _ => []
  end.

(** [None] where [toFixed] is no method of what the field tells. *)
Definition new_ratio (x : value) : option num :=
  match x with VNull | VUndef => Some (num_of_Z 1) | VNum x => Some (cents x) | _ => None end.

Definition setRatio (i : nat) (r : num) (v : view) : view :=
  match groupList v !! i with
  | Some g =>
      setGroups (<[i := mk_group (group_id g) (name g) r]> (groupList v))
        (if str_truthy (name g) then set (name g) (VNum r) (groupOverrides v) else groupOverrides v) v
  | None => v
  end.

Definition removeGroup (i : nat) (v : view) : view :=
  match groupList v !! i with
  | Some g =>
      setGroups (delete i (groupList v))
        (if str_truthy (name g) then del (name g) (groupOverrides v) else groupOverrides v) v
  | None => v
  end.

(** *** Steps *)

Inductive event :=
  | Props (b : bool) (id : value)
  | Cancel
  | Typed (field : jsstr) (x : value)
  | Submit (selfId : value)
  | OpenAdd
  | Amount (x : value)
  | AddOk
  | AddCancel
  | ToggleAdvanced
  | SelectGroup (g : jsstr)
  | Ratio (i : nat) (x : value)
  | RemoveGroup (i : nat)
  | Answer (i : nat) (res : value)
  | Failure (i : nat) (error : value).

Definition take_call (i : nat) (s : state) : state := with_calls (delete i (calls s)) s.

Definition answered (w : waiting) (res : value) (s : state) : state :=
  match w with
  | LoadGroups id => groups_answered id res s
  | LoadUser id => user_answered res s
  | Save id selfId => save_answered id selfId res s
  | LoadSelf => self_answered res s
  | Refreshing => refresh_ended s
  end.

(** The groups and the account are not needed; the other failures are told by the client
    and end the handler. *)
Definition failed (w : waiting) (error : value) (s : state) : state :=
  match w with
  | LoadGroups id => askUser id s
  | LoadSelf => refreshes s
  | LoadUser _ | Save _ _ | Refreshing => emit (Unhandled error) s
  end.

Definition step (s : state) (e : event) : state :=
  match e with
  | Props b id => rendered b id s
  | Cancel => handleClose s
  | Typed field x => on_view (λ v, if visible v then setForm (set field x (form v)) v else v) s
  | Submit selfId =>
      if visible (now s) && negb (loading (now s)) && truthy (prop (u "username") (form (now s)))
      then submit selfId s else s
  | OpenAdd => on_view (λ v, setAdding true (addAmountLocal v) v) s
  | Amount x => on_view (λ v, setAdding (addQuotaModalOpen v) x v) s
  | AddOk => on_view (λ v, setAdding false (VStr []) (addLocalQuota v)) s
  | AddCancel => on_view (λ v, setAdding false (addAmountLocal v) v) s
  | ToggleAdvanced => on_view (λ v, setAdvancedOpen (negb (advancedOpen v)) v) s
  | SelectGroup g => on_view (addGroup g) s
  | Ratio i x => match new_ratio x with Some r => on_view (setRatio i r) s | None => throws s end
  | RemoveGroup i => on_view (removeGroup i) s
  | Answer i res => match calls s !! i with Some w => answered w res (take_call i s) | None => s end
  | Failure i error => match calls s !! i with Some w => failed w error (take_call i s) | None => s end
  end.

Definition run (s : state) (l : list event) : state := fold_left step l s.

(** Mounted with the table, when nobody is edited: the account itself is loaded. *)
Definition init : state :=
  loadUser (mk_state (mk_view false VUndef true false (VStr []) (num_of_Z 0) (num_of_Z 0) false [] [] (VArr []) []) [] []).
End editor.

(** * Properties of the editor of a user
    Ratios of two digits come back as they were loaded, and others are rounded by a save
    that touches nothing; a late answer puts one user's fields under another's identifier;
    a change of the balance is the sum of what was added. *)

#[local] Opaque u.

Section laws.
Context (t : jsstr → jsstr) (engine_error : value) (d : display) (isAdmin : option bool) (kept : props → props).
Abbreviation step := (step t engine_error d isAdmin kept).
Abbreviation run := (run t engine_error d isAdmin kept).
Abbreviation payload := (payload d isAdmin).

(** A name that is no blank and has none around it. *)
Definition plain_name (g : jsstr) : bool := bool_decide (trim g = g) && str_truthy g.

Definition two_digits (v : value) : bool := match v with VNum x => bool_decide (cents x = x) | _ => false end.

Lemma full_ratios_entries o acc i :
  forallb (λ kv, plain_name kv.1 && two_digits kv.2) o = true →
  fold_left (λ o g, match trim (name g) with [] => o | n => set n (VNum (cents (ratio g))) o end)
    (imap (λ j, entry_of (i + j)) o) acc = spread acc o.
Proof.
  revert acc i. induction o as [|[k v] o IH]; intros acc i H; [done|].
  simpl in H. rewrite !andb_true_iff in H. destruct H as [[Hk Hv] Ho].
  unfold plain_name in Hk. apply andb_true_iff in Hk as [Ht Hn]. apply bool_decide_eq_true in Ht.
  destruct v as [| | |x| | |]; try done. apply bool_decide_eq_true in Hv.
  rewrite imap_cons. cbn [fold_left]. cbn [entry_of name ratio fst snd ratio_of].
  rewrite Ht, !Hv. destruct k as [|c k]; [done|]. unfold spread. cbn [fold_left fst snd].
  etransitivity; [|apply (IH _ (S i)); done]. f_equal. apply imap_ext. intros j x' _. simpl. f_equal. lia.
Qed.

Lemma payload_ratios v p :
  isAdmin = Some true → truthy (userId v) = true → payload v = Some p →
  ∃ text, json_stringify [] (VObj (full_ratios (groupList v))) = Some text ∧ prop (u "group_ratio") p = VStr text.
Proof.
  intros Ha Hu. unfold UserEditor.payload. destruct (displayAmountToQuota _ _) as [q|]; [|done]. cbn [mbind option_bind].
  rewrite Hu. destruct (to_string _) as [id'|]; [|done]. destruct (put_delta _ _ _) as [p'|]; [|done].
  cbn [mbind option_bind]. unfold put_ratios. rewrite Ha.
  destruct (json_stringify _ _) as [text|] eqn:E; [|done]. cbn [mbind option_bind]. intros [= <-].
  exists text. split; [done|]. by rewrite prop_set, decide_True.
Qed.

Lemma payload_id v p :
  truthy (userId v) = true → payload v = Some p →
  ∃ text, to_string (userId v) = Some text ∧ prop (u "id") p = VNum (parse_int_text text) ∧
    prop (u "username") p = prop (u "username") (form v).
Proof.
  assert (u "username" ≠ u "quota" ∧ u "username" ≠ u "id" ∧ u "username" ≠ u "quota_delta" ∧
    u "username" ≠ u "group_ratio" ∧ u "id" ≠ u "quota_delta" ∧ u "id" ≠ u "group_ratio") as (K1 & K2 & K3 & K4 & K5 & K6).
  { repeat split; keys_differ. }
  intros Hu. unfold UserEditor.payload. destruct (displayAmountToQuota _ _) as [q|]; [|done]. cbn [mbind option_bind].
  rewrite Hu. destruct (to_string _) as [text|]; [|done].
  destruct (put_delta _ _ _) as [p'|] eqn:Ed; [|done]. cbn [mbind option_bind]. intros Hp. exists text. split; [done|].
  assert (prop (u "id") p' = VNum (parse_int_text text) ∧ prop (u "username") p' = prop (u "username") (form v)) as [H1 H2].
  { unfold put_delta in Ed. destruct (neqb _ _).
    - injection Ed as <-. rewrite !prop_set, decide_True by done. by rewrite !decide_False by congruence.
    - destruct (displayAmountToQuota _ _); [|done]. injection Ed as <-.
      rewrite !prop_set, decide_False, decide_True by congruence. by rewrite !decide_False by congruence. }
  unfold put_ratios in Hp. destruct isAdmin as [[]|]; [| |done].
  - destruct (json_stringify _ _); [|done]. injection Hp as <-. rewrite !prop_set, !decide_False by congruence. done.
  - injection Hp as <-. done.
Qed.

(** A successful answer to a load that goes through. *)
Definition answers (res : value) (data : props) (q : num) : Prop :=
  (∃ m, parts_of res = Some (true, m, VObj data)) ∧
  quotaToDisplayAmount d (value_or (prop (u "quota") data) (num_value 0)) = Some q.

Lemma load_ends s i id res data q :
  calls s !! i = Some (LoadUser id) → answers res data q →
  now (step s (Answer i res)) = setLoading false (loaded kept data q (now s)).
Proof. intros Hc [[m Hp] Hq]. cbn [UserEditor.step]. rewrite Hc. cbn [answered]. unfold user_answered. by rewrite Hp, Hq. Qed.

Lemma user_loaded_fields data q v :
  userId (loaded kept data q v) = userId v ∧ visible (loaded kept data q v) = visible v ∧
  groupList (loaded kept data q v) = group_entries data ∧ pendingQuotaDelta (loaded kept data q v) = num_of_Z 0 ∧
  (visible v = true → form (loaded kept data q v) =
    kept (spread initValues (set (u "quota") (VNum q) (set (u "password") (VStr []) data)))).
Proof.
  assert (u "group_ratio" ≠ u "quota" ∧ u "group_ratio" ≠ u "password") as [K1 K2] by (split; keys_differ).
  assert (group_entries (set (u "quota") (VNum q) (set (u "password") (VStr []) data)) = group_entries data) as He.
  { unfold group_entries. by rewrite !prop_set, !decide_False by congruence. }
  unfold loaded, setValues. rewrite He. simpl. destruct (visible v) eqn:Ev; by rewrite ?Ev.
Qed.

(** C31: The ratios of a user that have two digits at most come back: a save of the user
    that is loaded sends a text that says what the loaded one said. *)
Theorem ratios_come_back s i id res data q text o p :
  isAdmin = Some true → truthy (userId (now s)) = true →
  calls s !! i = Some (LoadUser id) → answers res data q →
  prop (u "group_ratio") data = VStr text → json_parse text = Some (VObj o) → json_ok (VObj o) = true →
  forallb (λ kv, plain_name kv.1 && two_digits kv.2) o = true →
  payload (now (step s (Answer i res))) = Some p →
  ∃ sent, prop (u "group_ratio") p = VStr sent ∧ json_parse sent = Some (VObj o).
Proof.
  intros Ha Hu Hc Hans Hg Hparse Hok Ho. rewrite (load_ends _ _ _ _ _ _ Hc Hans). intros Hp.
  destruct (user_loaded_fields data q (now s)) as (Hid & _ & Hl & _).
  destruct (payload_ratios _ _ Ha ltac:(by simpl; rewrite Hid) Hp) as (sent & Hs & Hsent). exists sent. split; [done|].
  simpl in Hs. rewrite Hl in Hs.
  assert (group_entries data = imap entry_of o) as He.
  { unfold group_entries, parsed_ratios. rewrite Hg. destruct text as [|c text']; [done|]. simpl truthy. cbv iota. by rewrite Hparse. }
  assert (full_ratios (group_entries data) = o) as Hf.
  { rewrite He. unfold full_ratios. etransitivity; [exact (full_ratios_entries o [] 0 Ho)|].
    rewrite json_ok_obj in Hok. apply andb_true_iff in Hok as [Hsort _]. apply bool_decide_eq_true in Hsort.
    by apply (spread_nil_sorted [] o). }
  rewrite Hf in Hs. unfold json_stringify in Hs. injection Hs as <-.
  exact (json_parse_ser [] (VObj o) ltac:(constructor) Hok).
Qed.

(** The answer to the load of one user is put into the form whoever is edited when it
    comes: the next save writes the name of the one under the identifier of the other. *)
Theorem late_user_saved_as_other s i id res data q selfId name_ :
  (∀ values, prop (u "username") (kept values) = prop (u "username") values) →
  visible (now s) = true → truthy (userId (now s)) = true →
  calls s !! i = Some (LoadUser id) → answers res data q → props_sorted data →
  prop (u "username") data = VStr name_ → name_ ≠ [] →
  let s1 := step s (Answer i res) in
  payload (now s1) ≠ None →
  ∃ body text, log (step s1 (Submit selfId)) = Put (u "/api/user/") (VObj body) :: log s1 ∧
    prop (u "username") body = VStr name_ ∧
    to_string (userId (now s)) = Some text ∧ prop (u "id") body = VNum (parse_int_text text).
Proof.
  intros Hk Hv Hu Hc Hans Hsort Hn Hne. cbv zeta. rewrite (load_ends _ _ _ _ _ _ Hc Hans).
  destruct (user_loaded_fields data q (now s)) as (Hid & Hvis & _ & _ & Hform). specialize (Hform Hv).
  set (s1 := step s (Answer i res)). intros Hp.
  assert (now s1 = setLoading false (loaded kept data q (now s))) as Hnow by exact (load_ends _ _ _ _ _ _ Hc Hans).
  assert (prop (u "username") (form (now s1)) = VStr name_) as Huser.
  { rewrite Hnow. cbn [setLoading form]. rewrite Hform, Hk. unfold prop.
    set (data' := set (u "quota") (VNum q) (set (u "password") (VStr []) data)).
    assert (get (u "username") data' = Some (VStr name_)) as Hg.
    { unfold data'. rewrite !get_set_ne by keys_differ. unfold prop in Hn. by destruct (get _ data) as [x|]; simpl in Hn; [subst|]. }
    rewrite get_spread; [by rewrite Hg|]. apply sorted_keys_NoDup. by do 2 apply props_sorted_set. }
  rewrite <- Hnow in Hp. destruct (payload (now s1)) as [body|] eqn:Hb; [|done].
  assert (truthy (userId (now s1)) = true) as Hu1 by (rewrite Hnow; cbn [setLoading userId]; by rewrite Hid).
  destruct (payload_id _ _ Hu1 Hb) as (text & Ht & Hpid & Hpu).
  exists body, text. rewrite Huser in Hpu. split_and!; [|done| |done].
  - cbn [UserEditor.step]. rewrite Huser. unfold submit. rewrite Hb. unfold save_url. rewrite Hu1.
    rewrite Hnow. cbn [setLoading visible loading]. rewrite Hvis, Hv. by destruct name_.
  - rewrite Hnow in Ht. cbn [setLoading userId] in Ht. by rewrite Hid in Ht.
Qed.

(** ** The ratios that are edited *)

Definition names (v : view) : list jsstr := map name (groupList v).

(** No group is twice in the list, and those with a ratio are those in the list. *)
Definition groups_agree (v : view) : Prop :=
  NoDup (names v) ∧ (∀ g, truthy (prop g (groupOverrides v)) = true ↔ g ∈ names v) ∧ Forall (λ g, g ≠ []) (names v).

(** The ratios of a load or of a field are not 0 when rounded, and no group is nameless. *)
Definition event_ok (s : state) (e : event) : Prop :=
  match e with
  | Answer i res =>
      match calls s !! i, parts_of res with
      | Some (LoadUser _), Some (true, _, VObj data) =>
          Forall (λ g, name g ≠ [] ∧ num_truthy (ratio g) = true) (group_entries data) ∧ NoDup (map name (group_entries data))
      | _, _ => True
      end
  | Ratio _ x => match new_ratio x with Some r => num_truthy r = true | None => True end
  | _ => True
  end.

Lemma overrides_app l g : overrides_of (l ++ [g]) = set (name g) (VNum (ratio g)) (overrides_of l).
Proof. unfold overrides_of. by rewrite fold_left_app. Qed.

Lemma overrides_names l :
  Forall (λ g, name g ≠ [] ∧ num_truthy (ratio g) = true) l →
  ∀ g, truthy (prop g (overrides_of l)) = true ↔ g ∈ map name l.
Proof.
  induction l as [|x l IH] using rev_ind; intros Hl g; [by rewrite elem_of_nil|].
  apply Forall_app in Hl as [Hl Hx]. apply Forall_singleton in Hx as [_ Hx].
  rewrite overrides_app, prop_set, map_app, elem_of_app. cbn [map]. rewrite list_elem_of_singleton.
  destruct (decide (name x = g)) as [<-|Hn]; [cbn [truthy]; naive_solver|]. rewrite (IH Hl). naive_solver.
Qed.

Lemma agree_set_groups l o v v' : groups_agree (setGroups l o v) → groupList v' = l → groupOverrides v' = o → groups_agree v'.
Proof. unfold groups_agree, names. simpl. by intros H -> ->. Qed.

Lemma agree_add g v : groups_agree v → groups_agree (addGroup g v).
Proof.
  intros (Hn & Ho & He). unfold addGroup. destruct (str_truthy g && _) eqn:E; [|done].
  apply andb_true_iff in E as [Hg Hf]. apply negb_true_iff in Hf.
  assert (g ∉ names v) as Hnew by (intros Hin; apply Ho in Hin; congruence).
  unfold groups_agree, names. simpl. rewrite map_app. simpl. split_and!.
  - apply NoDup_app. split; [done|]. split; [set_solver|apply NoDup_singleton].
  - intros x. rewrite prop_set, elem_of_app, list_elem_of_singleton. fold (names v). rewrite <- Ho.
    destruct (decide (g = x)) as [<-|]; naive_solver.
  - apply Forall_app. split; [done|]. apply Forall_singleton. by destruct g.
Qed.

Lemma map_name_insert (l : list group) i g g' : l !! i = Some g → name g' = name g → map name (<[i := g']> l) = map name l.
Proof.
  intros Hi Hg. etransitivity; [exact (list_fmap_insert name l i g')|]. rewrite Hg. apply list_insert_id.
  by rewrite list_lookup_fmap, Hi.
Qed.

Lemma agree_ratio i r v : num_truthy r = true → groups_agree v → groups_agree (setRatio i r v).
Proof.
  intros Hr (Hn & Ho & He). unfold setRatio. destruct (groupList v !! i) as [g|] eqn:Hi; [|done].
  assert (name g ∈ names v) as Hin by (apply list_elem_of_fmap; exists g; split; [done|by eapply list_elem_of_lookup_2]).
  assert (str_truthy (name g) = true) as -> by (rewrite Forall_forall in He; apply str_truthy_true, He, Hin).
  unfold groups_agree, names. simpl. rewrite (map_name_insert _ _ _ (mk_group (group_id g) (name g) r) Hi eq_refl).
  split_and!; [done| |done]. intros x. rewrite prop_set. destruct (decide (name g = x)) as [<-|]; [|apply Ho].
  cbn [truthy]. tauto.
Qed.

Lemma delete_spec {A} (l : list A) i a :
  NoDup l → l !! i = Some a → NoDup (delete i l) ∧ ∀ x, x ∈ delete i l ↔ x ∈ l ∧ x ≠ a.
Proof.
  revert i. induction l as [|y l IH]; intros [|i] Hn Hi; try done; apply NoDup_cons in Hn as [Hy Hn]; simpl in Hi |- *.
  - injection Hi as ->. split; [done|]. intros x. rewrite elem_of_cons. naive_solver.
  - destruct (IH i Hn Hi) as [H1 H2]. split.
    + apply NoDup_cons. split; [|done]. rewrite H2. tauto.
    + intros x. rewrite !elem_of_cons, H2. apply list_elem_of_lookup_2 in Hi. naive_solver.
Qed.

Lemma agree_remove i v : groups_agree v → groups_agree (removeGroup i v).
Proof.
  intros (Hn & Ho & He). unfold removeGroup. destruct (groupList v !! i) as [g|] eqn:Hi; [|done].
  assert (names v !! i = Some (name g)) as Hni by (unfold names; by rewrite list_lookup_fmap, Hi).
  assert (str_truthy (name g) = true) as -> by (rewrite Forall_forall in He; apply str_truthy_true, He; by eapply list_elem_of_lookup_2).
  assert (map name (delete i (groupList v)) = delete i (names v)) as Hd by exact (list_fmap_delete name _ _).
  destruct (delete_spec _ _ _ Hn Hni) as [Hn' Hd'].
  unfold groups_agree. change (names (setGroups (delete i (groupList v)) (del (name g) (groupOverrides v)) v))
    with (map name (delete i (groupList v))). rewrite Hd. split_and!; [done| |].
  - intros x. rewrite Hd'. cbn [setGroups groupOverrides]. unfold prop. rewrite get_del.
    destruct (decide (name g = x)) as [<-|Hx]; [split; [done|tauto]|]. fold (prop x (groupOverrides v)). rewrite Ho. naive_solver.
  - rewrite Forall_forall in *. intros x Hx. apply Hd' in Hx as [Hx _]. by apply He.
Qed.

Lemma agree_loaded data q v :
  Forall (λ g, name g ≠ [] ∧ num_truthy (ratio g) = true) (group_entries data) → NoDup (map name (group_entries data)) →
  groups_agree (loaded kept data q v).
Proof.
  intros Hf Hn. destruct (user_loaded_fields data q v) as (_ & _ & Hl & _).
  assert (groupOverrides (loaded kept data q v) = overrides_of (groupList (loaded kept data q v))) as Ho.
  { unfold loaded, setValues. simpl. by destruct (visible v). }
  unfold groups_agree, names. rewrite Ho, Hl. split_and!; [done|by apply overrides_names|].
  apply Forall_map. eapply Forall_impl; [exact Hf|]. by intros g [].
Qed.

Lemma agree_step s e : groups_agree (now s) → event_ok s e → groups_agree (now (step s e)).
Proof.
  intros H He.
  assert (∀ b id s', groups_agree (now s') → groups_agree (now (rendered kept b id s'))) as Hr.
  { intros b id s' H'. unfold rendered. destruct (strict_eq _ _); simpl; by destruct (b && _). }
  assert (∀ id s', groups_agree (now s') → groups_agree (now (askUser engine_error id s'))) as Ha.
  { intros id s' H'. unfold askUser. by destruct (url_of id). }
  destruct e as [b id| |f x|selfId| |x| | | |g|i x|i|i res|i error]; cbn [UserEditor.step]; try done.
  - by apply Hr.
  - by apply Hr.
  - simpl. by destruct (visible _).
  - destruct (_ && _); [|done]. unfold submit. by destruct (payload _).
  - simpl. unfold addLocalQuota. by destruct (num_truthy _).
  - by apply agree_add.
  - simpl in He. destruct (new_ratio x) as [r|]; [by apply agree_ratio|done].
  - by apply agree_remove.
  - simpl in He. destruct (calls s !! i) as [w|]; [|done].
    assert (groups_agree (now (take_call i s))) as H' by done. revert H' He. generalize (take_call i s). clear H s.
    intros s H He. destruct w as [id|id|id selfId| |]; simpl.
    + unfold groups_answered. apply Ha. by destruct (truthy _).
    + unfold user_answered. destruct (parts_of res) as [[[[] m] dt]|]; [|done..]. destruct dt as [| | | | | |data]; try done.
      destruct (quotaToDisplayAmount _ _); [|done]. destruct He; by apply agree_loaded.
    + unfold save_answered. destruct (parts_of res) as [[[[] m] dt]|]; [|done..]. by destruct (is_self _ _).
    + unfold self_answered. by destruct (truthy _).
    + by apply Hr.
  - destruct (calls s !! i) as [[id|id|id selfId| |]|]; simpl; try done. by apply Ha.
Qed.

(** Events as they come, each as it can be in its state. *)
Inductive reachable : state → Prop :=
  | reachable_init : reachable init
  | reachable_step s e : reachable s → event_ok s e → reachable (step s e).

(** Whatever is loaded, chosen, edited and removed, the list of ratios has each group
    once, and the groups that can be chosen are those of the server that are not in it. *)
Theorem groups_once s :
  reachable s →
  NoDup (names (now s)) ∧
  ∀ l, availableGroups (now s) = VArr (map VStr l) →
    offered (now s) = map VStr (filter (λ g, g ∉ names (now s)) l).
Proof.
  intros H. assert (groups_agree (now s)) as (Hn & Ho & _).
  { induction H as [|s e _ IH He]; [|by apply agree_step]. split_and!; [apply NoDup_nil_2| |by constructor].
    intros g. split; [done|]. intros Hg. by apply elem_of_nil in Hg. }
  split; [done|]. intros l. unfold offered. intros ->. induction l as [|g l IH]; [done|]. simpl.
  destruct (truthy (prop g (groupOverrides (now s)))) eqn:E; simpl.
  - apply Ho in E. rewrite IH, filter_cons_False; [done|]. tauto.
  - rewrite IH, filter_cons_True; [done|]. intros Hg. apply Ho in Hg. congruence.
Qed.
End laws.

(** ** Witnesses *)

#[local] Transparent u.

Definition usd : display := mk_display None None.
Definition fields (values : props) : props :=
  List.filter (λ kv, existsb (λ k, bool_decide (kv.1 = u k)) ["username"; "password"; "display_name"; "remark"]%string) values.
Definition go (s : state) (l : list event) : state := run (λ x, x) VUndef usd (Some true) fields s l.

Definition answer (data : props) : value :=
  VObj [(u "data", VObj [(u "success", VBool true); (u "message", VStr []); (u "data", VObj data)])].
Lemma username_kept values : prop (u "username") (fields values) = prop (u "username") values.
Proof.
  unfold prop, fields. induction values as [|[k x] values IH]; [done|]. cbn [List.filter fst].
  destruct (decide (k = u "username")) as [->|Hk].
  - replace (existsb _ _) with true by (vm_compute; reflexivity). cbn [get]. by rewrite !decide_True.
  - destruct (existsb _ _); cbn [get]; by rewrite !decide_False.
Qed.

Definition no_groups : value := VObj [(u "data", VObj [(u "success", VBool false)])].
Definition alice (ratios : string) : props :=
  [(u "group_ratio", VStr (j ratios)); (u "quota", num_value 2500000); (u "username", VStr (u "alice"))].
Definition root_user : props := [(u "quota", num_value 0); (u "username", VStr (u "root"))].

(** Alice is edited while the account's own load, made when the page came, is in flight. *)
Definition edited : state := go init [Props true (num_value 7); Failure 0 VUndef; Answer 0 no_groups].

Definition ratios : string := "{`default`:1,`vip`:0.35}".

Lemma ratios_come_back_witness :
  let s := step (λ x, x) VUndef usd (Some true) fields edited (Answer 1 (answer (alice ratios))) in
  ∃ p sent, payload usd (Some true) (now s) = Some p ∧ prop (u "group_ratio") p = VStr sent ∧
    json_parse sent = json_parse (j ratios).
Proof.
  intros s. destruct (payload usd (Some true) (now s)) as [p|] eqn:Hp; [|vm_compute in Hp; discriminate Hp].
  destruct (json_parse (j ratios)) as [[| | | | | |o]|] eqn:Ho; try (vm_compute in Ho; discriminate Ho).
  assert (truthy (userId (now edited)) = true) as H1 by (vm_compute; reflexivity).
  assert (calls edited !! 1 = Some (LoadUser (num_value 7))) as H2 by (vm_compute; reflexivity).
  assert (answers usd (answer (alice ratios)) (alice ratios) (ndiv (num_of_Z 2500000) (num_of_Z 1000000))) as H3
    by (split; [eexists; reflexivity|vm_compute; reflexivity]).
  assert (prop (u "group_ratio") (alice ratios) = VStr (j ratios)) as H4 by (vm_compute; reflexivity).
  assert (json_ok (VObj o) = true ∧ forallb (λ kv, plain_name kv.1 && two_digits kv.2) o = true) as [H5 H6].
  { vm_compute in Ho. injection Ho as <-. vm_compute. split; reflexivity. }
  destruct (ratios_come_back (λ x, x) VUndef usd (Some true) fields edited 1 (num_value 7) (answer (alice ratios))
    (alice ratios) (ndiv (num_of_Z 2500000) (num_of_Z 1000000)) (j ratios) o p eq_refl H1 H2 H3 H4 Ho H5 H6 Hp)
    as (sent & E1 & E2).
  exists p, sent. split; [reflexivity|]. split; [exact E1|exact E2].
Defined.

(** The answer about Alice comes first, then that about root: root's name is sent for 7. *)
Lemma late_user_saved_as_other_witness :
  let s := go edited [Answer 1 (answer (alice "{}")); Answer 0 (answer root_user)] in
  ∃ body text, hd Refresh (log (go s [Submit (num_value 1)])) = Put (u "/api/user/") (VObj body) ∧
    prop (u "username") body = VStr (u "root") ∧ to_string (num_value 7) = Some text ∧
    prop (u "id") body = VNum (parse_int_text text).
Proof.
  pose (s0 := go edited [Answer 1 (answer (alice "{}"))]).
  assert (∀ values, prop (u "username") (fields values) = prop (u "username") values) as Hk by exact username_kept.
  assert (visible (now s0) = true) as H1 by (vm_compute; reflexivity).
  assert (truthy (userId (now s0)) = true) as H2 by (vm_compute; reflexivity).
  assert (calls s0 !! 0 = Some (LoadUser VUndef)) as H3 by (vm_compute; reflexivity).
  assert (answers usd (answer root_user) root_user (num_of_Z 0)) as H4
    by (split; [eexists; reflexivity|vm_compute; reflexivity]).
  assert (props_sorted root_user) as H5 by (apply (bool_decide_unpack _); vm_compute; exact I).
  assert (prop (u "username") root_user = VStr (u "root")) as H6 by (vm_compute; reflexivity).
  assert (u "root" ≠ []) as H7 by discriminate.
  assert (payload usd (Some true) (now (step (λ x, x) VUndef usd (Some true) fields s0 (Answer 0 (answer root_user)))) ≠ None) as H8
    by (vm_compute; discriminate).
  destruct (late_user_saved_as_other (λ x, x) VUndef usd (Some true) fields s0 0 VUndef (answer root_user) root_user
    (num_of_Z 0) (num_value 1) (u "root") Hk H1 H2 H3 H4 H5 H6 H7 H8) as (body & text & E1 & E2 & E3 & E4).
  exists body, text. cbv zeta. split; [|split; [exact E2|split; [exact E3|exact E4]]].
  exact (f_equal (hd Refresh) E1).
Defined.

Lemma groups_once_witness :
  let s := go edited [Answer 1 (answer (alice "{`vip`:0.5}")); SelectGroup (u "vip"); SelectGroup (u "pro")] in
  names (now s) = [u "vip"; u "pro"] ∧ NoDup (names (now s)).
Proof.
  split; [vm_compute; reflexivity|].
  refine (proj1 (groups_once (λ x, x) VUndef usd (Some true) fields _ _)).
  unfold edited, go, run. cbn [fold_left].
  repeat (apply reachable_step; [|first [exact I | vm_compute; exact I | idtac]]); [apply reachable_init|].
  vm_compute. split; [repeat constructor; discriminate|apply NoDup_singleton].
Defined.

(** A ratio below half a hundredth is 0 after a save that touches nothing. *)
Example small_ratio_lost :
  let s := go edited [Answer 1 (answer (alice "{`vip`:0.004}"))] in
  prop (u "group_ratio") (default [] (payload usd (Some true) (now s))) = VStr (j "{`vip`:0}").
Proof. vm_compute. reflexivity. Qed.

(** What was added to the balance stays when the load of the next user is refused, and is
    sent for that user. *)
Example amount_of_other_user :
  let s := go edited [Answer 1 (answer (alice "{}")); Amount (num_value 5); AddOk; Props true (num_value 8);
    Answer 1 no_groups; Answer 1 no_groups] in
  let p := default [] (payload usd (Some true) (now s)) in
  (prop (u "id") p, prop (u "quota_delta") p, prop (u "username") p) = (num_value 8, num_value 5000000, VStr (u "alice")).
Proof. vm_compute. reflexivity. Qed.

(** A load that fails leaves the dialog loading, and its button with it. *)
Example failed_load_stays :
  let s := go edited [Failure 1 VUndef; Failure 0 VUndef] in (loading (now s), calls s) = (true, []).
Proof. vm_compute. reflexivity. Qed.
