(* ===== verification/TokenEditor.v ===== *)
(** * The editor of a token
    [src/web/src/components/table/tokens/modals/EditTokenModal.jsx] with
    [QuotaAmountField.jsx]: the dialog that makes a token or edits the one of its property.
    The form is a component of a library: [told] is what it holds after it had some values
    and was told others.

    A save that fails leaves the dialog loading, and no new token can be made until the
    page is loaded again; a save that is refused empties the form of the token that is
    still edited. *)

From Stdlib Require Import SpecFloat.
From stdpp Require Import base numbers option strings sets list.
From S2P Require Import Prelude JsString JsNumber JsValue Json JsOps Session OptionForms Amounts.

Definition num_value (z : Z) : value := VNum (num_of_Z z).

(** ** State *)

Record view := mk_view {
  visible : bool; tokenId : value; loading : bool; userGroups : list value; advancedOpen : bool; form : props;
}.

Inductive effect :=
  | Get (url : jsstr)
  | Put (body : value)
  | Post (body : value)
  | ShowError (v : value)
  | ShowSuccess (v : value)
  | Refresh
  | HandleClose
  | Unhandled (v : value).

Inductive waiting := LoadGroups | LoadToken | Saving (edits : bool).

Record state := mk_state { now : view; calls : list waiting; log : list effect }.

Definition emit e s := mk_state (now s) (calls s) (e :: log s).
Definition with_calls l s := mk_state (now s) l (log s).
Definition suspend (w : waiting) (s : state) : state := with_calls (calls s ++ [w]) s.
Definition on_view (f : view → view) (s : state) : state := mk_state (f (now s)) (calls s) (log s).

Definition setProps b id v := mk_view b id (loading v) (userGroups v) (advancedOpen v) (form v).
Definition setLoading b v := mk_view (visible v) (tokenId v) b (userGroups v) (advancedOpen v) (form v).
Definition setUserGroups l v := mk_view (visible v) (tokenId v) (loading v) l (advancedOpen v) (form v).
Definition setAdvancedOpen b v := mk_view (visible v) (tokenId v) (loading v) (userGroups v) b (form v).
Definition setForm f v := mk_view (visible v) (tokenId v) (loading v) (userGroups v) (advancedOpen v) f.

Definition isEdit (v : view) : bool := negb (is_undef (tokenId v)).

Definition initValues : props :=
  [(u "name", VStr []); (u "remain_quota", num_value 0); (u "unlimited_quota", VBool true); (u "group", VStr []);
   (u "allow_ips", VStr []); (u "block_ips", VStr [])].

Section editor.
Context (t : value → value) (engine_error : value) (d : display) (told : props → props → props).

Definition throws (s : state) : state := emit (Unhandled engine_error) s.

(** The form is there while the dialog is. *)
Definition setValues (values : props) (v : view) : view :=
  if visible v then setForm (told (form v) values) v else v.

(** *** Loading *)

(** [{label, value: name, ...info}]; a null has no [desc]. *)
Definition group_option (kv : jsstr * value) : option value :=
  desc ← read (u "desc") kv.2;
  label ← (if truthy desc then text ← to_string desc; Some (kv.1 ++ u " · " ++ text) else Some kv.1);
  Some (VObj (spread [(u "label", VStr label); (u "value", VStr kv.1)] (own_entries kv.2))).

(** Whatever throws is only written to the console. *)
Definition groups_answered (res : value) (s : state) : state :=
  match parts_of res with
  | Some (true, _, data) =>
      match mapM group_option (own_entries (value_or data (VObj []))) with
      | Some l => on_view (setUserGroups l) s
      | None => s
      end
  | _ => s
  end.

Definition loadToken (s : state) : state :=
  let s := on_view (setLoading true) s in
  match to_string (tokenId (now s)) with
  | Some text => suspend LoadToken (emit (Get (u "/api/token/" ++ text)) s)
  | None => throws s
  end.

(** [v ?? ''] *)
Definition or_empty_text (v : value) : value := match v with VUndef | VNull => VStr [] | _ => v end.

Definition token_answered (res : value) (s : state) : state :=
  match parts_of res with
  | None => throws s
  | Some (true, _, VObj data) =>
      let allowIps := or_empty_text (prop (u "allow_ips") data) in
      let blockIps := or_empty_text (prop (u "block_ips") data) in
      match quotaToDisplayAmount d (value_or (prop (u "remain_quota") data) (num_value 0)) with
      | Some q =>
          let values := set (u "block_ips") blockIps (set (u "allow_ips") allowIps
            (set (u "remain_quota") (VNum q) (spread initValues data))) in
          on_view (λ v, setLoading false
            (let v' := setValues values v in if truthy allowIps || truthy blockIps then setAdvancedOpen true v' else v')) s
      | None => throws s
      end
  | Some (true, _, _) => throws s
  | Some (false, message, _) => on_view (setLoading false) (emit (ShowError message) s)
  end.

(** A render with other properties, and its effect where they changed.  The form is made
    anew when the dialog opens and when it turns from a new token to one that is edited
    or back. *)
Definition rendered (b : bool) (id : value) (s : state) : state :=
  let v := now s in
  if eqb b (visible v) && strict_eq id (tokenId v) then s else
  let fresh := b && (negb (visible v) || negb (eqb (is_undef id) (is_undef (tokenId v)))) in
  let s := on_view (λ v, let v' := setProps b id v in if fresh then setForm initValues v' else v') s in
  if b then
    let s := on_view (setAdvancedOpen false) (suspend LoadGroups (emit (Get (u "/api/user/self/groups")) s)) in
    if isEdit (now s) then loadToken s else on_view (setValues initValues) s
  else s.

(** *** Saving *)

(** [(values.name || '').trim() === '' ? 'default' : values.name.trim()] *)
Definition new_name (v : value) : option jsstr :=
  match value_or v (VStr []) with
  | VStr s => Some (str_or (trim s) (u "default"))
  | _ => None
  end.

Definition submit (s : state) : state :=
  let v := now s in
  let s := on_view (setLoading true) s in
  match displayAmountToQuota d (prop (u "remain_quota") (form v)) with
  | None => throws s
  | Some q =>
      let inputs := set (u "remain_quota") (VNum q) (form v) in
      if isEdit v then
        match to_string (tokenId v) with
        | Some text => suspend (Saving true) (emit (Put (VObj (set (u "id") (VNum (parse_int_text text)) inputs))) s)
        | None => throws s
        end
      else
        match new_name (prop (u "name") (form v)) with
        | Some name => suspend (Saving false) (emit (Post (VObj (set (u "name") (VStr name) inputs))) s)
        | None => throws s
        end
  end.

Definition saved_text (edits : bool) : value :=
  VStr (if edits then u "令牌更新成功！" else u "令牌创建成功，请在列表页面点击复制获取令牌！").

(** The form is emptied either way. *)
Definition save_answered (edits : bool) (res : value) (s : state) : state :=
  match parts_of res with
  | None => throws s
  | Some (success, message, _) =>
      let s := if success then emit HandleClose (emit Refresh (emit (ShowSuccess (t (saved_text edits))) s))
               else emit (ShowError (t message)) s in
      on_view (λ v, setValues initValues (setLoading false v)) s
  end.

(** *** Steps *)

(** The form calls [submit] where the rules of its fields are met. *)
Definition filled (v : value) : bool := match v with VUndef | VNull | VStr [] => false | _ => true end.
Definition valid (f : props) : bool :=
  filled (prop (u "name") f) && filled (prop (u "group") f) &&
  (truthy (prop (u "unlimited_quota") f) || filled (prop (u "remain_quota") f)).

Inductive event :=
  | Props (b : bool) (id : value)
  | Cancel
  | Typed (field : jsstr) (x : value)
  | ToggleAdvanced
  | Submit
  | Answer (i : nat) (res : value)
  | Failure (i : nat) (error : value).

Definition take_call (i : nat) (s : state) : state := with_calls (delete i (calls s)) s.

Definition step (s : state) (e : event) : state :=
  match e with
  | Props b id => rendered b id s
  | Cancel => emit HandleClose s
  | Typed field x => on_view (λ v, if visible v then setForm (set field x (form v)) v else v) s
  | ToggleAdvanced => on_view (λ v, setAdvancedOpen (negb (advancedOpen v)) v) s
  | Submit => if visible (now s) && negb (loading (now s)) && valid (form (now s)) then submit s else s
  | Answer i res =>
      match calls s !! i with
      | Some LoadGroups => groups_answered res (take_call i s)
      | Some LoadToken => token_answered res (take_call i s)
      | Some (Saving edits) => save_answered edits res (take_call i s)
      | None => s
      end
  | Failure i error =>
      match calls s !! i with
      | Some LoadGroups => take_call i s
      | Some LoadToken | Some (Saving _) => emit (Unhandled error) (take_call i s)
      | None => s
      end
  end.

Definition run (s : state) (l : list event) : state := fold_left step l s.
Definition init : state := mk_state (mk_view false VUndef false [] false []) [] [].

(** ** Laws *)

(** A save that fails is told to nobody here and its flag stays: whatever is done then
    with new tokens, nothing is sent any more. *)
Definition blocked (s : state) : Prop :=
  loading (now s) = true ∧ Forall (λ w, w = LoadGroups) (calls s).
Definition about_new (e : event) : bool := match e with Props _ id => is_undef id | _ => true end.
Definition sends (e : effect) : bool := match e with Put _ | Post _ => true | _ => false end.

Lemma blocked_step s e :
  blocked s → about_new e = true →
  blocked (step s e) ∧ List.filter sends (log (step s e)) = List.filter sends (log s).
Proof.
  intros [Hl Hc] He. destruct e as [b id| |f x| | |i res|i error]; cbn [step]; try done.
  - destruct id; try done. unfold rendered. destruct (eqb _ _ && _); [done|].
    destruct b; [|done]. cbv zeta. unfold isEdit. cbn -[setValues].
    assert (∀ v, loading (setValues initValues v) = loading v) as Hs by (intros v; unfold setValues; by destruct (visible v)).
    destruct (negb _ || negb _); cbn -[setValues]; (split; [|done]); unfold blocked; cbn -[setValues]; rewrite Hs;
      (split; [done|]); apply Forall_app; by repeat constructor.
  - split; [|done]. split; [|done]. simpl. by destruct (visible (now s)).
  - rewrite Hl, andb_false_r. done.
  - destruct (calls s !! i) as [w|] eqn:Ei; [|done].
    assert (w = LoadGroups) as -> by by apply (Forall_lookup_1 _ _ _ _ Hc Ei).
    assert (blocked (take_call i s)) as Hb by (split; [done|by apply Forall_delete]).
    unfold groups_answered. destruct (parts_of res) as [[[[] m] dt]|]; try done. by destruct (mapM _ _).
  - destruct (calls s !! i) as [w|] eqn:Ei; [|done].
    assert (w = LoadGroups) as -> by by apply (Forall_lookup_1 _ _ _ _ Hc Ei).
    split; [|done]. split; [done|by apply Forall_delete].
Qed.

(** When a save of a token fails, the dialog is left loading: from then on, with as many
    new tokens opened, typed, closed and submitted as one likes, nothing is sent. *)
Theorem failed_save_blocks s i edits error l :
  loading (now s) = true → calls s !! i = Some (Saving edits) → Forall (λ w, w = LoadGroups) (delete i (calls s)) →
  forallb about_new l = true →
  let s' := run (step s (Failure i error)) l in
  loading (now s') = true ∧ List.filter sends (log s') = List.filter sends (log s).
Proof.
  intros Hl Hi Hc Ha. cbv zeta.
  assert (blocked (step s (Failure i error)) ∧ List.filter sends (log (step s (Failure i error))) = List.filter sends (log s)) as [Hb Hs].
  { cbn [step]. rewrite Hi. done. }
  rewrite <- Hs. clear Hs Hl Hi Hc. revert Hb. generalize (step s (Failure i error)). clear s.
  induction l as [|e l IH]; intros s Hb; [by destruct Hb|]. simpl in Ha. apply andb_true_iff in Ha as [He Ha].
  destruct (blocked_step s e Hb He) as [Hb' Hs]. destruct (IH Ha _ Hb') as [H1 H2]. split; [done|]. simpl. by rewrite H2.
Qed.
(** A save that is refused empties the form, but the same token is still edited: what is
    saved next, with a name and a group typed again, has no balance and no addresses that
    are allowed or blocked, whatever the token had. *)
Theorem refused_save_empties s i res m data name group text :
  (∀ f k, k ∈ [u "remain_quota"; u "allow_ips"; u "block_ips"] → prop k (told f initValues) = prop k initValues) →
  visible (now s) = true → isEdit (now s) = true → to_string (tokenId (now s)) = Some text →
  calls s !! i = Some (Saving true) → parts_of res = Some (false, m, data) →
  filled name = true → filled group = true →
  let s' := run s [Answer i res; Typed (u "name") name; Typed (u "group") group] in
  ∃ body, log (step s' Submit) = Put (VObj body) :: log s' ∧
    prop (u "id") body = VNum (parse_int_text text) ∧ prop (u "remain_quota") body = num_value 0 ∧
    prop (u "allow_ips") body = VStr [] ∧ prop (u "block_ips") body = VStr [].
Proof.
  intros Htold Hv He Ht Hi Hp Hn Hg. cbv zeta. unfold run. cbn [fold_left].
  set (f := set (u "group") group (set (u "name") name (told (form (now s)) initValues))).
  assert (now (step (step (step s (Answer i res)) (Typed (u "name") name)) (Typed (u "group") group)) =
    setForm f (setLoading false (now s))) as Hnow.
  { cbn [step]. rewrite Hi. unfold save_answered. rewrite Hp. unfold setValues. simpl. rewrite Hv. simpl. rewrite Hv. simpl. by rewrite Hv. }
  set (s3 := step (step (step s (Answer i res)) (Typed (u "name") name)) (Typed (u "group") group)) in *.
  assert (∀ k, k ≠ u "group" → k ≠ u "name" → prop k f = prop k (told (form (now s)) initValues)) as Hf.
  { intros k H1 H2. unfold f. rewrite !prop_set, !decide_False by congruence. done. }
  assert (prop (u "remain_quota") f = num_value 0 ∧ prop (u "allow_ips") f = VStr [] ∧ prop (u "block_ips") f = VStr []) as (F1 & F2 & F3).
  { split_and!; (rewrite Hf; [|keys_differ..]); (rewrite Htold; [vm_compute; reflexivity|set_solver]). }
  assert (valid f = true) as Hvalid.
  { assert (prop (u "name") f = name) as N1 by (unfold f; rewrite !prop_set, decide_False, decide_True by first [done | keys_differ]; done).
    assert (prop (u "group") f = group) as N2 by (unfold f; by rewrite prop_set, decide_True).
    unfold valid. rewrite N1, N2, Hn, Hg, F1. apply orb_true_r. }
  assert (step s3 Submit = submit s3) as -> by (cbn [step]; rewrite Hnow; simpl; by rewrite Hv, Hvalid).
  unfold submit. rewrite Hnow. cbn [form setForm setLoading]. rewrite F1.
  replace (displayAmountToQuota d (num_value 0)) with (Some (num_of_Z 0)) by done. cbv zeta.
  assert (isEdit (setForm f (setLoading false (now s))) = true) as -> by exact He.
  cbn [tokenId setForm setLoading]. rewrite Ht.
  eexists. split; [reflexivity|].
  assert (u "allow_ips" ≠ u "remain_quota" ∧ u "allow_ips" ≠ u "id" ∧ u "block_ips" ≠ u "remain_quota" ∧ u "block_ips" ≠ u "id" ∧
    u "remain_quota" ≠ u "id") as (K1 & K2 & K3 & K4 & K5) by (repeat split; keys_differ).
  rewrite !prop_set, !decide_True by done. rewrite !decide_False by congruence. done.
Qed.
End editor.

(** ** Witnesses *)

Definition usd : display := mk_display None None.
Definition go (s : state) (l : list event) : state := run (λ x, x) VUndef usd spread s l.
Definition refusal : value := VObj [(u "data", VObj [(u "success", VBool false); (u "message", VStr (u "taken"))])].
Definition limited : value :=
  VObj [(u "data", VObj [(u "success", VBool true); (u "data", VObj [
    (u "allow_ips", VStr (u "10.0.0.0/8")); (u "group", VStr (u "vip")); (u "name", VStr (u "key"));
    (u "remain_quota", num_value 2500000); (u "unlimited_quota", VBool false)])])].

(** Values that are merged into those of the form. *)
Lemma merged f k : k ∈ [u "remain_quota"; u "allow_ips"; u "block_ips"] → prop k (spread f initValues) = prop k initValues.
Proof.
  intros Hk. unfold prop. rewrite get_spread by (apply (bool_decide_unpack _); vm_compute; exact I).
  destruct (get k initValues) as [v|] eqn:E; [done|]. exfalso.
  apply get_None in E. apply E. clear E. revert k Hk. apply Forall_forall.
  apply (bool_decide_unpack _). vm_compute. exact I.
Qed.

Lemma failed_save_blocks_witness :
  let s := go init [Props true VUndef; Typed (u "name") (VStr (u "a")); Typed (u "group") (VStr (u "vip")); Submit] in
  let l := [Props false VUndef; Props true VUndef; Typed (u "name") (VStr (u "b")); Typed (u "group") (VStr (u "vip")); Submit] in
  loading (now (go (step (λ x, x) VUndef usd spread s (Failure 1 VUndef)) l)) = true.
Proof.
  intros s l.
  assert (loading (now s) = true) as H1 by (vm_compute; reflexivity).
  assert (calls s !! 1 = Some (Saving false)) as H2 by (vm_compute; reflexivity).
  assert (Forall (λ w, w = LoadGroups) (delete 1 (calls s))) as H3 by (vm_compute; repeat constructor).
  assert (forallb about_new l = true) as H4 by (vm_compute; reflexivity).
  exact (proj1 (failed_save_blocks (λ x, x) VUndef usd spread s 1 false VUndef l H1 H2 H3 H4)).
Defined.

(** A token with 2.5 dollars and a list of addresses is saved without both. *)
Lemma refused_save_empties_witness :
  let s := go init [Props true (num_value 7); Answer 1 limited; Submit] in
  form (now s) = [(u "name", VStr (u "key")); (u "remain_quota", VNum (ndiv (num_of_Z 25) (num_of_Z 10)));
    (u "unlimited_quota", VBool false); (u "group", VStr (u "vip")); (u "allow_ips", VStr (u "10.0.0.0/8")); (u "block_ips", VStr [])] ∧
  let s' := go s [Answer 1 refusal; Typed (u "name") (VStr (u "key2")); Typed (u "group") (VStr (u "vip"))] in
  ∃ body, log (go s' [Submit]) = Put (VObj body) :: log s' ∧
    prop (u "id") body = num_value 7 ∧ prop (u "remain_quota") body = num_value 0 ∧
    prop (u "allow_ips") body = VStr [] ∧ prop (u "block_ips") body = VStr [].
Proof.
  intros s. split; [vm_compute; reflexivity|].
  assert (visible (now s) = true) as H1 by (vm_compute; reflexivity).
  assert (isEdit (now s) = true) as H2 by (vm_compute; reflexivity).
  assert (to_string (tokenId (now s)) = Some (u "7")) as H3 by (vm_compute; reflexivity).
  assert (calls s !! 1 = Some (Saving true)) as H4 by (vm_compute; reflexivity).
  assert (parts_of refusal = Some (false, VStr (u "taken"), VUndef)) as H5 by (vm_compute; reflexivity).
  assert (VNum (parse_int_text (u "7")) = num_value 7) as H6 by (vm_compute; reflexivity).
  pose proof (refused_save_empties (λ x, x) VUndef usd spread s 1 refusal (VStr (u "taken")) VUndef
    (VStr (u "key2")) (VStr (u "vip")) (u "7") merged H1 H2 H3 H4 H5 eq_refl eq_refl) as H.
  rewrite H6 in H. exact H.
Defined.
