(* ===== verification/TagEditor.v ===== *)
(** * The editor of a tag
    [src/web/src/components/table/channels/modals/EditTagModal.jsx]: what is written over all
    channels with a tag: models, groups, the mapping of models and the overrides.  The form
    is a component of a library: [set_values] and [set_value] are what its functions of
    these names do to its values.

    What is sent has been checked; the models of one tag are sent for another when their
    answer comes late. *)

From Stdlib Require Import SpecFloat.
From stdpp Require Import base numbers option strings sets list.
From S2P Require Import Prelude JsString JsNumber JsValue Json JsOps Session OptionForms.

(** ** State *)

Definition originInputs : props :=
  [(u "tag", VStr []); (u "new_tag", VNull); (u "model_mapping", VNull); (u "groups", VArr []); (u "models", VArr []);
   (u "param_override", VNull); (u "header_override", VNull)].

(** The options are kept by their values; their labels are the same. *)
Record view := mk_view {
  visible : bool; tag : value; loading : bool;
  originModelOptions : list value; modelOptions : list value; groupOptions : list value;
  customModel : jsstr; modelSearchValue : jsstr; inputs : props; form : props;
}.

Inductive effect :=
  | Get (url : jsstr)
  | Put (body : value)
  | ShowError (v : value)
  | ShowInfo (text : jsstr)
  | ShowWarning (text : jsstr)
  | ShowSuccess (text : jsstr)
  | AddedModels (models : list jsstr)
  | Refresh
  | HandleClose
  | Unhandled (v : value).

(** A load of models knows the tag of its render. *)
Inductive waiting := LoadModels | LoadGroups | LoadTag (x : value) | Saving.

Record state := mk_state { now : view; calls : list waiting; log : list effect }.

Definition emit e s := mk_state (now s) (calls s) (e :: log s).
Definition with_calls l s := mk_state (now s) l (log s).
Definition suspend (w : waiting) (s : state) : state := with_calls (calls s ++ [w]) s.
Definition on_view (f : view → view) (s : state) : state := mk_state (f (now s)) (calls s) (log s).

Definition setProps b x v := mk_view b x (loading v) (originModelOptions v) (modelOptions v) (groupOptions v)
  (customModel v) (modelSearchValue v) (inputs v) (form v).
Definition setLoading b v := mk_view (visible v) (tag v) b (originModelOptions v) (modelOptions v) (groupOptions v)
  (customModel v) (modelSearchValue v) (inputs v) (form v).
Definition setOptions a b v := mk_view (visible v) (tag v) (loading v) a b (groupOptions v)
  (customModel v) (modelSearchValue v) (inputs v) (form v).
Definition setGroupOptions l v := mk_view (visible v) (tag v) (loading v) (originModelOptions v) (modelOptions v) l
  (customModel v) (modelSearchValue v) (inputs v) (form v).
Definition setTyped a b v := mk_view (visible v) (tag v) (loading v) (originModelOptions v) (modelOptions v) (groupOptions v)
  a b (inputs v) (form v).
Definition setInputs o f v := mk_view (visible v) (tag v) (loading v) (originModelOptions v) (modelOptions v) (groupOptions v)
  (customModel v) (modelSearchValue v) o f.

Definition input (k : string) (v : view) : value := prop (u k) (inputs v).

(** [selectFilter] of [helpers/utils.jsx] over a text. *)
Definition selectFilter (lower : jsstr → jsstr) (keyword value_text label_text : jsstr) : bool :=
  match keyword with
  | [] => true
  | _ => includes (lower value_text) (lower (trim keyword)) || includes (lower label_text) (lower (trim keyword))
  end.

Section editor.
Context (t lower : jsstr → jsstr) (engine_error : value).
Context (set_values : props → props → props) (set_value : jsstr → value → props → props).

(** *** The options of models *)

Definition add_option (options : list value) (model : value) : list value :=
  if existsb (λ o, strict_eq o model) options then options else options ++ [model].

Definition chosen_models (v : view) : list value := match input "models" v with VArr l => l | _ => [] end.

Definition options_of (v : view) : list value := fold_left add_option (chosen_models v) (originModelOptions v).

(** The effects on the options and on the form, which run after the inputs or the
    options of the server have changed. *)
Definition settle (v : view) : view :=
  setOptions (originModelOptions v) (options_of v) (setInputs (inputs v) (set_values (inputs v) (form v)) v).

Definition handleInputChange (name : jsstr) (x : value) (v : view) : view :=
  settle (setInputs (set name x (inputs v)) (set_value name x (form v)) v).

(** How many options the search finds, and what is said where it finds none. *)
Definition modelSearchMatchedCount (v : view) : nat :=
  match trim (modelSearchValue v) with
  | [] => length (modelOptions v)
  | keyword =>
      length (List.filter (λ o, let text := string_or_empty o in selectFilter lower keyword text text) (modelOptions v))
  end.

Definition modelSearchHint (v : view) : option jsstr :=
  match trim (modelSearchValue v) with
  | [] => None
  | keyword => if (modelSearchMatchedCount v =? 0)%nat then Some keyword else None
  end.

(** *** Loading *)

(** [${tag}] is not encoded. *)
Definition tag_url (x : value) : option jsstr := text ← to_string x; Some (u "/api/channel/tag/models?tag=" ++ text).

Definition error_message : value := opt_read (u "message") engine_error.

(** The effect on [visible] and [tag]. *)
Definition opened (s : state) : state :=
  let x := tag (now s) in
  let s := suspend LoadGroups (emit (Get (u "/api/group/")) (suspend LoadModels (emit (Get (u "/api/channel/models")) s))) in
  let s := if truthy x then
             let s := on_view (setLoading true) s in
             match tag_url x with
             | Some url => suspend (LoadTag x) (emit (Get url) s)
             | None => on_view (setLoading false) (emit (ShowError error_message) s)
             end
           else s in
  let fresh := set (u "new_tag") x (set (u "tag") x originInputs) in
  on_view (λ v, settle (setTyped (customModel v) [] (setInputs fresh (set_values fresh (form v)) v))) s.

(** The form is made anew with the dialog, and when the tag is another. *)
Definition rendered (b : bool) (x : value) (s : state) : state :=
  let v := now s in
  let fresh := b && negb (visible v) || negb (strict_eq x (tag v)) in
  let s' := on_view (λ v, let v' := setProps b x v in if fresh then setInputs (inputs v) originInputs v' else v') s in
  if eqb b (visible v) && strict_eq x (tag v) then s' else opened s'.

(** [res.data.data.map(f)] *)
Definition listed (f : value → option value) (res : value) : option (list value) :=
  data ← read (u "data") res ≫= read (u "data");
  match data with VArr l => mapM f l | _ => None end.

Definition models_answered (res : value) (s : state) : state :=
  match listed (read (u "id")) res with
  | Some l => on_view (λ v, settle (setOptions l (modelOptions v) v)) s
  | None => emit (ShowError error_message) s
  end.

Definition groups_answered (res : value) (s : state) : state :=
  match res with
  | VUndef => s
  | _ =>
      match listed Some res with
      | Some l => on_view (setGroupOptions l) s
      | None => emit (ShowError error_message) s
      end
  end.

Definition tag_answered (res : value) (s : state) : state :=
  let body := opt_read (u "data") res in
  let s :=
    if truthy (opt_read (u "success") body) then
      match opt_read (u "data") body with
      | VStr ((_ :: _) as text) => on_view (handleInputChange (u "models") (VArr (map VStr (split_on 44%N text)))) s
      | data => if truthy data then emit (ShowError error_message) s
                else on_view (handleInputChange (u "models") (VArr [])) s
      end
    else match read (u "message") body with
         | Some m => emit (ShowError m) s
         | None => emit (ShowError error_message) s
         end in
  on_view (setLoading false) s.

(** *** Saving *)

(** What a field of JSON text gives: nothing, the text, or a refusal. *)
Inductive field_result := Absent | Sent (x : value) | Refused (text : jsstr).

Definition mapping_field (x : value) : field_result :=
  if truthy x then
    if match x with VStr text => verifyJSON text | _ => match to_string x with Some text => verifyJSON text | None => false end end
    then Sent x else Refused (u "模型映射必须是合法的 JSON 格式！")
  else Absent.

Definition list_field (x : value) : option field_result :=
  match x with
  | VArr [] => Some Absent
  | VArr l => text ← to_string (VArr l); Some (Sent (VStr text))
  | VStr (_ :: _) => None
  | VObj o => n ← to_number (prop (u "length") o); if nltb (num_of_Z 0) n then None else Some Absent
  | _ => Some Absent
  end.

Definition override_field (message : string) (x : value) : field_result :=
  match x with
  | VUndef | VNull => Absent
  | VStr text =>
      let trimmed := trim text in
      if str_truthy trimmed && negb (verifyJSON trimmed) then Refused (u message) else Sent (VStr trimmed)
  | _ => Refused (u message)
  end.

Definition put_field (k : string) (r : field_result) (data : props) : props :=
  match r with Sent x => set (u k) x data | _ => data end.

(** The body of a save, or what is told instead; [None] where [join] is no method of
    what has a length. *)
Definition save_body (x : value) (f : props) : option (props + effect) :=
  let field k := prop (u k) f in
  match mapping_field (field "model_mapping"%string) with
  | Refused text => Some (inr (ShowInfo text))
  | mapping =>
      groups ← list_field (field "groups"%string);
      models ← list_field (field "models"%string);
      match override_field "参数覆盖必须是合法的 JSON 格式！" (field "param_override"%string) with
      | Refused text => Some (inr (ShowInfo text))
      | param =>
          match override_field "请求头覆盖必须是合法的 JSON 格式！" (field "header_override"%string) with
          | Refused text => Some (inr (ShowInfo text))
          | header =>
              let data := put_field "header_override" header (put_field "param_override" param (put_field "models" models
                (put_field "groups" groups (put_field "model_mapping" mapping [(u "tag", x)])))) in
              let data := set (u "new_tag") (field "new_tag"%string) data in
              if forallb (λ k, is_undef (prop (u k) data))
                   ["model_mapping"; "groups"; "models"; "new_tag"; "param_override"; "header_override"]%string
              then Some (inr (ShowWarning (u "没有任何修改！")))
              else Some (inl data)
          end
      end
  end.

Definition handleSave (s : state) : state :=
  let v := now s in
  match save_body (tag v) (form v) with
  | Some (inl data) => suspend Saving (emit (Put (VObj data)) (on_view (setLoading true) s))
  | Some (inr told) => on_view (setLoading false) (emit told s)
  | None => on_view (setLoading true) (emit (Unhandled engine_error) s)
  end.

Definition save_answered (res : value) (s : state) : state :=
  on_view (setLoading false)
    (if truthy (opt_read (u "success") (opt_read (u "data") res))
     then emit HandleClose (emit Refresh (emit (ShowSuccess (u "标签更新成功！")) s)) else s).

(** *** Models by name *)

Definition addCustomModels (s : state) : state :=
  let v := now s in
  match trim (customModel v) with
  | [] => s
  | _ =>
      let has l m := existsb (λ x, strict_eq x (VStr m)) l in
      let added := fold_left (λ acc m, if str_truthy m && negb (has (chosen_models v) m) && negb (bool_decide (m ∈ acc))
                                       then acc ++ [m] else acc)
        (map trim (split_on 44%N (customModel v))) [] in
      let s := on_view (λ v, handleInputChange (u "models") (VArr (chosen_models v ++ map VStr added))
        (setTyped [] (modelSearchValue v) v)) s in
      emit (match added with [] => ShowInfo (t (u "未发现新增模型")) | _ => AddedModels added end) s
  end.

(** *** Steps *)

Inductive event :=
  | Props (b : bool) (x : value)
  | Cancel
  | Input (name : jsstr) (x : value)
  | Custom (text : jsstr)
  | AddCustom
  | SearchModels (text : jsstr)
  | Save
  | Answer (i : nat) (res : value)
  | Failure (i : nat) (error : value).

Definition take_call (i : nat) (s : state) : state := with_calls (delete i (calls s)) s.

Definition answered (w : waiting) (res : value) (s : state) : state :=
  match w with
  | LoadModels => models_answered res s
  | LoadGroups => groups_answered res s
  | LoadTag _ => tag_answered res s
  | Saving => save_answered res s
  end.

Definition failed (w : waiting) (error : value) (s : state) : state :=
  match w with
  | LoadModels | LoadGroups => emit (ShowError (opt_read (u "message") error)) s
  | LoadTag _ => on_view (setLoading false) (emit (ShowError (opt_read (u "message") error)) s)
  | Saving => on_view (setLoading false) (emit (ShowError error) s)
  end.

(** A field of the form tells its change after the form has taken it. *)
Definition step (s : state) (e : event) : state :=
  match e with
  | Props b x => rendered b x s
  | Cancel => emit HandleClose s
  | Input name x => on_view (handleInputChange name x) s
  | Custom text => on_view (λ v, setTyped (trim text) (modelSearchValue v) v) s
  | AddCustom => addCustomModels s
  | SearchModels text => on_view (λ v, setTyped (customModel v) text v) s
  | Save => if visible (now s) && negb (loading (now s)) then handleSave s else s
  | Answer i res => match calls s !! i with Some w => answered w res (take_call i s) | None => s end
  | Failure i error => match calls s !! i with Some w => failed w error (take_call i s) | None => s end
  end.

Definition run (s : state) (l : list event) : state := fold_left step l s.

Definition first_view : view := mk_view false VUndef false [] [] [] [] [] originInputs [].
(** Mounted with the table, when no tag is edited. *)
Definition init : state := opened (mk_state first_view [] []).
End editor.

(** The texts that the buttons of the form fill in. *)
Definition MODEL_MAPPING_EXAMPLE : value := VObj [(u "gpt-3.5-turbo", VStr (u "gpt-3.5-turbo-0125"))].
Definition old_template : value := VObj [(u "temperature", VNum (num_of_Z 0))].
Definition new_template : value :=
  VObj [(u "operations", VArr [VObj [
    (u "path", VStr (u "temperature")); (u "mode", VStr (u "set")); (u "value", VNum (ndiv (num_of_Z 7) (num_of_Z 10)));
    (u "conditions", VArr [VObj [(u "path", VStr (u "model")); (u "mode", VStr (u "prefix")); (u "value", VStr (u "gpt"))]]);
    (u "logic", VStr (u "AND"))]])].
Definition header_template : value :=
  VObj [(u "User-Agent", VStr (u "Mozilla/5.0 (Windows NT 10.0; Win64; x64) AppleWebKit/537.36 (KHTML, like Gecko) Chrome/139.0.0.0 Safari/537.36 Edg/139.0.0.0"));
    (u "Authorization", VStr (u "Bearer {api_key}"))].
Definition template_text (v : value) : jsstr := default [] (json_stringify gap2 v).

(** * Properties of the editor of a tag
    What is sent is JSON where it has to be; every chosen model has an option; models that
    are added by name are added once; the models of one tag are written over another's. *)

#[local] Opaque u.

(** ** What is sent *)

Definition json_text (x : value) : Prop := ∃ text, x = VStr text ∧ verifyJSON text = true.
Definition json_or_empty (x : value) : Prop := x = VUndef ∨ x = VStr [] ∨ json_text x.

Lemma override_checked m x y : override_field m x = Sent y → y = VStr [] ∨ json_text y.
Proof.
  destruct x; try done; simpl. destruct (str_truthy (trim s)) eqn:E; simpl.
  - destruct (verifyJSON (trim s)) eqn:V; [|done]. intros [= <-]. right. by exists (trim s).
  - intros [= <-]. left. apply str_truthy_false in E. by rewrite E.
Qed.

Lemma prop_put k k' r data : prop (u k') (put_field k r data) =
  match r with Sent x => if decide (u k = u k') then x else prop (u k') data | _ => prop (u k') data end.
Proof. unfold put_field. destruct r; [done| |done]. by rewrite prop_set. Qed.

Definition sent (r : field_result) : value := match r with Sent x => x | _ => VUndef end.

Definition body (m g l p h : field_result) (x n : value) : props :=
  set (u "new_tag") n (put_field "header_override" h (put_field "param_override" p (put_field "models" l
    (put_field "groups" g (put_field "model_mapping" m [(u "tag", x)]))))).

Ltac other_key := rewrite decide_False by keys_differ.

Lemma body_props m g l p h x n :
  prop (u "tag") (body m g l p h x n) = x ∧ prop (u "new_tag") (body m g l p h x n) = n ∧
  prop (u "model_mapping") (body m g l p h x n) = sent m ∧ prop (u "groups") (body m g l p h x n) = sent g ∧
  prop (u "models") (body m g l p h x n) = sent l ∧ prop (u "param_override") (body m g l p h x n) = sent p ∧
  prop (u "header_override") (body m g l p h x n) = sent h.
Proof.
  assert (∀ k k' r data, u k ≠ u k' → prop (u k') (put_field k r data) = prop (u k') data) as Hne.
  { intros k k' r data Hk. rewrite prop_put. destruct r; [done| |done]. by rewrite decide_False. }
  assert (∀ k r data, prop (u k) data = VUndef → prop (u k) (put_field k r data) = sent r) as Heq.
  { intros k r data Hk. rewrite prop_put. destruct r; [done| |done]. by rewrite decide_True. }
  unfold body. rewrite !prop_set. split_and!; [other_key|by rewrite decide_True|other_key..].
  - rewrite !Hne by keys_differ. by rewrite prop_cons_eq.
  - rewrite 4!Hne by keys_differ. apply Heq. by rewrite prop_cons_ne, prop_nil by keys_differ.
  - rewrite 3!Hne by keys_differ. apply Heq. rewrite Hne by keys_differ. by rewrite prop_cons_ne, prop_nil by keys_differ.
  - rewrite 2!Hne by keys_differ. apply Heq. rewrite 2!Hne by keys_differ. by rewrite prop_cons_ne, prop_nil by keys_differ.
  - rewrite Hne by keys_differ. apply Heq. rewrite 3!Hne by keys_differ. by rewrite prop_cons_ne, prop_nil by keys_differ.
  - apply Heq. rewrite 4!Hne by keys_differ. by rewrite prop_cons_ne, prop_nil by keys_differ.
Qed.

Lemma save_body_spec x f data :
  save_body x f = Some (inl data) →
  let mapping := mapping_field (prop (u "model_mapping") f) in
  let param := override_field "参数覆盖必须是合法的 JSON 格式！" (prop (u "param_override") f) in
  let header := override_field "请求头覆盖必须是合法的 JSON 格式！" (prop (u "header_override") f) in
  ∃ g l, list_field (prop (u "groups") f) = Some g ∧ list_field (prop (u "models") f) = Some l ∧
    (∀ e, mapping ≠ Refused e) ∧ (∀ e, param ≠ Refused e) ∧ (∀ e, header ≠ Refused e) ∧
    data = body mapping g l param header x (prop (u "new_tag") f).
Proof.
  unfold save_body. cbv zeta. set (m := mapping_field _). set (p := override_field _ (prop (u "param_override") f)).
  set (h := override_field _ (prop (u "header_override") f)). clearbody m p h.
  intros H. destruct (list_field (prop (u "groups") f)) as [g|]; [|by destruct m].
  destruct (list_field (prop (u "models") f)) as [l|]; [|by destruct m].
  exists g, l. cbn [mbind option_bind] in H. split_and!; [done|done|by destruct m|..].
  - destruct m; [| |done]; by destruct p.
  - destruct m; [| |done]; (destruct p; [| |done]); by destruct h.
  - destruct m; [| |done]; (destruct p; [| |done]); (destruct h; [| |done]);
      match type of H with (if ?b then _ else _) = _ => destruct b end; try done; by injection H as <-.
Qed.

Lemma save_body_told x f e :
  save_body x f = Some (inr e) → match e with ShowInfo _ | ShowWarning _ => True | _ => False end.
Proof.
  unfold save_body. cbv zeta. intros H.
  destruct (mapping_field _) as [|y|text]; [| |by injection H as <-];
    cbn [mbind option_bind] in H; (destruct (list_field (prop (u "groups") f)) as [g|]; [|done]); cbn [mbind option_bind] in H;
    (destruct (list_field (prop (u "models") f)) as [l|]; [|done]); cbn [mbind option_bind] in H;
    (destruct (override_field _ (prop (u "param_override") f)) as [|z|text]; [| |by injection H as <-]);
    (destruct (override_field _ (prop (u "header_override") f)) as [|w|text]; [| |by injection H as <-]);
    match type of H with (if ?b then _ else _) = _ => destruct b end; try done; by injection H as <-.
Qed.

Section laws.
Context (t lower : jsstr → jsstr) (engine_error : value).
Context (set_values : props → props → props) (set_value : jsstr → value → props → props).
Abbreviation step := (step t engine_error set_values set_value).
Abbreviation run := (run t engine_error set_values set_value).

Lemma log_longer {A} (e : A) l : e :: l ≠ l.
Proof. intros H. apply (f_equal length) in H. simpl in H. lia. Qed.

(** C12: Whatever the form holds, what is written over the channels of a tag has been
    checked: the mapping of models is JSON, the overrides are JSON or empty, and the
    name is that of the form for the tag that is edited. *)
Theorem tag_saves_checked s data :
  log (step s Save) = Put (VObj data) :: log s →
  prop (u "tag") data = tag (now s) ∧ prop (u "new_tag") data = prop (u "new_tag") (form (now s)) ∧
  (prop (u "model_mapping") data = VUndef ∨
   ∃ text, to_string (prop (u "model_mapping") data) = Some text ∧ verifyJSON text = true) ∧
  json_or_empty (prop (u "param_override") data) ∧ json_or_empty (prop (u "header_override") data).
Proof.
  cbn [TagEditor.step]. destruct (_ && _); [|intros H; symmetry in H; by apply log_longer in H].
  unfold handleSave. destruct (save_body _ _) as [[data'|told]|] eqn:Hb; simpl; intros H; try done.
  - injection H as ->. apply save_body_spec in Hb as (g & l & _ & _ & Hm & Hp & Hh & ->).
    destruct (body_props (mapping_field (prop (u "model_mapping") (form (now s)))) g l
      (override_field "参数覆盖必须是合法的 JSON 格式！" (prop (u "param_override") (form (now s))))
      (override_field "请求头覆盖必须是合法的 JSON 格式！" (prop (u "header_override") (form (now s))))
      (tag (now s)) (prop (u "new_tag") (form (now s)))) as (-> & -> & -> & _ & _ & -> & ->).
    split_and!; [done|done|..].
    + unfold mapping_field in *. destruct (truthy _); [|by left].
      destruct (prop (u "model_mapping") (form (now s))) as [| |b|n|text|a|o]; try (by destruct (Hm (u "x")));
        match goal with |- context [if ?b then _ else _] => destruct b eqn:E end; try (by destruct (Hm _ eq_refl)); right; simpl.
      all: try (eexists; split; [reflexivity|done]).
      all: destruct (to_string _) as [text|] eqn:Et in E; [|done]; exists text; split; [exact Et|done].
    + destruct (override_field "参数覆盖必须是合法的 JSON 格式！" _) as [|y|] eqn:E; [by left| |by left].
      right. by eapply override_checked.
    + destruct (override_field "请求头覆盖必须是合法的 JSON 格式！" _) as [|y|] eqn:E; [by left| |by left].
      right. by eapply override_checked.
  - injection H as ->. by apply save_body_told in Hb.
Qed.
(** [a.split(',').join(',')] *)
Lemma texts_join l : to_string (VArr (map VStr l)) = Some (join (u ",") l).
Proof.
  cbn [to_string]. match goal with |- (_ <$> ?f (map VStr l)) = _ => assert (f (map VStr l) = Some l) as -> end; [|done].
  induction l as [|w l IH]; [done|]. cbn [map]. by rewrite IH.
Qed.

(** The answer with the models of one tag is put into the form of whatever tag is edited
    when it comes: a save then writes them over all channels of the other tag. *)
Theorem late_models_saved s i asked res text data :
  (∀ o f, prop (u "models") (set_values o f) = prop (u "models") o) →
  calls s !! i = Some (LoadTag asked) → text ≠ [] →
  truthy (opt_read (u "success") (opt_read (u "data") res)) = true →
  opt_read (u "data") (opt_read (u "data") res) = VStr text →
  let s1 := step s (Answer i res) in
  log (step s1 Save) = Put (VObj data) :: log s1 →
  prop (u "models") data = VStr text ∧ prop (u "tag") data = tag (now s).
Proof.
  intros Hform Hc Hne Hs Hd. cbv zeta.
  assert (now (step s (Answer i res)) =
    setLoading false (handleInputChange set_values set_value (u "models") (VArr (map VStr (split_on 44%N text))) (now s))) as Hnow.
  { cbn [TagEditor.step]. rewrite Hc. cbn [answered]. unfold tag_answered. rewrite Hs, Hd. destruct text; [done|reflexivity]. }
  set (s1 := step s (Answer i res)) in *.
  assert (prop (u "models") (form (now s1)) = VArr (map VStr (split_on 44%N text)) ∧ tag (now s1) = tag (now s)) as [Hm Ht].
  { rewrite Hnow. unfold handleInputChange, settle. cbn [setLoading setOptions setInputs form inputs tag]. split; [|done].
    by rewrite Hform, prop_set, decide_True. }
  cbn [TagEditor.step]. destruct (_ && _); [|intros H; symmetry in H; by apply log_longer in H].
  unfold handleSave. destruct (save_body _ _) as [[data'|told]|] eqn:Hb; simpl; intros H; try done;
    [injection H as ->|injection H as ->; by apply save_body_told in Hb].
  apply save_body_spec in Hb as (g & l & _ & Hl & _ & _ & _ & ->). rewrite Hm in Hl.
  match goal with |- context [body ?m g l ?p ?h ?x ?n] => destruct (body_props m g l p h x n) as (-> & _ & _ & _ & -> & _) end.
  split; [|done]. unfold list_field in Hl.
  pose proof (split_on_nonnil 44%N text) as Hn. destruct (map VStr (split_on 44%N text)) as [|x l'] eqn:E; [by destruct (split_on 44%N text)|].
  rewrite <- E, texts_join in Hl. cbn [mbind option_bind] in Hl. injection Hl as <-. simpl.
  replace (u ",") with [44%N] by (vm_compute; reflexivity). by rewrite join_split_on.
Qed.

(** ** Options and names *)

Definition listed_option (options : list value) (m : value) : bool := existsb (λ o, strict_eq o m) options.

Lemma add_option_keeps options m x : listed_option options x = true → listed_option (add_option options m) x = true.
Proof.
  unfold add_option, listed_option. intros H. destruct (existsb (λ o, strict_eq o m) options); [done|]. by rewrite existsb_app, H.
Qed.

Lemma options_cover l options m :
  (m ∈ l ∧ strict_eq m m = true) ∨ listed_option options m = true → listed_option (fold_left add_option l options) m = true.
Proof.
  revert options. induction l as [|x l IH]; intros options [[H Hm]|H]; simpl; [by apply elem_of_nil in H|done|..].
  - apply IH. apply elem_of_cons in H as [->|H]; [right|by left]. unfold add_option, listed_option.
    destruct (existsb _ options) eqn:E; [done|]. rewrite existsb_app. simpl. rewrite Hm. by rewrite orb_true_r.
  - apply IH. right. by apply add_option_keeps.
Qed.

Inductive reachable : state → Prop :=
  | reachable_init : reachable (init engine_error set_values)
  | reachable_step s e : reachable s → reachable (step s e).

Lemma settled v : modelOptions (settle set_values v) = options_of (settle set_values v).
Proof. done. Qed.

Lemma options_settled s : reachable s → modelOptions (now s) = options_of (now s).
Proof.
  assert (∀ s', modelOptions (now (opened engine_error set_values s')) = options_of (now (opened engine_error set_values s'))) as Ho by done.
  induction 1 as [|s e _ IH]; [apply Ho|]. destruct e as [b x| |name x|text| |text| |i res|i error]; cbn [TagEditor.step]; try done.
  - unfold rendered. destruct (eqb _ _ && _); [|apply Ho]. simpl. by destruct (_ || _).
  - unfold addCustomModels. by destruct (trim _).
  - destruct (_ && _); [|done]. unfold handleSave. by destruct (save_body _ _) as [[]|].
  - destruct (calls s !! i) as [[| |x|]|]; [..|done]; cbn [answered].
    + unfold models_answered. by destruct (listed _ _).
    + unfold groups_answered. destruct res; try done; by destruct (listed _ _).
    + unfold tag_answered. cbv zeta. repeat (case_match; try done).
    + unfold save_answered. by destruct (truthy _).
  - by destruct (calls s !! i) as [[| |x|]|].
Qed.

(** In every state each chosen model, typed or loaded, has an option to be shown with,
    and so has each model of the server. *)
Theorem chosen_have_options s m :
  reachable s → strict_eq m m = true →
  m ∈ chosen_models (now s) ∨ m ∈ originModelOptions (now s) → listed_option (modelOptions (now s)) m = true.
Proof.
  intros Hr Hm H. rewrite (options_settled s Hr). apply options_cover. destruct H as [H|H]; [by left|right].
  unfold listed_option. apply existsb_exists. exists m. split; [by apply list_elem_of_In|done].
Qed.
End laws.

(** ** Witnesses *)

#[local] Transparent u.

(** A form that holds what it was told last. *)
Definition hold (o f : props) : props := o.
Definition go (s : state) (l : list event) : state := run (λ x, x) VUndef hold set s l.
Definition start : state := init VUndef hold.

Definition models_of (text : string) : value :=
  VObj [(u "data", VObj [(u "success", VBool true); (u "data", VStr (u text))])].

(** The dialog of the tag fast is opened, then that of slow, and their answers come in the
    other order. *)
Definition crossed : state :=
  go start [Props true (VStr (u "fast")); Props true (VStr (u "slow")); Answer 7 (models_of "b,c");
    Input (u "param_override") (VStr (j " {`temperature`:0} "))].

Lemma tag_saves_checked_witness :
  ∃ data, log (step (λ x, x) VUndef hold set crossed Save) = Put (VObj data) :: log crossed ∧
    json_or_empty (prop (u "param_override") data).
Proof.
  destruct (hd Refresh (log (step (λ x, x) VUndef hold set crossed Save))) as [| [| | | | | |data] | | | | | | | |] eqn:E;
    try (vm_compute in E; discriminate E).
  exists data.
  assert (log (step (λ x, x) VUndef hold set crossed Save) = Put (VObj data) :: log crossed) as H.
  { vm_compute in E. injection E as <-. vm_compute. reflexivity. }
  split; [exact H|]. exact (proj1 (proj2 (proj2 (proj2 (tag_saves_checked (λ x, x) VUndef hold set crossed data H))))).
Defined.

Lemma late_models_saved_witness :
  let s1 := go crossed [Answer 4 (models_of "a,d")] in
  tag (now s1) = VStr (u "slow") ∧
  ∃ data, log (step (λ x, x) VUndef hold set s1 Save) = Put (VObj data) :: log s1 ∧ prop (u "models") data = VStr (u "a,d").
Proof.
  intros s1. split; [vm_compute; reflexivity|].
  destruct (hd Refresh (log (step (λ x, x) VUndef hold set s1 Save))) as [| [| | | | | |data] | | | | | | | |] eqn:E;
    try (vm_compute in E; discriminate E).
  exists data.
  assert (log (step (λ x, x) VUndef hold set s1 Save) = Put (VObj data) :: log s1) as H.
  { vm_compute in E. injection E as <-. vm_compute. reflexivity. }
  assert (calls crossed !! 4 = Some (LoadTag (VStr (u "fast")))) as Hc by (vm_compute; reflexivity).
  assert (u "a,d" ≠ []) as Hn by discriminate.
  split; [exact H|].
  exact (proj1 (late_models_saved (λ x, x) VUndef hold set crossed 4 (VStr (u "fast")) (models_of "a,d") (u "a,d") data
    (λ o f, eq_refl) Hc Hn ltac:(vm_compute; reflexivity) ltac:(vm_compute; reflexivity) H)).
Defined.

Lemma chosen_have_options_witness :
  let s := go crossed [Custom (u "x, c"); AddCustom] in
  chosen_models (now s) = [VStr (u "b"); VStr (u "c"); VStr (u "x")] ∧
  listed_option (modelOptions (now s)) (VStr (u "x")) = true.
Proof.
  intros s. split; [vm_compute; reflexivity|].
  assert (reachable (λ x, x) VUndef hold set s) as Hr.
  { unfold s, crossed, go, run. cbn [fold_left]. repeat apply reachable_step. apply reachable_init. }
  apply (chosen_have_options (λ x, x) VUndef hold set s (VStr (u "x")) Hr); [vm_compute; reflexivity|].
  left. replace (chosen_models (now s)) with [VStr (u "b"); VStr (u "c"); VStr (u "x")] by (vm_compute; reflexivity).
  right. right. left.
Defined.

(** Opening a dialog and saving it at once sends the tag's own name, so that the warning
    that nothing was changed is never seen. *)
Example nothing_changed_is_sent :
  let s := go start [Props true (VStr (u "fast")); Answer 4 (models_of "")] in
  log (step (λ x, x) VUndef hold set s Save) =
    Put (VObj [(u "tag", VStr (u "fast")); (u "new_tag", VStr (u "fast"))]) :: log s.
Proof. vm_compute. reflexivity. Qed.

(** A tag with a sign of its own is cut where it is asked for. *)
Example tag_not_encoded : tag_url (VStr (u "a&b#c")) = Some (u "/api/channel/tag/models?tag=a&b#c").
Proof. vm_compute. reflexivity. Qed.
