(* ===== verification/Permissions.v ===== *)
(** * The permissions of administrators
    [src/web/src/pages/Permission/index.jsx]: the page on which the root user chooses what
    each administrator may do, and the loop that reads all pages of a list. *)

From Stdlib Require Import SpecFloat.
From stdpp Require Import base numbers option strings sets list.
From S2P Require Import Prelude JsString JsNumber NumberOrder JsValue Json JsOps Session OptionForms.

(** ** All pages of a list *)

Definition PAGE_SIZE : nat := 100.
Definition MAX_PAGES : nat := 200.

(** The loop as it waits for a page. *)
Record paging := mk_paging { path : jsstr; throwOnFirst : bool; page : nat; items : list value }.
Inductive paged := Again (p : paging) | All (l : list value) | Threw.

Definition page_url (p : paging) : jsstr :=
  path p ++ u "?p=" ++ dec_N (N.of_nat (page p)) ++ u "&page_size=" ++ dec_N (N.of_nat PAGE_SIZE).

Definition page_failed (p : paging) : paged :=
  if (page p =? 1)%nat && throwOnFirst p then Threw else All (items p).

(** The items and the number of all items that a page tells. *)
Definition page_parts (data : value) : list value * num :=
  let data := value_or data (VObj []) in
  (match opt_read (u "items") data with VArr l => l | _ => [] end,
   match opt_read (u "total") data with VNum x => x | _ => num_of_Z 0 end).

Definition next_page (p : paging) (pageItems : list value) (total : num) : paged :=
  match pageItems with
  | [] => All (items p)
  | _ =>
      let l := items p ++ pageItems in
      if nltb (num_of_Z 0) total && nleb total (num_of_Z (Z.of_nat (length l))) then All l
      else if (length pageItems <? PAGE_SIZE)%nat then All l
      else if (S (page p) <=? MAX_PAGES)%nat then Again (mk_paging (path p) (throwOnFirst p) (S (page p)) l)
      else All l
  end.

Definition page_answered (p : paging) (res : value) : paged :=
  match parts_of res with
  | Some (true, _, data) => let '(l, total) := page_parts data in next_page p l total
  | _ => page_failed p
  end.

Definition first_page (path : jsstr) (throws : bool) : paging := mk_paging path throws 1 [].

(** ** State *)

Record perms := mk_perms {
  view_usage_logs : bool; view_group_success_rate : bool; configure_operation_settings : bool;
}.
Definition DEFAULT_PERMISSIONS : value :=
  VObj [(u "view_usage_logs", VBool true); (u "manage_users", VStr (u "all")); (u "manage_channels", VStr (u "all"));
        (u "view_group_success_rate", VBool true); (u "configure_operation_settings", VBool true)].

(** A list of what an administrator may manage, where it is not everything. *)
Record scope := mk_scope { whitelisted : bool; whitelist : list value }.
Definition everything : scope := mk_scope false [].

Record view := mk_view {
  loading : bool; saving : bool; admins : list value; selectedId : value; shown : perms;
  userOptions : list value; channelOptions : list value; users : scope; channels : scope;
  (** what [Promise.all] has got so far *)
  fetched : option (list value) * option (list value);
}.

Inductive effect :=
  | Get (url : jsstr)
  | Put (url : jsstr) (payload : value)
  | ShowError (v : value)
  | ShowSuccess (text : jsstr).

Inductive list_of := Admins | UserList | ChannelList.
Inductive waiting := Page (of_ : list_of) (p : paging) | LoadPerms (id : value) | Saving.

Record state := mk_state { now : view; calls : list waiting; log : list effect }.

Definition emit e s := mk_state (now s) (calls s) (e :: log s).
Definition with_calls l s := mk_state (now s) l (log s).
Definition suspend (w : waiting) (s : state) : state := with_calls (calls s ++ [w]) s.
Definition on_view (f : view → view) (s : state) : state := mk_state (f (now s)) (calls s) (log s).

Definition setLoading b v := mk_view b (saving v) (admins v) (selectedId v) (shown v) (userOptions v) (channelOptions v)
  (users v) (channels v) (fetched v).
Definition setSaving b v := mk_view (loading v) b (admins v) (selectedId v) (shown v) (userOptions v) (channelOptions v)
  (users v) (channels v) (fetched v).
Definition setAdmins l v := mk_view (loading v) (saving v) l (selectedId v) (shown v) (userOptions v) (channelOptions v)
  (users v) (channels v) (fetched v).
Definition setSelected id v := mk_view (loading v) (saving v) (admins v) id (shown v) (userOptions v) (channelOptions v)
  (users v) (channels v) (fetched v).
Definition setPerms p v := mk_view (loading v) (saving v) (admins v) (selectedId v) p (userOptions v) (channelOptions v)
  (users v) (channels v) (fetched v).
Definition setOptions a b v := mk_view (loading v) (saving v) (admins v) (selectedId v) (shown v) a b
  (users v) (channels v) (fetched v).
Definition setScopes a b v := mk_view (loading v) (saving v) (admins v) (selectedId v) (shown v) (userOptions v)
  (channelOptions v) a b (fetched v).
Definition setFetched x v := mk_view (loading v) (saving v) (admins v) (selectedId v) (shown v) (userOptions v)
  (channelOptions v) (users v) (channels v) x.

Section page.
Context (t : jsstr → jsstr).

(** *** The lists *)

Definition ask_page (w : list_of) (p : paging) (s : state) : state := suspend (Page w p) (emit (Get (page_url p)) s).

(** [items.filter((u) => u.role >= 10 && u.role < 100)] *)
Definition is_plain_admin (x : value) : option bool :=
  role ← read (u "role") x;
  n ← to_number role;
  Some (nleb (num_of_Z 10) n && nltb n (num_of_Z 100)).

Fixpoint filter_values (f : value → option bool) (l : list value) : option (list value) :=
  match l with
  | [] => Some []
  | x :: l' => match f x, filter_values f l' with Some b, Some r => Some (if b then x :: r else r) | _, _ => None end
  end.

Definition admins_fetched (l : option (list value)) (s : state) : state :=
  on_view (setLoading false)
    match l ≫= filter_values is_plain_admin with
    | Some l => on_view (setAdmins l) s
    | None => emit (ShowError (VStr (t (u "加载管理员列表失败")))) s
    end.

(** [{value: x.id, label: `${name} (#${x.id})`}] *)
Definition option_of (name : value → option value) (x : value) : option value :=
  id ← read (u "id") x; n ← name x; label ← to_string n; number ← to_string id;
  Some (VObj [(u "value", id); (u "label", VStr (label ++ u " (#" ++ number ++ u ")"))]).
Definition user_option : value → option value := option_of (read (u "username")).
Definition channel_option : value → option value :=
  option_of (λ x, n ← read (u "name") x; Some (value_or n (VStr (u "未命名")))).

(** Both lists are there; whatever throws is not told, the users' options stay where only
    those of the channels throw. *)
Definition options_fetched (us cs : list value) (v : view) : view :=
  match mapM user_option us with
  | Some a => setOptions a (default (channelOptions v) (mapM channel_option cs)) v
  | None => v
  end.

Definition both_fetched (v : view) : view :=
  match fetched v with (Some us, Some cs) => options_fetched us cs v | _ => v end.

Definition list_fetched (w : list_of) (l : option (list value)) (s : state) : state :=
  match w, l with
  | Admins, _ => admins_fetched l s
  | UserList, Some us => on_view (λ v, both_fetched (setFetched (Some us, (fetched v).2) v)) s
  | ChannelList, Some cs => on_view (λ v, both_fetched (setFetched ((fetched v).1, Some cs) v)) s
  | _, None => s
  end.

Definition paged_on (w : list_of) (p : paged) (s : state) : state :=
  match p with
  | Again p => ask_page w p s
  | All l => list_fetched w (Some l) s
  | Threw => list_fetched w None s
  end.

(** *** One administrator *)

Definition perms_url (id : value) : option jsstr := text ← to_string id; Some (u "/api/permission/user/" ++ text).

Definition load_failed (s : state) : state :=
  on_view (setLoading false) (emit (ShowError (VStr (t (u "加载权限失败")))) s).

Definition selectAdmin (id : value) (s : state) : state :=
  let s := on_view (λ v, setLoading true (setSelected id v)) s in
  match perms_url id with
  | Some url => suspend (LoadPerms id) (emit (Get url) s)
  | None => load_failed s
  end.

Definition perms_of (p : value) : perms :=
  mk_perms (not_false "view_usage_logs" p) (not_false "view_group_success_rate" p) (not_false "configure_operation_settings" p).

Definition scope_of (x : value) : scope := match x with VArr l => mk_scope true l | _ => everything end.

Definition show_perms (p : value) (v : view) : view :=
  setScopes (scope_of (opt_read (u "manage_users") p)) (scope_of (opt_read (u "manage_channels") p)) (setPerms (perms_of p) v).

(** An answer that is no success is not told. *)
Definition perms_answered (res : value) (s : state) : state :=
  match parts_of res with
  | None => load_failed s
  | Some (true, _, data) => on_view (λ v, setLoading false (show_perms (value_or data DEFAULT_PERMISSIONS) v)) s
  | Some (false, _, _) => on_view (setLoading false) s
  end.

Definition scope_value (x : scope) : value := if whitelisted x then VArr (whitelist x) else VStr (u "all").

Definition payload (v : view) : value :=
  VObj [(u "view_usage_logs", VBool (view_usage_logs (shown v)));
        (u "manage_users", scope_value (users v));
        (u "manage_channels", scope_value (channels v));
        (u "view_group_success_rate", VBool (view_group_success_rate (shown v)));
        (u "configure_operation_settings", VBool (configure_operation_settings (shown v)))].

Definition save_failed (s : state) : state := on_view (setSaving false) (emit (ShowError (VStr (t (u "保存失败")))) s).

Definition save (s : state) : state :=
  if truthy (selectedId (now s)) then
    let s := on_view (setSaving true) s in
    match perms_url (selectedId (now s)) with
    | Some url => suspend Saving (emit (Put url (payload (now s))) s)
    | None => save_failed s
    end
  else s.

Definition save_answered (res : value) (s : state) : state :=
  match parts_of res with
  | None => save_failed s
  | Some (true, _, _) => on_view (setSaving false) (emit (ShowSuccess (t (u "权限已保存"))) s)
  | Some (false, message, _) => on_view (setSaving false) (emit (ShowError message) s)
  end.

(** *** Steps *)

Inductive event :=
  | Select (id : value)
  | Logs (b : bool)
  | SuccessRate (b : bool)
  | Operation (b : bool)
  | UsersMode (whitelist : bool)
  | ChannelsMode (whitelist : bool)
  | Users (l : list value)
  | Channels (l : list value)
  | Save
  | Answer (i : nat) (res : value)
  | Failure (i : nat).

Definition take_call (i : nat) (s : state) : state := with_calls (delete i (calls s)) s.

Definition on_perms (f : perms → perms) (s : state) : state := on_view (λ v, setPerms (f (shown v)) v) s.

Definition answered (w : waiting) (res : value) (s : state) : state :=
  match w with
  | Page w p => paged_on w (page_answered p res) s
  | LoadPerms _ => perms_answered res s
  | Saving => save_answered res s
  end.

Definition failed (w : waiting) (s : state) : state :=
  match w with
  | Page w p => paged_on w (page_failed p) s
  | LoadPerms _ => load_failed s
  | Saving => save_failed s
  end.

Definition step (s : state) (e : event) : state :=
  match e with
  | Select id => selectAdmin id s
  | Logs b => on_perms (λ p, mk_perms b (view_group_success_rate p) (configure_operation_settings p)) s
  | SuccessRate b => on_perms (λ p, mk_perms (view_usage_logs p) b (configure_operation_settings p)) s
  | Operation b => on_perms (λ p, mk_perms (view_usage_logs p) (view_group_success_rate p) b) s
  | UsersMode b => on_view (λ v, setScopes (mk_scope b (whitelist (users v))) (channels v) v) s
  | ChannelsMode b => on_view (λ v, setScopes (users v) (mk_scope b (whitelist (channels v))) v) s
  | Users l => on_view (λ v, setScopes (mk_scope (whitelisted (users v)) l) (channels v) v) s
  | Channels l => on_view (λ v, setScopes (users v) (mk_scope (whitelisted (channels v)) l) v) s
  | Save => if saving (now s) then s else save s
  | Answer i res => match calls s !! i with Some w => answered w res (take_call i s) | None => s end
  | Failure i => match calls s !! i with Some w => failed w (take_call i s) | None => s end
  end.

Definition run (s : state) (l : list event) : state := fold_left step l s.

Definition first_view : view :=
  mk_view false false [] VNull (mk_perms true true true) [] [] everything everything (None, None).

Definition init : state :=
  let s := ask_page Admins (first_page (u "/api/user/") true) (mk_state (setLoading true first_view) [] []) in
  ask_page ChannelList (first_page (u "/api/channel/") false) (ask_page UserList (first_page (u "/api/user/") false) s).
End page.

(** * Properties of the permissions page
    The loop over pages reads a whole list, up to its bound; what is chosen is what the
    administrator's own console reads; the permissions of one administrator are saved for
    another when theirs cannot be loaded or come late. *)

#[local] Opaque u.

(** ** All pages *)

(** A server with the list [L]: pages count from 1. *)
Definition page_of (L : list value) (k : nat) : list value := take PAGE_SIZE (drop (PAGE_SIZE * (k - 1)) L).
Definition page_answer (L : list value) (k : nat) : value :=
  VObj [(u "data", VObj [(u "success", VBool true);
    (u "data", VObj [(u "items", VArr (page_of L k)); (u "total", VNum (num_of_Z (Z.of_nat (length L))))])])].

(** It answers the addresses of its pages. *)
Definition address (p0 : jsstr) (k : nat) : jsstr := p0 ++ u "?p=" ++ dec_N (N.of_nat k) ++ u "&page_size=100".
Definition serve (p0 : jsstr) (L : list value) (url : jsstr) : value :=
  match List.find (λ k, bool_decide (url = address p0 k)) (seq 1 MAX_PAGES) with
  | Some k => page_answer L k
  | None => VUndef
  end.

Lemma address_inj p0 j k : address p0 j = address p0 k → j = k.
Proof. unfold address. intros H%app_inv_head%app_inv_head%app_inv_tail%dec_N_inj. lia. Qed.

Lemma served_page p0 L p : path p = p0 → 1 ≤ page p ≤ MAX_PAGES → serve p0 L (page_url p) = page_answer L (page p).
Proof.
  intros Hp Hk. unfold serve.
  assert (page_url p = address p0 (page p)) as ->.
  { unfold page_url, address. rewrite Hp. do 3 f_equal. }
  destruct (List.find _ _) as [k|] eqn:E.
  - apply find_some in E as [_ E%bool_decide_eq_true]. by rewrite (address_inj p0 _ _ E).
  - assert (In (page p) (seq 1 MAX_PAGES)) as Hin by (apply in_seq; lia).
    apply (find_none _ _ E) in Hin. by rewrite bool_decide_true in Hin.
Qed.

(** The loop with the answers of a server. *)
Fixpoint read_pages (fuel : nat) (server : jsstr → value) (p : paging) : option (list value) :=
  match fuel with
  | O => None
  | S fuel' =>
      match page_answered p (server (page_url p)) with
      | Again p' => read_pages fuel' server p'
      | All l => Some l
      | Threw => None
      end
  end.

Lemma page_answer_parts p L k :
  page_answered p (page_answer L k) = next_page p (page_of L k) (num_of_Z (Z.of_nat (length L))).
Proof.
  unfold page_answer, page_answered, parts_of, page_parts, opt_read, read.
  rewrite prop_cons_eq. cbn [mbind option_bind].
  rewrite prop_cons_eq, (prop_cons_ne (u "data") (u "success")), prop_cons_eq by keys_differ. cbn [truthy value_or].
  unfold value_or. cbn [truthy]. by rewrite prop_cons_eq, prop_cons_ne, prop_cons_eq by keys_differ.
Qed.

Lemma read_pages_from fuel L p0 b k :
  small (length L) → k < MAX_PAGES → MAX_PAGES - k ≤ fuel → (k = 0 ∨ PAGE_SIZE * k < length L) →
  read_pages fuel (serve p0 L) (mk_paging p0 b (S k) (take (PAGE_SIZE * k) L)) = Some (take (PAGE_SIZE * MAX_PAGES) L).
Proof.
  intros HL. revert k. induction fuel as [|fuel IH]; intros k Hk Hf Hlen; [lia|].
  cbn [read_pages]. rewrite served_page by (done || cbn [page]; lia). rewrite page_answer_parts. cbn [page]. unfold page_of. replace (S k - 1) with k by lia.
  set (n := PAGE_SIZE * k) in *. unfold next_page. cbn [items page path].
  assert (take n L ++ take PAGE_SIZE (drop n L) = take (PAGE_SIZE * S k) L) as Happ.
  { rewrite take_take_drop. f_equal. unfold n. lia. }
  pose proof (length_take L (PAGE_SIZE * S k)) as Ht.
  pose proof (length_take (drop n L) PAGE_SIZE) as Hp. rewrite length_drop in Hp.
  assert (∀ r, r = take (PAGE_SIZE * S k) L → (length L ≤ PAGE_SIZE * S k ∨ S k = MAX_PAGES) →
    Some r = Some (take (PAGE_SIZE * MAX_PAGES) L)) as Hend.
  { intros r -> [H|H]; [|by rewrite H]. rewrite !take_ge; [done| |done]. unfold MAX_PAGES, PAGE_SIZE in *. lia. }
  destruct (take PAGE_SIZE (drop n L)) as [|x l] eqn:El.
  - apply Hend; [by rewrite <- Happ, app_nil_r|]. left. cbn [length] in Hp. unfold n, PAGE_SIZE in *. lia.
  - rewrite Happ, Ht, small_le by (unfold small in *; simpl length; lia).
    destruct (nltb (num_of_Z 0) _ && _) eqn:Ea.
    + apply Hend; [done|]. left. apply andb_true_iff in Ea as [_ Ea]. apply Nat.leb_le in Ea. lia.
    + destruct (length (x :: l) <? PAGE_SIZE) eqn:Eb.
      { apply Hend; [done|]. left. apply Nat.ltb_lt in Eb. unfold n, PAGE_SIZE in *. lia. }
      apply Nat.ltb_ge in Eb. destruct (S (S k) <=? MAX_PAGES) eqn:Ec.
      * apply Nat.leb_le in Ec. apply IH; [lia|lia|]. right.
        apply andb_false_iff in Ea as [Ea|Ea].
        -- assert (0 < length L) as H0 by (destruct L; [by rewrite drop_nil in El|simpl; lia]).
           pose proof (small_lt 0 (length L) ltac:(lia) HL) as H1. change (Z.of_nat 0) with 0%Z in H1. by rewrite H1 in Ea.
        -- apply Nat.leb_gt in Ea. lia.
      * apply Hend; [done|]. right. apply Nat.leb_gt in Ec. lia.
Qed.

(** C39: Of a list that the server gives in pages, by their addresses, the loop reads
    everything, up to the first 20000, and it ends after 200 pages at most. *)
Theorem all_pages_read L p0 b :
  small (length L) →
  read_pages MAX_PAGES (serve p0 L) (first_page p0 b) = Some (take (PAGE_SIZE * MAX_PAGES) L).
Proof. intros H. apply (read_pages_from MAX_PAGES L p0 b 0); [done|unfold MAX_PAGES; lia|lia|by left]. Qed.

(** ** One administrator *)

Section laws.
Context (t : jsstr → jsstr).
Abbreviation step := (step t).
Abbreviation run := (run t).

Definition scope_ok (x : scope) : bool := forallb json_ok (whitelist x).

Definition chosen (v : view) : permissions :=
  mk_permissions (Permissions.view_usage_logs (shown v)) (scope_value (users v)) (scope_value (channels v))
    (Permissions.view_group_success_rate (shown v)) (Permissions.configure_operation_settings (shown v)).

Lemma payload_ok v : scope_ok (users v) = true → scope_ok (channels v) = true → json_ok (payload v) = true.
Proof.
  intros Hu Hc. unfold payload. rewrite json_ok_obj, andb_true_iff. split.
  - apply (bool_decide_unpack _). generalize (VBool (Permissions.view_usage_logs (shown v))) (scope_value (users v)) (scope_value (channels v))
      (VBool (Permissions.view_group_success_rate (shown v))) (VBool (Permissions.configure_operation_settings (shown v))).
    intros. vm_compute. exact I.
  - unfold members_ok, scope_value. cbn [forallb snd]. unfold scope_ok in *.
    destruct (whitelisted (users v)), (whitelisted (channels v)); simpl; by rewrite ?Hu, ?Hc.
Qed.

Lemma scope_read k x p : opt_read (u k) p = scope_value x → all_or_list k p = scope_value x.
Proof.
  unfold all_or_list, scope_value. intros ->. destruct (whitelisted x); [by rewrite orb_true_r|].
  by rewrite strict_eq_str, bool_decide_true.
Qed.

Lemma flag_read k b p : opt_read (u k) p = VBool b → not_false k p = b.
Proof. unfold not_false. intros ->. by destruct b. Qed.

(** C16: What the root user chooses is what the administrator's own console reads, once the
    server has kept it and sent it with the login: every switch, everything or the list. *)
Theorem chosen_is_read v s :
  scope_ok (users v) = true → scope_ok (channels v) = true →
  getAdminPermissions (setAdminPermissions (payload v) s) = chosen v.
Proof.
  intros Hu Hc. pose proof (payload_ok v Hu Hc) as Hok.
  assert (stored "admin_permissions" (setAdminPermissions (payload v) s) = Some (ser [] [] (payload v))) as Hst.
  { unfold setAdminPermissions, setJson, stored, getItem, setItem. cbn [truthy payload].
    rewrite get_set_eq. fold (payload v). cbn [json_stringify default].
    pose proof (ser_nonblank [] [] (payload v) Hok) as Hn. unfold payload in *. cbn [json_stringify] in *.
    destruct (ser [] [] _) as [|c r] eqn:E; [by destruct Hn|done]. }
  unfold getAdminPermissions. rewrite Hst. cbn [mbind option_bind]. rewrite json_parse_ser by (done || constructor).
  unfold payload at 1. cbv beta iota. unfold chosen.
  assert (∀ k x, prop (u k) (match payload v with VObj o => o | _ => [] end) = x → opt_read (u k) (payload v) = x) as Hr by done.
  f_equal.
  - apply flag_read, Hr. unfold payload. by rewrite prop_cons_eq.
  - apply scope_read, Hr. unfold payload. by read_props.
  - apply scope_read, Hr. unfold payload. by read_props.
  - apply flag_read, Hr. unfold payload. rewrite 3!prop_cons_ne by keys_differ. apply prop_cons_eq.
  - apply flag_read, Hr. unfold payload. rewrite 4!prop_cons_ne by keys_differ. apply prop_cons_eq.
Qed.

(** The answer that the permissions of an administrator cannot be read is told to nobody,
    and those of the one before stay: a save then gives them to the one that is chosen. *)
Theorem unread_permissions_saved s id res url :
  calls s = [] → saving (now s) = false → truthy id = true → perms_url id = Some url →
  (∃ m data, parts_of res = Some (false, m, data)) →
  let s' := run s [Select id; Answer 0 res; Save] in
  log s' = Put url (payload (now s)) :: Get url :: log s ∧ selectedId (now s') = id.
Proof.
  intros Hc Hs Hid Hurl (m & data & Hp). cbv zeta. unfold run, Permissions.run. cbn [fold_left Permissions.step].
  unfold selectAdmin. rewrite Hurl. cbn [suspend emit on_view with_calls calls now log]. rewrite Hc. cbn [app lookup list_lookup].
  cbn [answered]. unfold perms_answered. rewrite Hp. simpl. rewrite Hs. unfold save. simpl. rewrite Hid, Hurl. done.
Qed.

(** An answer that comes late gives the permissions of one administrator to another. *)
Theorem late_permissions_saved s i asked res m data url :
  calls s !! i = Some (LoadPerms asked) → saving (now s) = false → truthy (selectedId (now s)) = true →
  perms_url (selectedId (now s)) = Some url → parts_of res = Some (true, m, data) →
  let s1 := step s (Answer i res) in
  log (step s1 Save) = Put url (payload (show_perms (value_or data DEFAULT_PERMISSIONS) (now s))) :: log s1.
Proof.
  intros Hc Hs Hid Hurl Hp. cbv zeta. cbn [Permissions.step]. rewrite Hc. cbn [answered]. unfold perms_answered. rewrite Hp.
  simpl. rewrite Hs. unfold save. simpl. by rewrite Hid, Hurl.
Qed.
End laws.

(** ** Witnesses *)

#[local] Transparent u.

Lemma all_pages_read_witness :
  let L := map (λ n, VNum (num_of_Z (Z.of_nat n))) (seq 0 250) in
  read_pages MAX_PAGES (serve (u "/api/user/") L) (first_page (u "/api/user/") true) = Some (take (PAGE_SIZE * MAX_PAGES) L).
Proof. intros L. apply all_pages_read. apply (bool_decide_unpack _). vm_compute. exact I. Defined.

Definition answer (success : bool) (data : value) : value :=
  VObj [(u "data", VObj [(u "success", VBool success); (u "message", VStr (u "no")); (u "data", data)])].
Definition number (z : Z) : value := VNum (num_of_Z z).
Definition limited : value := VObj [(u "manage_users", VArr [number 4; number 9]); (u "view_usage_logs", VBool false)].

(** The lists are there and the first administrator is chosen. *)
Definition first_chosen : state :=
  run (λ x, x) (init) [Failure 0; Failure 0; Failure 0; Select (number 2); Answer 0 (answer true limited)].

Lemma chosen_is_read_witness :
  getAdminPermissions (setAdminPermissions (payload (now first_chosen)) []) =
  mk_permissions false (VArr [number 4; number 9]) (VStr (u "all")) true true.
Proof.
  assert (scope_ok (users (now first_chosen)) = true) as H1 by (vm_compute; reflexivity).
  assert (scope_ok (channels (now first_chosen)) = true) as H2 by (vm_compute; reflexivity).
  etransitivity; [exact (chosen_is_read (now first_chosen) [] H1 H2)|]. vm_compute. reflexivity.
Defined.

(** The list of users of the second is saved for the third. *)
Lemma unread_permissions_saved_witness :
  hd (Get []) (log (run (λ x, x) first_chosen [Select (number 3); Answer 0 (answer false VNull); Save])) =
  Put (u "/api/permission/user/3") (payload (now first_chosen)).
Proof.
  assert (calls first_chosen = []) as H1 by (vm_compute; reflexivity).
  assert (saving (now first_chosen) = false) as H2 by (vm_compute; reflexivity).
  assert (perms_url (number 3) = Some (u "/api/permission/user/3")) as H3 by (vm_compute; reflexivity).
  assert (∃ m data, parts_of (answer false VNull) = Some (false, m, data)) as H4 by (do 2 eexists; reflexivity).
  exact (f_equal (hd (Get [])) (proj1 (unread_permissions_saved (λ x, x) first_chosen (number 3) (answer false VNull)
    (u "/api/permission/user/3") H1 H2 eq_refl H3 H4))).
Defined.

Lemma late_permissions_saved_witness :
  let s := run (λ x, x) first_chosen [Select (number 3); Select (number 5); Answer 1 (answer true (VObj []))] in
  selectedId (now s) = number 5 ∧
  hd (Get []) (log (run (λ x, x) s [Answer 0 (answer true limited); Save])) =
  Put (u "/api/permission/user/5") (payload (show_perms limited (now s))).
Proof.
  intros s. split; [vm_compute; reflexivity|].
  assert (calls s !! 0 = Some (LoadPerms (number 3))) as H1 by (vm_compute; reflexivity).
  assert (saving (now s) = false) as H2 by (vm_compute; reflexivity).
  assert (truthy (selectedId (now s)) = true) as H3 by (vm_compute; reflexivity).
  assert (perms_url (selectedId (now s)) = Some (u "/api/permission/user/5")) as H4 by (vm_compute; reflexivity).
  assert (parts_of (answer true limited) = Some (true, VStr (u "no"), limited)) as H5 by (vm_compute; reflexivity).
  exact (f_equal (hd (Get [])) (late_permissions_saved (λ x, x) s 0 (number 3) (answer true limited) (VStr (u "no"))
    limited (u "/api/permission/user/5") H1 H2 H3 H4 H5)).
Defined.
