(* ===== verification/AlipayQR.v ===== *)
(** * Paying with a code
    [src/web/src/components/topup/modals/AlipayQRModal.jsx]: the dialog that makes an order,
    shows its code, asks every three seconds whether it has been paid and lets it expire
    after five minutes.  The timers are events that can happen while they run; [now] is
    the time in milliseconds.  [visible] is the state of the page that mounts the dialog;
    a render of that page hands over a new [onSuccess].
    Another [language] gives another [t]; the texts of messages are those of one language. *)

From Stdlib Require Import SpecFloat.
From stdpp Require Import base numbers option strings sets list.
From S2P Require Import Prelude JsString JsNumber JsValue JsSame Json JsOps Amounts Dates OptionForms.

(** ** Amounts *)

(** [Number(v)] of an amount, which is no object. *)
Definition Number (v : value) : num := default NaN (to_number v).
Definition cents_of (v : value) : num := ndiv (math_round (nmul (Number v) (num_of_Z 100))) (num_of_Z 100).
Definition roundMoney (v : value) : num := let n := cents_of v in if is_finite n then n else num_of_Z 0.

(** [Number.isFinite(n) && n >= min ? n : min] *)
Definition charge_of (payAmount minTopUp : value) : num :=
  let n := roundMoney payAmount in
  let min := roundMoney minTopUp in
  if is_finite n && nleb min n then n else min.

(** ** State *)

Inductive stage := Loading | QRCode.
Inductive outcome := Pending | Success | Failed | Expired.
#[export] Instance stage_eq_dec : EqDecision stage.
Proof. solve_decision. Defined.
#[export] Instance outcome_eq_dec : EqDecision outcome.
Proof. solve_decision. Defined.

(** What the page hands over, and the language, whose [t] the effects depend on. *)
Record props := mk_props { visible : bool; minTopUp : value; payAmount : value; language : jsstr }.
#[export] Instance props_eq_dec : EqDecision props.
Proof. solve_decision. Defined.

Record view := mk_view {
  from : props; shown : stage; amount : num; loading : bool; qrUrl : value; tradeNo : value; displayMoney : num;
  status : outcome; countdown : jsstr; refreshing : bool;
}.

Inductive effect :=
  | Post (amount : num)
  | Get (url : jsstr)
  | ShowError (v : value)
  | ShowSuccess (text : jsstr)
  | OnSuccess.

Inductive waiting := Create (id : nat) (charge : num) | Poll | Refresh (amount : num).

(** [poll] holds the order that the running interval asks for, [making] the effect that
    makes an order and has not been cancelled. *)
Record state := mk_state {
  now : view; poll : option value; timer : bool; expire : Z; making : option nat; effects_run : nat;
  calls : list waiting; log : list effect;
}.

Definition with_view v s := mk_state v (poll s) (timer s) (expire s) (making s) (effects_run s) (calls s) (log s).
Definition with_poll p s := mk_state (now s) p (timer s) (expire s) (making s) (effects_run s) (calls s) (log s).
Definition with_timer b x s := mk_state (now s) (poll s) b x (making s) (effects_run s) (calls s) (log s).
Definition with_making m n s := mk_state (now s) (poll s) (timer s) (expire s) m n (calls s) (log s).
Definition with_calls l s := mk_state (now s) (poll s) (timer s) (expire s) (making s) (effects_run s) l (log s).
Definition emit e s := mk_state (now s) (poll s) (timer s) (expire s) (making s) (effects_run s) (calls s) (e :: log s).
Definition suspend (w : waiting) (s : state) : state := with_calls (calls s ++ [w]) s.
Definition on_view (f : view → view) (s : state) : state := with_view (f (now s)) s.

Definition setProps p v := mk_view p (shown v) (amount v) (loading v) (qrUrl v) (tradeNo v) (displayMoney v) (status v)
  (countdown v) (refreshing v).
Definition setVisible b v := setProps (mk_props b (minTopUp (from v)) (payAmount (from v)) (language (from v))) v.
Definition setStep x v := mk_view (from v) x (amount v) (loading v) (qrUrl v) (tradeNo v) (displayMoney v) (status v)
  (countdown v) (refreshing v).
Definition setAmount x v := mk_view (from v) (shown v) x (loading v) (qrUrl v) (tradeNo v) (displayMoney v) (status v)
  (countdown v) (refreshing v).
Definition setLoading b v := mk_view (from v) (shown v) (amount v) b (qrUrl v) (tradeNo v) (displayMoney v) (status v)
  (countdown v) (refreshing v).
Definition setOrder url no v := mk_view (from v) (shown v) (amount v) (loading v) url no (displayMoney v) (status v)
  (countdown v) (refreshing v).
Definition setDisplayMoney x v := mk_view (from v) (shown v) (amount v) (loading v) (qrUrl v) (tradeNo v) x (status v)
  (countdown v) (refreshing v).
Definition setStatus x v := mk_view (from v) (shown v) (amount v) (loading v) (qrUrl v) (tradeNo v) (displayMoney v) x
  (countdown v) (refreshing v).
Definition setCountdown x v := mk_view (from v) (shown v) (amount v) (loading v) (qrUrl v) (tradeNo v) (displayMoney v)
  (status v) x (refreshing v).
Definition setRefreshing b v := mk_view (from v) (shown v) (amount v) (loading v) (qrUrl v) (tradeNo v) (displayMoney v)
  (status v) (countdown v) b.

(** [resetState]: the timers and the view; not the calls that go on. *)
Definition fresh (v : view) : view :=
  mk_view (from v) Loading (amount v) false (VStr []) (VStr []) (num_of_Z 0) Pending (u "5:00") false.
Definition resetState (s : state) : state := on_view fresh (with_poll None (with_timer false (expire s) s)).

Definition minutes (n : Z) : Z := n * 60 * 1000.

(** [`${m}:${s.toString().padStart(2, '0')}`] *)
Definition countdown_text (diff : Z) : jsstr :=
  dec_Z (diff / 60000) ++ u ":" ++ pad2 (dec_Z (diff mod 60000 / 1000)).

Definition startCountdown (time : Z) (s : state) : state := with_timer true (time + minutes 5)%Z s.

Section dialog.
Context (t : jsstr → jsstr).

(** *** The effects of a render *)

Definition status_url (no : value) : option jsstr :=
  text ← encodeURIComponent no; Some (u "/api/user/alipay/status?trade_no=" ++ text).

(** What throws is ignored. *)
Definition pollStatus (no : value) (s : state) : state :=
  if truthy no then match status_url no with Some url => suspend Poll (emit (Get url) s) | None => s end else s.

(** The order that is asked for, in the render of a view. *)
Definition polled (v : view) : option value :=
  if bool_decide (shown v = QRCode) && truthy (tradeNo v) && bool_decide (status v = Pending) then Some (tradeNo v) else None.

(** The effect of [step], [tradeNo], [status] and [pollStatus], its cleanup first. *)
Definition poll_effect (v : view) (s : state) : state :=
  match polled v with
  | Some no => pollStatus no (with_poll (Some no) s)
  | None => with_poll None s
  end.
Definition poll_deps (v : view) : stage * value * outcome := (shown v, tradeNo v, status v).

(** The effect that makes an order; it depends on all that is handed over and on [t]. *)
Definition create (v : view) (s : state) : state :=
  let charge := charge_of (payAmount (from v)) (minTopUp (from v)) in
  let id := effects_run s in
  suspend (Create id charge) (emit (Post charge)
    (with_making (Some id) (S id) (on_view (λ v, setStep Loading (setLoading true v)) s))).
Definition create_effect (v : view) (s : state) : state :=
  let s := with_making None (effects_run s) s in
  if visible (from v) then create v s else s.

Definition amounts (p : props) : value * value := (payAmount p, minTopUp p).

(** The effects of the render that follows a change of the view from [v0], and of the
    one after that where they change it.  Where [parent] renders, or the properties
    changed, [onSuccess] is another function. *)
Definition commit (v0 : view) (parent : bool) (s : state) : state :=
  let v := now s in
  let changed := negb (bool_decide (from v = from v0)) in
  let s := if negb (eqb (visible (from v)) (visible (from v0))) && negb (visible (from v)) then resetState s else s in
  let s := if bool_decide (amounts (from v) = amounts (from v0)) then s
           else on_view (setAmount (charge_of (payAmount (from v)) (minTopUp (from v)))) s in
  let s := if changed then create_effect v s else s in
  let s := if parent || changed || negb (bool_decide (poll_deps v = poll_deps v0)) then poll_effect v s else s in
  if bool_decide (poll_deps (now s) = poll_deps v) then s else poll_effect (now s) s.

(** *** Orders *)

Definition setVisible_ b (s : state) : state := on_view (setVisible b) s.

Definition create_failed (message : value) (s : state) : state :=
  on_view (setLoading false) (setVisible_ false (emit (ShowError message) s)).

Definition order_shown (charge money : num) (s : state) : state :=
  on_view (λ v, setStatus Pending (setDisplayMoney (if num_truthy money then money else charge) v)) s.

(** The number and the code of an order are set before its price is read. *)
Definition take_order (data : value) (s : state) : state :=
  on_view (setOrder (opt_read (u "qr_url") data) (opt_read (u "trade_no") data)) s.
Definition price (data : value) : option num := to_number (opt_read (u "money") data).

Definition create_answered (id : nat) (charge : num) (res : value) (time : Z) (s : state) : state :=
  if negb (bool_decide (making s = Some id)) then s else
  match parts_of res with
  | None => create_failed (VStr (t (u "支付请求失败"))) s
  | Some (success, message, data) =>
      if success && truthy data then
        let s := take_order data s in
        match price data with
        | None => create_failed (VStr (t (u "支付请求失败"))) s
        | Some money =>
            on_view (setLoading false) (startCountdown time (on_view (setStep QRCode) (order_shown charge money s)))
        end
      else create_failed (value_or message (VStr (t (u "创建支付订单失败")))) s
  end.

Definition create_rejected (id : nat) (s : state) : state :=
  if bool_decide (making s = Some id) then create_failed (VStr (t (u "支付请求失败"))) s else s.

(** [success && data] and what [data.status] is. *)
Definition poll_result (res : value) : option jsstr :=
  match parts_of res with
  | Some (true, _, data) =>
      if truthy data then match opt_read (u "status") data with VStr x => Some x | _ => None end else None
  | _ => None
  end.
Definition paid (res : value) : bool := bool_decide (poll_result res = Some (u "success")).

Definition poll_answered (res : value) (s : state) : state :=
  if paid res then
    emit OnSuccess (emit (ShowSuccess (t (u "充值成功")))
      (with_poll None (with_timer false (expire s) (on_view (setStatus Success) s))))
  else if bool_decide (poll_result res = Some (u "failed")) then with_poll None (on_view (setStatus Failed) s)
  else s.

(** [handleRefresh] *)
Definition handleRefresh (s : state) : state :=
  if refreshing (now s) || negb (bool_decide (status (now s) = Pending)) then s else
  let charge := roundMoney (VNum (amount (now s))) in
  suspend (Refresh charge) (emit (Post charge) (on_view (setRefreshing true) s)).

Definition refresh_failed (message : value) (s : state) : state :=
  on_view (setRefreshing false) (emit (ShowError message) s).

Definition refresh_answered (charge : num) (res : value) (time : Z) (s : state) : state :=
  match parts_of res with
  | None => refresh_failed (VStr (t (u "网络异常，请稍后重试"))) s
  | Some (success, message, data) =>
      if success && truthy data then
        let s := take_order data s in
        match price data with
        | None => refresh_failed (VStr (t (u "网络异常，请稍后重试"))) s
        | Some money => on_view (setRefreshing false) (startCountdown time (order_shown charge money s))
        end
      else refresh_failed (value_or message (VStr (t (u "刷新二维码失败")))) s
  end.

(** [handleClose] *)
Definition handleClose (s : state) : state := setVisible_ false (resetState s).

(** One run of the interval of the countdown. *)
Definition count (time : Z) (s : state) : state :=
  let diff := (expire s - time)%Z in
  if (diff <=? 0)%Z
  then with_poll None (with_timer false (expire s) (on_view (λ v, setStatus Expired (setCountdown (u "0:00") v)) s))
  else on_view (setCountdown (countdown_text diff)) s.

(** *** What is shown *)

Definition showBootSpinner (v : view) : bool :=
  visible (from v) && (bool_decide (shown v = Loading) || loading v) && negb (truthy (qrUrl v)).

Definition ended (v : view) : bool := bool_decide (status v = Failed) || bool_decide (status v = Expired).

(** *** Steps *)

Inductive event :=
  | Render (p : props)
  | Close
  | Retry
  | RefreshClick
  | Second (time : Z)
  | PollTick
  | Answer (i : nat) (res : value) (time : Z)
  | Failure (i : nat).

Definition take_call (i : nat) (s : state) : state := with_calls (delete i (calls s)) s.

Definition answered (w : waiting) (res : value) (time : Z) (s : state) : state :=
  match w with
  | Create id charge => create_answered id charge res time s
  | Poll => poll_answered res s
  | Refresh charge => refresh_answered charge res time s
  end.

Definition failed (w : waiting) (s : state) : state :=
  match w with
  | Create id _ => create_rejected id s
  | Poll => s
  | Refresh _ => refresh_failed (VStr (t (u "网络异常，请稍后重试"))) s
  end.

(** A button is there where it is shown. *)
Definition handle (s : state) (e : event) : state :=
  let v := now s in
  match e with
  | Render p => on_view (setProps p) s
  | Close => if visible (from v) then handleClose s else s
  | Retry => if visible (from v) && negb (showBootSpinner v) && ended v then resetState s else s
  | RefreshClick =>
      if visible (from v) && negb (showBootSpinner v) && bool_decide (status v = Pending) then handleRefresh s else s
  | Second time => if timer s then count time s else s
  | PollTick => match poll s with Some no => pollStatus no s | None => s end
  | Answer i res time => match calls s !! i with Some w => answered w res time (take_call i s) | None => s end
  | Failure i => match calls s !! i with Some w => failed w (take_call i s) | None => s end
  end.

Definition is_render (e : event) : bool := match e with Render _ => true | _ => false end.

Definition step (s : state) (e : event) : state := commit (now s) (is_render e) (handle s e).
Definition run (s : state) (l : list event) : state := fold_left step l s.

(** The dialog as it is mounted, closed. *)
Definition init (minTopUp payAmount : value) (language : jsstr) : state :=
  mk_state (mk_view (mk_props false minTopUp payAmount language) Loading (charge_of payAmount minTopUp) false (VStr []) (VStr [])
    (num_of_Z 0) Pending (u "5:00") false) None false 0 None 0 [] [].
End dialog.
