(* ===== verification/AlipayQRLaws.v ===== *)
(** * Properties of the dialog with the code
    What is asked for is the order that is shown, and it expires; after an order has failed
    or expired the button to pay again makes no order; an answer to a refresh that comes
    after the payment hides it. *)

From Stdlib Require Import SpecFloat.
From stdpp Require Import base numbers option strings sets list.
From S2P Require Import Prelude JsString JsNumber JsValue JsSame Json JsOps Amounts Dates OptionForms AlipayQR.

Local Open Scope nat_scope.
#[local] Opaque u.

Section laws.
Context (t : jsstr → jsstr).
Abbreviation step := (step t).
Abbreviation run := (run t).
Abbreviation handle := (handle t).

(** ** What is asked for *)

Record invariant (s : state) : Prop := {
  inv_poll : poll s = polled (now s);
  inv_shown : shown (now s) = QRCode →
    visible (from (now s)) = true ∧ (status (now s) = Pending → timer s = true);
  inv_making : is_Some (making s) → visible (from (now s)) = true;
  inv_amount : amount (now s) = charge_of (payAmount (from (now s))) (minTopUp (from (now s)));
}.

(** What a handler leaves of the invariant for the effects. *)
Record handled (s s' : state) : Prop := {
  h_poll : poll s' = poll s ∨ poll s' = None ∧ polled (now s') = None;
  h_shown : shown (now s') = QRCode →
    visible (from (now s)) = true ∧ (status (now s') = Pending → timer s' = true);
  h_making : making s' = making s;
  h_amount : amount (now s') = amount (now s);
}.

Lemma handled_refl s : invariant s → handled s s.
Proof. intros []. split; auto. Qed.

Lemma polled_not_pending v : status v ≠ Pending → polled v = None.
Proof. intros H. unfold polled. by rewrite (bool_decide_false _ H), andb_false_r. Qed.

Lemma polled_loading v : shown v = Loading → polled v = None.
Proof. intros H. unfold polled. by rewrite H. Qed.

Lemma poll_status_same no s : let s' := pollStatus no s in
  now s' = now s ∧ poll s' = poll s ∧ timer s' = timer s ∧ making s' = making s.
Proof. cbv zeta. unfold pollStatus. destruct (truthy no), (status_url no); done. Qed.

Lemma poll_effect_same v s : let s' := poll_effect v s in
  now s' = now s ∧ poll s' = polled v ∧ timer s' = timer s ∧ making s' = making s.
Proof.
  cbv zeta. unfold poll_effect. destruct (polled v) as [no|]; [|done].
  destruct (poll_status_same no (with_poll (Some no) s)) as (-> & -> & -> & ->). done.
Qed.

(** A view in which an order fails to be made, or is left. *)
Lemma create_failed_handled m s0 s :
  handled s0 s → handled s0 (create_failed m s).
Proof. intros []. split; auto. Qed.

Lemma refresh_failed_handled m s0 s :
  handled s0 s → handled s0 (refresh_failed m s).
Proof. intros []. split; auto. Qed.

Lemma take_call_handled i s : invariant s → handled s (take_call i s).
Proof. intros []. split; auto. Qed.

Lemma create_answered_handled id c res time i s :
  invariant s → handled s (create_answered t id c res time (take_call i s)).
Proof.
  intros Hs. pose proof (take_call_handled i s Hs) as Ht. unfold create_answered.
  destruct (bool_decide _) eqn:E; [|exact Ht]. apply bool_decide_eq_true in E. cbn [negb].
  destruct (parts_of res) as [[[success m] data]|]; [|by apply create_failed_handled].
  destruct (success && truthy data); [|by apply create_failed_handled].
  destruct (price data) as [money|]; [|apply create_failed_handled]; destruct Hs as [H1 H2 H3 H4]; split; auto.
Qed.

Lemma refresh_answered_handled c res time i s :
  invariant s → handled s (refresh_answered t c res time (take_call i s)).
Proof.
  intros Hs. pose proof (take_call_handled i s Hs) as Ht. unfold refresh_answered.
  destruct (parts_of res) as [[[success m] data]|]; [|by apply refresh_failed_handled].
  destruct (success && truthy data); [|by apply refresh_failed_handled].
  destruct (price data) as [money|]; [|apply refresh_failed_handled]; destruct Hs as [H1 H2 H3 H4]; split; auto; simpl; intros Hq.
  apply H2 in Hq as [? ?]. auto.
Qed.

Lemma poll_answered_handled res i s :
  invariant s → handled s (poll_answered t res (take_call i s)).
Proof.
  intros Hs. pose proof (take_call_handled i s Hs) as Ht. unfold poll_answered.
  destruct (paid res); [|destruct (bool_decide _); [|exact Ht]]; destruct Hs as [H1 H2 H3 H4]; split; auto;
    try (right; split; [done|]; by apply polled_not_pending); simpl; intros Hq; by apply H2 in Hq as [? ?].
Qed.

Lemma reset_handled s : invariant s → handled s (resetState s).
Proof. intros []. split; [by right|done|done|done]. Qed.

(** Every handler leaves it to the effects to keep the invariant. *)
Lemma dialog_handled s e : invariant s → handled s (handle s e).
Proof.
  intros Hs. pose proof (handled_refl s Hs) as Hr. destruct e as [p| | | |time| |i res time|i]; cbn [AlipayQR.handle].
  - destruct Hs. split; auto.
  - destruct (visible _); [|done]. unfold handleClose. destruct Hs. split; [by right|done..].
  - destruct (_ && _ && _); [by apply reset_handled|done].
  - destruct (_ && _ && _); [|done]. unfold handleRefresh. destruct (_ || _); [done|].
    destruct Hs as [H1 H2 H3 H4]. split; auto.
  - destruct (timer s) eqn:Et; [|done]. unfold count. destruct Hs as [H1 H2 H3 H4]. destruct (_ <=? 0)%Z; split; auto.
    + right. split; [done|]. by apply polled_not_pending.
    + simpl. intros Hq. apply H2 in Hq as [? ?]. done.
  - destruct (poll s) as [no|]; [|done]. destruct (poll_status_same no s) as (E1 & E2 & E3 & E4). destruct Hs as [H1 H2 H3 H4].
    split; rewrite ?E1, ?E2, ?E3, ?E4; auto.
  - destruct (calls s !! i) as [[id c| |c]|]; [| | |done]; cbn [answered].
    + by apply create_answered_handled.
    + by apply poll_answered_handled.
    + by apply refresh_answered_handled.
  - pose proof (take_call_handled i s Hs) as Ht. destruct (calls s !! i) as [[id c| |c]|]; [| | |done]; cbn [failed].
    + unfold create_rejected. destruct (bool_decide _); [by apply create_failed_handled|done].
    + done.
    + by apply refresh_failed_handled.
Qed.

(** ** The effects keep the invariant *)

Lemma polled_deps v v' : poll_deps v = poll_deps v' → polled v = polled v'.
Proof. unfold polled. by intros [= -> -> ->]. Qed.

Lemma amount_deps v v' : amounts (from v) = amounts (from v') →
  charge_of (payAmount (from v)) (minTopUp (from v)) = charge_of (payAmount (from v')) (minTopUp (from v')).
Proof. by intros [= -> ->]. Qed.

(** The last round of the effects asks for the order of the last view. *)
Lemma last_round v s : poll s = polled v →
  let s' := if bool_decide (poll_deps (now s) = poll_deps v) then s else poll_effect (now s) s in
  now s' = now s ∧ poll s' = polled (now s) ∧ timer s' = timer s ∧ making s' = making s.
Proof.
  intros H. cbv zeta. destruct (bool_decide _) eqn:E; [|apply poll_effect_same].
  apply bool_decide_eq_true in E. by rewrite H, (polled_deps _ _ E).
Qed.

(** The effects where the properties stay. *)
Lemma commit_poll v0 b s :
  from (now s) = from v0 →
  commit v0 b s =
    let s4 := if b || negb (bool_decide (poll_deps (now s) = poll_deps v0)) then poll_effect (now s) s else s in
    if bool_decide (poll_deps (now s4) = poll_deps (now s)) then s4 else poll_effect (now s4) s4.
Proof.
  intros Hf. unfold commit. rewrite Hf, eqb_reflx, (bool_decide_true (from v0 = from v0) eq_refl).
  rewrite (bool_decide_true (amounts (from v0) = amounts (from v0)) eq_refl). cbn [negb andb].
  by rewrite orb_false_r.
Qed.

Lemma dialog_commit_same s b s' :
  from (now s') = from (now s) → invariant s → handled s s' → invariant (commit (now s) b s').
Proof.
  intros Hf [H1 H2 H3 H4] [K1 K2 K3 K4]. rewrite commit_poll by done. cbv zeta.
  assert (∀ s4, now s4 = now s' → poll s4 = polled (now s') → timer s4 = timer s' → making s4 = making s' → invariant s4) as Hi.
  { intros s4 E1 E2 E3 E4. split; rewrite ?E1, ?E2, ?E3, ?E4, ?Hf; [done|done|by rewrite K3|by rewrite K4]. }
  destruct (b || _) eqn:E.
  - destruct (poll_effect_same (now s') s') as (E1 & E2 & E3 & E4).
    destruct (last_round (now s') (poll_effect (now s') s') E2) as (F1 & F2 & F3 & F4).
    apply Hi; [by rewrite F1|by rewrite F2, E1|by rewrite F3|by rewrite F4].
  - apply orb_false_iff in E as [_ E]. apply negb_false_iff, bool_decide_eq_true in E.
    assert (poll s' = polled (now s')) as Hp.
    { destruct K1 as [K1|[-> K1]]; [|done]. by rewrite K1, H1, (polled_deps _ _ E). }
    destruct (last_round (now s') s' Hp) as (F1 & F2 & F3 & F4). by apply Hi.
Qed.

(** The effects of other properties up to the one that makes an order. *)
Definition prepared (v0 : view) (s : state) : state :=
  let v := now s in
  let s := if negb (eqb (visible (from v)) (visible (from v0))) && negb (visible (from v)) then resetState s else s in
  let s := if bool_decide (amounts (from v) = amounts (from v0)) then s
           else on_view (setAmount (charge_of (payAmount (from v)) (minTopUp (from v)))) s in
  create_effect v s.

Lemma prepared_invariant s s' :
  invariant s → handled s s' →
  let s3 := prepared (now s) s' in
  (shown (now s3) ≠ QRCode) ∧ (is_Some (making s3) → visible (from (now s3)) = true) ∧
  amount (now s3) = charge_of (payAmount (from (now s3))) (minTopUp (from (now s3))).
Proof.
  intros [H1 H2 H3 H4] [K1 K2 K3 K4]. cbv zeta. unfold prepared.
  set (s1 := if negb (eqb _ _) && _ then resetState s' else s').
  assert (from (now s1) = from (now s') ∧ amount (now s1) = amount (now s')) as [F1 F2] by (unfold s1; by destruct (_ && _)).
  set (s2 := if bool_decide _ then s1 else _).
  assert (from (now s2) = from (now s') ∧ shown (now s2) = shown (now s1)) as [G1 G2] by (unfold s2; by destruct (bool_decide _)).
  assert (amount (now s2) = charge_of (payAmount (from (now s'))) (minTopUp (from (now s')))) as G3.
  { unfold s2. destruct (bool_decide _) eqn:E; [|done]. apply bool_decide_eq_true in E.
    by rewrite F2, K4, H4, (amount_deps _ _ E). }
  unfold create_effect. cbv zeta. destruct (visible (from (now s'))) eqn:Ev.
  - unfold create. cbn -[charge_of]. rewrite G1, Ev. done.
  - cbn -[charge_of]. rewrite G1, G3. split; [|split; [by intros []|done]]. rewrite G2. unfold s1. rewrite ?Ev.
    destruct (visible (from (now s))) eqn:Ev0; [done|]. cbn. intros Hq. apply K2 in Hq as [Hq _]. congruence.
Qed.

Lemma commit_invariant s b s' : invariant s → handled s s' → invariant (commit (now s) b s').
Proof.
  intros Hs Hh. destruct (decide (from (now s') = from (now s))) as [Hf|Hf]; [by apply dialog_commit_same|].
  destruct (prepared_invariant s s' Hs Hh) as (P1 & P2 & P3). unfold commit. fold (prepared (now s) s').
  rewrite (bool_decide_false (from (now s') = from (now s)) Hf). cbn [negb]. rewrite orb_true_r. cbn [orb].
  change (invariant (let s4 := poll_effect (now s') (prepared (now s) s') in
    if bool_decide (poll_deps (now s4) = poll_deps (now s')) then s4 else poll_effect (now s4) s4)).
  set (s3 := prepared (now s) s') in *. cbv zeta.
  destruct (poll_effect_same (now s') s3) as (E1 & E2 & E3 & E4).
  destruct (last_round (now s') (poll_effect (now s') s3) E2) as (F1 & F2 & F3 & F4).
  split; rewrite ?F1, ?F2, ?F3, ?F4, ?E1, ?E3, ?E4; done.
Qed.

Lemma dialog_step_invariant s e : invariant s → invariant (step s e).
Proof. intros H. apply commit_invariant; [done|]. by apply dialog_handled. Qed.

Lemma run_invariant_of l min pay lang : invariant (run (init min pay lang) l).
Proof.
  assert (invariant (init min pay lang)) as H0 by (split; try done; by intros []).
  revert H0. generalize (init min pay lang). induction l as [|e l IH]; intros s Hs; [done|]. by apply IH, dialog_step_invariant.
Qed.


(** *** Five minutes *)

(** An answer with an order: its price can be read. *)
Definition has_order (res : value) : bool :=
  match parts_of res with
  | Some (success, _, data) => success && truthy data && bool_decide (is_Some (price data))
  | None => false
  end.

(** When an event gives the dialog an order, that which is being made or a refreshed one. *)
Definition order_given (s : state) (e : event) : option Z :=
  match e with
  | Answer i res time =>
      match calls s !! i with
      | Some (Create id _) => if bool_decide (making s = Some id) && has_order res then Some time else None
      | Some (Refresh _) => if has_order res then Some time else None
      | _ => None
      end
  | _ => None
  end.

(** The time of the last order that was given. *)
Fixpoint last_order (s : state) (l : list event) (before : option Z) : option Z :=
  match l with
  | [] => before
  | e :: l' => last_order (step s e) l' (match order_given s e with Some time => Some time | None => before end)
  end.

(** The countdown that goes is that of the last order. *)
Definition timed (given : option Z) (s : state) : Prop :=
  timer s = true → ∃ time, given = Some time ∧ expire s = (time + 300000)%Z.

Lemma poll_effect_timer v s : timer (poll_effect v s) = timer s ∧ expire (poll_effect v s) = expire s.
Proof.
  unfold poll_effect, pollStatus. destruct (polled v) as [no|]; [|done]. destruct (truthy no); [|done]. by destruct (status_url no).
Qed.

(** The effects can only stop the countdown. *)
Lemma commit_timed given v0 b s : timed given s → timed given (commit v0 b s).
Proof.
  intros H. unfold commit.
  set (s1 := if negb (eqb _ _) && _ then resetState s else s). assert (timed given s1) as H1 by (unfold s1; by destruct (_ && _)).
  set (s2 := if bool_decide (amounts _ = _) then s1 else _).
  assert (timed given s2) as H2 by (unfold s2; by destruct (bool_decide (amounts _ = _))).
  set (s3 := if negb _ then create_effect _ _ else s2).
  assert (timed given s3) as H3.
  { unfold s3, create_effect. destruct (negb (bool_decide _)); [|done]. by destruct (visible (from (now s))). }
  assert (∀ v x, timed given x → timed given (poll_effect v x)) as Hp.
  { intros v x Hx. unfold timed. by destruct (poll_effect_timer v x) as [-> ->]. }
  set (s4 := if _ || _ then poll_effect _ _ else s3).
  assert (timed given s4) as H4 by (unfold s4; destruct (_ || _); [by apply Hp|done]).
  destruct (bool_decide (poll_deps (now s4) = _)); [done|by apply Hp].
Qed.

Lemma handle_timed given s e :
  timed given s → timed (match order_given s e with Some time => Some time | None => given end) (handle s e).
Proof.
  intros H. destruct e as [p| | | |time| |i res time|i]; cbn [AlipayQR.handle order_given].
  - done.
  - by destruct (visible _).
  - by destruct (_ && _ && _).
  - destruct (_ && _ && _); [|done]. unfold handleRefresh. by destruct (_ || _).
  - destruct (timer s) eqn:Et; [|done]. unfold count. destruct (_ <=? 0)%Z; unfold timed; simpl; [done|exact H].
  - destruct (poll s) as [no|]; [|done]. unfold pollStatus. destruct (truthy no); [|done]. by destruct (status_url no).
  - destruct (calls s !! i) as [[id c| |c]|]; [| | |done]; cbn [answered].
    + unfold create_answered, has_order. destruct (bool_decide (making (take_call i s) = Some id)) eqn:Em;
        change (making (take_call i s)) with (making s) in Em; rewrite Em; cbn [negb andb]; [|done].
      destruct (parts_of res) as [[[success m] data]|]; [|done]. destruct (success && truthy data); [|done]. cbn [andb].
      destruct (price data) as [money|]; [|done]. intros _. by exists time.
    + unfold poll_answered. destruct (paid res); [done|]. by destruct (bool_decide _).
    + unfold refresh_answered, has_order. destruct (parts_of res) as [[[success m] data]|]; [|done].
      destruct (success && truthy data); [|done]. cbn [andb].
      destruct (price data) as [money|]; [|done]. intros _. by exists time.
  - destruct (calls s !! i) as [[id c| |c]|]; [| | |done]; cbn [failed]; try done.
    unfold create_rejected. by destruct (bool_decide _).
Qed.

Lemma run_timed l s given : timed given s → timed (last_order s l given) (run s l).
Proof.
  revert s given. induction l as [|e l IH]; intros s given H; [done|]. cbn [last_order]. apply IH, commit_timed.
  by apply handle_timed.
Qed.

(** One run of the interval of a pending order. *)
Lemma count_step s time : poll s = polled (now s) → is_Some (poll s) → timer s = true →
  let s' := step s (Second time) in
  if (expire s - time <=? 0)%Z then status (now s') = Expired ∧ poll s' = None ∧ timer s' = false
  else status (now s') = Pending ∧ poll s' = poll s ∧ timer s' = true ∧ countdown (now s') = countdown_text (expire s - time).
Proof.
  intros Hi [no Hp] Ht. cbv zeta. unfold AlipayQR.step. cbn [AlipayQR.handle is_render]. rewrite Ht. unfold count.
  assert (status (now s) = Pending) as Hs.
  { rewrite Hi in Hp. unfold polled in Hp. destruct (_ && _ && _) eqn:E; [|done]. by bool_simp. }
  destruct (expire s - time <=? 0)%Z.
  - set (s' := with_poll None _). rewrite commit_poll by done. cbv zeta.
    assert (∀ x, now x = now s' ∧ timer x = timer s' ∧ poll x = None → status (now x) = Expired ∧ poll x = None ∧ timer x = false) as Hx.
    { intros x (-> & -> & ->). done. }
    assert (polled (now s') = None) as Hn by by apply polled_not_pending.
    apply Hx. destruct (poll_effect_same (now s') s') as (E1 & E2 & E3 & _).
    destruct (_ || _); [rewrite E1, bool_decide_true by done; by rewrite E1, E2, E3|by rewrite bool_decide_true].
  - rewrite commit_poll by done. cbn [orb]. set (s' := on_view _ s).
    rewrite (bool_decide_true (poll_deps (now s') = poll_deps (now s)) eq_refl). cbn [negb]. by rewrite bool_decide_true.
Qed.

(** C8: An order is pending for the five minutes after the answer that gave it: as long as it
    is asked for, a run of the countdown shows what is left of the 300000 milliseconds, and
    the first one after them ends the order and the questions. *)
Theorem orders_expire min pay lang l no :
  let s := run (init min pay lang) l in
  poll s = Some no →
  ∃ given, last_order (init min pay lang) l None = Some given ∧
  ∀ time, let s' := step s (Second time) in
    if (given + 300000 <=? time)%Z
    then status (now s') = Expired ∧ poll s' = None ∧ timer s' = false
    else status (now s') = Pending ∧ poll s' = Some no ∧ timer s' = true ∧
         countdown (now s') = countdown_text (given + 300000 - time).
Proof.
  intros s Hp. pose proof (run_invariant_of l min pay lang) as [H1 H2 H3 H4]. fold s in H1, H2, H3, H4.
  assert (timer s = true) as Ht.
  { rewrite H1 in Hp. unfold polled in Hp. destruct (_ && _ && _) eqn:E; [|done]. bool_simp. by apply H2. }
  destruct (run_timed l (init min pay lang) None) as (given & Hg & He); [by intros [=]|exact Ht|].
  exists given. split; [exact Hg|]. intros time. cbv zeta. fold s in He.
  pose proof (count_step s time H1 ltac:(by eexists) Ht) as Hc. cbv zeta in Hc. rewrite He, Hp in Hc.
  replace (given + 300000 <=? time)%Z with (given + 300000 - time <=? 0)%Z; [exact Hc|].
  destruct (Z.leb_spec (given + 300000 - time) 0), (Z.leb_spec (given + 300000) time); lia || done.
Qed.

(** ** An order that has ended *)

Definition posts (l : list effect) : list num := omap (λ e, match e with Post x => Some x | _ => None end) l.

(** The user does not close the dialog, and the page tells it nothing new. *)
Definition stays (p : props) (e : event) : bool :=
  match e with Close => false | Render p' => bool_decide (p' = p) | _ => true end.

(** A call that can still make an order of the dialog's own. *)
Definition is_making (s : state) (w : waiting) : Prop := match w with Create id _ => making s = Some id | _ => False end.
Definition is_refresh (w : waiting) : Prop := match w with Refresh _ => True | _ => False end.

(** The dialog waits for an order, and no call makes one. *)
Record stuck (p : props) (s : state) : Prop := {
  st_from : from (now s) = p;
  st_shown : shown (now s) = Loading;
  st_poll : poll s = None;
  st_calls : Forall (λ w, ¬ is_making s w) (calls s);
}.

(** It spins, and no refresh will end that. *)
Record spinning (p : props) (s : state) : Prop := {
  sp_visible : visible p = true;
  sp_from : from (now s) = p;
  sp_shown : shown (now s) = Loading;
  sp_url : qrUrl (now s) = VStr [];
  sp_calls : Forall (λ w, ¬ is_refresh w) (calls s);
}.

Lemma spinning_shown p s : spinning p s → showBootSpinner (now s) = true.
Proof. intros [H1 H0 H2 H3 _]. unfold showBootSpinner. by rewrite H0, H1, H2, H3. Qed.

Lemma stuck_commit p v0 b s : from v0 = p → stuck p s →
  stuck p (commit v0 b s) ∧ effects_run (commit v0 b s) = effects_run s ∧ posts (log (commit v0 b s)) = posts (log s) ∧
  now (commit v0 b s) = now s ∧ calls (commit v0 b s) = calls s.
Proof.
  intros Hv0 Hs. rewrite commit_poll by (rewrite Hv0; by destruct Hs). cbv zeta. destruct Hs as [H1 H2 H3 H4].
  assert (poll_effect (now s) s = with_poll None s) as -> by (unfold poll_effect; by rewrite (polled_loading _ H2)).
  destruct (_ || _); rewrite bool_decide_true by done; (split; [by split|done]).
Qed.

(** What a handler leaves of it. *)
Definition stays_stuck (p : props) (s s' : state) : Prop :=
  stuck p s' ∧ effects_run s' = effects_run s ∧ (spinning p s → spinning p s' ∧ posts (log s') = posts (log s)).

Lemma stuck_view p s f :
  stuck p s → from (f (now s)) = p → shown (f (now s)) = Loading → (qrUrl (now s) = VStr [] → qrUrl (f (now s)) = VStr []) →
  stays_stuck p s (on_view f s).
Proof. intros [H1 H2 H3 H4] F1 F2 F3. split; [by split|]. split; [done|]. intros []. split; [split; auto|done]. Qed.

Lemma stuck_take p s i : stuck p s →
  stuck p (take_call i s) ∧ (spinning p s → spinning p (take_call i s)).
Proof. intros []. split; [split; try done; by apply Forall_delete|]. intros []. split; try done. by apply Forall_delete. Qed.

Lemma stuck_handle p s e : stuck p s → stays p e = true → visible p = true → stays_stuck p s (handle s e).
Proof.
  intros Hs He Hv. pose proof Hs as [H1 H2 H3 H4].
  assert (stays_stuck p s s) as Hr by by split.
  destruct e as [p'| | | |time| |i res time|i]; cbn [AlipayQR.handle]; try done.
  - apply bool_decide_eq_true in He as ->. by apply stuck_view.
  - destruct (_ && _ && _); [|done]. split; [by split|]. split; [done|]. intros []. by split.
  - destruct (showBootSpinner (now s)) eqn:Eb; [by rewrite andb_false_r|].
    destruct (_ && _ && _); [|done]. unfold handleRefresh. destruct (_ || _); [done|]. split.
    { split; try done. cbn [calls suspend with_calls emit on_view with_view]. apply Forall_app. split; [exact H4|]. constructor; [intros []|constructor]. }
    split; [done|]. intros Hsp. apply spinning_shown in Hsp. congruence.
  - destruct (timer s); [|done]. unfold count. destruct (_ <=? 0)%Z; (split; [by split|split; [done|]]; intros []; by split).
  - by rewrite H3.
  - destruct (calls s !! i) as [w|] eqn:Ei; [|done]. destruct (stuck_take p s i Hs) as [T1 T2].
    assert (stays_stuck p s (take_call i s)) as Ht by (split; [done|]; split; [done|]; auto).
    pose proof (Forall_lookup_1 _ _ _ _ H4 Ei) as Hw. destruct w as [id c| |c]; cbn [answered].
    + unfold create_answered. by rewrite bool_decide_false.
    + unfold poll_answered. destruct (paid res); [|destruct (bool_decide _); [|exact Ht]]; destruct T1;
        (split; [by split|split; [done|]]; intros Hsp; destruct (T2 Hsp); by split).
    + assert (spinning p s → False) as Hno by (intros []; by pose proof (Forall_lookup_1 _ _ _ _ sp_calls0 Ei) as []).
      unfold refresh_answered. destruct (parts_of res) as [[[success m] data]|]; [|destruct T1; (split; [by split|split; [done|intros Hsp; by destruct (Hno Hsp)]])].
      destruct T1. destruct (success && truthy data); [destruct (price data)|]; (split; [by split|split; [done|intros Hsp; by destruct (Hno Hsp)]]).
  - destruct (calls s !! i) as [w|] eqn:Ei; [|done]. destruct (stuck_take p s i Hs) as [T1 T2].
    assert (stays_stuck p s (take_call i s)) as Ht by (split; [done|]; split; [done|]; auto).
    pose proof (Forall_lookup_1 _ _ _ _ H4 Ei) as Hw. destruct w as [id c| |c]; cbn [failed]; [|done|].
    + unfold create_rejected. by rewrite bool_decide_false.
    + assert (spinning p s → False) as Hno by (intros []; by pose proof (Forall_lookup_1 _ _ _ _ sp_calls0 Ei) as []).
      destruct T1. split; [by split|split; [done|intros Hsp; by destruct (Hno Hsp)]].
Qed.

Lemma stuck_run p l s : stuck p s → visible p = true → forallb (stays p) l = true → stays_stuck p s (run s l).
Proof.
  revert s. induction l as [|e l IH]; intros s Hs Hv Hl; [by split|].
  simpl in Hl. apply andb_true_iff in Hl as [He Hl]. destruct (stuck_handle p s e Hs He Hv) as (S1 & S2 & S3).
  destruct (stuck_commit p (now s) (is_render e) (handle s e)) as (C1 & C2 & C3 & C4 & C5); [by destruct Hs|done|].
  fold (step s e) in C1, C2, C3, C4, C5. destruct (IH (step s e) C1 Hv Hl) as (I1 & I2 & I3).
  split; [exact I1|]. split; [by rewrite <- S2, <- C2|]. intros Hsp. destruct (S3 Hsp) as [P1 P2].
  assert (spinning p (step s e)) as P3 by (destruct P1; split; rewrite ?C4, ?C5; done).
  destruct (I3 P3) as [Q1 Q2]. split; [exact Q1|]. by rewrite <- P2, <- C3.
Qed.


(** An answer to a refresh that comes when the order has been paid takes the news away
    and asks for the payment of another order. *)
Theorem late_refresh_hides_payment s i charge res time m data money :
  invariant s → calls s !! i = Some (Refresh charge) → status (now s) = Success → shown (now s) = QRCode →
  parts_of res = Some (true, m, data) → truthy data = true → price data = Some money →
  truthy (opt_read (u "trade_no") data) = true →
  let s' := step s (Answer i res time) in
  status (now s') = Pending ∧ tradeNo (now s') = opt_read (u "trade_no") data ∧ poll s' = Some (tradeNo (now s')).
Proof.
  intros Hs Hi Hst Hq Hp Hd Hm Hn. cbv zeta. pose proof (dialog_step_invariant s (Answer i res time) Hs) as Hs'.
  assert (status (now (step s (Answer i res time))) = Pending ∧
    tradeNo (now (step s (Answer i res time))) = opt_read (u "trade_no") data ∧
    shown (now (step s (Answer i res time))) = QRCode) as (E1 & E2 & E3).
  { unfold AlipayQR.step. cbn [AlipayQR.handle]. rewrite Hi. cbn [answered]. unfold refresh_answered. rewrite Hp, Hd. cbn [andb].
    rewrite Hm. cbv zeta. set (s1 := on_view (setRefreshing false) _). rewrite commit_poll by done. cbv zeta.
    assert (∀ x, now x = now s1 → status (now x) = Pending ∧ tradeNo (now x) = opt_read (u "trade_no") data ∧ shown (now x) = QRCode) as Hx.
    { intros x ->. done. }
    apply Hx. destruct (poll_effect_same (now s1) s1) as (F1 & _).
    destruct (_ || _); [rewrite F1, bool_decide_true by done|rewrite bool_decide_true by done]; done. }
  split; [done|]. split; [done|]. destruct Hs' as [-> _ _ _]. unfold polled. rewrite E3, E1, E2, Hn. done.
Qed.
(** ** How often an order is made *)

Lemma poll_effect_orders v s : let s' := poll_effect v s in effects_run s' = effects_run s ∧ now s' = now s.
Proof.
  cbv zeta. unfold poll_effect, pollStatus. destruct (polled v) as [no|]; [|done].
  destruct (truthy no); [|done]. by destruct (status_url no).
Qed.

Lemma create_effect_orders v s : let s' := create_effect v s in
  effects_run s' = effects_run s + one (visible (from v)) ∧ from (now s') = from (now s).
Proof. cbv zeta. unfold create_effect. destruct (visible (from v)); simpl; split; done || lia. Qed.

(** The effects make an order where other properties are told and the dialog is open. *)
Lemma dialog_orders v0 b s : let s' := AlipayQR.commit v0 b s in
  effects_run s' = effects_run s + one (negb (bool_decide (from (now s) = from v0)) && visible (from (now s))) ∧
  from (now s') = from (now s).
Proof.
  cbv zeta. unfold AlipayQR.commit.
  set (s1 := if negb (eqb _ _) && _ then resetState s else s).
  set (s2 := if bool_decide (amounts _ = _) then s1 else _).
  assert (effects_run s2 = effects_run s ∧ from (now s2) = from (now s)) as [E1 E2].
  { unfold s2, s1. by destruct (bool_decide (amounts _ = _)), (_ && _). }
  set (s3 := if negb _ then create_effect _ _ else s2).
  assert (effects_run s3 = effects_run s + one (negb (bool_decide (from (now s) = from v0)) && visible (from (now s))) ∧
    from (now s3) = from (now s)) as [F1 F2].
  { unfold s3. destruct (negb (bool_decide _)); simpl.
    - destruct (create_effect_orders (now s) s2) as [G1 G2]. by rewrite G1, G2, E1, E2.
    - by rewrite E1, E2, Nat.add_0_r. }
  set (s4 := if _ || _ then poll_effect _ _ else s3).
  assert (effects_run s4 = effects_run s3 ∧ now s4 = now s3) as [G1 G2].
  { unfold s4. destruct (_ || _); [apply poll_effect_orders|done]. }
  destruct (poll_effect_orders (now s4) s4) as [H1 H2].
  destruct (bool_decide (poll_deps (now s4) = poll_deps (now s))).
  - by rewrite G1, G2.
  - by rewrite H1, H2, G1, G2.
Qed.

Lemma render_orders s p : let s' := step s (Render p) in
  effects_run s' = effects_run s + one (negb (bool_decide (p = from (now s))) && visible p) ∧ from (now s') = p.
Proof. apply (dialog_orders (now s) true (on_view (setProps p) s)). Qed.

(** What a handler of the dialog does to its properties: it can close it. *)
Definition closed (p : props) : props := mk_props false (minTopUp p) (payAmount p) (language p).

Lemma handle_orders s e : is_render e = false → let s' := AlipayQR.handle t s e in
  effects_run s' = effects_run s ∧ (from (now s') = from (now s) ∨ from (now s') = closed (from (now s))).
Proof.
  intros He. cbv zeta.
  assert (∀ m s0, from (now s0) = from (now s) → effects_run s0 = effects_run s →
    effects_run (create_failed m s0) = effects_run s ∧
    (from (now (create_failed m s0)) = from (now s) ∨ from (now (create_failed m s0)) = closed (from (now s)))) as Hf.
  { intros m s0 E1 E2. split; [done|]. right. unfold closed. by rewrite <- E1. }
  destruct e as [p| | | |time| |i res time|i]; [done|..]; cbn [AlipayQR.handle].
  - destruct (visible _); [|by auto]. split; [done|by right].
  - destruct (_ && _ && _); by auto.
  - destruct (_ && _ && _); [|by auto]. unfold handleRefresh. destruct (_ || _); by auto.
  - destruct (timer s); [|by auto]. unfold count. destruct (_ <=? 0)%Z; by auto.
  - destruct (poll s) as [no|]; [|by auto]. unfold pollStatus. destruct (truthy no); [|by auto]. destruct (status_url no); by auto.
  - destruct (calls s !! i) as [[id c| |c]|]; [| | |by auto]; cbn [answered].
    + unfold create_answered. destruct (negb _); [by auto|].
      destruct (parts_of res) as [[[success m] data]|]; [|by apply Hf].
      destruct (success && truthy data); [|by apply Hf]. destruct (price data); [by auto|by apply Hf].
    + unfold poll_answered. destruct (paid res); [by auto|]. destruct (bool_decide _); by auto.
    + unfold refresh_answered. destruct (parts_of res) as [[[success m] data]|]; [|by auto].
      destruct (success && truthy data); [|by auto]. destruct (price data); by auto.
  - destruct (calls s !! i) as [[id c| |c]|]; [| | |by auto]; cbn [failed]; [|by auto|by auto].
    unfold create_rejected. destruct (bool_decide _); [by apply Hf|by auto].
Qed.

Lemma other_orders s e : is_render e = false → let s' := step s e in
  effects_run s' = effects_run s ∧ (from (now s') = from (now s) ∨ from (now s') = closed (from (now s))).
Proof.
  intros He. cbv zeta. destruct (handle_orders s e He) as [H1 H2].
  destruct (dialog_orders (now s) (is_render e) (AlipayQR.handle t s e)) as [G1 G2].
  unfold AlipayQR.step. rewrite G1, G2. split; [|done]. rewrite H1.
  destruct H2 as [->| ->]; [rewrite bool_decide_true by done; simpl; lia|]. unfold closed. simpl. rewrite andb_false_r. simpl. lia.
Qed.
End laws.

(** ** Witnesses *)

#[local] Transparent u.

Definition num_value (z : Z) : value := VNum (num_of_Z z).
Definition dialog : props := mk_props true (num_value 1) (num_value 25) (u "zh").
Definition answer (data : value) : value := VObj [(u "data", VObj [(u "success", VBool true); (u "data", data)])].
Definition order (no : string) : value :=
  answer (VObj [(u "trade_no", VStr (u no)); (u "qr_url", VStr (u "https://qr.alipay.com/x")); (u "money", VStr (u "25.00"))]).
Definition told (status : string) : value := answer (VObj [(u "status", VStr (u status))]).
Definition go (l : list event) : state := run (λ x, x) (init (num_value 1) (num_value 10) (u "zh")) l.

(** An order is made at noon and its first question is answered. *)
Definition opened : list event := [Render dialog; Answer 0 (order "A1") 1000; Answer 0 (told "pending") 1100].

Example order_made :
  let s := go opened in
  (log s, status (now s), poll s, countdown (now (go (opened ++ [Second 63000])))) =
  ([Get (u "/api/user/alipay/status?trade_no=A1"); Post (num_of_Z 25)], Pending, Some (VStr (u "A1")), u "3:58").
Proof. vm_compute. reflexivity. Qed.

(** Two questions may be under way: the payment is told twice. *)
Example payment_told_twice :
  log (go (opened ++ [PollTick; PollTick; Answer 0 (told "success") 5000; Answer 0 (told "success") 5001])) =
  [OnSuccess; ShowSuccess (u "充值成功"); OnSuccess; ShowSuccess (u "充值成功");
   Get (u "/api/user/alipay/status?trade_no=A1"); Get (u "/api/user/alipay/status?trade_no=A1");
   Get (u "/api/user/alipay/status?trade_no=A1"); Post (num_of_Z 25)].
Proof. vm_compute. reflexivity. Qed.

(** The end of an older order is taken for that of the one that is shown. *)
Example old_order_fails :
  let s := go (opened ++ [PollTick; RefreshClick; Answer 1 (order "A2") 6000; Answer 0 (told "failed") 6100]) in
  (tradeNo (now s), status (now s)) = (VStr (u "A2"), Failed).
Proof. vm_compute. reflexivity. Qed.

Lemma orders_expire_witness :
  let s := go opened in
  ∃ given, last_order (λ x, x) (init (num_value 1) (num_value 10) (u "zh")) opened None = Some given ∧
  ∀ time, let s' := step (λ x, x) s (Second time) in
    if (given + 300000 <=? time)%Z
    then status (now s') = Expired ∧ poll s' = None ∧ timer s' = false
    else status (now s') = Pending ∧ poll s' = Some (VStr (u "A1")) ∧ timer s' = true ∧
         countdown (now s') = countdown_text (given + 300000 - time).
Proof. intros s. apply (orders_expire (λ x, x) (num_value 1) (num_value 10) (u "zh") opened (VStr (u "A1"))). vm_compute. reflexivity. Defined.

(** Another language makes another order while the first one is shown. *)
Example language_makes_order :
  let s := go (opened ++ [Render (mk_props true (num_value 1) (num_value 25) (u "en"))]) in
  (posts (log s), shown (now s)) = ([num_of_Z 25; num_of_Z 25], Loading).
Proof. vm_compute. reflexivity. Qed.

(** A refresh that is answered after the button to pay again shows a code that nobody asks for. *)
Example refresh_after_retry :
  let s := go (opened ++ [RefreshClick; Second 301000; Retry; Answer 0 (order "A2") 302000; Second 303000; PollTick]) in
  (showBootSpinner (now s), tradeNo (now s), status (now s), poll s) = (false, VStr (u "A2"), Pending, None).
Proof. vm_compute. reflexivity. Qed.


Lemma late_refresh_hides_payment_witness :
  let s := go (opened ++ [PollTick; RefreshClick; Answer 0 (told "success") 5000]) in
  status (now s) = Success ∧ status (now (step (λ x, x) s (Answer 0 (order "A2") 5200))) = Pending.
Proof.
  intros s. split; [vm_compute; reflexivity|].
  assert (calls s !! 0 = Some (Refresh (num_of_Z 25))) as H1 by (vm_compute; reflexivity).
  assert (status (now s) = Success) as H2 by (vm_compute; reflexivity).
  assert (shown (now s) = QRCode) as H3 by (vm_compute; reflexivity).
  set (data := VObj [(u "trade_no", VStr (u "A2")); (u "qr_url", VStr (u "https://qr.alipay.com/x")); (u "money", VStr (u "25.00"))]).
  assert (parts_of (order "A2") = Some (true, VUndef, data)) as H4 by (vm_compute; reflexivity).
  assert (price data = Some (num_of_Z 25)) as H5 by (vm_compute; reflexivity).
  assert (truthy (opt_read (u "trade_no") data) = true) as H6 by (vm_compute; reflexivity).
  exact (proj1 (late_refresh_hides_payment (λ x, x) s 0 (num_of_Z 25) (order "A2") 5200 VUndef data (num_of_Z 25)
    (run_invariant_of (λ x, x) _ _ _ _) H1 H2 H3 H4 eq_refl H5 H6)).
Defined.
