(* ===== verification/Topup.v ===== *)
(** * The page on which one pays
    [src/web/src/components/topup/index.jsx] with [RechargeCard.jsx]: the balance, what can
    be paid with, the amount, the request for a payment elsewhere, and the dialog with the
    code, [AlipayQR], that the page mounts. *)

From Stdlib Require Import SpecFloat.
From stdpp Require Import base numbers option strings sets list.
From S2P Require Import Prelude JsString JsNumber NumberOrder JsValue Json JsSame JsOps OptionForms Amounts AlipayQR AlipayQRLaws.

(** ** State *)

(** The page but for its dialog; [dispatches] counts the users that were put into the
    context, each a new object.  The [language] is the console's: its bar changes it, and
    so does [context/User/index.jsx] when a user is loaded whose own language is another. *)
Record view := mk_view {
  minTopUp : value; payAmount : value; enableAlipayTopUp : value; enableEpayTopUp : value; epayPayTypes : list value;
  statusLoading : bool; openHistory : bool; epayLoading : bool; user : value; dispatches : nat; language : jsstr;
}.
#[export] Instance view_eq_dec : EqDecision view.
Proof. solve_decision. Defined.

Inductive effect :=
  | GetSelf
  | GetInfo
  | PayElsewhere (amount : num) (type : value)
  | Leave (url : value)
  | ShowError (v : value)
  | Unhandled.

Inductive waiting := Self | Info | Epay.
#[export] Instance waiting_eq_dec : EqDecision waiting.
Proof. solve_decision. Defined.

Record state := mk_state { now : view; qr : AlipayQR.state; calls : list waiting; log : list effect }.

Definition emit e s := mk_state (now s) (qr s) (calls s) (e :: log s).
Definition with_calls l s := mk_state (now s) (qr s) l (log s).
Definition with_qr x s := mk_state (now s) x (calls s) (log s).
Definition suspend (w : waiting) (s : state) : state := with_calls (calls s ++ [w]) s.
Definition on_view (f : view → view) (s : state) : state := mk_state (f (now s)) (qr s) (calls s) (log s).

Definition setMinTopUp x v := mk_view x (payAmount v) (enableAlipayTopUp v) (enableEpayTopUp v) (epayPayTypes v)
  (statusLoading v) (openHistory v) (epayLoading v) (user v) (dispatches v) (language v).
Definition setPayAmount x v := mk_view (minTopUp v) x (enableAlipayTopUp v) (enableEpayTopUp v) (epayPayTypes v)
  (statusLoading v) (openHistory v) (epayLoading v) (user v) (dispatches v) (language v).
Definition setMethods a e l v := mk_view (minTopUp v) (payAmount v) a e l (statusLoading v) (openHistory v) (epayLoading v)
  (user v) (dispatches v) (language v).
Definition setStatusLoading b v := mk_view (minTopUp v) (payAmount v) (enableAlipayTopUp v) (enableEpayTopUp v)
  (epayPayTypes v) b (openHistory v) (epayLoading v) (user v) (dispatches v) (language v).
Definition setOpenHistory b v := mk_view (minTopUp v) (payAmount v) (enableAlipayTopUp v) (enableEpayTopUp v)
  (epayPayTypes v) (statusLoading v) b (epayLoading v) (user v) (dispatches v) (language v).
Definition setEpayLoading b v := mk_view (minTopUp v) (payAmount v) (enableAlipayTopUp v) (enableEpayTopUp v)
  (epayPayTypes v) (statusLoading v) (openHistory v) b (user v) (dispatches v) (language v).
Definition userDispatch x v := mk_view (minTopUp v) (payAmount v) (enableAlipayTopUp v) (enableEpayTopUp v)
  (epayPayTypes v) (statusLoading v) (openHistory v) (epayLoading v) x (S (dispatches v)) (language v).
Definition setLanguage l v := mk_view (minTopUp v) (payAmount v) (enableAlipayTopUp v) (enableEpayTopUp v) (epayPayTypes v)
  (statusLoading v) (openHistory v) (epayLoading v) (user v) (dispatches v) l.

(** [alipayQRVisible] *)
Definition dialog_open (s : state) : bool := visible (from (AlipayQR.now (qr s))).

Section page.
Context (t : jsstr → jsstr) (d : display).

(** *** Amounts *)

(** [Math.max(1, Number(v) || 1)]; [None] when the conversion throws. *)
Definition least (v : value) : option num :=
  x ← to_number v;
  let n := if num_truthy x then x else num_of_Z 1 in
  Some (if nltb (num_of_Z 1) n then n else num_of_Z 1).

(** The effect of [minTopUp]. *)
Definition raised (min pay : value) : value :=
  let m := default NaN (least min) in
  let p := cents_of pay in
  VNum (if nltb p m then m else p).

(** [!Number.isFinite(y) || y < minTopUp] *)
Definition too_little (v : view) : bool :=
  let y := cents_of (payAmount v) in
  negb (is_finite y) || nltb y (Number (minTopUp v)).

Definition tell_too_little (s : state) : state := emit (ShowError (VStr (t (u "金额不能低于最低充值限额")))) s.

(** *** Renders *)

(** The page hands its state to the dialog, which reads the language itself. *)
Definition handed (open : bool) (v : view) : props := mk_props open (minTopUp v) (payAmount v) (language v).
Definition render_dialog (s : state) : state :=
  with_qr (AlipayQR.step t (qr s) (Render (handed (dialog_open s) (now s)))) s.

(** The render after a change of the page from [v0], the effect of [minTopUp] and the
    render after that. *)
Definition commit (v0 : view) (s : state) : state :=
  if bool_decide (now s = v0) then s else
  let s1 := render_dialog s in
  if bool_decide (minTopUp (now s) = minTopUp v0) then s1 else
  let s2 := on_view (λ v, setPayAmount (raised (minTopUp v) (payAmount v)) v) s1 in
  if bool_decide (now s2 = now s1) then s2 else render_dialog s2.

(** *** Loading *)

Definition getUserQuota (s : state) : state := suspend Self (emit GetSelf s).

Definition self_answered (res : value) (s : state) : state :=
  match parts_of res with
  | Some (true, _, data) => on_view (userDispatch data) s
  | Some (false, message, _) => emit (ShowError message) s
  | None => emit Unhandled s
  end.

Definition info_failed (s : state) : state := emit (ShowError (VStr (t (u "获取充值配置异常")))) s.

Definition info_answered (res : value) (s : state) : state :=
  match parts_of res with
  | Some (true, _, (VUndef | VNull)) | None => info_failed s
  | Some (true, _, data) =>
      let types := match opt_read (u "epay_pay_types") data with VArr l => l | _ => [] end in
      let s := on_view (setMethods (value_or (opt_read (u "enable_alipay_topup") data) (VBool false))
        (value_or (opt_read (u "enable_epay_topup") data) (VBool false)) types) s in
      match least (opt_read (u "min_topup") data) with
      | Some m => on_view (setMinTopUp (VNum m)) s
      | None => info_failed s
      end
  | Some (false, _, data) => emit (ShowError (value_or data (VStr (t (u "获取充值配置失败"))))) s
  end.

(** *** Paying *)

(** [handleOpenQr] *)
Definition handleOpenQr (s : state) : state :=
  if too_little (now s) then tell_too_little s
  else with_qr (AlipayQR.step t (qr s) (Render (handed true (now s)))) s.

(** The guard of the card, then that of the page. *)
Definition handleOpenEpay (type : value) (s : state) : state :=
  if too_little (now s) then tell_too_little s
  else if epayLoading (now s) then s
  else suspend Epay (emit (PayElsewhere (cents_of (payAmount (now s))) type) (on_view (setEpayLoading true) s)).

Definition epay_failed (s : state) : state := on_view (setEpayLoading false) (emit (ShowError (VStr (t (u "支付请求失败")))) s).

Definition epay_answered (res : value) (s : state) : state :=
  match parts_of res with
  | None => epay_failed s
  | Some (success, message, data) =>
      on_view (setEpayLoading false)
        (if success && truthy (opt_read (u "pay_url") data) then emit (Leave (opt_read (u "pay_url") data)) s
         else emit (ShowError (value_or message (VStr (t (u "创建支付订单失败"))))) s)
  end.

(** *** What is shown *)

Definition epayTypes (v : view) : list value := match epayPayTypes v with [] => [VStr (u "alipay")] | l => l end.

Definition epayTypeName (type : value) : option jsstr :=
  if strict_eq type (VStr (u "alipay")) then Some (t (u "易支付-支付宝"))
  else if strict_eq type (VStr (u "wxpay")) then Some (t (u "易支付-微信"))
  else text ← to_string type; Some (t (u "易支付") ++ u "-" ++ text).

Definition methods_shown (v : view) : bool :=
  negb (statusLoading v) && (truthy (enableAlipayTopUp v) || truthy (enableEpayTopUp v)).

(** The balance, what was used and the number of requests. *)
Definition numbers (v : view) : option value * option value * value :=
  (renderQuota d (opt_read (u "quota") (user v)) 2, renderQuota d (opt_read (u "used_quota") (user v)) 2,
   value_or (opt_read (u "request_count") (user v)) (VNum (num_of_Z 0))).

(** *** Steps *)

(** What can be clicked or typed behind the mask of an open dialog is the dialog. *)
Inductive event :=
  | StatusLoaded
  | Language (l : jsstr)
  | Typed (v : value)
  | OpenQr
  | OpenEpay (i : nat)
  | History (b : bool)
  | Dialog (e : AlipayQR.event)
  | Answer (i : nat) (res : value)
  | Failure (i : nat).

Definition take_call (i : nat) (s : state) : state := with_calls (delete i (calls s)) s.

Definition free (s : state) : bool := methods_shown (now s) && negb (dialog_open s) && negb (openHistory (now s)).

(** [if (onSuccess) onSuccess()] *)
Definition succeeds (s : AlipayQR.state) (e : AlipayQR.event) : bool :=
  match e with
  | AlipayQR.Answer i res _ => match AlipayQR.calls s !! i with Some Poll => paid res | _ => false end
  | _ => false
  end.

Definition answered (w : waiting) (res : value) (s : state) : state :=
  match w with Self => self_answered res s | Info => info_answered res s | Epay => epay_answered res s end.
Definition failed (w : waiting) (s : state) : state :=
  match w with Self => emit Unhandled s | Info => info_failed s | Epay => epay_failed s end.

Definition handle (s : state) (e : event) : state :=
  match e with
  | StatusLoaded => on_view (setStatusLoading false) s
  | Language l => on_view (setLanguage l) s
  | Typed v =>
      if free s then on_view (λ w, setPayAmount (match v with VUndef | VNull => minTopUp w | _ => v end) w) s else s
  | OpenQr => if free s && truthy (enableAlipayTopUp (now s)) then handleOpenQr s else s
  | OpenEpay i =>
      match epayTypes (now s) !! i with
      | Some type =>
          if free s && truthy (enableEpayTopUp (now s)) && negb (epayLoading (now s)) then handleOpenEpay type s else s
      | None => s
      end
  | History b => if b && dialog_open s then s else on_view (setOpenHistory b) s
  | Dialog (Render _) => s
  | Dialog e =>
      let s' := with_qr (AlipayQR.step t (qr s) e) s in
      if succeeds (qr s) e then getUserQuota s' else s'
  | Answer i res => match calls s !! i with Some w => answered w res (take_call i s) | None => s end
  | Failure i => match calls s !! i with Some w => failed w (take_call i s) | None => s end
  end.

Definition step (s : state) (e : event) : state := commit (now s) (handle s e).
Definition run (s : state) (l : list event) : state := fold_left step l s.

(** The page as it is mounted, after the first run of its effects; [status] and [self] are
    those of the contexts, [history] says whether the address asks for the bills. *)
Definition init (status self : value) (history : bool) (lang : jsstr) : state :=
  let min := value_or (opt_read (u "min_topup") status) (VNum (num_of_Z 1)) in
  let v := mk_view min (VNum (num_of_Z 10)) (VBool false) (VBool false) [] true false false self 0 lang in
  let v1 := setStatusLoading (negb (truthy status)) (setPayAmount (raised min (payAmount v)) (setOpenHistory history v)) in
  commit v (mk_state v1 (AlipayQR.init min (payAmount v) lang) [Self; Info] [GetInfo; GetSelf]).
End page.

(** * Properties of the page on which one pays
    Every opening of the dialog makes one order, and so does every change of the language
    while it is open; nothing else on the page makes one;
    one request for a payment elsewhere goes on at a time. *)

Local Open Scope nat_scope.
#[local] Opaque u.

Section laws.
Context (t : jsstr → jsstr) (d : display).
Abbreviation qstep := (AlipayQR.step t).
Abbreviation dialog s := (from (AlipayQR.now (qr s))).
Abbreviation step := (step t).
Abbreviation run := (run t).
Abbreviation commit := (commit t).
Abbreviation handle := (handle t).

(** ** The state of the page *)

(** The dialog is handed the state of the page; it can be open only once the methods are
    known, which are asked for once; a request for a payment elsewhere holds its flag. *)
Record invariant (s : state) : Prop := {
  inv_props : dialog s = handed (dialog_open s) (now s);
  inv_info : occurs Info (calls s) ≤ 1;
  inv_methods : occurs Info (calls s) = 1 → truthy (enableAlipayTopUp (now s)) = false ∧ dialog_open s = false;
  inv_epay : occurs Epay (calls s) = one (epayLoading (now s));
}.

(** *** Renders *)

Lemma render_dialog_same s : let s' := render_dialog t s in
  now s' = now s ∧ calls s' = calls s ∧ log s' = log s ∧
  dialog s' = handed (dialog_open s) (now s) ∧ dialog_open s' = dialog_open s ∧
  effects_run (qr s') = effects_run (qr s) + one (dialog_open s && negb (bool_decide (handed (dialog_open s) (now s) = dialog s))).
Proof.
  cbv zeta. destruct (render_orders t (qr s) (handed (dialog_open s) (now s))) as [H1 H2].
  unfold render_dialog. unfold dialog_open in *. cbn [qr with_qr now calls log]. rewrite H1, H2, andb_comm. done.
Qed.

(** What the dialog is handed where only the language can change. *)
Lemma handed_language b v v0 : minTopUp v = minTopUp v0 → payAmount v = payAmount v0 →
  bool_decide (handed b v = handed b v0) = bool_decide (language v = language v0).
Proof. intros H1 H2. apply bool_decide_ext. unfold handed. rewrite H1, H2. split; [by intros [=]|by intros ->]. Qed.

(** What the renders after a change of the page keep. *)
Lemma page_commit_same v0 s :
  dialog s = handed (dialog_open s) v0 →
  dialog_open s = false ∨ minTopUp (now s) = minTopUp v0 ∧ payAmount (now s) = payAmount v0 →
  let s' := commit v0 s in
  dialog s' = handed (dialog_open s') (now s') ∧ dialog_open s' = dialog_open s ∧
  effects_run (qr s') = effects_run (qr s) + one (dialog_open s && negb (bool_decide (language (now s) = language v0))) ∧
  calls s' = calls s ∧ log s' = log s ∧ language (now s') = language (now s) ∧
  enableAlipayTopUp (now s') = enableAlipayTopUp (now s) ∧ epayLoading (now s') = epayLoading (now s).
Proof.
  intros Hd Ho. cbv zeta. unfold Topup.commit. destruct (bool_decide (now s = v0)) eqn:E.
  { apply bool_decide_eq_true in E as ->. rewrite (bool_decide_true (language v0 = language v0) eq_refl), andb_false_r.
    simpl. by rewrite Nat.add_0_r. }
  destruct (render_dialog_same s) as (R1 & R2 & R3 & R4 & R5 & R6). set (s1 := render_dialog t s) in *.
  assert (effects_run (qr s1) = effects_run (qr s) + one (dialog_open s && negb (bool_decide (language (now s) = language v0)))) as R7.
  { rewrite R6, Hd. destruct Ho as [->|[H1 H2]]; [done|]. by rewrite handed_language. }
  destruct (bool_decide (minTopUp (now s) = minTopUp v0)) eqn:Em.
  { rewrite R1, R2, R3, R5, R7. done. }
  apply bool_decide_eq_false in Em. destruct Ho as [Ho|[Ho _]]; [|done].
  set (s2 := on_view _ s1). destruct (bool_decide (now s2 = now s1)) eqn:E2.
  - apply bool_decide_eq_true in E2.
    assert (dialog_open s2 = dialog_open s1 ∧ qr s2 = qr s1 ∧ calls s2 = calls s1 ∧ log s2 = log s1) as (-> & -> & -> & ->) by done.
    rewrite E2, R1, R2, R3, R5, R7. done.
  - destruct (render_dialog_same s2) as (Q1 & Q2 & Q3 & Q4 & Q5 & Q6). rewrite Q1, Q2, Q3, Q5.
    assert (dialog_open s2 = dialog_open s) as F by exact R5. rewrite F in *.
    split; [exact Q4|]. split; [done|]. split.
    { rewrite Q6. change (qr s2) with (qr s1). rewrite R7, Ho. simpl. lia. }
    split; [exact R2|]. split; [exact R3|]. unfold s2. cbn [now on_view]. by rewrite R1.
Qed.

(** ** Handlers *)

(** What a handler leaves for the renders. *)
Record handled (s s' : state) : Prop := {
  h_props : dialog s' = handed (dialog_open s') (now s);
  h_closed : dialog_open s' = false ∨ minTopUp (now s') = minTopUp (now s) ∧ payAmount (now s') = payAmount (now s);
  h_orders : effects_run (qr s') = effects_run (qr s) + one (dialog_open s' && negb (dialog_open s));
  h_info : occurs Info (calls s') ≤ 1;
  h_methods : occurs Info (calls s') = 1 → truthy (enableAlipayTopUp (now s')) = false ∧ dialog_open s' = false;
  h_epay : occurs Epay (calls s') = one (epayLoading (now s'));
  h_language : language (now s') = language (now s) ∨ dialog_open s' = dialog_open s;
}.

(** A step that neither touches the dialog nor what it is handed. *)
Lemma untouched s s' :
  invariant s → qr s' = qr s → minTopUp (now s') = minTopUp (now s) → payAmount (now s') = payAmount (now s) →
  enableAlipayTopUp (now s') = enableAlipayTopUp (now s) →
  occurs Info (calls s') = occurs Info (calls s) → occurs Epay (calls s') = one (epayLoading (now s')) → handled s s'.
Proof.
  intros [H1 H2 H3 H4] Hq Hm Hp Ha Hi He. assert (dialog_open s' = dialog_open s) as Ho by (unfold dialog_open; by rewrite Hq).
  split; rewrite ?Hq, ?Ho, ?Hi, ?Ha; auto. rewrite andb_negb_r. simpl. lia.
Qed.
Lemma handle_self res s : invariant s → handled s (self_answered res s).
Proof.
  intros Hs. pose proof Hs as [H1 H2 H3 H4]. unfold self_answered.
  destruct (parts_of res) as [[[[] m] data]|]; by apply untouched.
Qed.

Lemma handle_epay res s s0 :
  invariant s0 → qr s = qr s0 → now s = now s0 → occurs Info (calls s) = occurs Info (calls s0) →
  occurs Epay (calls s) = 0 → handled s0 (epay_answered t res s) ∧ handled s0 (epay_failed t s).
Proof.
  intros Hs Hq Hn Hi He.
  assert (∀ s1, qr s1 = qr s → now s1 = setEpayLoading false (now s) → calls s1 = calls s → handled s0 s1) as Hf.
  { intros s1 E1 E2 E3. apply untouched; rewrite ?E1, ?E2, ?E3, ?Hq, ?Hn; done. }
  split; [|by apply Hf]. unfold epay_answered. destruct (parts_of res) as [[[success m] data]|]; [|by apply Hf].
  destruct (success && _); by apply Hf.
Qed.

(** The methods are told: no other answer about them is to come, and the dialog is closed. *)
Lemma handle_info res s s0 :
  invariant s0 → qr s = qr s0 → now s = now s0 → dialog_open s0 = false → occurs Info (calls s) = 0 →
  occurs Epay (calls s) = occurs Epay (calls s0) → handled s0 (info_answered t res s) ∧ handled s0 (info_failed t s).
Proof.
  intros [H1 H2 H3 H4] Hq Hn Hc Hi He.
  assert (∀ s1, qr s1 = qr s → calls s1 = calls s → epayLoading (now s1) = epayLoading (now s) → handled s0 s1) as Hf.
  { intros s1 E1 E2 E3. assert (dialog_open s1 = dialog_open s0) as Ho by (unfold dialog_open; by rewrite E1, Hq).
    split; rewrite ?Ho, ?E1, ?E2, ?E3, ?Hq, ?Hn; auto.
    - rewrite Hc. simpl. lia.
    - rewrite Hi. lia.
    - by rewrite Hi.
    - by rewrite He. }
  split; [|by apply Hf]. unfold info_answered. destruct (parts_of res) as [[[[] m] data]|]; [| |by apply Hf].
  - destruct data; try (by apply Hf); destruct (least _); by apply Hf.
  - by apply Hf.
Qed.
(** What the dialog does to itself: it can close. *)
Lemma handle_dialog e s :
  invariant s → is_render e = false → handled s (with_qr (qstep (qr s) e) s).
Proof.
  intros [H1 H2 H3 H4] He. destruct (other_orders t (qr s) e He) as [G1 G2].
  assert (dialog_open (with_qr (qstep (qr s) e) s) && negb (dialog_open s) = false) as Ho.
  { unfold dialog_open. cbn [qr with_qr]. destruct G2 as [->| ->]; [apply andb_negb_r|done]. }
  split; cbn [qr with_qr now calls]; auto.
  - unfold dialog_open. cbn [qr with_qr]. destruct G2 as [->| ->]; [exact H1|]. unfold closed. by rewrite H1.
  - rewrite G1, Ho. simpl. lia.
  - intros Hi. destruct (H3 Hi) as [-> Hc]. split; [done|]. rewrite Hc in Ho. by rewrite andb_true_r in Ho.
Qed.

Lemma handle_open s :
  invariant s → dialog_open s = false → truthy (enableAlipayTopUp (now s)) = true → handled s (handleOpenQr t s).
Proof.
  intros Hs Hc Ha. pose proof Hs as [H1 H2 H3 H4]. unfold handleOpenQr. destruct (too_little (now s)); [by apply untouched|].
  destruct (render_orders t (qr s) (handed true (now s))) as [R1 R2].
  assert (dialog_open (with_qr (qstep (qr s) (Render (handed true (now s)))) s) = true) as Ho.
  { unfold dialog_open. cbn [qr with_qr]. by rewrite R2. }
  split; rewrite ?Ho; cbn [qr with_qr now calls]; auto.
  - rewrite R1, Hc. f_equal. rewrite bool_decide_false; [done|]. rewrite H1, Hc. by intros [=].
  - intros Hi. destruct (H3 Hi) as [Ha' _]. congruence.
Qed.

(** A call that is answered or fails. *)
Lemma handle_call s i w : invariant s → calls s !! i = Some w → ∀ res,
  handled s (answered t w res (take_call i s)) ∧ handled s (failed t w (take_call i s)).
Proof.
  intros Hs Ei res. pose proof Hs as [H1 H2 H3 H4].
  pose proof (occurs_delete Info i _ w Ei) as Ci. pose proof (occurs_delete Epay i _ w Ei) as Ce.
  destruct w; cbn [answered failed].
  - change (one (bool_decide (Self = Info))) with 0 in Ci. change (one (bool_decide (Self = Epay))) with 0 in Ce.
    assert (invariant (take_call i s)) as Ht.
    { split; cbn [calls take_call with_calls now]; [done|lia| |lia]. intros Hi. apply H3. lia. }
    destruct (handle_self res _ Ht) as [G1 G2 G3 G4 G5 G6 G7].
    split; [by split|]. apply untouched; try done; cbn [calls take_call with_calls emit now]; lia.
  - change (one (bool_decide (Info = Info))) with 1 in Ci. change (one (bool_decide (Info = Epay))) with 0 in Ce.
    apply handle_info; try done; cbn [calls take_call with_calls]; [|lia|lia]. apply H3. lia.
  - change (one (bool_decide (Epay = Info))) with 0 in Ci. change (one (bool_decide (Epay = Epay))) with 1 in Ce.
    apply handle_epay; try done; cbn [calls take_call with_calls]; [lia|]. destruct (epayLoading (now s)); simpl in H4; lia.
Qed.

Lemma page_handle_handled s e : invariant s → handled s (handle s e).
Proof.
  intros Hs. pose proof Hs as [H1 H2 H3 H4].
  assert (handled s s) as Hr by by apply untouched.
  destruct e as [|lang|v| |i|b|e|i res|i]; cbn [Topup.handle].
  - by apply untouched.
  - destruct Hr as [G1 G2 G3 G4 G5 G6 _]. split; auto.
  - destruct (free s) eqn:Ef; [|done]. unfold free in Ef. bool_simp.
    assert (dialog_open s = false) as Hc by done.
    split; auto. unfold dialog_open in *. cbn [qr on_view]. rewrite Hc. simpl. lia.
  - destruct (free s) eqn:Ef; [|done]. destruct (truthy _) eqn:Ea; [|done]. unfold free in Ef. bool_simp. by apply handle_open.
  - destruct (epayTypes (now s) !! i) as [type|]; [|done]. destruct (free s && _ && negb (epayLoading (now s))) eqn:Ef; [|done].
    bool_simp. unfold handleOpenEpay. destruct (too_little (now s)); [by apply untouched|].
    match goal with H : epayLoading (now s) = false |- _ => rename H into Hl end. rewrite Hl.
    apply untouched; try done; cbn [calls suspend with_calls emit on_view]; rewrite occurs_app; [by rewrite Nat.add_0_r|].
    rewrite H4, Hl. done.
  - destruct (b && dialog_open s); [done|]. by apply untouched.
  - destruct (is_render e) eqn:Er; [by destruct e|].
    assert (handled s (let s' := with_qr (qstep (qr s) e) s in if succeeds (qr s) e then getUserQuota s' else s')) as Hd;
      [|by destruct e].
    pose proof (handle_dialog e s Hs Er) as Hh. cbv zeta. destruct (succeeds _ _); [|done].
    destruct Hh as [G1 G2 G3 G4 G5 G6 G7]. split; auto; cbn [calls getUserQuota suspend with_calls emit now]; rewrite occurs_app, Nat.add_0_r; auto.
  - destruct (calls s !! i) as [w|] eqn:Ei; [|done]. exact (proj1 (handle_call s i w Hs Ei res)).
  - destruct (calls s !! i) as [w|] eqn:Ei; [|done]. exact (proj2 (handle_call s i w Hs Ei VUndef)).
Qed.

(** The language has changed. *)
Definition spoken_otherwise (s s' : state) : bool := negb (bool_decide (language (now s') = language (now s))).

Lemma page_step_invariant s e : invariant s →
  invariant (step s e) ∧
  effects_run (qr (step s e)) =
    effects_run (qr s) + one (dialog_open (step s e) && (negb (dialog_open s) || spoken_otherwise s (step s e))).
Proof.
  intros Hs. destruct (page_handle_handled s e Hs) as [G1 G2 G3 G4 G5 G6 G7].
  destruct (page_commit_same (now s) (handle s e) G1 G2) as (C1 & C2 & C3 & C4 & C5 & C6 & C7 & C8). unfold Topup.step.
  split; [split; rewrite ?C4, ?C7, ?C8, ?C2; [by rewrite <- C2|done..]|].
  unfold spoken_otherwise. rewrite C3, C2, C6, G3. destruct G7 as [G7|G7].
  - rewrite G7, (bool_decide_true (language (now s) = _) eq_refl), andb_false_r, orb_false_r. simpl. lia.
  - rewrite G7. destruct (dialog_open s); simpl; lia.
Qed.

Lemma init_invariant status self history lang : invariant (init t status self history lang).
Proof.
  unfold init. set (min := value_or _ _). set (v := mk_view min _ _ _ _ _ _ _ _ _ _). set (s := mk_state _ _ _ _).
  destruct (page_commit_same v s) as (C1 & C2 & C3 & C4 & C5 & C6 & C7 & C8); [done|by left|].
  split; rewrite ?C4, ?C7, ?C8, ?C2; [by rewrite <- C2|done..].
Qed.

Lemma page_run_invariant status self history lang l : invariant (run (init t status self history lang) l).
Proof.
  pose proof (init_invariant status self history lang) as H. revert H. generalize (init t status self history lang).
  induction l as [|e l IH]; intros s Hs; [done|]. by apply IH, page_step_invariant.
Qed.


(** One request for a payment elsewhere goes on at most, and exactly while its flag is set. *)
Theorem one_payment_elsewhere status self history lang l :
  let s := run (init t status self history lang) l in occurs Epay (calls s) = one (epayLoading (now s)).
Proof. apply inv_epay, page_run_invariant. Qed.

(** A payment elsewhere is only asked for with a finite amount in cents that is not less
    than the least one. *)
Theorem payments_not_too_little s e amount type :
  log (step s e) = PayElsewhere amount type :: log s →
  amount = cents_of (payAmount (now s)) ∧ is_finite amount = true ∧ nltb amount (Number (minTopUp (now s))) = false ∧
  epayLoading (now s) = false.
Proof.
  assert (∀ v0 s0, log (commit v0 s0) = log s0) as Hc.
  { intros v0 s0. unfold Topup.commit. destruct (bool_decide _); [done|].
    destruct (bool_decide _); [done|]. cbv zeta. by destruct (bool_decide _). }
  unfold Topup.step. rewrite Hc. intros H.
  assert (∀ x : effect, x :: log s = PayElsewhere amount type :: log s → x = PayElsewhere amount type) as Hx by by intros x [=].
  assert (log s = PayElsewhere amount type :: log s → False) as Hn by (intros E; apply (f_equal length) in E; simpl in E; lia).
  destruct e as [|lang|v| |i|b|e|i res|i]; cbn [Topup.handle] in H.
  - by apply Hn in H.
  - by apply Hn in H.
  - by destruct (free s); apply Hn in H.
  - destruct (free s && _); [|by apply Hn in H]. unfold handleOpenQr in H.
    destruct (too_little (now s)); [by apply Hx in H|by apply Hn in H].
  - destruct (epayTypes (now s) !! i) as [x|]; [|by apply Hn in H].
    destruct (free s && _ && negb (epayLoading (now s))) eqn:Ef; [|by apply Hn in H]. bool_simp. unfold handleOpenEpay in H.
    destruct (too_little (now s)) eqn:El; [by apply Hx in H|].
    match goal with H' : epayLoading (now s) = false |- _ => rewrite H' in H end. apply Hx in H as [= <- <-].
    unfold too_little in El. apply orb_false_iff in El as [E1 E2]. apply negb_false_iff in E1. done.
  - by destruct (b && _); apply Hn in H.
  - assert (∀ e', log (let s' := with_qr (qstep (qr s) e') s in if succeeds (qr s) e' then getUserQuota s' else s') = PayElsewhere amount type :: log s → False) as Hd.
    { intros e'. cbv zeta. destruct (succeeds (qr s) e'); intros E; [by apply Hx in E|by apply Hn in E]. }
    destruct e; by (apply Hn in H || apply Hd in H).
  - destruct (calls s !! i) as [[]|]; [| | |by apply Hn in H]; cbn [answered] in H.
    + unfold self_answered in H. destruct (parts_of res) as [[[[] m] x]|]; by (apply Hn in H || apply Hx in H).
    + unfold info_answered in H. destruct (parts_of res) as [[[[] m] x]|]; [|by apply Hx in H..].
      destruct x; try (by apply Hx in H); cbv zeta in H; destruct (least _); by (apply Hn in H || apply Hx in H).
    + unfold epay_answered in H. destruct (parts_of res) as [[[sc m] x]|]; [|by apply Hx in H].
      destruct (sc && _); by apply Hx in H.
  - destruct (calls s !! i) as [[]|]; [by apply Hx in H..|by apply Hn in H].
Qed.
End laws.

(** ** Witnesses *)

#[local] Transparent u.

Definition ok (data : value) : value := VObj [(u "data", VObj [(u "success", VBool true); (u "data", data)])].
Definition info : value :=
  ok (VObj [(u "enable_alipay_topup", VBool true); (u "enable_epay_topup", VBool true); (u "min_topup", num_value 20);
    (u "epay_pay_types", VArr [VStr (u "alipay"); VStr (u "wxpay")])]).
Definition page (l : list event) : state := run (λ x, x) (init (λ x, x) (VObj [(u "min_topup", num_value 5)]) (VObj []) false (u "zh")) l.

(** The least amount of the server raises the amount that is shown. *)
Example amount_raised :
  let s := page [] in let s' := page [StatusLoaded; Answer 1 info] in
  (payAmount (now s), payAmount (now s'), AlipayQR.amount (AlipayQR.now (qr s')), effects_run (qr s')) =
  (num_value 10, num_value 20, num_of_Z 20, 0).
Proof. vm_compute. reflexivity. Qed.

(** A payment with the code loads the balance again. *)
Example paid_with_code :
  let s := page [StatusLoaded; Answer 1 info; Typed (VNum (num_of_dec false 25504 (-3))); OpenQr;
    Dialog (AlipayQR.Answer 0 (order "A1") 1000); Dialog (AlipayQR.Answer 0 (told "success") 4000)] in
  (log s, posts (AlipayQR.log (qr s)), dialog_open s) = ([GetSelf; GetInfo; GetSelf], [num_of_dec false 255 (-1)], true).
Proof. vm_compute. reflexivity. Qed.

(** Another language, while the code of an order is shown, asks for the money again. *)
Example language_orders_again :
  let s := page [StatusLoaded; Answer 1 info; OpenQr; Dialog (AlipayQR.Answer 0 (order "A1") 1000)] in
  let s' := step (λ x, x) s (Language (u "en")) in
  (effects_run (qr s), effects_run (qr s'), posts (AlipayQR.log (qr s')), AlipayQR.shown (AlipayQR.now (qr s'))) =
  (1, 2, [num_of_Z 20; num_of_Z 20], Loading).
Proof. vm_compute. reflexivity. Qed.

Lemma payments_not_too_little_witness :
  let s := page [StatusLoaded; Answer 1 info] in
  log (step (λ x, x) s (OpenEpay 1)) = PayElsewhere (num_of_Z 20) (VStr (u "wxpay")) :: log s ∧ is_finite (num_of_Z 20) = true.
Proof.
  intros s. assert (log (step (λ x, x) s (OpenEpay 1)) = PayElsewhere (num_of_Z 20) (VStr (u "wxpay")) :: log s) as H
    by (vm_compute; reflexivity).
  split; [exact H|]. exact (proj1 (proj2 (payments_not_too_little (λ x, x) s (OpenEpay 1) (num_of_Z 20) (VStr (u "wxpay")) H))).
Defined.
