(* ===== verification/TopupHistory.v ===== *)
(** * The bills
    [src/web/src/components/topup/modals/TopupHistoryModal.jsx]: the dialog with the payments
    that are over, in pages and by the number of an order. *)

From Stdlib Require Import SpecFloat.
From stdpp Require Import base numbers option strings sets list.
From S2P Require Import Prelude JsString JsNumber JsValue JsSame Json JsOps Session OptionForms Dates.
Local Open Scope nat_scope.

(** ** Cells *)

(** The kind of badge and the text of a status. *)
Definition STATUS_CONFIG (status : value) : jsstr * value :=
  match status with
  | VStr s => if bool_decide (s = u "success") then (u "success", VStr (u "成功"))
              else if bool_decide (s = u "failed") then (u "danger", VStr (u "失败"))
              else (u "primary", status)
  | _ => (u "primary", status)
  end.

Definition PAYMENT_METHOD_MAP : list (jsstr * jsstr) :=
  [(u "stripe", u "Stripe"); (u "creem", u "Creem"); (u "waffo", u "Waffo"); (u "epay", u "易支付");
   (u "alipay", u "支付宝"); (u "wxpay", u "微信")].

(** What a map has for a value: a key that is no text is made one. *)
Definition method_name (pm : value) : option jsstr := k ← to_string pm; get k PAYMENT_METHOD_MAP.

Section cells.
Context (t : value → value) (lower : jsstr → jsstr).

Definition renderStatusBadge (status : value) : jsstr * value :=
  let config := STATUS_CONFIG status in (config.1, t config.2).

Definition renderPaymentMethod (pm : value) : value :=
  match method_name pm with Some name => t (VStr name) | None => value_or pm (VStr (u "-")) end.

(** [None] where it throws. *)
Definition isSubscriptionTopup (record : value) : option bool :=
  match value_or (opt_read (u "trade_no") record) (VStr []) with
  | VStr s =>
      n ← to_number (value_or (opt_read (u "amount") record) (VNum (num_of_Z 0)));
      Some (neqb n (num_of_Z 0) && starts_with (lower s) (u "sub"))
  | _ => None
  end.

(** The name of a user and the one shown beside it, or the number of the account. *)
Definition renderUserCell (record : value) : option (value * option jsstr) :=
  un ← read (u "username") record;
  let un := value_or un (VStr []) in
  match value_or (opt_read (u "display_name") record) (VStr []) with
  | VStr s =>
      let dn := trim s in
      if str_truthy dn && negb (strict_eq (VStr dn) un) then Some (un, Some dn)
      else if truthy un then Some (un, None)
      else text ← to_string (opt_read (u "user_id") record); Some (VStr (u "#" ++ text), None)
  | _ => None
  end.

(** [`¥${Number(money ?? 0).toFixed(2)}`] *)
Definition money_text (money : value) : option jsstr :=
  x ← to_number (match money with VUndef | VNull => VNum (num_of_Z 0) | v => v end);
  Some (u "¥" ++ to_fixed x 2).

(** The keys of the columns. *)
Definition columns (userIsAdmin : bool) : list jsstr :=
  (if userIsAdmin then [u "user"] else []) ++
  map u ["trade_no"; "payment_method"; "amount"; "money"; "status"; "create_time"]%string.
End cells.

(** ** The dialog *)

Record filter := mk_filter { visible : bool; page : Z; pageSize : Z; keyword : jsstr }.
#[export] Instance filter_eq_dec : EqDecision filter.
Proof. solve_decision. Defined.

Record view := mk_view { asked : filter; loading : bool; topups : value; total : value }.

Inductive effect := Get (url : jsstr) | Toast (v : value).

(** Each call is an answer that is waited for: all of them do the same with it. *)
Record state := mk_state { now : view; calls : nat; log : list effect }.

Definition emit e s := mk_state (now s) (calls s) (e :: log s).
Definition on_view (f : view → view) (s : state) : state := mk_state (f (now s)) (calls s) (log s).
Definition setAsked x v := mk_view x (loading v) (topups v) (total v).
Definition setLoading b v := mk_view (asked v) b (topups v) (total v).
Definition setTopups l n v := mk_view (asked v) (loading v) l n.

Section dialog.
Context (t : jsstr → jsstr) (local : storage).

(** [None] where it throws. *)
Definition bills_url (f : filter) : option jsstr :=
  let word := match keyword f with
              | [] => Some []
              | k => app (u "&keyword=") <$> encodeURIComponent (VStr k)
              end in
  match isAdmin local, word with
  | Some admin, Some word =>
      Some ((if admin then u "/api/user/topup" else u "/api/user/topup/self") ++
            u "?p=" ++ dec_Z (page f) ++ u "&page_size=" ++ dec_Z (pageSize f) ++ word)
  | _, _ => None
  end.

Definition load_failed (s : state) : state := on_view (setLoading false) (emit (Toast (VStr (t (u "加载账单失败")))) s).

Definition loadTopups (f : filter) (s : state) : state :=
  let s := on_view (setLoading true) s in
  match bills_url f with
  | Some url => emit (Get url) (mk_state (now s) (S (calls s)) (log s))
  | None => load_failed s
  end.

Definition answered (res : value) (s : state) : state :=
  match parts_of res with
  | Some (true, _, (VUndef | VNull)) | None => load_failed s
  | Some (true, _, data) =>
      on_view (λ v, setLoading false (setTopups (value_or (opt_read (u "items") data) (VArr []))
        (value_or (opt_read (u "total") data) (VNum (num_of_Z 0))) v)) s
  | Some (false, message, _) =>
      on_view (setLoading false) (emit (Toast (value_or message (VStr (t (u "加载失败"))))) s)
  end.

Inductive event :=
  | Show (b : bool)
  | PageChange (p : Z)
  | PageSizeChange (n : Z)
  | KeywordChange (text : jsstr)
  | Answer (res : value)
  | Failure.

(** A change of what is asked for, and the effect of the render. *)
Definition ask (f : filter) (s : state) : state :=
  if bool_decide (f = asked (now s)) then s else
  let s := on_view (setAsked f) s in
  if visible f then loadTopups f s else s.

Definition step (s : state) (e : event) : state :=
  let f := asked (now s) in
  match e with
  | Show b => ask (mk_filter b (page f) (pageSize f) (keyword f)) s
  | PageChange p => if visible f then ask (mk_filter true p (pageSize f) (keyword f)) s else s
  | PageSizeChange n => if visible f then ask (mk_filter true 1 n (keyword f)) s else s
  | KeywordChange text => if visible f then ask (mk_filter true 1 (pageSize f) text) s else s
  | Answer res => match calls s with S n => answered res (mk_state (now s) n (log s)) | O => s end
  | Failure => match calls s with S n => load_failed (mk_state (now s) n (log s)) | O => s end
  end.

Definition run (s : state) (l : list event) : state := fold_left step l s.
Definition init : state := mk_state (mk_view (mk_filter false 1 10 []) false (VArr []) (VNum (num_of_Z 0))) 0 [].

(** ** Laws *)

(** The last request of a log. *)
Fixpoint last_get (l : list effect) : option jsstr :=
  match l with [] => None | Get url :: _ => Some url | _ :: l => last_get l end.

(** The texts of a user of this browser and of an order can be written into an address. *)
Definition address_ok (f : filter) : Prop := is_Some (bills_url f).

Lemma ask_last f s :
  (visible (asked (now s)) = true → address_ok (asked (now s)) → last_get (log s) = bills_url (asked (now s))) →
  let s' := ask f s in
  visible (asked (now s')) = true → address_ok (asked (now s')) → last_get (log s') = bills_url (asked (now s')).
Proof.
  intros H. cbv zeta. unfold ask. destruct (bool_decide _); [done|].
  destruct (visible f) eqn:Ev; cbn [now asked on_view setAsked]; [|congruence].
  unfold loadTopups. destruct (bills_url f) as [url|] eqn:Eu; cbn -[bills_url]; intros _ [url' Hok]; congruence.
Qed.

(** The last page of bills that was asked for is the one that is chosen: every change of the
    page, of its size and of the word asks again, and nothing else does. *)
Theorem asks_what_is_chosen l :
  let s := run init l in
  visible (asked (now s)) = true → address_ok (asked (now s)) → last_get (log s) = bills_url (asked (now s)).
Proof.
  cbv zeta. assert (visible (asked (now init)) = true → address_ok (asked (now init)) →
    last_get (log init) = bills_url (asked (now init))) as H0 by done.
  revert H0. generalize init. unfold run. induction l as [|e l IH]; intros s Hs; [exact Hs|]. apply IH. clear IH.
  destruct e as [b|p|n|text|res|]; cbn [step].
  - by apply ask_last.
  - destruct (visible (asked (now s))) eqn:Ev; [apply ask_last; by rewrite Ev|by rewrite Ev].
  - destruct (visible (asked (now s))) eqn:Ev; [apply ask_last; by rewrite Ev|by rewrite Ev].
  - destruct (visible (asked (now s))) eqn:Ev; [apply ask_last; by rewrite Ev|by rewrite Ev].
  - destruct (calls s) as [|n]; [done|]. unfold answered. destruct (parts_of res) as [[[[] m] data]|]; [|exact Hs..]. destruct data; exact Hs.
  - destruct (calls s); exact Hs.
Qed.

(** The answers are shown in the order in which they come: one that comes late replaces
    what was asked for after it. *)
Theorem late_bills_shown s res m o :
  calls s ≠ 0 → parts_of res = Some (true, m, VObj o) →
  let s' := step s (Answer res) in
  topups (now s') = value_or (prop (u "items") o) (VArr []) ∧ asked (now s') = asked (now s) ∧ loading (now s') = false.
Proof. intros Hc Hp. cbv zeta. cbn [step]. destruct (calls s); [done|]. unfold answered. by rewrite Hp. Qed.
End dialog.

(** ** Witnesses *)

Definition bills (no : string) : value :=
  VObj [(u "data", VObj [(u "success", VBool true);
    (u "data", VObj [(u "items", VArr [VObj [(u "trade_no", VStr (u no))]]); (u "total", VNum (num_of_Z 1))])])].
Definition admin : storage := setJson "user" (VObj [(u "role", VNum (num_of_Z 10))]) [].
Definition go (l : list event) : state := run (λ x, x) admin init l.

Example cells :
  (renderStatusBadge (λ x, x) (VStr (u "failed")), renderPaymentMethod (λ x, x) (VStr (u "wxpay")),
   renderPaymentMethod (λ x, x) VNull, money_text (VStr (u "12.5")), money_text VNull,
   isSubscriptionTopup (λ x, x) (VObj [(u "trade_no", VStr (u "sub_1")); (u "amount", VNum (num_of_Z 0))]),
   renderUserCell (VObj [(u "username", VStr (u "ann")); (u "display_name", VStr (u " Ann "))]),
   renderUserCell (VObj [(u "user_id", VNum (num_of_Z 7))])) =
  ((u "danger", VStr (u "失败")), VStr (u "微信"), VStr (u "-"), Some (u "¥12.50"), Some (u "¥0.00"), Some true,
   Some (VStr (u "ann"), Some (u "Ann")), Some (VStr (u "#7"), None)).
Proof. vm_compute. reflexivity. Qed.

Lemma asks_what_is_chosen_witness :
  let l := [Show true; PageChange 3; Answer (bills "a"); KeywordChange (u "A 1")] in
  last_get (log (go l)) = Some (u "/api/user/topup?p=1&page_size=10&keyword=A%201").
Proof.
  intros l. assert (visible (asked (now (go l))) = true) as H1 by (vm_compute; reflexivity).
  assert (bills_url admin (asked (now (go l))) = Some (u "/api/user/topup?p=1&page_size=10&keyword=A%201")) as H2
    by (vm_compute; reflexivity).
  rewrite <- H2. exact (asks_what_is_chosen (λ x, x) admin l H1 (ex_intro _ _ H2)).
Defined.

Lemma late_bills_shown_witness :
  let s := go [Show true; KeywordChange (u "A1"); Answer (bills "A1")] in
  keyword (asked (now s)) = u "A1" ∧
  topups (now (step (λ x, x) admin s (Answer (bills "old")))) = VArr [VObj [(u "trade_no", VStr (u "old"))]].
Proof.
  intros s. split; [vm_compute; reflexivity|].
  assert (calls s ≠ 0) as H1 by (vm_compute; congruence).
  exact (proj1 (late_bills_shown (λ x, x) admin s (bills "old") VUndef
    [(u "items", VArr [VObj [(u "trade_no", VStr (u "old"))]]); (u "total", VNum (num_of_Z 1))] H1 eq_refl)).
Defined.
