(* ===== verification/AuthForms.v ===== *)
(** * What the forms of an account share
    [src/web/src/components/auth/RegisterForm.jsx], [LoginForm.jsx], [PasswordResetForm.jsx]
    and [PasswordResetConfirm.jsx]: addresses that may register, the thirty seconds between
    two requests for a code, the terms and the check of the environment. *)

From stdpp Require Import base numbers option strings sets list.
From S2P Require Import Prelude JsString JsNumber JsValue Json JsOps Session.

(** ** Addresses *)

Definition ALLOWED_EMAIL_DOMAINS : list jsstr :=
  map u ["gmail.com"; "qq.com"; "163.com"; "126.com"; "outlook.com"; "hotmail.com"; "yahoo.com"; "foxmail.com";
         "icloud.com"; "me.com"; "live.com"; "msn.com"; "yeah.net"; "aliyun.com"; "sina.com"; "sohu.com"]%string.

Local Open Scope N_scope.
Definition is_upper (c : N) : bool := (65 <=? c) && (c <=? 90).
Definition is_letter (c : N) : bool := is_upper c || ((97 <=? c) && (c <=? 122)).
(** [[a-zA-Z0-9._%+-]] and [[a-zA-Z0-9.-]] *)
Definition local_unit (c : N) : bool := is_letter c || is_digit c || existsb (N.eqb c) [46; 95; 37; 43; 45].
Definition domain_unit (c : N) : bool := is_letter c || is_digit c || existsb (N.eqb c) [46; 45].
(** [toLowerCase] of a text of the units above. *)
Definition lower_unit (c : N) : N := if is_upper c then c + 32 else c.
Definition ascii_lower (s : jsstr) : jsstr := map lower_unit s.
Local Close Scope N_scope.

Definition some_of (p : N → bool) (s : jsstr) : bool := str_truthy s && forallb p s.

(** [[a-zA-Z0-9.-]+\.[a-zA-Z]{2,}$]: some dot has the name of the domain before it and its
    letters after it; [seen] is what has been passed. *)
Fixpoint domain_matches (seen s : jsstr) : bool :=
  match s with
  | [] => false
  | c :: s' =>
      (N.eqb c 46 && some_of domain_unit seen && (2 <=? length s')%nat && forallb is_letter s') ||
      domain_matches (seen ++ [c]) s'
  end.

(** [^[a-zA-Z0-9._%+-]+@] and what follows, at some sign. *)
Fixpoint email_matches (seen s : jsstr) : bool :=
  match s with
  | [] => false
  | c :: s' => (N.eqb c 64 && some_of local_unit seen && domain_matches [] s') || email_matches (seen ++ [c]) s'
  end.
Definition emailRegex (email : jsstr) : bool := email_matches [] email.

(** [None] where an address is valid, else the message. *)
Definition validateEmail (email : jsstr) : option jsstr :=
  match email with
  | [] => Some (u "请输入邮箱")
  | _ =>
      if negb (emailRegex email) then Some (u "邮箱格式不正确")
      else
        let domain := ascii_lower <$> (split_on 64 email !! 1%nat) in
        if existsb (λ d, bool_decide (Some d = domain)) ALLOWED_EMAIL_DOMAINS then None else Some (u "邮箱域名不在白名单中")
  end.

(** ** The pause between two codes *)

(** [disableButton] and [countdown]. *)
Record pause := mk_pause { disableButton : bool; countdown : Z }.

Definition first_pause : pause := mk_pause false 30.

(** The effect of the render after a change. *)
Definition pause_effect (p : pause) : pause :=
  if (disableButton p && (0 <? countdown p)%Z) then p
  else if (countdown p =? 0)%Z then mk_pause false 30 else p.

(** The interval runs while the button is disabled and the count is positive. *)
Definition second (p : pause) : pause :=
  if disableButton p && (0 <? countdown p)%Z then pause_effect (mk_pause true (countdown p - 1)) else p.

Definition disable (p : pause) : pause := pause_effect (mk_pause true (countdown p)).

(** ** The status of the server *)

(** [statusState?.status], or what is stored of it. *)
Definition known_status (context : value) (s : storage) : value :=
  if truthy context then context
  else match getItem "status" s with
       | Some ((_ :: _) as text) => match json_parse text with Some v => value_or v (VObj []) | None => VObj [] end
       | _ => VObj []
       end.

(** What the status says of terms and of the check of the environment. *)
Record terms := mk_terms {
  hasUserAgreement : value; hasPrivacyPolicy : value; agreedToTerms : bool; turnstileEnabled : bool;
  turnstileSiteKey : value; turnstileToken : jsstr;
}.
Definition no_terms : terms := mk_terms (VBool false) (VBool false) false false (VStr []) [].

(** The effect of [status]; a check that is switched on stays so. *)
Definition status_effect (status : value) (x : terms) : terms :=
  let check := truthy (opt_read (u "turnstile_check") status) in
  mk_terms (value_or (opt_read (u "user_agreement_enabled") status) (VBool false))
    (value_or (opt_read (u "privacy_policy_enabled") status) (VBool false)) (agreedToTerms x)
    (check || turnstileEnabled x)
    (if check then opt_read (u "turnstile_site_key") status else turnstileSiteKey x) (turnstileToken x).

Definition agree (b : bool) (x : terms) : terms :=
  mk_terms (hasUserAgreement x) (hasPrivacyPolicy x) b (turnstileEnabled x) (turnstileSiteKey x) (turnstileToken x).
Definition verified (token : jsstr) (x : terms) : terms :=
  mk_terms (hasUserAgreement x) (hasPrivacyPolicy x) (agreedToTerms x) (turnstileEnabled x) (turnstileSiteKey x) token.

(** [(hasUserAgreement || hasPrivacyPolicy) && !agreedToTerms] *)
Definition not_agreed (x : terms) : bool :=
  (truthy (hasUserAgreement x) || truthy (hasPrivacyPolicy x)) && negb (agreedToTerms x).
Definition not_checked (x : terms) : bool := turnstileEnabled x && negb (str_truthy (turnstileToken x)).

(** ** Laws *)

(** *** Addresses *)

Lemma domain_matches_spec seen s :
  domain_matches seen s = true ↔
  ∃ a b, s = a ++ 46%N :: b ∧ some_of domain_unit (seen ++ a) = true ∧ 2 ≤ length b ∧ forallb is_letter b = true.
Proof.
  revert seen. induction s as [|c s IH]; intros seen; simpl.
  - split; [done|]. intros (a & b & H & _). by destruct a.
  - rewrite orb_true_iff, IH. split.
    + intros [H|(a & b & -> & H1 & H2)].
      * rewrite !andb_true_iff in H. destruct H as [[[H1 H2] H3] H4]. apply N.eqb_eq in H1 as ->. apply (Nat.leb_le 2) in H3.
        exists [], s. by rewrite app_nil_r.
      * exists (c :: a), b. rewrite <- app_assoc in H1. done.
    + intros (a & b & H & H1 & H2 & H3). destruct a as [|c' a]; simplify_eq/=.
      * left. rewrite app_nil_r in H1. apply (Nat.leb_le 2) in H2. by rewrite !andb_true_iff.
      * right. exists a, b. by rewrite <- app_assoc.
Qed.

Lemma email_matches_spec seen s :
  email_matches seen s = true ↔
  ∃ a b, s = a ++ 64%N :: b ∧ some_of local_unit (seen ++ a) = true ∧ domain_matches [] b = true.
Proof.
  revert seen. induction s as [|c s IH]; intros seen; simpl.
  - split; [done|]. intros (a & b & H & _). by destruct a.
  - rewrite orb_true_iff, IH. split.
    + intros [H|(a & b & -> & H1 & H2)].
      * rewrite !andb_true_iff in H. destruct H as [[H1 H2] H3]. apply N.eqb_eq in H1 as ->.
        exists [], s. by rewrite app_nil_r.
      * exists (c :: a), b. rewrite <- app_assoc in H1. done.
    + intros (a & b & H & H1 & H2). destruct a as [|c' a]; simplify_eq/=.
      * left. rewrite app_nil_r in H1. rewrite !andb_true_iff. done.
      * right. exists a, b. by rewrite <- app_assoc.
Qed.

Lemma lower_unit_kind c :
  is_letter (lower_unit c) = is_letter c ∧ domain_unit (lower_unit c) = domain_unit c ∧ N.eqb (lower_unit c) 46 = N.eqb c 46.
Proof.
  unfold lower_unit. destruct (is_upper c) eqn:E; [|done].
  assert (65 ≤ c ∧ c ≤ 90)%N as [H1 H2] by (by rewrite <- !N.leb_le; apply andb_true_iff).
  assert (is_letter (c + 32) = true) as Hl.
  { unfold is_letter. apply orb_true_iff. right. rewrite andb_true_iff, !N.leb_le. lia. }
  assert (is_letter c = true) as Hc by (unfold is_letter; by rewrite E).
  split; [congruence|]. split; [unfold domain_unit; by rewrite Hl, Hc|].
  rewrite (proj2 (N.eqb_neq (c + 32) 46)) by lia. symmetry. apply N.eqb_neq. lia.
Qed.

Lemma forallb_lower p s : (∀ c, p (lower_unit c) = p c) → forallb p (ascii_lower s) = forallb p s.
Proof. intros H. unfold ascii_lower. induction s as [|c s IH]; [done|]. cbn [map forallb]. by rewrite IH, (H c). Qed.

Lemma domain_matches_lower seen s : domain_matches (ascii_lower seen) (ascii_lower s) = domain_matches seen s.
Proof.
  revert seen. induction s as [|c s IH]; intros seen; [done|].
  change (ascii_lower (c :: s)) with (lower_unit c :: ascii_lower s). cbn [domain_matches].
  replace (ascii_lower seen ++ [lower_unit c]) with (ascii_lower (seen ++ [c])) by (unfold ascii_lower; by rewrite map_app).
  rewrite IH. destruct (lower_unit_kind c) as (_ & _ & ->).
  assert (some_of domain_unit (ascii_lower seen) = some_of domain_unit seen) as ->.
  { unfold some_of. rewrite forallb_lower by (intros; apply lower_unit_kind). by destruct seen. }
  rewrite (forallb_lower is_letter s) by (intros; apply lower_unit_kind).
  unfold ascii_lower at 1. by rewrite length_map.
Qed.

Lemma allowed_domains_match : forallb (domain_matches []) ALLOWED_EMAIL_DOMAINS = true.
Proof. vm_compute. reflexivity. Qed.

Lemma no_unit (p : N → bool) c (s : jsstr) : p c = false → forallb p s = true → c ∉ s.
Proof. intros Hc Hs Hin. rewrite forallb_forall in Hs. apply list_elem_of_In in Hin. apply Hs in Hin. congruence. Qed.

Lemma domain_has_no_sign s : domain_matches [] s = true → 64%N ∉ s.
Proof.
  intros H. apply domain_matches_spec in H as (a & b & -> & H1 & _ & H2). unfold some_of in H1. apply andb_true_iff in H1 as [_ H1].
  rewrite elem_of_app, elem_of_cons. intros [H|[H|H]]; [|done|].
  - by apply (no_unit domain_unit 64%N a) in H1.
  - by apply (no_unit is_letter 64%N b) in H2.
Qed.

(** C2: An address may register exactly when it is a name of letters, digits and the signs
    [._%+-], an [@] and one of the allowed domains, in any case. *)
Theorem valid_emails email :
  validateEmail email = None ↔
  ∃ name domain, email = name ++ u "@" ++ domain ∧ some_of local_unit name = true ∧ ascii_lower domain ∈ ALLOWED_EMAIL_DOMAINS.
Proof.
  assert (∀ name domain, some_of local_unit name = true → 64%N ∉ domain → split_on 64 (name ++ 64%N :: domain) = [name; domain]) as Hsplit.
  { intros name domain Hn Hd. apply andb_true_iff in Hn as [_ Hn].
    rewrite split_on_cons by by apply (no_unit local_unit). by rewrite split_on_no_sep. }
  split.
  - unfold validateEmail. destruct email as [|c s]; [done|]. set (e := c :: s) in *.
    destruct (emailRegex e) eqn:Er; [|done]. cbn [negb].
    apply email_matches_spec in Er as (name & domain & He & Hn & Hd). cbn [app] in Hn.
    rewrite He, (Hsplit name domain Hn (domain_has_no_sign _ Hd)). cbn [lookup list_lookup fmap option_fmap option_map].
    destruct (existsb _ _) eqn:E; [|done]. intros _. apply existsb_exists in E as (d & Hin & E).
    apply bool_decide_eq_true in E as [= ->]. exists name, domain. split; [done|]. split; [done|]. by apply list_elem_of_In.
  - intros (name & domain & -> & Hn & Hd).
    assert (domain_matches [] domain = true) as Hm.
    { rewrite <- (domain_matches_lower [] domain). pose proof (proj1 (forallb_forall _ _) allowed_domains_match) as Hall. apply Hall. by apply list_elem_of_In. }
    assert (emailRegex (name ++ 64%N :: domain) = true) as Hr by (apply email_matches_spec; by exists name, domain).
    change (name ++ u "@" ++ domain) with (name ++ 64%N :: domain).
    unfold validateEmail. rewrite Hr, (Hsplit name domain Hn (domain_has_no_sign _ Hm)).
    destruct (name ++ 64%N :: domain) eqn:E; [by apply app_nil in E as [_ [=]]|]. cbn [negb lookup list_lookup fmap option_fmap option_map].
    replace (existsb _ _) with true; [done|]. symmetry. apply existsb_exists. exists (ascii_lower domain).
    split; [by apply list_elem_of_In|]. by apply bool_decide_true.
Qed.

Example emails :
  map validateEmail (map u [""; "ann"; "a.b+c@GMail.com"; "a@sub.qq.com"; "a@qq.c"; "a@b@qq.com"]%string) =
  [Some (u "请输入邮箱"); Some (u "邮箱格式不正确"); None; Some (u "邮箱域名不在白名单中"); Some (u "邮箱格式不正确");
   Some (u "邮箱格式不正确")].
Proof. vm_compute. reflexivity. Qed.

(** *** The pause *)

(** The count is between 1 and 30, and stands at 30 where the button can be clicked. *)
Definition pause_ok (p : pause) : Prop :=
  (1 ≤ countdown p ≤ 30)%Z ∧ (disableButton p = false → countdown p = 30%Z).

Lemma disable_ok p : pause_ok p → pause_ok (disable p) ∧ disableButton (disable p) = true ∧ countdown (disable p) = countdown p.
Proof.
  intros [H1 H2]. unfold disable, pause_effect. cbn [disableButton countdown]. replace (0 <? countdown p)%Z with true by lia.
  split; [split; [exact H1|done]|done].
Qed.

(** Each second of the pause counts, and the last one ends it. *)
Lemma second_ok p : pause_ok p → pause_ok (second p) ∧
  (disableButton p = true → if (countdown p =? 1)%Z then second p = first_pause
                            else second p = mk_pause true (countdown p - 1)).
Proof.
  intros H. pose proof H as [H1 H2]. unfold second. destruct (disableButton p) eqn:Ed; [|by split].
  replace (0 <? countdown p)%Z with true by lia. cbn [andb]. unfold pause_effect. cbn [disableButton countdown].
  destruct (countdown p =? 1)%Z eqn:E.
  - apply Z.eqb_eq in E. rewrite E. done.
  - apply Z.eqb_neq in E. replace (0 <? countdown p - 1)%Z with true by lia. cbn [andb]. unfold pause_ok. cbn [disableButton countdown].
    split; [split; [lia|done]|done].
Qed.

(** *** Pages with a pause

    What a page promises whose button rests after a click: the count of its requests grows
    only by a click on a button that does not rest, and such a click disables it. *)
Class Pausing (S E : Type) := {
  p_step : S → E → S;
  p_rest : S → pause;
  p_second : E → bool;
  p_asked : S → list jsstr;
  p_counts s e : p_second e = true → p_rest (p_step s e) = second (p_rest s);
  p_keeps s e : p_second e = false → p_rest (p_step s e) = p_rest s ∨ p_rest (p_step s e) = disable (p_rest s);
  p_quiet s e : disableButton (p_rest s) = true → p_asked (p_step s e) = p_asked s;
  p_disables s e : p_asked (p_step s e) ≠ p_asked s → p_rest (p_step s e) = disable (p_rest s);
}.

Section pausing.
Context {S E : Type} `{!Pausing S E}.
Implicit Types (s : S) (e : E).

Definition p_seconds (l : list E) : nat := length (List.filter p_second l).

Lemma pausing_ok s e : pause_ok (p_rest s) → pause_ok (p_rest (p_step s e)).
Proof.
  intros H. destruct (p_second e) eqn:Ee; [rewrite p_counts by done; by apply second_ok|].
  destruct (p_keeps s e Ee) as [->| ->]; [done|by apply disable_ok].
Qed.

Lemma pausing_ok_run s l : pause_ok (p_rest s) → pause_ok (p_rest (fold_left p_step l s)).
Proof. revert s. induction l as [|e l IH]; intros s Hs; [done|]. by apply IH, pausing_ok. Qed.

(** The button rests for [n] more seconds at least. *)
Definition resting (n : nat) s : Prop :=
  pause_ok (p_rest s) ∧ disableButton (p_rest s) = true ∧ (Z.of_nat n ≤ countdown (p_rest s))%Z.

Lemma resting_step n s e : resting n s → p_seconds [e] < n → resting (n - p_seconds [e]) (p_step s e).
Proof.
  intros (H1 & H2 & H3) Hn. split; [by apply pausing_ok|]. unfold p_seconds in *. cbn [List.filter] in *.
  destruct (p_second e) eqn:Ee; cbn [length] in *.
  - rewrite p_counts by done. destruct (second_ok _ H1) as [_ H4]. specialize (H4 H2).
    replace (countdown (p_rest s) =? 1)%Z with false in H4 by lia. rewrite H4. cbn [disableButton countdown]. split; [done|lia].
  - rewrite Nat.sub_0_r. destruct (p_keeps s e Ee) as [->| ->]; [done|]. destruct (disable_ok _ H1) as (_ & -> & ->). done.
Qed.

Lemma resting_run n s l : resting n s → p_seconds l < n → p_asked (fold_left p_step l s) = p_asked s.
Proof.
  revert n s. induction l as [|e l IH]; intros n s Hr Hn; [done|].
  assert (p_seconds (e :: l) = p_seconds [e] + p_seconds l) as E1 by (unfold p_seconds; simpl; by destruct (p_second e)).
  rewrite E1 in Hn. cbn [fold_left]. rewrite (IH (n - p_seconds [e])) by (lia || by apply resting_step; [|lia]).
  apply p_quiet. apply Hr.
Qed.

(** After a request the next thirty seconds bring no other. *)
Lemma requests_apart s e l :
  pause_ok (p_rest s) → p_asked (p_step s e) ≠ p_asked s → p_seconds l < 30 →
  p_asked (fold_left p_step l (p_step s e)) = p_asked (p_step s e).
Proof.
  intros Hok Ha Hl. apply (resting_run 30); [|done]. split; [by apply pausing_ok|].
  destruct (disableButton (p_rest s)) eqn:Hd; [by rewrite p_quiet in Ha|].
  rewrite (p_disables s e Ha). destruct (disable_ok _ Hok) as (_ & -> & ->). split; [done|].
  destruct Hok as [_ Hok]. by rewrite Hok.
Qed.
End pausing.
