(* ===== verification/LoginForm.v ===== *)
(** * Logging in
    [src/web/src/components/auth/LoginForm.jsx]: the dialog that logs in with a name and a
    password, and the terminal that types itself on the page behind it.  The buttons of
    other providers are never shown: [hasOAuthLoginOptions] is the constant false. *)

From Stdlib Require Import SpecFloat.
From stdpp Require Import base numbers option strings sets list.
From S2P Require Import Prelude JsString JsNumber JsValue Json JsOps Session OptionForms AuthForms.
Local Open Scope nat_scope.

(** ** State *)

Inductive effect :=
  | Post (url name pass : jsstr)
  | ShowInfo (text : jsstr)
  | ShowError (v : value)
  | ShowSuccess (text : jsstr)
  | UpdateAPI
  | WarnDefaultPassword
  | Navigate (path : jsstr).

(** [user] is that of the context; a call remembers the name and the password of its click. *)
Record state := mk_state {
  showForm : bool; username : jsstr; password : jsstr; submitted : bool; loginLoading : bool; conditions : terms;
  local : storage; user : value; calls : list (jsstr * jsstr); log : list effect;
}.

Definition emit e s := mk_state (showForm s) (username s) (password s) (submitted s) (loginLoading s) (conditions s)
  (local s) (user s) (calls s) (e :: log s).
Definition setShowForm b s := mk_state b (username s) (password s) (submitted s) (loginLoading s) (conditions s)
  (local s) (user s) (calls s) (log s).
Definition setInputs n p s := mk_state (showForm s) n p (submitted s) (loginLoading s) (conditions s) (local s) (user s)
  (calls s) (log s).
Definition setLoading a b s := mk_state (showForm s) (username s) (password s) a b (conditions s) (local s) (user s)
  (calls s) (log s).
Definition setConditions f s := mk_state (showForm s) (username s) (password s) (submitted s) (loginLoading s)
  (f (conditions s)) (local s) (user s) (calls s) (log s).
Definition setSession l x s := mk_state (showForm s) (username s) (password s) (submitted s) (loginLoading s)
  (conditions s) l x (calls s) (log s).
Definition with_calls l s := mk_state (showForm s) (username s) (password s) (submitted s) (loginLoading s)
  (conditions s) (local s) (user s) l (log s).

Section form.
Context (t : jsstr → jsstr).

Definition login_url (token : jsstr) : jsstr := u "/api/user/login?turnstile=" ++ token.

(** ** Logging in *)

Definition handleSubmit (s : state) : state :=
  if not_agreed (conditions s) then emit (ShowInfo (t (u "请先阅读并同意用户协议和隐私政策"))) s
  else if not_checked (conditions s) then emit (ShowInfo (t (u "请稍后几秒重试，Turnstile 正在检查用户环境！"))) s
  else
    let s := setLoading true true s in
    if str_truthy (username s) && str_truthy (password s)
    then emit (Post (login_url (turnstileToken (conditions s))) (username s) (password s))
           (with_calls (calls s ++ [(username s, password s)]) s)
    else setLoading true false (emit (ShowError (VStr (t (u "请输入用户名和密码！")))) s).

Definition default_password (call : jsstr * jsstr) : bool :=
  bool_decide (call.1 = u "root") && bool_decide (call.2 = u "123456").

Definition login_failed (s : state) : state :=
  setLoading (submitted s) false (emit (ShowError (VStr (t (u "登录失败，请重试")))) s).

(** The user is put into the context, then stored. *)
Definition logged_in (call : jsstr * jsstr) (data : value) (s : state) : state :=
  let s := emit (ShowSuccess (t (u "登录成功！"))) (emit UpdateAPI (setSession (setUserData data (local s)) data s)) in
  let s := if default_password call then emit WarnDefaultPassword s else s in
  emit (Navigate (u "/console/dashboard")) s.

Definition login_answered (call : jsstr * jsstr) (res : value) (s : state) : state :=
  match parts_of res with
  | None => login_failed s
  | Some (true, _, data) => setLoading (submitted s) false (logged_in call data s)
  | Some (false, message, _) => setLoading (submitted s) false (emit (ShowError message) s)
  end.

(** ** Steps *)

Inductive event :=
  | Status (status : value)
  | Open
  | Close
  | Name (text : jsstr)
  | Password (text : jsstr)
  | Agree (b : bool)
  | Verified (token : jsstr)
  | Submit
  | Answer (i : nat) (res : value)
  | Failure (i : nat).

Definition can_submit (s : state) : bool := showForm s && negb (loginLoading s || not_agreed (conditions s)).

Definition step (s : state) (e : event) : state :=
  match e with
  | Status status => setConditions (status_effect status) s
  | Open => setShowForm true s
  | Close => setShowForm false s
  | Name text => if showForm s then setInputs text (password s) s else s
  | Password text => if showForm s then setInputs (username s) text s else s
  | Agree b => if showForm s then setConditions (agree b) s else s
  | Verified token => setConditions (verified token) s
  | Submit => if can_submit s then handleSubmit s else s
  | Answer i res =>
      match calls s !! i with Some call => login_answered call res (with_calls (delete i (calls s)) s) | None => s end
  | Failure i => match calls s !! i with Some _ => login_failed (with_calls (delete i (calls s)) s) | None => s end
  end.

Definition run (s : state) (l : list event) : state := fold_left step l s.

(** [expired] and [open] are parameters of the address. *)
Definition init (context : value) (s : storage) (expired open : bool) : state :=
  mk_state open [] [] false false (status_effect (known_status context s) no_terms) s VUndef []
    (if expired then [ShowError (VStr (t (u "未登录或登录已过期，请重新登录")))] else []).

(** ** Laws *)

(** A login is asked for with a name and a password, only when the terms have been agreed
    to where there are any, and with what the check of the environment gave where there is
    one. *)
Theorem logins_are_checked s e url name pass :
  log (step s e) = Post url name pass :: log s →
  str_truthy name = true ∧ str_truthy pass = true ∧ not_agreed (conditions s) = false ∧
  not_checked (conditions s) = false ∧ url = login_url (turnstileToken (conditions s)) ∧ loginLoading s = false.
Proof.
  intros H.
  assert (∀ x : effect, x :: log s = Post url name pass :: log s → x = Post url name pass) as Hx by by intros x [=].
  assert (log s = Post url name pass :: log s → False) as Hn by (intros E; apply (f_equal length) in E; simpl in E; lia).
  destruct e as [st| | |n|p|b|tk| |i res|i]; cbn [step] in H; try (by apply Hn in H); try (by destruct (showForm s); apply Hn in H).
  - destruct (can_submit s) eqn:Ec; [|by apply Hn in H]. unfold can_submit in Ec. bool_simp.
    unfold handleSubmit in H. destruct (not_agreed (conditions s)); [by apply Hx in H|].
    destruct (not_checked (conditions s)); [by apply Hx in H|]. cbn -[login_url] in H.
    destruct (str_truthy (username s) && str_truthy (password s)) eqn:E; [|by apply Hx in H].
    apply Hx in H as [= <- <- <-]. apply andb_true_iff in E as [E1 E2]. done.
  - destruct (calls s !! i) as [call|]; [|by apply Hn in H]. unfold login_answered in H.
    destruct (parts_of res) as [[[[] m] data]|]; [|by apply Hx in H|by apply Hx in H].
    unfold logged_in in H. simpl in H. injection H as H H'. destruct (default_password call); done.
  - destruct (calls s !! i); [by apply Hx in H|by apply Hn in H].
Qed.

(** After a login everything the console reads of the session says what the server said: the
    role decides who is an administrator or root and which pages open, and the console
    goes to the dashboard. *)
Theorem login_opens_console s i call res m data role :
  calls s !! i = Some call → parts_of res = Some (true, m, VObj data) →
  json_ok (VObj data) = true → prop (u "role") data = VNum role →
  let s' := step s (Answer i res) in
  let admin := nleb (num_of_Z 10) role in
  user s' = VObj data ∧ isAdmin (local s') = Some admin ∧ isRoot (local s') = Some (nleb (num_of_Z 100) role) ∧
  AdminRoute (local s') = (if admin then Children else Dashboard) ∧ PrivateRoute (local s') = Children ∧
  hd_error (log s') = Some (Navigate (u "/console/dashboard")) ∧ loginLoading s' = false.
Proof.
  intros Hi Hp Hok Hr. cbv zeta. cbn [step]. rewrite Hi. unfold login_answered. rewrite Hp.
  destruct (session_after_login data role (local s) Hok Hr) as (H1 & H2 & H3 & _ & H5 & _).
  unfold logged_in. destruct (default_password call); cbn [setLoading emit user local log hd_error loginLoading]; done.
Qed.
End form.

(** ** The terminal *)

(** What is shown of each segment once [typed] units have been typed. *)
Fixpoint shown_segments (typed : Z) (segments : list jsstr) : list jsstr :=
  match segments with
  | [] => []
  | s :: l =>
      take (Z.to_nat (Z.max 0 (Z.min typed (Z.of_nat (length s))))) s :: shown_segments (typed - Z.of_nat (length s)) l
  end.

(** One run of the interval, four units at a time: the count and whether it goes on. *)
Definition type_on (total : nat) (typed : nat) : nat * bool := (typed + 4, negb (total <=? typed + 4)).

(** What is shown is the beginning of the whole text. *)
Theorem typed_is_prefix n segments :
  concat (shown_segments (Z.of_nat n) segments) = take n (concat segments).
Proof.
  assert (∀ z l, (z ≤ 0)%Z → concat (shown_segments z l) = []) as H0.
  { intros z l. revert z. induction l as [|s l IH]; intros z Hz; [done|]. cbn [shown_segments concat].
    rewrite IH by lia. replace (Z.to_nat _) with 0 by lia. done. }
  revert n. induction segments as [|s l IH]; intros n; [by destruct n|]. cbn [shown_segments concat].
  rewrite take_app. f_equal.
  - destruct (decide (n ≤ length s)) as [H|H].
    + f_equal. lia.
    + rewrite !take_ge; [done|lia|lia].
  - destruct (decide (n ≤ length s)) as [H|H].
    + rewrite H0 by lia. replace (n - length s) with 0 by lia. done.
    + replace (Z.of_nat n - Z.of_nat (length s))%Z with (Z.of_nat (n - length s)) by lia. apply IH.
Qed.

(** ** Witnesses *)

Definition answer (data : value) : value := VObj [(u "data", VObj [(u "success", VBool true); (u "data", data)])].
Definition root_user : props := [(u "id", VNum (num_of_Z 1)); (u "role", VNum (num_of_Z 100)); (u "username", VStr (u "root"))].
Definition status : value := VObj [(u "turnstile_check", VBool true); (u "privacy_policy_enabled", VBool true)].
Definition filled : list event :=
  [Open; Name (u "root"); Password (u "123456"); Submit; Agree true; Submit; Verified (u "tk")].
Definition go (l : list event) : state := run (λ x, x) (init (λ x, x) status [] false false) l.

Lemma logins_are_checked_witness :
  let s := go filled in
  log (step (λ x, x) s Submit) = Post (u "/api/user/login?turnstile=tk") (u "root") (u "123456") :: log s ∧
  not_agreed (conditions s) = false.
Proof.
  intros s.
  assert (log (step (λ x, x) s Submit) = Post (u "/api/user/login?turnstile=tk") (u "root") (u "123456") :: log s) as H
    by (vm_compute; reflexivity).
  split; [exact H|]. exact (proj1 (proj2 (proj2 (logins_are_checked (λ x, x) s Submit _ _ _ H)))).
Defined.

Lemma login_opens_console_witness :
  let s := go (filled ++ [Submit]) in
  isRoot (local (step (λ x, x) s (Answer 0 (answer (VObj root_user))))) = Some true.
Proof.
  intros s.
  assert (calls s !! 0 = Some (u "root", u "123456")) as H1 by (vm_compute; reflexivity).
  assert (json_ok (VObj root_user) = true) as H2 by (vm_compute; reflexivity).
  assert (prop (u "role") root_user = VNum (num_of_Z 100)) as H3 by (vm_compute; reflexivity).
  exact (proj1 (proj2 (proj2 (login_opens_console (λ x, x) s 0 _ (answer (VObj root_user)) VUndef root_user (num_of_Z 100)
    H1 eq_refl H2 H3)))).
Defined.
