(* ===== verification/RegisterForm.v ===== *)
(** * Registering
    [src/web/src/components/auth/RegisterForm.jsx]: the form that makes an account and asks
    for a code by mail.  The buttons of other providers are never shown:
    [hasOAuthOptions] is the constant false. *)

From Stdlib Require Import SpecFloat.
From stdpp Require Import base numbers option strings sets list.
From S2P Require Import Prelude JsString JsNumber JsValue Json JsOps Session OptionForms AuthForms.
Local Open Scope nat_scope.

(** ** State *)

Record fields := mk_fields {
  username : jsstr; password : jsstr; password2 : jsstr; email : jsstr; verification_code : jsstr;
}.

Inductive effect :=
  | Register (url : jsstr) (f : fields) (aff_code : option jsstr)
  | GetCode (url : jsstr)
  | ShowInfo (text : jsstr)
  | ShowError (v : value)
  | ShowSuccess (text : jsstr)
  | Navigate (path : jsstr)
  | Unhandled.

Inductive waiting := Registering | Sending.

Record state := mk_state {
  status : value; inputs : fields; conditions : terms; registerLoading : bool; verificationCodeLoading : bool;
  rest : pause; local : storage; calls : list waiting; log : list effect;
}.

Definition emit e s := mk_state (status s) (inputs s) (conditions s) (registerLoading s) (verificationCodeLoading s)
  (rest s) (local s) (calls s) (e :: log s).
Definition with_calls l s := mk_state (status s) (inputs s) (conditions s) (registerLoading s) (verificationCodeLoading s)
  (rest s) (local s) l (log s).
Definition suspend (w : waiting) (s : state) : state := with_calls (calls s ++ [w]) s.
Definition setStatus x s := mk_state x (inputs s) (status_effect x (conditions s)) (registerLoading s)
  (verificationCodeLoading s) (rest s) (local s) (calls s) (log s).
Definition setInputs f s := mk_state (status s) f (conditions s) (registerLoading s) (verificationCodeLoading s)
  (rest s) (local s) (calls s) (log s).
Definition setConditions f s := mk_state (status s) (inputs s) (f (conditions s)) (registerLoading s)
  (verificationCodeLoading s) (rest s) (local s) (calls s) (log s).
Definition setRegisterLoading b s := mk_state (status s) (inputs s) (conditions s) b (verificationCodeLoading s) (rest s)
  (local s) (calls s) (log s).
Definition setCodeLoading b s := mk_state (status s) (inputs s) (conditions s) (registerLoading s) b (rest s) (local s)
  (calls s) (log s).
Definition setRest f s := mk_state (status s) (inputs s) (conditions s) (registerLoading s) (verificationCodeLoading s)
  (f (rest s)) (local s) (calls s) (log s).

Inductive field := Username | PasswordField | Password2 | Email | Code.
Definition handleChange (k : field) (text : jsstr) (f : fields) : fields :=
  match k with
  | Username => mk_fields text (password f) (password2 f) (email f) (verification_code f)
  | PasswordField => mk_fields (username f) text (password2 f) (email f) (verification_code f)
  | Password2 => mk_fields (username f) (password f) text (email f) (verification_code f)
  | Email => mk_fields (username f) (password f) (password2 f) text (verification_code f)
  | Code => mk_fields (username f) (password f) (password2 f) (email f) text
  end.

Section form.
Context (t : jsstr → jsstr).

Definition register_url (token : jsstr) : jsstr := u "/api/user/register?turnstile=" ++ token.
(** Neither the address nor the token is encoded. *)
Definition code_url (email token : jsstr) : jsstr := u "/api/verification?email=" ++ email ++ u "&turnstile=" ++ token.

(** ** Registering *)

(** The first thing that is wrong with the form: whether it is an error, and the text. *)
Definition refusal (s : state) : option effect :=
  let f := inputs s in
  if not_agreed (conditions s) then Some (ShowInfo (t (u "请先阅读并同意用户协议和隐私政策")))
  else if negb (str_truthy (username f)) || negb (str_truthy (password f)) then Some (ShowError (VStr (t (u "用户名和密码不能为空"))))
  else if length (password f) <? 8 then Some (ShowError (VStr (t (u "密码长度不得小于 8 位！"))))
  else if negb (bool_decide (password f = password2 f)) then Some (ShowError (VStr (t (u "两次输入的密码不一致"))))
  else match validateEmail (email f) with
       | Some message => Some (ShowError (VStr (t message)))
       | None =>
           if negb (str_truthy (verification_code f)) then Some (ShowError (VStr (t (u "请输入邮箱验证码"))))
           else if not_checked (conditions s) then Some (ShowInfo (u "请稍后几秒重试"))
           else None
       end.

Definition handleSubmit (s : state) : state :=
  match refusal s with
  | Some e => emit e s
  | None =>
      suspend Registering (emit (Register (register_url (turnstileToken (conditions s))) (inputs s) (getItem "aff" (local s)))
        (setRegisterLoading true s))
  end.

Definition register_failed (s : state) : state :=
  setRegisterLoading false (emit (ShowError (VStr (t (u "注册失败，请重试")))) s).

Definition register_answered (res : value) (s : state) : state :=
  match parts_of res with
  | None => register_failed s
  | Some (true, _, _) => setRegisterLoading false (emit (Navigate (u "/login")) (emit (ShowSuccess (t (u "注册成功！"))) s))
  | Some (false, message, _) => setRegisterLoading false (emit (ShowError message) s)
  end.

(** ** A code *)

(** The button is disabled before the environment is looked at. *)
Definition sendVerificationCode (s : state) : state :=
  match validateEmail (email (inputs s)) with
  | Some message => emit (ShowError (VStr (t message))) s
  | None =>
      let s := setRest disable s in
      if not_checked (conditions s) then emit (ShowInfo (t (u "请稍后几秒重试"))) s
      else suspend Sending (emit (GetCode (code_url (email (inputs s)) (turnstileToken (conditions s)))) (setCodeLoading true s))
  end.

Definition code_answered (res : value) (s : state) : state :=
  match parts_of res with
  | None => emit Unhandled s
  | Some (true, _, _) => setCodeLoading false (emit (ShowSuccess (t (u "验证码发送成功"))) s)
  | Some (false, message, _) => setCodeLoading false (emit (ShowError message) s)
  end.

(** ** Steps *)

(** The form is there once the status is known and where registering is not switched off. *)
Definition form_shown (s : state) : bool :=
  truthy (status s) && truthy (opt_read (u "version") (status s)) &&
  negb (is_false_value (opt_read (u "register_enabled") (status s))).

Inductive event :=
  | Status (x : value)
  | Typed (k : field) (text : jsstr)
  | Agree (b : bool)
  | Verified (token : jsstr)
  | SendCode
  | Submit
  | Second
  | Answer (i : nat) (res : value)
  | Failure (i : nat).

Definition take_call (i : nat) (s : state) : state := with_calls (delete i (calls s)) s.

Definition step (s : state) (e : event) : state :=
  match e with
  | Status x => setStatus x s
  | Typed k text => if form_shown s then setInputs (handleChange k text (inputs s)) s else s
  | Agree b => if form_shown s then setConditions (agree b) s else s
  | Verified token => setConditions (verified token) s
  | SendCode => if form_shown s && negb (disableButton (rest s)) then sendVerificationCode s else s
  | Submit =>
      if form_shown s && negb (registerLoading s || not_agreed (conditions s)) then handleSubmit s else s
  | Second => setRest second s
  | Answer i res =>
      match calls s !! i with
      | Some Registering => register_answered res (take_call i s)
      | Some Sending => code_answered res (take_call i s)
      | None => s
      end
  | Failure i =>
      match calls s !! i with
      | Some Registering => register_failed (take_call i s)
      | Some Sending => emit Unhandled (take_call i s)
      | None => s
      end
  end.

Definition run (s : state) (l : list event) : state := fold_left step l s.

Definition init (context : value) (s : storage) : state :=
  let status := known_status context s in
  mk_state status (mk_fields [] [] [] [] []) (status_effect status no_terms) false false first_pause s [] [].

(** ** Laws *)

Lemma refusal_told s e : refusal s = Some e → (∃ x, e = ShowInfo x) ∨ ∃ v, e = ShowError v.
Proof.
  unfold refusal. cbv zeta. destruct (not_agreed _); [intros [= <-]; eauto|].
  destruct (negb _ || negb _); [intros [= <-]; eauto|]. destruct (_ <? 8); [intros [= <-]; eauto|].
  destruct (negb (bool_decide _)); [intros [= <-]; eauto|]. destruct (validateEmail _); [intros [= <-]; eauto|].
  destruct (negb _); [intros [= <-]; eauto|]. destruct (not_checked _); [intros [= <-]; eauto|done].
Qed.

(** An account is only asked for with the terms agreed to, a name, a password of eight units
    or more that was typed twice, an address that may register, a code, and what the check
    of the environment gave where there is one. *)
Theorem registrations_are_checked s e url f aff :
  log (step s e) = Register url f aff :: log s →
  f = inputs s ∧ not_agreed (conditions s) = false ∧ not_checked (conditions s) = false ∧
  str_truthy (username f) = true ∧ 8 ≤ length (password f) ∧ password f = password2 f ∧
  validateEmail (email f) = None ∧ str_truthy (verification_code f) = true.
Proof.
  intros H.
  assert (∀ x : effect, x :: log s = Register url f aff :: log s → x = Register url f aff) as Hx by by intros x [=].
  assert (log s = Register url f aff :: log s → False) as Hn by (intros E; apply (f_equal length) in E; simpl in E; lia).
  destruct e as [x|k text|b|tk| | | |i res|i]; cbn [step] in H; try (by apply Hn in H); try (by destruct (form_shown s); apply Hn in H).
  - destruct (form_shown s && _); [|by apply Hn in H]. unfold sendVerificationCode in H.
    destruct (validateEmail (email (inputs s))); [by apply Hx in H|]. cbv zeta in H. destruct (not_checked _); by apply Hx in H.
  - destruct (form_shown s && _); [|by apply Hn in H]. unfold handleSubmit in H.
    destruct (refusal s) as [e'|] eqn:Er.
    { apply Hx in H as ->. by apply refusal_told in Er as [[x [=]]|[v [=]]]. }
    apply Hx in H as [= <- <- <-]. unfold refusal in Er.
    destruct (not_agreed _); [done|]. destruct (negb _ || negb _) eqn:E1; [done|].
    destruct (length _ <? 8) eqn:E2; [done|]. destruct (negb (bool_decide _)) eqn:E3; [done|].
    destruct (validateEmail _) eqn:E4; [done|]. destruct (negb (str_truthy (verification_code (inputs s)))) eqn:E5; [done|].
    destruct (not_checked (conditions s)); [done|]. bool_simp. apply Nat.ltb_ge in E2. done.
  - destruct (calls s !! i) as [[]|]; [| |by apply Hn in H].
    + unfold register_answered in H. destruct (parts_of res) as [[[[] m] data]|]; [|by apply Hx in H|by apply Hx in H].
      by injection H.
    + unfold code_answered in H. destruct (parts_of res) as [[[[] m] data]|]; by apply Hx in H.
  - destruct (calls s !! i) as [[]|]; [by apply Hx in H|by apply Hx in H|by apply Hn in H].
Qed.

(** *** Codes *)

Definition codes (l : list effect) : list jsstr := omap (λ e, match e with GetCode url => Some url | _ => None end) l.
Definition is_second (e : event) : bool := match e with Second => true | _ => false end.
Definition seconds (l : list event) : nat := length (List.filter is_second l).

Lemma step_rest s e : rest (step s e) =
  match e with
  | Second => second (rest s)
  | SendCode =>
      if form_shown s && negb (disableButton (rest s)) && match validateEmail (email (inputs s)) with None => true | _ => false end
      then disable (rest s) else rest s
  | _ => rest s
  end.
Proof.
  destruct e as [x|k text|b|tk| | | |i res|i]; cbn [step]; try done.
  - by destruct (form_shown s).
  - by destruct (form_shown s).
  - destruct (form_shown s && _); [|done]. unfold sendVerificationCode. destruct (validateEmail _); [done|].
    cbv zeta. by destruct (not_checked _).
  - destruct (form_shown s && _); [|done]. unfold handleSubmit. by destruct (refusal s).
  - destruct (calls s !! i) as [[]|]; [| |done]; unfold register_answered, code_answered;
      by destruct (parts_of res) as [[[[] m] data]|].
  - by destruct (calls s !! i) as [[]|].
Qed.

(** While the button rests nothing asks for a code. *)
Lemma no_code_at_rest s e : disableButton (rest s) = true → codes (log (step s e)) = codes (log s).
Proof.
  intros Hd. destruct e as [x|k text|b|tk| | | |i res|i]; cbn [step]; try done.
  - by destruct (form_shown s).
  - by destruct (form_shown s).
  - by rewrite Hd, andb_false_r.
  - destruct (form_shown s && _); [|done]. unfold handleSubmit. destruct (refusal s) as [e|] eqn:Er; [|done].
    by apply refusal_told in Er as [[x ->]|[v ->]].
  - destruct (calls s !! i) as [[]|]; [| |done]; unfold register_answered, code_answered;
      by destruct (parts_of res) as [[[[] m] data]|].
  - by destruct (calls s !! i) as [[]|].
Qed.

Lemma code_disables s e : codes (log (step s e)) ≠ codes (log s) → rest (step s e) = disable (rest s).
Proof.
  intros Hc. destruct (disableButton (rest s)) eqn:Hd; [by rewrite no_code_at_rest in Hc|].
  pose proof (step_rest s e) as Hr. destruct e as [x|k text|b|tk| | | |i res|i]; cbn [step] in Hc; try done.
  - by destruct (form_shown s).
  - by destruct (form_shown s).
  - rewrite Hr, Hd. rewrite Hd in Hc. destruct (form_shown s); [|done]. cbn [negb andb] in *. unfold sendVerificationCode in Hc.
    by destruct (validateEmail (email (inputs s))).
  - destruct (form_shown s && _); [|done]. unfold handleSubmit in Hc. destruct (refusal s) as [e|] eqn:Er; [|done].
    by apply refusal_told in Er as [[x ->]|[v ->]].
  - destruct (calls s !! i) as [[]|]; [| |done]; unfold register_answered, code_answered in Hc;
      by destruct (parts_of res) as [[[[] m] data]|].
  - by destruct (calls s !! i) as [[]|].
Qed.

#[local] Instance register_pausing : Pausing state event.
Proof.
  refine {| p_step := step; p_rest := rest; p_second := is_second; p_asked s := codes (log s);
            p_quiet := no_code_at_rest; p_disables := code_disables |}.
  - intros s e He. rewrite step_rest. by destruct e.
  - intros s e He. rewrite step_rest. destruct e; try done; auto. destruct (_ && _); auto.
Defined.

(** C11: Two requests for a code are thirty seconds apart: after one, nothing that is typed,
    clicked, answered or told asks for another until the interval has run thirty times. *)
Theorem codes_are_apart context st l l' :
  let s := run (init context st) l in
  codes (log (step s SendCode)) ≠ codes (log s) → seconds l' < 30 →
  codes (log (run (step s SendCode) l')) = codes (log (step s SendCode)).
Proof.
  cbv zeta. intros Hc Hl. assert (pause_ok (p_rest (init context st))) as H0 by (split; [cbn; lia|done]).
  exact (requests_apart (run (init context st) l) SendCode l' (pausing_ok_run (init context st) l H0) Hc Hl).
Qed.
End form.

(** ** Witnesses *)

Definition filled : list event :=
  [Typed Username (u "ann"); Typed PasswordField (u "12345678"); Typed Password2 (u "12345678");
   Typed Email (u "ann@gmail.com"); Typed Code (u "9a")].
Definition open_status : value := VObj [(u "version", VStr (u "1")); (u "turnstile_check", VBool true)].
Definition go (l : list event) : state := run (λ x, x) (init open_status []) l.

(** The button is disabled although nothing was sent. *)
Example disabled_for_nothing :
  let s := go (filled ++ [SendCode]) in (codes (log s), disableButton (rest s)) = ([], true).
Proof. vm_compute. reflexivity. Qed.

(** A call that fails leaves the button loading. *)
Example code_stays_loading :
  let s := go (filled ++ [Verified (u "tk"); SendCode; Failure 0] ++ repeat Second 60) in
  (verificationCodeLoading s, calls s, disableButton (rest s)) = (true, [], false).
Proof. vm_compute. reflexivity. Qed.

(** An address that may register is not the one that is asked for. *)
Example plus_not_encoded :
  let s := go [Verified (u "tk"); Typed Email (u "ann+api@gmail.com"); SendCode] in
  (validateEmail (u "ann+api@gmail.com"), log s) = (None, [GetCode (u "/api/verification?email=ann+api@gmail.com&turnstile=tk")]).
Proof. vm_compute. reflexivity. Qed.

Lemma registrations_are_checked_witness :
  let s := go (filled ++ [Verified (u "tk")]) in
  log (step (λ x, x) s Submit) = Register (u "/api/user/register?turnstile=tk") (inputs s) None :: log s ∧
  password (inputs s) = password2 (inputs s).
Proof.
  intros s.
  assert (log (step (λ x, x) s Submit) = Register (u "/api/user/register?turnstile=tk") (inputs s) None :: log s) as H
    by (vm_compute; reflexivity).
  split; [exact H|].
  exact (proj1 (proj2 (proj2 (proj2 (proj2 (proj2 (registrations_are_checked (λ x, x) s Submit _ _ _ H))))))).
Defined.

Lemma codes_are_apart_witness :
  let l := filled ++ [Verified (u "tk")] in
  let l' := [SendCode; Answer 0 VUndef] ++ repeat Second 29 ++ [SendCode] in
  codes (log (run (λ x, x) (step (λ x, x) (go l) SendCode) l')) = [u "/api/verification?email=ann@gmail.com&turnstile=tk"].
Proof.
  intros l l'.
  assert (codes (log (step (λ x, x) (go l) SendCode)) = [u "/api/verification?email=ann@gmail.com&turnstile=tk"]) as H1
    by (vm_compute; reflexivity).
  assert (codes (log (step (λ x, x) (go l) SendCode)) ≠ codes (log (go l))) as H2 by (rewrite H1; vm_compute; congruence).
  assert (seconds l' < 30) as H3 by (apply (bool_decide_unpack _); vm_compute; exact I).
  rewrite <- H1. exact (codes_are_apart (λ x, x) open_status [] l l' H2 H3).
Defined.
