(* ===== verification/PasswordReset.v ===== *)
(** * A forgotten password
    [src/web/src/components/auth/PasswordResetForm.jsx], which asks for a mail with a link,
    and [PasswordResetConfirm.jsx], the page of the link, which asks for a new password and
    copies it. *)

From Stdlib Require Import SpecFloat.
From stdpp Require Import base numbers option strings sets list.
From S2P Require Import Prelude JsString JsNumber JsValue Json JsOps Session OptionForms AuthForms.
Local Open Scope nat_scope.

Inductive effect :=
  | AskMail (url : jsstr)
  | AskPassword (email token : jsstr)
  | Copy (v : value)
  | ShowInfo (text : jsstr)
  | ShowError (v : value)
  | ShowSuccess (text : jsstr)
  | ShowNotice (text : jsstr)
  | Unhandled.

Definition mails (l : list effect) : list jsstr := omap (λ e, match e with AskMail url => Some url | _ => None end) l.
Definition passwords (l : list effect) : list jsstr :=
  omap (λ e, match e with AskPassword _ token => Some token | _ => None end) l.

(** ** The form *)

(** [waiting] counts the calls, whose answers are all treated alike. *)
Record form := mk_form {
  email : jsstr; loading : bool; conditions : terms; rest : pause; waiting : nat; log : list effect;
}.

Definition emit e f := mk_form (email f) (loading f) (conditions f) (rest f) (waiting f) (e :: log f).
Definition setEmail x f := mk_form x (loading f) (conditions f) (rest f) (waiting f) (log f).
Definition setLoading b f := mk_form (email f) b (conditions f) (rest f) (waiting f) (log f).
Definition setRest g f := mk_form (email f) (loading f) (conditions f) (g (rest f)) (waiting f) (log f).
Definition setToken x f := mk_form (email f) (loading f) (verified x (conditions f)) (rest f) (waiting f) (log f).
Definition setWaiting n f := mk_form (email f) (loading f) (conditions f) (rest f) n (log f).

Section form.
Context (t : jsstr → jsstr).

(** Neither is encoded. *)
Definition mail_url (email token : jsstr) : jsstr := u "/api/reset_password?email=" ++ email ++ u "&turnstile=" ++ token.

Definition handleSubmit (f : form) : form :=
  if negb (str_truthy (email f)) then emit (ShowError (VStr (t (u "请输入邮箱地址")))) f
  else if not_checked (conditions f) then emit (ShowInfo (t (u "请稍后几秒重试，Turnstile 正在检查用户环境！"))) f
  else emit (AskMail (mail_url (email f) (turnstileToken (conditions f))))
         (setWaiting (S (waiting f)) (setLoading true (setRest disable f))).

Definition mail_answered (res : value) (f : form) : form :=
  match parts_of res with
  | None => emit Unhandled f
  | Some (true, _, _) => setLoading false (setEmail [] (emit (ShowSuccess (t (u "重置邮件发送成功，请检查邮箱！"))) f))
  | Some (false, message, _) => setLoading false (emit (ShowError message) f)
  end.

Inductive form_event :=
  | Typed (text : jsstr)
  | Verified (token : jsstr)
  | Submit
  | Second
  | Answer (res : value)
  | Failure.

Definition form_step (f : form) (e : form_event) : form :=
  match e with
  | Typed text => setEmail text f
  | Verified token => setToken token f
  | Submit => if disableButton (rest f) then f else handleSubmit f
  | Second => setRest second f
  | Answer res => match waiting f with O => f | S n => mail_answered res (setWaiting n f) end
  | Failure => match waiting f with O => f | S n => emit Unhandled (setWaiting n f) end
  end.

Definition form_run (f : form) (l : list form_event) : form := fold_left form_step l f.

(** [None] where what is stored of the status is no JSON: the effect throws. *)
Definition form_init (s : storage) : option form :=
  let first c := mk_form [] false c first_pause 0 [] in
  match getItem "status" s with
  | Some ((_ :: _) as text) =>
      status ← json_parse text;
      check ← read (u "turnstile_check") status;
      Some (first (if truthy check
                   then mk_terms (VBool false) (VBool false) false true (opt_read (u "turnstile_site_key") status) []
                   else no_terms))
  | _ => Some (first no_terms)
  end.

(** ** The page of the link *)

Inductive call := Resetting | Copying (password : value).

Record link := mk_link {
  link_email : jsstr; link_token : jsstr; resetting : bool; link_rest : pause; newPassword : value;
  link_calls : list call; link_log : list effect;
}.

Definition tell e p := mk_link (link_email p) (link_token p) (resetting p) (link_rest p) (newPassword p) (link_calls p)
  (e :: link_log p).
Definition setResetting b p := mk_link (link_email p) (link_token p) b (link_rest p) (newPassword p) (link_calls p) (link_log p).
Definition setLinkRest f p := mk_link (link_email p) (link_token p) (resetting p) (f (link_rest p)) (newPassword p)
  (link_calls p) (link_log p).
Definition setNewPassword x p := mk_link (link_email p) (link_token p) (resetting p) (link_rest p) x (link_calls p) (link_log p).
Definition with_calls l p := mk_link (link_email p) (link_token p) (resetting p) (link_rest p) (newPassword p) l (link_log p).

(** [email && token] *)
Definition isValidResetLink (p : link) : bool := str_truthy (link_email p) && str_truthy (link_token p).

Definition confirm (p : link) : link :=
  if negb (isValidResetLink p) then tell (ShowError (VStr (t (u "无效的重置链接，请重新发起密码重置请求")))) p
  else tell (AskPassword (link_email p) (link_token p))
         (with_calls (link_calls p ++ [Resetting]) (setResetting true (setLinkRest disable p))).

(** The password is shown, then copied. *)
Definition reset_answered (res : value) (p : link) : link :=
  match parts_of res with
  | None => tell Unhandled p
  | Some (true, _, data) => with_calls (link_calls p ++ [Copying data]) (tell (Copy data) (setNewPassword data p))
  | Some (false, message, _) => setResetting false (tell (ShowError message) p)
  end.

(** [copy] never throws; [None] is a password that cannot be written into a text. *)
Definition copied (password : value) (p : link) : link :=
  match to_string password with
  | Some text => setResetting false (tell (ShowNotice (t (u "密码已重置并已复制到剪贴板：") ++ u " " ++ text)) p)
  | None => tell Unhandled p
  end.

Definition button_disabled (p : link) : bool :=
  disableButton (link_rest p) || truthy (newPassword p) || negb (isValidResetLink p).

Inductive link_event :=
  | Confirm
  | LinkSecond
  | LinkAnswer (i : nat) (res : value)
  | LinkFailure (i : nat).

Definition take_call (i : nat) (p : link) : link := with_calls (delete i (link_calls p)) p.

Definition link_step (p : link) (e : link_event) : link :=
  match e with
  | Confirm => if button_disabled p then p else confirm p
  | LinkSecond => setLinkRest second p
  | LinkAnswer i res =>
      match link_calls p !! i with
      | Some Resetting => reset_answered res (take_call i p)
      | Some (Copying x) => copied x (take_call i p)
      | None => p
      end
  | LinkFailure i => match link_calls p !! i with Some Resetting => tell Unhandled (take_call i p) | _ => p end
  end.

Definition link_run (p : link) (l : list link_event) : link := fold_left link_step l p.

(** [searchParams.get('email')] and [get('token')]. *)
Definition link_init (email token : option jsstr) : link :=
  mk_link (default [] email) (default [] token) false first_pause (VStr []) [] [].

(** ** Laws *)

Lemma mails_rest f e : disableButton (rest f) = true → mails (log (form_step f e)) = mails (log f).
Proof.
  intros Hd. destruct e; cbn [form_step]; try done; [by rewrite Hd| |]; destruct (waiting f); try done.
  unfold mail_answered. by destruct (parts_of res) as [[[[] m] data]|].
Qed.

Lemma form_step_rest f e : rest (form_step f e) =
  match e with
  | Second => second (rest f)
  | Submit => if negb (disableButton (rest f)) && str_truthy (email f) && negb (not_checked (conditions f))
              then disable (rest f) else rest f
  | _ => rest f
  end.
Proof.
  destruct e; cbn [form_step]; try done.
  - destruct (disableButton (rest f)); [done|]. unfold handleSubmit. destruct (str_truthy _); [|done].
    by destruct (not_checked _).
  - destruct (waiting f); [done|]. unfold mail_answered. by destruct (parts_of res) as [[[[] m] data]|].
  - by destruct (waiting f).
Qed.

Lemma mails_disable f e : mails (log (form_step f e)) ≠ mails (log f) → rest (form_step f e) = disable (rest f).
Proof.
  intros H. rewrite form_step_rest. destruct e; cbn [form_step] in H; try done.
  - destruct (disableButton (rest f)); [done|]. unfold handleSubmit in H. cbn [negb andb].
    destruct (str_truthy _); [|done]. by destruct (not_checked _).
  - destruct (waiting f); [done|]. unfold mail_answered in H. by destruct (parts_of res) as [[[[] m] data]|].
  - by destruct (waiting f).
Qed.

Definition is_second (e : form_event) : bool := match e with Second => true | _ => false end.

#[local] Instance form_pausing : Pausing form form_event.
Proof.
  refine {| p_step := form_step; p_rest := rest; p_second := is_second; p_asked f := mails (log f);
            p_quiet := mails_rest; p_disables := mails_disable |}.
  - intros f e He. rewrite form_step_rest. by destruct e.
  - intros f e He. rewrite form_step_rest. destruct e; try done; auto. destruct (_ && _); auto.
Defined.

(** Two mails are thirty seconds apart. *)
Theorem mails_are_apart s f0 l l' :
  form_init s = Some f0 →
  let f := form_run f0 l in
  mails (log (form_step f Submit)) ≠ mails (log f) → p_seconds l' < 30 →
  mails (log (form_run (form_step f Submit) l')) = mails (log (form_step f Submit)).
Proof.
  cbv zeta. intros H0 Hm Hl.
  assert (pause_ok (p_rest f0)) as Hok.
  { unfold form_init in H0. assert (∀ c, pause_ok (rest (mk_form [] false c first_pause 0 []))) as Hp by (intros c; split; [cbn; lia|done]).
    destruct (getItem "status" s) as [[|c text]|]; [by injection H0 as <-| |by injection H0 as <-].
    destruct (json_parse _); [|done]. cbn [mbind option_bind] in H0. destruct (read _ _); [|done]. by injection H0 as <-. }
  exact (requests_apart (form_run f0 l) Submit l' (pausing_ok_run f0 l Hok) Hm Hl).
Qed.

(** Once a link has given a password it is never used again. *)
Theorem link_used_once p l :
  truthy (newPassword p) = true → Forall (λ c, c ≠ Resetting) (link_calls p) →
  passwords (link_log (link_run p l)) = passwords (link_log p) ∧ newPassword (link_run p l) = newPassword p.
Proof.
  revert p. induction l as [|e l IH]; intros p Hp Hc; [done|]. cbn [link_run fold_left].
  assert (newPassword (link_step p e) = newPassword p ∧ passwords (link_log (link_step p e)) = passwords (link_log p) ∧
    Forall (λ c, c ≠ Resetting) (link_calls (link_step p e))) as (H1 & H2 & H3).
  { destruct e as [| |i res|i]; cbn [link_step].
    - unfold button_disabled. by rewrite Hp, orb_true_r.
    - done.
    - destruct (link_calls p !! i) as [[|x]|] eqn:Ei; [|..|done].
      + by apply (Forall_lookup_1 _ _ _ _ Hc) in Ei.
      + unfold copied. destruct (to_string x); (split; [done|split; [done|by apply Forall_delete]]).
    - destruct (link_calls p !! i) as [[|x]|] eqn:Ei; [|done|done]. by apply (Forall_lookup_1 _ _ _ _ Hc) in Ei. }
  rewrite <- H2, <- H1. apply IH; [by rewrite H1|done].
Qed.
End form.

(** ** Witnesses *)

Definition given : value := VObj [(u "data", VObj [(u "success", VBool true); (u "data", VStr (u "x7Kp"))])].
Definition page : link := link_init (Some (u "ann@qq.com")) (Some (u "tk")).

(** A mail that cannot be asked for leaves the button loading. *)
Example mail_stays_loading :
  let f := form_run (λ x, x) (mk_form [] false no_terms first_pause 0 []) [Typed (u "ann@qq.com"); Submit; Failure] in
  (loading f, waiting f) = (true, 0).
Proof. vm_compute. reflexivity. Qed.

Lemma mails_are_apart_witness :
  let l' := [Answer given; Typed (u "ann@qq.com")] ++ repeat Second 29 ++ [Submit] in
  let f := form_step (λ x, x) (mk_form (u "ann@qq.com") false no_terms first_pause 0 []) Submit in
  mails (log (form_run (λ x, x) f l')) = [u "/api/reset_password?email=ann@qq.com&turnstile="].
Proof.
  intros l' f.
  assert (form_init [] = Some (mk_form [] false no_terms first_pause 0 [])) as H1 by done.
  assert (mails (log (form_step (λ x, x) (form_run (λ x, x) (mk_form [] false no_terms first_pause 0 []) [Typed (u "ann@qq.com")]) Submit)) ≠
    mails (log (form_run (λ x, x) (mk_form [] false no_terms first_pause 0 []) [Typed (u "ann@qq.com")]))) as H2 by (vm_compute; congruence).
  exact (mails_are_apart (λ x, x) [] _ [Typed (u "ann@qq.com")] l' H1 H2 ltac:(apply (bool_decide_unpack _); vm_compute; exact I)).
Defined.

Lemma link_used_once_witness :
  let p := link_run (λ x, x) page [Confirm; LinkAnswer 0 given] in
  passwords (link_log (link_run (λ x, x) p (LinkAnswer 0 VUndef :: repeat LinkSecond 30 ++ [Confirm]))) = [u "tk"].
Proof.
  intros p. assert (truthy (newPassword p) = true) as H1 by (vm_compute; reflexivity).
  assert (Forall (λ c, c ≠ Resetting) (link_calls p)) as H2 by (vm_compute; repeat constructor; congruence).
  exact (proj1 (link_used_once (λ x, x) p (LinkAnswer 0 VUndef :: repeat LinkSecond 30 ++ [Confirm]) H1 H2)).
Defined.
