(* ===== verification/Setup.v ===== *)
(** * Setting the system up
    [src/web/src/components/setup/SetupWizard.jsx] with its steps and its navigation, and
    [SetupCheck.js]: four steps, the administrator's account among them, and the request
    that makes the system. *)

From Stdlib Require Import SpecFloat.
From stdpp Require Import base numbers option strings sets list.
From S2P Require Import Prelude JsString JsNumber JsValue Json JsOps OptionForms.
Local Open Scope nat_scope.

(** ** State *)

(** [formData]: what is typed is put into it and into the form, which also has the mode. *)
Record data := mk_data { username : jsstr; password : jsstr; confirmPassword : jsstr }.

Record view := mk_view {
  loading : bool; setupStatus : value; currentStep : nat; formData : data; form : data; usageMode : option jsstr;
}.

Inductive effect :=
  | GetStatus
  | Post (body : props)
  | ShowError (v : value)
  | ShowNotice (text : jsstr)
  | GoHome
  | Reload.

Inductive waiting := LoadStatus | Submitting.

Record state := mk_state { now : view; calls : list waiting; timers : nat; log : list effect }.

Definition emit e s := mk_state (now s) (calls s) (timers s) (e :: log s).
Definition with_calls l s := mk_state (now s) l (timers s) (log s).
Definition with_timers n s := mk_state (now s) (calls s) n (log s).
Definition suspend (w : waiting) (s : state) : state := with_calls (calls s ++ [w]) s.
Definition on_view (f : view → view) (s : state) : state := mk_state (f (now s)) (calls s) (timers s) (log s).

Definition setLoading b v := mk_view b (setupStatus v) (currentStep v) (formData v) (form v) (usageMode v).
Definition setSetupStatus x v := mk_view (loading v) x (currentStep v) (formData v) (form v) (usageMode v).
Definition setCurrentStep n v := mk_view (loading v) (setupStatus v) n (formData v) (form v) (usageMode v).
Definition setData d v := mk_view (loading v) (setupStatus v) (currentStep v) d d (usageMode v).
Definition setMode m v := mk_view (loading v) (setupStatus v) (currentStep v) (formData v) (form v) m.

Inductive field := Username | Password | ConfirmPassword.
Definition typed (k : field) (text : jsstr) (d : data) : data :=
  match k with
  | Username => mk_data text (password d) (confirmPassword d)
  | Password => mk_data (username d) text (confirmPassword d)
  | ConfirmPassword => mk_data (username d) (password d) text
  end.

(** The number of [steps]. *)
Definition steps : nat := 4.

Section wizard.
Context (t : jsstr → jsstr).

Definition tells (text : string) (s : state) : state := emit (ShowError (VStr (t (u text)))) s.
Definition root_init (v : view) : bool := truthy (opt_read (u "root_init") (setupStatus v)).

(** ** The status *)

(** [None] in [data] throws after the state has been set. *)
Definition status_answered (res : value) (s : state) : state :=
  match parts_of res with
  | None => tells "获取初始化状态失败" s
  | Some (false, _, _) => tells "获取初始化状态失败" s
  | Some (true, _, data) =>
      let s := on_view (setSetupStatus data) s in
      match read (u "status") data with
      | None => tells "获取初始化状态失败" s
      | Some x => if truthy x then emit GoHome s else on_view (setCurrentStep 0) s
      end
  end.

(** ** Steps *)

(** What keeps a step from being left. *)
Definition cannot_proceed (v : view) : option string :=
  match currentStep v with
  | 1 =>
      let d := formData v in
      if root_init v then None
      else if negb (str_truthy (username d)) || negb (str_truthy (password d)) || negb (str_truthy (confirmPassword d))
      then Some "请填写完整的管理员账号信息"%string
      else if negb (bool_decide (password d = confirmPassword d)) then Some "两次输入的密码不一致"%string
      else if length (password d) <? 8 then Some "密码长度至少为8个字符"%string
      else None
  | 2 => match usageMode v with Some (_ :: _) => None | _ => Some "请选择使用模式"%string end
  | _ => None
  end.

Definition next (s : state) : state :=
  match cannot_proceed (now s) with
  | Some text => tells text s
  | None => on_view (λ v, setCurrentStep (S (currentStep v)) v) s
  end.

Definition prev (s : state) : state := on_view (λ v, setCurrentStep (currentStep v - 1) v) s.

(** ** Submitting *)

Definition cannot_submit (v : view) : option string :=
  let d := form v in
  if root_init v then None
  else if negb (str_truthy (username d)) || negb (str_truthy (trim (username d))) then Some "请输入管理员用户名"%string
  else if negb (str_truthy (password d)) || (length (password d) <? 8) then Some "密码长度至少为8个字符"%string
  else if negb (bool_decide (password d = confirmPassword d)) then Some "两次输入的密码不一致"%string
  else None.

(** The form keeps the values of the fields that are there; [DemoSiteEnabled] takes the place
    of the mode. *)
Definition form_values (v : view) : props :=
  (if root_init v then []
   else [(u "username", VStr (username (form v))); (u "password", VStr (password (form v)));
         (u "confirmPassword", VStr (confirmPassword (form v)))]) ++
  [(u "DemoSiteEnabled", VBool (bool_decide (usageMode v = Some (u "demo"))))].

Definition onSubmit (s : state) : state :=
  match cannot_submit (now s) with
  | Some text => tells text s
  | None => suspend Submitting (emit (Post (form_values (now s))) (on_view (setLoading true) s))
  end.

Definition submit_failed (s : state) : state := on_view (setLoading false) (tells "系统初始化失败，请重试" s).

(** What is wrong with the answer itself is caught as a failure. *)
Definition submit_answered (res : value) (s : state) : state :=
  match parts_of res with
  | None => submit_failed s
  | Some (true, _, _) =>
      on_view (setLoading false) (with_timers (S (timers s)) (emit (ShowNotice (t (u "系统初始化成功，正在跳转..."))) s))
  | Some (false, message, _) =>
      on_view (setLoading false) (emit (ShowError (value_or message (VStr (t (u "初始化失败，请重试"))))) s)
  end.

(** ** What is shown *)

(** The buttons back, on and to submit. *)
Definition navigation (v : view) : bool * bool * bool :=
  (0 <? currentStep v, currentStep v <? steps - 1, bool_decide (currentStep v = steps - 1)).

Definition database_type (v : view) : value := opt_read (u "database_type") (setupStatus v).
Definition is_database (name : string) (v : view) : bool :=
  match database_type v with VStr s => bool_decide (s = u name) | _ => false end.

(** The kind and the title of the banner of the first step. *)
Definition database_banner (isElectron : bool) (v : view) : option (jsstr * jsstr) :=
  if is_database "sqlite" v
  then Some (if isElectron then (u "info", t (u "本地数据存储")) else (u "warning", t (u "数据库警告")))
  else if is_database "mysql" v || is_database "postgres" v then Some (u "success", t (u "数据库信息"))
  else None.

(** The database, the account and the mode of the last step; [formData] has no mode. *)
Definition summary (v : view) : jsstr * jsstr * jsstr :=
  (if is_database "sqlite" v then u "SQLite" else if is_database "mysql" v then u "MySQL" else u "PostgreSQL",
   if root_init v then t (u "已初始化") else str_or (username (formData v)) (t (u "未设置")),
   t (u "对外运营模式")).

(** ** Events *)

Inductive event :=
  | Typed (k : field) (text : jsstr)
  | Mode (demo : bool)
  | Next
  | Prev
  | Submit
  | TimerFires
  | Answer (i : nat) (res : value)
  | Failure (i : nat).

Definition take_call (i : nat) (s : state) : state := with_calls (delete i (calls s)) s.

(** A status that is nothing cannot be drawn: there is no page any more. *)
Definition drawn (v : view) : bool := match setupStatus v with VNull | VUndef => false | _ => true end.

(** A field and a button are there in their step, the form of an account while none has been made;
    a button that is loading takes no click. *)
Definition click (s : state) (e : event) : state :=
  let v := now s in
  match e with
  | Typed k text =>
      if bool_decide (currentStep v = 1) && negb (root_init v) then on_view (λ v, setData (typed k text (formData v)) v) s else s
  | Mode demo =>
      if bool_decide (currentStep v = 2) then on_view (setMode (Some (if demo then u "demo" else u "external"))) s else s
  | Next => if currentStep v <? steps - 1 then next s else s
  | Prev => if 0 <? currentStep v then prev s else s
  | Submit => if bool_decide (currentStep v = steps - 1) && negb (loading v) then onSubmit s else s
  | _ => s
  end.

Definition step (s : state) (e : event) : state :=
  match e with
  | TimerFires => match timers s with S n => emit Reload (with_timers n s) | O => s end
  | Answer i res =>
      match calls s !! i with
      | Some LoadStatus => status_answered res (take_call i s)
      | Some Submitting => submit_answered res (take_call i s)
      | None => s
      end
  | Failure i =>
      match calls s !! i with
      | Some LoadStatus => tells "获取初始化状态失败" (take_call i s)
      | Some Submitting => submit_failed (take_call i s)
      | None => s
      end
  | _ => if drawn (now s) then click s e else s
  end.

Definition run (s : state) (l : list event) : state := fold_left step l s.

Definition first_status : value :=
  VObj [(u "status", VBool false); (u "root_init", VBool false); (u "database_type", VStr [])].
Definition first_view : view := mk_view false first_status 0 (mk_data [] [] []) (mk_data [] [] []) None.
Definition init : state :=
  mk_state first_view [LoadStatus] 0 [GetStatus].

(** [SetupCheck]: whether the console goes to the wizard. *)
Definition goes_to_setup (status : value) (pathname : jsstr) : bool :=
  is_false_value (opt_read (u "setup") status) && negb (bool_decide (pathname = u "/setup")).

(** ** Laws *)

#[global] Instance waiting_eq_dec : EqDecision waiting.
Proof. solve_decision. Defined.

(** An account that the wizard accepts. *)
Definition account_ok (d : data) : Prop :=
  str_truthy (username d) = true ∧ password d = confirmPassword d ∧ 8 ≤ length (password d).

(** The form and its copy agree; a later step has been reached through the checks of those
    before it.  The status is asked for once, and until it comes there is no account. *)
Record invariant (s : state) : Prop := {
  inv_form : form (now s) = formData (now s);
  inv_step : currentStep (now s) ≤ 3;
  inv_account : 2 ≤ currentStep (now s) → root_init (now s) = true ∨ account_ok (formData (now s));
  inv_mode : currentStep (now s) = 3 → usageMode (now s) = Some (u "demo") ∨ usageMode (now s) = Some (u "external");
  inv_modes : ∀ m, usageMode (now s) = Some m → m = u "demo" ∨ m = u "external";
  inv_once : occurs LoadStatus (calls s) ≤ 1;
  inv_fresh : LoadStatus ∈ calls s → root_init (now s) = false;
  inv_loading : occurs Submitting (calls s) = one (loading (now s));
}.

(** What a call or an effect adds leaves it. *)
Lemma inv_same s s' :
  form (now s') = form (now s) → formData (now s') = formData (now s) → currentStep (now s') = currentStep (now s) →
  usageMode (now s') = usageMode (now s) → setupStatus (now s') = setupStatus (now s) →
  occurs LoadStatus (calls s') ≤ occurs LoadStatus (calls s) → occurs Submitting (calls s') = one (loading (now s')) →
  invariant s → invariant s'.
Proof.
  intros H1 H2 H3 H4 H5 H6 H7' [I1 I2 I3 I4 I5 I6 I7 I8]. assert (root_init (now s') = root_init (now s)) as H7 by (unfold root_init; by rewrite H5).
  split; rewrite ?H1, ?H2, ?H3, ?H4, ?H7; [done..|lia| |done]. intros Hin. apply I7. destruct (decide (LoadStatus ∈ calls s)) as [|Hn]; [done|].
  apply occurs_none in Hn. assert (occurs LoadStatus (calls s') = 0) as H by lia. by apply occurs_none in H.
Qed.

Lemma next_invariant s : invariant s → currentStep (now s) < 3 → invariant (next s).
Proof.
  intros [H1 H2 H3 H4 H5 H6 H7 H8] Hlt. unfold next. destruct (cannot_proceed (now s)) as [text|] eqn:E; [by split|].
  split; cbn [now on_view setCurrentStep currentStep form formData usageMode]; [done|lia| | |done..].
  - intros Hs. destruct (currentStep (now s)) as [|[|n]] eqn:Ec; [lia| |apply H3; lia].
    unfold cannot_proceed in E. rewrite Ec in E. change (root_init (setCurrentStep 2 (now s))) with (root_init (now s)).
    destruct (root_init (now s)); [by left|]. right.
    destruct (negb (str_truthy (username _)) || _ || _) eqn:E1; [done|]. destruct (negb (bool_decide _)) eqn:E2; [done|].
    destruct (length _ <? 8) eqn:E3; [done|]. bool_simp. apply Nat.ltb_ge in E3. done.
  - intros Hs. assert (currentStep (now s) = 2) as Ec by lia. unfold cannot_proceed in E. rewrite Ec in E.
    destruct (usageMode (now s)) as [m|]; [|done]. by destruct (H5 m eq_refl) as [->| ->]; [left|right].
Qed.

Lemma click_invariant s e : invariant s → invariant (click s e).
Proof.
  intros H. pose proof H as [H1 H2 H3 H4 H5 H6 H7 H8]. destruct e; cbn [click]; try done.
  - case_match eqn:E; [|done]. bool_simp. split; cbn; [done|done|lia|lia|done..].
  - case_match eqn:E; [|done]. bool_simp. split; cbn; [done|done|done|lia| |done..]. intros m [= <-]. destruct demo; [by left|by right].
  - case_match eqn:E; [|done]. apply Nat.ltb_lt in E. by apply next_invariant.
  - case_match eqn:E; [|done]. apply Nat.ltb_lt in E. split; cbn; [done|lia| |lia|done..]. intros. apply H3. lia.
  - case_match eqn:E; [|done]. apply andb_true_iff in E as [_ E]. unfold onSubmit. case_match; [by apply (inv_same s)|].
    apply (inv_same s); try done; cbn [suspend with_calls emit on_view calls].
    + by rewrite occurs_app, occurs_one, Nat.add_0_r.
    + rewrite occurs_app, occurs_one, H8. by destruct (loading (now s)).
Qed.

(** The answer about the status: nothing waits for it any more. *)
Lemma status_invariant res s :
  invariant s → root_init (now s) = false → occurs LoadStatus (calls s) = 0 → invariant (status_answered res s).
Proof.
  intros [H1 H2 H3 H4 H5 H6 H7 Hl] Hr H0. assert (LoadStatus ∉ calls s) as Hn by by apply occurs_none.
  assert (2 ≤ currentStep (now s) → account_ok (formData (now s))) as H8 by (intros Hs; destruct (H3 Hs); [congruence|done]).
  unfold status_answered. destruct (parts_of res) as [[[[] message] data]|]; [|by split..].
  destruct (read (u "status") data) as [x|]; [destruct (truthy x)|];
    (split; cbn; [done|lia|intros; (lia || by right; apply H8)|(done || lia)|done|done|done|done]).
Qed.

(** An answer takes its call away, whatever it is. *)
Lemma take_occurs w x i s :
  calls s !! i = Some x → occurs w (calls s) = occurs w (calls (take_call i s)) + one (bool_decide (x = w)).
Proof. apply occurs_delete. Qed.

Lemma submitted_invariant i s s' :
  invariant s → calls s !! i = Some Submitting → now s' = setLoading false (now s) → calls s' = calls (take_call i s) → invariant s'.
Proof.
  intros H Hi Hn Hc. pose proof (take_occurs LoadStatus _ _ _ Hi) as H1. pose proof (take_occurs Submitting _ _ _ Hi) as H2.
  rewrite bool_decide_false in H1 by done. rewrite bool_decide_true in H2 by done. pose proof (inv_loading s H) as H3.
  assert (occurs Submitting (calls (take_call i s)) = 0) as H4 by (destruct (loading (now s)); cbn [one] in *; lia).
  apply (inv_same s); rewrite ?Hn, ?Hc; try done. rewrite H1. lia.
Qed.

Lemma step_invariant s e : invariant s → invariant (step s e).
Proof.
  intros H. destruct e; cbn [step]; try (destruct (drawn (now s)); [by apply click_invariant|done]).
  - destruct (timers s); [done|]. apply (inv_same s); try done. apply H.
  - destruct (calls s !! i) as [[]|] eqn:Ei; [| |done].
    + pose proof (take_occurs LoadStatus _ _ _ Ei) as H1. pose proof (take_occurs Submitting _ _ _ Ei) as H2.
      rewrite bool_decide_true in H1 by done. rewrite bool_decide_false in H2 by done. cbn [one] in *.
      pose proof (inv_once s H). pose proof (inv_loading s H).
      apply status_invariant; [|by apply H, (list_elem_of_lookup_2 _ i)|lia]. apply (inv_same s); try done; cbn [now take_call with_calls] in *; lia.
    + apply (submitted_invariant i s); [done|done| |]; unfold submit_answered, submit_failed; by repeat case_match.
  - destruct (calls s !! i) as [[]|] eqn:Ei; [| |done].
    + pose proof (take_occurs LoadStatus _ _ _ Ei) as H1. pose proof (take_occurs Submitting _ _ _ Ei) as H2.
      rewrite bool_decide_false in H2 by done. cbn [one] in H2. pose proof (inv_loading s H).
      apply (inv_same s); try done; cbn [now tells emit calls] in *; [lia|].
      change (now (take_call i s)) with (now s). lia.
    + by apply (submitted_invariant i s).
Qed.

Lemma setup_invariant l : invariant (run init l).
Proof.
  assert (invariant init) as H by (by split; cbn; try lia). unfold run. revert H. generalize init.
  induction l as [|e l IH]; intros s H; [done|]. by apply IH, step_invariant.
Qed.

(** *** Properties *)

Definition posts (s : state) : list props := omap (λ e, match e with Post body => Some body | _ => None end) (log s).

(** C10: The request that makes the system is sent by a click at the last step only, one at a time,
    with one of the two modes and, where there is no account yet, the name and the two equal
    passwords of one. *)
Theorem setup_is_checked l e :
  let s := run init l in
  posts (step s e) = posts s ∨
  e = Submit ∧ currentStep (now s) = 3 ∧ Submitting ∉ calls s ∧ posts (step s e) = form_values (now s) :: posts s ∧
  (usageMode (now s) = Some (u "demo") ∨ usageMode (now s) = Some (u "external")) ∧
  (root_init (now s) = true ∨ account_ok (form (now s)) ∧ trim (username (form (now s))) ≠ []).
Proof.
  intros s. pose proof (setup_invariant l) as Hi. fold s in Hi. destruct e; cbn [step]; 
    try (left; destruct (drawn (now s)); [|done]; cbn [click]; unfold next; repeat case_match; done).
  - destruct (drawn (now s)); [|by left]. cbn [click]. destruct (bool_decide (currentStep (now s) = steps - 1)) eqn:E; [|by left].
    apply bool_decide_eq_true in E. cbn in E. destruct (loading (now s)) eqn:El; [by left|]. cbn [negb andb]. unfold onSubmit.
    destruct (cannot_submit (now s)) eqn:Ec; [by left|]. right. split; [done|]. split; [done|]. split.
    { apply occurs_none. rewrite (inv_loading s Hi), El. done. }
    split; [done|]. split; [by apply Hi|]. pose proof (inv_account s Hi) as [Ha|Ha]; [lia|by left|].
    unfold cannot_submit in Ec. destruct (root_init (now s)); [by left|]. right. rewrite (inv_form s Hi) in Ec |- *. split; [done|].
    intros E2. rewrite E2, orb_true_r in Ec. done.
  - left. by destruct (timers s).
  - left. destruct (calls s !! i) as [[]|]; [| |done]; unfold status_answered, submit_answered, submit_failed; by repeat case_match.
  - left. by destruct (calls s !! i) as [[]|].
Qed.

(** C37: Who has come to the last step is refused there for a name of blanks only. *)
Theorem refused_for_a_blank_name l text :
  currentStep (now (run init l)) = 3 → cannot_submit (now (run init l)) = Some text →
  text = "请输入管理员用户名"%string ∧ trim (username (formData (now (run init l)))) = [] ∧
  username (formData (now (run init l))) ≠ [].
Proof.
  intros Hs Hc. pose proof (setup_invariant l) as Hi. set (s := run init l) in *.
  unfold cannot_submit in Hc. rewrite (inv_form s Hi) in Hc. pose proof (inv_account s Hi) as [Ha|(H1 & H2 & H3)]; [lia|by rewrite Ha in Hc|].
  destruct (root_init (now s)); [done|]. rewrite H1 in Hc. cbn [negb orb] in Hc.
  assert (str_truthy (password (formData (now s))) = true) as Hp by (destruct (password _); [cbn in H3; lia|done]).
  rewrite Hp in Hc. replace (length (password (formData (now s))) <? 8) with false in Hc by (symmetry; by apply Nat.ltb_ge).
  rewrite bool_decide_true in Hc by done. destruct (trim (username (formData (now s)))); [|done]. simplify_eq/=.
  split; [done|]. split; [done|]. intros E. by rewrite E in H1.
Qed.
End wizard.

(** Two blanks as a name pass the second step and are refused at the last one. *)
Definition blank_name : list event :=
  [Next; Typed Username (u "  "); Typed Password (u "12345678"); Typed ConfirmPassword (u "12345678"); Next; Mode true; Next].

Lemma refused_for_a_blank_name_witness :
  currentStep (now (run id init blank_name)) = 3 ∧ trim (username (formData (now (run id init blank_name)))) = [].
Proof.
  split; [vm_compute; reflexivity|].
  apply (refused_for_a_blank_name id blank_name "请输入管理员用户名"); vm_compute; reflexivity.
Defined.

(** The summary says that the site is run for others although a demonstration is asked for. *)
Example summary_of_demo :
  let s := run id init [Answer 0 (VObj [(u "data", VObj [(u "success", VBool true);
    (u "data", VObj [(u "status", VBool false); (u "root_init", VBool true); (u "database_type", VStr (u "mysql"))])])]); Next; Next; Mode true; Next] in
  summary id (now s) = (u "MySQL", u "已初始化", u "对外运营模式") ∧
  posts (step id s Submit) = [[(u "DemoSiteEnabled", VBool true)]].
Proof. vm_compute. done. Qed.
