(* ===== verification/Bill.v ===== *)
(** * Bills and prices of models
    The lines that [renderModelPrice] of [src/web/src/helpers/render.jsx] writes for a
    request, and [calculateModelPrice], [getModelPriceItems] and the pagination of
    [utils.jsx].  A number of an argument that cannot be converted counts as NaN. *)

From Stdlib Require Import SpecFloat.
From stdpp Require Import base numbers option strings sets list.
From S2P Require Import Prelude JsString JsNumber NumberOrder JsValue Json JsOps Session TextRender Amounts.

Definition zero : num := num_of_Z 0.
Definition positive (x : num) : bool := nltb zero x.

(** [Math.max(x, 0)] *)
Definition at_least_zero (x : num) : num := if is_nan x then x else if nltb zero x then x else zero.

(** A value in arithmetic; [v ?? d] of a numeric property; [a || b] of numbers. *)
Definition num_of (v : value) : num := default NaN (to_number v).
Definition num_prop (k : string) (v : value) (d : num) : num :=
  match opt_read (u k) v with
  | VUndef | VNull => d
  | x => default NaN (to_number x)
  end.
Definition num_or (a b : num) : num := if num_truthy a then a else b.

(** ** Bills *)

Record usage := mk_usage {
  inputTokens : num; completionTokens : num; groupRatio : value; user_group_ratio : value;
  cacheTokens : num; image : bool; imageOutputTokens : num;
  webSearchCallCount : value; webSearchPrice : num; fileSearchCallCount : value; fileSearchPrice : num;
  audioInputTokens : num; audioInputPrice : value; imageGenerationCall : bool; imageGenerationCallPrice : num;
}.

Definition isValidGroupRatio (ratio : value) : bool :=
  match ratio with VNum x => is_finite x && negb (neqb x (num_of_Z (-1))) | _ => false end.

Definition getEffectiveRatio (groupRatio : value) (user : value) : value :=
  if isValidGroupRatio user then user else groupRatio.

(** A text of the amount, or the number of tokens. *)
Definition renderDisplayAmountFromUsd (d : display) (amount : num) (digits : Z) : jsstr :=
  let x := num_or amount zero in
  if negb (is_finite x) || nleb x zero then u "$0.00000000"
  else
    let rounded := str_to_num (to_fixed x digits) in
    if is_type "TOKENS" d then
      match renderNumber (if num_truthy rounded then rounded else zero) with
      | VStr s => s | VNum y => num_to_string y | _ => []
      end
    else u "$" ++ to_fixed rounded digits.

Definition formatBillingDisplayPrice (usdAmount r : num) (digits : Z) : jsstr := to_fixed (nmul usdAmount r) digits.

Section bill.
Context (d : display) (use : usage) (pricingData : value).

Definition ratio_used : num := num_of (getEffectiveRatio (groupRatio use) (user_group_ratio use)).
Definition ratio_text : option jsstr := to_string (getEffectiveRatio (groupRatio use) (user_group_ratio use)).
Definition promptPrice : num := num_prop "prompt_price" pricingData zero.
Definition completionPrice : num := num_prop "completion_price" pricingData zero.
Definition cacheReadPrice : num := num_prop "cache_read_price" pricingData zero.
Definition imageInputPrice : num := num_prop "image_price" pricingData zero.
Definition cacheWritePrice : num := num_prop "cache_write_price" pricingData zero.
Definition cacheWrite5mPrice : num := num_prop "cache_write_5m_price" pricingData cacheWritePrice.
Definition cacheWrite1hPrice : num := num_prop "cache_write_1h_price" pricingData cacheWritePrice.

(** Whether the price of the short or the long cache is another one, as values. *)
Definition other_price (k : string) : bool :=
  let base := match opt_read (u "cache_write_price") pricingData with VUndef | VNull => VNum zero | x => x end in
  match opt_read (u k) pricingData with VUndef | VNull => false | x => negb (strict_eq x base) end.

(** The input of Anthropic's counts has no cached tokens in it. *)
Definition isAnthropicSemantic : bool :=
  is_true_value (opt_read (u "claude") pricingData) ||
  strict_eq (opt_read (u "usage_semantic") pricingData) (VStr (u "anthropic")).

Definition cacheInputTokens : num := at_least_zero (cacheTokens use).
Definition normalInputTokens : num :=
  let total := if isAnthropicSemantic then inputTokens use else nsub (inputTokens use) (cacheTokens use) in
  at_least_zero (nsub (nsub total (audioInputTokens use)) (imageOutputTokens use)).
Definition written (k : string) : num := at_least_zero (num_or (num_prop k pricingData zero) zero).
Definition cacheWriteBaseTokens : num := written "cache_creation_tokens".
Definition cacheWrite5mTokens : num := written "cache_creation_tokens_5m".
Definition cacheWrite1hTokens : num := written "cache_creation_tokens_1h".
Definition cacheWriteTokens : num := nadd (nadd cacheWriteBaseTokens cacheWrite5mTokens) cacheWrite1hTokens.
Definition imageInputTokens : num :=
  if image use && positive (imageOutputTokens use) then imageOutputTokens use else zero.
Definition audioPromptTokens : num := at_least_zero (audioInputTokens use).
Definition textOutputTokens : num := at_least_zero (completionTokens use).
Definition audioPrice : num :=
  if truthy (audioInputPrice use) then num_of (audioInputPrice use) else promptPrice.

(** [(tokens / 1_000_000) * price * groupRatio], and the same by the thousand. *)
Definition per_million (tokens price : num) : num :=
  nmul (nmul (ndiv tokens (num_of_Z 1000000)) price) ratio_used.
Definition per_thousand (calls price : num) : num :=
  nmul (nmul (ndiv calls (num_of_Z 1000)) price) ratio_used.

Definition inputAmount : num :=
  fold_left nadd
    [per_million cacheInputTokens cacheReadPrice; per_million cacheWriteBaseTokens cacheWritePrice;
     per_million cacheWrite5mTokens cacheWrite5mPrice; per_million cacheWrite1hTokens cacheWrite1hPrice;
     per_million imageInputTokens imageInputPrice; per_million audioPromptTokens audioPrice]
    (per_million normalInputTokens promptPrice).

Definition outputAmount : num :=
  fold_left nadd
    [per_thousand (num_of (webSearchCallCount use)) (webSearchPrice use);
     per_thousand (num_of (fileSearchCallCount use)) (fileSearchPrice use);
     nmul (imageGenerationCallPrice use) ratio_used]
    (per_million textOutputTokens completionPrice).

Definition totalAmount : num := nadd inputAmount outputAmount.

Definition shown (x : num) : jsstr := renderDisplayAmountFromUsd d x 8.

Section terms.
Context (sym : jsstr) (r : num) (group_text web_text file_text : jsstr).

Definition priced (text : jsstr) (price : num) (unit_ : string) : jsstr :=
  text ++ u " × " ++ sym ++ formatBillingDisplayPrice price r 8 ++ u unit_.
Definition term (condition : bool) (text : jsstr) (price : num) (unit_ : string) : list jsstr :=
  if condition then [priced text price unit_] else [].
Definition token_term (tokens price : num) : list jsstr :=
  term (positive tokens && positive price) (num_to_string tokens) price "/m".

Definition cacheWriteTerms : list jsstr :=
  token_term cacheWriteTokens cacheWritePrice ++
  term (positive cacheWrite5mTokens && positive cacheWrite5mPrice && other_price "cache_write_5m_price")
    (num_to_string cacheWrite5mTokens) cacheWrite5mPrice "/m" ++
  term (positive cacheWrite1hTokens && positive cacheWrite1hPrice && other_price "cache_write_1h_price")
    (num_to_string cacheWrite1hTokens) cacheWrite1hPrice "/m".

Definition audioInputTerms : list jsstr :=
  term (positive audioPromptTokens && (positive (num_of (audioInputPrice use)) || positive promptPrice))
    (num_to_string audioPromptTokens) audioPrice "/m".

Definition outputTerms : list jsstr :=
  token_term textOutputTokens completionPrice ++
  term (positive (num_of (webSearchCallCount use)) && positive (webSearchPrice use))
    (u "搜索" ++ web_text) (webSearchPrice use) "/K" ++
  term (positive (num_of (fileSearchCallCount use)) && positive (fileSearchPrice use))
    (u "文件" ++ file_text) (fileSearchPrice use) "/K" ++
  term (imageGenerationCall use && positive (imageGenerationCallPrice use))
    (u "图片生成1") (imageGenerationCallPrice use) "".

(** A line is written when it has a term. *)
Definition line (label : string) (terms : list jsstr) (amount : num) : list jsstr :=
  match terms with
  | [] => []
  | _ => [u label ++ join (u " + ") terms ++ u " × (" ++ group_text ++ u ") = " ++ shown amount]
  end.

Definition result_line (amount : num) : jsstr := u "结果  : " ++ shown amount.

Definition bill_lines : list jsstr :=
  let perCallPrice := num_prop "per_call_price" pricingData zero in
  if negb (is_undef (opt_read (u "per_call_price") pricingData)) && positive perCallPrice then
    [u "按次  : 1 × " ++ sym ++ formatBillingDisplayPrice perCallPrice r 8 ++ u " × (" ++ group_text ++
       u ") = " ++ shown (nmul perCallPrice ratio_used);
     result_line (nmul perCallPrice ratio_used)]
  else
    line "输入  : " (token_term normalInputTokens promptPrice) (per_million normalInputTokens promptPrice) ++
    line "缓存读: " (token_term cacheInputTokens cacheReadPrice) (per_million cacheInputTokens cacheReadPrice) ++
    line "缓存写: " cacheWriteTerms
      (nadd (nadd (per_million cacheWriteBaseTokens cacheWritePrice) (per_million cacheWrite5mTokens cacheWrite5mPrice))
         (per_million cacheWrite1hTokens cacheWrite1hPrice)) ++
    line "图片输入: " (token_term imageInputTokens imageInputPrice) (per_million imageInputTokens imageInputPrice) ++
    line "音频输入: " audioInputTerms (per_million audioPromptTokens audioPrice) ++
    line "输出  : " outputTerms outputAmount ++
    [result_line totalAmount].
End terms.

(** [None] when the symbol or the rate of the status, or an argument that is written,
    cannot be converted. *)
Definition renderModelPrice : option (list jsstr) :=
  let c := getCurrencyConfig d in
  sym ← to_string (symbol c); r ← to_number (rate c); group ← ratio_text;
  web ← to_string (webSearchCallCount use); file ← to_string (fileSearchCallCount use);
  Some (bill_lines sym r group web file).
End bill.

(** The positional arguments of a call; a missing or undefined one has its default. *)
Definition argument (args : list value) (i : nat) (d : value) : value :=
  match args !! i with Some VUndef | None => d | Some v => v end.

Definition usage_of (args : list value) : usage :=
  let n z := VNum (num_of_Z z) in
  let arg := argument args in
  let number i d := num_of (arg i d) in
  mk_usage (number 0 VUndef) (number 1 VUndef) (arg 5 VUndef) (arg 6 VUndef) (number 7 (n 0%Z))
    (truthy (arg 9 VUndef)) (number 11 (n 0%Z)) (arg 13 (n 0%Z)) (number 14 (n 0%Z))
    (arg 16 (n 0%Z)) (number 17 (n 0%Z)) (number 19 (n 0%Z)) (arg 20 (n 0%Z))
    (truthy (arg 21 VUndef)) (number 22 (n 0%Z)).

Definition renderModelPrice_call (d : display) (args : list value) : option (list jsstr) :=
  renderModelPrice d (usage_of args) (argument args 24 VNull).

(** The other names of the function pass their arguments on. *)
Definition renderAudioModelPrice : display → list value → option (list jsstr) := renderModelPrice_call.

(** [renderClaudeModelPrice] leaves out images, searches and audio: its seventeen
    arguments are put among those of [renderModelPrice]. *)
Definition renderClaudeModelPrice (d : display) (args : list value) : option (list jsstr) :=
  let zero := VNum (num_of_Z 0) in
  let one := VNum (num_of_Z 1) in
  let no := VBool false in
  let arg := argument args in
  renderModelPrice_call d
    [arg 0 VUndef; arg 1 VUndef; arg 2 VUndef; arg 3 (VNum (num_of_Z (-1))); arg 4 VUndef; arg 5 VUndef; arg 6 VUndef;
     arg 7 zero; arg 8 one; no; one; zero; no; zero; zero; no; zero; zero; no; zero; zero; no; zero;
     arg 15 (VStr (u "price")); arg 16 VNull].

(** The written tokens of the short cache are counted in the first term and again in
    their own, at another price than that of the amount. *)
Example cache_write_line :
  let data := VObj [(u "cache_write_price", VNum (num_of_Z 1)); (u "cache_write_5m_price", VNum (num_of_Z 2));
    (u "cache_creation_tokens_5m", VNum (num_of_Z 1000000))] in
  let n z := VNum (num_of_Z z) in
  renderClaudeModelPrice (mk_display None None)
    [n 0; n 0; n 0; VUndef; n 0; n 1; VUndef; n 0; n 1; n 0; n 1; n 0; n 1; n 0; n 1; VStr (u "price"); data]%Z =
  Some [u "缓存写: 1000000 × $1.00000000/m + 1000000 × $2.00000000/m × (1) = $2.00000000"; u "结果  : $2.00000000"].
Proof. vm_compute. reflexivity. Qed.

(** ** The price of a model in a group *)

(** The discount of a group, [undefined] when it has none. *)
Definition discount_of (groupRatio : props) (g : value) : option value :=
  k ← to_string g; Some (prop k groupRatio).

(** The loop over the groups that may use the model; the best so far. *)
Record choice := mk_choice { usedGroup : value; usedGroupDiscount : value; minDiscount : num }.

Definition consider (groupRatio : props) (best : option choice) (g : value) : option choice :=
  best ← best; discount ← discount_of groupRatio g;
  if is_undef discount then Some best
  else x ← to_number discount;
       Some (if nltb x (minDiscount best) then mk_choice g discount x else best).

Definition choose_group (groupRatio : props) (selectedGroup : jsstr) (enable_groups : value) : option choice :=
  let selected := prop selectedGroup groupRatio in
  let start := mk_choice (VStr selectedGroup) selected (S754_infinity false) in
  let all := bool_decide (selectedGroup = u "all") || is_undef selected in
  let groups := match enable_groups with VArr l => List.filter (λ g, negb (strict_eq g (VStr []))) l | _ => [] end in
  best ← (if all then fold_left (consider groupRatio) groups (Some start) else Some start);
  Some (if all && is_undef (usedGroupDiscount best)
        then mk_choice (usedGroup best) (VNum (num_of_Z 1)) (minDiscount best) else best).

(** What is shown: references to the input price, prices by token, or one price. *)
Inductive price_data :=
  | Ratios (input completion cache createCache image audioInput audioOutput : option num)
  | PerToken (input completion : jsstr) (cache createCache image audioInput audioOutput : option jsstr)
      (unitLabel : string)
  | PerCall (price : jsstr).

Definition hasPrice (x : num) : bool := negb (neqb x zero) && is_finite x.
Definition formatRatio (x : num) : option num := if hasPrice x then Some (str_to_num (to_fixed x 6)) else None.

Section price.
(** [localStorage.getItem('status')], and the display of a price in dollars. *)
Context (local : storage) (displayPrice : num → jsstr).

Definition currency_symbol (currency : jsstr) : value :=
  if bool_decide (currency = u "CNY") then VStr (u "¥")
  else if bool_decide (currency = u "CUSTOM") then custom_symbol (mk_display None (getItem "status" local))
  else VStr (u "$").

(** With the group chosen and the discount of the user applied. *)
Definition calculateModelPrice (record : value) (groupRatio : props) (selectedGroup tokenUnit currency quotaDisplayType : jsstr)
    (precision : Z) : option (price_data * value * num) :=
  best ← choose_group groupRatio selectedGroup (opt_read (u "enable_groups") record);
  base ← to_number (usedGroupDiscount best);
  let effectiveDiscount := nmul base (num_prop "user_multiplier" record (num_of_Z 1)) in
  let price k := num_prop k record zero in
  let promptPrice := price "prompt_price"%string in
  let type := num_prop "pricing_type" record zero in
  data ←
    (if neqb type zero then
       if bool_decide (quotaDisplayType = u "TOKENS") then
         let reference k := if neqb promptPrice zero then None else formatRatio (ndiv (price k) promptPrice) in
         Some (Ratios (formatRatio promptPrice) (reference "completion_price"%string) (reference "cache_read_price"%string)
           (reference "cache_write_price"%string) (reference "image_price"%string) (reference "audio_input_price"%string)
           (reference "audio_output_price"%string))
       else
         sym ← to_string (currency_symbol currency);
         let format x :=
           let discounted := nmul x effectiveDiscount in
           sym ++ to_fixed (if bool_decide (tokenUnit = u "K") then ndiv discounted (num_of_Z 1000) else discounted) precision in
         let optional k := if hasPrice (price k) then Some (format (price k)) else None in
         Some (PerToken (format promptPrice) (format (price "completion_price"%string)) (optional "cache_read_price"%string)
           (optional "cache_write_price"%string) (optional "image_price"%string) (optional "audio_input_price"%string)
           (optional "audio_output_price"%string) (if bool_decide (tokenUnit = u "K") then "K" else "M"))
     else if neqb type (num_of_Z 1) then Some (PerCall (displayPrice (nmul (price "per_call_price"%string) effectiveDiscount)))
     else Some (PerCall (u "-")));
  Some (data, usedGroup best, effectiveDiscount).
End price.

Record price_item := mk_price_item { item_key : string; item_label : jsstr; item_value : jsstr; item_suffix : jsstr }.

(** The items with a value, of data made for the same display type. *)
Section items.
Context (t : jsstr → jsstr).

Definition item (key label : string) (suffix : jsstr) (v : option jsstr) : list price_item :=
  match v with Some ((_ :: _) as text) => [mk_price_item key (t (u label)) text suffix] | _ => [] end.
Definition ratio_item (key label : string) (v : option num) : list price_item :=
  item key label (u "x") (num_to_string <$> v).
Definition token_item (unitLabel key label : string) (v : option jsstr) : list price_item :=
  item key label (u " / 1" ++ u unitLabel ++ u " Tokens") v.

Definition getModelPriceItems (data : price_data) : list price_item :=
  match data with
  | Ratios a b c d e f g =>
      ratio_item "input-ratio" "输入价格倍数参考" a ++ ratio_item "completion-ratio" "输出价格倍数参考" b ++
      ratio_item "cache-ratio" "缓存读取价格参考" c ++ ratio_item "create-cache-ratio" "缓存写入价格参考" d ++
      ratio_item "image-ratio" "图片价格参考" e ++ ratio_item "audio-input-ratio" "音频输入价格参考" f ++
      ratio_item "audio-output-ratio" "音频输出价格参考" g
  | PerToken a b c d e f g unit_ =>
      token_item unit_ "input" "输入价格" (Some a) ++ token_item unit_ "completion" "输出价格" (Some b) ++
      token_item unit_ "cache" "缓存读取价格" c ++ token_item unit_ "create-cache" "缓存写入价格" d ++
      token_item unit_ "image" "图片价格" e ++ token_item unit_ "audio-input" "音频输入价格" f ++
      token_item unit_ "audio-output" "音频输出价格" g
  | PerCall price => item "fixed" "模型价格" (u " / " ++ t (u "次")) (Some price)
  end.
End items.

(** *** The cheapest group *)

Section cheapest.
Context (groupRatio : props).

(** The groups of a model that have a discount. *)
Definition candidates (gs : list jsstr) : list jsstr :=
  List.filter (λ g, str_truthy g && negb (is_undef (prop g groupRatio))) gs.

Hypothesis discounts_finite : ∀ g, prop g groupRatio = VUndef ∨
  ∃ x, prop g groupRatio = VNum x ∧ nltb x (S754_infinity false) = true.

Definition least_of (start : choice) (gs : list jsstr) (best : choice) : Prop :=
  (candidates gs = [] ∧ best = start) ∨
  ∃ g x, g ∈ candidates gs ∧ prop g groupRatio = VNum x ∧ best = mk_choice (VStr g) (VNum x) x ∧
    ∀ g' x', g' ∈ candidates gs → prop g' groupRatio = VNum x' → nltb x' x = false.

Lemma candidates_snoc gs g :
  candidates (gs ++ [g]) =
  candidates gs ++ if str_truthy g && negb (is_undef (prop g groupRatio)) then [g] else [].
Proof. unfold candidates. rewrite List.filter_app. done. Qed.

Lemma consider_least start gs best g :
  minDiscount start = S754_infinity false → g ≠ [] → least_of start gs best →
  ∃ best', consider groupRatio (Some best) (VStr g) = Some best' ∧ least_of start (gs ++ [g]) best'.
Proof.
  intros Hs Hg H. unfold consider. cbn [mbind option_bind]. unfold discount_of. cbn [to_string mbind option_bind].
  unfold least_of. rewrite candidates_snoc.
  assert (str_truthy g = true) as -> by (by destruct g).
  destruct (discounts_finite g) as [E|(x & E & Hx)]; rewrite E; simpl.
  - exists best. by rewrite app_nil_r.
  - destruct H as [[Hc ->]|(g0 & x0 & Hg0 & Hx0 & -> & Hmin)]; simpl.
    + rewrite Hs, Hx. eexists. split; [done|]. right. exists g, x. rewrite Hc. split; [by left|].
      split; [done|]. split; [done|]. intros g' x' ->%list_elem_of_singleton E'. rewrite E in E'.
      injection E' as ->. apply nltb_irrefl.
    + destruct (nltb x x0) eqn:El.
      * eexists. split; [done|]. right. exists g, x. split; [apply elem_of_app; right; by left|].
        split; [done|]. split; [done|]. intros g' x' [Hg'| ->%list_elem_of_singleton]%elem_of_app E'.
        -- destruct (nltb x' x) eqn:El'; [|done]. pose proof (nltb_trans _ _ _ El' El) as Hc.
           by rewrite (Hmin g' x') in Hc.
        -- rewrite E in E'. injection E' as ->. apply nltb_irrefl.
      * eexists. split; [done|]. right. exists g0, x0. split; [apply elem_of_app; by left|].
        split; [done|]. split; [done|]. intros g' x' [Hg'| ->%list_elem_of_singleton]%elem_of_app E'; [by apply (Hmin g')|].
        rewrite E in E'. by injection E' as ->.
Qed.

(** when no group is chosen, or the one chosen has no discount, the price shown is
    that of the model's group with the least discount; otherwise, and when none of
    the model's groups has a discount, it is that of the group chosen, at its
    discount or without one. *)
Theorem cheapest_group sel gs :
  ∃ best, choose_group groupRatio sel (VArr (map VStr gs)) = Some best ∧
  let all := bool_decide (sel = u "all") || is_undef (prop sel groupRatio) in
  if all && negb (bool_decide (candidates gs = [])) then
    ∃ g x, g ∈ candidates gs ∧ prop g groupRatio = VNum x ∧ usedGroup best = VStr g ∧ usedGroupDiscount best = VNum x ∧
      ∀ g' x', g' ∈ candidates gs → prop g' groupRatio = VNum x' → nltb x' x = false
  else usedGroup best = VStr sel ∧
    usedGroupDiscount best = (if is_undef (prop sel groupRatio) then VNum (num_of_Z 1) else prop sel groupRatio).
Proof.
  unfold choose_group. cbv zeta. set (all := bool_decide _ || _).
  set (start := mk_choice _ _ _).
  assert (List.filter (λ g, negb (strict_eq g (VStr []))) (map VStr gs) =
    map VStr (List.filter str_truthy gs)) as ->.
  { induction gs as [|g gs IH]; [done|]. simpl. rewrite IH. by destruct g. }
  assert (candidates (List.filter str_truthy gs) = candidates gs) as Hcand.
  { unfold candidates. clear. induction gs as [|g gs IH]; [done|]. simpl.
    destruct (str_truthy g) eqn:Eg; simpl; [rewrite Eg; simpl; by rewrite IH | exact IH]. }
  assert (∃ best, fold_left (consider groupRatio) (map VStr (List.filter str_truthy gs)) (Some start) = Some best ∧
    least_of start gs best) as (best & Hf & Hb).
  { assert (∀ l, Forall (λ g, g ≠ []) l → ∃ best,
      fold_left (consider groupRatio) (map VStr l) (Some start) = Some best ∧ least_of start l best) as H.
    { intros l. induction l as [|g l IH] using rev_ind; intros Hl.
      - exists start. split; [done|]. by left.
      - apply Forall_app in Hl as [Hl Hg]. destruct (IH Hl) as (best & Hf & Hb).
        rewrite map_app, fold_left_app, Hf. simpl. apply consider_least; [done| |done].
        exact (Forall_inv Hg). }
    destruct (H (List.filter str_truthy gs)) as (best & Hf & Hb).
    - apply Forall_forall. intros g Hg. apply list_elem_of_In, filter_In in Hg as [_ Hg]. by destruct g.
    - exists best. split; [exact Hf|]. unfold least_of in *. by rewrite Hcand in Hb. }
  destruct all eqn:Ea; cycle 1.
  { exists start. split; [done|]. simpl. split; [done|]. unfold all in Ea. apply orb_false_iff in Ea as [_ Ea]. by rewrite Ea. }
  rewrite Hf. cbn [mbind option_bind]. destruct Hb as [[Hc ->]|(g & x & Hg & Hx & -> & Hmin)].
  - rewrite Hc. simpl. destruct (is_undef (prop sel groupRatio)); eexists; split; done.
  - assert (bool_decide (candidates gs = []) = false) as ->.
    { apply bool_decide_eq_false. intros E. rewrite E in Hg. by apply elem_of_nil in Hg. }
    eexists. split; [done|]. simpl. exists g, x. done.
Qed.
End cheapest.

Lemma cheapest_group_witness :
  let ratios := [(u "a", VNum (num_of_Z 3)); (u "b", VNum (num_of_Z 2)); (u "c", VNum (num_of_Z 2))] in
  let choice := choose_group ratios (u "all") (VArr (map VStr (map u ["a"; "b"; "c"; "d"; ""]%string))) in
  (∃ best, choice = Some best) ∧ option_map usedGroup choice = Some (VStr (u "b")).
Proof.
  intros ratios choice.
  assert (∀ g, prop g ratios = VUndef ∨ ∃ x, prop g ratios = VNum x ∧ nltb x (S754_infinity false) = true) as Hd.
  { intros g. unfold ratios, prop. simpl. repeat case_decide; eauto. }
  destruct (cheapest_group ratios Hd (u "all") (map u ["a"; "b"; "c"; "d"; ""]%string)) as (best & Hb & _).
  split; [exists best; exact Hb | vm_compute; reflexivity].
Defined.
