(* ===== verification/UsageRows.v ===== *)
(** * Rows of the usage logs
    [normalizeUsageLogPricingData] and [setLogsFormat] of
    [src/web/src/hooks/usage-logs/useUsageLogsData.jsx]: what a log shows when it is
    opened, with the bill of its request. *)

From Stdlib Require Import SpecFloat.
From stdpp Require Import base numbers option strings sets list.
From S2P Require Import Prelude JsString JsNumber JsValue Json JsOps Session Dates TextRender Amounts Bill.

Definition n (z : Z) : value := VNum (num_of_Z z).

(** [a ?? b] *)
Definition nullish (a b : value) : value := match a with VUndef | VNull => b | _ => a end.

(** [None]: a property cannot be converted; [VNull] when there is nothing to read. *)
Definition normalizeUsageLogPricingData (other : value) : option value :=
  if negb (truthy other) || negb (is_object_type other) then Some VNull
  else
    let field k := opt_read (u k) other in
    let number v := VNum <$> to_number v in
    let write := nullish (field "cache_write_price"%string) (n 0) in
    prompt ← number (nullish (field "prompt_price"%string) (nullish (field "model_ratio"%string) (n 0)));
    completion ← number (nullish (field "completion_price"%string) (nullish (field "completion_ratio_price"%string) (n 0)));
    read_price ← number (nullish (field "cache_read_price"%string) (n 0));
    image ← number (nullish (field "image_price"%string) (n 0));
    write_price ← number write;
    write_5m ← number (nullish (field "cache_write_5m_price"%string) write);
    write_1h ← number (nullish (field "cache_write_1h_price"%string) write);
    created ← number (nullish (field "cache_creation_tokens"%string) (n 0));
    created_5m ← number (nullish (field "cache_creation_tokens_5m"%string) (n 0));
    created_1h ← number (nullish (field "cache_creation_tokens_1h"%string) (n 0));
    Some (VObj [(u "prompt_price", prompt); (u "completion_price", completion); (u "cache_read_price", read_price);
      (u "image_price", image); (u "per_call_price", field "per_call_price"%string); (u "cache_write_price", write_price);
      (u "cache_write_5m_price", write_5m); (u "cache_write_1h_price", write_1h);
      (u "cache_creation_tokens", created); (u "cache_creation_tokens_5m", created_5m);
      (u "cache_creation_tokens_1h", created_1h);
      (u "claude", VBool (is_true_value (field "claude"%string))); (u "usage_semantic", field "usage_semantic"%string)]).

(** A line of an opened log: a value, or a bill. *)
Inductive item_value := Plain (v : value) | Rule (lines : list jsstr).
Record expand_item := mk_item { item_name : jsstr; item_shown : item_value }.

(** [violation_fee === true || Boolean(code) || Boolean(marker)] *)
Definition isViolationFeeLog (other : value) : bool :=
  is_true_value (opt_read (u "violation_fee") other) || truthy (opt_read (u "violation_fee_code") other) ||
  truthy (opt_read (u "violation_fee_marker") other).

Section rows.
(** [d]: the display of amounts; [local]: the calendar of the time zone. *)
Context (t : jsstr → jsstr) (d : display) (local : Z → calendar).

Section bill.
(** [mode]: the display mode of the render, which the bills do not use. *)
Context (mode : value) (log : props) (other : value).

Let field (k : string) : value := opt_read (u k) other.
Let field_or (k : string) (v : value) : value := value_or (field k) v.
Let no : value := VBool false.

(** The arguments of the calls, in their order. *)
Definition rule_args (pricingData : value) : list value :=
  [prop (u "prompt_tokens") log; prop (u "completion_tokens") log; n 0; field "model_price"; n 0;
   field_or "group_discount" (n 1); field "user_group_discount"; field_or "cache_tokens" (n 0); n 1; no; n 1; n 0;
   field_or "web_search" no; field_or "web_search_call_count" (n 0); field_or "web_search_price" (n 0);
   field_or "file_search" no; field_or "file_search_call_count" (n 0); field_or "file_search_price" (n 0); no;
   field_or "audio_input" (n 0); field_or "audio_input_price" (n 0);
   field_or "image_generation_call" no; field_or "image_generation_call_price" (n 0); mode; pricingData].

Definition audio_args : list value :=
  [field "text_input"; field "text_output"; n 0; field "model_price"; n 0; field "audio_input"; field "audio_output";
   field "audio_ratio"; n 1; field "group_discount"; field "user_group_discount"; field_or "cache_tokens" (n 0);
   n 1; mode].

Definition claude_args (pricingData : value) : list value :=
  let written k := value_or (field k) (field_or "cache_write_price" (n 1)) in
  [prop (u "prompt_tokens") log; prop (u "completion_tokens") log; n 0; field "model_price"; n 0;
   field "group_discount"; field "user_group_discount"; field_or "cache_tokens" (n 0); n 1;
   field_or "cache_creation_tokens" (n 0); n 1; field_or "cache_creation_tokens_5m" (n 0); written "cache_write_5m_price"%string;
   field_or "cache_creation_tokens_1h" (n 0); written "cache_write_1h_price"%string; mode; pricingData].

Definition price_args : list value :=
  [prop (u "prompt_tokens") log; prop (u "completion_tokens") log; n 0; field "model_price"; n 0;
   field "group_discount"; field "user_group_discount"; field_or "cache_tokens" (n 0); n 1;
   field_or "image" no; field_or "image_price" (n 0); field_or "image_output" (n 0);
   field_or "web_search" no; field_or "web_search_call_count" (n 0); field_or "web_search_price" (n 0);
   field_or "file_search" no; field_or "file_search_call_count" (n 0); field_or "file_search_price" (n 0); no;
   field_or "audio_input" (n 0); field_or "audio_input_price" (n 0);
   field_or "image_generation_call" no; field_or "image_generation_call_price" (n 0); mode; other].

(** The bill of a log: that of [billingRule] is made first, and never shown, since
    the other one is an element also when it has no text. *)
Definition billing_items : option (list expand_item) :=
  normal ← normalizeUsageLogPricingData other;
  let pricingData := nullish normal other in
  _ ← renderModelPrice_call d (rule_args pricingData);
  if isViolationFeeLog other then Some []
  else
    content ←
      (if truthy (field "ws") || truthy (field "audio") then renderAudioModelPrice d audio_args
       else if truthy (field "claude") then renderClaudeModelPrice d (claude_args pricingData)
       else renderModelPrice_call d price_args);
    Some [mk_item (t (u "计费规则")) (Rule content)].
End bill.

Definition is_type (z : Z) (log : props) : bool := strict_eq (prop (u "type") log) (n z).
Definition is_error_log (log : props) : bool := is_type 5 log || is_type 6 log.

(** A line that is there under a condition. *)
Definition item_when (b : bool) (name : string) (v : value) : list expand_item :=
  if b then [mk_item (t (u name)) (Plain v)] else [].

Definition path_items (log : props) (other : value) : list expand_item :=
  let path := opt_read (u "request_path") other in item_when (truthy path) "请求路径" path.

(** The text of an error that says something; [None] when it cannot be converted. *)
Definition content_items (log : props) : option (list expand_item) :=
  let content := prop (u "content") log in
  if truthy content then
    text ← to_string content;
    Some (item_when (str_truthy (trim text) && negb (strict_eq content (VStr (u "无")))) "错误" content)
  else Some [].

Definition error_items (log : props) (other : value) : option (list expand_item) :=
  if is_error_log log then
    content ← content_items log;
    let reason := opt_read (u "reason") other in
    let reject := opt_read (u "reject_reason") other in
    Some (path_items log other ++ content ++ item_when (truthy reason) "原因" reason ++
      item_when (truthy reject) "拦截原因" reject)
  else Some [].

(** Bills are always shown, values when they are something. *)
Definition has_value (i : expand_item) : bool :=
  match item_shown i with Rule _ => true | Plain (VUndef | VNull | VStr []) => false | Plain _ => true end.

(** The log with its time and key, its key as a text, and its lines. *)
Definition format_row (mode : value) (log : props) : option (props * (jsstr * list expand_item)) :=
  time ← timestamp2string local (prop (u "created_at") log);
  let log := set (u "timestamp2string") (VStr time) log in
  let log := set (u "key") (prop (u "id") log) log in
  let other := getLogOther (prop (u "other") log) in
  billing ← (if is_type 2 log then
    items ← billing_items mode log other; Some (path_items log other ++ items) else Some []);
  errors ← error_items log other;
  key ← to_string (prop (u "key") log);
  Some (log, (key, List.filter has_value (billing ++ errors))).

Definition format_rows (mode : value) (logs : list props) : option (list props * list (jsstr * list expand_item)) :=
  rows ← mapM (format_row mode) logs;
  Some (map fst rows, fold_left (λ o kv, set kv.1 kv.2 o) (map snd rows) []).
End rows.

(** ** Laws *)

Lemma nadd_nan_l x : nadd NaN x = NaN.
Proof. done. Qed.
Lemma nadd_nan_r x : nadd x NaN = NaN.
Proof. by destruct x as [[]|[]| |[] ? ?]. Qed.
Lemma nmul_nan_l x : nmul NaN x = NaN.
Proof. done. Qed.
Lemma nadd_nan_fold l : fold_left nadd l NaN = NaN.
Proof. by induction l. Qed.

(** A display mode is a text that is no number. *)
Definition display_mode (mode : value) : Prop := mode = VStr (u "price") ∨ mode = VStr (u "ratio").

(** Without prices no part of the input has a line. *)
Lemma no_price_term tokens sym r : token_term sym r tokens zero = [].
Proof. unfold token_term, term. by rewrite andb_false_r. Qed.

Lemma positive_zero : positive zero = false.
Proof. done. Qed.

(** A bill without prices whose searches are no number is one line. *)
Lemma bill_without_prices d use sym r group web file :
  num_of (webSearchCallCount use) = NaN → webSearchPrice use = zero → fileSearchPrice use = zero →
  audioInputPrice use = n 0 → imageGenerationCall use = false →
  bill_lines d use VNull sym r group web file = [u "结果  : $0.00000000"].
Proof.
  intros Hw Hwp Hfp Ha Hi. unfold bill_lines. cbv zeta. cbn [opt_read read is_undef negb andb].
  assert (totalAmount use VNull = NaN) as ->.
  { unfold totalAmount, outputAmount, per_thousand. rewrite Hw. cbn [fold_left].
    change (nmul (nmul (ndiv NaN (num_of_Z 1000)) (webSearchPrice use)) (ratio_used use)) with NaN.
    rewrite nadd_nan_r. change (nadd NaN ?x) with NaN. by rewrite !nadd_nan_l, nadd_nan_r. }
  change (promptPrice VNull) with zero. change (cacheReadPrice VNull) with zero. change (imageInputPrice VNull) with zero.
  assert (cacheWriteTerms VNull sym r = []) as ->.
  { unfold cacheWriteTerms, token_term, term. change (cacheWritePrice VNull) with zero.
    change (cacheWrite5mPrice VNull) with zero. change (cacheWrite1hPrice VNull) with zero.
    rewrite !positive_zero, !andb_false_r. reflexivity. }
  assert (audioInputTerms use VNull sym r = []) as ->.
  { unfold audioInputTerms, term. rewrite Ha. change (promptPrice VNull) with zero.
    change (num_of (n 0)) with zero. rewrite positive_zero. by rewrite andb_false_r. }
  assert (outputTerms use VNull sym r web file = []) as ->.
  { unfold outputTerms. change (completionPrice VNull) with zero. rewrite no_price_term, Hwp, Hfp, Hi.
    unfold term. rewrite positive_zero, !andb_false_r. reflexivity. }
  rewrite !no_price_term. reflexivity.
Qed.

(** the bill of a request with audio is always zero dollars: the arguments of the
    call are not those of the bill, so the display mode arrives as the number of
    searches and no price arrives at all; whatever the tokens and the prices of the
    log, the one line of the bill says $0.00000000. *)
Theorem audio_bills_are_zero t d mode log other items :
  display_mode mode → truthy (opt_read (u "ws") other) || truthy (opt_read (u "audio") other) = true →
  isViolationFeeLog other = false → billing_items t d mode log other = Some items →
  items = [mk_item (t (u "计费规则")) (Rule [u "结果  : $0.00000000"])].
Proof.
  intros Hm Ha Hv. unfold billing_items. rewrite Ha, Hv.
  destruct (normalizeUsageLogPricingData other) as [normal|]; [|done]. cbn [mbind option_bind].
  destruct (renderModelPrice_call d (rule_args mode log other (nullish normal other))); [|done]. cbn [mbind option_bind].
  unfold renderAudioModelPrice, renderModelPrice_call, renderModelPrice.
  set (use := usage_of (audio_args mode other)). cbv zeta.
  assert (webSearchCallCount use = mode) as Ew by by destruct Hm as [-> | ->].
  destruct (to_string (symbol _)); [|done]. cbn [mbind option_bind].
  destruct (to_number (rate _)); [|done]. cbn [mbind option_bind].
  destruct (ratio_text use); [|done]. cbn [mbind option_bind].
  destruct (to_string (webSearchCallCount use)); [|done]. cbn [mbind option_bind].
  destruct (to_string (fileSearchCallCount use)); [|done]. cbn [mbind option_bind].
  intros [= <-]. do 3 f_equal. change (argument (audio_args mode other) 24 VNull) with VNull.
  apply bill_without_prices; [|done..]. rewrite Ew. by destruct Hm as [-> | ->].
Qed.

(** A conversation in a web socket. *)
Lemma audio_bills_are_zero_witness :
  let log := [(u "prompt_tokens", n 1000000); (u "completion_tokens", n 0)] in
  let other := VObj [(u "ws", VBool true); (u "prompt_price", n 5); (u "text_input", n 1000000); (u "audio_input", n 7)] in
  ∃ items, billing_items id (mk_display None None) (VStr (u "price")) log other = Some items ∧
    items = [mk_item (u "计费规则") (Rule [u "结果  : $0.00000000"])].
Proof.
  intros log other. destruct (billing_items id (mk_display None None) (VStr (u "price")) log other) as [items|] eqn:E.
  - exists items. split; [reflexivity|].
    apply (audio_bills_are_zero id (mk_display None None) (VStr (u "price")) log other); [by left|reflexivity..|exact E].
  - exfalso. vm_compute in E. discriminate E.
Defined.

(** A log written before prices were stored has no price in its bill, though the one
    that is not shown has it: 1,000,000 tokens at the old ratio of 5. *)
Example old_log_shows_zero :
  let log := [(u "prompt_tokens", n 1000000); (u "completion_tokens", n 0)] in
  let other := VObj [(u "model_ratio", n 5); (u "group_discount", n 1)] in
  billing_items id (mk_display None None) (VStr (u "price")) log other =
    Some [mk_item (u "计费规则") (Rule [u "结果  : $0.00000000"])] ∧
  (normal ← normalizeUsageLogPricingData other;
   renderModelPrice_call (mk_display None None) (rule_args (VStr (u "price")) log other normal)) =
    Some [u "输入  : 1000000 × $5.00000000/m × (1) = $5.00000000"; u "结果  : $5.00000000"].
Proof. split; vm_compute; reflexivity. Qed.
