(* ===== verification/UsageLogs.v ===== *)
(** * Usage logs
    [src/web/src/hooks/usage-logs/useUsageLogsData.jsx]: the table of requests with its
    form, statistics, columns and dialogs.  Loads and statistics are numbered, and an
    answer is compared with the last number. *)

From Stdlib Require Import SpecFloat.
From stdpp Require Import base numbers option strings sets list.
From S2P Require Import Prelude JsString JsNumber JsValue Json JsOps Session TextRender Dates LogTable Amounts Bill UsageRows.

(** ** State *)

Definition COLUMN_KEYS : list string :=
  ["time"; "channel"; "username"; "token"; "token_name"; "type"; "model"; "use_time"; "prompt"; "completion"; "cost";
   "retry"; "ip"; "details"].
Definition admin_only : list string := ["channel"; "username"; "retry"].

Inductive effect :=
  | Get (url : jsstr)
  | ShowError (v : value)
  | ShowSuccess (text : jsstr)
  | Clipboard (text : jsstr)
  | CopyDialog (text : jsstr)
  | Unhandled (v : value).

Record view := mk_view {
  logs : list props; expandData : list (jsstr * list expand_item); showStat : bool; loading : bool; loadingStat : bool;
  activePage : value; logCount : value; pageSize : value; logType : value; groupFilter : jsstr; groupOptions : value; stat : value;
  visibleColumns : props; billingDisplayMode : jsstr;
  retryDrawer : option value; userInfo : option value; affinityModal : option value; paramOverrideModal : option value;
}.

Inductive waiting :=
  | Groups
  | Load (gen : nat) (mode : jsstr)
  | Stat (gen : nat)
  | UserInfo
  | Copying (text : jsstr).

(** [form]: the values of the form, once it is there; [clock]: the time. *)
Record state := mk_state {
  now : view; form : option props; clock : Z; local_storage : storage; loadGen : nat; statGen : nat;
  calls : list waiting; log : list effect;
}.

Definition with_view v s := mk_state v (form s) (clock s) (local_storage s) (loadGen s) (statGen s) (calls s) (log s).
Definition with_form f s := mk_state (now s) f (clock s) (local_storage s) (loadGen s) (statGen s) (calls s) (log s).
Definition with_clock c s := mk_state (now s) (form s) c (local_storage s) (loadGen s) (statGen s) (calls s) (log s).
Definition with_storage x s := mk_state (now s) (form s) (clock s) x (loadGen s) (statGen s) (calls s) (log s).
Definition with_gens a b s := mk_state (now s) (form s) (clock s) (local_storage s) a b (calls s) (log s).
Definition with_calls l s := mk_state (now s) (form s) (clock s) (local_storage s) (loadGen s) (statGen s) l (log s).
Definition emit e s := mk_state (now s) (form s) (clock s) (local_storage s) (loadGen s) (statGen s) (calls s) (e :: log s).
Definition suspend (w : waiting) (s : state) : state := with_calls (calls s ++ [w]) s.
Definition on_view (f : view → view) (s : state) : state := with_view (f (now s)) s.

Definition setLogs rows expanded v := mk_view rows expanded (showStat v) (loading v) (loadingStat v) (activePage v) (logCount v) (pageSize v)
  (logType v) (groupFilter v) (groupOptions v) (stat v) (visibleColumns v) (billingDisplayMode v) (retryDrawer v) (userInfo v) (affinityModal v) (paramOverrideModal v).
Definition setFlags shown load load_stat v := mk_view (logs v) (expandData v) shown load load_stat (activePage v) (logCount v) (pageSize v)
  (logType v) (groupFilter v) (groupOptions v) (stat v) (visibleColumns v) (billingDisplayMode v) (retryDrawer v) (userInfo v) (affinityModal v) (paramOverrideModal v).
Definition setPages page count size v := mk_view (logs v) (expandData v) (showStat v) (loading v) (loadingStat v) page count size
  (logType v) (groupFilter v) (groupOptions v) (stat v) (visibleColumns v) (billingDisplayMode v) (retryDrawer v) (userInfo v) (affinityModal v) (paramOverrideModal v).
Definition setFilters type group options v := mk_view (logs v) (expandData v) (showStat v) (loading v) (loadingStat v) (activePage v) (logCount v)
  (pageSize v) type group options (stat v) (visibleColumns v) (billingDisplayMode v) (retryDrawer v) (userInfo v) (affinityModal v) (paramOverrideModal v).
Definition setStat x v := mk_view (logs v) (expandData v) (showStat v) (loading v) (loadingStat v) (activePage v) (logCount v) (pageSize v)
  (logType v) (groupFilter v) (groupOptions v) x (visibleColumns v) (billingDisplayMode v) (retryDrawer v) (userInfo v) (affinityModal v) (paramOverrideModal v).
Definition setDisplay columns mode v := mk_view (logs v) (expandData v) (showStat v) (loading v) (loadingStat v) (activePage v) (logCount v)
  (pageSize v) (logType v) (groupFilter v) (groupOptions v) (stat v) columns mode (retryDrawer v) (userInfo v) (affinityModal v) (paramOverrideModal v).
Definition setDialogs retry user affinity override v := mk_view (logs v) (expandData v) (showStat v) (loading v) (loadingStat v) (activePage v)
  (logCount v) (pageSize v) (logType v) (groupFilter v) (groupOptions v) (stat v) (visibleColumns v) (billingDisplayMode v) retry user affinity override.

Definition setLoading (b : bool) (v : view) : view := setFlags (showStat v) b (loadingStat v) v.
Definition setLoadingStat (b : bool) (v : view) : view := setFlags (showStat v) (loading v) b v.
Definition setShowStat (b : bool) (v : view) : view := setFlags b (loading v) (loadingStat v) v.
Definition setActivePage (page : value) (v : view) : view := setPages page (logCount v) (pageSize v) v.
Definition setPageSize (size : value) (v : view) : view := setPages (activePage v) (logCount v) size v.
Definition setGroupFilter (g : jsstr) (v : view) : view := setFilters (logType v) g (groupOptions v) v.

Section logs_hook.
(** [isAdminUser]: [isAdmin()]; [d]: the display of amounts; [local], [midnight] and
    [parse_date]: the calendar of the engine and [Date.parse]. *)
Context (t : jsstr → jsstr) (engine_error : value) (isAdminUser : bool) (d : display).
Context (local : Z → calendar) (midnight : Z → Z) (parse_date : value → num).

Definition throws (s : state) : state := emit (Unhandled engine_error) s.

Definition STORAGE_KEY : string := if isAdminUser then "logs-table-columns-admin" else "logs-table-columns-user".
Definition BILLING_DISPLAY_MODE_STORAGE_KEY : string :=
  if isAdminUser then "logs-billing-display-mode-admin" else "logs-billing-display-mode-user".

(** *** The form *)

Record form_values := mk_form {
  username : value; token_name : value; model_name : value; start_timestamp : value; end_timestamp : value;
  channel : value; request_id : value; formLogType : value;
}.

(** Today, up to an hour from now. *)
Definition today (s : state) : value * value :=
  let text x := VStr (default [] (timestamp2string local (VNum x))) in
  (text (getTodayStartTimestamp midnight (clock s)),
   text (nadd (ndiv (num_of_Z (clock s)) (num_of_Z 1000)) (num_of_Z 3600))).

(** [None]: the type of the form cannot be converted. *)
Definition getFormValues (s : state) : option form_values :=
  let f := default [] (form s) in
  let '(start, end_) := date_range f (today s) in
  let type := prop (u "logType") f in
  type ← (if truthy type then text ← to_string type; Some (VNum (parse_int_text text)) else Some (n 0));
  Some (mk_form (form_value "username" f) (form_value "token_name" f) (form_value "model_name" f) start end_
    (form_value "channel" f) (form_value "request_id" f) type).

(** [Date.parse(x) / 1000] *)
Definition seconds_of (v : value) : value := VNum (ndiv (parse_date v) (num_of_Z 1000)).

Definition effectiveGroup (r : view) (custom : option jsstr) : jsstr :=
  let group := default (groupFilter r) custom in if decide (group = u "all") then [] else group.

(** *** Statistics *)

Definition stat_url (r : view) (custom : option jsstr) (s : state) : option jsstr :=
  f ← getFormValues s;
  let type := if is_undef (formLogType f) then logType r else formLogType f in
  url ← (if isAdminUser then
     query "/api/log/stat" [("type", type); ("username", username f); ("token_name", token_name f); ("model_name", model_name f);
       ("start_timestamp", seconds_of (start_timestamp f)); ("end_timestamp", seconds_of (end_timestamp f));
       ("channel", channel f); ("group", VStr (effectiveGroup r custom))]%string
   else
     query "/api/log/self/stat" [("type", type); ("token_name", token_name f); ("model_name", model_name f);
       ("start_timestamp", seconds_of (start_timestamp f)); ("end_timestamp", seconds_of (end_timestamp f));
       ("group", VStr (effectiveGroup r custom))]%string);
  encodeURI url.

(** The server has said that there are too many requests; the client shows it. *)
Definition too_many (error : value) : bool :=
  strict_eq (opt_read (u "status") (opt_read (u "response") error)) (n 429).

Definition show_failure (text : string) (error : value) (s : state) : state :=
  if too_many error then s
  else emit (ShowError (value_or (opt_read (u "message") error) (VStr (t (u text))))) s.

Definition stat_failed (gen : nat) (error : value) (s : state) : state :=
  if (gen =? statGen s)%nat then on_view (setLoadingStat false) (show_failure "统计加载失败" error s) else s.

Definition handleEyeClick (r : view) (custom : option jsstr) (s : state) : state :=
  let gen := S (statGen s) in
  let s := on_view (setLoadingStat true) (with_gens (loadGen s) gen s) in
  match stat_url r custom s with
  | Some url => suspend (Stat gen) (emit (Get url) s)
  | None => stat_failed gen engine_error s
  end.

(** The statistics are set, or the error shown, before the numbers are compared. *)
Definition stat_answered (gen : nat) (res : value) (s : state) : state :=
  match read (u "data") res ≫= λ data, success ← read (u "success") data; Some (data, success) with
  | None => stat_failed gen engine_error s
  | Some (data, success) =>
      let s := if truthy success then on_view (setStat (opt_read (u "data") data)) s
               else emit (ShowError (opt_read (u "message") data)) s in
      if (gen =? statGen s)%nat then on_view (λ v, setLoadingStat false (setShowStat true v)) s else s
  end.

(** *** Logs *)

Definition log_url (r : view) (startIdx size customLogType : value) (custom : option jsstr) (s : state) : option jsstr :=
  f ← getFormValues s;
  let type := match customLogType with
    | VNull => if is_undef (formLogType f) then logType r else formLogType f
    | v => v end in
  let page := [("p", startIdx); ("page_size", size); ("type", type)]%string in
  let range := [("start_timestamp", seconds_of (start_timestamp f)); ("end_timestamp", seconds_of (end_timestamp f))]%string in
  let group := [("group", VStr (effectiveGroup r custom)); ("request_id", request_id f)]%string in
  let names := [("token_name", token_name f); ("model_name", model_name f)]%string in
  url ← (if isAdminUser
         then query "/api/log/" (page ++ ("username"%string, username f) :: names ++ range ++ ("channel"%string, channel f) :: group)
         else query "/api/log/self/" (page ++ names ++ range ++ group));
  encodeURI url.

(** [shown]: the caller shows the error of an address that cannot be made. *)
Definition loadLogs (r : view) (shown : bool) (startIdx size customLogType : value) (custom : option jsstr)
    (s : state) : state :=
  let gen := S (loadGen s) in
  let s := on_view (setLoading true) (with_gens gen (statGen s) s) in
  match log_url r startIdx size customLogType custom s with
  | Some url => suspend (Load gen (billingDisplayMode r)) (emit (Get url) s)
  | None => if shown then emit (ShowError engine_error) s else throws s
  end.

Definition setLogsFormat (mode : jsstr) (items : value) (s : state) : option state :=
  match items with
  | VArr l =>
      rows ← mapM as_object l;
      '(rows, expanded) ← format_rows t d local (VStr mode) rows;
      Some (on_view (setLogs rows expanded) s)
  | _ => None
  end.

Definition load_failed (gen : nat) (error : value) (s : state) : state :=
  if (gen =? loadGen s)%nat then on_view (setLoading false) (show_failure "日志加载失败" error s) else s.

(** The page is set before the rows are made. *)
Definition load_answered (gen : nat) (mode : jsstr) (res : value) (s : state) : state :=
  if negb (gen =? loadGen s)%nat then s
  else match read (u "data") res ≫= λ data, success ← read (u "success") data; Some (data, success) with
  | None => load_failed gen engine_error s
  | Some (data, success) =>
      if truthy success then
        let page := opt_read (u "data") data in
        match read (u "items") page with
        | None => load_failed gen engine_error s
        | Some items =>
            let s := on_view (setPages (opt_read (u "page") page) (opt_read (u "total") page)
              (opt_read (u "page_size") page)) s in
            match setLogsFormat mode items s with
            | Some s => on_view (setLoading false) s
            | None => load_failed gen engine_error s
            end
        end
      else on_view (setLoading false) (emit (ShowError (opt_read (u "message") data)) s)
  end.

Definition handlePageChange (r : view) (page : value) (s : state) : state :=
  loadLogs r false page (pageSize r) VNull None (on_view (setActivePage page) s).

(** The page that is loaded is that of the render, not the first. *)
Definition handlePageSizeChange (r : view) (size : num) (s : state) : state :=
  loadLogs r true (activePage r) (VNum size) VNull None
    (on_view (λ v, setActivePage (n 1) (setPageSize (VNum size) v))
      (with_storage (setItem "page-size" (num_to_string size) (local_storage s)) s)).

Definition refresh (r : view) (custom : option jsstr) (s : state) : state :=
  let s := on_view (setActivePage (n 1)) s in
  let s := match custom with Some g => on_view (setGroupFilter g) s | None => s end in
  loadLogs r false (n 1) (pageSize r) VNull custom (handleEyeClick r custom s).

(** *** Dialogs *)

Definition showUserInfoFunc (userId : value) (s : state) : state :=
  if negb isAdminUser then s
  else match to_string userId with
       | Some id => suspend UserInfo (emit (Get (u "/api/user/" ++ id)) s)
       | None => throws s
       end.

Definition user_answered (res : value) (s : state) : state :=
  match read (u "data") res ≫= λ data, success ← read (u "success") data; Some (data, success) with
  | None => throws s
  | Some (data, success) =>
      if truthy success
      then on_view (λ v, setDialogs (retryDrawer v) (Some (opt_read (u "data") data)) (affinityModal v) (paramOverrideModal v) v) s
      else emit (ShowError (opt_read (u "message") data)) s
  end.

Definition text_or_empty (k : string) (v : value) : value := value_or (opt_read (u k) v) (VStr []).

Definition openChannelAffinityUsageCacheModal (affinity : value) : view → view :=
  let a := value_or affinity (VObj []) in
  let target := VObj
    [(u "rule_name", value_or (opt_read (u "rule_name") a) (text_or_empty "reason" a));
     (u "using_group", text_or_empty "using_group" a); (u "key_hint", text_or_empty "key_hint" a);
     (u "key_fp", text_or_empty "key_fp" a)] in
  λ v, setDialogs (retryDrawer v) (userInfo v) (Some target) (paramOverrideModal v) v.

(** [Array.isArray(v) ? v.filter(Boolean) : \[\]] *)
Definition true_items (v : value) : list value := match v with VArr l => List.filter truthy l | _ => [] end.

Definition openParamOverrideModal (log other : value) : view → view :=
  match true_items (opt_read (u "po") other) with
  | [] => id
  | lines =>
      let target := VObj [(u "lines", VArr lines); (u "modelName", text_or_empty "model_name" log);
        (u "requestId", text_or_empty "request_id" log); (u "requestPath", text_or_empty "request_path" other)] in
      λ v, setDialogs (retryDrawer v) (userInfo v) (affinityModal v) (Some target) v
  end.

Definition openRetryAttemptsDrawer (log : value) : view → view :=
  let adminInfo := value_or (opt_read (u "admin_info") (getLogOther (opt_read (u "other") log))) (VObj []) in
  match true_items (opt_read (u "retry_attempts") adminInfo) with
  | [] => id
  | attempts =>
      let type := opt_read (u "type") log in
      let target := VObj [(u "requestId", text_or_empty "request_id" log); (u "modelName", text_or_empty "model_name" log);
        (u "logType", type); (u "finalChannel", opt_read (u "channel") log);
        (u "finalChannelName", text_or_empty "channel_name" log);
        (u "finalStatus", VStr (u (if strict_eq type (n 5) then "error" else "success")));
        (u "useChannel", match opt_read (u "use_channel") adminInfo with VArr l => VArr l | _ => VArr [] end);
        (u "attempts", VArr attempts)] in
      λ v, setDialogs (Some target) (userInfo v) (affinityModal v) (paramOverrideModal v) v
  end.

Definition copyText (text : jsstr) (s : state) : state := suspend (Copying text) (emit (Clipboard text) s).
Definition copied (text : jsstr) (okay : bool) (s : state) : state :=
  emit (if okay then ShowSuccess (u "已复制：" ++ text) else CopyDialog text) s.

(** A log whose lines are not empty. *)
Definition hasExpandableRows (v : view) : bool :=
  existsb (λ o, match to_string (prop (u "key") o) ≫= λ k, get k (expandData v) with
    | Some (_ :: _) => true | _ => false end) (logs v).

(** *** Columns and the display of bills *)

Definition set_columns (columns : props) (s : state) : state :=
  with_storage (persist STORAGE_KEY columns (local_storage s))
    (on_view (λ v, setDisplay columns (billingDisplayMode v) v) s).

Definition default_columns : props := getDefaultColumnVisibility COLUMN_KEYS admin_only isAdminUser.
Definition initDefaultColumns (s : state) : state := set_columns default_columns s.
Definition handleColumnVisibilityChange (r : view) (key : jsstr) (checked : bool) : state → state :=
  set_columns (set key (VBool checked) (visibleColumns r)).
Definition handleSelectAll (checked : bool) : state → state :=
  set_columns (all_columns COLUMN_KEYS admin_only isAdminUser checked).

Definition setBillingDisplayMode (mode : jsstr) (s : state) : state :=
  with_storage (setItem BILLING_DISPLAY_MODE_STORAGE_KEY mode (local_storage s))
    (on_view (λ v, setDisplay (visibleColumns v) mode v) s).

Definition getInitialVisibleColumns (local : storage) : props :=
  default default_columns (saved_columns COLUMN_KEYS admin_only isAdminUser (getItem STORAGE_KEY local)).

Definition getInitialBillingDisplayMode (local : storage) : jsstr :=
  match getItem BILLING_DISPLAY_MODE_STORAGE_KEY local with
  | Some mode =>
      if decide (mode = u "price" ∨ mode = u "ratio") then mode
      else if decide (display_type d = Some (u "TOKENS")) then u "ratio" else u "price"
  | None => if decide (display_type d = Some (u "TOKENS")) then u "ratio" else u "price"
  end.

(** *** Steps *)

Definition ITEMS_PER_PAGE : value := n 10.

(** [setFormApi]: the effect of the form loads the statistics and the first page. *)
Definition form_ready (r : view) (f : props) (s : state) : state :=
  let size := saved_size "page-size" ITEMS_PER_PAGE (local_storage s) in
  let s := on_view (setPageSize size) (with_form (Some f) s) in
  loadLogs r true (n 1) size VNull None (handleEyeClick r None s).

Inductive event :=
  | FormReady (f : props)
  | Form (f : props)
  | Tick (ms : Z)
  | PageChange (page : value)
  | PageSizeChange (size : num)
  | Refresh (group : option jsstr)
  | LogType (type : value)
  | EyeClick
  | ColumnChange (key : jsstr) (checked : bool)
  | SelectAll (checked : bool)
  | ResetColumns
  | BillingMode (mode : jsstr)
  | ShowUser (userId : value)
  | Affinity (affinity : value)
  | ParamOverride (log other : value)
  | RetryAttempts (log : value)
  | Copy (text : jsstr)
  | Answer (i : nat) (res : value)
  | Failure (i : nat) (error : value)
  | CopyDone (i : nat) (okay : bool).

Definition take_call (i : nat) (s : state) : state := with_calls (delete i (calls s)) s.

Definition groups_answered (res : value) (s : state) : state :=
  let data := opt_read (u "data") res in
  if truthy (opt_read (u "success") data)
  then on_view (λ v, setFilters (logType v) (groupFilter v) (value_or (opt_read (u "data") data) (VArr [])) v) s else s.

Definition answered (w : waiting) (res : value) (s : state) : state :=
  match w with
  | Groups => groups_answered res s
  | Load gen mode => load_answered gen mode res s
  | Stat gen => stat_answered gen res s
  | UserInfo => user_answered res s
  | Copying _ => s
  end.

Definition failed (w : waiting) (error : value) (s : state) : state :=
  match w with
  | Groups => s
  | Load gen _ => load_failed gen error s
  | Stat gen => stat_failed gen error s
  | UserInfo => emit (Unhandled error) s
  | Copying text => copied text false s
  end.

Definition step (s : state) (e : event) : state :=
  let r := now s in
  match e with
  | FormReady f => form_ready r f s
  | Form f => match form s with Some _ => with_form (Some f) s | None => s end
  | Tick ms => with_clock ms s
  | PageChange page => handlePageChange r page s
  | PageSizeChange size => handlePageSizeChange r size s
  | Refresh group => refresh r group s
  | LogType type =>
      match to_number type with
      | Some x => refresh r None (on_view (λ v, setFilters (VNum x) (groupFilter v) (groupOptions v) v) s)
      | None => throws s
      end
  | EyeClick => handleEyeClick r None s
  | ColumnChange key checked => handleColumnVisibilityChange r key checked s
  | SelectAll checked => handleSelectAll checked s
  | ResetColumns => initDefaultColumns s
  | BillingMode mode => setBillingDisplayMode mode s
  | ShowUser userId => showUserInfoFunc userId s
  | Affinity affinity => on_view (openChannelAffinityUsageCacheModal affinity) s
  | ParamOverride log other => on_view (openParamOverrideModal log other) s
  | RetryAttempts log => on_view (openRetryAttemptsDrawer log) s
  | Copy text => copyText text s
  | Answer i res => match calls s !! i with Some w => answered w res (take_call i s) | None => s end
  | Failure i error => match calls s !! i with Some w => failed w error (take_call i s) | None => s end
  | CopyDone i okay =>
      match calls s !! i with Some (Copying text) => copied text okay (take_call i s) | _ => s end
  end.

Definition run (s : state) (es : list event) : state := fold_left step es s.

Definition first_view (local : storage) : view :=
  mk_view [] [] false true false (n 1) (n 0) ITEMS_PER_PAGE (n 0) (u "all") (VArr [])
    (VObj [(u "quota", n 0); (u "token", n 0)]) (getInitialVisibleColumns local) (getInitialBillingDisplayMode local)
    None None None None.

(** The first render and its effects; the form is not there yet. *)
Definition init (ms : Z) (local : storage) : state :=
  let s := mk_state (first_view local) None ms local 0 0 [] [] in
  let s := suspend Groups (emit (Get (u "/api/group/")) s) in
  let s := setBillingDisplayMode (billingDisplayMode (now s)) (set_columns (visibleColumns (now s)) s) in
  on_view (setPageSize (saved_size "page-size" ITEMS_PER_PAGE local)) s.
End logs_hook.

(** * Usage logs: laws
    Numbered loads and statistics: what an answer that is not the latest may do. *)

Definition loads (s : state) : list nat := omap (λ w, match w with Load g _ => Some g | _ => None end) (calls s).
Definition stats (s : state) : list nat := omap (λ w, match w with Stat g => Some g | _ => None end) (calls s).

(** ** Calls with numbers *)

(** The numbers of the calls in flight, the last number, and the flag. *)
Record ok_calls (l : list nat) (gen : nat) (busy : bool) : Prop := {
  ok_once : NoDup l;
  ok_below : Forall (λ g, (g <= gen)%nat) l;
  ok_busy : gen ∈ l → busy = true;
}.

Lemma ok_calls_next l gen busy : ok_calls l gen busy → ok_calls l (S gen) true.
Proof. intros [H1 H2 H3]. split; [done| |done]. eapply Forall_impl; [exact H2|]. simpl. lia. Qed.

Lemma ok_calls_new l gen busy : ok_calls l gen busy → ok_calls (l ++ [S gen]) (S gen) true.
Proof.
  intros H. pose proof (ok_calls_next _ _ _ H) as [_ H2' _]. destruct H as [H1 H2 _].
  assert (S gen ∉ l) as Hn by (intros Hin; rewrite Forall_forall in H2; specialize (H2 _ Hin); simpl in H2; lia).
  split; [|by apply Forall_app_2; [|apply Forall_singleton]|done].
  apply NoDup_app. split; [done|]. split; [|apply NoDup_singleton]. set_solver.
Qed.

Lemma sublist_elem_of {A} (l l' : list A) x : l' `sublist_of` l → x ∈ l' → x ∈ l.
Proof. induction 1; set_solver. Qed.

Lemma ok_calls_sub l l' gen busy : l' `sublist_of` l → ok_calls l gen busy → ok_calls l' gen busy.
Proof.
  intros Hs [H1 H2 H3]. rewrite Forall_forall in H2. split; [by eapply sublist_NoDup | |].
  - apply Forall_forall. intros g Hg. by eapply H2, sublist_elem_of.
  - intros H. by eapply H3, sublist_elem_of.
Qed.

(** When the last one has ended, the flag may fall. *)
Lemma ok_calls_end l gen busy busy' : ok_calls l gen busy → gen ∉ l → ok_calls l gen busy'.
Proof. by intros [H1 H2 H3]. Qed.

Lemma omap_sublist {A B} (f : A → option B) l l' : l' `sublist_of` l → omap f l' `sublist_of` omap f l.
Proof. induction 1; simpl; [done|..]; case_match; try done; by constructor. Qed.

(** A call that is taken is there once. *)
Lemma omap_delete_once {A} (f : A → option nat) l i x g :
  l !! i = Some x → f x = Some g → NoDup (omap f l) → g ∉ omap f (delete i l).
Proof.
  intros Hi Hf. rewrite (delete_Permutation _ _ _ Hi) at 1. simpl. rewrite Hf. intros H.
  by apply NoDup_cons in H as [H _].
Qed.

(** ** The hook *)

Record wf (s : state) : Prop := {
  wf_loads : ok_calls (loads s) (loadGen s) (loading (now s));
  wf_stats : ok_calls (stats s) (statGen s) (loadingStat (now s));
}.

(** What concerns the numbers is as before. *)
Record kept (s s' : state) : Prop := {
  kept_load : loadGen s' = loadGen s;
  kept_stat : statGen s' = statGen s;
  kept_loads : loads s' = loads s;
  kept_stats : stats s' = stats s;
  kept_loading : loading (now s') = loading (now s);
  kept_loadingStat : loadingStat (now s') = loadingStat (now s);
}.

Lemma logs_kept_trans s1 s2 s3 : kept s1 s2 → kept s2 s3 → kept s1 s3.
Proof. intros [] []. split; congruence. Qed.
Lemma logs_kept_wf s s' : kept s s' → wf s → wf s'.
Proof. intros [H1 H2 H3 H4 H5 H6] [W1 W2]. split; congruence. Qed.

(** A call without a number. *)
Definition plain_call (w : waiting) : Prop := match w with Load _ _ | Stat _ => False | _ => True end.

Lemma logs_kept_suspend w s : plain_call w → kept s (suspend w s).
Proof.
  intros Hw. split; try done; unfold loads, stats; simpl; rewrite omap_app; simpl; destruct w; try done; by rewrite app_nil_r.
Qed.

Lemma kept_ask w e s : plain_call w → kept s (suspend w (emit e s)).
Proof. intros Hw. by apply (logs_kept_trans _ (emit e s)), logs_kept_suspend. Qed.

Lemma logs_kept_take i w s : calls s !! i = Some w → plain_call w → kept s (take_call i s).
Proof.
  intros Hi Hw. split; try done; unfold loads, stats; simpl; rewrite delete_take_drop;
    rewrite <- (take_drop_middle _ _ _ Hi) at 3; rewrite !omap_app; simpl; by destruct w.
Qed.

Section laws.
Context (t : jsstr → jsstr) (engine_error : value) (isAdminUser : bool) (d : display).
Context (local : Z → calendar) (midnight : Z → Z) (parse_date : value → num).
Local Abbreviation step := (step t engine_error isAdminUser d local midnight parse_date).
Local Abbreviation run := (run t engine_error isAdminUser d local midnight parse_date).
Local Abbreviation init := (init isAdminUser d).

Lemma kept_show_failure text error s : kept s (show_failure t text error s).
Proof. unfold show_failure. by case_match. Qed.

(** Taking a call leaves fewer. *)
Lemma logs_wf_take i s : wf s → wf (take_call i s).
Proof. intros [H1 H2]. split; (eapply ok_calls_sub; [|eassumption]); apply omap_sublist, sublist_delete. Qed.

(** *** New calls *)

Lemma logs_wf_load r shown startIdx size type custom s :
  wf s → wf (loadLogs engine_error isAdminUser local midnight parse_date r shown startIdx size type custom s).
Proof.
  intros [H1 H2]. unfold loadLogs. cbv zeta. case_match.
  - split; unfold loads, stats; simpl; rewrite omap_app; simpl; [by eapply ok_calls_new | by rewrite app_nil_r].
  - destruct shown; (split; [by eapply ok_calls_next | done]).
Qed.

Lemma wf_stat_done s : wf s → statGen s ∉ stats s → wf (on_view (setLoadingStat false) s).
Proof. intros [H1 H2] Hg. split; [done | by eapply ok_calls_end]. Qed.

Lemma wf_stat_failed gen error s : wf s → gen ∉ stats s → wf (stat_failed t gen error s).
Proof.
  intros H Hg. unfold stat_failed. destruct (Nat.eqb_spec gen (statGen s)) as [->|]; [|done].
  destruct (kept_show_failure "统计加载失败" error s) as [_ E1 _ E2 _ _]. apply wf_stat_done; [|by rewrite E1, E2].
  by eapply logs_kept_wf; [apply kept_show_failure|].
Qed.

Lemma wf_eye r custom s : wf s → wf (handleEyeClick t engine_error isAdminUser local midnight parse_date r custom s).
Proof.
  intros [H1 H2]. unfold handleEyeClick. cbv zeta. case_match.
  - split; unfold loads, stats; simpl; rewrite omap_app; simpl; [by rewrite app_nil_r | by eapply ok_calls_new].
  - apply wf_stat_failed; [split; [done | by eapply ok_calls_next]|].
    destruct H2 as [_ H2 _]. intros Hin. rewrite Forall_forall in H2. specialize (H2 _ Hin). simpl in H2. lia.
Qed.

(** *** Answers *)

Lemma wf_done s : wf s → loadGen s ∉ loads s → wf (on_view (setLoading false) s).
Proof. intros [H1 H2] Hg. split; [by eapply ok_calls_end | done]. Qed.

Lemma wf_load_failed gen error s : wf s → gen ∉ loads s → wf (load_failed t gen error s).
Proof.
  intros H Hg. unfold load_failed. destruct (Nat.eqb_spec gen (loadGen s)) as [->|]; [|done].
  destruct (kept_show_failure "日志加载失败" error s) as [E1 _ E2 _ _ _]. apply wf_done; [|by rewrite E1, E2].
  by eapply logs_kept_wf; [apply kept_show_failure|].
Qed.

Lemma kept_format mode items s s' : setLogsFormat t d local mode items s = Some s' → kept s s'.
Proof.
  unfold setLogsFormat. intros H. destruct items as [| | | | |l|]; try done.
  destruct (mapM as_object l); [|done]. cbn [mbind option_bind] in H.
  destruct (format_rows _ _ _ _ _) as [[rows expanded]|]; [|done]. cbn [mbind option_bind] in H. by injection H as <-.
Qed.

Lemma wf_load_answered gen mode res s :
  wf s → gen ∉ loads s → wf (load_answered t engine_error d local gen mode res s).
Proof.
  intros H Hg. unfold load_answered. destruct (Nat.eqb_spec gen (loadGen s)) as [->|]; [|done]. cbn [negb].
  destruct (_ ≫= _) as [[data success]|]; [|by apply wf_load_failed].
  destruct (truthy success); [|by apply (wf_done (emit _ s)); [apply (logs_kept_wf s)|]]. cbv zeta.
  destruct (read (u "items") _) as [items|]; [|by apply wf_load_failed].
  set (s1 := on_view _ s). assert (kept s s1) as K by done.
  destruct (setLogsFormat t d local mode items s1) as [s2|] eqn:E.
  - apply kept_format in E. pose proof (logs_kept_trans _ _ _ K E) as [E1 _ E2 _ _ _].
    apply wf_done; [apply (logs_kept_wf s); [by apply (logs_kept_trans _ s1)|done] | by rewrite E1, E2].
  - apply wf_load_failed; [by eapply logs_kept_wf | done].
Qed.

Lemma wf_stat_answered gen res s : wf s → gen ∉ stats s → wf (stat_answered t engine_error gen res s).
Proof.
  intros H Hg. unfold stat_answered. destruct (_ ≫= _) as [[data success]|]; [|by apply wf_stat_failed].
  cbv zeta. destruct (truthy success); simpl; destruct (Nat.eqb_spec gen (statGen s)) as [->|];
    destruct H as [H1 H2]; (split; [exact H1|]); try exact H2; by eapply ok_calls_end.
Qed.

Lemma kept_user_answered res s : kept s (user_answered engine_error res s).
Proof. unfold user_answered. repeat case_match; done. Qed.
Lemma kept_groups res s : kept s (groups_answered res s).
Proof. unfold groups_answered. cbv zeta. by case_match. Qed.
Lemma kept_copied text okay s : kept s (copied text okay s).
Proof. done. Qed.

(** The call that is answered is no longer there. *)
Lemma load_taken i gen mode s : wf s → calls s !! i = Some (Load gen mode) → gen ∉ loads (take_call i s).
Proof. intros [[H _ _] _] Hi. by eapply omap_delete_once. Qed.
Lemma stat_taken i gen s : wf s → calls s !! i = Some (Stat gen) → gen ∉ stats (take_call i s).
Proof. intros [_ [H _ _]] Hi. by eapply omap_delete_once. Qed.

Lemma wf_call i w s (f : state → state) :
  wf s → calls s !! i = Some w → plain_call w → (∀ s', kept s' (f s')) → wf (f (take_call i s)).
Proof. intros H Hi Hw Hf. eapply logs_kept_wf; [apply Hf|]. by eapply logs_kept_wf; [eapply logs_kept_take|]. Qed.

Lemma wf_answered i w res s :
  wf s → calls s !! i = Some w → wf (answered t engine_error d local w res (take_call i s)).
Proof.
  intros H Hi. destruct w as [|gen mode|gen| |text]; simpl.
  - by apply (wf_call i Groups s); [..|apply kept_groups].
  - apply wf_load_answered; [by apply logs_wf_take | by eapply load_taken].
  - apply wf_stat_answered; [by apply logs_wf_take | by eapply stat_taken].
  - by apply (wf_call i UserInfo s); [..|apply kept_user_answered].
  - by apply logs_wf_take.
Qed.

Lemma wf_failed i w error s : wf s → calls s !! i = Some w → wf (failed t w error (take_call i s)).
Proof.
  intros H Hi. destruct w as [|gen mode|gen| |text]; simpl.
  - by apply logs_wf_take.
  - apply wf_load_failed; [by apply logs_wf_take | by eapply load_taken].
  - apply wf_stat_failed; [by apply logs_wf_take | by eapply stat_taken].
  - by apply (wf_call i UserInfo s).
  - by apply (wf_call i (Copying text) s).
Qed.

(** *** Steps *)

Lemma kept_dialog f s :
  (∀ v, loading (f v) = loading v ∧ loadingStat (f v) = loadingStat v) → kept s (on_view f s).
Proof. intros H. destruct (H (now s)) as [H1 H2]. by split. Qed.

Lemma wf_refresh r custom s : wf s → wf (refresh t engine_error isAdminUser local midnight parse_date r custom s).
Proof.
  intros H. unfold refresh. cbv zeta. apply logs_wf_load, wf_eye. destruct custom; by eapply logs_kept_wf; [|exact H].
Qed.

Lemma logs_wf_step s e : wf s → wf (step s e).
Proof.
  intros H. assert (∀ s', kept s s' → wf s') as K by (intros s' Hk; by eapply logs_kept_wf).
  destruct e as [f|f|ms|page|size|group|type| |key b|b| |mode|v|v|v1 v2|v|text|i res|i error|i okay]; simpl.
  - unfold form_ready. cbv zeta. apply logs_wf_load, wf_eye. by apply K.
  - destruct (form s); by apply K.
  - by apply K.
  - unfold handlePageChange. apply logs_wf_load. by apply K.
  - unfold handlePageSizeChange. apply logs_wf_load. by apply K.
  - by apply wf_refresh.
  - destruct (to_number type); [|by apply K]. apply wf_refresh. by apply K.
  - by apply wf_eye.
  - by apply K.
  - by apply K.
  - by apply K.
  - by apply K.
  - unfold showUserInfoFunc. repeat case_match; apply K; try done. by apply (kept_ask UserInfo).
  - by apply K.
  - apply K, kept_dialog. intros v. unfold openParamOverrideModal. by case_match.
  - apply K, kept_dialog. intros v'. unfold openRetryAttemptsDrawer. cbv zeta. by case_match.
  - apply K. by apply (kept_ask (Copying text)).
  - destruct (calls s !! i) eqn:Hi; [by apply wf_answered | done].
  - destruct (calls s !! i) eqn:Hi; [by apply wf_failed | done].
  - destruct (calls s !! i) as [[]|] eqn:Hi; try done. by apply (wf_call i (Copying text) s).
Qed.

Lemma logs_wf_init ms store : wf (init ms store).
Proof.
  assert (∀ b, ok_calls [] 0 b) as H by (intros b; split; [constructor | constructor | intros Hin; by apply elem_of_nil in Hin]).
  split; apply H.
Qed.

Lemma logs_wf_run es s : wf s → wf (run s es).
Proof. revert s. induction es as [|e es IH]; intros s H; [done|]. by apply IH, logs_wf_step. Qed.

(** After the last load the flag has fallen. *)
Lemma load_answered_done mode res s : loading (now (load_answered t engine_error d local (loadGen s) mode res s)) = false.
Proof.
  assert (∀ error s', loadGen s' = loadGen s → loading (now (load_failed t (loadGen s) error s')) = false) as F.
  { intros error s' E. unfold load_failed. by rewrite E, Nat.eqb_refl. }
  unfold load_answered. rewrite Nat.eqb_refl. cbn [negb]. destruct (_ ≫= _) as [[data success]|]; [|by apply F].
  destruct (truthy success); [|done]. cbv zeta. destruct (read (u "items") _); [|by apply F].
  case_match; [done | by apply F].
Qed.

(** only the latest load of the logs counts: whatever was asked, in whatever order
    the answers come, the answer or failure of any other load changes nothing that
    is shown, that of the latest ends the loading, and while the latest is in flight
    the table is loading.  The statistics have numbers too, but they are set before
    the numbers are compared: those of an older filter replace newer ones. *)
Theorem latest_logs_win ms store es :
  let s := run (init ms store) es in
  NoDup (loads s) ∧ (loadGen s ∈ loads s → loading (now s) = true) ∧
  (∀ i gen mode res error, calls s !! i = Some (Load gen mode) →
    if decide (gen = loadGen s)
    then loading (now (step s (Answer i res))) = false ∧ loading (now (step s (Failure i error))) = false
    else now (step s (Answer i res)) = now s ∧ log (step s (Answer i res)) = log s ∧
         now (step s (Failure i error)) = now s ∧ log (step s (Failure i error)) = log s) ∧
  ∀ i gen found, calls s !! i = Some (Stat gen) →
    stat (now (step s (Answer i (VObj [(u "data", VObj [(u "success", VBool true); (u "data", found)])])))) = found.
Proof.
  intros s. pose proof (logs_wf_run es _ (logs_wf_init ms store)) as [[H1 H2 H3] _]. fold s in H1, H2, H3.
  split; [done|]. split; [done|]. split.
  - intros i gen mode res error Hi. simpl. rewrite Hi. simpl. case_decide as E.
    + subst gen. split; [exact (load_answered_done mode res (take_call i s))|].
      unfold load_failed. simpl. by rewrite Nat.eqb_refl.
    + unfold load_answered, load_failed. simpl. rewrite (proj2 (Nat.eqb_neq _ _) E). done.
  - intros i gen found Hi. simpl. rewrite Hi. cbn [answered]. unfold stat_answered.
    change (read (u "data") (VObj [(u "data", VObj [(u "success", VBool true); (u "data", found)])])) with
      (Some (VObj [(u "success", VBool true); (u "data", found)])). cbn [mbind option_bind].
    change (read (u "success") (VObj [(u "success", VBool true); (u "data", found)])) with (Some (VBool true)).
    cbn [mbind option_bind truthy]. cbv zeta. by case_match.
Qed.
End laws.
