(* ===== verification/TaskLogs.v ===== *)
(** * Task logs
    [src/web/src/hooks/task-logs/useTaskLogsData.js]: the table of asynchronous tasks
    with its form, columns and dialogs.  Its loads have no numbers. *)

From Stdlib Require Import SpecFloat.
From stdpp Require Import base numbers option strings sets list.
From S2P Require Import Prelude JsString JsNumber JsValue Json JsOps Session Dates LogTable.

Definition n (z : Z) : value := VNum (num_of_Z z).

Definition COLUMN_KEYS : list string :=
  ["submit_time"; "finish_time"; "duration"; "channel"; "username"; "platform"; "type"; "task_id"; "task_status";
   "progress"; "fail_reason"; "result_url"].
Definition admin_only : list string := ["channel"; "username"].

(** ** State *)

Inductive effect :=
  | Get (url : jsstr)
  | ShowError (v : value)
  | ShowSuccess (text : jsstr)
  | Clipboard (text : jsstr)
  | CopyDialog (text : jsstr)
  | Unhandled (v : value).

(** The dialogs hold what they show; a closed one keeps it. *)
Record view := mk_view {
  logs : list props; loading : bool; activePage : value; logCount : value; pageSize : value; visibleColumns : props;
  contentModal : bool * value; videoModal : bool * value; audioModal : bool * value; userModal : bool * value;
}.

(** A load sets a missing page size to that of its render. *)
Inductive waiting :=
  | Load (r : view)
  | UserInfo
  | Copying (text : jsstr).

Record state := mk_state {
  now : view; form : option props; clock : Z; local_storage : storage; calls : list waiting; log : list effect;
}.

Definition with_view v s := mk_state v (form s) (clock s) (local_storage s) (calls s) (log s).
Definition with_form f s := mk_state (now s) f (clock s) (local_storage s) (calls s) (log s).
Definition with_clock c s := mk_state (now s) (form s) c (local_storage s) (calls s) (log s).
Definition with_storage x s := mk_state (now s) (form s) (clock s) x (calls s) (log s).
Definition with_calls l s := mk_state (now s) (form s) (clock s) (local_storage s) l (log s).
Definition emit e s := mk_state (now s) (form s) (clock s) (local_storage s) (calls s) (e :: log s).
Definition suspend (w : waiting) (s : state) : state := with_calls (calls s ++ [w]) s.
Definition on_view (f : view → view) (s : state) : state := with_view (f (now s)) s.

Definition setLogs x v := mk_view x (loading v) (activePage v) (logCount v) (pageSize v) (visibleColumns v) (contentModal v) (videoModal v) (audioModal v) (userModal v).
Definition setLoading x v := mk_view (logs v) x (activePage v) (logCount v) (pageSize v) (visibleColumns v) (contentModal v) (videoModal v) (audioModal v) (userModal v).
Definition setPages page count size v := mk_view (logs v) (loading v) page count size (visibleColumns v) (contentModal v) (videoModal v) (audioModal v) (userModal v).
Definition setVisibleColumns x v := mk_view (logs v) (loading v) (activePage v) (logCount v) (pageSize v) x (contentModal v) (videoModal v) (audioModal v) (userModal v).
Definition setModals content video audio user v := mk_view (logs v) (loading v) (activePage v) (logCount v) (pageSize v) (visibleColumns v) content video audio user.
Definition setPageSize x v := setPages (activePage v) (logCount v) x v.

Section task_logs.
Context (t : jsstr → jsstr) (engine_error : value) (isAdminUser : bool).
Context (local : Z → calendar) (midnight : Z → Z) (parse_date : value → num).

Definition throws (s : state) : state := emit (Unhandled engine_error) s.

Definition STORAGE_KEY : string := if isAdminUser then "task-logs-table-columns-admin" else "task-logs-table-columns-user".

(** *** Columns *)

Definition set_columns (columns : props) (s : state) : state :=
  with_storage (persist STORAGE_KEY columns (local_storage s)) (on_view (setVisibleColumns columns) s).

Definition default_columns : props := getDefaultColumnVisibility COLUMN_KEYS admin_only isAdminUser.
Definition initDefaultColumns : state → state := set_columns default_columns.
Definition handleColumnVisibilityChange (r : view) (key : jsstr) (checked : bool) : state → state :=
  set_columns (set key (VBool checked) (visibleColumns r)).
Definition handleSelectAll (checked : bool) : state → state :=
  set_columns (all_columns COLUMN_KEYS admin_only isAdminUser checked).

(** The effect of the first render. *)
Definition load_columns (s : state) : state :=
  match saved_columns COLUMN_KEYS admin_only isAdminUser (getItem STORAGE_KEY (local_storage s)) with
  | Some columns => set_columns columns s
  | None => initDefaultColumns s
  end.

(** *** The form *)

Record form_values := mk_form { channel_id : value; task_id : value; start_timestamp : value; end_timestamp : value }.

(** Today in local time, up to an hour from now; [midnight]: [new Date(y, m, d)]. *)
Definition today (s : state) : value * value :=
  let text x := VStr (default [] (timestamp2string local (VNum x))) in
  (text (ndiv (num_of_Z (midnight (clock s))) (num_of_Z 1000)),
   text (nadd (ndiv (num_of_Z (clock s)) (num_of_Z 1000)) (num_of_Z 3600))).

Definition getFormValues (s : state) : form_values :=
  let f := default [] (form s) in
  let '(start, end_) := date_range f (today s) in
  mk_form (form_value "channel_id" f) (form_value "task_id" f) start end_.

(** [parseInt(Date.parse(x) / 1000)] *)
Definition seconds_of (v : value) : value :=
  VNum (parse_int_text (num_to_string (ndiv (parse_date v) (num_of_Z 1000)))).

(** *** Logs *)

(** [None] when a log has no properties or its time cannot be converted. *)
Definition enrich (log : value) : option props :=
  o ← as_object log;
  time ← timestamp2string local (prop (u "created_at") o);
  id ← to_string (prop (u "id") o);
  Some (set (u "key") (VStr id) (set (u "timestamp2string") (VStr time) o)).

Definition enrichLogs (items : value) : option (list props) :=
  match items with VArr l => mapM enrich l | _ => None end.

Definition syncPageData (r : view) (payload : value) (s : state) : option state :=
  items ← read (u "items") payload;
  rows ← enrichLogs (value_or items (VArr []));
  Some (on_view (λ v, setPages (value_or (opt_read (u "page") payload) (n 1)) (value_or (opt_read (u "total") payload) (n 0))
    (value_or (opt_read (u "page_size") payload) (pageSize r)) (setLogs rows v)) s).

Definition log_url (page size : value) (s : state) : option jsstr :=
  let f := getFormValues s in
  let pages := [("p", page); ("page_size", size)]%string in
  let rest := [("task_id", task_id f); ("start_timestamp", seconds_of (start_timestamp f));
    ("end_timestamp", seconds_of (end_timestamp f))]%string in
  if isAdminUser then query "/api/task/" (pages ++ ("channel_id"%string, channel_id f) :: rest)
  else query "/api/task/self" (pages ++ rest).

Definition loadLogs (r : view) (page size : value) (s : state) : state :=
  let s := on_view (setLoading true) s in
  match log_url page size s with
  | Some url => suspend (Load r) (emit (Get url) s)
  | None => throws s
  end.

(** The table goes on loading when the answer cannot be read. *)
Definition load_answered (r : view) (res : value) (s : state) : state :=
  match read (u "data") res ≫= λ data, success ← read (u "success") data; Some (data, success) with
  | None => throws s
  | Some (data, success) =>
      if truthy success then
        match syncPageData r (opt_read (u "data") data) s with
        | Some s => on_view (setLoading false) s
        | None => throws s
        end
      else on_view (setLoading false) (emit (ShowError (opt_read (u "message") data)) s)
  end.

Definition handlePageChange (r : view) (page : value) : state → state := loadLogs r page (pageSize r).

Definition handlePageSizeChange (r : view) (size : num) (s : state) : state :=
  loadLogs r (n 1) (VNum size) (with_storage (setItem "task-page-size" (num_to_string size) (local_storage s)) s).

Definition refresh (r : view) : state → state := loadLogs r (n 1) (pageSize r).

(** *** Dialogs *)

Definition copyText (text : jsstr) (s : state) : state := suspend (Copying text) (emit (Clipboard text) s).
Definition copied (text : jsstr) (okay : bool) (s : state) : state :=
  emit (if okay then ShowSuccess (t (u "已复制：") ++ text) else CopyDialog text) s.

Definition openContentModal (content : value) (v : view) : view :=
  setModals (true, content) (videoModal v) (audioModal v) (userModal v) v.
Definition openVideoModal (url : value) (v : view) : view :=
  setModals (contentModal v) (true, url) (audioModal v) (userModal v) v.
Definition openAudioModal (clips : value) (v : view) : view :=
  setModals (contentModal v) (videoModal v) (true, clips) (userModal v) v.

Definition showUserInfoFunc (userId : value) (s : state) : state :=
  if negb isAdminUser then s
  else match to_string userId with
       | Some id => suspend UserInfo (emit (Get (u "/api/user/" ++ id)) s)
       | None => throws s
       end.

Definition user_answered (res : value) (s : state) : state :=
  match read (u "data") res ≫= λ data, success ← read (u "success") data; Some (data, success) with
  | None => throws s
  | Some (data, success) =>
      if truthy success
      then on_view (λ v, setModals (contentModal v) (videoModal v) (audioModal v) (true, opt_read (u "data") data) v) s
      else emit (ShowError (opt_read (u "message") data)) s
  end.

(** *** Steps *)

Inductive modal := Content | Video | Audio | User.

Inductive event :=
  | Form (f : option props)
  | Tick (ms : Z)
  | PageChange (page : value)
  | PageSizeChange (size : num)
  | Refresh
  | ColumnChange (key : jsstr) (checked : bool)
  | SelectAll (checked : bool)
  | ResetColumns
  | Open (m : modal) (shown : value)
  | Close (m : modal)
  | Copy (text : jsstr)
  | Answer (i : nat) (res : value)
  | Failure (i : nat) (error : value)
  | CopyDone (i : nat) (okay : bool).

Definition open_modal (m : modal) (shown : value) (s : state) : state :=
  match m with
  | Content => on_view (openContentModal shown) s
  | Video => on_view (openVideoModal shown) s
  | Audio => on_view (openAudioModal shown) s
  | User => showUserInfoFunc shown s
  end.

Definition close_modal (m : modal) (v : view) : view :=
  let close (x : bool * value) := (false, x.2) in
  match m with
  | Content => setModals (close (contentModal v)) (videoModal v) (audioModal v) (userModal v) v
  | Video => setModals (contentModal v) (close (videoModal v)) (audioModal v) (userModal v) v
  | Audio => setModals (contentModal v) (videoModal v) (close (audioModal v)) (userModal v) v
  | User => setModals (contentModal v) (videoModal v) (audioModal v) (close (userModal v)) v
  end.

Definition take_call (i : nat) (s : state) : state := with_calls (delete i (calls s)) s.

Definition answered (w : waiting) (res : value) (s : state) : state :=
  match w with
  | Load r => load_answered r res s
  | UserInfo => user_answered res s
  | Copying _ => s
  end.

Definition failed (w : waiting) (error : value) (s : state) : state :=
  match w with
  | Load _ | UserInfo => emit (Unhandled error) s
  | Copying text => copied text false s
  end.

Definition step (s : state) (e : event) : state :=
  let r := now s in
  match e with
  | Form f => with_form f s
  | Tick ms => with_clock ms s
  | PageChange page => handlePageChange r page s
  | PageSizeChange size => handlePageSizeChange r size s
  | Refresh => refresh r s
  | ColumnChange key checked => handleColumnVisibilityChange r key checked s
  | SelectAll checked => handleSelectAll checked s
  | ResetColumns => initDefaultColumns s
  | Open m shown => open_modal m shown s
  | Close m => on_view (close_modal m) s
  | Copy text => copyText text s
  | Answer i res => match calls s !! i with Some w => answered w res (take_call i s) | None => s end
  | Failure i error => match calls s !! i with Some w => failed w error (take_call i s) | None => s end
  | CopyDone i okay =>
      match calls s !! i with Some (Copying text) => copied text okay (take_call i s) | _ => s end
  end.

Definition run (s : state) (es : list event) : state := fold_left step es s.

Definition first_view : view :=
  mk_view [] true (n 1) (n 0) (n 10) [] (false, VStr []) (false, VStr []) (false, VArr []) (false, VNull).

(** The first render and its effects. *)
Definition init (ms : Z) (store : storage) : state :=
  let size := saved_size "task-page-size" (n 10) store in
  loadLogs first_view (n 1) size
    (on_view (setPageSize size) (load_columns (mk_state first_view None ms store [] []))).

(** ** Laws *)

(** The page that is shown is that of the last answer, whichever was asked last. *)
Lemma last_answer_shown s i r items page total size rows :
  calls s !! i = Some (Load r) → mapM enrich items = Some rows → Forall (λ v, truthy v = true) [page; total; size] →
  let payload := VObj [(u "items", VArr items); (u "page", page); (u "total", total); (u "page_size", size)] in
  let v := now (step s (Answer i (VObj [(u "data", VObj [(u "success", VBool true); (u "data", payload)])]))) in
  logs v = rows ∧ activePage v = page ∧ logCount v = total ∧ pageSize v = size ∧ loading v = false.
Proof.
  intros Hi Hrows Hok payload v. rewrite !Forall_cons in Hok. destruct Hok as (Hp & Ht & Hz & _).
  unfold v. simpl. rewrite Hi. cbn [answered]. unfold load_answered.
  change (read (u "data") (VObj [(u "data", VObj [(u "success", VBool true); (u "data", payload)])])) with
    (Some (VObj [(u "success", VBool true); (u "data", payload)])). cbn [mbind option_bind].
  change (read (u "success") (VObj [(u "success", VBool true); (u "data", payload)])) with (Some (VBool true)).
  cbn [mbind option_bind truthy].
  change (opt_read (u "data") (VObj [(u "success", VBool true); (u "data", payload)])) with payload.
  unfold syncPageData. change (read (u "items") payload) with (Some (VArr items)).
  change (opt_read (u "page") payload) with page. change (opt_read (u "total") payload) with total.
  change (opt_read (u "page_size") payload) with size. cbn [mbind option_bind].
  change (value_or (VArr items) (VArr [])) with (VArr items). simpl enrichLogs. rewrite Hrows. cbn [mbind option_bind].
  unfold value_or. by rewrite Hp, Ht, Hz.
Qed.
End task_logs.
