(* ===== verification/PricingPage.v ===== *)
(** * The page of model prices
    [src/web/src/hooks/model-pricing/useModelPricingData.jsx], which loads, sorts and
    filters the models and opens their details, and [usePricingFilterCounts.js], which
    filters them again for the counts beside each filter. *)

From Stdlib Require Import SpecFloat.
From stdpp Require Import base numbers option strings sets list.
From S2P Require Import Prelude JsString JsNumber JsValue JsOps.

(** ** Filters *)

Record filters := mk_filters {
  filterGroup : jsstr;
  filterQuotaType : value;      (** 'all', 0 or 1 *)
  filterEndpointType : jsstr;
  filterVendor : jsstr;
  filterTag : jsstr;
  searchValue : jsstr;
}.

Definition is_all (f : jsstr) : bool := bool_decide (f = u "all").

(** [list.includes(x)] of an array, and of a text for a text. *)
Definition includes_value (l : value) (x : jsstr) : option bool :=
  match l with
  | VArr l => Some (existsb (strict_eq (VStr x)) l)
  | VStr s => Some (includes s x)
  | _ => None
  end.

(** [s.split(/[,;|]+/)]: a run of separators is one. *)
Definition is_separator (c : N) : bool := existsb (N.eqb c) [44; 59; 124]%N.
Fixpoint split_runs (cur : jsstr) (after : bool) (s : jsstr) : list jsstr :=
  match s with
  | [] => [rev cur]
  | c :: s =>
      if is_separator c then (if after then [] else [rev cur]) ++ split_runs [] true s
      else split_runs (c :: cur) false s
  end.

Section filtering.
Context (lower : jsstr → jsstr).

Definition field (k : string) (m : props) : value := prop (u k) m.

(** [v.toLowerCase()] *)
Definition lower_text (v : value) : option jsstr := match v with VStr s => Some (lower s) | _ => None end.

Definition tag_list (s : jsstr) : list jsstr :=
  List.filter str_truthy (map trim (split_runs [] false (lower s))).

(** [normalizeTags(tags = '')] *)
Definition normalizeTags (tags : value) : option (list jsstr) :=
  match tags with VUndef => Some (tag_list []) | VStr s => Some (tag_list s) | _ => None end.

(** A lower-cased text of the model contains the term; absent texts do not. *)
Definition mentions (term : jsstr) (v : value) : option bool :=
  if truthy v then s ← lower_text v; Some (includes s term) else Some false.

(** [a || b] of tests that may throw, from the left. *)
Definition or_test (a b : option bool) : option bool :=
  match a with Some true => Some true | Some false => b | None => None end.
Definition and_test (a b : option bool) : option bool :=
  match a with Some true => b | Some false => Some false | None => None end.

(** *** [usePricingFilterCounts]: one test with the filters to ignore *)

Inductive facet := Group | Quota | Endpoint | Vendor | Tag | Search.

#[export] Instance facet_eq_dec : EqDecision facet.
Proof. solve_decision. Defined.

Definition group_test (f : filters) (m : props) : option bool :=
  if is_all (filterGroup f) then Some true
  else if truthy (field "enable_groups" m) then includes_value (field "enable_groups" m) (filterGroup f) else Some false.

Definition quota_test (f : filters) (m : props) : option bool :=
  Some (strict_eq (filterQuotaType f) (VStr (u "all")) || strict_eq (field "pricing_type" m) (filterQuotaType f)).

Definition endpoint_test (f : filters) (m : props) : option bool :=
  if is_all (filterEndpointType f) then Some true
  else if truthy (field "supported_endpoint_types" m)
       then includes_value (field "supported_endpoint_types" m) (filterEndpointType f) else Some false.

Definition vendor_test (f : filters) (m : props) : option bool :=
  Some (is_all (filterVendor f) ||
    if bool_decide (filterVendor f = u "unknown") then negb (truthy (field "vendor_name" m))
    else strict_eq (field "vendor_name" m) (VStr (filterVendor f))).

Definition tag_test (f : filters) (m : props) : option bool :=
  if is_all (filterTag f) then Some true
  else tags ← normalizeTags (field "tags" m); Some (bool_decide (lower (filterTag f) ∈ tags)).

Definition search_test (f : filters) (m : props) : option bool :=
  match searchValue f with
  | [] => Some true
  | text =>
      let term := lower text in
      tags ← (if truthy (field "tags" m) then lower_text (field "tags" m) else Some []);
      or_test (s ← lower_text (field "model_name" m); Some (includes s term))
        (or_test (mentions term (field "description" m))
          (or_test (Some (includes tags term)) (mentions term (field "vendor_name" m))))
  end.

Definition facet_test (f : filters) (x : facet) : props → option bool :=
  match x with
  | Group => group_test f | Quota => quota_test f | Endpoint => endpoint_test f
  | Vendor => vendor_test f | Tag => tag_test f | Search => search_test f
  end.

Definition facets : list facet := [Group; Quota; Endpoint; Vendor; Tag; Search].

(** [matchesFilters(model, ignore)] *)
Definition matchesFilters (f : filters) (m : props) (ignore : list facet) : option bool :=
  foldr (λ x rest, and_test (if decide (x ∈ ignore) then Some true else facet_test f x m) rest) (Some true) facets.

(** [models.filter(test)]; [None] when a test throws. *)
Fixpoint filter_test (test : props → option bool) (l : list props) : option (list props) :=
  match l with
  | [] => Some []
  | m :: l => match test m, filter_test test l with
              | Some true, Some l => Some (m :: l)
              | Some false, Some l => Some l
              | _, _ => None
              end
  end.

(** [quotaTypeModels], [endpointTypeModels], [vendorModels], [tagModels] and
    [groupCountModels]: the models that the other filters let through. *)
Definition facet_models (f : filters) (x : facet) (models : list props) : option (list props) :=
  filter_test (λ m, matchesFilters f m [x]) models.

(** *** [useModelPricingData]: a pass for each filter *)

Definition group_pass (f : filters) (m : props) : option bool :=
  groups ← match value_or (field "enable_groups" m) (VArr []) with VArr l => Some l | _ => None end;
  Some (existsb (strict_eq (VStr (filterGroup f))) (List.filter (λ g, negb (strict_eq g (VStr []))) groups)).

Definition quota_pass (f : filters) (m : props) : option bool :=
  Some (strict_eq (field "pricing_type" m) (filterQuotaType f)).

Definition endpoint_pass (f : filters) (m : props) : option bool :=
  let types := field "supported_endpoint_types" m in
  if truthy types then includes_value types (filterEndpointType f) else Some false.

Definition vendor_pass (f : filters) (m : props) : option bool :=
  let vendor := field "vendor_name" m in
  Some (if bool_decide (filterVendor f = u "unknown") then negb (truthy vendor) else strict_eq vendor (VStr (filterVendor f))).

Definition tag_pass (f : filters) (m : props) : option bool :=
  if truthy (field "tags" m) then
    tags ← normalizeTags (field "tags" m); Some (bool_decide (lower (filterTag f) ∈ tags))
  else Some false.

Definition search_pass (f : filters) (m : props) : option bool :=
  let term := lower (searchValue f) in
  or_test (mentions term (field "model_name" m)) (or_test (mentions term (field "description" m))
    (or_test (mentions term (field "tags" m)) (mentions term (field "vendor_name" m)))).

Definition filteredModels (f : filters) (models : list props) : option (list props) :=
  let pass (active : bool) test (l : list props) := if active then filter_test test l else Some l in
  l ← pass (negb (is_all (filterGroup f))) (group_pass f) models;
  l ← pass (negb (strict_eq (filterQuotaType f) (VStr (u "all")))) (quota_pass f) l;
  l ← pass (negb (is_all (filterEndpointType f))) (endpoint_pass f) l;
  l ← pass (negb (is_all (filterVendor f))) (vendor_pass f) l;
  l ← pass (negb (is_all (filterTag f))) (tag_pass f) l;
  pass (str_truthy (searchValue f)) (search_pass f) l.

(** *** They agree *)

(** The models of the server: lists of texts, and texts, which may be missing. *)
Definition text_or_none (v : value) : Prop := v = VUndef ∨ ∃ s, v = VStr s.
Definition list_or_none (v : value) : Prop := v = VUndef ∨ v = VNull ∨ ∃ l, v = VArr (map VStr l).

Record model_ok (m : props) : Prop := {
  ok_groups : list_or_none (field "enable_groups" m);
  ok_endpoints : list_or_none (field "supported_endpoint_types" m);
  ok_tags : text_or_none (field "tags" m);
  ok_name : ∃ s, field "model_name" m = VStr s ∧ s ≠ [];
  ok_description : text_or_none (field "description" m);
  ok_vendor : text_or_none (field "vendor_name" m);
}.

(** The filters with one of them open. *)
Definition open_facet (x : facet) (f : filters) : filters :=
  match x with
  | Group => mk_filters (u "all") (filterQuotaType f) (filterEndpointType f) (filterVendor f) (filterTag f) (searchValue f)
  | Quota => mk_filters (filterGroup f) (VStr (u "all")) (filterEndpointType f) (filterVendor f) (filterTag f) (searchValue f)
  | Endpoint => mk_filters (filterGroup f) (filterQuotaType f) (u "all") (filterVendor f) (filterTag f) (searchValue f)
  | Vendor => mk_filters (filterGroup f) (filterQuotaType f) (filterEndpointType f) (u "all") (filterTag f) (searchValue f)
  | Tag => mk_filters (filterGroup f) (filterQuotaType f) (filterEndpointType f) (filterVendor f) (u "all") (searchValue f)
  | Search => mk_filters (filterGroup f) (filterQuotaType f) (filterEndpointType f) (filterVendor f) (filterTag f) []
  end.

(** What a good model's tests are, as booleans. *)
Definition holds (test : props → option bool) (m : props) : bool := default false (test m).

Lemma filter_test_bool test l :
  Forall (λ m, is_Some (test m)) l → filter_test test l = Some (List.filter (holds test) l).
Proof.
  induction 1 as [|m l [b Hb] _ IH]; [done|]. cbn [filter_test List.filter]. rewrite Hb, IH.
  assert (holds test m = b) as -> by (unfold holds; by rewrite Hb). by destruct b.
Qed.

Lemma filter_and {A} (p q : A → bool) l : List.filter p (List.filter q l) = List.filter (λ x, q x && p x) l.
Proof. induction l as [|x l IH]; [done|]. simpl. destruct (q x); simpl; [|done]. destruct (p x); by rewrite IH. Qed.

Lemma filter_ext {A} (p q : A → bool) l : Forall (λ x, p x = q x) l → List.filter p l = List.filter q l.
Proof. induction 1 as [|x l E _ IH]; [done|]. simpl. by rewrite E, IH. Qed.

Lemma filter_good (p : props → bool) l : Forall model_ok l → Forall model_ok (List.filter p l).
Proof. induction 1; simpl; [constructor|]. case_match; by try constructor. Qed.

Hypothesis lower_nil : ∀ s, lower s = [] ↔ s = [].

Lemma includes_texts l x : existsb (strict_eq (VStr x)) (map VStr l) = bool_decide (x ∈ l).
Proof.
  induction l as [|y l IH]; simpl; [done|]. rewrite IH. apply eq_true_iff_eq.
  rewrite orb_true_iff, !bool_decide_eq_true, elem_of_cons. done.
Qed.

Lemma mentions_text v term : text_or_none v →
  mentions term v = Some match v with VStr ((_ :: _) as s) => includes (lower s) term | _ => false end.
Proof. intros [-> |[[|c s] ->]]; done. Qed.

Lemma facet_test_total f x m : model_ok m → is_Some (facet_test f x m).
Proof.
  intros [Hg He Ht Hn Hd Hv]. destruct x; simpl.
  - unfold group_test. case_match; [by eexists|]. destruct Hg as [E|[E|[l E]]]; rewrite E; simpl; by eexists.
  - by eexists.
  - unfold endpoint_test. case_match; [by eexists|]. destruct He as [E|[E|[l E]]]; rewrite E; simpl; by eexists.
  - by eexists.
  - unfold tag_test. case_match; [by eexists|]. destruct Ht as [E|[s E]]; rewrite E; simpl; by eexists.
  - unfold search_test. destruct (searchValue f) as [|c text]; [by eexists|].
    destruct Hn as (name & -> & _). rewrite !mentions_text by done. destruct Ht as [->|[[|x s] ->]]; simpl;
      repeat (case_match; simpl); by eexists.
Qed.

Lemma matches_holds f m ignore : model_ok m →
  matchesFilters f m ignore =
  Some (forallb (λ x, bool_decide (x ∈ ignore) || holds (facet_test f x) m) facets).
Proof.
  intros H. unfold matchesFilters. generalize facets as l. induction l as [|x l IH]; [done|].
  cbn [foldr forallb]. rewrite IH. unfold holds. destruct (facet_test_total f x m H) as [b ->].
  destruct (decide (x ∈ ignore)) as [Hx|Hx].
  - rewrite bool_decide_true by done. done.
  - rewrite bool_decide_false by done. by destruct b.
Qed.

(** Each pass keeps what its facet lets through. *)
Lemma group_pass_test f m :
  filterGroup f ≠ [] → is_all (filterGroup f) = false → model_ok m → group_pass f m = group_test f m.
Proof.
  intros Hf Ha [Hg _ _ _ _ _]. unfold group_pass, group_test. rewrite Ha.
  destruct Hg as [->|[->|[l ->]]]; [done|done|]. simpl. f_equal.
  induction l as [|g l IH]; [done|]. simpl. rewrite <- IH. case_bool_decide as Eg; simpl; [|done].
  subst g. by rewrite bool_decide_false by done.
Qed.

Lemma tag_pass_test f m : is_all (filterTag f) = false → model_ok m → tag_pass f m = tag_test f m.
Proof.
  intros Ha [_ _ Ht _ _ _]. unfold tag_pass, tag_test. rewrite Ha.
  assert (tag_list [] = []) as Hnil by (unfold tag_list; by rewrite (proj2 (lower_nil []) eq_refl)).
  destruct Ht as [->|[[|c s] ->]]; simpl; rewrite ?Hnil; done.
Qed.

Lemma search_pass_test f m : searchValue f ≠ [] → model_ok m → search_pass f m = search_test f m.
Proof.
  intros Hs [_ _ Ht (name & Hn & Hname) Hd Hv]. unfold search_pass, search_test.
  destruct (searchValue f) as [|c text] eqn:E; [done|]. rewrite Hn.
  rewrite (mentions_text (VStr name)) by (right; by eexists). rewrite !mentions_text by done.
  destruct name as [|x name]; [done|]. cbn [lower_text].
  assert (includes [] (lower (c :: text)) = false) as Hnil.
  { destruct (lower (c :: text)) eqn:El; [by apply (proj1 (lower_nil _)) in El | done]. }
  destruct Ht as [->|[[|y s] ->]]; cbn [truthy str_truthy lower_text mbind option_bind]; rewrite ?Hnil; done.
Qed.

Lemma filtered_holds f models :
  filterGroup f ≠ [] → Forall model_ok models →
  filteredModels f models =
  Some (List.filter (λ m, forallb (λ x, holds (facet_test f x) m) facets) models).
Proof.
  intros Hf Hm. unfold filteredModels. cbv zeta.
  assert (∀ x active test l, Forall model_ok l →
    (active = false → ∀ m, facet_test f x m = Some true) →
    (active = true → ∀ m, model_ok m → test m = facet_test f x m) →
    (if active then filter_test test l else Some l) = Some (List.filter (holds (facet_test f x)) l)) as Hpass.
  { intros x active test l Hl Hoff Hon. destruct active.
    - rewrite filter_test_bool.
      + f_equal. apply filter_ext. eapply Forall_impl; [exact Hl|]. intros m H. unfold holds. by rewrite Hon.
      + eapply Forall_impl; [exact Hl|]. intros m H. rewrite Hon by done. by apply facet_test_total.
    - f_equal. symmetry. clear -Hoff. induction l as [|m l IH]; [done|]. simpl. unfold holds at 1.
      rewrite Hoff by done. simpl. by rewrite IH. }
  rewrite (Hpass Group); [|exact Hm|intros E%negb_false_iff m; simpl; unfold group_test; by rewrite E |
    intros E%negb_true_iff m Hm'; by apply group_pass_test]. cbn [mbind option_bind].
  rewrite (Hpass Quota); [|by apply filter_good|intros E%negb_false_iff m; simpl; unfold quota_test; by rewrite E |
    intros E%negb_true_iff m Hm'; simpl; unfold quota_test; by rewrite E]. cbn [mbind option_bind].
  rewrite (Hpass Endpoint); [|by repeat apply filter_good|
    intros E%negb_false_iff m; simpl; unfold endpoint_test; by rewrite E |
    intros E%negb_true_iff m _; simpl; unfold endpoint_test; by rewrite E]. cbn [mbind option_bind].
  rewrite (Hpass Vendor); [|by repeat apply filter_good|
    intros E%negb_false_iff m; simpl; unfold vendor_test; by rewrite E |
    intros E%negb_true_iff m _; simpl; unfold vendor_test; by rewrite E]. cbn [mbind option_bind].
  rewrite (Hpass Tag); [|by repeat apply filter_good|intros E%negb_false_iff m; simpl; unfold tag_test; by rewrite E |
    intros E%negb_true_iff m Hm'; by apply tag_pass_test]. cbn [mbind option_bind].
  rewrite (Hpass Search); [|by repeat apply filter_good|
    intros E m; simpl; unfold search_test; by destruct (searchValue f) |
    intros E m Hm'; apply search_pass_test; [by destruct (searchValue f) | done]].
  rewrite !filter_and. f_equal. apply filter_ext, Forall_true. intros m. simpl.
  rewrite !andb_assoc. by rewrite andb_true_r.
Qed.

Lemma holds_open f x y m :
  holds (facet_test (open_facet x f) y) m = bool_decide (y ∈ [x]) || holds (facet_test f y) m.
Proof.
  destruct (decide (x = y)) as [<-|Hne].
  - rewrite bool_decide_true by (by left). by destruct x.
  - rewrite bool_decide_false by (by intros ->%list_elem_of_singleton). by destruct x, y.
Qed.

(** C34: the two implementations of the filters agree: the models counted for a filter are
    those that the page would show if that filter were open, and with no filter
    ignored they are the models shown. *)
Theorem counts_match_page f models x :
  filterGroup f ≠ [] → Forall model_ok models →
  facet_models f x models = filteredModels (open_facet x f) models ∧
  filter_test (λ m, matchesFilters f m []) models = filteredModels f models.
Proof.
  intros Hf Hm.
  assert (filterGroup (open_facet x f) ≠ []) as Hf' by (by destruct x).
  rewrite !filtered_holds by done. unfold facet_models. rewrite !filter_test_bool.
  2-3: eapply Forall_impl; [exact Hm|]; intros m H; rewrite matches_holds by done; by eexists.
  split; f_equal; apply filter_ext; (eapply Forall_impl; [exact Hm|]); intros m H; unfold holds at 1;
    rewrite matches_holds by done; simpl default.
  - unfold facets. cbn [forallb]. by rewrite !holds_open.
  - done.
Qed.
End filtering.

Lemma counts_match_page_witness :
  let f := mk_filters (u "vip") (VNum (num_of_Z 1)) (u "all") (u "all") (u "all") (u "g") in
  let model g := [(u "enable_groups", VArr [VStr (u g)]); (u "model_name", VStr (u "gpt")); (u "pricing_type", VNum (num_of_Z 0))] in
  facet_models (λ s, s) f Quota [model "vip"%string; model "x"%string] = Some [model "vip"%string].
Proof.
  intros f model.
  assert (∀ g, model_ok (model g)) as Hok.
  { intros g. split.
    - right. right. by exists [u g].
    - by left.
    - by left.
    - by exists (u "gpt").
    - by left.
    - by left. }
  rewrite (proj1 (counts_match_page (λ s, s) (λ s, iff_refl _) f [model "vip"%string; model "x"%string] Quota ltac:(done)
    (Forall_cons_2 _ _ _ (Hok _) (Forall_cons_2 _ _ _ (Hok _) (Forall_nil_2 _))))).
  vm_compute. reflexivity.
Defined.

(** ** The page *)

Inductive effect :=
  | Get (url : jsstr)
  | ShowError (v : value)
  | InfoText (text : jsstr)
  | InfoGroup (group : jsstr) (ratio : value)
  | Copied (text : jsstr)
  | CopyFailed (text : jsstr)
  | Unhandled.

Record state := mk_state {
  page_filters : filters;
  selectedRowKeys : list jsstr;
  selectedGroup : jsstr;
  showModelDetail : bool;
  selectedModel : option props;
  currentPage : num;
  currency : jsstr;
  showWithRecharge : bool;
  models : list props;
  vendorsMap : props;
  loading : bool;
  groupRatio : value;
  usableGroup : value;
  endpointMap : value;
  autoGroups : value;
  isComposition : bool;
  loads : nat;                 (** requests without an answer *)
  closings : nat;              (** details whose 300 ms have not passed *)
  log : list effect;
}.

Definition with_filters f s := mk_state f (selectedRowKeys s) (selectedGroup s) (showModelDetail s) (selectedModel s)
  (currentPage s) (currency s) (showWithRecharge s) (models s) (vendorsMap s) (loading s) (groupRatio s)
  (usableGroup s) (endpointMap s) (autoGroups s) (isComposition s) (loads s) (closings s) (log s).
Definition with_selection keys group s := mk_state (page_filters s) keys group (showModelDetail s) (selectedModel s)
  (currentPage s) (currency s) (showWithRecharge s) (models s) (vendorsMap s) (loading s) (groupRatio s)
  (usableGroup s) (endpointMap s) (autoGroups s) (isComposition s) (loads s) (closings s) (log s).
Definition with_detail shown model n s := mk_state (page_filters s) (selectedRowKeys s) (selectedGroup s) shown model
  (currentPage s) (currency s) (showWithRecharge s) (models s) (vendorsMap s) (loading s) (groupRatio s)
  (usableGroup s) (endpointMap s) (autoGroups s) (isComposition s) (loads s) n (log s).
Definition with_page page cur recharge s := mk_state (page_filters s) (selectedRowKeys s) (selectedGroup s)
  (showModelDetail s) (selectedModel s) page cur recharge (models s) (vendorsMap s) (loading s) (groupRatio s)
  (usableGroup s) (endpointMap s) (autoGroups s) (isComposition s) (loads s) (closings s) (log s).
Definition with_data ms vendors groups usable endpoints auto s := mk_state (page_filters s) (selectedRowKeys s)
  (selectedGroup s) (showModelDetail s) (selectedModel s) (currentPage s) (currency s) (showWithRecharge s) ms vendors
  (loading s) groups usable endpoints auto (isComposition s) (loads s) (closings s) (log s).
Definition with_loading b n s := mk_state (page_filters s) (selectedRowKeys s) (selectedGroup s) (showModelDetail s)
  (selectedModel s) (currentPage s) (currency s) (showWithRecharge s) (models s) (vendorsMap s) b (groupRatio s)
  (usableGroup s) (endpointMap s) (autoGroups s) (isComposition s) n (closings s) (log s).
Definition with_composition b s := mk_state (page_filters s) (selectedRowKeys s) (selectedGroup s) (showModelDetail s)
  (selectedModel s) (currentPage s) (currency s) (showWithRecharge s) (models s) (vendorsMap s) (loading s)
  (groupRatio s) (usableGroup s) (endpointMap s) (autoGroups s) b (loads s) (closings s) (log s).
Definition emit e s := mk_state (page_filters s) (selectedRowKeys s) (selectedGroup s) (showModelDetail s)
  (selectedModel s) (currentPage s) (currency s) (showWithRecharge s) (models s) (vendorsMap s) (loading s)
  (groupRatio s) (usableGroup s) (endpointMap s) (autoGroups s) (isComposition s) (loads s) (closings s) (e :: log s).

Definition init : state :=
  mk_state (mk_filters (u "all") (VStr (u "all")) (u "all") (u "all") (u "all") []) [] (u "all") false None
    (num_of_Z 1) (u "USD") false [] [] true (VObj []) (VObj []) (VObj []) (VArr []) false 0 0 [].

(** *** Rates of the site, from the status context *)

Definition status_prop (k : string) (status d : value) : value :=
  match opt_read (u k) status with VUndef | VNull => d | v => v end.
Definition one : value := VNum (num_of_Z 1).
Definition priceRate (status : value) : value := status_prop "price" status one.
Definition usdExchangeRate (status : value) : value := status_prop "usd_exchange_rate" status (priceRate status).
Definition customExchangeRate (status : value) : value := status_prop "custom_currency_exchange_rate" status one.
Definition customCurrencySymbol (status : value) : value := status_prop "custom_currency_symbol" status (VStr (u "¤")).
Definition siteDisplayType (status : value) : value :=
  value_or (opt_read (u "quota_display_type") status) (VStr (u "USD")).

(** The effects on a new display type. *)
Definition sync_currency (status : value) (s : state) : state :=
  match siteDisplayType status with
  | VStr t =>
      if decide (t ∈ map u ["USD"; "CNY"; "CUSTOM"]%string) then with_page (currentPage s) t (showWithRecharge s) s
      else if decide (t = u "TOKENS") then with_page (currentPage s) (u "USD") false s
      else s
  | _ => s
  end.

(** [None] when a rate or the symbol cannot be converted. *)
Definition displayPrice (status : value) (s : state) (usdPrice : num) : option jsstr :=
  price ← to_number (priceRate status); exchange ← to_number (usdExchangeRate status);
  let usd := if showWithRecharge s then ndiv (nmul usdPrice price) exchange else usdPrice in
  if bool_decide (currency s = u "CNY") then Some (u "¥" ++ to_fixed (nmul usd exchange) 3)
  else if bool_decide (currency s = u "CUSTOM") then
    sym ← to_string (customCurrencySymbol status); custom ← to_number (customExchangeRate status);
    Some (sym ++ to_fixed (nmul usd custom) 3)
  else Some (u "$" ++ to_fixed usd 3).

Section page.
(** [before]: the order of [localeCompare]; [t]: the translation. *)
Context (t : jsstr → jsstr) (before : jsstr → jsstr → bool).

(** *** Loading *)

Definition with_vendor (vendorMap : props) (m : props) : option props :=
  let m := set (u "key") (field "model_name" m) m in
  if truthy (field "vendor_id" m) then
    id ← to_string (field "vendor_id" m);
    let vendor := prop id vendorMap in
    Some (if truthy vendor then
      set (u "vendor_description") (opt_read (u "description") vendor)
        (set (u "vendor_icon") (opt_read (u "icon") vendor) (set (u "vendor_name") (opt_read (u "name") vendor) m))
      else m)
  else Some m.

(** The comparators, as whether they do not place the second before the first. *)
Definition type_leb (a b : props) : bool :=
  match to_number (field "pricing_type" a), to_number (field "pricing_type" b) with
  | Some x, Some y => negb (nltb (num_of_Z 0) (nsub x y))
  | _, _ => true
  end.
Definition model_name (m : props) : jsstr := match field "model_name" m with VStr s => s | _ => [] end.
Definition name_leb (a b : props) : bool :=
  let gpt m := starts_with (model_name m) (u "gpt") in
  if gpt a && negb (gpt b) then true else if negb (gpt a) && gpt b then false else before (model_name a) (model_name b).

(** [None] when a vendor or a name cannot be read; comparing needs two models. *)
Definition setModelsFormat (data : list props) (vendorMap : props) : option (list props) :=
  ms ← mapM (with_vendor vendorMap) data;
  if (1 <? length ms)%nat && existsb (λ m, negb match field "model_name" m with VStr _ => true | _ => false end) ms
  then None else Some (sort name_leb (sort type_leb ms)).

Definition vendor_map (vendors : value) : option props :=
  match vendors with
  | VArr l => foldl (λ o v, o ← o; id ← read (u "id") v; k ← to_string id; Some (set k v o)) (Some []) l
  | _ => Some []
  end.

Definition loadPricing (s : state) : state := emit (Get (u "/api/pricing")) (with_loading true (S (loads s)) s).

(** The answer; what throws leaves the page loading. *)
Definition pricing_answered (res : value) (s : state) : state :=
  match read (u "data") res ≫= λ d, x ← read (u "success") d; Some (d, x) with
  | None => emit Unhandled s
  | Some (data, success) =>
      let part k := opt_read (u k) data in
      if truthy success then
        let s1 := with_selection (selectedRowKeys s) (u "all")
          (with_data (models s) (vendorsMap s) (part "group_discount"%string) (part "usable_group"%string)
            (endpointMap s) (autoGroups s) s) in
        match vendor_map (part "vendors"%string) with
        | None => emit Unhandled s1
        | Some vendors =>
            let s2 := with_data (models s1) vendors (groupRatio s1) (usableGroup s1)
              (value_or (part "supported_endpoint"%string) (VObj [])) (value_or (part "auto_groups"%string) (VArr [])) s1 in
            match (match part "data"%string with VArr l => mapM as_object l | _ => None end) ≫= λ l, setModelsFormat l vendors with
            | Some ms => with_loading false (loads s2)
                (with_data ms (vendorsMap s2) (groupRatio s2) (usableGroup s2) (endpointMap s2) (autoGroups s2) s2)
            | None => emit Unhandled s2
            end
        end
      else with_loading false (loads s) (emit (ShowError (part "message"%string)) s)
  end.

(** *** Handlers *)

(** A filter changes; the effect of the render shows the first page when it does. *)
Definition set_filters (f : filters) (s : state) : state :=
  with_page (num_of_Z 1) (currency s) (showWithRecharge s) (with_filters f s).

Definition set_search (text : jsstr) (s : state) : state :=
  let f := page_filters s in
  if decide (text = searchValue f) then s
  else set_filters (mk_filters (filterGroup f) (filterQuotaType f) (filterEndpointType f) (filterVendor f) (filterTag f) text) s.

Definition handleChange (text : option jsstr) : state → state := set_search (default [] text).
Definition handleCompositionStart : state → state := with_composition true.
Definition handleCompositionEnd (text : option jsstr) (s : state) : state :=
  set_search (default [] text) (with_composition false s).

Definition set_group (group : jsstr) (s : state) : state :=
  let f := page_filters s in
  if decide (group = filterGroup f) then s
  else set_filters (mk_filters group (filterQuotaType f) (filterEndpointType f) (filterVendor f) (filterTag f) (searchValue f)) s.

Definition handleGroupClick (group : jsstr) (s : state) : state :=
  emit (if decide (group = u "all") then InfoText (t (u "已切换至最优折扣视图，每个模型使用其最低折扣分组"))
        else InfoGroup group match opt_read group (groupRatio s) with VUndef | VNull => one | v => v end)
    (set_group group (with_selection (selectedRowKeys s) group s)).

Definition openModelDetail (m : props) (s : state) : state := with_detail true (Some m) (closings s) s.
Definition closeModelDetail (s : state) : state := with_detail false (selectedModel s) (S (closings s)) s.
Definition detail_closed (s : state) : state := with_detail (showModelDetail s) None (closings s - 1) s.

(** [copy] answered. *)
Definition copyText (text : jsstr) (okay : bool) (s : state) : state :=
  emit (if okay then Copied (t (u "已复制：") ++ text) else CopyFailed text) s.

Inductive event :=
  | Refresh
  | Pricing (res : value)
  | Failure
  | Status (status : value)
  | ChangeText (text : option jsstr)
  | CompositionStart
  | CompositionEnd (text : option jsstr)
  | ClickGroup (group : jsstr)
  | Filters (f : filters)
  | Rows (keys : list jsstr)
  | ShowPage (page : num)
  | Open (m : props)
  | Close
  | CloseTimer
  | Copy (text : jsstr) (okay : bool).

Definition step (s : state) (e : event) : state :=
  match e with
  | Refresh => loadPricing s
  | Pricing res => match loads s with O => s | S n => pricing_answered res (with_loading (loading s) n s) end
  | Failure => match loads s with O => s | S n => emit Unhandled (with_loading (loading s) n s) end
  | Status status => sync_currency status s
  | ChangeText text => handleChange text s
  | CompositionStart => handleCompositionStart s
  | CompositionEnd text => handleCompositionEnd text s
  | ClickGroup group => handleGroupClick group s
  | Filters f => set_filters f s
  | Rows keys => with_selection keys (selectedGroup s) s
  | ShowPage page => with_page page (currency s) (showWithRecharge s) s
  | Open m => openModelDetail m s
  | Close => closeModelDetail s
  | CloseTimer => match closings s with O => s | S _ => detail_closed s end
  | Copy text okay => copyText text okay s
  end.

Definition run (s : state) (es : list event) : state := fold_left step es s.

(** Details opened within 300 ms of closing others lose their model. *)
Lemma reopened_detail_emptied m s :
  let s' := run s [Close; Open m; CloseTimer] in showModelDetail s' = true ∧ selectedModel s' = None.
Proof. done. Qed.
End page.
